(* ===== verification/_CoqProject ===== *)
-Q . S2P
Prelude.v
Frame.v
Weights.v
Primitives.v
Protocol.v
StakeAmount.v
EraInfo.v
AccountLedger.v
SingularStakingInfo.v
ContractStakeAmount.v
EraRewardSpan.v
Tiers.v
PalletState.v
DAppStaking.v
TierAssignment.v
EraHandler.v
Invariant.v
Preservation.v
Reachability.v
Registry.v
ExampleWorld.v
TryState.v
Operations.v
Timeline.v
History.v
Findings.v
Inflation.v
PriceAggregator.v
DynamicEvmBaseFee.v
CollatorSelection.v
CollatorSafety.v
Composition.v
UnifiedAccounts.v
XcAssetConfig.v
Treasury.v
TreasurySafety.v
TreasuryHistory.v
TreasuryExample.v
XcmPrimitives.v
SteppedMigration.v
EthereumChecked.v
DAppMigration.v
PrecompileUtils.v
AssetsErc20.v
DAppStakingPrecompile.v
RuntimeCalls.v
DispatchPrecompiles.v
RuntimeAstar.v
RuntimeShibuya.v
RuntimeShiden.v
RuntimeLocal.v
Runtimes.v
RuntimeTreasury.v
XcmPrecompile.v
ChainExtensions.v
RuntimeFees.v
XcmPayments.v
XcmWeights.v
XcmWeightsAstar.v
XcmWeightsShibuya.v
XcmWeightsShiden.v
XcmWeightBounds.v
DAppStakingBenchmarks.v
PalletBenchmarks.v
DispatchWeights.v
RuntimeWeights.v
CollatorWeights.v
EvmEvents.v
CallListTracing.v
TraceFormatters.v
CallListSpec.v
CallListBlock.v
TraceApi.v
RawTracing.v
TracingExamples.v
TraceCache.v
TraceCacheSafety.v
TraceCacheProgress.v
TraceRpc.v
DebugRpc.v
