(* ===== verification/Prelude.v ===== *)
(** * Verification of the Astar runtime

    Astar is a Substrate parachain.  This development models its pallets, the
    ways into them from the EVM, from Wasm contracts and from other chains, the
    parts of the runtimes that decide who may call what and what it costs, and
    the tracing of EVM transactions in the runtime and in the node, translated
    from the Rust sources under [src/], and proves what makes them correct.
    Pure Rust functions are Rocq functions; a pallet's storage is a record; a
    call maps a storage and its arguments to a new storage or an error;
    [unsigned] integers are [Z] with the saturation, check or wrap of every
    operation written out.

    ** The program and how its parts interact

    - dApp staking ([pallets/dapp-staking]) divides time into eras, eras into
      a voting and a build-and-earn subperiod, and both into periods.  Accounts
      lock funds, stake them on registered contracts, unlock them after an
      unbonding time and claim rewards per era; contracts are put into tiers at
      the end of each build-and-earn era.  [on_initialize] drives eras and
      periods, [on_idle] deletes expired history.
    - Inflation ([pallets/inflation]) owns issuance.  It implements
      [StakingRewardHandler] (the pools of an era or period and the payout of
      a reward) and [Observer] (the announcement of the next era) for dApp
      staking, and refuses payouts that pass the cap on issuance.
    - The price aggregator ([pallets/price-aggregator]) turns oracle values
      into a moving average, the [PriceProvider] of the tier configuration;
      [pallets/static-price-provider] is its constant stand-in.
    - Dynamic EVM base fee ([pallets/dynamic-evm-base-fee]) moves the gas
      price of the EVM after the native fee multiplier, a bounded step per
      block.
    - [primitives/src/dapp_staking.rs] holds the types and traits they share.
    - Collator selection ([pallets/collator-selection]) keeps candidates and
      their bonds, picks the collators of a session, and kicks and slashes the
      ones that miss their blocks.  It and dApp staking exclude each other's
      accounts.
    - Unified accounts ([pallets/unified-accounts]) binds native accounts to
      EVM addresses; ethereum checked ([pallets/ethereum-checked]) executes EVM
      transactions for origins without a key; the collective proxy
      ([pallets/collective-proxy]) lets a collective act as the treasury.
    - XC asset config ([pallets/xc-asset-config]) maps asset ids to locations
      and prices; [primitives/src/xcm/mod.rs] converts, trades and filters by
      it, and [runtime/*/src/weights/xcm] weighs the instructions of a message.
    - The treasury ([vendor/treasury]) awards proposals from its pot at the end
      of a spend period and pays spends of other assets on demand; collator
      selection and the fees feed it.
    - EVM tracing ([vendor/evm-tracing], [vendor/runtime/evm-tracer]) listens to
      the events of the EVM while a runtime executes a block again, and makes
      traces of them.  The node's tracing RPC ([vendor/rpc]) has the runtime do
      so: [trace_filter] pages through the traces of a range of blocks, which a
      cache task has traced in the background and keeps until the batches that
      asked for them expire; [debug] traces one block, transaction or call at a
      time; [txpool] shows the transactions of the pool.
    - The precompiles ([precompiles/*]) expose pallets to the EVM, the chain
      extensions ([chain-extensions/*]) to Wasm contracts.
    - The runtimes ([runtime/*]) compose all of this: call filters, proxy
      types, configuration, weights, fees and block rewards.

    ** Files

    - [Prelude]: integers of fixed width, the [Result] type, list and map
      lemmas, tactics and hint databases used by all files.
    - [Frame]: the Substrate code outside the repository, as classes of
      operations ([SpArithmetic], [Currency], [FrameSystem]) and, apart from
      them, classes of laws that only the theorems which need them mention.
    - [Primitives]: cycle lengths, tier slots and [RankedTier].
    - [Protocol], [StakeAmount], [EraInfo], [AccountLedger],
      [SingularStakingInfo], [ContractStakeAmount], [EraRewardSpan], [Tiers]:
      the types of [pallets/dapp-staking/src/types.rs], one file per type, each
      method a definition of the same name.
    - [PalletState], [DAppStaking], [TierAssignment], [EraHandler]: the pallet
      [pallets/dapp-staking/src/lib.rs]: configuration, storage and helpers;
      the calls; the tier assignment; the hooks and era transitions.
    - [Invariant], [Preservation], [Reachability]: the accounting invariant,
      its preservation by every call and hook, and the step relation of the
      whole pallet with its reachable states.  [Registry] and [History] are two
      more invariants, of the registered dApps and of the reward history.
    - [TryState]: the pallet's own [try_state] checks.  [Operations] and
      [Timeline]: what the staking calls do, and when eras and periods start.
    - [ExampleWorld]: a concrete runtime that satisfies all laws, in which the
      witnesses run the model.  [Findings]: executions of it that end in states
      which contradict the documentation or the pallet's own checks.
    - [Inflation], [PriceAggregator] (with the static price provider),
      [DynamicEvmBaseFee], [CollatorSelection], [UnifiedAccounts],
      [XcAssetConfig], [EthereumChecked]: the pallets of these names.
      [CollatorSafety] has the theorems on collator selection, [Composition]
      runs it together with dApp staking.
    - [Treasury] with [TreasurySafety] (laws, invariant), [TreasuryHistory]
      (theorems), [TreasuryExample]: [vendor/treasury/src/lib.rs];
      [RuntimeTreasury]: its instances in the runtimes.
    - [Weights]: weights and database prices.  [DAppStakingBenchmarks],
      [PalletBenchmarks]: the benchmarked weights, one definition per function
      of the [weights] files.  [DispatchWeights], [CollatorWeights]: what the
      calls and hooks of dApp staking and collator selection declare and report,
      and what that guarantees.  [RuntimeWeights]: the blocks of the runtimes,
      and executions.
    - [EvmEvents]: the events and the types of traces.  [CallListTracing]:
      [listeners/call_list.rs]; [TraceFormatters]: [formatters/*], with the proof
      that nesting inverts flattening.  [CallListSpec], [CallListBlock]: a
      transaction as a tree of calls and the proof that the trace is that tree.
      [TraceApi]: the tracing API of the runtimes.  [RawTracing]:
      [listeners/raw.rs].  [TracingExamples]: executions.
    - [TraceCache]: the cache task of [vendor/rpc/trace/src/lib.rs], a handler
      per message, and the node around it as a step relation: the clients, the
      timers, the tasks that trace and their channel.  [TraceCacheSafety]: its
      invariants; [TraceCacheProgress]: the theorems, and an execution.
      [TraceRpc]: the rest of that file, [trace_filter] and [cache_block].
      [DebugRpc]: [vendor/rpc/debug/src/lib.rs], [vendor/rpc/txpool/src/lib.rs]
      and what the runtime APIs have the EVM run for [debug_traceCall],
      [eth_call] and [eth_estimateGas].
    - [SteppedMigration]: the loop of a multi-block migration, for any map, and
      its client [pallets/vesting-mbm]; [DAppMigration]
      ([pallets/dapp-staking/src/migration.rs]) is the other one.
    - [XcmPrimitives]: [primitives/src/xcm/mod.rs], the barrier included.
      [XcmWeights] with [XcmWeightsAstar], [XcmWeightsShibuya],
      [XcmWeightsShiden]: [runtime/*/src/weights/xcm]; [XcmWeightBounds] has
      the theorems.
    - [PrecompileUtils], [AssetsErc20], [DAppStakingPrecompile],
      [XcmPrecompile], [DispatchPrecompiles] (with those that only look up or
      verify): the precompiles; [ChainExtensions]: the chain extensions.
    - [RuntimeCalls]: the calls of a runtime, filtered dispatch and the
      collective proxy; [RuntimeAstar], [RuntimeShibuya], [RuntimeShiden],
      [RuntimeLocal]: what each runtime sets; [RuntimeFees]: fees and block
      rewards; [Runtimes]: the theorems.  [XcmPayments]: the price of execution,
      the payment API and the calls a message may dispatch
      ([runtime/*/src/xcm_config.rs]).

    ** What the theorems show

    - Accounting: in every reachable state the ledger check of [try_state]
      passes and every stake is backed by locked funds and these by the
      balance ([try_state_ledger_holds], [stakes_are_backed]); ids, registry
      and tier configuration stay consistent ([registry_checks_hold],
      [tier_checks_hold]).
    - Operations: what [stake], [unstake] and [unlock] do to the account and to
      the totals, in every reachable state ([stake_outcome],
      [unstake_outcome], [unlock_outcome]), resting on the specifications of
      the types' methods ([add_stake_amount_spec], [unstake_amount_spec],
      [claim_unlocked_spec], [contract_stake_spec], [contract_unstake_spec],
      [singular_unstake_spec], [span_push_get], ...).
    - Rewards: a staker's claim ends in the world in which the sum of the
      shares of its eras was paid out, and fails only when nothing is
      claimable, the rewards have expired, or the payout or the freeze fails
      ([staker_claim_outcome]); claiming pays exactly the eras up to the
      claimed one ([claim_up_to_era_spec]); tiers are filled greedily by stake
      and threshold, and their rewards stay within the pool
      ([tier_assignment_spec], [tier_rewards_within_pool]); a tier reward is
      paid once ([try_claim_once]).
    - Time: an undisturbed chain follows the documented calendar
      ([era_schedule]).
    - Issuance: a recalculation plans no more than the configured emission, a
      payout beyond the issuance cap is refused, and each cycle recalculates once ([emission_within_cap],
      [payout_respects_cap], [recalculation_once_per_cycle]).
    - Prices and fees: the circular buffer holds the latest values
      ([circular_buffer_window]), a minority of oracles cannot move the median
      outside the honest values ([median_robust]); the base fee stays within
      its limits, moves by at most the step limit and settles at the ideal value
      ([base_fee_step], [base_fee_settles]).
    - Collators: every bond is backed by a reserve, that of a leaver too until
      it is withdrawn ([collator_bonds_backed]), a
      session is made of the invulnerables and the candidates that are not
      stale ([new_session_outcome]), a collator that leaves gets its bond back
      ([leave_and_withdraw]), and no account is candidate and staker at once
      unless its bonus is claimed late ([stakers_are_not_candidates],
      [candidate_becomes_staker]).
    - Accounts: the two maps of unified accounts are inverse and permanent
      ([mappings_are_inverse], [mapping_is_permanent], [lookups_are_inverse]);
      no two transactions that the checked pallet hands to the EVM are the
      same ([executed_transactions_distinct]).
    - Other chains: asset ids and locations convert back and forth
      ([asset_conversion_roundtrip]), before and after the migration
      ([migration_preserves_registry]); the trader keeps account of what it was
      paid ([trader_conserves]); a message is executed only if it pays
      ([barrier_admits_paid]); unsupported instructions fit into no block and
      the others into one ([instructions_fit_or_never_run]).
    - Messages and fees: the payment API quotes for a foreign asset what the
      trader charges ([fee_quotes_match_trader]); whatever a message dispatches
      leads to no EVM call, at any depth ([transact_calls_confined]).
    - Treasury: a spend period awards from the approval queue what the pot covers
      and takes from nobody ([spend_funds_outcome]), so that an approved
      proposal is paid ([approved_proposal_paid]); each spend follows its
      automaton and is not paid twice ([spend_lifecycle]); an origin spends no
      more than its limit in one dispatch ([dispatch_spend_limit]); bonds stay
      reserved ([treasury_bonds_backed]).
    - Weights: a call reports no more than it declared
      ([reported_weight_declared], [collator_reported_declared]), the clean-up
      stays within what it is given ([idle_within_remaining]), and the calls and
      the change of an era fit into a block of every runtime
      ([runtime_weights_fit], [assets_calls_fit], [xcm_calls_fit],
      [other_calls_fit], [pallet_calls_fit]).
    - Tracing: the replay of a block ends where its execution ends, and the call
      list and the nested trace of it are the trees of calls of its transactions
      ([trace_block_faithful], [block_traced], [nest_calls_flatten]); one
      transaction is traced in the state in which it was executed
      ([trace_transaction_faithful]); a raw trace keeps within its limit and the
      listener does not panic ([raw_trace_bounded]).
    - Tracing RPC: the cache answers a request once and rightly
      ([trace_cache_sound]), comes to rest and has then answered all of them
      ([requests_served]) and keeps the blocks of an open batch
      ([open_blocks_cached]); [trace_filter] returns the page it is asked for
      ([trace_filter_page], [trace_filter_served]), of traces with the right
      hashes ([block_traces_labelled]); [debug] returns the trees of calls of a
      block, a transaction or a call ([debug_block_trees],
      [debug_transaction_tree], [debug_call_tree]); the pool is shown by sender
      and nonce ([pool_lookup]); numbers and bytes are read and written
      consistently ([request_number_roundtrip], [bytes_roundtrip]).
    - Migrations: a step returns, and any schedule of steps amounts to one pass
      over the map ([vesting_step_returns], [vesting_migration_is_one_pass]);
      the migration of the ledgers doubles each wait that is left, and the
      invariant of dApp staking holds wherever it stands
      ([ledger_migration_preserves_invariant]); faster blocks do not raise the
      emission ([faster_blocks_keep_emission]).
    - Contracts: the precompiles do for an EVM account what the pallets do for
      its native account and nothing more ([evm_calls_are_user_calls],
      [nomination_transfer_conserves], [xcm_calls_stand_for_interface]); tokens
      keep ERC-20's rules for allowances ([allowances_follow_erc20]); chain
      extensions agree with the precompile
      ([extension_agrees_with_precompile]).
    - Runtimes: the council and the lockdrop dispatch are confined to the calls
      their filters list, in batches too ([council_calls_confined],
      [lockdrop_calls_confined]); proxy types are ordered as their filters are
      on Astar and Shiden ([proxy_types_ordered]) and are not on Shibuya
      ([non_transfer_proxy_widens]); in safe mode the committee that may end it
      is locked out ([safe_mode_locks_out_committee]); the real configurations meet what the
      theorems assume ([runtimes_start]); fees and block rewards reach the pot
      and the treasury, as far as the balances accept them, and nobody else
      ([fees_are_split], [block_rewards_reach_beneficiaries]).
    - Deviations: the theorems of [Findings], and those of other files that
      evaluate an execution ([candidate_becomes_staker],
      [unlocked_bond_slashed], [change_to_same_location_unmaps],
      [refund_exceeds_payment], [burn_logs_more_than_burned],
      [version_1_misreads_lists], [native_quote_tenfold],
      [second_transaction_cost_missing], [raw_stack_undercounted],
      [cleanup_outweighs_limit], [new_session_ignores_candidates],
      [cancelled_block_evicted], [checked_transaction_takes_traces],
      [exact_maximum_refused], [last_open_context_dropped],
      [access_list_ignored], ...), exhibit
      behaviour that contradicts the documentation or a check of the code
      itself.

    ** Bounds, fuel and hypotheses

    The iterator over the eras of a claim is unfolded with one more step than
    the claim has eras; running out would be the separate outcome
    [NonTermination], which the claim theorems exclude.  The binary search over
    the unlocking chunks is the standard library's loop, with one more round
    than the list has elements; every round shortens the window, and
    [binary_search_by_correct] shows that the search ends properly.
    The loop of a migration step has a round for each entry of the map and one
    more, because a round either moves the cursor or ends the loop;
    [vesting_step_returns] shows that this is enough.  The steps of the tracing
    tasks and of the cache task with their messages decrease a measure, so that
    they end ([requests_served]).  Everything else is structurally recursive.

    The code outside the repository is a parameter of the definitions: the
    fixed-point arithmetic, balances and freezes, origins and block number,
    the reward handler, the price, the tier slot function, the enumeration
    order of hashed maps and the order in which an unstable sort leaves equal
    elements.  [ExactArithmetic] and [ExampleWorld] implement all of them and
    satisfy all laws; [Inflation] discharges the laws of the reward handler
    and of the observer with the real pallet.  Likewise the reserved currency,
    hashing and signature recovery, the conversion of XCM versions and
    locations, the assets pallet, the EVM, the gas meter and the dispatch of
    runtime calls are classes of operations, with their laws apart and a small
    instance of each beside its theorems.  [config_ok] collects the facts
    about the runtime constants that the theorems need, most of them checked
    by the pallet's [integrity_test].

    ** Not modelled

    Benchmarks themselves, which are run to measure weights; events where no
    theorem needs them; the pre- and post-upgrade checks of
    migrations, which run in tests only; the ABI and SCALE codecs, which are
    third-party; the configuration of third-party pallets and the runtime APIs
    in the runtimes except for payment, tracing, the pool and EVM calls; the
    service of the node apart from its tracing RPC and the command-line tools,
    which are I/O; JSON and metrics. *)

From stdpp Require Export base gmap list sorting.
From Stdlib Require Export ZArith Lia ZifyBool.

Open Scope Z_scope.

(** ** Machine integers

    An unsigned [w]-bit integer is a [Z] kept in [[0, 2^w - 1]]; every
    operation that can leave that range says what the Rust operation does
    there (saturate or fail). *)

Abbreviation u8_max := 255.
Abbreviation u16_max := 65535.
Abbreviation u32_max := 4294967295.
Abbreviation u64_max := 18446744073709551615.
Abbreviation u128_max := 340282366920938463463374607431768211455.

(** [x] is a value of the unsigned type whose largest value is [m]. *)
Definition in_range (m x : Z) : Prop := 0 <= x <= m.

(** Rust [saturating_add], [saturating_sub], [saturating_mul],
    [saturating_div] on an unsigned type whose largest value is [m]. *)
Definition sat_add (m a b : Z) : Z := Z.min m (a + b).
Definition sat_sub (a b : Z) : Z := Z.max 0 (a - b).
Definition sat_mul (m a b : Z) : Z := Z.min m (a * b).
Definition sat_div (a b : Z) : Z := a / b.

(** Rust [checked_add] and [checked_sub]. *)
Definition checked_add (m a b : Z) : option Z :=
  if a + b <=? m then Some (a + b) else None.
Definition checked_sub (a b : Z) : option Z :=
  if b <=? a then Some (a - b) else None.

(** [UniqueSaturatedInto] / [SaturatedConversion] from a wider unsigned type
    into the one whose largest value is [m]. *)
Definition saturated_into (m x : Z) : Z := Z.min m x.

(** ** Fallible code: Rust's [Result] *)

Inductive Result (A E : Type) : Type :=
| Ok (a : A)
| Err (e : E).
Arguments Ok {A E} a.
Arguments Err {A E} e.

Definition is_ok {A E} (r : Result A E) : bool :=
  match r with Ok _ => true | Err _ => false end.

(** [Option::ok_or] and [Result::map_err]. *)
Definition ok_or {A E} (o : option A) (e : E) : Result A E :=
  match o with Some a => Ok a | None => Err e end.
Definition map_err {A E F} (f : E -> F) (r : Result A E) : Result A F :=
  match r with Ok a => Ok a | Err e => Err (f e) end.

Declare Scope rust_scope.
Delimit Scope rust_scope with rust.

(** [let! x := e in k] is [let x = e?; k]; [ensure! b else err in k] is
    [ensure!(b, err); k]. *)
Notation "'let!' x ':=' e 'in' k" :=
  (match e with Ok x => k | Err er => Err er end)
  (at level 10, x pattern at level 60, e at level 100, k at level 200) : rust_scope.
Notation "'ensure!' b 'else' err 'in' k" :=
  (if b then k else Err err)
  (at level 10, b at level 100, err at level 100, k at level 200) : rust_scope.

Open Scope rust_scope.

(** ** Bounded vectors

    [BoundedVec<T, S>] is a vector whose length never exceeds the bound [S];
    the [try_] operations refuse to go beyond it. *)

Definition try_push {A} (bound : Z) (l : list A) (x : A) : option (list A) :=
  if Z.of_nat (length l) <? bound then Some (l ++ [x]) else None.

Definition try_insert {A} (bound : Z) (l : list A) (i : nat) (x : A) : option (list A) :=
  if Z.of_nat (length l) <? bound then Some (take i l ++ x :: drop i l) else None.

Definition try_from {A} (bound : Z) (l : list A) : option (list A) :=
  if Z.of_nat (length l) <=? bound then Some l else None.

(** ** Binary search

    [slice::binary_search_by]: the loop of the standard library, on a key
    function [key] and a target [t].  [inl i] is [Ok(i)], [inr i] is
    [Err(i)], the insertion point.  The fuel bounds the number of rounds;
    each round at least halves the window, so [length l] rounds are enough
    ([binary_search_by_correct]). *)
Section binary_search.
Context {A : Type} (key : A -> Z) (l : list A) (t : Z).

Fixpoint binary_search_loop (fuel left right : nat) : nat + nat :=
  match fuel with
  | O => inr left
  | S fuel =>
      if (left <? right)%nat then
        let mid := (left + (right - left) / 2)%nat in
        match l !! mid with
        | None => inr left
        | Some x =>
            match key x ?= t with
            | Lt => binary_search_loop fuel (S mid) right
            | Gt => binary_search_loop fuel left mid
            | Eq => inl mid
            end
        end
      else inr left
  end.

Definition binary_search_by : nat + nat :=
  binary_search_loop (S (length l)) 0 (length l).
End binary_search.

(** ** Sums *)

Definition zsum (l : list Z) : Z := foldr Z.add 0 l.

(** The sum of [f v] over the values of a map. *)
Definition map_sum `{Countable K} {V} (f : V -> Z) (m : gmap K V) : Z :=
  zsum ((fun kv => f (snd kv)) <$> map_to_list m).

(** ** Automation *)

Create HintDb rust.

Ltac unfold_arith :=
  unfold in_range, sat_add, sat_sub, sat_mul, sat_div, saturated_into in *.

(** Linear arithmetic over the saturating operations. *)
Ltac ulia := unfold_arith; lia.

(** One step of inversion of a hypothesis [e = Ok r], [e = Err r] or
    [e = Some r] where [e] is a chain of [let!], [ensure!] and matches. *)
Ltac result_step :=
  match goal with
  | H : Ok _ = Ok _ |- _ => injection H as H; try subst
  | H : Err _ = Err _ |- _ => injection H as H; try subst
  | H : Some _ = Some _ |- _ => injection H as H; try subst
  | H : (_, _) = (_, _) |- _ => injection H as ? H; try subst
  | H : Ok _ = Err _ |- _ => discriminate H
  | H : Err _ = Ok _ |- _ => discriminate H
  | H : Some _ = None |- _ => discriminate H
  | H : None = Some _ |- _ => discriminate H
  | H : (match ?x with Ok _ => _ | Err _ => _ end) = _ |- _ =>
      destruct x eqn:?; try discriminate H
  | H : (match ?x with Some _ => _ | None => _ end) = _ |- _ =>
      destruct x eqn:?; try discriminate H
  | H : (let '(_, _) := ?x in _) = _ |- _ => destruct x eqn:?
  | H : (if ?x then _ else _) = _ |- _ =>
      destruct x eqn:?; try discriminate H
  | H : ok_or _ _ = _ |- _ => unfold ok_or in H
  | H : map_err _ _ = _ |- _ => unfold map_err in H
  end.
Ltac result_inv := repeat result_step.

(** The same one bind or guard at a time, with names. *)
Tactic Notation "bind_inv" hyp(H) "as" simple_intropattern(x) ident(E) :=
  lazymatch type of H with
  | (match ?e with Ok _ => _ | Err _ => _ end) = Ok _ =>
      destruct e as [x|] eqn:E; [|discriminate H]
  end.
Tactic Notation "guard_inv" hyp(H) "as" ident(E) :=
  lazymatch type of H with
  | (if ?b then _ else _) = Ok _ => destruct b eqn:E; [|discriminate H]
  end.

(** Case analysis on every test of the goal. *)
Ltac case_all :=
  repeat match goal with
  | |- context [match ?x with _ => _ end] => destruct x eqn:?
  end.

(** ** Lemmas on the saturating operations *)

Lemma sat_add_exact m a b : a + b <= m -> sat_add m a b = a + b.
Proof. ulia. Qed.

Lemma sat_sub_exact a b : b <= a -> sat_sub a b = a - b.
Proof. ulia. Qed.

Lemma sat_mul_exact m a b : a * b <= m -> sat_mul m a b = a * b.
Proof. ulia. Qed.

Lemma sat_add_range m a b :
  in_range m a -> in_range m b -> in_range m (sat_add m a b).
Proof. ulia. Qed.

Lemma sat_sub_range m a b :
  in_range m a -> 0 <= b -> in_range m (sat_sub a b).
Proof. ulia. Qed.

#[export] Hint Resolve sat_add_range sat_sub_range : rust.

(** ** Lemmas on folds *)

Lemma foldl_ext {A B} (f g : A -> B -> A) l a :
  (forall a b, f a b = g a b) -> foldl f a l = foldl g a l.
Proof. intros Hfg. revert a. induction l as [|x l IH]; intros a; simpl; [done|]. by rewrite Hfg, IH. Qed.

(** ** Lemmas on sums *)

Lemma zsum_app l1 l2 : zsum (l1 ++ l2) = zsum l1 + zsum l2.
Proof. induction l1 as [|x l1 IH]; simpl in *; lia. Qed.

#[export] Instance zsum_Permutation : Proper ((≡ₚ) ==> (=)) zsum.
Proof. intros l1 l2. induction 1; simpl in *; lia. Qed.

Lemma zsum_nonneg l : Forall (fun x => 0 <= x) l -> 0 <= zsum l.
Proof. induction 1; simpl; lia. Qed.

(** A saturating sum of non-negative numbers is the sum, cut off. *)
Lemma foldl_sat_add {B} m (f : B -> Z) l a :
  0 <= a <= m -> Forall (fun x => 0 <= f x) l ->
  foldl (fun acc x => sat_add m acc (f x)) a l = Z.min m (a + zsum (f <$> l)).
Proof.
  intros Ha Hl. revert a Ha.
  induction Hl as [|x l Hx Hl IH]; intros a Ha; [unfold zsum; simpl; lia|].
  pose proof (zsum_nonneg (f <$> l) ltac:(by apply Forall_fmap)).
  rewrite fmap_cons. simpl. rewrite IH by ulia. unfold zsum in *. simpl. ulia.
Qed.

Section map_sum.
Context `{Countable K} {V : Type} (f : V -> Z).
Implicit Types m : gmap K V.

Lemma map_sum_empty : map_sum f (∅ : gmap K V) = 0.
Proof. unfold map_sum. by rewrite map_to_list_empty. Qed.

Lemma map_sum_insert_None m k v :
  m !! k = None -> map_sum f (<[k := v]> m) = f v + map_sum f m.
Proof. intros Hk. unfold map_sum. by rewrite map_to_list_insert. Qed.

Lemma map_sum_delete m k v :
  m !! k = Some v -> map_sum f m = f v + map_sum f (delete k m).
Proof.
  intros Hk. rewrite <- (map_sum_insert_None _ k) by apply lookup_delete_eq.
  by rewrite insert_delete_eq, insert_id.
Qed.

(** The contribution of key [k], zero when it is absent. *)
Definition at_key (m : gmap K V) (k : K) : Z :=
  match m !! k with Some v => f v | None => 0 end.

Lemma map_sum_insert m k v :
  map_sum f (<[k := v]> m) = map_sum f m - at_key m k + f v.
Proof.
  unfold at_key. destruct (m !! k) as [v'|] eqn:Hk.
  - rewrite <- insert_delete_eq, map_sum_insert_None by apply lookup_delete_eq.
    rewrite (map_sum_delete m k v' Hk). lia.
  - rewrite map_sum_insert_None by done. lia.
Qed.

Lemma map_sum_delete_key m k :
  map_sum f (delete k m) = map_sum f m - at_key m k.
Proof.
  unfold at_key. destruct (m !! k) as [v'|] eqn:Hk.
  - rewrite (map_sum_delete m k v' Hk). lia.
  - rewrite delete_id by done. lia.
Qed.

Lemma map_sum_nonneg m :
  (forall k v, m !! k = Some v -> 0 <= f v) -> 0 <= map_sum f m.
Proof.
  intros Hf. unfold map_sum. apply zsum_nonneg, Forall_fmap, Forall_forall.
  intros [k v] Hin. apply elem_of_map_to_list in Hin. by apply (Hf k).
Qed.

Lemma map_sum_at_le m k :
  (forall k v, m !! k = Some v -> 0 <= f v) -> at_key m k <= map_sum f m.
Proof.
  intros Hf. unfold at_key. destruct (m !! k) as [v|] eqn:Hk.
  - rewrite (map_sum_delete m k v Hk).
    assert (0 <= map_sum f (delete k m)); [|lia].
    apply map_sum_nonneg. intros k' v' [_ Hl]%lookup_delete_Some. by apply (Hf k').
  - by apply map_sum_nonneg.
Qed.
End map_sum.

Lemma map_sum_ext `{Countable K} {V} (f g : V -> Z) (m : gmap K V) :
  (forall k v, m !! k = Some v -> f v = g v) -> map_sum f m = map_sum g m.
Proof.
  intros Hfg. unfold map_sum. f_equal. apply list_fmap_ext.
  intros i [k v] Hl. simpl. apply (Hfg k), elem_of_map_to_list.
  by eapply list_elem_of_lookup_2.
Qed.

Lemma map_sum_zero `{Countable K} {V} (f : V -> Z) (m : gmap K V) :
  (forall k v, m !! k = Some v -> f v = 0) -> map_sum f m = 0.
Proof.
  intros Hf. rewrite (map_sum_ext f (fun _ => 0) m) by done. unfold map_sum.
  by induction (map_to_list m).
Qed.

(** A map whose keys lie in [[0, n)] has at most [n] entries. *)
Lemma keys_below {V} (m : gmap Z V) n :
  0 <= n -> (forall k, is_Some (m !! k) -> 0 <= k < n) -> Z.of_nat (size m) <= n.
Proof.
  intros Hn Hk. rewrite <- length_map_to_list, <- (length_fmap fst).
  assert (Hsub : fst <$> map_to_list m ⊆+ seqZ 0 n).
  { apply NoDup_submseteq; [apply NoDup_fst_map_to_list|].
    intros k ([k' v] & -> & Hin)%list_elem_of_fmap. apply elem_of_map_to_list in Hin.
    apply elem_of_seqZ. simpl. specialize (Hk k' ltac:(by eexists)). lia. }
  apply submseteq_length in Hsub. rewrite length_seqZ in Hsub. lia.
Qed.

(** ** Binary search on a strictly sorted vector *)
Section binary_search_spec.
Context {A : Type} (key : A -> Z).

(** Every element before position [i] is below [t] and every element from
    [i] on is above it. *)
Definition insertion_point (l : list A) (t : Z) (i : nat) : Prop :=
  (i <= length l)%nat /\
  Forall (fun x => key x < t) (take i l) /\
  Forall (fun x => t < key x) (drop i l).

Definition sorted_by_key (l : list A) : Prop := StronglySorted Z.lt (key <$> l).

Lemma sorted_by_key_lookup l i j x y :
  sorted_by_key l -> l !! i = Some x -> l !! j = Some y -> (i < j)%nat -> key x < key y.
Proof.
  unfold sorted_by_key. revert i j.
  induction l as [|z l IH]; intros i j Hs Hi Hj Hij; [done|].
  rewrite fmap_cons in Hs. apply StronglySorted_inv in Hs as [Hs Hall].
  destruct j as [|j]; [lia|]. destruct i as [|i]; simpl in Hi, Hj.
  - simplify_eq. rewrite Forall_fmap in Hall. exact (Forall_lookup_1 _ _ _ _ Hall Hj).
  - by apply (IH i j); try lia.
Qed.

Lemma sorted_by_key_filter (P : A -> Prop) `{!forall x, Decision (P x)} l :
  sorted_by_key l -> sorted_by_key (filter P l).
Proof.
  unfold sorted_by_key. induction l as [|z l IH]; intros Hs; [done|].
  rewrite fmap_cons in Hs. apply StronglySorted_inv in Hs as [Hs Hall].
  rewrite filter_cons. case_decide; [|auto].
  rewrite fmap_cons. constructor; [auto|].
  apply Forall_fmap, Forall_forall. intros y Hy.
  apply list_elem_of_filter in Hy as [_ Hy].
  rewrite Forall_fmap, Forall_forall in Hall. exact (Hall y Hy).
Qed.

Lemma sorted_by_key_insert l t i x :
  sorted_by_key l -> insertion_point l t i -> key x = t ->
  sorted_by_key (take i l ++ x :: drop i l).
Proof.
  intros Hs (Hi & Hlo & Hhi) <-. unfold sorted_by_key.
  rewrite fmap_app, fmap_cons, fmap_take, fmap_drop.
  assert (H := Hs). unfold sorted_by_key in H.
  rewrite <- (take_drop i (key <$> l)) in H.
  apply StronglySorted_app in H as (H1 & H2 & H3).
  rewrite <- fmap_take, <- fmap_drop in *.
  apply StronglySorted_app. split_and!; [|done|].
  - intros a b Ha [->|Hb]%elem_of_cons; [|by apply H1].
    apply list_elem_of_fmap in Ha as (y & -> & Hy).
    rewrite Forall_forall in Hlo. exact (Hlo y Hy).
  - constructor; [done|]. by apply Forall_fmap.
Qed.

Lemma binary_search_loop_correct l t fuel left right :
  sorted_by_key l ->
  (right <= length l)%nat -> (left <= right)%nat -> (right - left < fuel)%nat ->
  Forall (fun x => key x < t) (take left l) ->
  Forall (fun x => t < key x) (drop right l) ->
  match binary_search_loop key l t fuel left right with
  | inl i => exists x, l !! i = Some x /\ key x = t
  | inr i => insertion_point l t i
  end.
Proof.
  intros Hs. revert left right.
  induction fuel as [|fuel IH]; intros left right Hr Hlr Hf Hlo Hhi; [lia|].
  cbn [binary_search_loop].
  destruct (Nat.ltb_spec left right) as [Hlt|Hge].
  2:{ replace right with left in Hhi by lia. split_and!; auto. lia. }
  pose proof (Nat.div_lt (right - left) 2) as Hdiv.
  set (mid := (left + (right - left) `div` 2)%nat) in *.
  destruct (lookup_lt_is_Some_2 l mid) as [x Hx]; [lia|]. rewrite Hx.
  destruct (Z.compare_spec (key x) t) as [Heq|Hlt'|Hgt]; [by eauto| |].
  - apply IH; [lia..| |done]. apply Forall_forall. intros y Hy.
    apply list_elem_of_lookup in Hy as [j Hj].
    apply lookup_take_Some in Hj as [Hj Hjm].
    destruct (decide (j = mid)) as [->|]; [congruence|].
    pose proof (sorted_by_key_lookup l j mid y x Hs Hj Hx). lia.
  - apply IH; [lia..|done|]. apply Forall_forall. intros y Hy.
    apply list_elem_of_lookup in Hy as [j Hj]. rewrite lookup_drop in Hj.
    destruct (decide (j = 0%nat)) as [->|].
    { rewrite Nat.add_0_r in Hj. congruence. }
    pose proof (sorted_by_key_lookup l mid (mid + j)%nat x y Hs Hx Hj). lia.
Qed.

Lemma binary_search_by_correct l t :
  sorted_by_key l ->
  match binary_search_by key l t with
  | inl i => exists x, l !! i = Some x /\ key x = t
  | inr i => insertion_point l t i
  end.
Proof.
  intros Hs. apply binary_search_loop_correct; try done; try lia.
  by rewrite drop_all.
Qed.
End binary_search_spec.
