(* ===== verification/Frame.v ===== *)
(** * Interfaces to the Substrate libraries

    The pallets call three families of library code that is not part of this
    repository: the fixed-point arithmetic of [sp_arithmetic], the balances
    behind the [fungible] traits, and the block counter of [frame_system].
    Each is a class of operations the model is parametrised by; what the
    pallets rely on is a second class, of laws, that only the theorems which
    need it mention.  [ExactArithmetic] is one implementation of the
    arithmetic, used to evaluate the model on concrete inputs. *)

From S2P Require Import Prelude.

(** ** [sp_arithmetic]

    A per-thing is represented by its parts, a fixed-point number by its
    inner value. *)

Abbreviation perbill_one := 1000000000.
Abbreviation permill_one := 1000000.
Abbreviation perquintill_one := 1000000000000000000.
Abbreviation fixed_div := 1000000000000000000.

Class SpArithmetic := {
  perbill_mul : Z -> Z -> Z;
  perbill_from_rational : Z -> Z -> Z;
  permill_mul : Z -> Z -> Z;
  permill_checked_add : Z -> Z -> option Z;
  perquintill_mul : Z -> Z -> Z;
  perquintill_from_rational : Z -> Z -> Z;
  perquintill_div : Z -> Z -> Z;
  perquintill_checked_add : Z -> Z -> option Z;
  fixed_from_rational : Z -> Z -> Z;
  (** [saturating_mul_int] at the integer type whose largest value is the
      first argument. *)
  fixed_saturating_mul_int : Z -> Z -> Z -> Z;
  fixed_saturating_mul : Z -> Z -> Z;
  fixed_saturating_add : Z -> Z -> Z;
  fixed_checked_add : Z -> Z -> option Z;
}.

(** A per-thing lies in [[0, 1]], so multiplying by it never yields more than
    the multiplicand; the product is rounded to the nearest integer.
    [from_rational] yields a per-thing, one whole when the fraction is not
    below one.  Checked addition fails exactly above one whole.  A fixed-point
    number of at most one does not increase the integer it multiplies, and
    multiplying by one half halves up to one unit. *)
Class SpArithmeticLaws `{SpArithmetic} : Prop := {
  perbill_mul_bound p x :
    in_range perbill_one p -> in_range u128_max x -> 0 <= perbill_mul p x <= x;
  perbill_from_rational_range p q : in_range perbill_one (perbill_from_rational p q);
  permill_mul_bound p x :
    in_range permill_one p -> in_range u128_max x -> 0 <= permill_mul p x <= x;
  permill_mul_nearest p x :
    in_range permill_one p -> in_range u128_max x ->
    2 * Z.abs (permill_one * permill_mul p x - p * x) <= permill_one;
  permill_checked_add_spec p q :
    permill_checked_add p q = checked_add permill_one p q;
  perquintill_mul_bound p x :
    in_range perquintill_one p -> in_range u128_max x -> 0 <= perquintill_mul p x <= x;
  perquintill_mul_nearest p x :
    in_range perquintill_one p -> in_range u128_max x ->
    2 * Z.abs (perquintill_one * perquintill_mul p x - p * x) <= perquintill_one;
  perquintill_from_rational_range p q :
    in_range perquintill_one (perquintill_from_rational p q);
  perquintill_div_range p q : in_range perquintill_one (perquintill_div p q);
  perquintill_checked_add_spec p q :
    perquintill_checked_add p q = checked_add perquintill_one p q;
  fixed_from_rational_range n d :
    0 < d -> 0 <= n -> in_range u128_max (fixed_from_rational n d);
  fixed_from_rational_le_one n d :
    0 < d -> 0 <= n <= d -> fixed_from_rational n d <= fixed_div;
  fixed_saturating_mul_int_range m f x :
    in_range u128_max f -> in_range m x -> in_range m (fixed_saturating_mul_int m f x);
  fixed_saturating_mul_int_le m f x :
    0 <= f <= fixed_div -> in_range m x -> fixed_saturating_mul_int m f x <= x;
  fixed_saturating_mul_range f g :
    in_range u128_max f -> in_range u128_max g ->
    in_range u128_max (fixed_saturating_mul f g);
  fixed_saturating_mul_half f :
    in_range u128_max f -> f - 1 <= 2 * fixed_saturating_mul f (fixed_from_rational 1 2) <= f;
  fixed_saturating_add_spec f g : fixed_saturating_add f g = sat_add u128_max f g;
  fixed_checked_add_spec f g : fixed_checked_add f g = checked_add u128_max f g;
}.

(** Rounding to the nearest integer, half down, and truncating fixed-point
    arithmetic. *)
Definition nearest (one p x : Z) : Z := (2 * p * x + one - 1) / (2 * one).
Definition clamp_ratio (one p q : Z) : Z :=
  if q <=? Z.max 0 p then one else Z.max 0 p * one / q.
Definition ExactArithmetic : SpArithmetic := {|
  perbill_mul := nearest perbill_one;
  perbill_from_rational := clamp_ratio perbill_one;
  permill_mul := nearest permill_one;
  permill_checked_add := checked_add permill_one;
  perquintill_mul := nearest perquintill_one;
  perquintill_from_rational := clamp_ratio perquintill_one;
  perquintill_div := clamp_ratio perquintill_one;
  perquintill_checked_add := checked_add perquintill_one;
  fixed_from_rational n d := Z.min u128_max (n * fixed_div / d);
  fixed_saturating_mul_int m f x := Z.min m (f * x / fixed_div);
  fixed_saturating_mul f g := Z.min u128_max (f * g / fixed_div);
  fixed_saturating_add := sat_add u128_max;
  fixed_checked_add := checked_add u128_max;
|}.

Lemma nearest_bound one p x :
  0 < one -> in_range one p -> 0 <= x -> 0 <= nearest one p x <= x.
Proof.
  unfold in_range, nearest. intros H1 Hp Hx. split.
  - apply Z.div_pos; nia.
  - apply Z.lt_succ_r, Z.div_lt_upper_bound; nia.
Qed.

Lemma nearest_close one p x :
  0 < one -> 2 * Z.abs (one * nearest one p x - p * x) <= one.
Proof.
  intros H1. unfold nearest.
  pose proof (Z.div_mod (2 * p * x + one - 1) (2 * one)) as Hd.
  pose proof (Z.mod_pos_bound (2 * p * x + one - 1) (2 * one)) as Hm.
  lia.
Qed.

Lemma clamp_ratio_range one p q : 0 < one -> in_range one (clamp_ratio one p q).
Proof.
  intros H1. unfold in_range, clamp_ratio.
  destruct (Z.leb_spec q (Z.max 0 p)); [lia|]. split.
  - apply Z.div_pos; nia.
  - apply Z.lt_succ_r, Z.div_lt_upper_bound; nia.
Qed.

Lemma ExactArithmetic_laws : @SpArithmeticLaws ExactArithmetic.
Proof.
  split; simpl; intros; unfold in_range in *;
    try (apply nearest_bound; unfold in_range; lia);
    try (apply nearest_close; lia);
    try (apply clamp_ratio_range; lia); try done.
  - pose proof (Z.div_pos (n * fixed_div) d). lia.
  - transitivity (n * fixed_div / d); [lia|].
    apply Z.lt_succ_r, Z.div_lt_upper_bound; nia.
  - pose proof (Z.div_pos (f * x) fixed_div). nia.
  - transitivity (f * x / fixed_div); [lia|].
    apply Z.lt_succ_r, Z.div_lt_upper_bound; nia.
  - pose proof (Z.div_pos (f * g) fixed_div). nia.
  - change (Z.min u128_max (1 * fixed_div / 2)) with 500000000000000000.
    pose proof (Z.div_mod (f * 500000000000000000) fixed_div ltac:(lia)).
    pose proof (Z.mod_pos_bound (f * 500000000000000000) fixed_div ltac:(lia)). lia.
Qed.

(** ** The native currency: [fungible::Inspect] and [fungible::MutateFreeze]

    [W] is the state of everything outside the pallet being modelled.  A
    freeze operation that fails returns [None]. *)
Class Currency (AccountId W : Type) := {
  total_balance : W -> AccountId -> Z;
  total_issuance : W -> Z;
  set_freeze : W -> AccountId -> Z -> option W;
  thaw : W -> AccountId -> option W;
}.

(** Balances are [u128] and add up to at most the total issuance, itself a
    [u128]; freezing and thawing move no funds. *)
Class CurrencyLaws (AccountId W : Type) `{Currency AccountId W} : Prop := {
  total_balance_nonneg w a : 0 <= total_balance w a;
  total_issuance_range w : in_range u128_max (total_issuance w);
  total_balance_sum w (l : list AccountId) :
    NoDup l -> zsum (total_balance w <$> l) <= total_issuance w;
  set_freeze_balance w a x w' b :
    set_freeze w a x = Some w' -> total_balance w' b = total_balance w b;
  thaw_balance w a w' b :
    thaw w a = Some w' -> total_balance w' b = total_balance w b;
}.

(** ** Reserves: [ReservableCurrency]

    A refused reservation or transfer is [None];
    [slash_reserved] also returns the amount it took. *)
Class ReservableCurrency (AccountId W : Type) := {
  free_balance : W -> AccountId -> Z;
  reserved_balance : W -> AccountId -> Z;
  minimum_balance : Z;
  reserve : W -> AccountId -> Z -> option W;
  unreserve : W -> AccountId -> Z -> W;
  slash_reserved : W -> AccountId -> Z -> W * Z;
  resolve_creating : W -> AccountId -> Z -> W;
  transfer_keep_alive : W -> AccountId -> AccountId -> Z -> option W;
}.

(** ** [frame_system]

    The number of the block being executed, and the three origin checks of
    [frame_system]; [Origin] is the runtime's origin type. *)
Class FrameSystem (AccountId Origin W : Type) := {
  block_number : W -> Z;
  ensure_signed : Origin -> option AccountId;
  ensure_root : Origin -> bool;
  (** [Some None] for the root origin, [Some (Some a)] for one signed by [a]. *)
  ensure_signed_or_root : Origin -> option (option AccountId);
}.

(** ** Weights *)

Record Weight := mkWeight { ref_time : Z; proof_size : Z }.

(** [Weight::zero], [saturating_add], [saturating_sub] and [min], all by
    component. *)
Definition weight_zero : Weight := mkWeight 0 0.
Definition weight_saturating_add (a b : Weight) : Weight :=
  mkWeight (sat_add u64_max (ref_time a) (ref_time b))
           (sat_add u64_max (proof_size a) (proof_size b)).
Definition weight_saturating_sub (a b : Weight) : Weight :=
  mkWeight (sat_sub (ref_time a) (ref_time b)) (sat_sub (proof_size a) (proof_size b)).
Definition weight_min (a b : Weight) : Weight :=
  mkWeight (Z.min (ref_time a) (ref_time b)) (Z.min (proof_size a) (proof_size b)).
