(* ===== verification/Weights.v ===== *)
(** * Weights

    [sp_weights::Weight] beyond the operations of [Frame], the prices of the
    database, and the order in which weights grow. *)

From S2P Require Import Prelude Frame.

(** ** Operations *)

Definition from_parts (ref_time proof_size : Z) : Weight := mkWeight ref_time proof_size.
Definition weight_max : Weight := mkWeight u64_max u64_max.
Definition weight_saturating_mul (w : Weight) (n : Z) : Weight :=
  mkWeight (sat_mul u64_max (ref_time w) n) (sat_mul u64_max (proof_size w) n).

(** [Weight::max], by component, and [Weight::any_lt]. *)
Definition weight_max_of (a b : Weight) : Weight :=
  mkWeight (Z.max (ref_time a) (ref_time b)) (Z.max (proof_size a) (proof_size b)).
Definition weight_any_lt (a b : Weight) : bool :=
  (ref_time a <? ref_time b) || (proof_size a <? proof_size b).

Declare Scope weight_scope.
Infix "+w" := weight_saturating_add (at level 50, left associativity) : weight_scope.
Infix "*w" := weight_saturating_mul (at level 40, left associativity) : weight_scope.
Open Scope weight_scope.

(** [RuntimeDbWeight], in time alone. *)
Class DbWeight := { db_read : Z; db_write : Z }.
Definition db_reads `{!DbWeight} (r : Z) : Weight := from_parts (sat_mul u64_max db_read r) 0.
Definition db_writes `{!DbWeight} (w : Z) : Weight := from_parts (sat_mul u64_max db_write w) 0.

(** [RocksDbWeight] reads in 25 microseconds and writes in 100. *)
Definition db_ok `{!DbWeight} : Prop := 0 <= db_read <= 25000000 /\ 0 <= db_write <= 100000000.

(** ** Order *)

Definition weight_le (a b : Weight) : Prop := ref_time a <= ref_time b /\ proof_size a <= proof_size b.

#[global] Instance weight_le_preorder : PreOrder weight_le.
Proof. split; unfold weight_le; [intros a; lia|intros a b c ? ?; lia]. Qed.

Definition weight_nonneg (w : Weight) : Prop := weight_le weight_zero w.

Lemma weight_add_le a b c d : weight_le a c -> weight_le b d -> weight_le (a +w b) (c +w d).
Proof. unfold weight_le, weight_saturating_add, sat_add. simpl. lia. Qed.

Lemma weight_mul_le a x y : weight_nonneg a -> x <= y -> weight_le (a *w x) (a *w y).
Proof. unfold weight_nonneg, weight_le, weight_saturating_mul, sat_mul. simpl. intros [? ?] ?. nia. Qed.

Lemma db_reads_le `{!DbWeight} x y : db_ok -> x <= y -> weight_le (db_reads x) (db_reads y).
Proof. unfold db_ok, weight_le, db_reads, sat_mul. simpl. intros [[? _] _] ?. nia. Qed.
Lemma db_writes_le `{!DbWeight} x y : db_ok -> x <= y -> weight_le (db_writes x) (db_writes y).
Proof. unfold db_ok, weight_le, db_writes, sat_mul. simpl. intros [_ [? _]] ?. nia. Qed.

Lemma sat_mul_le m a x y : 0 <= a -> x <= y -> sat_mul m a x <= sat_mul m a y.
Proof. unfold sat_mul. intros. nia. Qed.

Lemma from_parts_nonneg a b : 0 <= a -> 0 <= b -> weight_nonneg (from_parts a b).
Proof. by split. Qed.

Lemma weight_add_nonneg a b : weight_nonneg a -> weight_nonneg b -> weight_nonneg (a +w b).
Proof. unfold weight_nonneg, weight_le, weight_saturating_add, weight_zero, sat_add. simpl. lia. Qed.
Lemma db_reads_nonneg `{!DbWeight} n : db_ok -> 0 <= n -> weight_nonneg (db_reads n).
Proof. intros [[? _] _] ?. split; simpl; [unfold sat_mul; nia|done]. Qed.
Lemma db_writes_nonneg `{!DbWeight} n : db_ok -> 0 <= n -> weight_nonneg (db_writes n).
Proof. intros [_ [? _]] ?. split; simpl; [unfold sat_mul; nia|done]. Qed.

Lemma weight_max_le_l a b : weight_le a (weight_max_of a b).
Proof. unfold weight_le, weight_max_of. simpl. lia. Qed.
Lemma weight_max_le_r a b : weight_le b (weight_max_of a b).
Proof. unfold weight_le, weight_max_of. simpl. lia. Qed.
Lemma weight_max_lub a b c : weight_le a c -> weight_le b c -> weight_le (weight_max_of a b) c.
Proof. unfold weight_le, weight_max_of. simpl. lia. Qed.

(** What is not less in any component is at least as much. *)
Lemma weight_any_lt_false a b : weight_any_lt a b = false -> weight_le b a.
Proof. unfold weight_any_lt, weight_le. lia. Qed.

#[export] Hint Resolve weight_add_nonneg db_reads_nonneg db_writes_nonneg from_parts_nonneg : rust.
#[export] Hint Resolve weight_add_le weight_mul_le db_reads_le db_writes_le sat_mul_le : rust.

(** A benchmark grows with its component. *)
Ltac weight_mono :=
  repeat (apply weight_add_le);
  first [ reflexivity
        | apply weight_mul_le; [apply from_parts_nonneg; lia|lia]
        | apply db_reads_le; [done|first [lia|apply sat_mul_le; lia]]
        | apply db_writes_le; [done|first [lia|apply sat_mul_le; lia]] ].

(** Comparison of closed weights, by the prices of the database. *)
Ltac weight_solve :=
  unfold db_ok, weight_nonneg, weight_le, weight_max_of, weight_saturating_add, weight_saturating_mul,
    db_reads, db_writes, from_parts, weight_zero, sat_add, sat_mul in *; cbn -[Z.mul Z.add Z.min Z.max]; lia.
