(* ===== verification/Primitives.v ===== *)
(** * Shared primitives: [primitives/src/dapp_staking.rs]

    The cycle configuration and its derived lengths, the traits through which
    dApp staking talks to its neighbours, the number of tier slots for a
    price, and [RankedTier], a tier and a rank packed in one byte. *)

From S2P Require Import Prelude Frame.

(** ** Cycle configuration *)

Record CycleConfiguration := {
  periods_per_cycle : Z;
  eras_per_voting_subperiod : Z;
  eras_per_build_and_earn_subperiod : Z;
  blocks_per_era : Z;
}.

Section cycle_configuration.
Context (c : CycleConfiguration).

Definition period_in_era_lengths : Z :=
  sat_add u32_max (eras_per_voting_subperiod c) (eras_per_build_and_earn_subperiod c).
Definition cycle_in_era_lengths : Z :=
  sat_mul u32_max period_in_era_lengths (periods_per_cycle c).
Definition blocks_per_cycle : Z :=
  sat_mul u32_max (blocks_per_era c) cycle_in_era_lengths.
Definition build_and_earn_eras_per_cycle : Z :=
  sat_mul u32_max (eras_per_build_and_earn_subperiod c) (periods_per_cycle c).
Definition eras_per_period : Z :=
  sat_add u32_max (eras_per_build_and_earn_subperiod c) 1.
Definition eras_per_cycle : Z :=
  sat_mul u32_max eras_per_period (periods_per_cycle c).
End cycle_configuration.

(** The checks of the pallets' [integrity_test] on the cycle. *)
Definition cycle_valid (c : CycleConfiguration) : Prop :=
  0 < periods_per_cycle c <= u32_max /\
  0 < eras_per_voting_subperiod c <= u32_max /\
  0 < eras_per_build_and_earn_subperiod c <= u32_max /\
  0 < blocks_per_era c <= u32_max.

(** ** The traits dApp staking is configured with

    Each method may read or update the state [W] outside the pallet. *)

Class Observer (W : Type) := {
  block_before_new_era : W -> Z -> W;
}.

Class StakingRewardHandler (AccountId W : Type) := {
  staker_and_dapp_reward_pools : W -> Z -> Z * Z;
  bonus_reward_pool : W -> Z;
  (** [None] is [Err(())]. *)
  payout_reward : W -> AccountId -> Z -> option W;
}.

Class AccountCheck (AccountId W : Type) := {
  allowed_to_stake : W -> AccountId -> bool;
}.

Class PriceProvider (W : Type) := {
  average_price : W -> Z;
}.

Class TierSlots := {
  number_of_slots : Z -> Z;
}.

(** ** Smart contract handles *)

Inductive SmartContract (AccountId : Type) : Type :=
| Evm (address : Z)
| Wasm (address : AccountId).
Arguments Evm {AccountId} address.
Arguments Wasm {AccountId} address.

#[export] Instance SmartContract_eq_dec `{EqDecision AccountId} :
  EqDecision (SmartContract AccountId).
Proof. solve_decision. Defined.

#[export] Instance SmartContract_countable `{Countable AccountId} :
  Countable (SmartContract AccountId).
Proof.
  refine (inj_countable'
    (fun c => match c with Evm h => inl h | Wasm a => inr a end)
    (fun s => match s with inl h => Evm h | inr a => Wasm a end) _).
  by intros [].
Defined.

(** ** Number of tier slots *)

(** [StandardTierSlots]: [price * 1000 + 50] in [u64], saturated to [u16]. *)
Definition standard_number_of_slots `{SpArithmetic} (price : Z) : Z :=
  saturated_into u16_max
    (sat_add u64_max (fixed_saturating_mul_int u64_max price 1000) 50).

#[export] Instance StandardTierSlots `{SpArithmetic} : TierSlots :=
  {| number_of_slots := standard_number_of_slots |}.

(** ** [RankedTier]: the rank in the high four bits, the tier in the low four *)

Definition MAX_RANK : Z := 10.

Inductive ArithmeticError := Overflow.

Definition encode_rank_tier (rank tier : Z) : Z :=
  Z.lor (Z.land (Z.shiftl rank 4) 255) (Z.land tier 15).

Definition ranked_tier_new (tier rank : Z) : Result Z ArithmeticError :=
  if (MAX_RANK <? rank) || (15 <? tier) then Err Overflow
  else Ok (encode_rank_tier rank tier).

Definition new_saturated (tier rank : Z) : Z :=
  encode_rank_tier (Z.min rank MAX_RANK) (Z.min tier 15).

Definition tier (rt : Z) : Z := Z.land rt 15.
Definition rank (rt : Z) : Z := Z.min (Z.shiftr rt 4) MAX_RANK.
Definition deconstruct (rt : Z) : Z * Z := (tier rt, rank rt).

(** [TryInto<u8>] followed by [unwrap_or_default]: zero when the value does
    not fit. *)
Definition try_into_u8_or_default (x : Z) : Z := if x <=? u8_max then x else 0.

Definition find_rank (lower_bound upper_bound stake_amount : Z) : Z :=
  if upper_bound =? 0 then 0
  else
    let rank_threshold := sat_div (sat_sub upper_bound lower_bound) MAX_RANK in
    if rank_threshold =? 0 then 0
    else
      Z.min
        (try_into_u8_or_default
           (sat_div (sat_sub stake_amount lower_bound) rank_threshold))
        MAX_RANK.

(** ** Lemmas *)

(** The packed byte is [16 * rank + tier]. *)
Lemma encode_rank_tier_value r t :
  0 <= r <= 15 -> 0 <= t <= 15 -> encode_rank_tier r t = 16 * r + t.
Proof.
  intros Hr Ht.
  assert (Hall : forallb (fun r => forallb (fun t =>
            encode_rank_tier r t =? 16 * r + t) (seqZ 0 16)) (seqZ 0 16) = true)
    by reflexivity.
  rewrite forallb_forall in Hall. specialize (Hall r).
  rewrite forallb_forall in Hall.
  apply Z.eqb_eq, Hall; rewrite <- list_elem_of_In, elem_of_seqZ; lia.
Qed.

Lemma deconstruct_value r t :
  0 <= r -> 0 <= t <= 15 -> deconstruct (16 * r + t) = (t, Z.min r MAX_RANK).
Proof.
  intros Hr Ht. unfold deconstruct, tier, rank. f_equal.
  - change 15 with (Z.ones 4). rewrite Z.land_ones by lia.
    change (2 ^ 4) with 16. rewrite Z.add_comm, Z.mul_comm, Z.mod_add by lia.
    apply Z.mod_small. lia.
  - rewrite Z.shiftr_div_pow2 by lia. change (2 ^ 4) with 16.
    rewrite Z.add_comm, Z.mul_comm, Z.div_add by lia.
    rewrite Z.div_small; lia.
Qed.

Lemma new_saturated_deconstruct t r :
  0 <= t -> 0 <= r -> deconstruct (new_saturated t r) = (Z.min t 15, Z.min r MAX_RANK).
Proof.
  intros Ht Hr. unfold new_saturated, MAX_RANK.
  rewrite encode_rank_tier_value, deconstruct_value by lia. unfold MAX_RANK. f_equal; lia.
Qed.

Lemma find_rank_range l u s : 0 <= l <= s -> 0 <= find_rank l u s <= MAX_RANK.
Proof.
  intros Hl. unfold find_rank, try_into_u8_or_default, MAX_RANK, sat_div.
  destruct (u =? 0) eqn:?; [lia|]. cbv zeta.
  destruct (sat_sub u l / 10 =? 0) eqn:Hz; [lia|].
  destruct (_ <=? u8_max); [|lia].
  assert (0 <= sat_sub s l / (sat_sub u l / 10)); [|lia].
  apply Z.div_pos; [ulia|].
  assert (0 <= sat_sub u l / 10); [|lia]. apply Z.div_pos; ulia.
Qed.

Lemma find_rank_regular l u s :
  0 < u -> l + 10 <= u -> 0 <= l <= s -> s - l < 256 * ((u - l) / 10) ->
  find_rank l u s = Z.min ((s - l) / ((u - l) / 10)) 10.
Proof.
  intros Hu Hlu Hs Hsmall. unfold find_rank, try_into_u8_or_default, MAX_RANK, sat_div.
  assert (0 < (u - l) / 10) by (apply Z.div_str_pos; lia).
  rewrite !sat_sub_exact by lia.
  rewrite (proj2 (Z.eqb_neq u 0)), (proj2 (Z.eqb_neq _ 0)) by lia.
  rewrite (proj2 (Z.leb_le _ u8_max)); [done|].
  apply Z.lt_succ_r, Z.div_lt_upper_bound; lia.
Qed.

(** ** Theorems *)

(** [RankedTier::new] rejects exactly the tiers above 15 and the ranks above
    10, and what it packs in one byte is unpacked unchanged; the saturating
    constructor packs the tier and the rank capped at those bounds. *)
Theorem ranked_tier_roundtrip (t r : Z) :
  0 <= t -> 0 <= r ->
  match ranked_tier_new t r with
  | Ok rt => 0 <= rt <= u8_max /\ deconstruct rt = (t, r)
  | Err _ => 15 < t \/ MAX_RANK < r
  end /\
  deconstruct (new_saturated t r) = (Z.min t 15, Z.min r MAX_RANK).
Proof.
  intros Ht Hr. split.
  - unfold ranked_tier_new. destruct (MAX_RANK <? r) eqn:?; [simpl; lia|].
    destruct (15 <? t) eqn:?; [simpl; lia|]. unfold MAX_RANK in *. simpl.
    rewrite encode_rank_tier_value, deconstruct_value by lia.
    unfold MAX_RANK. split; [lia|f_equal; lia].
  - by apply new_saturated_deconstruct.
Qed.

Lemma ranked_tier_roundtrip_witness :
  ranked_tier_new 3 7 = Ok 115 /\ deconstruct 115 = (3, 7) /\
  deconstruct (new_saturated 16 16) = (15, 10).
Proof.
  pose proof (ranked_tier_roundtrip 3 7 ltac:(lia) ltac:(lia)) as [[_ H] _].
  pose proof (ranked_tier_roundtrip 16 16 ltac:(lia) ltac:(lia)) as [_ H'].
  split_and!; [reflexivity|exact H|exact H'].
Defined.

(** Between the bounds of its tier a dApp's rank is at most 10, never goes
    down when the stake grows, is 0 at the lower bound and 10 at the upper
    one. *)
Theorem find_rank_monotone (l u s1 s2 : Z) :
  0 <= l -> l + 10 <= u -> l <= s1 <= s2 -> s2 <= u ->
  find_rank l u s1 <= find_rank l u s2 <= MAX_RANK /\
  find_rank l u l = 0 /\ find_rank l u u = MAX_RANK.
Proof.
  intros Hl Hlu Hs Hsu.
  assert (Hpos : 0 < (u - l) / 10) by (apply Z.div_str_pos; lia).
  assert (Hgap : u - l < 256 * ((u - l) / 10)).
  { pose proof (Z.div_mod (u - l) 10). pose proof (Z.mod_pos_bound (u - l) 10). lia. }
  rewrite !find_rank_regular by lia. unfold MAX_RANK. split_and!.
  - pose proof (Z.div_le_mono (s1 - l) (s2 - l) _ Hpos). lia.
  - lia.
  - by rewrite Z.sub_diag, Z.div_0_l by lia.
  - apply Z.min_r, Z.div_le_lower_bound; [done|].
    pose proof (Z.mul_div_le (u - l) 10). lia.
Qed.

Lemma find_rank_monotone_witness :
  find_rank 100 200 130 = 3 /\ find_rank 100 200 130 <= find_rank 100 200 170 <= MAX_RANK.
Proof.
  split; [reflexivity|].
  apply (find_rank_monotone 100 200 130 170); lia.
Defined.

(** A stake 256 rank steps or more above the lower bound gets rank 0, not the
    maximal rank: the quotient no longer fits in a byte. *)
Theorem find_rank_drops_to_zero (l u s : Z) :
  0 <= l -> l + 10 <= u -> l + 256 * ((u - l) / 10) <= s ->
  find_rank l u s = 0.
Proof.
  intros Hl Hlu Hs. unfold find_rank, try_into_u8_or_default, MAX_RANK, sat_div.
  assert (Hpos : 0 < (u - l) / 10) by (apply Z.div_str_pos; lia).
  rewrite !sat_sub_exact by lia.
  destruct (u =? 0); [done|]. destruct (_ =? 0); [done|].
  rewrite (proj2 (Z.leb_gt _ u8_max)); [done|].
  apply Z.lt_le_trans with 256; [lia|].
  apply Z.div_le_lower_bound; lia.
Qed.

Lemma find_rank_drops_to_zero_witness :
  find_rank 190 200 445 = 10 /\ find_rank 190 200 446 = 0.
Proof.
  split; [reflexivity|]. apply (find_rank_drops_to_zero 190 200 446); vm_compute; congruence.
Defined.
