(* ===== verification/Protocol.v ===== *)
(** * Protocol state of dApp staking: [pallets/dapp-staking/src/types.rs]

    Eras, periods and subperiods, the general protocol state, dApp records
    and the history clean-up marker. *)

From S2P Require Import Prelude.

(** ** Subperiods and periods *)

Inductive Subperiod := Voting | BuildAndEarn.

#[export] Instance Subperiod_eq_dec : EqDecision Subperiod.
Proof. solve_decision. Defined.

Definition next (s : Subperiod) : Subperiod :=
  match s with Voting => BuildAndEarn | BuildAndEarn => Voting end.

Record PeriodInfo := mkPeriodInfo {
  number : Z;
  subperiod : Subperiod;
  next_subperiod_start_era : Z;
}.

Definition is_next_period (p : PeriodInfo) (era : Z) : bool :=
  bool_decide (subperiod p = BuildAndEarn) && (next_subperiod_start_era p <=? era).

Record PeriodEndInfo := mkPeriodEndInfo {
  bonus_reward_pool : Z;
  total_vp_stake : Z;
  final_era : Z;
}.

(** [ForcingType]. *)
Inductive ForcingType := ForceEra | ForceSubperiod.

(** ** Protocol state *)

Record ProtocolState := mkProtocolState {
  era : Z;
  next_era_start : Z;
  period_info : PeriodInfo;
  maintenance : bool;
}.

Definition default_protocol_state : ProtocolState :=
  mkProtocolState 1 2 (mkPeriodInfo 1 Voting 2) false.

Definition period_number (s : ProtocolState) : Z := number (period_info s).
Definition current_subperiod (s : ProtocolState) : Subperiod := subperiod (period_info s).

Definition is_new_era (s : ProtocolState) (now : Z) : bool := next_era_start s <=? now.

Definition set_era (e : Z) (s : ProtocolState) : ProtocolState :=
  mkProtocolState e (next_era_start s) (period_info s) (maintenance s).
Definition set_next_era_start (b : Z) (s : ProtocolState) : ProtocolState :=
  mkProtocolState (era s) b (period_info s) (maintenance s).
Definition set_maintenance (m : bool) (s : ProtocolState) : ProtocolState :=
  mkProtocolState (era s) (next_era_start s) (period_info s) m.
Definition set_next_subperiod_start_era (e : Z) (s : ProtocolState) : ProtocolState :=
  mkProtocolState (era s) (next_era_start s)
    (mkPeriodInfo (number (period_info s)) (subperiod (period_info s)) e)
    (maintenance s).

Definition advance_to_next_subperiod
    (next_subperiod_start_era next_era_start : Z) (s : ProtocolState) : ProtocolState :=
  let period_number :=
    match current_subperiod s with
    | Voting => period_number s
    | BuildAndEarn => sat_add u32_max (period_number s) 1
    end in
  mkProtocolState (era s) next_era_start
    (mkPeriodInfo period_number (next (current_subperiod s)) next_subperiod_start_era)
    (maintenance s).

(** ** dApps *)

Record DAppInfo (AccountId : Type) := mkDAppInfo {
  owner : AccountId;
  id : Z;
  reward_beneficiary : option AccountId;
}.
Arguments mkDAppInfo {AccountId} _ _ _.
Arguments owner {AccountId} _.
Arguments id {AccountId} _.
Arguments reward_beneficiary {AccountId} _.

(** [DAppInfo::reward_beneficiary]: where the dApp's rewards go. *)
Definition reward_destination {AccountId} (d : DAppInfo AccountId) : AccountId :=
  match reward_beneficiary d with Some a => a | None => owner d end.

(** ** History clean-up *)

Record CleanupMarker := mkCleanupMarker {
  era_reward_index : Z;
  dapp_tiers_index : Z;
  oldest_valid_era : Z;
}.

Definition default_marker : CleanupMarker := mkCleanupMarker 0 0 0.

Definition has_pending_cleanups (m : CleanupMarker) : bool :=
  negb (era_reward_index m =? oldest_valid_era m)
  || negb (dapp_tiers_index m =? oldest_valid_era m).

(** ** Lemmas *)

Lemma advance_alternates e b s :
  current_subperiod (advance_to_next_subperiod e b s) = next (current_subperiod s).
Proof. done. Qed.

Lemma advance_period_monotone e b s :
  in_range u32_max (period_number s) ->
  period_number s <= period_number (advance_to_next_subperiod e b s) <= period_number s + 1.
Proof. unfold advance_to_next_subperiod, period_number; simpl. destruct (current_subperiod s); ulia. Qed.
