(* ===== verification/StakeAmount.v ===== *)
(** * [StakeAmount]: an amount staked in some era and period

    [pallets/dapp-staking/src/types.rs].  The amounts of the two subperiods
    are kept apart; staking adds to the ongoing subperiod's amount, unstaking
    takes from build-and-earn first and from voting for the rest. *)

From S2P Require Import Prelude Protocol.

Record StakeAmount := mkStakeAmount {
  voting : Z;
  build_and_earn : Z;
  era : Z;
  period : Z;
}.

#[export] Instance StakeAmount_eq_dec : EqDecision StakeAmount.
Proof. solve_decision. Defined.

Definition default : StakeAmount := mkStakeAmount 0 0 0 0.

Definition set_era (e : Z) (s : StakeAmount) : StakeAmount :=
  mkStakeAmount (voting s) (build_and_earn s) e (period s).
Definition set_period (p : Z) (s : StakeAmount) : StakeAmount :=
  mkStakeAmount (voting s) (build_and_earn s) (era s) p.

Definition is_empty (s : StakeAmount) : bool := (voting s =? 0) && (build_and_earn s =? 0).

Definition total (s : StakeAmount) : Z := sat_add u128_max (voting s) (build_and_earn s).

Definition for_type (s : StakeAmount) (sp : Subperiod) : Z :=
  match sp with Voting => voting s | BuildAndEarn => build_and_earn s end.

Definition add (amount : Z) (sp : Subperiod) (s : StakeAmount) : StakeAmount :=
  match sp with
  | Voting =>
      mkStakeAmount (sat_add u128_max (voting s) amount) (build_and_earn s) (era s) (period s)
  | BuildAndEarn =>
      mkStakeAmount (voting s) (sat_add u128_max (build_and_earn s) amount) (era s) (period s)
  end.

Definition subtract (amount : Z) (s : StakeAmount) : StakeAmount :=
  if amount <=? build_and_earn s then
    mkStakeAmount (voting s) (sat_sub (build_and_earn s) amount) (era s) (period s)
  else
    let remainder := sat_sub amount (build_and_earn s) in
    mkStakeAmount (sat_sub (voting s) remainder) 0 (era s) (period s).

(** ** Well-formed amounts and their order *)

(** Both amounts are non-negative and their sum is a [u128]. *)
Definition valid (s : StakeAmount) : Prop :=
  0 <= voting s /\ 0 <= build_and_earn s /\ voting s + build_and_earn s <= u128_max.

(** Pointwise order on the amounts. *)
Definition le (s t : StakeAmount) : Prop :=
  voting s <= voting t /\ build_and_earn s <= build_and_earn t.

Ltac stake_lia :=
  unfold valid, le, total, is_empty, for_type in *; simpl in *; ulia.

Lemma default_valid : valid default.
Proof. stake_lia. Qed.

Lemma set_era_valid e s : valid s -> valid (set_era e s).
Proof. done. Qed.

Lemma set_period_valid p s : valid s -> valid (set_period p s).
Proof. done. Qed.

Lemma total_nonneg s : valid s -> 0 <= total s <= u128_max.
Proof. stake_lia. Qed.

Lemma total_exact s : valid s -> total s = voting s + build_and_earn s.
Proof. stake_lia. Qed.

Lemma is_empty_total s : valid s -> is_empty s = (total s =? 0).
Proof. stake_lia. Qed.

Lemma total_set_era e s : total (set_era e s) = total s.
Proof. done. Qed.

Lemma total_set_period p s : total (set_period p s) = total s.
Proof. done. Qed.

Lemma add_valid a sp s :
  valid s -> 0 <= a -> total s + a <= u128_max -> valid (add a sp s).
Proof. destruct sp; stake_lia. Qed.

Lemma total_add a sp s :
  valid s -> 0 <= a -> total s + a <= u128_max -> total (add a sp s) = total s + a.
Proof. destruct sp; stake_lia. Qed.

Lemma add_le a sp s : valid s -> 0 <= a -> total s + a <= u128_max -> le s (add a sp s).
Proof. destruct sp; stake_lia. Qed.

Lemma subtract_valid a s : valid s -> 0 <= a -> valid (subtract a s).
Proof. intros Hs Ha. unfold subtract. destruct (_ <=? _) eqn:?; stake_lia. Qed.

Lemma total_subtract a s :
  valid s -> 0 <= a -> total (subtract a s) = sat_sub (total s) a.
Proof. intros Hs Ha. unfold subtract. destruct (_ <=? _) eqn:?; stake_lia. Qed.

Lemma subtract_mono a s t : le s t -> valid s -> valid t -> 0 <= a ->
  le (subtract a s) (subtract a t).
Proof.
  intros Hle Hs Ht Ha. unfold subtract.
  destruct (_ <=? _) eqn:?; destruct (_ <=? build_and_earn t) eqn:?; stake_lia.
Qed.

Lemma le_total s t : le s t -> valid s -> valid t -> total s <= total t.
Proof. stake_lia. Qed.

Lemma subtract_era a s : era (subtract a s) = era s.
Proof. unfold subtract. by destruct (_ <=? _). Qed.

Lemma subtract_period a s : period (subtract a s) = period s.
Proof. unfold subtract. by destruct (_ <=? _). Qed.

Lemma add_era a sp s : era (add a sp s) = era s.
Proof. by destruct sp. Qed.

Lemma add_period a sp s : period (add a sp s) = period s.
Proof. by destruct sp. Qed.

#[export] Hint Resolve default_valid set_era_valid set_period_valid add_valid
  subtract_valid : rust.
Create Rewrite HintDb stake.
#[export] Hint Rewrite subtract_era subtract_period add_era add_period
  total_set_era total_set_period : stake.

(** ** Theorem *)

(** Unstaking [a] from a valid amount reduces the total by exactly [a] (to
    zero when less than [a] is staked); the voting amount is touched only
    when build-and-earn does not cover [a], which is then emptied. *)
Theorem subtract_spec (a : Z) (s : StakeAmount) :
  valid s -> 0 <= a ->
  total (subtract a s) = Z.max 0 (total s - a) /\
  (a <= build_and_earn s -> voting (subtract a s) = voting s) /\
  (build_and_earn s < a ->
     build_and_earn (subtract a s) = 0 /\
     voting (subtract a s) = Z.max 0 (voting s - (a - build_and_earn s))).
Proof.
  intros Hs Ha. split_and!.
  - rewrite total_subtract by done. done.
  - intros Hb. unfold subtract. by rewrite (proj2 (Z.leb_le _ _) Hb).
  - intros Hb. unfold subtract. rewrite (proj2 (Z.leb_gt _ _) Hb). stake_lia.
Qed.

Lemma subtract_spec_witness :
  subtract 70 (mkStakeAmount 100 50 6 1) = mkStakeAmount 80 0 6 1 /\
  total (subtract 70 (mkStakeAmount 100 50 6 1)) = 80.
Proof.
  split; [reflexivity|].
  apply (subtract_spec 70 (mkStakeAmount 100 50 6 1)); unfold valid; simpl; lia.
Defined.
