(* ===== verification/EraInfo.v ===== *)
(** * [EraInfo]: protocol-wide totals of the ongoing era

    [pallets/dapp-staking/src/types.rs].  How much is locked and unlocking,
    and how much is staked in the ongoing and in the next era. *)

From S2P Require Import Prelude Protocol StakeAmount.

Record EraInfo := mkEraInfo {
  total_locked : Z;
  unlocking : Z;
  current_stake_amount : StakeAmount;
  next_stake_amount : StakeAmount;
}.

Definition default : EraInfo := mkEraInfo 0 0 StakeAmount.default StakeAmount.default.

Definition add_locked (amount : Z) (e : EraInfo) : EraInfo :=
  mkEraInfo (sat_add u128_max (total_locked e) amount) (unlocking e)
    (current_stake_amount e) (next_stake_amount e).

Definition unlocking_started (amount : Z) (e : EraInfo) : EraInfo :=
  mkEraInfo (sat_sub (total_locked e) amount) (sat_add u128_max (unlocking e) amount)
    (current_stake_amount e) (next_stake_amount e).

Definition unlocking_removed (amount : Z) (e : EraInfo) : EraInfo :=
  mkEraInfo (total_locked e) (sat_sub (unlocking e) amount)
    (current_stake_amount e) (next_stake_amount e).

Definition add_stake_amount (amount : Z) (sp : Subperiod) (e : EraInfo) : EraInfo :=
  mkEraInfo (total_locked e) (unlocking e)
    (current_stake_amount e) (StakeAmount.add amount sp (next_stake_amount e)).

Definition unstake_amount (amount : Z) (e : EraInfo) : EraInfo :=
  mkEraInfo (total_locked e) (unlocking e)
    (StakeAmount.subtract amount (current_stake_amount e))
    (StakeAmount.subtract amount (next_stake_amount e)).

Definition total_staked_amount (e : EraInfo) : Z := total (current_stake_amount e).
Definition staked_amount (e : EraInfo) (sp : Subperiod) : Z :=
  for_type (current_stake_amount e) sp.
Definition total_staked_amount_next_era (e : EraInfo) : Z := total (next_stake_amount e).
Definition staked_amount_next_era (e : EraInfo) (sp : Subperiod) : Z :=
  for_type (next_stake_amount e) sp.

(** What a new period does to each of the two stake amounts. *)
Definition reset_for_new_period (s : StakeAmount) : StakeAmount :=
  mkStakeAmount 0 0 (sat_add u32_max (StakeAmount.era s) 1)
    (sat_add u32_max (StakeAmount.period s) 1).

Definition migrate_to_next_era (next_subperiod : option Subperiod) (e : EraInfo) : EraInfo :=
  match next_subperiod with
  | Some Voting =>
      mkEraInfo (total_locked e) (unlocking e)
        (reset_for_new_period (current_stake_amount e))
        (reset_for_new_period (next_stake_amount e))
  | Some BuildAndEarn | None =>
      mkEraInfo (total_locked e) (unlocking e)
        (next_stake_amount e)
        (StakeAmount.set_era (sat_add u32_max (StakeAmount.era (next_stake_amount e)) 1)
           (next_stake_amount e))
  end.

(** ** Lemmas *)

Definition valid (e : EraInfo) : Prop :=
  in_range u128_max (total_locked e) /\ in_range u128_max (unlocking e) /\
  StakeAmount.valid (current_stake_amount e) /\ StakeAmount.valid (next_stake_amount e).

Lemma migrate_next_total sp e :
  StakeAmount.valid (next_stake_amount e) ->
  total_staked_amount_next_era (migrate_to_next_era sp e) =
    match sp with Some Voting => 0 | _ => total_staked_amount_next_era e end.
Proof. by destruct sp as [[]|]. Qed.

Lemma migrate_locked sp e :
  total_locked (migrate_to_next_era sp e) = total_locked e /\
  unlocking (migrate_to_next_era sp e) = unlocking e.
Proof. by destruct sp as [[]|]. Qed.

Lemma migrate_valid sp e : valid e -> valid (migrate_to_next_era sp e).
Proof.
  intros (?&?&?&?). destruct sp as [[]|]; simpl; split_and!; try done; StakeAmount.stake_lia.
Qed.
