(* ===== verification/AccountLedger.v ===== *)
(** * [AccountLedger]: what an account has locked, unlocking and staked

    [pallets/dapp-staking/src/types.rs].  [staked] is the stake of some era,
    [staked_future] the stake from the era after it on; both are updated
    lazily.  The abstract reading of the two fields is [stake_at], the amount
    staked in a given era; claiming rewards is specified against it. *)

From S2P Require Import Prelude Protocol StakeAmount.

Record UnlockingChunk := mkUnlockingChunk {
  amount : Z;
  unlock_block : Z;
}.

Inductive AccountLedgerError :=
| InvalidEra
| NoCapacity
| InvalidPeriod
| UnavailableStakeFunds
| UnstakeAmountLargerThanStake
| NothingToClaim
| InvalidIterator.

Record AccountLedger := mkAccountLedger {
  locked : Z;
  unlocking : list UnlockingChunk;
  staked : StakeAmount;
  staked_future : option StakeAmount;
  contract_stake_count : Z;
}.

Definition default : AccountLedger := mkAccountLedger 0 [] StakeAmount.default None 0.

Definition set_locked (x : Z) (l : AccountLedger) : AccountLedger :=
  mkAccountLedger x (unlocking l) (staked l) (staked_future l) (contract_stake_count l).
Definition set_unlocking (x : list UnlockingChunk) (l : AccountLedger) : AccountLedger :=
  mkAccountLedger (locked l) x (staked l) (staked_future l) (contract_stake_count l).
Definition set_stake (s : StakeAmount) (f : option StakeAmount) (l : AccountLedger) : AccountLedger :=
  mkAccountLedger (locked l) (unlocking l) s f (contract_stake_count l).
Definition set_contract_stake_count (n : Z) (l : AccountLedger) : AccountLedger :=
  mkAccountLedger (locked l) (unlocking l) (staked l) (staked_future l) n.

(** ** Locking and unlocking *)

Definition is_empty (l : AccountLedger) : bool :=
  (locked l =? 0) && bool_decide (length (unlocking l) = 0%nat)
  && (total (staked l) =? 0) && bool_decide (staked_future l = None).

Definition active_locked_amount (l : AccountLedger) : Z := locked l.

(** [iter().fold(0, |sum, chunk| sum.saturating_add(chunk.amount))]. *)
Definition sum_chunks (sum : Z) (cs : list UnlockingChunk) : Z :=
  foldl (fun sum c => sat_add u128_max sum (amount c)) sum cs.

Definition unlocking_amount (l : AccountLedger) : Z := sum_chunks 0 (unlocking l).

Definition total_locked_amount (l : AccountLedger) : Z :=
  sat_add u128_max (active_locked_amount l) (unlocking_amount l).

Definition add_lock_amount (a : Z) (l : AccountLedger) : AccountLedger :=
  set_locked (sat_add u128_max (locked l) a) l.

Definition subtract_lock_amount (a : Z) (l : AccountLedger) : AccountLedger :=
  set_locked (sat_sub (locked l) a) l.

Definition add_to_chunk (a : Z) (c : UnlockingChunk) : UnlockingChunk :=
  mkUnlockingChunk (sat_add u128_max (amount c) a) (unlock_block c).

Definition add_unlocking_chunk (UnlockingLen a block : Z) (l : AccountLedger)
    : Result AccountLedger AccountLedgerError :=
  if a =? 0 then Ok l
  else
    match binary_search_by unlock_block (unlocking l) block with
    | inl idx => Ok (set_unlocking (alter (add_to_chunk a) idx (unlocking l)) l)
    | inr idx =>
        match try_insert UnlockingLen (unlocking l) idx (mkUnlockingChunk a block) with
        | Some cs => Ok (set_unlocking cs l)
        | None => Err NoCapacity
        end
    end.

(** [retain] keeps the chunks that have not matured and adds the others up. *)
Definition matured (current_block_number : Z) (c : UnlockingChunk) : Prop :=
  unlock_block c <= current_block_number.

#[export] Instance matured_dec b c : Decision (matured b c).
Proof. unfold matured. apply _. Defined.

Definition claim_unlocked (current_block_number : Z) (l : AccountLedger)
    : Z * AccountLedger :=
  (sum_chunks 0 (filter (matured current_block_number) (unlocking l)),
   set_unlocking (filter (fun c => ~ matured current_block_number c) (unlocking l)) l).

Definition consume_unlocking_chunks (l : AccountLedger) : Z * AccountLedger :=
  (sum_chunks 0 (unlocking l), set_unlocking [] l).

(** ** Staking *)

Definition staked_amount (l : AccountLedger) (active_period : Z) : Z :=
  let current :=
    if period (staked l) =? active_period then total (staked l) else 0 in
  match staked_future l with
  | Some f => if period f =? active_period then total f else current
  | None => current
  end.

Definition staked_amount_for_type (l : AccountLedger) (sp : Subperiod) (p : Z) : Z :=
  let current :=
    if period (staked l) =? p then for_type (staked l) sp else 0 in
  match staked_future l with
  | Some f => if period f =? p then for_type f sp else current
  | None => current
  end.

Definition unlockable_amount (l : AccountLedger) (current_period : Z) : Z :=
  sat_sub (active_locked_amount l) (staked_amount l current_period).

Definition stakeable_amount (l : AccountLedger) (active_period : Z) : Z :=
  sat_sub (active_locked_amount l) (staked_amount l active_period).

Definition stake_unstake_argument_check
    (l : AccountLedger) (current_era : Z) (current_period_info : PeriodInfo)
    : Result unit AccountLedgerError :=
  if negb (StakeAmount.is_empty (staked l)) then
    if negb (StakeAmount.era (staked l) =? current_era) then Err InvalidEra
    else if negb (period (staked l) =? number current_period_info) then Err InvalidPeriod
    else Ok tt
  else
    match staked_future l with
    | Some f =>
        if negb (StakeAmount.era f =? sat_add u32_max current_era 1)
           && negb (StakeAmount.era f =? current_era)
        then Err InvalidEra
        else if negb (period f =? number current_period_info) then Err InvalidPeriod
        else Ok tt
    | None => Ok tt
    end.

Definition add_stake_amount
    (a current_era : Z) (current_period_info : PeriodInfo) (l : AccountLedger)
    : Result AccountLedger AccountLedgerError :=
  if a =? 0 then Ok l
  else
    let! _ := stake_unstake_argument_check l current_era current_period_info in
    if stakeable_amount l (number current_period_info) <? a then Err UnavailableStakeFunds
    else
      match staked_future l with
      | Some f =>
          let staked := if StakeAmount.era f =? current_era then f else staked l in
          Ok (set_stake staked
                (Some (StakeAmount.set_era (sat_add u32_max current_era 1)
                         (StakeAmount.add a (subperiod current_period_info) f))) l)
      | None =>
          let f := StakeAmount.set_era (sat_add u32_max current_era 1) (staked l) in
          let f := StakeAmount.set_period (number current_period_info) f in
          let f := StakeAmount.add a (subperiod current_period_info) f in
          Ok (set_stake (staked l) (Some f) l)
      end.

Definition unstake_amount
    (a current_era : Z) (current_period_info : PeriodInfo) (l : AccountLedger)
    : Result AccountLedger AccountLedgerError :=
  if a =? 0 then Ok l
  else
    let! _ := stake_unstake_argument_check l current_era current_period_info in
    if staked_amount l (number current_period_info) <? a then Err UnstakeAmountLargerThanStake
    else
      let s := StakeAmount.subtract a (staked l) in
      let s := if StakeAmount.is_empty s then StakeAmount.default else s in
      let f :=
        match staked_future l with
        | Some f =>
            let f := StakeAmount.subtract a f in
            if StakeAmount.is_empty f then None else Some f
        | None => None
        end in
      Ok (set_stake s f l).

Definition staked_period (l : AccountLedger) : option Z :=
  if StakeAmount.is_empty (staked l) then period <$> staked_future l
  else Some (period (staked l)).

Definition earliest_staked_era (l : AccountLedger) : option Z :=
  if StakeAmount.is_empty (staked l) then StakeAmount.era <$> staked_future l
  else Some (StakeAmount.era (staked l)).

(** The flag says whether a change was made. *)
Definition maybe_cleanup_expired (valid_threshold_period : Z) (l : AccountLedger)
    : bool * AccountLedger :=
  match staked_period l with
  | Some p =>
      if p <? valid_threshold_period
      then (true, set_stake StakeAmount.default None l)
      else (false, l)
  | None => (false, l)
  end.

(** ** The iterator over [(era, staked amount)] pairs *)

Record EraStakePairIter := mkEraStakePairIter {
  maybe_first : option (Z * Z);
  start_era : Z;
  end_era : Z;
  iter_amount : Z;
}.

Definition iter_new (span : Z * Z * Z) (first : option (Z * Z))
    : Result EraStakePairIter unit :=
  let '(s, e, a) := span in
  if e <? s then Err tt
  else
    match first with
    | Some (era, _) =>
        if negb (sat_sub s era =? 1) then Err tt else Ok (mkEraStakePairIter first s e a)
    | None => Ok (mkEraStakePairIter first s e a)
    end.

Definition iter_next (it : EraStakePairIter) : option (Z * Z) * EraStakePairIter :=
  match maybe_first it with
  | Some x =>
      (Some x, mkEraStakePairIter None (start_era it) (end_era it) (iter_amount it))
  | None =>
      if start_era it <=? end_era it then
        (Some (start_era it, iter_amount it),
         mkEraStakePairIter None (sat_add u32_max (start_era it) 1) (end_era it)
           (iter_amount it))
      else (None, it)
  end.

(** A [for] loop over the iterator: the items until the first [None], or
    [None] when [fuel] items did not reach it. *)
Fixpoint iter_collect (fuel : nat) (it : EraStakePairIter) : option (list (Z * Z)) :=
  match fuel with
  | O => None
  | S fuel =>
      match iter_next it with
      | (None, _) => Some []
      | (Some x, it') => cons x <$> iter_collect fuel it'
      end
  end.

(** One round for the first item, one per era of the span, one for the end. *)
Definition iter_fuel (it : EraStakePairIter) : nat :=
  Z.to_nat (end_era it - start_era it + 3).

Definition claim_up_to_era (era : Z) (period_end : option Z) (l : AccountLedger)
    : Result (EraStakePairIter * AccountLedger) AccountLedgerError :=
  ensure! (if negb (StakeAmount.is_empty (staked l)) then StakeAmount.era (staked l) <=? era
           else match staked_future l with
                | Some f => StakeAmount.era f <=? era
                | None => true
                end) else NothingToClaim in
  let '(span, first) :=
    match staked_future l with
    | Some f =>
        if StakeAmount.is_empty (staked l) then ((StakeAmount.era f, era, total f), None)
        else if StakeAmount.era (staked l) =? era
        then ((era, era, total (staked l)), None)
        else ((StakeAmount.era f, era, total f),
              Some (StakeAmount.era (staked l), total (staked l)))
    | None => ((StakeAmount.era (staked l), era, total (staked l)), None)
    end in
  let! result := map_err (fun _ => InvalidIterator) (iter_new span first) in
  let s := match staked_future l with Some f => f | None => staked l end in
  let s := StakeAmount.set_era (sat_add u32_max era 1) s in
  let ended :=
    match period_end with Some e => e <=? era | None => false end in
  Ok (result, if ended then set_stake StakeAmount.default None l else set_stake s None l).

(** ** Well-formed ledgers *)

Definition chunk_sum (cs : list UnlockingChunk) : Z := zsum (amount <$> cs).

(** The two stake entries: [staked_future] is never an empty entry, and when
    both entries hold a stake they are of consecutive eras of one period and
    the later one is at least the earlier one. An empty [staked] is the
    default entry. *)
Definition stake_wf (s : StakeAmount) (f : option StakeAmount) : Prop :=
  valid s /\ (total s = 0 -> s = StakeAmount.default) /\
  match f with
  | None => True
  | Some f =>
      valid f /\ 0 < total f /\ StakeAmount.le s f /\
      (0 < total s -> StakeAmount.era f = StakeAmount.era s + 1 /\ period f = period s)
  end.

Record wf (UnlockingLen : Z) (l : AccountLedger) : Prop := {
  wf_locked : 0 <= locked l;
  wf_total : locked l + chunk_sum (unlocking l) <= u128_max;
  wf_sorted : sorted_by_key unlock_block (unlocking l);
  wf_chunks : Forall (fun c => 0 < amount c) (unlocking l);
  wf_length : Z.of_nat (length (unlocking l)) <= UnlockingLen;
  wf_stake : stake_wf (staked l) (staked_future l);
  wf_count : in_range u32_max (contract_stake_count l);
}.

(** The abstract reading of the stake entries: the amount staked in era [e],
    for the eras that have not been claimed yet. *)
Definition stake_at (l : AccountLedger) (e : Z) : Z :=
  let current :=
    if negb (StakeAmount.is_empty (staked l)) && (StakeAmount.era (staked l) <=? e)
    then total (staked l) else 0 in
  match staked_future l with
  | Some f => if StakeAmount.era f <=? e then total f else current
  | None => current
  end.

(** ** Lemmas: unlocking chunks *)

Lemma chunk_sum_cons c cs : chunk_sum (c :: cs) = amount c + chunk_sum cs.
Proof. done. Qed.

Lemma chunk_sum_nonneg cs : Forall (fun c => 0 < amount c) cs -> 0 <= chunk_sum cs.
Proof.
  intros Hcs. apply zsum_nonneg, Forall_fmap. eapply Forall_impl; [exact Hcs|]. simpl. lia.
Qed.

Lemma sum_chunks_exact s cs :
  0 <= s -> Forall (fun c => 0 < amount c) cs -> s + chunk_sum cs <= u128_max ->
  sum_chunks s cs = s + chunk_sum cs.
Proof.
  intros Hs Hcs. revert s Hs.
  induction Hcs as [|c cs Hc Hcs IH]; intros s Hs Hle.
  - change (chunk_sum []) with 0. simpl. lia.
  - rewrite chunk_sum_cons in *. pose proof (chunk_sum_nonneg cs Hcs).
    simpl. rewrite sat_add_exact by lia. rewrite IH by lia. lia.
Qed.

Lemma chunk_sum_app cs1 cs2 : chunk_sum (cs1 ++ cs2) = chunk_sum cs1 + chunk_sum cs2.
Proof. unfold chunk_sum. by rewrite fmap_app, zsum_app. Qed.

Lemma chunk_sum_filter (P : UnlockingChunk -> Prop) `{!forall c, Decision (P c)} cs :
  chunk_sum (filter P cs) + chunk_sum (filter (fun c => ~ P c) cs) = chunk_sum cs.
Proof.
  induction cs as [|c cs IH]; [done|]. rewrite !filter_cons.
  destruct (decide (P c)), (decide (~ P c)); try tauto; rewrite !chunk_sum_cons; lia.
Qed.

Lemma chunk_sum_alter a i c cs :
  cs !! i = Some c -> amount c + a <= u128_max ->
  chunk_sum (alter (add_to_chunk a) i cs) = chunk_sum cs + a.
Proof.
  revert i. induction cs as [|c' cs IH]; intros [|i] Hi Ha; simplify_eq/=.
  - rewrite !chunk_sum_cons. simpl. rewrite sat_add_exact by done. lia.
  - change (chunk_sum (c' :: alter (add_to_chunk a) i cs) = chunk_sum (c' :: cs) + a).
    rewrite !chunk_sum_cons, (IH i Hi Ha). lia.
Qed.

Lemma chunk_le_sum i c cs :
  Forall (fun c => 0 < amount c) cs -> cs !! i = Some c -> amount c <= chunk_sum cs.
Proof.
  intros Hcs. revert i. induction Hcs as [|c' cs Hc Hcs IH]; intros [|i] Hi; simplify_eq/=.
  - pose proof (chunk_sum_nonneg cs Hcs). rewrite chunk_sum_cons. lia.
  - specialize (IH i Hi). rewrite chunk_sum_cons. lia.
Qed.

Lemma unlocking_amount_exact n l : wf n l -> unlocking_amount l = chunk_sum (unlocking l).
Proof.
  intros []. unfold unlocking_amount. rewrite sum_chunks_exact; try done; lia.
Qed.

Lemma total_locked_exact n l :
  wf n l -> total_locked_amount l = locked l + chunk_sum (unlocking l).
Proof.
  intros Hwf. unfold total_locked_amount, active_locked_amount.
  rewrite (unlocking_amount_exact n) by done. destruct Hwf. ulia.
Qed.

Lemma alter_keys a (i : nat) (cs : list UnlockingChunk) :
  unlock_block <$> alter (add_to_chunk a) i cs = unlock_block <$> cs.
Proof.
  revert i. induction cs as [|c cs IH]; intros [|i]; simpl; [done..|].
  f_equal. apply IH.
Qed.

Lemma alter_positive a (i : nat) (cs : list UnlockingChunk) :
  0 <= a -> Forall (fun c => 0 < amount c) cs ->
  Forall (fun c => 0 < amount c) (alter (add_to_chunk a) i cs).
Proof.
  intros Ha Hcs. revert i.
  induction Hcs as [|c cs Hc Hcs IH]; intros [|i]; simpl; try done; constructor; try done.
  - simpl. ulia.
  - apply IH.
Qed.

Lemma add_unlocking_chunk_wf n a block l l' :
  wf n l -> 0 < a -> locked l + chunk_sum (unlocking l) + a <= u128_max ->
  add_unlocking_chunk n a block l = Ok l' ->
  wf n l' /\ chunk_sum (unlocking l') = chunk_sum (unlocking l) + a /\
  l' = set_unlocking (unlocking l') l.
Proof.
  intros Hwf Ha Hle H. unfold add_unlocking_chunk in H.
  rewrite (proj2 (Z.eqb_neq a 0)) in H by lia.
  pose proof (binary_search_by_correct unlock_block (unlocking l) block (wf_sorted n l Hwf)) as Hbs.
  destruct (binary_search_by _ _ _) as [i|i]; result_inv.
  - destruct Hbs as (c & Hc & Hblock). destruct Hwf as [Hl Ht Hs Hp Hn Hst Hct].
    pose proof (chunk_le_sum i c _ Hp Hc) as Hcle.
    assert (Hsum := chunk_sum_alter a i c (unlocking l) Hc ltac:(lia)).
    split_and!; [split; simpl|simpl; done|done]; try done.
    + rewrite Hsum. lia.
    + unfold sorted_by_key. by rewrite alter_keys.
    + apply alter_positive; [lia|done].
    + by rewrite length_alter.
  - unfold try_insert in *. result_inv. destruct Hwf as [Hl Ht Hs Hp Hn Hst Hct].
    assert (Hsum : chunk_sum (take i (unlocking l) ++ mkUnlockingChunk a block :: drop i (unlocking l))
              = chunk_sum (unlocking l) + a).
    { rewrite chunk_sum_app. rewrite <- (take_drop i (unlocking l)) at 3.
      rewrite chunk_sum_app, chunk_sum_cons. simpl. lia. }
    split_and!; [split; simpl|simpl; done|done]; try done.
    + rewrite Hsum. lia.
    + by eapply sorted_by_key_insert.
    + apply Forall_app; split; [by apply Forall_take|].
      constructor; [simpl; lia|by apply Forall_drop].
    + rewrite length_app. simpl. rewrite length_take, length_drop.
      destruct Hbs as [Hi _]. lia.
Qed.

(** ** Lemmas: stake entries *)

Lemma stake_wf_set n s f l :
  wf n l -> stake_wf s f -> wf n (set_stake s f l).
Proof. intros [] ?. by split. Qed.

Lemma stake_wf_default : stake_wf StakeAmount.default None.
Proof. split_and!; [apply default_valid|done|done]. Qed.

(** The entry that counts for the next era. *)
Definition latest (l : AccountLedger) : StakeAmount :=
  match staked_future l with Some f => f | None => staked l end.

Lemma staked_amount_latest l p :
  stake_wf (staked l) (staked_future l) ->
  staked_amount l p = if period (latest l) =? p then total (latest l) else 0.
Proof.
  intros (Hv & Hd & Hf). unfold staked_amount, latest.
  destruct (staked_future l) as [f|]; [|done].
  destruct (period f =? p) eqn:Hp; [done|].
  destruct (period (staked l) =? p) eqn:Hp'; [|done].
  destruct Hf as (_ & _ & _ & Hf). pose proof (total_nonneg _ Hv).
  destruct (Z.eq_dec (total (staked l)) 0); [done|]. lia.
Qed.

Lemma staked_amount_nonneg l p :
  stake_wf (staked l) (staked_future l) -> 0 <= staked_amount l p <= u128_max.
Proof.
  intros Hwf. rewrite staked_amount_latest by done. unfold latest.
  destruct Hwf as (Hv & _ & Hf).
  destruct (staked_future l) as [f|], (period _ =? p); try lia;
    apply total_nonneg; tauto.
Qed.

(** A stake or unstake that passes the argument check finds entries of the
    ongoing era and period only. *)
Lemma argument_check_ok l e pi :
  stake_wf (staked l) (staked_future l) ->
  stake_unstake_argument_check l e pi = Ok tt ->
  (0 < total (staked l) ->
     StakeAmount.era (staked l) = e /\ period (staked l) = number pi) /\
  match staked_future l with
  | Some f =>
      period f = number pi /\
      (0 < total (staked l) -> StakeAmount.era f = e + 1) /\
      (StakeAmount.era f = sat_add u32_max e 1 \/ StakeAmount.era f = e \/ 0 < total (staked l))
  | None => True
  end.
Proof.
  intros (Hv & Hd & Hf). unfold stake_unstake_argument_check.
  rewrite is_empty_total by done. pose proof (total_nonneg _ Hv) as Hnn.
  destruct (total (staked l) =? 0) eqn:Ht; simpl; intros H.
  - split; [lia|]. destruct (staked_future l) as [f|]; [|done].
    result_inv. split_and!; lia.
  - result_inv. split; [lia|]. destruct (staked_future l) as [f|]; [|done].
    destruct Hf as (_ & _ & _ & Hf). specialize (Hf ltac:(lia)). lia.
Qed.

Lemma argument_check_error l e pi err :
  stake_unstake_argument_check l e pi = Err err -> err = InvalidEra \/ err = InvalidPeriod.
Proof.
  unfold stake_unstake_argument_check. intros H.
  destruct (negb _); [|destruct (staked_future l)]; result_inv; auto.
Qed.

Lemma staked_amount_checked l e pi :
  stake_wf (staked l) (staked_future l) ->
  stake_unstake_argument_check l e pi = Ok tt ->
  staked_amount l (number pi) = total (latest l).
Proof.
  intros Hwf Hc. pose proof (argument_check_ok l e pi Hwf Hc) as [Hs Hf].
  rewrite staked_amount_latest by done. unfold latest in *.
  destruct Hwf as (Hv & Hd & _). pose proof (total_nonneg _ Hv).
  destruct (staked_future l) as [f|].
  - by rewrite (proj2 (Z.eqb_eq _ _) (proj1 Hf)).
  - destruct (period (staked l) =? number pi) eqn:?; [done|].
    destruct (Z.eq_dec (total (staked l)) 0); lia.
Qed.

(** The entry that counts for era [e] once the future entry of era [e], if
    any, is rolled over. *)
Definition rolled (l : AccountLedger) (e : Z) : StakeAmount :=
  match staked_future l with
  | Some f => if StakeAmount.era f =? e then f else staked l
  | None => staked l
  end.

Lemma rolled_checked l e pi :
  0 <= e < u32_max ->
  stake_wf (staked l) (staked_future l) ->
  stake_unstake_argument_check l e pi = Ok tt ->
  valid (rolled l e) /\ (total (rolled l e) = 0 -> rolled l e = StakeAmount.default) /\
  StakeAmount.le (rolled l e) (latest l) /\ total (rolled l e) = stake_at l e /\
  (0 < total (rolled l e) ->
     StakeAmount.era (rolled l e) = e /\ period (rolled l e) = number pi).
Proof.
  intros He Hwf Hc. pose proof (argument_check_ok l e pi Hwf Hc) as [Hs Hf].
  destruct Hwf as (Hv & Hd & Hfw). pose proof (total_nonneg _ Hv) as Hsn.
  unfold rolled, latest, stake_at. rewrite is_empty_total by done.
  destruct (staked_future l) as [f|].
  - destruct Hfw as (Hfv & Hfp & Hle & Hcons). destruct Hf as (Hfper & Hfe & Hfe').
    rewrite sat_add_exact in * by lia. pose proof (total_nonneg _ Hfv) as Hfn.
    destruct (StakeAmount.era f =? e) eqn:?; split_and!; try done; try lia;
      destruct (total (staked l) =? 0) eqn:?; simpl; case_all; lia.
  - split_and!; try done. destruct (total (staked l) =? 0) eqn:?; simpl; case_all; lia.
Qed.

Lemma add_stake_amount_shape a e pi l l' :
  0 < a -> 0 <= e < u32_max -> stake_wf (staked l) (staked_future l) ->
  add_stake_amount a e pi l = Ok l' ->
  stake_unstake_argument_check l e pi = Ok tt /\
  a <= stakeable_amount l (number pi) /\
  l' = set_stake (rolled l e)
         (Some (StakeAmount.set_period (number pi) (StakeAmount.set_era (e + 1)
            (StakeAmount.add a (subperiod pi) (latest l))))) l.
Proof.
  intros Ha He Hwf H. unfold add_stake_amount in H.
  rewrite (proj2 (Z.eqb_neq a 0)) in H by lia.
  destruct (stake_unstake_argument_check l e pi) as [[]|] eqn:Hc; [|done].
  destruct (stakeable_amount _ _ <? a) eqn:Hav; [done|].
  pose proof (argument_check_ok l e pi Hwf Hc) as [_ Hf].
  rewrite sat_add_exact in * by lia. unfold latest, rolled.
  split_and!; [done|lia|].
  destruct (staked_future l) as [f|]; injection H as <-; unfold set_stake; do 2 f_equal;
    unfold StakeAmount.set_era, StakeAmount.set_period; simpl.
  - destruct Hf as [<- _]. by rewrite add_period.
  - by destruct (subperiod pi).
Qed.

(** The effect of a successful [add_stake_amount]. *)
Lemma add_stake_amount_ok n a e pi l l' :
  wf n l -> 0 < a -> 0 <= e < u32_max ->
  add_stake_amount a e pi l = Ok l' ->
  wf n l' /\ l' = set_stake (staked l') (staked_future l') l /\
  staked_amount l' (number pi) = staked_amount l (number pi) + a /\
  staked_amount l' (number pi) <= locked l /\
  stake_at l' e = stake_at l e /\
  (exists f, staked_future l' = Some f /\ StakeAmount.era f = e + 1 /\ period f = number pi) /\
  (0 < total (staked l') ->
     StakeAmount.era (staked l') = e /\ period (staked l') = number pi).
Proof.
  intros Hwf Ha He H. pose proof (wf_stake n l Hwf) as Hst.
  destruct (add_stake_amount_shape a e pi l l' Ha He Hst H) as (Hc & Hav & Hl').
  destruct (rolled_checked l e pi He Hst Hc) as (Hrv & Hrd & Hrle & Hrt & Hre).
  pose proof (staked_amount_checked l e pi Hst Hc) as Hamt.
  pose proof (staked_amount_nonneg l (number pi) Hst) as Hnn.
  pose proof (chunk_sum_nonneg _ (wf_chunks n l Hwf)) as Hcs.
  pose proof (wf_total n l Hwf) as Htot. pose proof (wf_locked n l Hwf) as Hlk.
  unfold stakeable_amount, active_locked_amount, sat_sub in Hav.
  assert (Hlv : valid (latest l)).
  { unfold latest. destruct Hst as (? & _ & Hf). destruct (staked_future l); tauto. }
  assert (Hnv := add_valid a (subperiod pi) (latest l) Hlv ltac:(lia) ltac:(lia)).
  assert (Hnt := total_add a (subperiod pi) (latest l) Hlv ltac:(lia) ltac:(lia)).
  assert (Hnle := add_le a (subperiod pi) (latest l) Hlv ltac:(lia) ltac:(lia)).
  set (f := StakeAmount.set_period _ _) in Hl'.
  assert (Hf : total f = total (latest l) + a /\ valid f /\ StakeAmount.le (rolled l e) f
             /\ StakeAmount.era f = e + 1 /\ period f = number pi).
  { subst f. split_and!; try done. unfold StakeAmount.le in *. simpl. lia. }
  clearbody f. destruct Hf as (Hft & Hfv & Hfle & Hfe & Hfp). subst l'.
  assert (Hst' : stake_wf (rolled l e) (Some f)).
  { split_and!; try done; [lia|]. intros Hp. specialize (Hre Hp). lia. }
  assert (Hamt' : staked_amount (set_stake (rolled l e) (Some f) l) (number pi)
            = total (latest l) + a).
  { rewrite staked_amount_latest by done. unfold latest at 1 2. simpl.
    by rewrite (proj2 (Z.eqb_eq _ _) Hfp). }
  split_and!; [by apply stake_wf_set|done|lia|lia| |by exists f|done].
  rewrite <- Hrt. unfold stake_at; simpl. rewrite is_empty_total by done.
  pose proof (total_nonneg _ Hrv). rewrite (proj2 (Z.leb_gt _ _)) by lia.
  destruct (_ =? 0) eqn:?; simpl; case_all; lia.
Qed.

(** An entry with its amounts cleared is replaced by the default one. *)
Definition cleanup (s : StakeAmount) : StakeAmount :=
  if StakeAmount.is_empty s then StakeAmount.default else s.

Lemma cleanup_spec s :
  valid s ->
  valid (cleanup s) /\ total (cleanup s) = total s /\
  (total (cleanup s) = 0 -> cleanup s = StakeAmount.default) /\
  (0 < total s -> cleanup s = s).
Proof.
  intros Hv. unfold cleanup. rewrite is_empty_total by done.
  assert (Hz : total StakeAmount.default = 0) by done.
  destruct (total s =? 0) eqn:?; split_and!; try done; lia.
Qed.

Lemma unstake_stake_wf a s f :
  0 <= a -> stake_wf s f ->
  stake_wf (cleanup (StakeAmount.subtract a s))
    (match f with
     | Some f =>
         if StakeAmount.is_empty (StakeAmount.subtract a f) then None
         else Some (StakeAmount.subtract a f)
     | None => None
     end).
Proof.
  intros Ha (Hv & Hd & Hf).
  destruct (cleanup_spec _ (subtract_valid a s Hv Ha)) as (Hcv & Hct & Hcd & Hci).
  split_and!; [done|done|]. destruct f as [f|]; [|done].
  destruct Hf as (Hfv & Hfp & Hle & Hcons).
  pose proof (subtract_valid a f Hfv Ha) as Hsv. pose proof (total_nonneg _ Hsv).
  rewrite is_empty_total by done. destruct (_ =? 0) eqn:?; [done|].
  pose proof (subtract_mono a s f Hle Hv Hfv Ha) as Hle'.
  split_and!; [done|lia| |].
  - unfold cleanup. destruct (StakeAmount.is_empty _); [|done].
    destruct Hsv as (? & ? & _). split; done.
  - intros Hp. rewrite Hct in Hp. rewrite (Hci Hp).
    rewrite !subtract_era, !subtract_period. apply Hcons.
    rewrite total_subtract in Hp by done. pose proof (total_nonneg _ Hv). ulia.
Qed.

Lemma staked_amount_unstaked a p l :
  0 <= a -> stake_wf (staked l) (staked_future l) ->
  staked_amount l p = total (latest l) ->
  staked_amount
    (set_stake (cleanup (StakeAmount.subtract a (staked l)))
       (match staked_future l with
        | Some f =>
            if StakeAmount.is_empty (StakeAmount.subtract a f) then None
            else Some (StakeAmount.subtract a f)
        | None => None
        end) l) p = sat_sub (staked_amount l p) a.
Proof.
  intros Ha Hst Hl. pose proof (unstake_stake_wf a _ _ Ha Hst) as Hst'.
  rewrite staked_amount_latest by done. rewrite (staked_amount_latest l) in * by done.
  destruct Hst as (Hv & Hd & Hf). unfold latest in *. simpl in *.
  destruct (cleanup_spec _ (subtract_valid a _ Hv Ha)) as (_ & Hct & _ & Hci).
  assert (Hsz := total_subtract a (staked l) Hv Ha).
  destruct (staked_future l) as [f|].
  - destruct Hf as (Hfv & Hfp & Hle & _).
    pose proof (le_total _ _ Hle Hv Hfv).
    pose proof (total_subtract a f Hfv Ha) as Hft.
    pose proof (total_nonneg _ (subtract_valid a f Hfv Ha)).
    pose proof (total_nonneg _ (subtract_valid a _ Hv Ha)).
    rewrite is_empty_total by (by apply subtract_valid).
    destruct (_ =? 0) eqn:?.
    + assert (total (cleanup (StakeAmount.subtract a (staked l))) = 0) as -> by ulia.
      destruct (period f =? p), (period _ =? p); ulia.
    + rewrite subtract_period. destruct (period f =? p); ulia.
  - pose proof (total_nonneg _ (subtract_valid a _ Hv Ha)).
    destruct (Z.eq_dec (total (StakeAmount.subtract a (staked l))) 0) as [Hz|Hz].
    + rewrite Hct, Hz. destruct (period (staked l) =? p), (period _ =? p); ulia.
    + rewrite Hci, subtract_period by lia.
      destruct (period (staked l) =? p); ulia.
Qed.

(** The effect of a successful [unstake_amount]. *)
Lemma unstake_amount_ok n a e pi l l' :
  wf n l -> 0 < a ->
  unstake_amount a e pi l = Ok l' ->
  wf n l' /\ l' = set_stake (staked l') (staked_future l') l /\
  a <= staked_amount l (number pi) /\
  staked_amount l' (number pi) = staked_amount l (number pi) - a.
Proof.
  intros Hwf Ha H. unfold unstake_amount in H.
  rewrite (proj2 (Z.eqb_neq a 0)) in H by lia.
  destruct (stake_unstake_argument_check l e pi) as [[]|] eqn:Hc; [|done].
  destruct (staked_amount _ _ <? a) eqn:Hav; [done|]. injection H as <-.
  pose proof (wf_stake n l Hwf) as Hst.
  pose proof (staked_amount_checked l e pi Hst Hc) as Hamt.
  pose proof (unstake_stake_wf a _ _ ltac:(lia) Hst) as Hst'.
  pose proof (staked_amount_unstaked a (number pi) l ltac:(lia) Hst Hamt) as Hs'.
  split_and!; [by apply stake_wf_set|done|lia|].
  unfold cleanup in Hs'. rewrite Hs'. apply sat_sub_exact. lia.
Qed.

(** The stake of era [e], the ongoing one, goes down by [a] as far as it
    reaches; the stake of the eras after it goes down by [a]. *)
Lemma unstake_amount_stake_at n a e pi l l' :
  wf n l -> 0 < a -> 0 <= e < u32_max ->
  unstake_amount a e pi l = Ok l' ->
  stake_at l' e = sat_sub (stake_at l e) a /\
  (forall e', e < e' -> stake_at l' e' = stake_at l e' - a).
Proof.
  intros Hwf Ha He H. pose proof (unstake_amount_ok n a e pi l l' Hwf Ha H) as (Hwf' & _ & Hle' & _).
  unfold unstake_amount in H. rewrite (proj2 (Z.eqb_neq a 0)) in H by lia.
  destruct (stake_unstake_argument_check l e pi) as [[]|] eqn:Hc; [|done].
  destruct (staked_amount _ _ <? a) eqn:Hav; [done|]. injection H as <-.
  pose proof (wf_stake n l Hwf) as Hst.
  pose proof (staked_amount_checked l e pi Hst Hc) as Hamt.
  destruct (argument_check_ok l e pi Hst Hc) as [Hs Hf].
  destruct Hst as (Hv & Hd & Hfw). rewrite sat_add_exact in * by lia.
  fold (cleanup (StakeAmount.subtract a (staked l))) in *.
  destruct (cleanup_spec _ (subtract_valid a _ Hv ltac:(lia))) as (Hcv & Hct & _ & Hci).
  pose proof (total_subtract a (staked l) Hv ltac:(lia)) as Hsz.
  pose proof (total_nonneg _ Hv) as Hsn.
  pose proof (total_nonneg _ Hcv) as Hcn.
  assert (Hce : 0 < total (cleanup (StakeAmount.subtract a (staked l))) ->
            StakeAmount.era (cleanup (StakeAmount.subtract a (staked l))) = e).
  { intros Hp. rewrite Hci, subtract_era by lia. apply Hs. unfold sat_sub in Hsz. lia. }
  unfold stake_at, latest in *. simpl.
  rewrite !(is_empty_total (cleanup _)), (is_empty_total (staked l)) by done.
  destruct (staked_future l) as [f|].
  - destruct Hfw as (Hfv & Hfp & Hlef & Hcons).
    pose proof (total_subtract a f Hfv ltac:(lia)) as Hfz.
    pose proof (le_total _ _ Hlef Hv Hfv) as Htle.
    rewrite is_empty_total by (apply subtract_valid; [done|lia]).
    split; [|intros e' He']; destruct (total (StakeAmount.subtract a f) =? 0) eqn:?;
      rewrite ?subtract_era; unfold sat_sub in *;
      destruct (total (staked l) =? 0) eqn:?, (total (cleanup _) =? 0) eqn:?; simpl;
      case_all; lia.
  - split; [|intros e' He']; unfold sat_sub in *;
      destruct (total (staked l) =? 0) eqn:?, (total (cleanup _) =? 0) eqn:?; simpl;
      case_all; lia.
Qed.

(** ** Lemmas: claiming *)

Lemma claim_unlocked_ok n b l :
  wf n l ->
  let '(x, l') := claim_unlocked b l in
  wf n l' /\ x = chunk_sum (filter (matured b) (unlocking l)) /\
  0 <= x /\ x + chunk_sum (unlocking l') = chunk_sum (unlocking l) /\
  l' = set_unlocking (unlocking l') l.
Proof.
  intros [Hl Ht Hs Hp Hn Hst Hct]. unfold claim_unlocked. cbn [unlocking].
  pose proof (chunk_sum_filter (matured b) (unlocking l)) as Hsum.
  assert (H1 : Forall (fun c => 0 < amount c) (filter (matured b) (unlocking l))).
  { rewrite Forall_forall in *. intros c [_ Hc]%list_elem_of_filter. auto. }
  assert (H2 : Forall (fun c => 0 < amount c) (filter (fun c => ~ matured b c) (unlocking l))).
  { rewrite Forall_forall in *. intros c [_ Hc]%list_elem_of_filter. auto. }
  pose proof (chunk_sum_nonneg _ H1). pose proof (chunk_sum_nonneg _ H2).
  rewrite sum_chunks_exact by (done || lia).
  split_and!; try done; try lia. split; simpl; try done; try lia.
  - by apply sorted_by_key_filter.
  - pose proof (length_filter (fun c => ~ matured b c) (unlocking l)). lia.
Qed.

Lemma consume_unlocking_chunks_ok n l :
  wf n l -> 0 <= n ->
  let '(x, l') := consume_unlocking_chunks l in
  wf n l' /\ x = chunk_sum (unlocking l) /\ 0 <= x /\ l' = set_unlocking [] l.
Proof.
  intros [Hl Ht Hs Hp Hn Hst Hct] H0. unfold consume_unlocking_chunks.
  pose proof (chunk_sum_nonneg _ Hp).
  rewrite sum_chunks_exact by (done || lia).
  split_and!; try done; try lia. split; simpl; try done; change (chunk_sum []) with 0; try lia.
  constructor.
Qed.

(** The iterator without a distinguished first item yields its amount for
    each era of the span, once, and stops. *)
Lemma iter_collect_span fuel s e a :
  0 <= s -> e < u32_max -> (Z.to_nat (e - s + 1) < fuel)%nat ->
  iter_collect fuel (mkEraStakePairIter None s e a) =
    Some ((fun x => (x, a)) <$> seqZ s (e - s + 1)).
Proof.
  revert s. induction fuel as [|fuel IH]; intros s Hs He Hf; [lia|].
  cbn [iter_collect]. unfold iter_next; simpl.
  destruct (s <=? e) eqn:Hse.
  - rewrite sat_add_exact by lia. rewrite IH by lia.
    rewrite (seqZ_cons s (e - s + 1)) by lia. simpl. do 4 f_equal. lia.
  - rewrite seqZ_nil by lia. done.
Qed.

Lemma iter_collect_first fuel s e a x y :
  0 <= s -> e < u32_max -> (Z.to_nat (e - s + 1) < fuel)%nat ->
  iter_collect (S fuel) (mkEraStakePairIter (Some (x, y)) s e a) =
    Some ((x, y) :: ((fun x => (x, a)) <$> seqZ s (e - s + 1))).
Proof. intros Hs He Hf. cbn [iter_collect]. unfold iter_next. simpl. by rewrite iter_collect_span. Qed.

(** Reading [stake_at] off the two entries, era by era. *)
Lemma stake_at_span l s a b :
  (forall e, s <= e < s + b -> stake_at l e = a) ->
  (fun e => (e, stake_at l e)) <$> seqZ s b = (fun e => (e, a)) <$> seqZ s b.
Proof.
  intros H. apply list_fmap_ext. intros i e Hi.
  apply lookup_seqZ in Hi as [-> Hi]. rewrite H by lia. done.
Qed.

Lemma wf_no_chunks n x s f c :
  0 <= n -> in_range u128_max x -> in_range u32_max c -> stake_wf s f ->
  wf n (mkAccountLedger x [] s f c).
Proof.
  unfold in_range. intros. split; simpl; try done; change (chunk_sum []) with 0; try lia.
  constructor.
Qed.

Lemma stake_wf_pair s f :
  valid s -> 0 < total s -> valid f -> 0 < total f -> StakeAmount.le s f ->
  StakeAmount.era f = StakeAmount.era s + 1 -> period f = period s ->
  stake_wf s (Some f).
Proof. intros. split_and!; try done; lia. Qed.

(** The errors of [add_stake_amount] and [unstake_amount]. *)
Lemma add_stake_amount_errors a e pi l err :
  0 < a -> add_stake_amount a e pi l = Err err ->
  match err with
  | InvalidEra | InvalidPeriod => stake_unstake_argument_check l e pi <> Ok tt
  | UnavailableStakeFunds => locked l < staked_amount l (number pi) + a
  | _ => False
  end.
Proof.
  intros Ha H. unfold add_stake_amount in H. rewrite (proj2 (Z.eqb_neq a 0)) in H by lia.
  destruct (stake_unstake_argument_check l e pi) as [[]|err'] eqn:Hc.
  - destruct (stakeable_amount _ _ <? a) eqn:Hav;
      [|destruct (staked_future l); discriminate]. injection H as <-.
    unfold stakeable_amount, active_locked_amount in Hav. ulia.
  - injection H as <-. by destruct (argument_check_error l e pi err' Hc) as [-> | ->].
Qed.

Lemma unstake_amount_errors a e pi l err :
  0 < a -> unstake_amount a e pi l = Err err ->
  match err with
  | InvalidEra | InvalidPeriod => stake_unstake_argument_check l e pi <> Ok tt
  | UnstakeAmountLargerThanStake => staked_amount l (number pi) < a
  | _ => False
  end.
Proof.
  intros Ha H. unfold unstake_amount in H. rewrite (proj2 (Z.eqb_neq a 0)) in H by lia.
  destruct (stake_unstake_argument_check l e pi) as [[]|err'] eqn:Hc.
  - destruct (staked_amount _ _ <? a) eqn:Hav; [|discriminate]. injection H as <-. lia.
  - injection H as <-. by destruct (argument_check_error l e pi err' Hc) as [-> | ->].
Qed.

(** ** Theorems *)

(** A successful [add_stake_amount] of a positive amount raises the staked
    amount of the ongoing period by exactly that amount, never above what is
    locked, leaves the stake of the ongoing era alone and keeps the ledger
    well-formed; it fails only for entries of another era or period, or for
    lack of free locked funds. *)
Theorem add_stake_amount_spec (n a e : Z) (pi : PeriodInfo) (l : AccountLedger) :
  wf n l -> 0 < a -> 0 <= e < u32_max ->
  match add_stake_amount a e pi l with
  | Ok l' =>
      wf n l' /\ locked l' = locked l /\ unlocking l' = unlocking l /\
      staked_amount l' (number pi) = staked_amount l (number pi) + a /\
      staked_amount l' (number pi) <= locked l' /\
      stake_at l' e = stake_at l e
  | Err InvalidEra | Err InvalidPeriod => 
      stake_unstake_argument_check l e pi <> Ok tt
  | Err UnavailableStakeFunds => locked l < staked_amount l (number pi) + a
  | Err _ => False
  end.
Proof.
  intros Hwf Ha He. destruct (add_stake_amount a e pi l) as [l'|err] eqn:H.
  - destruct (add_stake_amount_ok n a e pi l l' Hwf Ha He H) as (? & Hl' & ? & ? & ? & _).
    rewrite Hl'. rewrite <- Hl'. split_and!; try done; rewrite Hl'; done.
  - apply add_stake_amount_errors in H; [|done]. by destruct err.
Qed.

Lemma add_stake_amount_spec_witness :
  let pi := mkPeriodInfo 1 BuildAndEarn 9 in
  let l := mkAccountLedger 300 [] (mkStakeAmount 100 0 5 1) None 1 in
  add_stake_amount 50 5 pi l =
    Ok (mkAccountLedger 300 [] (mkStakeAmount 100 0 5 1) (Some (mkStakeAmount 100 50 6 1)) 1) /\
  wf 8 l /\ staked_amount l 1 + 50 <= locked l.
Proof.
  set (pi := mkPeriodInfo 1 BuildAndEarn 9).
  set (l := mkAccountLedger 300 [] (mkStakeAmount 100 0 5 1) None 1).
  assert (Hwf : wf 8 l).
  { apply wf_no_chunks; unfold in_range; try lia.
    split_and!; [unfold valid; simpl; lia|discriminate|done]. }
  pose proof (add_stake_amount_spec 8 50 5 pi l Hwf ltac:(lia) ltac:(lia)) as H.
  split; [reflexivity|]. split; [exact Hwf|].
  change (add_stake_amount 50 5 pi l) with
    (@Ok _ AccountLedgerError (mkAccountLedger 300 [] (mkStakeAmount 100 0 5 1)
       (Some (mkStakeAmount 100 50 6 1)) 1)) in H.
  destruct H as (_ & H1 & _ & H2 & H3 & _).
  change (staked_amount l 1) with (staked_amount l (number pi)). lia.
Defined.

(** A successful [unstake_amount] of a positive amount lowers the staked
    amount of the ongoing period and the stake of every later era by exactly
    that amount, the stake of the ongoing era by as much of it as that era
    holds, and keeps the ledger well-formed; it fails only for entries of
    another era or period, or when less than the amount is staked. *)
Theorem unstake_amount_spec (n a e : Z) (pi : PeriodInfo) (l : AccountLedger) :
  wf n l -> 0 < a -> 0 <= e < u32_max ->
  match unstake_amount a e pi l with
  | Ok l' =>
      wf n l' /\ locked l' = locked l /\ unlocking l' = unlocking l /\
      staked_amount l' (number pi) = staked_amount l (number pi) - a /\
      stake_at l' e = Z.max 0 (stake_at l e - a) /\
      (forall e', e < e' -> stake_at l' e' = stake_at l e' - a)
  | Err InvalidEra | Err InvalidPeriod =>
      stake_unstake_argument_check l e pi <> Ok tt
  | Err UnstakeAmountLargerThanStake => staked_amount l (number pi) < a
  | Err _ => False
  end.
Proof.
  intros Hwf Ha He. destruct (unstake_amount a e pi l) as [l'|err] eqn:H.
  - destruct (unstake_amount_ok n a e pi l l' Hwf Ha H) as (? & Hl' & ? & ?).
    destruct (unstake_amount_stake_at n a e pi l l' Hwf Ha He H) as [? ?].
    split_and!; try done; by rewrite Hl'.
  - apply unstake_amount_errors in H; [|done]. by destruct err.
Qed.

Lemma unstake_amount_spec_witness :
  let pi := mkPeriodInfo 1 BuildAndEarn 9 in
  let l := mkAccountLedger 300 [] (mkStakeAmount 100 0 5 1)
             (Some (mkStakeAmount 100 50 6 1)) 1 in
  unstake_amount 70 5 pi l =
    Ok (mkAccountLedger 300 [] (mkStakeAmount 30 0 5 1) (Some (mkStakeAmount 80 0 6 1)) 1) /\
  stake_at l 6 - 70 = 80.
Proof.
  set (pi := mkPeriodInfo 1 BuildAndEarn 9).
  set (l := mkAccountLedger 300 [] (mkStakeAmount 100 0 5 1)
              (Some (mkStakeAmount 100 50 6 1)) 1).
  assert (Hwf : wf 8 l).
  { apply wf_no_chunks; unfold in_range; try lia.
    apply stake_wf_pair; unfold valid, StakeAmount.le; simpl; try lia; reflexivity. }
  pose proof (unstake_amount_spec 8 70 5 pi l Hwf ltac:(lia) ltac:(lia)) as H.
  split; [reflexivity|].
  change (unstake_amount 70 5 pi l) with
    (@Ok _ AccountLedgerError (mkAccountLedger 300 [] (mkStakeAmount 30 0 5 1)
       (Some (mkStakeAmount 80 0 6 1)) 1)) in H.
  destruct H as (_ & _ & _ & _ & _ & H). rewrite <- H by lia. reflexivity.
Defined.

(** Claiming unlocked chunks removes exactly the chunks whose block has
    come, returns their sum, and what is returned plus what keeps unlocking is
    what was unlocking before. *)
Theorem claim_unlocked_spec (n b : Z) (l : AccountLedger) :
  wf n l ->
  let '(x, l') := claim_unlocked b l in
  x + unlocking_amount l' = unlocking_amount l /\
  locked l' = locked l /\
  (forall c, c ∈ unlocking l' <-> c ∈ unlocking l /\ b < unlock_block c) /\
  (x = 0 <-> forall c, c ∈ unlocking l -> b < unlock_block c) /\
  wf n l'.
Proof.
  intros Hwf. pose proof (claim_unlocked_ok n b l Hwf) as Hok.
  destruct (claim_unlocked b l) as [x l'] eqn:E. destruct Hok as (Hwf' & Hx & Hx0 & Hsum & Hl').
  rewrite !(unlocking_amount_exact n) by done. unfold claim_unlocked in E.
  injection E as _ E. split_and!; [done|by rewrite Hl'| | |done].
  - intros c. subst l'. simpl. rewrite list_elem_of_filter. unfold matured.
    split; intros [? ?]; split; try done; lia.
  - subst x. pose proof (wf_chunks n l Hwf) as Hp. rewrite Forall_forall in Hp. split.
    + intros H0 c Hc. apply Z.nle_gt. intros Hm.
      assert (Hcf : c ∈ filter (matured b) (unlocking l)) by by apply list_elem_of_filter.
      apply list_elem_of_lookup in Hcf as [i Hi].
      assert (amount c <= chunk_sum (filter (matured b) (unlocking l))).
      { apply (chunk_le_sum i); [|done]. apply Forall_forall.
        intros c' [_ Hc']%list_elem_of_filter. auto. }
      specialize (Hp c Hc). simpl in Hp. lia.
    + intros Hall. replace (filter (matured b) (unlocking l)) with (@nil UnlockingChunk); [done|].
      symmetry. apply elem_of_nil_inv. intros c [Hm Hc]%list_elem_of_filter.
      specialize (Hall c Hc). unfold matured in Hm. lia.
Qed.

Lemma claim_unlocked_spec_witness :
  let l := mkAccountLedger 10 [mkUnlockingChunk 5 20; mkUnlockingChunk 7 30]
             StakeAmount.default None 0 in
  fst (claim_unlocked 25 l) = 5 /\
  fst (claim_unlocked 25 l) + unlocking_amount (snd (claim_unlocked 25 l)) = 12.
Proof.
  set (l := mkAccountLedger 10 [mkUnlockingChunk 5 20; mkUnlockingChunk 7 30]
              StakeAmount.default None 0).
  split; [reflexivity|].
  assert (Hwf : wf 8 l).
  { split; unfold in_range; simpl; try lia; try apply stake_wf_default.
    - by repeat constructor.
    - repeat constructor. }
  pose proof (claim_unlocked_spec 8 25 l Hwf) as H.
  destruct (claim_unlocked 25 l). simpl. destruct H as [-> _]. reflexivity.
Defined.

(** The pairs a claim up to era [e] has to pay for: every era from the first
    unclaimed one to [e], with the amount staked in it. *)
Definition owed (l : AccountLedger) (first e : Z) : list (Z * Z) :=
  (fun x => (x, stake_at l x)) <$> seqZ first (e - first + 1).

(** The ledger once all eras up to [e] are claimed and the period goes on. *)
Definition claimed (l : AccountLedger) (e : Z) : AccountLedger :=
  set_stake (StakeAmount.set_era (sat_add u32_max e 1) (latest l)) None l.

Lemma latest_positive l first :
  stake_wf (staked l) (staked_future l) -> earliest_staked_era l = Some first ->
  valid (latest l) /\ 0 < total (latest l).
Proof.
  intros (Hv & Hd & Hf). unfold earliest_staked_era, latest.
  rewrite is_empty_total by done. pose proof (total_nonneg _ Hv).
  destruct (staked_future l) as [f|], (total (staked l) =? 0) eqn:?; simpl; try done;
    intros _; try tauto; split; try done; lia.
Qed.

Lemma claimed_stake_at l first e e' :
  stake_wf (staked l) (staked_future l) -> earliest_staked_era l = Some first ->
  0 <= e < u32_max -> first <= e < e' ->
  stake_at (claimed l e) e' = stake_at l e'.
Proof.
  intros Hwf Hfirst He He'. pose proof (latest_positive l first Hwf Hfirst) as [Hlv Hlp].
  unfold claimed, stake_at. cbn [staked staked_future set_stake].
  rewrite sat_add_exact by lia. rewrite is_empty_total, total_set_era by done. simpl.
  destruct Hwf as (Hv & Hd & Hf). unfold earliest_staked_era, latest in *.
  rewrite is_empty_total in * by done. pose proof (total_nonneg _ Hv).
  destruct (staked_future l) as [f|], (total (staked l) =? 0) eqn:?; simplify_eq/=;
    case_all; try lia.
Qed.

(** The claim succeeds from the first staked era on, and its iterator yields
    exactly what is owed. *)
Lemma claim_up_to_era_ok l first e period_end :
  stake_wf (staked l) (staked_future l) -> earliest_staked_era l = Some first ->
  0 <= first <= e -> e < u32_max ->
  exists it,
    claim_up_to_era e period_end l =
      Ok (it, if (match period_end with Some x => x <=? e | None => false end)
              then set_stake StakeAmount.default None l else claimed l e) /\
    iter_collect (iter_fuel it) it = Some (owed l first e).
Proof.
  intros Hwf Hfirst He Hmax. destruct Hwf as (Hv & Hd & Hf).
  unfold claim_up_to_era, claimed, latest, owed, earliest_staked_era, iter_fuel in *.
  rewrite is_empty_total in * by done. pose proof (total_nonneg _ Hv).
  destruct (staked_future l) as [f|] eqn:Ef, (total (staked l) =? 0) eqn:Et; simplify_eq/=;
    try (rewrite (proj2 (Z.leb_le _ _)) by lia); cbv beta iota.
  - rewrite (proj2 (Z.ltb_ge _ _)) by lia. eexists; split; [done|]. simpl.
    rewrite iter_collect_span by lia. f_equal. symmetry. apply stake_at_span.
    intros x Hx. unfold stake_at. rewrite Ef, (proj2 (Z.leb_le _ _)) by lia. done.
  - destruct Hf as (Hfv & Hfp & _ & Hcons). destruct (Hcons ltac:(lia)) as [Hera _].
    destruct (_ =? e) eqn:Hse; simpl.
    + rewrite (proj2 (Z.ltb_ge _ _)) by lia. eexists; split; [done|]. simpl.
      rewrite iter_collect_span by lia. f_equal. symmetry.
      apply Z.eqb_eq in Hse as <-. apply stake_at_span.
      intros x Hx. unfold stake_at. rewrite Ef, is_empty_total, Et by done. simpl.
      rewrite (proj2 (Z.leb_gt _ _)), (proj2 (Z.leb_le _ _)) by lia. done.
    + rewrite (proj2 (Z.ltb_ge _ _)) by lia. rewrite sat_sub_exact by lia.
      rewrite (proj2 (Z.eqb_eq _ 1)) by lia. eexists; split; [done|]. simpl.
      replace (Z.to_nat (e - StakeAmount.era f + 3))
        with (S (Z.to_nat (e - StakeAmount.era f + 2))) by lia.
      rewrite iter_collect_first by lia. f_equal.
      rewrite (seqZ_cons (StakeAmount.era (staked l))) by lia. rewrite fmap_cons. f_equal.
      * unfold stake_at. rewrite Ef, is_empty_total, Et by done. simpl.
        rewrite (proj2 (Z.leb_gt _ _)), (proj2 (Z.leb_le _ _)) by lia. done.
      * symmetry.
        replace (Z.succ (StakeAmount.era (staked l))) with (StakeAmount.era f) by lia.
        replace (Z.pred (e - StakeAmount.era (staked l) + 1)) with (e - StakeAmount.era f + 1) by lia.
        apply stake_at_span. intros x Hx. unfold stake_at.
        rewrite Ef, (proj2 (Z.leb_le _ _)) by lia. done.
  - rewrite (proj2 (Z.ltb_ge _ _)) by lia. eexists; split; [done|]. simpl.
    rewrite iter_collect_span by lia. f_equal. symmetry. apply stake_at_span.
    intros x Hx. unfold stake_at. rewrite Ef, is_empty_total, Et by done. simpl.
    rewrite (proj2 (Z.leb_le _ _)) by lia. done.
Qed.

Lemma claimed_wf n l first e :
  wf n l -> earliest_staked_era l = Some first -> wf n (claimed l e).
Proof.
  intros Hwf Hfirst. destruct (latest_positive l first (wf_stake n l Hwf) Hfirst) as [Hv Hp].
  apply stake_wf_set; [done|]. split_and!; [done|rewrite total_set_era; lia|done].
Qed.

Lemma claimed_earliest n l first e :
  wf n l -> earliest_staked_era l = Some first -> 0 <= e < u32_max ->
  earliest_staked_era (claimed l e) = Some (e + 1).
Proof.
  intros Hwf Hfirst He. destruct (latest_positive l first (wf_stake n l Hwf) Hfirst) as [Hv Hp].
  unfold earliest_staked_era, claimed. simpl. rewrite is_empty_total, total_set_era by done.
  rewrite (proj2 (Z.eqb_neq _ _)) by lia. by rewrite sat_add_exact by lia.
Qed.

(** Claiming up to an era the ledger has no unclaimed stake for is refused;
    otherwise the claim succeeds, its iterator terminates and yields exactly
    one pair per era from the first unclaimed one to the claimed one, each
    with the amount staked in that era. Afterwards the ledger has no stake
    left if the period has ended by then, and otherwise the same stake in
    every later era, with the next era as first unclaimed one. *)
Theorem claim_up_to_era_spec (n e first : Z) (period_end : option Z) (l : AccountLedger) :
  wf n l -> earliest_staked_era l = Some first -> 0 <= first -> 0 <= e < u32_max ->
  match claim_up_to_era e period_end l with
  | Err err => err = NothingToClaim /\ e < first
  | Ok (it, l') =>
      first <= e /\ wf n l' /\
      iter_collect (iter_fuel it) it = Some (owed l first e) /\
      match period_end with
      | Some pe => 
          if pe <=? e then earliest_staked_era l' = None
          else earliest_staked_era l' = Some (e + 1)
      | None => earliest_staked_era l' = Some (e + 1)
      end /\
      (earliest_staked_era l' = Some (e + 1) ->
         forall e', e < e' -> stake_at l' e' = stake_at l e')
  end.
Proof.
  intros Hwf Hfirst H0 He. destruct (Z.lt_ge_cases e first) as [Hlt|Hge].
  - unfold claim_up_to_era. unfold earliest_staked_era in Hfirst.
    destruct (StakeAmount.is_empty (staked l)); simpl.
    + destruct (staked_future l) as [f|]; simplify_eq/=.
      by rewrite (proj2 (Z.leb_gt _ _)) by lia.
    + simplify_eq. by rewrite (proj2 (Z.leb_gt _ _)) by lia.
  - destruct (claim_up_to_era_ok l first e period_end (wf_stake n l Hwf) Hfirst)
      as (it & -> & Hit); [lia..|].
    destruct (match period_end with Some x => x <=? e | None => false end) eqn:Hend.
    + split_and!; try done; [by apply stake_wf_set, stake_wf_default|].
      by destruct period_end as [pe|]; [rewrite Hend|].
    + pose proof (claimed_earliest n l first e Hwf Hfirst He) as Hearly.
      split_and!; try done; [by eapply claimed_wf| |].
      * by destruct period_end as [pe|]; [rewrite Hend|].
      * intros _ e' He'.
        eapply claimed_stake_at; [apply (wf_stake n l Hwf)|exact Hfirst|lia|lia].
Qed.

(** Scenario 1 of the documentation of [AccountLedger]: 150 staked in era 5,
    200 from era 6 on. *)
Definition scenario1 : AccountLedger :=
  mkAccountLedger 200 [] (mkStakeAmount 100 50 5 1) (Some (mkStakeAmount 100 100 6 1)) 1.

Lemma scenario1_wf : wf 8 scenario1.
Proof.
  apply wf_no_chunks; unfold in_range; try lia.
  apply stake_wf_pair; unfold valid, StakeAmount.le; simpl; try lia; reflexivity.
Qed.

Lemma claim_up_to_era_spec_witness :
  wf 8 scenario1 /\
  exists it l', claim_up_to_era 8 None scenario1 = Ok (it, l') /\
    iter_collect (iter_fuel it) it = Some [(5, 150); (6, 200); (7, 200); (8, 200)] /\
    earliest_staked_era l' = Some 9 /\ stake_at l' 20 = 200.
Proof.
  pose proof scenario1_wf as Hwf. split; [exact Hwf|].
  pose proof (claim_up_to_era_spec 8 8 5 None scenario1 Hwf eq_refl ltac:(lia) ltac:(lia)) as H.
  destruct (claim_up_to_era 8 None scenario1) as [[it l']|]; [|lia].
  destruct H as (_ & _ & Hit & Hearly & Hlater). exists it, l'.
  split_and!; [done|rewrite Hit; reflexivity|done|]. rewrite Hlater by (done || lia). reflexivity.
Defined.

(** Starting to unlock moves the amount from the locked to the unlocking
    side of the ledger: the chunk of that block grows by it, or a new chunk is
    inserted in block order, and the total that stays frozen is unchanged; it
    fails only when a new chunk would exceed the capacity. *)
Theorem unlocking_moves_funds (n a block : Z) (l : AccountLedger) :
  wf n l -> 0 < a <= locked l ->
  match add_unlocking_chunk n a block (subtract_lock_amount a l) with
  | Ok l' =>
      wf n l' /\ total_locked_amount l' = total_locked_amount l /\
      active_locked_amount l' = active_locked_amount l - a /\
      unlocking_amount l' = unlocking_amount l + a
  | Err err =>
      err = NoCapacity /\ Z.of_nat (length (unlocking l)) = n /\
      Forall (fun c => unlock_block c <> block) (unlocking l)
  end.
Proof.
  intros Hwf Ha. destruct (add_unlocking_chunk _ _ _ _) as [l'|err] eqn:H.
  - assert (Hwf1 : wf n (subtract_lock_amount a l)).
    { destruct Hwf. split; simpl; try done; ulia. }
    pose proof (wf_total n l Hwf).
    destruct (add_unlocking_chunk_wf n a block _ l' Hwf1 ltac:(lia)) as (Hwf' & Hsum & Hl');
      [simpl; ulia|done|].
    rewrite !(total_locked_exact n), !(unlocking_amount_exact n) by done.
    assert (Hlk : locked l' = locked l - a) by (rewrite Hl'; simpl; ulia).
    rewrite Hsum, Hlk. unfold active_locked_amount. simpl. split_and!; done || lia.
  - unfold add_unlocking_chunk in H. simpl in H.
    rewrite (proj2 (Z.eqb_neq a 0)) in H by lia.
    pose proof (binary_search_by_correct unlock_block (unlocking l) block (wf_sorted n l Hwf)) as Hbs.
    destruct (binary_search_by _ _ _) as [i|i]; [discriminate|].
    unfold try_insert in H. pose proof (wf_length n l Hwf).
    destruct (_ <? n) eqn:Hn; [discriminate|]. injection H as <-.
    split_and!; [done|lia|]. destruct Hbs as (_ & Hlo & Hhi).
    rewrite <- (take_drop i (unlocking l)). apply Forall_app.
    split; eapply Forall_impl; try done; simpl; lia.
Qed.

Lemma unlocking_moves_funds_witness :
  exists l', add_unlocking_chunk 8 60 40 (subtract_lock_amount 60 scenario1) = Ok l' /\
    total_locked_amount l' = 200 /\ active_locked_amount l' = 140.
Proof.
  pose proof (unlocking_moves_funds 8 60 40 scenario1 scenario1_wf) as H.
  destruct (add_unlocking_chunk _ _ _ _) as [l'|].
  - exists l'. destruct H as (_ & -> & -> & _); [simpl; lia|]. done.
  - destruct H as (_ & H & _); [simpl; lia|]. discriminate.
Defined.
