(* ===== verification/SingularStakingInfo.v ===== *)
(** * [SingularStakingInfo]: one staker's stake on one smart contract

    [pallets/dapp-staking/src/types.rs].  Tracks the stake of the ongoing
    period, the stake before it, and whether the staker is still loyal. *)

From S2P Require Import Prelude Protocol StakeAmount.

Record SingularStakingInfo := mkSingularStakingInfo {
  previous_staked : StakeAmount;
  staked : StakeAmount;
  loyal_staker : bool;
}.

Definition new (period : Z) (sp : Subperiod) : SingularStakingInfo :=
  mkSingularStakingInfo StakeAmount.default
    (StakeAmount.set_period period StakeAmount.default)
    (bool_decide (sp = Voting)).

Definition stake (amount current_era : Z) (sp : Subperiod) (i : SingularStakingInfo)
    : SingularStakingInfo :=
  let previous := StakeAmount.set_era current_era (staked i) in
  let previous := if total previous =? 0 then StakeAmount.default else previous in
  let s := StakeAmount.add amount sp (staked i) in
  let s := StakeAmount.set_era (sat_add u32_max current_era 1) s in
  mkSingularStakingInfo previous s (loyal_staker i).

(** Step 3 of [unstake]: what was staked in [previous_era]. *)
Definition previous_entry (staked_snapshot previous : StakeAmount) (previous_era : Z)
    : StakeAmount :=
  if StakeAmount.era staked_snapshot <=? previous_era then
    StakeAmount.set_era previous_era staked_snapshot
  else if negb (StakeAmount.is_empty previous) && (StakeAmount.era previous <=? previous_era) then
    StakeAmount.set_era previous_era previous
  else StakeAmount.default.

(** Step 4 of [unstake]: the part taken from the era before the last staked
    one, or from the era after the ongoing one. *)
Definition settle_other_era
    (staked_snapshot s previous : StakeAmount) (unstaked_amount current_era : Z)
    (result : list (Z * Z)) : StakeAmount * list (Z * Z) :=
  if StakeAmount.era previous =? current_era then
    match checked_sub (total staked_snapshot) (total previous) with
    | Some stake_delta =>
        if stake_delta <? unstaked_amount then
          let overflow_amount := unstaked_amount - stake_delta in
          let previous := StakeAmount.subtract overflow_amount previous in
          (previous, (StakeAmount.era previous, overflow_amount) :: result)
        else (previous, result)
    | None => (previous, result)
    end
  else if StakeAmount.era s =? current_era then
    (previous, result ++ [(sat_add u32_max (StakeAmount.era s) 1, unstaked_amount)])
  else (previous, result).

Definition unstake (amount current_era : Z) (sp : Subperiod) (i : SingularStakingInfo)
    : list (Z * Z) * SingularStakingInfo :=
  let staked_snapshot := staked i in
  (* 1 *)
  let s := StakeAmount.subtract amount (staked i) in
  let unstaked_amount := sat_sub (total staked_snapshot) (total s) in
  let s := StakeAmount.set_era (Z.max (StakeAmount.era s) current_era) s in
  let result := [(StakeAmount.era s, unstaked_amount)] in
  (* 2 *)
  let loyal :=
    loyal_staker i &&
    match sp with
    | Voting => negb (voting s =? 0)
    | BuildAndEarn => voting s =? voting staked_snapshot
    end in
  (* 3 *)
  let previous_era := sat_sub (StakeAmount.era s) 1 in
  let previous := previous_entry staked_snapshot (previous_staked i) previous_era in
  (* 4 *)
  let '(previous, result) :=
    settle_other_era staked_snapshot s previous unstaked_amount current_era result in
  (* 5 *)
  let previous := if StakeAmount.is_empty previous then StakeAmount.default else previous in
  if StakeAmount.is_empty s then
    (result, mkSingularStakingInfo StakeAmount.default StakeAmount.default loyal)
  else (result, mkSingularStakingInfo previous s loyal).

Definition total_staked_amount (i : SingularStakingInfo) : Z := total (staked i).
Definition staked_amount (i : SingularStakingInfo) (sp : Subperiod) : Z := for_type (staked i) sp.
Definition is_loyal (i : SingularStakingInfo) : bool := loyal_staker i.
Definition period_number (i : SingularStakingInfo) : Z := period (staked i).
Definition era (i : SingularStakingInfo) : Z := StakeAmount.era (staked i).
Definition is_empty (i : SingularStakingInfo) : bool := StakeAmount.is_empty (staked i).

(** ** Lemmas *)

Definition valid (i : SingularStakingInfo) : Prop :=
  StakeAmount.valid (staked i) /\ StakeAmount.valid (previous_staked i).

Lemma new_valid p sp : valid (new p sp).
Proof. split; apply default_valid. Qed.

Lemma stake_valid a e sp i :
  valid i -> 0 <= a -> total_staked_amount i + a <= u128_max -> valid (stake a e sp i).
Proof.
  intros [Hs Hp] Ha Hle. split; simpl.
  - apply set_era_valid, add_valid; done.
  - by destruct (_ =? 0); [apply default_valid|].
Qed.

Lemma stake_total a e sp i :
  valid i -> 0 <= a -> total_staked_amount i + a <= u128_max ->
  total_staked_amount (stake a e sp i) = total_staked_amount i + a.
Proof.
  intros [Hs Hp] Ha Hle. unfold total_staked_amount. simpl. rewrite total_set_era.
  by apply total_add.
Qed.

Lemma stake_period a e sp i : period_number (stake a e sp i) = period_number i.
Proof. unfold period_number. simpl. apply add_period. Qed.

Lemma stake_era a e sp i : 0 <= e < u32_max -> era (stake a e sp i) = e + 1.
Proof. intros He. unfold era. simpl. ulia. Qed.

(** The shape of the pairs returned by [unstake]: the amount taken in the
    ongoing era and the one after it. *)
Lemma settle_other_era_cases snap s prev u e r :
  StakeAmount.valid prev -> StakeAmount.valid snap ->
  0 < u -> 0 <= e < u32_max -> u <= total snap ->
  let '(prev', r') := settle_other_era snap s prev u e r in
  StakeAmount.valid prev' /\ StakeAmount.era prev' = StakeAmount.era prev /\
  (if StakeAmount.era prev =? e
   then r' = r \/ exists x, 0 < x <= u /\ r' = (e, x) :: r
   else if StakeAmount.era s =? e then r' = r ++ [(e + 1, u)] else r' = r).
Proof.
  intros Hp Hsn Hu He Hle. unfold settle_other_era, checked_sub.
  destruct (StakeAmount.era prev =? e) eqn:Hpe.
  - destruct (total prev <=? total snap) eqn:?; [|auto].
    destruct (_ <? u) eqn:?; [|auto].
    split_and!; [apply subtract_valid; [done|lia]|apply subtract_era|].
    right. eexists. rewrite subtract_era. split; [|f_equal; f_equal; lia].
    pose proof (total_nonneg _ Hp). lia.
  - destruct (StakeAmount.era s =? e) eqn:Hse; [|done].
    split_and!; try done. rewrite sat_add_exact by lia. do 3 f_equal. lia.
Qed.

Lemma previous_entry_valid snap prev e :
  StakeAmount.valid snap -> StakeAmount.valid prev ->
  StakeAmount.valid (previous_entry snap prev e).
Proof. intros. unfold previous_entry. case_all; try done; apply default_valid. Qed.

Lemma unstake_valid a e sp i :
  valid i -> 0 < a <= total_staked_amount i -> 0 <= e < u32_max ->
  valid (snd (unstake a e sp i)).
Proof.
  intros [Hs Hp] Ha He. unfold unstake, total_staked_amount in *.
  pose proof (total_subtract a (staked i) Hs ltac:(lia)) as Ht.
  pose proof (subtract_valid a (staked i) Hs ltac:(lia)) as Hv.
  set (s := StakeAmount.set_era _ _).
  set (p0 := previous_entry _ _ _).
  assert (Hp0 : StakeAmount.valid p0) by by apply previous_entry_valid.
  set (u := sat_sub _ _). assert (Hu : u = a) by (subst u; rewrite Ht; ulia).
  set (r := [(_, _)]).
  pose proof (settle_other_era_cases (staked i) s p0 u e r Hp0 Hs ltac:(lia) He ltac:(lia)) as Hsc.
  destruct (settle_other_era _ _ _ _ _ _) as [p1 r1]. destruct Hsc as (Hp1 & _ & _).
  destruct (StakeAmount.is_empty s); simpl; split; simpl; try apply default_valid; try done.
  by destruct (StakeAmount.is_empty p1); [apply default_valid|].
Qed.

(** The fields after an [unstake]. *)
Lemma unstake_fields a e sp i :
  valid i -> 0 < a <= total_staked_amount i -> 0 <= e < u32_max ->
  let '(_, i') := unstake a e sp i in
  total_staked_amount i' = total_staked_amount i - a /\
  (is_empty i' = false -> period_number i' = period_number i /\ era i' = Z.max (era i) e) /\
  is_loyal i' =
    is_loyal i &&
    match sp with
    | Voting => Z.max 0 (a - staked_amount i BuildAndEarn) <? staked_amount i Voting
    | BuildAndEarn => a <=? staked_amount i BuildAndEarn
    end.
Proof.
  intros [Hs Hp] Ha He. unfold unstake, total_staked_amount, is_empty, period_number, era in *.
  pose proof (total_subtract a (staked i) Hs ltac:(lia)) as Ht.
  pose proof (subtract_valid a (staked i) Hs ltac:(lia)) as Hv.
  destruct (settle_other_era _ _ _ _ _ _) as [p1 r1].
  rewrite is_empty_total, total_set_era by done.
  assert (Hloyal : match sp with
      | Voting => negb (voting (StakeAmount.subtract a (staked i)) =? 0)
      | BuildAndEarn => voting (StakeAmount.subtract a (staked i)) =? voting (staked i)
      end = match sp with
      | Voting => Z.max 0 (a - staked_amount i BuildAndEarn) <? staked_amount i Voting
      | BuildAndEarn => a <=? staked_amount i BuildAndEarn
      end).
  { unfold staked_amount, StakeAmount.subtract. rewrite total_exact in Ha by done.
    destruct Hs as (? & ? & ?).
    destruct sp; simpl; destruct (a <=? build_and_earn (staked i)) eqn:?; simpl; ulia. }
  destruct (total (StakeAmount.subtract a (staked i)) =? 0) eqn:Hz; simpl.
  - split_and!; [change (total StakeAmount.default) with 0; ulia|done|].
    unfold is_loyal. simpl. by rewrite Hloyal.
  - rewrite total_set_era, subtract_period, subtract_era.
    split_and!; [ulia|done|]. unfold is_loyal. simpl. by rewrite Hloyal.
Qed.

(** The pairs an [unstake] returns. *)
Lemma unstake_pairs a e sp i :
  valid i -> 0 < a <= total_staked_amount i -> 1 <= e < u32_max -> 0 <= era i <= e + 1 ->
  let '(pairs, _) := unstake a e sp i in
  if era i <=? e then pairs = [(e, a); (e + 1, a)]
  else pairs = [(e + 1, a)] \/ exists x, 0 < x <= a /\ pairs = [(e, x); (e + 1, a)].
Proof.
  intros [Hs Hp] Ha He Hera. unfold unstake, total_staked_amount, era in *.
  pose proof (total_subtract a (staked i) Hs ltac:(lia)) as Ht.
  pose proof (subtract_valid a (staked i) Hs ltac:(lia)) as Hv.
  set (s := StakeAmount.set_era _ _).
  assert (Hse : StakeAmount.era s = Z.max (StakeAmount.era (staked i)) e)
    by (subst s; simpl; by rewrite subtract_era).
  set (u := sat_sub (total (staked i)) _). assert (Hu : u = a) by (subst u; rewrite Ht; ulia).
  set (p0 := previous_entry _ _ _).
  assert (Hp0 : StakeAmount.valid p0) by by apply previous_entry_valid.
  assert (Hpe : StakeAmount.era (staked i) <= e -> StakeAmount.era p0 <> e).
  { intros Hle. subst p0. unfold previous_entry. rewrite Hse. case_all; simpl; ulia. }
  set (r := [(_, _)]).
  pose proof (settle_other_era_cases (staked i) s p0 u e r Hp0 Hs ltac:(lia) ltac:(lia) ltac:(lia)) as Hsc.
  destruct (settle_other_era _ _ _ _ _ _) as [p1 r1]. destruct Hsc as (_ & _ & Hr1).
  assert (Hgoal : if StakeAmount.era (staked i) <=? e then r1 = [(e, a); (e + 1, a)]
    else r1 = [(e + 1, a)] \/ exists x, 0 < x <= a /\ r1 = [(e, x); (e + 1, a)]).
  { subst r. rewrite Hse, Hu in Hr1. destruct (StakeAmount.era (staked i) <=? e) eqn:Hle.
    - rewrite (proj2 (Z.eqb_neq _ _)) in Hr1 by (apply Hpe; lia).
      rewrite (proj2 (Z.eqb_eq _ e)) in Hr1 by lia. rewrite Hr1. simpl. do 2 f_equal; lia.
    - replace (Z.max (StakeAmount.era (staked i)) e) with (e + 1) in Hr1 by lia.
      destruct (StakeAmount.era p0 =? e); [exact Hr1|].
      rewrite (proj2 (Z.eqb_neq (e + 1) e)) in Hr1 by lia. by left. }
  destruct (StakeAmount.is_empty s); exact Hgoal.
Qed.

Lemma settle_overflow snap s prev u e r :
  StakeAmount.era prev = e -> 0 <= total snap - total prev < u ->
  snd (settle_other_era snap s prev u e r) = (e, u - (total snap - total prev)) :: r.
Proof.
  intros He Hd. unfold settle_other_era, checked_sub.
  rewrite (proj2 (Z.eqb_eq _ _) He), (proj2 (Z.leb_le _ _)), (proj2 (Z.ltb_lt _ _)) by lia.
  simpl. by rewrite subtract_era, He.
Qed.

Lemma unstake_fst a e sp i :
  let s := StakeAmount.subtract a (staked i) in
  let era' := Z.max (StakeAmount.era s) e in
  let u := sat_sub (total (staked i)) (total s) in
  fst (unstake a e sp i) =
    snd (settle_other_era (staked i) (StakeAmount.set_era era' s)
      (previous_entry (staked i) (previous_staked i) (sat_sub era' 1)) u e [(era', u)]).
Proof.
  unfold unstake; simpl. destruct (settle_other_era _ _ _ _ _ _).
  by destruct (StakeAmount.is_empty _).
Qed.

(** ** Theorems *)

(** Unstaking a positive amount covered by the stake lowers the stake by
    exactly that amount and reports it for the right eras: when the entry was
    last touched in an earlier era, for the ongoing and the next era; when it
    was touched in the ongoing era, for the next era and possibly a part of it
    for the ongoing one. The loyalty flag survives exactly when the voting
    stake is untouched (build-and-earn) or not emptied (voting). *)
Theorem singular_unstake_spec (a e : Z) (sp : Subperiod) (i : SingularStakingInfo) :
  valid i -> 0 < a <= total_staked_amount i -> 1 <= e < u32_max -> 0 <= era i <= e + 1 ->
  let '(pairs, i') := unstake a e sp i in
  total_staked_amount i' = total_staked_amount i - a /\
  (is_empty i' = false -> period_number i' = period_number i /\ era i' = Z.max (era i) e) /\
  (if era i <=? e then pairs = [(e, a); (e + 1, a)]
   else pairs = [(e + 1, a)] \/ exists x, 0 < x <= a /\ pairs = [(e, x); (e + 1, a)]) /\
  is_loyal i' =
    is_loyal i &&
    match sp with
    | Voting => Z.max 0 (a - staked_amount i BuildAndEarn) <? staked_amount i Voting
    | BuildAndEarn => a <=? staked_amount i BuildAndEarn
    end.
Proof.
  intros Hi Ha He Hera. destruct (unstake a e sp i) as [pairs i'] eqn:Hun.
  pose proof (unstake_fields a e sp i Hi Ha ltac:(lia)) as Hf. rewrite Hun in Hf.
  destruct Hf as (Ht & Hne & Hl).
  pose proof (unstake_pairs a e sp i Hi Ha He Hera) as Hp. rewrite Hun in Hp.
  done.
Qed.

Lemma singular_unstake_spec_witness :
  let i := mkSingularStakingInfo (mkStakeAmount 10 0 2 1) (mkStakeAmount 10 5 3 1) true in
  unstake 6 2 BuildAndEarn i =
    ([(2, 1); (3, 6)],
     mkSingularStakingInfo (mkStakeAmount 9 0 2 1) (mkStakeAmount 9 0 3 1) false) /\
  total_staked_amount (snd (unstake 6 2 BuildAndEarn i)) = 9.
Proof.
  set (i := mkSingularStakingInfo (mkStakeAmount 10 0 2 1) (mkStakeAmount 10 5 3 1) true).
  split; [reflexivity|].
  pose proof (singular_unstake_spec 6 2 BuildAndEarn i) as H.
  destruct (unstake 6 2 BuildAndEarn i). apply H.
  - split; unfold StakeAmount.valid; simpl; lia.
  - unfold total_staked_amount, total. simpl. ulia.
  - lia.
  - unfold era. simpl. lia.
Defined.

(** Two stakes in one era make the second one record the first as already
    staked in that era, although it only counts from the next era on:
    unstaking everything in the same era is then also reported for the ongoing
    era, in which nothing of it was staked. *)
Theorem double_stake_reported_in_current_era (p e x y : Z) (sp : Subperiod) :
  1 <= e < u32_max -> 0 < x -> 0 < y -> x + y <= u128_max ->
  let i := stake y e sp (stake x e sp (new p sp)) in
  fst (unstake (x + y) e sp i) = [(e, x); (e + 1, x + y)].
Proof.
  intros He Hx Hy Hle i.
  assert (Hi : i = mkSingularStakingInfo
    (StakeAmount.set_era e (StakeAmount.add x sp (StakeAmount.set_period p StakeAmount.default)))
    (StakeAmount.set_era (e + 1) (StakeAmount.add (x + y) sp
       (StakeAmount.set_period p StakeAmount.default))) (bool_decide (sp = Voting))).
  { subst i. unfold stake, new, total. destruct sp; simpl;
      rewrite !sat_add_exact by ulia;
      rewrite (proj2 (Z.eqb_neq _ 0)) by lia; simpl; rewrite ?Z.add_0_l; reflexivity. }
  clearbody i. subst i. rewrite unstake_fst. cbn [staked previous_staked].
  set (snap := StakeAmount.set_era (e + 1) _).
  set (prev := StakeAmount.set_era e _).
  assert (Hsnap : StakeAmount.valid snap /\ total snap = x + y).
  { subst snap. destruct sp; unfold StakeAmount.valid, total; simpl; ulia. }
  assert (Hprev : StakeAmount.valid prev /\ total prev = x).
  { subst prev. destruct sp; unfold StakeAmount.valid, total; simpl; ulia. }
  destruct Hsnap as [Hsv Hst], Hprev as [Hpv Hpt].
  rewrite total_subtract, subtract_era, Hst by (done || lia).
  replace (Z.max (StakeAmount.era snap) e) with (e + 1) by (subst snap; simpl; lia).
  replace (previous_entry snap prev (sat_sub (e + 1) 1)) with prev.
  - rewrite settle_overflow by (done || ulia). repeat f_equal; ulia.
  - unfold previous_entry. rewrite is_empty_total, Hpt by done. subst snap prev. simpl.
    rewrite sat_sub_exact, (proj2 (Z.leb_gt _ _)), (proj2 (Z.eqb_neq _ _)) by lia. simpl.
    rewrite (proj2 (Z.leb_le _ _)) by lia. by replace (e + 1 - 1) with e by lia.
Qed.

Lemma double_stake_reported_in_current_era_witness :
  fst (unstake 15 4 BuildAndEarn (stake 5 4 BuildAndEarn (stake 10 4 BuildAndEarn
        (new 1 BuildAndEarn)))) = [(4, 10); (5, 15)].
Proof. apply (double_stake_reported_in_current_era 1 4 10 5 BuildAndEarn); lia. Defined.
