(* ===== verification/ContractStakeAmount.v ===== *)
(** * [ContractStakeAmount]: how much is staked on a contract

    [pallets/dapp-staking/src/types.rs].  At most two entries, of the ongoing
    and of the next era, updated lazily.  [value] is the abstract reading:
    the amount staked in a given era of a given period. *)

From S2P Require Import Prelude Protocol StakeAmount.

Record ContractStakeAmount := mkContractStakeAmount {
  staked : StakeAmount;
  staked_future : option StakeAmount;
}.

Definition default : ContractStakeAmount := mkContractStakeAmount StakeAmount.default None.

Definition is_empty (c : ContractStakeAmount) : bool :=
  StakeAmount.is_empty (staked c) && bool_decide (staked_future c = None).

Definition latest_stake_period (c : ContractStakeAmount) : option Z :=
  match staked_future c with
  | Some f => Some (period f)
  | None => if negb (StakeAmount.is_empty (staked c)) then Some (period (staked c)) else None
  end.

Definition latest_stake_era (c : ContractStakeAmount) : option Z :=
  match staked_future c with
  | Some f => Some (StakeAmount.era f)
  | None =>
      if negb (StakeAmount.is_empty (staked c)) then Some (StakeAmount.era (staked c)) else None
  end.

Definition get (c : ContractStakeAmount) (era p : Z) : option StakeAmount :=
  let current :=
    if (StakeAmount.era (staked c) <=? era) && (period (staked c) =? p)
    then Some (staked c) else None in
  let maybe_result :=
    match staked_future c with
    | Some f =>
        if StakeAmount.era f <=? era
        then (if period f =? p then Some f else None)
        else current
    | None => current
    end in
  StakeAmount.set_era era <$> maybe_result.

Definition total_staked_amount (c : ContractStakeAmount) (active_period : Z) : Z :=
  let current :=
    if period (staked c) =? active_period then total (staked c) else 0 in
  match staked_future c with
  | Some f => if period f =? active_period then total f else current
  | None => current
  end.

Definition staked_amount (c : ContractStakeAmount) (active_period : Z) (sp : Subperiod) : Z :=
  let current :=
    if period (staked c) =? active_period then for_type (staked c) sp else 0 in
  match staked_future c with
  | Some f => if period f =? active_period then for_type f sp else current
  | None => current
  end.

(** The tail of [stake], after the future entry has been looked at. *)
Definition push_future (amount : Z) (pi : PeriodInfo) (stake_era : Z) (s : StakeAmount)
    : ContractStakeAmount :=
  let new_entry := if period s =? number pi then s else StakeAmount.default in
  let new_entry := StakeAmount.add amount (subperiod pi) new_entry in
  let new_entry := StakeAmount.set_era stake_era new_entry in
  let new_entry := StakeAmount.set_period (number pi) new_entry in
  mkContractStakeAmount
    (if period s <? number pi then StakeAmount.default else s) (Some new_entry).

Definition stake (amount : Z) (pi : PeriodInfo) (current_era : Z) (c : ContractStakeAmount)
    : ContractStakeAmount :=
  let stake_era := sat_add u32_max current_era 1 in
  match staked_future c with
  | Some f =>
      if StakeAmount.era f =? stake_era then
        mkContractStakeAmount (staked c) (Some (StakeAmount.add amount (subperiod pi) f))
      else if period f =? number pi then
        push_future amount pi stake_era (StakeAmount.set_era current_era f)
      else push_future amount pi stake_era (staked c)
  | None => push_future amount pi stake_era (staked c)
  end.

(** Step 1 of [unstake]: bring the entries to the ongoing era. *)
Definition align (pi : PeriodInfo) (current_era : Z) (c : ContractStakeAmount)
    : ContractStakeAmount :=
  let c :=
    match staked_future c with
    | Some f =>
        if (StakeAmount.era f <=? current_era) && (period f =? number pi)
        then mkContractStakeAmount (StakeAmount.set_era current_era f) None
        else c
    | None => c
    end in
  if (StakeAmount.era (staked c) <? current_era) && (period (staked c) =? number pi)
  then mkContractStakeAmount (StakeAmount.set_era current_era (staked c)) (staked_future c)
  else c.

(** One round of step 2 of [unstake]. *)
Definition unstake_pair (c : ContractStakeAmount) (pair : Z * Z) : ContractStakeAmount :=
  let '(era, amount) := pair in
  if StakeAmount.era (staked c) =? era then
    mkContractStakeAmount (StakeAmount.subtract amount (staked c)) (staked_future c)
  else
    match staked_future c with
    | Some f =>
        if StakeAmount.era f =? era
        then mkContractStakeAmount (staked c) (Some (StakeAmount.subtract amount f))
        else c
    | None => c
    end.

(** Step 3 of [unstake]. *)
Definition cleanup (c : ContractStakeAmount) : ContractStakeAmount :=
  mkContractStakeAmount
    (if StakeAmount.is_empty (staked c) then StakeAmount.default else staked c)
    (match staked_future c with
     | Some f => if StakeAmount.is_empty f then None else Some f
     | None => None
     end).

Definition unstake (era_and_amount_pairs : list (Z * Z)) (pi : PeriodInfo) (current_era : Z)
    (c : ContractStakeAmount) : ContractStakeAmount :=
  cleanup (foldl unstake_pair (align pi current_era c) era_and_amount_pairs).

(** ** Well-formedness and the abstract reading *)

(** The amount staked in era [e] of period [p]. *)
Definition value (c : ContractStakeAmount) (e p : Z) : Z :=
  match get c e p with Some s => total s | None => 0 end.

(** Entries in era [e] of period [p]: valid amounts, no entry beyond the next
    era, the future entry strictly after the other one, and not below it
    within one period; an empty entry is the default one. *)
Record wf (e p : Z) (c : ContractStakeAmount) : Prop := {
  wf_now : 1 <= e /\ 1 <= p;
  wf_staked : valid (staked c);
  wf_staked_default : total (staked c) = 0 -> staked c = StakeAmount.default;
  wf_staked_era : 0 <= StakeAmount.era (staked c) <= e;
  wf_staked_period : 0 <= period (staked c) <= p;
  wf_future :
    match staked_future c with
    | None => True
    | Some f =>
        valid f /\ 0 < total f /\
        StakeAmount.era (staked c) < StakeAmount.era f <= e + 1 /\
        period (staked c) <= period f <= p /\
        (StakeAmount.era f = e + 1 -> period f = p) /\
        (period (staked c) = period f -> total (staked c) <= total f)
    end;
}.

Lemma default_wf e p : 1 <= e -> 1 <= p -> wf e p default.
Proof. intros. split; simpl; try done; try lia; try apply default_valid. Qed.

(** A well-formed entry stays so when the era or the period moves on. *)
Lemma wf_next e p p' c : wf e p c -> p <= p' -> wf (e + 1) p' c.
Proof.
  intros [Hn Hv Hd He Hp Hf] Hle. split; try done; [lia..|].
  destruct (staked_future c) as [f|]; [|done].
  destruct Hf as (? & ? & ? & ? & ? & ?). split_and!; try done; lia.
Qed.

(** The entry of the ongoing period. *)
Definition current_total (c : ContractStakeAmount) (p : Z) : Z :=
  if period (staked c) =? p then total (staked c) else 0.

(** Entries of the ongoing period are of the ongoing and the next era. *)
Record aligned (e p : Z) (c : ContractStakeAmount) : Prop := {
  aligned_staked : period (staked c) = p -> StakeAmount.era (staked c) = e;
  aligned_future f : staked_future c = Some f -> period f = p -> StakeAmount.era f = e + 1;
}.

Lemma value_unfold c e p :
  value c e p =
  let current :=
    if (StakeAmount.era (staked c) <=? e) && (period (staked c) =? p)
    then total (staked c) else 0 in
  match staked_future c with
  | Some f => if StakeAmount.era f <=? e then if period f =? p then total f else 0 else current
  | None => current
  end.
Proof.
  unfold value, get. simpl. destruct (staked_future c) as [f|];
    [destruct (StakeAmount.era f <=? e); [by destruct (period f =? p)|]|];
    by destruct (_ && _).
Qed.

Lemma aligned_value e p c :
  wf e p c -> aligned e p c ->
  value c e p = current_total c p /\
  value c (e + 1) p =
    match staked_future c with
    | Some f => if period f =? p then total f else 0
    | None => current_total c p
    end.
Proof.
  intros [Hn Hv Hd He Hp Hf] [Ha Hb]. rewrite !value_unfold. unfold current_total. simpl.
  destruct (staked_future c) as [f|].
  - specialize (Hb f eq_refl). destruct Hf as (Hfv & Hfp & Hfe & Hfper & Hfn & Hft).
    split; case_all; lia.
  - split; case_all; lia.
Qed.

Lemma align_spec e p pi c :
  wf e p c -> number pi = p ->
  wf e p (align pi e c) /\ aligned e p (align pi e c) /\
  value (align pi e c) e p = value c e p /\
  value (align pi e c) (e + 1) p = value c (e + 1) p.
Proof.
  intros Hwf Hpi. destruct Hwf as [Hn Hv Hd He Hp Hf].
  assert (Hdef : period (staked c) = p -> total (staked c) <> 0).
  { intros Hper H0. rewrite (Hd H0) in Hper. simpl in Hper. lia. }
  rewrite !value_unfold. unfold align. rewrite Hpi.
  destruct c as [s fo]; simpl in *. destruct (period s =? p) eqn:Hps;
    destruct (StakeAmount.era s <? e) eqn:Hes; destruct fo as [f|]; simpl;
    try (destruct Hf as (Hfv & Hfp & Hfe & Hfper & Hfn & Hft);
         destruct (period f =? p) eqn:Hpf; destruct (StakeAmount.era f <=? e) eqn:Hef; simpl;
         try (rewrite (proj2 (Z.ltb_ge e e)) by lia; simpl));
    rewrite ?Hps, ?Hes; simpl; rewrite ?total_set_era; rewrite ?Hps, ?Hpf; split_and!;
    first [split; simpl; rewrite ?total_set_era; intros; simplify_eq/=; split_and?; done || lia
          | done | case_all; lia].
Qed.

(** [push_future] on an entry that is the current one. *)
Lemma push_future_spec e p pi a s :
  1 <= e < u32_max -> 1 <= p -> number pi = p -> valid s -> 0 < a ->
  (total s = 0 -> s = StakeAmount.default) ->
  0 <= StakeAmount.era s <= e -> 0 <= period s <= p ->
  (if period s =? p then total s else 0) + a <= u128_max ->
  let c' := push_future a pi (sat_add u32_max e 1) s in
  wf e p c' /\
  value c' e p = (if period s =? p then total s else 0) /\
  value c' (e + 1) p = (if period s =? p then total s else 0) + a.
Proof.
  intros He Hp Hpi Hv Ha Hd Hes Hps Hle. cbv zeta. rewrite !value_unfold.
  unfold push_future. rewrite Hpi, sat_add_exact by lia. simpl.
  pose proof (total_nonneg _ Hv). pose proof default_valid.
  set (b := if period s =? p then s else StakeAmount.default) in *.
  assert (Hb : valid b) by (subst b; by case_all).
  assert (Htb : total b = if period s =? p then total s else 0) by (subst b; by case_all).
  rewrite <- Htb in *.
  pose proof (add_valid a (subperiod pi) b Hb ltac:(lia) Hle).
  pose proof (total_add a (subperiod pi) b Hb ltac:(lia) Hle) as Hta.
  rewrite total_set_period, total_set_era, Hta, Z.eqb_refl.
  split.
  - split; simpl; try lia; destruct (period s <? p) eqn:Hlt; simpl; try done; try lia.
    all: rewrite total_set_period, total_set_era, Hta; split_and!; try done; try lia.
    all: pose proof (total_nonneg _ Hb); intros.
    all: try (change (total StakeAmount.default) with 0; lia).
    rewrite Htb. case_all; lia.
  - rewrite (proj2 (Z.leb_gt (e + 1) e)), (proj2 (Z.leb_le (e + 1) (e + 1))) by lia.
    split; [|done]. rewrite Htb.
    destruct (period s <? p) eqn:Hlt; simpl; case_all; try lia; done.
Qed.

Lemma stake_ok e p pi a c :
  wf e p c -> e < u32_max -> number pi = p -> 0 < a -> value c (e + 1) p + a <= u128_max ->
  let c' := stake a pi e c in
  wf e p c' /\ value c' e p = value c e p /\ value c' (e + 1) p = value c (e + 1) p + a.
Proof.
  intros [Hn Hv Hd He Hp Hf] Hmax Hpi Ha Hle. cbv zeta.
  assert (Hpf : staked_future c = None \/
      (exists f, staked_future c = Some f /\ period f <> p /\ StakeAmount.era f <= e) ->
    stake a pi e c = push_future a pi (sat_add u32_max e 1) (staked c) /\
    value c e p = (if period (staked c) =? p then total (staked c) else 0) /\
    value c (e + 1) p = (if period (staked c) =? p then total (staked c) else 0)).
  { intros [Hf'|(f & Hf' & Hfp & Hfe)]; rewrite !value_unfold; unfold stake;
      rewrite Hf' in *; simpl.
    - split_and!; [done|case_all; lia..].
    - rewrite sat_add_exact, Hpi by lia.
      rewrite (proj2 (Z.eqb_neq _ (e + 1))), (proj2 (Z.eqb_neq _ p)) by lia.
      split_and!; [done|case_all; lia..]. }
  destruct (staked_future c) as [f|] eqn:Ef.
  2:{ destruct Hpf as (-> & -> & Hv1); [auto|]. rewrite Hv1 in *.
      apply push_future_spec; auto; lia. }
  destruct Hf as (Hfv & Hfp & Hfe & Hfper & Hfn & Hft).
  destruct (Z.eq_dec (StakeAmount.era f) (e + 1)) as [Hfe1|Hfe1].
  - clear Hpf. rewrite !value_unfold in *. unfold stake. rewrite Ef in *. rewrite sat_add_exact by lia.
    rewrite (proj2 (Z.eqb_eq _ _) Hfe1) in *. simpl in *. rewrite add_era, add_period, !Hfe1 in *.
    rewrite (Hfn eq_refl), Z.eqb_refl in *.
    rewrite (proj2 (Z.leb_gt (e + 1) e)), (proj2 (Z.leb_le (e + 1) (e + 1))) in * by lia.
    pose proof (total_nonneg _ Hfv).
    rewrite total_add by (done || lia). split_and!; try done.
    split; simpl; try done. rewrite add_era, add_period, total_add by (done || lia).
    split_and!; try lia. apply add_valid; done || lia.
  - destruct (Z.eq_dec (period f) p) as [Hper|Hper].
    + unfold stake. rewrite Ef, sat_add_exact, Hpi by lia.
      rewrite (proj2 (Z.eqb_neq _ (e + 1))), (proj2 (Z.eqb_eq _ p)) by lia.
      assert (Hval : value c e p = total f /\ value c (e + 1) p = total f).
      { rewrite !value_unfold, Ef. simpl. split; case_all; lia. }
      destruct Hval as [-> Hval]. rewrite Hval in *.
      pose proof (push_future_spec e p pi a (StakeAmount.set_era e f)) as H.
      simpl in H. rewrite Hper, Z.eqb_refl, total_set_era, sat_add_exact in H by lia.
      apply H; done || lia.
    + destruct Hpf as (-> & -> & Hv1); [right; exists f; split_and!; done || lia|].
      rewrite Hv1 in *. apply push_future_spec; auto; lia.
Qed.

(** The pairs an unstake reports when [x] is taken from the ongoing and [y]
    from the next era. *)
Definition pairs (e x y : Z) : list (Z * Z) :=
  (if x =? 0 then [] else [(e, x)]) ++ [(e + 1, y)].

(** Entries after step 2, before the clean-up. *)
Lemma unstake_pairs_aligned e p c x y :
  wf e p c -> aligned e p c -> 0 <= x <= y -> 0 < y ->
  x <= value c e p -> y <= value c (e + 1) p ->
  value c e p - x <= value c (e + 1) p - y ->
  foldl unstake_pair c (pairs e x y) =
    match staked_future c with
    | None => mkContractStakeAmount (StakeAmount.subtract x (staked c)) None
    | Some f =>
        mkContractStakeAmount
          (if x =? 0 then staked c else StakeAmount.subtract x (staked c))
          (Some (StakeAmount.subtract y f))
    end.
Proof.
  intros Hwf Hal Hxy Hy Hx Hvy Hmono.
  destruct (aligned_value e p c Hwf Hal) as [Hv0 Hv1]. rewrite Hv0, Hv1 in *.
  destruct Hwf as [Hn Hv Hd He Hp Hf], Hal as [Ha Hb]. unfold pairs, current_total in *.
  destruct (staked_future c) as [f|] eqn:Ef.
  - specialize (Hb f eq_refl). destruct (period f =? p) eqn:Hpf; [|lia].
    destruct (x =? 0) eqn:Hx0; simpl.
    + rewrite Ef, (proj2 (Z.eqb_neq (StakeAmount.era (staked c)) _)) by lia.
      by rewrite (proj2 (Z.eqb_eq _ (e + 1))) by lia.
    + destruct (period (staked c) =? p) eqn:Hps; [|lia].
      rewrite (Ha ltac:(lia)), Z.eqb_refl. simpl. rewrite subtract_era, Ef.
      rewrite (proj2 (Z.eqb_neq (StakeAmount.era (staked c)) _)) by lia.
      by rewrite (proj2 (Z.eqb_eq _ (e + 1))) by lia.
  - destruct (x =? 0) eqn:Hx0; [lia|]. simpl.
    destruct (period (staked c) =? p) eqn:Hps; [|lia].
    rewrite (Ha ltac:(lia)), Z.eqb_refl. simpl. rewrite subtract_era, Ef.
    by rewrite (proj2 (Z.eqb_neq (StakeAmount.era (staked c)) _)) by lia.
Qed.

(** The clean-up keeps the reading of entries that are in order. *)
Lemma contract_cleanup_spec e p s f :
  1 <= e -> 1 <= p -> valid s -> 0 <= StakeAmount.era s <= e -> 0 <= period s <= p ->
  (total s = 0 -> period s = p \/ s = StakeAmount.default) ->
  match f with
  | None => True
  | Some f => valid f /\ StakeAmount.era f = e + 1 /\ period f = p /\
              (period s = p -> total s <= total f)
  end ->
  let c := mkContractStakeAmount s f in
  wf e p (cleanup c) /\ value (cleanup c) e p = value c e p /\
  value (cleanup c) (e + 1) p = value c (e + 1) p.
Proof.
  intros He Hp Hv Hes Hps Hd Hf. cbv zeta. rewrite !value_unfold. unfold cleanup. simpl.
  rewrite is_empty_total by done. pose proof (total_nonneg _ Hv). pose proof default_valid.
  destruct f as [f|]; [destruct Hf as (Hfv & Hfe & Hfp & Hmono);
    rewrite is_empty_total, Hfe, Hfp, Z.eqb_refl by done; pose proof (total_nonneg _ Hfv);
    destruct (total f =? 0) eqn:Hf0|];
    destruct (total s =? 0) eqn:Hs0; (split; [split; simpl; intros; try done; try lia|]).
  all: simpl; try (rewrite Hfe, Hfp, Z.eqb_refl); try (split; case_all; done || lia).
  all: try (split_and!; done || lia).
  all: try (change (total StakeAmount.default) with 0 in *; split; case_all; lia).
Qed.

Lemma unstake_ok e p pi c x y :
  wf e p c -> number pi = p -> 0 <= x <= y -> 0 < y ->
  x <= value c e p -> y <= value c (e + 1) p ->
  value c e p - x <= value c (e + 1) p - y ->
  let c' := unstake (pairs e x y) pi e c in
  wf e p c' /\ value c' e p = value c e p - x /\ value c' (e + 1) p = value c (e + 1) p - y.
Proof.
  intros Hwf Hpi Hxy Hy Hx Hvy Hmono. cbv zeta. unfold unstake.
  destruct (align_spec e p pi c Hwf Hpi) as (Hwf1 & Hal & Hv0 & Hv1).
  rewrite <- Hv0, <- Hv1 in *. clear Hwf Hv0 Hv1. set (c1 := align pi e c) in *.
  rewrite (unstake_pairs_aligned e p) by done.
  destruct (aligned_value e p c1 Hwf1 Hal) as [Hv0 Hv1]. rewrite Hv0, Hv1 in *.
  destruct Hwf1 as [Hn Hv Hd He Hp Hf], Hal as [Ha Hb]. unfold current_total in *.
  pose proof (total_nonneg _ Hv).
  assert (Hs' : forall x, 0 <= x -> let s' := StakeAmount.subtract x (staked c1) in
    valid s' /\ StakeAmount.era s' = StakeAmount.era (staked c1) /\
    period s' = period (staked c1) /\ total s' = Z.max 0 (total (staked c1) - x)).
  { intros z Hz. cbv zeta. rewrite subtract_era, subtract_period.
    rewrite total_subtract by done. split_and!; try done. by apply subtract_valid. }
  destruct (Hs' x ltac:(lia)) as (Hsv & Hse & Hsp & Hst). clear Hs'.
  destruct (staked_future c1) as [f|] eqn:Ef.
  - specialize (Hb f eq_refl). destruct Hf as (Hfv & Hfp & Hfe & Hfper & Hfn & Hft).
    destruct (period f =? p) eqn:Hpf; [|lia].
    pose proof (total_subtract y f Hfv ltac:(lia)) as Hty.
    pose proof (subtract_valid y f Hfv ltac:(lia)).
    set (s' := if x =? 0 then _ else _).
    assert (Hs' : valid s' /\ StakeAmount.era s' = StakeAmount.era (staked c1) /\
      period s' = period (staked c1) /\ total s' = Z.max 0 (total (staked c1) - x)).
    { subst s'. destruct (x =? 0) eqn:?; split_and!; try done; lia. }
    destruct Hs' as (Hsv' & Hse' & Hsp' & Hst').
    destruct (contract_cleanup_spec e p s' (Some (StakeAmount.subtract y f))) as (Hw & Hc0 & Hc1);
      try done; try lia.
    + intros Hz. destruct (period (staked c1) =? p) eqn:Hps; [left; lia|right].
      subst s'. rewrite (proj2 (Z.eqb_eq x 0)) in * by lia. apply Hd. lia.
    + rewrite subtract_era, subtract_period. split_and!; try done; try lia.
      intros. destruct (period (staked c1) =? p) eqn:Hps; ulia.
    + split; [done|]. rewrite Hc0, Hc1, !value_unfold. simpl.
      rewrite subtract_era, subtract_period, Hse', Hsp', Hst', Hty.
      split; case_all; ulia.
  - destruct (contract_cleanup_spec e p (StakeAmount.subtract x (staked c1)) None) as (Hw & Hc0 & Hc1);
      try done; try lia.
    + intros Hz. left. destruct (period (staked c1) =? p) eqn:Hps; lia.
    + split; [done|]. rewrite Hc0, Hc1, !value_unfold. simpl. rewrite Hse, Hsp, Hst.
      split; case_all; ulia.
Qed.

(** ** Theorems *)

(** Staking on a contract in era [e] leaves the amount staked in era [e]
    as it is and raises the one of era [e + 1] by exactly the staked amount,
    whatever eras and periods the two lazily updated entries were of; the
    entries stay well-formed. *)
Theorem contract_stake_spec (e p a : Z) (pi : PeriodInfo) (c : ContractStakeAmount) :
  wf e p c -> e < u32_max -> number pi = p -> 0 < a -> value c (e + 1) p + a <= u128_max ->
  wf e p (stake a pi e c) /\
  value (stake a pi e c) e p = value c e p /\
  value (stake a pi e c) (e + 1) p = value c (e + 1) p + a.
Proof. apply stake_ok. Qed.

(** 100 staked in the voting subperiod, last touched in era 5. *)
Definition example : ContractStakeAmount :=
  mkContractStakeAmount StakeAmount.default (Some (mkStakeAmount 100 0 5 1)).

Lemma example_wf : wf 7 1 example.
Proof.
  by split; simpl; try lia; unfold valid, total; simpl; split_and?; try done; ulia.
Qed.

Lemma contract_stake_spec_witness :
  let pi := mkPeriodInfo 1 BuildAndEarn 20 in
  stake 50 pi 7 example =
    mkContractStakeAmount (mkStakeAmount 100 0 7 1) (Some (mkStakeAmount 100 50 8 1)) /\
  value (stake 50 pi 7 example) 8 1 = 150.
Proof.
  split; [reflexivity|].
  destruct (contract_stake_spec 7 1 50 (mkPeriodInfo 1 BuildAndEarn 20) example)
    as (_ & _ & H); [apply example_wf|lia|done|lia|vm_compute; congruence|].
  exact H.
Defined.

(** Unstaking the pairs a staker's entry reports, [x] of the ongoing era
    and [y] of the next one, lowers the amounts staked on the contract in the
    two eras by exactly [x] and [y] and keeps the entries well-formed,
    provided the contract has at least that much staked in them and what
    remains in the next era is not below what remains in the ongoing one. *)
Theorem contract_unstake_spec (e p x y : Z) (pi : PeriodInfo) (c : ContractStakeAmount) :
  wf e p c -> number pi = p -> 0 <= x <= y -> 0 < y ->
  x <= value c e p -> y <= value c (e + 1) p ->
  value c e p - x <= value c (e + 1) p - y ->
  wf e p (unstake (pairs e x y) pi e c) /\
  value (unstake (pairs e x y) pi e c) e p = value c e p - x /\
  value (unstake (pairs e x y) pi e c) (e + 1) p = value c (e + 1) p - y.
Proof. apply unstake_ok. Qed.

Lemma contract_unstake_spec_witness :
  let pi := mkPeriodInfo 1 BuildAndEarn 20 in
  let c := stake 50 pi 7 example in
  unstake [(7, 20); (8, 70)] pi 7 c =
    mkContractStakeAmount (mkStakeAmount 80 0 7 1) (Some (mkStakeAmount 80 0 8 1)) /\
  value (unstake [(7, 20); (8, 70)] pi 7 c) 8 1 = 80.
Proof.
  split; [reflexivity|].
  destruct (contract_unstake_spec 7 1 20 70 (mkPeriodInfo 1 BuildAndEarn 20)
    (stake 50 (mkPeriodInfo 1 BuildAndEarn 20) 7 example)) as (_ & _ & H);
    [apply stake_ok; [apply example_wf|lia|done|lia|vm_compute; congruence]
    |done|lia|lia|vm_compute; congruence..|].
  exact H.
Defined.
