(* ===== verification/EraRewardSpan.v ===== *)
(** * [EraRewardSpan]: the reward pools of a span of consecutive eras

    [pallets/dapp-staking/src/types.rs].  The abstract reading of a span is
    the partial function [get] from eras to rewards. *)

From S2P Require Import Prelude.

Record EraReward := mkEraReward {
  staker_reward_pool : Z;
  staked : Z;
  dapp_reward_pool : Z;
}.

Definition default_reward : EraReward := mkEraReward 0 0 0.

Inductive EraRewardSpanError := InvalidEra | NoCapacity.

Record EraRewardSpan := mkEraRewardSpan {
  span : list EraReward;
  first_era : Z;
  last_era : Z;
}.

Definition new : EraRewardSpan := mkEraRewardSpan [] 0 0.

Definition len (s : EraRewardSpan) : nat := length (span s).
Definition is_empty (s : EraRewardSpan) : bool := bool_decide (span s = []).

(** [self.span.try_push(r).map_err(|_| NoCapacity)]: the vector stays as it
    is when it is full. *)
Definition push_reward (SL : Z) (s : EraRewardSpan) (r : EraReward)
    : Result unit EraRewardSpanError * EraRewardSpan :=
  match try_push SL (span s) r with
  | Some sp => (Ok tt, mkEraRewardSpan sp (first_era s) (last_era s))
  | None => (Err NoCapacity, s)
  end.

(** The span is returned in every case: the eras are updated before the
    capacity is checked. *)
Definition push (SL era : Z) (era_reward : EraReward) (s : EraRewardSpan)
    : Result unit EraRewardSpanError * EraRewardSpan :=
  match span s with
  | [] => push_reward SL (mkEraRewardSpan (span s) era era) era_reward
  | _ :: _ =>
      if negb (era =? sat_add u32_max (last_era s) 1) then (Err InvalidEra, s)
      else push_reward SL (mkEraRewardSpan (span s) (first_era s) era) era_reward
  end.

Definition get (s : EraRewardSpan) (era : Z) : option EraReward :=
  match checked_sub era (first_era s) with
  | Some index => span s !! Z.to_nat index
  | None => None
  end.

(** ** Well-formed spans *)

Record wf (SL : Z) (s : EraRewardSpan) : Prop := {
  wf_length : Z.of_nat (length (span s)) <= SL;
  wf_first : 0 <= first_era s;
  wf_last : span s <> [] -> last_era s = first_era s + Z.of_nat (length (span s)) - 1;
}.

Lemma new_wf SL : 0 <= SL -> wf SL new.
Proof. by split. Qed.

Lemma get_Some_iff SL s era :
  wf SL s -> 0 <= era ->
  (exists r, get s era = Some r) <->
  first_era s <= era < first_era s + Z.of_nat (length (span s)).
Proof.
  intros [Hlen Hfirst Hlast] He. unfold get, checked_sub.
  destruct (first_era s <=? era) eqn:Hle; [|split; [by intros [? ?]|lia]].
  change (is_Some (span s !! Z.to_nat (era - first_era s)) <->
          first_era s <= era < first_era s + Z.of_nat (length (span s))).
  rewrite lookup_lt_is_Some. lia.
Qed.

(** A span with room left for the era after its last one takes it. *)
Lemma push_ok SL era r s :
  wf SL s -> 0 <= era <= u32_max -> Z.of_nat (length (span s)) < SL ->
  (span s <> [] -> era = last_era s + 1) ->
  push SL era r s =
    (Ok tt, mkEraRewardSpan (span s ++ [r]) (if is_empty s then era else first_era s) era).
Proof.
  intros [Hlen Hfirst Hlast] He Hcap Hnext. unfold push, push_reward, try_push, is_empty.
  destruct (span s) as [|x xs]; simpl in *.
  - by rewrite (proj2 (Z.ltb_lt _ SL)) by (simpl; lia).
  - specialize (Hnext ltac:(done)).
    rewrite sat_add_exact, <- Hnext, Z.eqb_refl by lia. simpl.
    by rewrite (proj2 (Z.ltb_lt _ SL)) by lia.
Qed.

Lemma push_wf SL era r s :
  wf SL s -> 0 <= era <= u32_max -> Z.of_nat (length (span s)) < SL ->
  (span s <> [] -> era = last_era s + 1) ->
  wf SL (snd (push SL era r s)).
Proof.
  intros Hwf He Hcap Hnext. rewrite push_ok by done. destruct Hwf as [Hlen Hfirst Hlast].
  unfold is_empty. split; simpl; rewrite ?length_app; simpl.
  - lia.
  - by destruct (bool_decide _); lia.
  - intros _. case_bool_decide as Hs; [rewrite Hs; simpl; lia|].
    specialize (Hnext Hs). specialize (Hlast Hs). lia.
Qed.

Lemma get_push SL era r s era' :
  wf SL s -> 0 <= era <= u32_max -> Z.of_nat (length (span s)) < SL ->
  (span s <> [] -> era = last_era s + 1) -> 0 <= era' ->
  get (snd (push SL era r s)) era' = if era' =? era then Some r else get s era'.
Proof.
  intros Hwf He Hcap Hnext He'. rewrite push_ok by done. destruct Hwf as [Hlen Hfirst Hlast].
  unfold get, checked_sub, is_empty. simpl. case_bool_decide as Hs.
  - rewrite Hs. simpl. destruct (era' =? era) eqn:Heq.
    + rewrite (proj2 (Z.leb_le _ _)) by lia. by replace (Z.to_nat (era' - era)) with 0%nat by lia.
    + destruct (era <=? era') eqn:Hle; [|by destruct (first_era s <=? era')].
      destruct (Z.to_nat (era' - era)) eqn:?; [lia|]. by destruct (first_era s <=? era').
  - specialize (Hnext Hs). specialize (Hlast Hs).
    destruct (first_era s <=? era') eqn:Hle.
    + destruct (era' =? era) eqn:Heq.
      * rewrite lookup_app_r by lia.
        by replace (Z.to_nat (era' - first_era s) - length (span s))%nat with 0%nat by lia.
      * destruct (decide (Z.to_nat (era' - first_era s) < length (span s))%nat).
        -- by rewrite lookup_app_l.
        -- rewrite lookup_app_r by lia. rewrite (lookup_ge_None_2 (span s)) by lia.
           by destruct (Z.to_nat (era' - first_era s) - length (span s))%nat eqn:?; [lia|].
    + by rewrite (proj2 (Z.eqb_neq _ _)) by lia.
Qed.

(** ** Theorem *)

(** Pushing the next era on a span that has room for it succeeds, makes
    that era's reward readable and leaves every other era's as it was; a push
    of any other era on a non-empty span is refused with [InvalidEra], and a
    push on a full span with [NoCapacity], neither of which adds a reward. *)
Theorem span_push_get (SL era : Z) (r : EraReward) (s : EraRewardSpan) :
  wf SL s -> 0 <= era <= u32_max -> 0 < SL -> last_era s < u32_max ->
  let '(res, s') := push SL era r s in
  match res with
  | Ok _ =>
      wf SL s' /\ (span s <> [] -> era = last_era s + 1) /\ len s' = S (len s) /\
      forall era', 0 <= era' -> get s' era' = if era' =? era then Some r else get s era'
  | Err InvalidEra => span s <> [] /\ era <> last_era s + 1 /\ s' = s
  | Err NoCapacity =>
      Z.of_nat (len s) = SL /\ era = last_era s + 1 /\ span s' = span s
  end.
Proof.
  intros Hwf He HSL Hmax. pose proof (wf_length SL s Hwf).
  destruct (decide (span s <> [] /\ era <> last_era s + 1)) as [[Hs Hne]|Hok].
  - unfold push. destruct (span s) as [|x xs] eqn:Es; [done|].
    assert (0 <= last_era s).
    { destruct Hwf as [_ ? Hl]. rewrite Es in Hl. rewrite Hl by done. simpl. lia. }
    by rewrite sat_add_exact, (proj2 (Z.eqb_neq _ _)) by lia.
  - assert (Hnext : span s <> [] -> era = last_era s + 1).
    { intros Hs. destruct (Z.eq_dec era (last_era s + 1)); [done|]. tauto. }
    destruct (decide (Z.of_nat (length (span s)) < SL)).
    + pose proof (push_wf SL era r s Hwf He ltac:(done) Hnext) as Hwf'.
      pose proof (get_push SL era r s) as Hget.
      rewrite push_ok in * by done. simpl in *. split_and!; [done|done| |auto].
      unfold len. simpl. rewrite length_app. simpl. lia.
    + unfold push, push_reward, try_push. destruct (span s) as [|x xs] eqn:Es; [simpl in *; lia|].
      specialize (Hnext ltac:(done)).
      assert (0 <= last_era s).
      { destruct Hwf as [_ ? Hl]. rewrite Es in Hl. rewrite Hl by done. simpl. lia. }
      rewrite sat_add_exact, <- Hnext, Z.eqb_refl by lia. simpl.
      rewrite (proj2 (Z.ltb_ge _ SL)) by (simpl in *; lia).
      unfold len. rewrite Es. split_and!; [simpl in *; lia|done|done].
Qed.

Lemma span_push_get_witness :
  let s := mkEraRewardSpan [mkEraReward 10 100 5] 16 16 in
  let r := mkEraReward 11 120 6 in
  fst (push 16 17 r s) = Ok tt /\ get (snd (push 16 17 r s)) 17 = Some r.
Proof.
  set (s := mkEraRewardSpan [mkEraReward 10 100 5] 16 16). set (r := mkEraReward 11 120 6).
  split; [reflexivity|].
  assert (Hwf : wf 16 s) by (split; simpl; lia).
  pose proof (span_push_get 16 17 r s Hwf ltac:(lia) ltac:(lia) ltac:(simpl; lia)) as H.
  destruct (push 16 17 r s) as [[u|err] s'] eqn:E; [|discriminate].
  destruct H as (_ & _ & _ & H). exact (H 17 ltac:(lia)).
Defined.
