(* ===== verification/Tiers.v ===== *)
(** * dApp tiers: [pallets/dapp-staking/src/types.rs]

    Tier parameters, the tier configuration derived from them and the price
    of the native currency, and the rewards of the dApps that got into tiers. *)

From S2P Require Import Prelude Frame Primitives.

(** ** Tier parameters *)

Inductive TierThreshold :=
| FixedPercentage (required_percentage : Z)
| DynamicPercentage (percentage minimum_required_percentage : Z).

(** [TierThreshold::threshold]. *)
Definition threshold `{SpArithmetic} (t : TierThreshold) (total_issuance : Z) : Z :=
  match t with
  | DynamicPercentage percentage _ => perbill_mul percentage total_issuance
  | FixedPercentage required_percentage => perbill_mul required_percentage total_issuance
  end.

Record TierParameters := mkTierParameters {
  params_reward_portion : list Z;
  slot_distribution : list Z;
  params_tier_thresholds : list TierThreshold;
}.

Definition default_params : TierParameters := mkTierParameters [] [] [].

(** [iter().fold(Some(zero), |acc, permill| acc?.checked_add(permill))]. *)
Definition checked_permill_sum `{SpArithmetic} (ps : list Z) : option Z :=
  foldl (fun acc p => match acc with Some a => permill_checked_add a p | None => None end)
    (Some 0) ps.

(** [TierParameters::is_valid]. *)
Definition params_is_valid `{SpArithmetic} (NT : Z) (p : TierParameters) : bool :=
  match checked_permill_sum (params_reward_portion p) with
  | None => false
  | Some _ =>
      match checked_permill_sum (slot_distribution p) with
      | None => false
      | Some _ =>
          (NT =? Z.of_nat (length (params_reward_portion p)))
          && (NT =? Z.of_nat (length (slot_distribution p)))
          && (NT =? Z.of_nat (length (params_tier_thresholds p)))
      end
  end.

(** ** Tier configuration *)

Record TiersConfiguration := mkTiersConfiguration {
  slots_per_tier : list Z;
  reward_portion : list Z;
  tier_thresholds : list Z;
}.

Definition default_config : TiersConfiguration := mkTiersConfiguration [] [] [].

(** [TiersConfiguration::is_valid]. *)
Definition config_is_valid (NT : Z) (c : TiersConfiguration) : bool :=
  (NT =? Z.of_nat (length (slots_per_tier c)))
  && (NT =? Z.of_nat (length (reward_portion c)))
  && (NT =? Z.of_nat (length (tier_thresholds c))).

(** A [u16] sum: it wraps around. *)
Definition total_number_of_slots (c : TiersConfiguration) : Z :=
  foldl (fun a b => (a + b) mod 65536) 0 (slots_per_tier c).

Definition unwrap_or_default {A} (o : option (list A)) : list A := default [] o.

Section calculate_new.
Context `{SpArithmetic, TierSlots}.

(** The threshold of one tier, for a new and a base number of slots. *)
Definition new_threshold (new_number_of_slots base_number_of_slots delta_threshold total_issuance : Z)
    (t : TierThreshold) : Z :=
  match t with
  | DynamicPercentage percentage minimum_required_percentage =>
      let amount := perbill_mul percentage total_issuance in
      let adjusted_amount :=
        if base_number_of_slots <=? new_number_of_slots
        then sat_sub amount (fixed_saturating_mul_int u128_max delta_threshold amount)
        else sat_add u128_max amount (fixed_saturating_mul_int u128_max delta_threshold amount) in
      let minimum_amount := perbill_mul minimum_required_percentage total_issuance in
      Z.max adjusted_amount minimum_amount
  | FixedPercentage required_percentage => perbill_mul required_percentage total_issuance
  end.

(** [base_price] is the parameter [P] of the type, [NT] its number of tiers. *)
Definition calculate_new (NT base_price : Z) (params : TierParameters)
    (native_price total_issuance : Z) : TiersConfiguration :=
  let base_number_of_slots := Z.max (number_of_slots base_price) 1 in
  let new_number_of_slots := Z.max (number_of_slots native_price) 1 in
  let new_slots_per_tier :=
    (fun percent => saturated_into u16_max (permill_mul percent new_number_of_slots))
      <$> slot_distribution params in
  let new_slots_per_tier := unwrap_or_default (try_from NT new_slots_per_tier) in
  let delta_threshold :=
    if base_number_of_slots <=? new_number_of_slots
    then fixed_from_rational (new_number_of_slots - base_number_of_slots) new_number_of_slots
    else fixed_from_rational (base_number_of_slots - new_number_of_slots) new_number_of_slots in
  let new_tier_thresholds :=
    unwrap_or_default (try_from NT
      (new_threshold new_number_of_slots base_number_of_slots delta_threshold total_issuance
         <$> params_tier_thresholds params)) in
  mkTiersConfiguration new_slots_per_tier (params_reward_portion params) new_tier_thresholds.
End calculate_new.

(** ** Rewards of the dApps in tiers *)

Record DAppTierRewards := mkDAppTierRewards {
  dapps : gmap Z Z;
  rewards : list Z;
  period : Z;
  rank_rewards : list Z;
}.

Definition default_tier_rewards : DAppTierRewards := mkDAppTierRewards ∅ [] 0 [].

Inductive DAppTierError := NoDAppInTiers | InternalError.

(** [DAppTierRewards::new]. *)
Definition tier_rewards_new (MD NT : Z) (dapps : gmap Z Z) (rewards : list Z) (period : Z)
    (rank_rewards : list Z) : Result DAppTierRewards unit :=
  ensure! (Z.of_nat (size dapps) <=? MD) else tt in
  let! rewards := ok_or (try_from NT rewards) tt in
  let! rank_rewards := ok_or (try_from NT rank_rewards) tt in
  Ok (mkDAppTierRewards dapps rewards period rank_rewards).

(** [vec.get(i).map_or(0, |x| *x)]. *)
Definition get_or_zero (l : list Z) (i : Z) : Z := default 0 (l !! Z.to_nat i).

Definition try_claim (dapp_id : Z) (t : DAppTierRewards)
    : Result (Z * Z * DAppTierRewards) DAppTierError :=
  match dapps t !! dapp_id with
  | None => Err NoDAppInTiers
  | Some ranked_tier =>
      let '(tier_id, rank) := deconstruct ranked_tier in
      let amount := get_or_zero (rewards t) tier_id in
      let reward_per_rank := get_or_zero (rank_rewards t) tier_id in
      let additional_reward := sat_mul u128_max reward_per_rank rank in
      let amount := sat_add u128_max amount additional_reward in
      Ok (amount, ranked_tier,
          mkDAppTierRewards (delete dapp_id (dapps t)) (rewards t) (period t) (rank_rewards t))
  end.

(** ** Lemmas *)

Lemma try_from_fits {A} NT (l : list A) :
  Z.of_nat (length l) <= NT -> unwrap_or_default (try_from NT l) = l.
Proof. intros Hl. unfold try_from. by rewrite (proj2 (Z.leb_le _ _) Hl). Qed.

Section laws.
Context `{SpArithmeticLaws}.

Lemma checked_permill_sum_acc ps a :
  0 <= a -> Forall (fun p => 0 <= p) ps ->
  foldl (fun acc p => match acc with Some a => permill_checked_add a p | None => None end)
    (Some a) ps <> None <-> (a + zsum ps <= permill_one \/ ps = []).
Proof.
  intros Ha Hps. revert a Ha. induction Hps as [|p ps Hp Hps IH]; intros a Ha; simpl.
  - split; auto.
  - rewrite permill_checked_add_spec. unfold checked_add.
    pose proof (zsum_nonneg ps Hps) as Hs. unfold zsum in Hs.
    destruct (a + p <=? permill_one) eqn:Hle.
    + rewrite IH by lia. unfold zsum. simpl. split; [intros [?| ->]; simpl|intros [?|?]]; 
        [left; lia|left; simpl; lia|left; lia|discriminate].
    + assert (Hnone : forall l, foldl (fun acc p => match acc with
          | Some a => permill_checked_add a p | None => None end) None l = None)
        by (induction l; simpl; auto).
      rewrite Hnone. split; [done|]. intros [Hx|?]; [|discriminate].
      unfold zsum in Hx. simpl in Hx. lia.
Qed.

(** A parameter set is accepted exactly when its portions add up to at most
    one whole and all its vectors have one entry per tier. *)
Lemma params_is_valid_iff NT p :
  0 < NT -> Forall (fun x => 0 <= x) (params_reward_portion p) ->
  Forall (fun x => 0 <= x) (slot_distribution p) ->
  params_is_valid NT p = true <->
  zsum (params_reward_portion p) <= permill_one /\
  zsum (slot_distribution p) <= permill_one /\
  NT = Z.of_nat (length (params_reward_portion p)) /\
  NT = Z.of_nat (length (slot_distribution p)) /\
  NT = Z.of_nat (length (params_tier_thresholds p)).
Proof.
  intros HNT H1 H2. unfold params_is_valid, checked_permill_sum.
  pose proof (checked_permill_sum_acc (params_reward_portion p) 0 ltac:(lia) H1) as S1.
  pose proof (checked_permill_sum_acc (slot_distribution p) 0 ltac:(lia) H2) as S2.
  assert (E1 : params_reward_portion p = [] -> NT = Z.of_nat (length (params_reward_portion p)) -> False)
    by (intros ->; simpl; lia).
  assert (E2 : slot_distribution p = [] -> NT = Z.of_nat (length (slot_distribution p)) -> False)
    by (intros ->; simpl; lia).
  do 2 (destruct (foldl _ _ _); [|split; [done|intros (? & ? & _); exfalso; tauto]]).
  rewrite !andb_true_iff, !Z.eqb_eq. split.
  - intros [[? ?] ?]. destruct S1 as [S1 _], S2 as [S2 _].
    destruct (S1 ltac:(done)), (S2 ltac:(done)); naive_solver.
  - tauto.
Qed.

(** The percentages are per-things. *)
Definition threshold_valid (t : TierThreshold) : Prop :=
  match t with
  | FixedPercentage r => in_range perbill_one r
  | DynamicPercentage p m => in_range perbill_one p /\ in_range perbill_one m
  end.

Definition params_wf (p : TierParameters) : Prop :=
  Forall (in_range permill_one) (params_reward_portion p) /\
  Forall (in_range permill_one) (slot_distribution p) /\
  Forall threshold_valid (params_tier_thresholds p).

(** Rounding gives every tier at most half a slot too much. *)
Lemma slots_sum_bound n ds :
  in_range u16_max n -> Forall (in_range permill_one) ds ->
  2 * permill_one * zsum ((fun d => saturated_into u16_max (permill_mul d n)) <$> ds)
    <= 2 * n * zsum ds + permill_one * Z.of_nat (length ds).
Proof.
  intros Hn. induction 1 as [|d ds Hd Hds IH]; [simpl; lia|].
  rewrite fmap_cons. unfold zsum in *. cbn [foldr length]. rewrite Nat2Z.inj_succ.
  pose proof (permill_mul_bound d n Hd) as Hb. pose proof (permill_mul_nearest d n Hd) as Hr.
  unfold in_range, saturated_into in *. specialize (Hb ltac:(lia)). specialize (Hr ltac:(lia)). nia.
Qed.

(** The direction in which a dynamic threshold moves. *)
Lemma new_threshold_spec n b ti t :
  in_range u128_max ti -> 1 <= n <= u16_max -> 1 <= b <= u16_max -> threshold_valid t ->
  let delta := if b <=? n then fixed_from_rational (n - b) n else fixed_from_rational (b - n) n in
  let x := new_threshold n b delta ti t in
  in_range u128_max x /\
  match t with
  | FixedPercentage r => x = perbill_mul r ti
  | DynamicPercentage p m =>
      perbill_mul m ti <= x /\
      (b <= n -> x <= Z.max (perbill_mul p ti) (perbill_mul m ti)) /\
      (n < b -> perbill_mul p ti <= x)
  end.
Proof.
  intros Hti Hn Hb Ht. cbv zeta. destruct t as [r|p m]; simpl in *.
  - pose proof (perbill_mul_bound r ti Ht Hti). split; [ulia|done].
  - destruct Ht as [Hp Hm]. pose proof (perbill_mul_bound p ti Hp Hti).
    pose proof (perbill_mul_bound m ti Hm Hti).
    set (d := if b <=? n then fixed_from_rational _ _ else _).
    assert (Hd : in_range u128_max d).
    { subst d. destruct (b <=? n) eqn:?; apply fixed_from_rational_range; lia. }
    pose proof (fixed_saturating_mul_int_range u128_max d (perbill_mul p ti) Hd) as Hr.
    unfold in_range in *. specialize (Hr ltac:(lia)).
    destruct (b <=? n) eqn:?; ulia.
Qed.

(** ** Theorems *)

(** A valid parameter set yields a valid tier configuration with the
    reward portions of the parameters, whose slots add up to at most the
    number of slots for the price plus half a slot per tier (rounding), and
    whose thresholds are the fixed percentages of the issuance or, for a
    dynamic one, never below its minimum, not above the base percentage when
    the price gives at least the base number of slots and not below it when
    it gives fewer. *)
Theorem calculate_new_spec `{TierSlots} (NT base_price price ti : Z) (p : TierParameters) :
  in_range u16_max (number_of_slots base_price) -> in_range u16_max (number_of_slots price) ->
  0 < NT -> in_range u128_max ti ->
  params_wf p -> params_is_valid NT p = true ->
  let base := Z.max (number_of_slots base_price) 1 in
  let new := Z.max (number_of_slots price) 1 in
  let c := calculate_new NT base_price p price ti in
  config_is_valid NT c = true /\
  reward_portion c = params_reward_portion p /\
  2 * zsum (slots_per_tier c) <= 2 * new + NT /\
  forall i t, params_tier_thresholds p !! i = Some t ->
    exists x, tier_thresholds c !! i = Some x /\ in_range u128_max x /\
      match t with
      | FixedPercentage r => x = perbill_mul r ti
      | DynamicPercentage pc m =>
          perbill_mul m ti <= x /\
          (base <= new -> x <= Z.max (perbill_mul pc ti) (perbill_mul m ti)) /\
          (new < base -> perbill_mul pc ti <= x)
      end.
Proof.
  intros Hb Hn HNT Hti (Hrp & Hsd & Htt) Hvalid base new c.
  assert (Hnn : forall l, Forall (in_range permill_one) l -> Forall (fun x => 0 <= x) l)
    by (intros l Hl; eapply Forall_impl; [exact Hl|unfold in_range; simpl; lia]).
  apply params_is_valid_iff in Hvalid as (Hsum1 & Hsum2 & Hl1 & Hl2 & Hl3); auto.
  unfold in_range in Hb, Hn.
  assert (1 <= base <= u16_max /\ 1 <= new <= u16_max) as [Hbase Hnew] by (subst base new; lia).
  subst c. unfold calculate_new, config_is_valid. fold base new. cbn -[new_threshold].
  rewrite !try_from_fits by (rewrite length_fmap; lia). rewrite !length_fmap. split_and!.
  - rewrite <- Hl1, <- Hl2, <- Hl3, Z.eqb_refl. done.
  - done.
  - pose proof (slots_sum_bound new (slot_distribution p) ltac:(unfold in_range; lia) Hsd).
    assert (new * zsum (slot_distribution p) <= new * permill_one)
      by (apply Z.mul_le_mono_nonneg_l; lia).
    unfold zsum in *. lia.
  - intros i t Hi. rewrite list_lookup_fmap, Hi. simpl. eexists. split; [done|].
    apply new_threshold_spec; try done; try lia. exact (Forall_lookup_1 _ _ _ _ Htt Hi).
Qed.
End laws.

(** The tier parameters of the Astar runtime tests: four tiers. *)
Definition example_params : TierParameters :=
  mkTierParameters [400000; 300000; 200000; 100000] [100000; 200000; 300000; 400000]
    [DynamicPercentage 20000000 11000000; DynamicPercentage 13000000 6000000;
     DynamicPercentage 5500000 3000000; FixedPercentage 1000000].

Lemma example_params_wf : params_wf example_params.
Proof. split_and!; repeat constructor; unfold in_range; simpl; lia. Qed.

Lemma calculate_new_spec_witness :
  let S := {| number_of_slots := @standard_number_of_slots ExactArithmetic |} in
  slots_per_tier (@calculate_new ExactArithmetic S 4 (fixed_div / 20) example_params
    (fixed_div / 10) 1000000) = [15; 30; 45; 60] /\
  tier_thresholds (@calculate_new ExactArithmetic S 4 (fixed_div / 20) example_params
    (fixed_div / 10) 1000000) = [13334; 8667; 3667; 1000] /\
  config_is_valid 4 (@calculate_new ExactArithmetic S 4 (fixed_div / 20) example_params
    (fixed_div / 10) 1000000) = true.
Proof.
  split; [reflexivity|split; [reflexivity|]].
  refine (proj1 (@calculate_new_spec ExactArithmetic ExactArithmetic_laws
    {| number_of_slots := @standard_number_of_slots ExactArithmetic |}
    4 (fixed_div / 20) (fixed_div / 10) 1000000 example_params _ _ _ _ _ _)).
  - vm_compute; split; congruence.
  - vm_compute; split; congruence.
  - lia.
  - unfold in_range. lia.
  - apply example_params_wf.
  - reflexivity.
Defined.

(** A dApp's tier reward can be claimed exactly once: the claim pays the
    reward of its tier plus one rank reward per rank, takes the dApp out, so
    that a second claim finds nothing, and changes no other dApp's claim. *)
Theorem try_claim_once (dapp_id : Z) (t : DAppTierRewards) :
  match try_claim dapp_id t with
  | Err err => err = NoDAppInTiers /\ dapps t !! dapp_id = None
  | Ok (amount, rt, t') =>
      dapps t !! dapp_id = Some rt /\
      amount = sat_add u128_max (get_or_zero (rewards t) (tier rt))
                 (sat_mul u128_max (get_or_zero (rank_rewards t) (tier rt)) (rank rt)) /\
      try_claim dapp_id t' = Err NoDAppInTiers /\
      forall other, other <> dapp_id ->
        (fst <$> match try_claim other t' with Ok r => Some r | Err _ => None end) =
        (fst <$> match try_claim other t with Ok r => Some r | Err _ => None end)
  end.
Proof.
  unfold try_claim. destruct (dapps t !! dapp_id) as [rt|] eqn:Hd; [|done]. simpl.
  rewrite lookup_delete_eq. split_and!; [done..|].
  intros other Hne. rewrite lookup_delete_ne by done. by destruct (dapps t !! other).
Qed.
