(* ===== verification/PalletState.v ===== *)
(** * The dApp staking pallet: configuration, storage, errors and helpers

    [pallets/dapp-staking/src/lib.rs].  The storage items are the fields of
    one record, a [StorageMap] is a finite map and a [StorageDoubleMap] a map
    of maps; [world] is the state of everything outside the pallet.  A call
    maps a storage to a storage or an error; on an error the runtime keeps
    the old storage.  Weights are in [DispatchWeights]. *)

From S2P Require Import Prelude Frame Primitives StakeAmount EraInfo AccountLedger.
From S2P Require Import SingularStakingInfo ContractStakeAmount EraRewardSpan Tiers Protocol.

(** ** Configuration: the constants of [Config] *)

Record Config := mkConfig {
  cycle_configuration : CycleConfiguration;
  BaseNativeCurrencyPrice : Z;
  EraRewardSpanLength : Z;
  RewardRetentionInPeriods : Z;
  MaxNumberOfContracts : Z;
  MaxUnlockingChunks : Z;
  MinimumLockedAmount : Z;
  UnlockingPeriod : Z;
  MaxNumberOfStakedContracts : Z;
  MinimumStakeAmount : Z;
  NumberOfTiers : Z;
  RankingEnabled : bool;
}.

Definition integrity_test (c : Config) : bool :=
  (0 <? EraRewardSpanLength c) && (0 <? RewardRetentionInPeriods c)
  && (0 <? MaxNumberOfContracts c) && (0 <? MaxUnlockingChunks c)
  && (0 <? UnlockingPeriod c) && (0 <? MaxNumberOfStakedContracts c)
  && (0 <? MinimumLockedAmount c) && (0 <? MinimumStakeAmount c)
  && (MinimumStakeAmount c <=? MinimumLockedAmount c)
  && (0 <? periods_per_cycle (cycle_configuration c))
  && (0 <? eras_per_voting_subperiod (cycle_configuration c))
  && (0 <? eras_per_build_and_earn_subperiod (cycle_configuration c))
  && (0 <? blocks_per_era (cycle_configuration c)).

(** ** Errors *)

Inductive Error :=
| Disabled
| ContractAlreadyExists
| ExceededMaxNumberOfContracts
| NewDAppIdUnavailable
| ContractNotFound
| OriginNotOwner
| ZeroAmount
| LockedAmountBelowThreshold
| AccountNotAvailableForDappStaking
| TooManyUnlockingChunks
| RemainingStakePreventsFullUnlock
| NoUnlockedChunksToClaim
| NoUnlockingChunks
| UnavailableStakeFunds
| UnclaimedRewards
| InternalStakeError
| InsufficientStakeAmount
| PeriodEndsInNextEra
| UnstakeFromPastPeriod
| UnstakeAmountTooLarge
| NoStakingInfo
| InternalUnstakeError
| RewardExpired
| RewardPayoutFailed
| NoClaimableRewards
| InternalClaimStakerError
| NotEligibleForBonusReward
| InternalClaimBonusError
| InvalidClaimEra
| NoDAppTierInfo
| InternalClaimDAppError
| ContractStillActive
| TooManyStakedContracts
| NoExpiredEntries
| ForceNotAllowed.

(** What a dispatch can fail with: an error of the pallet, a rejected origin,
    or a failure of the currency.  [NonTermination] is not an error of the
    code: it is the outcome of a call that never returns. *)
Inductive DispatchError :=
| Module (e : Error)
| BadOrigin
| CurrencyFailure
| NonTermination.

(** [guard! b else err in k] is [ensure!(b, Error::<T>::err); k]. *)
Notation "'guard!' b 'else' err 'in' k" :=
  (if b then k else Err (Module err))
  (at level 10, b at level 100, err at level 100, k at level 200) : rust_scope.

(** ** Storage *)

Section storage.
Context {AccountId : Type} `{Countable AccountId} {W : Type}.

Inductive Event :=
| MaintenanceMode (enabled : bool)
| NewEra (era : Z)
| NewSubperiod (subperiod : Subperiod) (number : Z)
| DAppRegistered (owner : AccountId) (smart_contract : SmartContract AccountId) (dapp_id : Z)
| DAppRewardDestinationUpdated (smart_contract : SmartContract AccountId)
    (beneficiary : option AccountId)
| DAppOwnerChanged (smart_contract : SmartContract AccountId) (new_owner : AccountId)
| DAppUnregistered (smart_contract : SmartContract AccountId) (era : Z)
| Locked (account : AccountId) (amount : Z)
| Unlocking (account : AccountId) (amount : Z)
| ClaimedUnlocked (account : AccountId) (amount : Z)
| Relock (account : AccountId) (amount : Z)
| Stake (account : AccountId) (smart_contract : SmartContract AccountId) (amount : Z)
| Unstake (account : AccountId) (smart_contract : SmartContract AccountId) (amount : Z)
| Reward (account : AccountId) (era amount : Z)
| BonusReward (account : AccountId) (smart_contract : SmartContract AccountId)
    (period amount : Z)
| DAppReward (beneficiary : AccountId) (smart_contract : SmartContract AccountId)
    (tier_id rank era amount : Z)
| UnstakeFromUnregistered (account : AccountId) (smart_contract : SmartContract AccountId)
    (amount : Z)
| ExpiredEntriesRemoved (account : AccountId) (count : Z)
| Force (forcing_type : ForcingType).

Record Storage := mkStorage {
  ActiveProtocolState : ProtocolState;
  NextDAppId : Z;
  IntegratedDApps : gmap (SmartContract AccountId) (DAppInfo AccountId);
  Ledger : gmap AccountId AccountLedger;
  StakerInfo : gmap AccountId (gmap (SmartContract AccountId) SingularStakingInfo);
  ContractStake : gmap Z ContractStakeAmount;
  CurrentEraInfo : EraInfo;
  EraRewards : gmap Z EraRewardSpan;
  PeriodEnd : gmap Z PeriodEndInfo;
  StaticTierParams : TierParameters;
  TierConfig : TiersConfiguration;
  DAppTiers : gmap Z DAppTierRewards;
  HistoryCleanupMarker : CleanupMarker;
  Safeguard : bool;
  events : list Event;
  world : W;
}.

(** Writes of single storage items. *)
Definition put_state (x : ProtocolState) (s : Storage) : Storage :=
  mkStorage x (NextDAppId s) (IntegratedDApps s) (Ledger s) (StakerInfo s) (ContractStake s)
    (CurrentEraInfo s) (EraRewards s) (PeriodEnd s) (StaticTierParams s) (TierConfig s)
    (DAppTiers s) (HistoryCleanupMarker s) (Safeguard s) (events s) (world s).
Definition put_dapps (n : Z) (x : gmap (SmartContract AccountId) (DAppInfo AccountId))
    (s : Storage) : Storage :=
  mkStorage (ActiveProtocolState s) n x (Ledger s) (StakerInfo s) (ContractStake s)
    (CurrentEraInfo s) (EraRewards s) (PeriodEnd s) (StaticTierParams s) (TierConfig s)
    (DAppTiers s) (HistoryCleanupMarker s) (Safeguard s) (events s) (world s).
Definition put_ledger (x : gmap AccountId AccountLedger) (s : Storage) : Storage :=
  mkStorage (ActiveProtocolState s) (NextDAppId s) (IntegratedDApps s) x (StakerInfo s)
    (ContractStake s) (CurrentEraInfo s) (EraRewards s) (PeriodEnd s) (StaticTierParams s)
    (TierConfig s) (DAppTiers s) (HistoryCleanupMarker s) (Safeguard s) (events s) (world s).
Definition put_staker_info
    (x : gmap AccountId (gmap (SmartContract AccountId) SingularStakingInfo))
    (s : Storage) : Storage :=
  mkStorage (ActiveProtocolState s) (NextDAppId s) (IntegratedDApps s) (Ledger s) x
    (ContractStake s) (CurrentEraInfo s) (EraRewards s) (PeriodEnd s) (StaticTierParams s)
    (TierConfig s) (DAppTiers s) (HistoryCleanupMarker s) (Safeguard s) (events s) (world s).
Definition put_contract_stake (x : gmap Z ContractStakeAmount) (s : Storage) : Storage :=
  mkStorage (ActiveProtocolState s) (NextDAppId s) (IntegratedDApps s) (Ledger s)
    (StakerInfo s) x (CurrentEraInfo s) (EraRewards s) (PeriodEnd s) (StaticTierParams s)
    (TierConfig s) (DAppTiers s) (HistoryCleanupMarker s) (Safeguard s) (events s) (world s).
Definition put_era_info (x : EraInfo) (s : Storage) : Storage :=
  mkStorage (ActiveProtocolState s) (NextDAppId s) (IntegratedDApps s) (Ledger s)
    (StakerInfo s) (ContractStake s) x (EraRewards s) (PeriodEnd s) (StaticTierParams s)
    (TierConfig s) (DAppTiers s) (HistoryCleanupMarker s) (Safeguard s) (events s) (world s).
Definition put_era_rewards (x : gmap Z EraRewardSpan) (s : Storage) : Storage :=
  mkStorage (ActiveProtocolState s) (NextDAppId s) (IntegratedDApps s) (Ledger s)
    (StakerInfo s) (ContractStake s) (CurrentEraInfo s) x (PeriodEnd s) (StaticTierParams s)
    (TierConfig s) (DAppTiers s) (HistoryCleanupMarker s) (Safeguard s) (events s) (world s).
Definition put_period_end (x : gmap Z PeriodEndInfo) (s : Storage) : Storage :=
  mkStorage (ActiveProtocolState s) (NextDAppId s) (IntegratedDApps s) (Ledger s)
    (StakerInfo s) (ContractStake s) (CurrentEraInfo s) (EraRewards s) x (StaticTierParams s)
    (TierConfig s) (DAppTiers s) (HistoryCleanupMarker s) (Safeguard s) (events s) (world s).
Definition put_tier_config (x : TiersConfiguration) (s : Storage) : Storage :=
  mkStorage (ActiveProtocolState s) (NextDAppId s) (IntegratedDApps s) (Ledger s)
    (StakerInfo s) (ContractStake s) (CurrentEraInfo s) (EraRewards s) (PeriodEnd s)
    (StaticTierParams s) x (DAppTiers s) (HistoryCleanupMarker s) (Safeguard s) (events s)
    (world s).
Definition put_dapp_tiers (x : gmap Z DAppTierRewards) (s : Storage) : Storage :=
  mkStorage (ActiveProtocolState s) (NextDAppId s) (IntegratedDApps s) (Ledger s)
    (StakerInfo s) (ContractStake s) (CurrentEraInfo s) (EraRewards s) (PeriodEnd s)
    (StaticTierParams s) (TierConfig s) x (HistoryCleanupMarker s) (Safeguard s) (events s)
    (world s).
Definition put_marker (x : CleanupMarker) (s : Storage) : Storage :=
  mkStorage (ActiveProtocolState s) (NextDAppId s) (IntegratedDApps s) (Ledger s)
    (StakerInfo s) (ContractStake s) (CurrentEraInfo s) (EraRewards s) (PeriodEnd s)
    (StaticTierParams s) (TierConfig s) (DAppTiers s) x (Safeguard s) (events s) (world s).
Definition put_world (x : W) (s : Storage) : Storage :=
  mkStorage (ActiveProtocolState s) (NextDAppId s) (IntegratedDApps s) (Ledger s)
    (StakerInfo s) (ContractStake s) (CurrentEraInfo s) (EraRewards s) (PeriodEnd s)
    (StaticTierParams s) (TierConfig s) (DAppTiers s) (HistoryCleanupMarker s) (Safeguard s)
    (events s) x.
Definition deposit_event (ev : Event) (s : Storage) : Storage :=
  mkStorage (ActiveProtocolState s) (NextDAppId s) (IntegratedDApps s) (Ledger s)
    (StakerInfo s) (ContractStake s) (CurrentEraInfo s) (EraRewards s) (PeriodEnd s)
    (StaticTierParams s) (TierConfig s) (DAppTiers s) (HistoryCleanupMarker s) (Safeguard s)
    (events s ++ [ev]) (world s).

(** [ValueQuery] and [OptionQuery] reads. *)
Definition ledger_of (s : Storage) (a : AccountId) : AccountLedger :=
  match Ledger s !! a with Some l => l | None => AccountLedger.default end.
Definition stakers_of (s : Storage) (a : AccountId)
    : gmap (SmartContract AccountId) SingularStakingInfo :=
  match StakerInfo s !! a with Some m => m | None => ∅ end.
Definition staker_info (s : Storage) (a : AccountId) (c : SmartContract AccountId)
    : option SingularStakingInfo := stakers_of s a !! c.
Definition contract_stake_of (s : Storage) (id : Z) : ContractStakeAmount :=
  match ContractStake s !! id with Some c => c | None => ContractStakeAmount.default end.

(** Writes of one entry of the double map [StakerInfo]. *)
Definition put_stakers_of (a : AccountId)
    (m : gmap (SmartContract AccountId) SingularStakingInfo) (s : Storage) : Storage :=
  put_staker_info (<[a := m]> (StakerInfo s)) s.
Definition insert_staker_info (a : AccountId) (c : SmartContract AccountId)
    (i : SingularStakingInfo) (s : Storage) : Storage :=
  put_stakers_of a (<[c := i]> (stakers_of s a)) s.
Definition remove_staker_info (a : AccountId) (c : SmartContract AccountId) (s : Storage)
    : Storage :=
  put_stakers_of a (delete c (stakers_of s a)) s.

(** ** Helpers *)

(** [is_staker]. *)
Definition is_staker (s : Storage) (a : AccountId) : bool :=
  bool_decide (is_Some (Ledger s !! a)).

Definition ensure_pallet_enabled (s : Storage) : Result unit DispatchError :=
  if maintenance (ActiveProtocolState s) then Err (Module Disabled) else Ok tt.

Definition set_maintenance_mode (enabled : bool) (s : Storage) : Storage :=
  deposit_event (MaintenanceMode enabled)
    (put_state (set_maintenance enabled (ActiveProtocolState s)) s).

(** [SafeModeNotify]: [entered] and [exited]. *)
Definition safe_mode_entered : Storage -> Storage := set_maintenance_mode true.
Definition safe_mode_exited : Storage -> Storage := set_maintenance_mode false.

(** [update_ledger]: an empty ledger is removed and its freeze thawed, any
    other is stored with a freeze of everything locked. *)
Definition update_ledger `{!Currency AccountId W} (account : AccountId) (ledger : AccountLedger)
    (s : Storage) : Result Storage DispatchError :=
  if AccountLedger.is_empty ledger then
    let! w := ok_or (thaw (world s) account) CurrencyFailure in
    Ok (put_world w (put_ledger (delete account (Ledger s)) s))
  else
    let! w := ok_or (set_freeze (world s) account (total_locked_amount ledger))
                CurrencyFailure in
    Ok (put_world w (put_ledger (<[account := ledger]> (Ledger s)) s)).
End storage.

Arguments Event : clear implicits.
Arguments Storage _ {_ _} _.

Section helpers.
Context (cfg : Config).

Definition blocks_per_voting_period : Z :=
  sat_mul u32_max (blocks_per_era (cycle_configuration cfg))
    (eras_per_voting_subperiod (cycle_configuration cfg)).

Definition era_reward_span_index (era : Z) : Z :=
  sat_sub era (era mod EraRewardSpanLength cfg).

Definition oldest_claimable_period (current_period : Z) : Z :=
  sat_sub current_period (RewardRetentionInPeriods cfg).

Definition unlocking_period : Z :=
  sat_mul u32_max (blocks_per_era (cycle_configuration cfg)) (UnlockingPeriod cfg).
End helpers.

(** ** Genesis *)

(** [GenesisConfig::build].  [None] is a panic of an [expect] or [assert]:
    the chain does not start. *)
Section genesis.
Context {AccountId : Type} `{Countable AccountId} {W : Type}.
Context `{!SpArithmetic, !Currency AccountId W}.

Record GenesisConfig := mkGenesisConfig {
  genesis_reward_portion : list Z;
  genesis_slot_distribution : list Z;
  genesis_tier_thresholds : list TierThreshold;
  genesis_slots_per_tier : list Z;
  genesis_safeguard : option bool;
}.

Definition build (cfg : Config) (g : GenesisConfig) (w : W) : option (Storage AccountId W) :=
  let NT := NumberOfTiers cfg in
  match try_from NT (genesis_reward_portion g), try_from NT (genesis_slot_distribution g),
        try_from NT (genesis_tier_thresholds g) with
  | Some rp, Some sd, Some thresholds =>
      let tier_params := mkTierParameters rp sd thresholds in
      if params_is_valid NT tier_params then
        match try_from NT ((fun t => threshold t (total_issuance w)) <$> thresholds),
              try_from NT (genesis_slots_per_tier g) with
        | Some th, Some slots =>
            let tier_config := mkTiersConfiguration slots rp th in
            if config_is_valid NT tier_config then
              match checked_add u32_max (blocks_per_voting_period cfg) 1 with
              | Some next_era_start =>
                  Some (mkStorage (mkProtocolState 1 next_era_start (mkPeriodInfo 1 Voting 2) false)
                    0 ∅ ∅ ∅ ∅ EraInfo.default ∅ ∅ tier_params tier_config ∅ default_marker
                    (match genesis_safeguard g with Some b => b | None => true end) [] w)
              | None => None
              end
            else None
        | _, _ => None
        end
      else None
  | _, _, _ => None
  end.
End genesis.

(** ** Events leave everything else alone *)
Section reward_events.
Context {AccountId : Type} `{Countable AccountId} {W : Type}.

Lemma events_world acc rewards (s : Storage AccountId W) :
  world (foldl (fun s '(era, reward) => deposit_event (Reward acc era reward) s) s rewards) = world s.
Proof. revert s. induction rewards as [|[e r] rs IH]; intros s; simpl; [done|]. by rewrite IH. Qed.

Lemma events_ledger acc rewards (s : Storage AccountId W) :
  Ledger (foldl (fun s '(era, reward) => deposit_event (Reward acc era reward) s) s rewards) =
  Ledger s.
Proof. revert s. induction rewards as [|[e r] rs IH]; intros s; simpl; [done|]. by rewrite IH. Qed.
End reward_events.
