(* ===== verification/DAppStaking.v ===== *)
(** * The calls of the dApp staking pallet

    [pallets/dapp-staking/src/lib.rs], [#[pallet::call]] and the internal
    functions the calls share, one definition per function. *)

From S2P Require Import Prelude Frame Primitives StakeAmount EraInfo AccountLedger.
From S2P Require Import SingularStakingInfo ContractStakeAmount EraRewardSpan Tiers Protocol.
From S2P Require Import PalletState.

(** The privileged origins of [Config]. *)
Class PrivilegedOrigins (Origin : Type) := {
  ManagerOrigin : Origin -> bool;
  ContractRegisterOrigin : Origin -> bool;
  ContractUnregisterOrigin : Origin -> bool;
}.

(** The order in which the storage backend enumerates the keys under a
    prefix; [clear_prefix] with a limit removes the first ones. *)
Class PrefixOrder (AccountId : Type) `{Countable AccountId} := {
  prefix_keys : gmap (SmartContract AccountId) SingularStakingInfo ->
                list (SmartContract AccountId);
}.

(** [ensure!(b, err)] for a rejected origin. *)
Definition ensure_origin (b : bool) : Result unit DispatchError :=
  if b then Ok tt else Err BadOrigin.

(** An entry without a bonus reward that can still be claimed. *)
Definition is_expired (current_period threshold_period : Z) (i : SingularStakingInfo) : Prop :=
  (SingularStakingInfo.period_number i < current_period /\ is_loyal i = false) \/
  SingularStakingInfo.period_number i < threshold_period.

#[export] Instance is_expired_dec cp tp i : Decision (is_expired cp tp i).
Proof. unfold is_expired. apply _. Defined.

Section calls.
Context {AccountId Origin W : Type} `{Countable AccountId}.
Context `{!SpArithmetic, !Currency AccountId W, !FrameSystem AccountId Origin W}.
Context `{!Observer W, !StakingRewardHandler AccountId W, !AccountCheck AccountId W}.
Context `{!PrivilegedOrigins Origin, !PrefixOrder AccountId}.
Context (cfg : Config).

Abbreviation Contract := (SmartContract AccountId).
Abbreviation St := (Storage AccountId W).
Abbreviation Dispatch := (Result St DispatchError).

Definition signed (origin : Origin) : Result AccountId DispatchError :=
  ok_or (ensure_signed origin) BadOrigin.

(** ** Registration of dApps *)

Definition maintenance_mode (origin : Origin) (enabled : bool) (s : St) : Dispatch :=
  let! _ := ensure_origin (ManagerOrigin origin) in
  Ok (set_maintenance_mode enabled s).

Definition register (origin : Origin) (owner : AccountId) (c : Contract) (s : St) : Dispatch :=
  let! _ := ensure_pallet_enabled s in
  let! _ := ensure_origin (ContractRegisterOrigin origin) in
  guard! negb (bool_decide (is_Some (IntegratedDApps s !! c))) else ContractAlreadyExists in
  guard! (Z.of_nat (size (IntegratedDApps s)) <? MaxNumberOfContracts cfg)
    else ExceededMaxNumberOfContracts in
  let dapp_id := NextDAppId s in
  guard! (dapp_id <? u16_max) else NewDAppIdUnavailable in
  let s := put_dapps (sat_add u16_max dapp_id 1)
             (<[c := mkDAppInfo owner dapp_id None]> (IntegratedDApps s)) s in
  Ok (deposit_event (DAppRegistered owner c dapp_id) s).

Definition set_dapp_reward_beneficiary (origin : Origin) (c : Contract)
    (beneficiary : option AccountId) (s : St) : Dispatch :=
  let! _ := ensure_pallet_enabled s in
  let! dev_account := signed origin in
  let! d := ok_or (IntegratedDApps s !! c) (Module ContractNotFound) in
  guard! bool_decide (owner d = dev_account) else OriginNotOwner in
  let s := put_dapps (NextDAppId s)
             (<[c := mkDAppInfo (owner d) (id d) beneficiary]> (IntegratedDApps s)) s in
  Ok (deposit_event (DAppRewardDestinationUpdated c beneficiary) s).

Definition set_dapp_owner (origin : Origin) (c : Contract) (new_owner : AccountId) (s : St)
    : Dispatch :=
  let! _ := ensure_pallet_enabled s in
  let! origin := ok_or (ensure_signed_or_root origin) BadOrigin in
  let! d := ok_or (IntegratedDApps s !! c) (Module ContractNotFound) in
  guard! (match origin with
           | Some caller => bool_decide (owner d = caller)
           | None => true
           end) else OriginNotOwner in
  let s := put_dapps (NextDAppId s)
             (<[c := mkDAppInfo new_owner (id d) (reward_beneficiary d)]> (IntegratedDApps s)) s in
  Ok (deposit_event (DAppOwnerChanged c new_owner) s).

Definition unregister (origin : Origin) (c : Contract) (s : St) : Dispatch :=
  let! _ := ensure_pallet_enabled s in
  let! _ := ensure_origin (ContractUnregisterOrigin origin) in
  let! d := ok_or (IntegratedDApps s !! c) (Module ContractNotFound) in
  let s := put_contract_stake (delete (id d) (ContractStake s)) s in
  let s := put_dapps (NextDAppId s) (delete c (IntegratedDApps s)) s in
  Ok (deposit_event (DAppUnregistered c (era (ActiveProtocolState s))) s).

(** ** Locking and unlocking *)

Definition lock (origin : Origin) (amount : Z) (s : St) : Dispatch :=
  let! _ := ensure_pallet_enabled s in
  let! account := signed origin in
  let ledger := ledger_of s account in
  let is_new_account := AccountLedger.is_empty ledger in
  guard! negb is_new_account || allowed_to_stake (world s) account
    else AccountNotAvailableForDappStaking in
  let available_balance :=
    sat_sub (total_balance (world s) account) (total_locked_amount ledger) in
  let amount_to_lock := Z.min available_balance amount in
  guard! negb (amount_to_lock =? 0) else ZeroAmount in
  let ledger := add_lock_amount amount_to_lock ledger in
  guard! (MinimumLockedAmount cfg <=? active_locked_amount ledger)
    else LockedAmountBelowThreshold in
  let! s := update_ledger account ledger s in
  let s := put_era_info (add_locked amount_to_lock (CurrentEraInfo s)) s in
  Ok (deposit_event (Locked account amount_to_lock) s).

Definition unlock (origin : Origin) (amount : Z) (s : St) : Dispatch :=
  let! _ := ensure_pallet_enabled s in
  let! account := signed origin in
  let state := ActiveProtocolState s in
  let ledger := ledger_of s account in
  let available_for_unlocking := unlockable_amount ledger (number (period_info state)) in
  let amount_to_unlock := Z.min available_for_unlocking amount in
  let remaining_amount := sat_sub (active_locked_amount ledger) amount_to_unlock in
  let! amount_to_unlock :=
    (if remaining_amount <? MinimumLockedAmount cfg then
       guard! (AccountLedger.staked_amount ledger (number (period_info state)) =? 0)
         else RemainingStakePreventsFullUnlock in
       Ok (active_locked_amount ledger)
     else Ok amount_to_unlock) in
  guard! negb (amount_to_unlock =? 0) else ZeroAmount in
  let ledger := subtract_lock_amount amount_to_unlock ledger in
  let current_block := block_number (world s) in
  let unlock_block := sat_add u32_max current_block (unlocking_period cfg) in
  let! ledger := map_err (fun _ => Module TooManyUnlockingChunks)
    (add_unlocking_chunk (MaxUnlockingChunks cfg) amount_to_unlock unlock_block ledger) in
  let! s := update_ledger account ledger s in
  let s := put_era_info (unlocking_started amount_to_unlock (CurrentEraInfo s)) s in
  Ok (deposit_event (Unlocking account amount_to_unlock) s).

(** [unbond_and_unstake]: the legacy name of [unlock]. *)
Definition unbond_and_unstake (origin : Origin) (c : Contract) (value : Z) (s : St) : Dispatch :=
  unlock origin value s.

(** [StakerInfo::clear_prefix(account, limit, None)]. *)
Definition clear_prefix (account : AccountId) (limit : Z) (s : St) : St :=
  let m := stakers_of s account in
  put_stakers_of account
    (foldl (fun m c => delete c m) m (take (Z.to_nat limit) (prefix_keys m))) s.

Definition internal_claim_unlocked (account : AccountId) (s : St) : Dispatch :=
  let '(amount, ledger) :=
    AccountLedger.claim_unlocked (saturated_into u32_max (block_number (world s))) (ledger_of s account) in
  guard! (0 <? amount) else NoUnlockedChunksToClaim in
  let s :=
    if AccountLedger.is_empty ledger
    then clear_prefix account (contract_stake_count ledger) s else s in
  let! s := update_ledger account ledger s in
  let s := put_era_info (unlocking_removed amount (CurrentEraInfo s)) s in
  Ok (deposit_event (ClaimedUnlocked account amount) s).

Definition claim_unlocked (origin : Origin) (s : St) : Dispatch :=
  let! _ := ensure_pallet_enabled s in
  let! account := signed origin in
  internal_claim_unlocked account s.

(** [withdraw_unbonded]: the legacy name of [claim_unlocked]. *)
Definition withdraw_unbonded (origin : Origin) (s : St) : Dispatch := claim_unlocked origin s.

Definition relock_unlocking (origin : Origin) (s : St) : Dispatch :=
  let! _ := ensure_pallet_enabled s in
  let! account := signed origin in
  let ledger := ledger_of s account in
  guard! negb (bool_decide (unlocking ledger = [])) else NoUnlockingChunks in
  let '(amount, ledger) := consume_unlocking_chunks ledger in
  let ledger := add_lock_amount amount ledger in
  guard! (MinimumLockedAmount cfg <=? active_locked_amount ledger)
    else LockedAmountBelowThreshold in
  let! s := update_ledger account ledger s in
  let s := put_era_info (unlocking_removed amount (add_locked amount (CurrentEraInfo s))) s in
  Ok (deposit_event (Relock account amount) s).

(** ** Staking *)

(** [map_err] of the ledger error in [stake], [unstake] and
    [unstake_from_unregistered]. *)
Definition stake_error (err : AccountLedgerError) : DispatchError :=
  match err with
  | AccountLedger.InvalidPeriod | AccountLedger.InvalidEra => Module UnclaimedRewards
  | AccountLedger.UnavailableStakeFunds => Module UnavailableStakeFunds
  | _ => Module InternalStakeError
  end.
Definition unstake_error (err : AccountLedgerError) : DispatchError :=
  match err with
  | AccountLedger.InvalidPeriod | AccountLedger.InvalidEra => Module UnclaimedRewards
  | AccountLedger.UnstakeAmountLargerThanStake => Module UnstakeAmountTooLarge
  | _ => Module InternalUnstakeError
  end.
Definition unstake_unregistered_error (err : AccountLedgerError) : DispatchError :=
  match err with
  | AccountLedger.InvalidPeriod | AccountLedger.InvalidEra => Module UnclaimedRewards
  | _ => Module InternalUnstakeError
  end.

(** Step 2 of [stake]: the staking entry to update, and whether it is new. *)
Definition entry_to_stake (state : ProtocolState) (threshold_period : Z)
    (entry : option SingularStakingInfo) : Result (SingularStakingInfo * bool) DispatchError :=
  let fresh := (SingularStakingInfo.new (Protocol.period_number state) (current_subperiod state), true) in
  match entry with
  | Some i =>
      if SingularStakingInfo.period_number i =? Protocol.period_number state then Ok (i, false)
      else if (threshold_period <=? SingularStakingInfo.period_number i) && is_loyal i
      then Err (Module UnclaimedRewards)
      else Ok fresh
  | None => Ok fresh
  end.

Definition stake (origin : Origin) (c : Contract) (amount : Z) (s : St) : Dispatch :=
  let! _ := ensure_pallet_enabled s in
  let! account := signed origin in
  guard! (0 <? amount) else ZeroAmount in
  let! dapp_info := ok_or (IntegratedDApps s !! c) (Module ContractNotFound) in
  let state := ActiveProtocolState s in
  let current_era := era state in
  guard! negb (is_next_period (period_info state) (sat_add u32_max current_era 1))
    else PeriodEndsInNextEra in
  let ledger := ledger_of s account in
  let threshold_period := oldest_claimable_period cfg (Protocol.period_number state) in
  let ledger := snd (maybe_cleanup_expired threshold_period ledger) in
  (* 1 *)
  let! ledger := map_err stake_error
    (AccountLedger.add_stake_amount amount current_era (period_info state) ledger) in
  (* 2 *)
  let! (info, is_new_entry) := entry_to_stake state threshold_period (staker_info s account c) in
  let new_staking_info :=
    SingularStakingInfo.stake amount current_era (current_subperiod state) info in
  guard! (MinimumStakeAmount cfg <=? SingularStakingInfo.total_staked_amount new_staking_info)
    else InsufficientStakeAmount in
  let ledger :=
    if is_new_entry
    then set_contract_stake_count (sat_add u32_max (contract_stake_count ledger) 1) ledger
    else ledger in
  guard! (negb is_new_entry || (contract_stake_count ledger <=? MaxNumberOfStakedContracts cfg))
    else TooManyStakedContracts in
  (* 3 *)
  let contract_stake_info :=
    ContractStakeAmount.stake amount (period_info state) current_era
      (contract_stake_of s (id dapp_info)) in
  (* 4 *)
  let s := put_era_info
             (EraInfo.add_stake_amount amount (current_subperiod state) (CurrentEraInfo s)) s in
  (* 5 *)
  let! s := update_ledger account ledger s in
  let s := insert_staker_info account c new_staking_info s in
  let s := put_contract_stake (<[id dapp_info := contract_stake_info]> (ContractStake s)) s in
  Ok (deposit_event (Stake account c amount) s).

(** The amount [unstake] takes: everything when less than the minimum would
    remain. *)
Definition amount_to_unstake (i : SingularStakingInfo) (amount : Z) : Z :=
  let total := SingularStakingInfo.total_staked_amount i in
  if sat_sub total amount <? MinimumStakeAmount cfg then total else amount.

Definition unstake (origin : Origin) (c : Contract) (amount : Z) (s : St) : Dispatch :=
  let! _ := ensure_pallet_enabled s in
  let! account := signed origin in
  guard! (0 <? amount) else ZeroAmount in
  let! dapp_info := ok_or (IntegratedDApps s !! c) (Module ContractNotFound) in
  let state := ActiveProtocolState s in
  let current_era := era state in
  let ledger := ledger_of s account in
  (* 1 *)
  let! staking_info := ok_or (staker_info s account c) (Module NoStakingInfo) in
  guard! (SingularStakingInfo.period_number staking_info =? Protocol.period_number state)
    else UnstakeFromPastPeriod in
  guard! (amount <=? SingularStakingInfo.total_staked_amount staking_info)
    else UnstakeAmountTooLarge in
  let amount := amount_to_unstake staking_info amount in
  let '(era_and_amount_pairs, new_staking_info) :=
    SingularStakingInfo.unstake amount current_era (current_subperiod state) staking_info in
  (* 2 *)
  let! ledger := map_err unstake_error
    (AccountLedger.unstake_amount amount current_era (period_info state) ledger) in
  (* 3 *)
  let contract_stake_info :=
    ContractStakeAmount.unstake era_and_amount_pairs (period_info state) current_era
      (contract_stake_of s (id dapp_info)) in
  (* 4 *)
  let s := put_era_info (EraInfo.unstake_amount amount (CurrentEraInfo s)) s in
  (* 5 *)
  let s := put_contract_stake (<[id dapp_info := contract_stake_info]> (ContractStake s)) s in
  let '(ledger, s) :=
    if SingularStakingInfo.is_empty new_staking_info
    then (set_contract_stake_count (sat_sub (contract_stake_count ledger) 1) ledger,
          remove_staker_info account c s)
    else (ledger, insert_staker_info account c new_staking_info s) in
  let! s := update_ledger account ledger s in
  Ok (deposit_event (Unstake account c amount) s).

Definition unstake_from_unregistered (origin : Origin) (c : Contract) (s : St) : Dispatch :=
  let! _ := ensure_pallet_enabled s in
  let! account := signed origin in
  guard! negb (bool_decide (is_Some (IntegratedDApps s !! c))) else ContractStillActive in
  let state := ActiveProtocolState s in
  let! staking_info := ok_or (staker_info s account c) (Module NoStakingInfo) in
  guard! (SingularStakingInfo.period_number staking_info =? Protocol.period_number state)
    else UnstakeFromPastPeriod in
  let amount := SingularStakingInfo.total_staked_amount staking_info in
  let! ledger := map_err unstake_unregistered_error
    (AccountLedger.unstake_amount amount (era state) (period_info state) (ledger_of s account)) in
  let s := put_era_info (EraInfo.unstake_amount amount (CurrentEraInfo s)) s in
  let! s := update_ledger account ledger s in
  let s := remove_staker_info account c s in
  Ok (deposit_event (UnstakeFromUnregistered account c amount) s).

Definition cleanup_expired_entries (origin : Origin) (s : St) : Dispatch :=
  let! _ := ensure_pallet_enabled s in
  let! account := signed origin in
  let current_period := Protocol.period_number (ActiveProtocolState s) in
  let threshold_period := oldest_claimable_period cfg current_period in
  let to_be_deleted : list Contract :=
    fst <$> filter (fun kv => is_expired current_period threshold_period (snd kv))
              (map_to_list (stakers_of s account)) in
  let entries_to_delete := Z.of_nat (length to_be_deleted) in
  guard! negb (entries_to_delete =? 0) else NoExpiredEntries in
  let s := put_stakers_of account
             (foldl (fun m c => delete c m) (stakers_of s account) to_be_deleted) s in
  let ledger := ledger_of s account in
  let ledger :=
    set_contract_stake_count
      (sat_sub (contract_stake_count ledger) (saturated_into u32_max entries_to_delete)) ledger in
  let ledger := snd (maybe_cleanup_expired threshold_period ledger) in
  let! s := update_ledger account ledger s in
  Ok (deposit_event
        (ExpiredEntriesRemoved account (saturated_into u16_max entries_to_delete)) s).

(** ** Claiming rewards *)

(** One round of the reward loop: the accumulated rewards per era and their
    sum, extended by the reward of one era. *)
Definition staker_reward_step (era_rewards : EraRewardSpan)
    (acc : Result (list (Z * Z) * Z) DispatchError) (pair : Z * Z)
    : Result (list (Z * Z) * Z) DispatchError :=
  let! (rewards, reward_sum) := acc in
  let '(era, amount) := pair in
  let! era_reward := ok_or (EraRewardSpan.get era_rewards era) (Module InternalClaimStakerError) in
  if (amount =? 0) || (EraRewardSpan.staked era_reward =? 0) then Ok (rewards, reward_sum)
  else
    let staker_reward :=
      perbill_mul (perbill_from_rational amount (EraRewardSpan.staked era_reward))
        (staker_reward_pool era_reward) in
    Ok (rewards ++ [(era, staker_reward)], sat_add u128_max reward_sum staker_reward).

Definition claim_error (err : AccountLedgerError) : DispatchError :=
  match err with
  | NothingToClaim => Module NoClaimableRewards
  | _ => Module InternalClaimStakerError
  end.

(** The last era rewards can be claimed for, and the end of the period when
    it is known. *)
Definition claim_span (s : St) (staked_period : Z) : Result (Z * option Z) DispatchError :=
  let state := ActiveProtocolState s in
  if staked_period =? Protocol.period_number state then Ok (sat_sub (era state) 1, None)
  else
    let! info := ok_or (PeriodEnd s !! staked_period) (Module InternalClaimStakerError) in
    Ok (final_era info, Some (final_era info)).

Definition internal_claim_staker_rewards_for (account : AccountId) (s : St) : Dispatch :=
  let ledger := ledger_of s account in
  let! staked_period := ok_or (staked_period ledger) (Module NoClaimableRewards) in
  let state := ActiveProtocolState s in
  guard! (oldest_claimable_period cfg (Protocol.period_number state) <=? staked_period)
    else RewardExpired in
  let! earliest_staked_era := ok_or (earliest_staked_era ledger) (Module InternalClaimStakerError) in
  let! era_rewards := ok_or (EraRewards s !! era_reward_span_index cfg earliest_staked_era)
                        (Module NoClaimableRewards) in
  let! (last_period_era, period_end) := claim_span s staked_period in
  let last_claim_era := Z.min (last_era era_rewards) last_period_era in
  let! (rewards_iter, ledger) :=
    map_err claim_error (claim_up_to_era last_claim_era period_end ledger) in
  let! pairs := ok_or (iter_collect (iter_fuel rewards_iter) rewards_iter) NonTermination in
  let! (rewards, reward_sum) := foldl (staker_reward_step era_rewards) (Ok ([], 0)) pairs in
  let! w := ok_or (payout_reward (world s) account reward_sum) (Module RewardPayoutFailed) in
  let! s := update_ledger account ledger (put_world w s) in
  Ok (foldl (fun s '(era, reward) => deposit_event (Reward account era reward) s) s rewards).

Definition claim_staker_rewards (origin : Origin) (s : St) : Dispatch :=
  let! _ := ensure_pallet_enabled s in
  let! account := signed origin in
  internal_claim_staker_rewards_for account s.

Definition claim_staker_rewards_for (origin : Origin) (account : AccountId) (s : St) : Dispatch :=
  let! _ := ensure_pallet_enabled s in
  let! _ := signed origin in
  internal_claim_staker_rewards_for account s.

Definition internal_claim_bonus_reward_for (account : AccountId) (c : Contract) (s : St)
    : Dispatch :=
  let! info := ok_or (staker_info s account c) (Module NoClaimableRewards) in
  let state := ActiveProtocolState s in
  let staked_period := SingularStakingInfo.period_number info in
  guard! (staked_period <? Protocol.period_number state) else NoClaimableRewards in
  guard! is_loyal info else NotEligibleForBonusReward in
  guard! (oldest_claimable_period cfg (Protocol.period_number state) <=? staked_period)
    else RewardExpired in
  let! period_end_info := ok_or (PeriodEnd s !! staked_period) (Module InternalClaimBonusError) in
  guard! negb (total_vp_stake period_end_info =? 0) else InternalClaimBonusError in
  let eligible_amount := SingularStakingInfo.staked_amount info Voting in
  let bonus_reward :=
    perbill_mul (perbill_from_rational eligible_amount (total_vp_stake period_end_info))
      (Protocol.bonus_reward_pool period_end_info) in
  let! w := ok_or (payout_reward (world s) account bonus_reward) (Module RewardPayoutFailed) in
  let s := remove_staker_info account c (put_world w s) in
  let ledger := ledger_of s account in
  let s := put_ledger
    (<[account := set_contract_stake_count (sat_sub (contract_stake_count ledger) 1) ledger]>
       (Ledger s)) s in
  Ok (deposit_event (BonusReward account c staked_period bonus_reward) s).

Definition claim_bonus_reward (origin : Origin) (c : Contract) (s : St) : Dispatch :=
  let! _ := ensure_pallet_enabled s in
  let! account := signed origin in
  internal_claim_bonus_reward_for account c s.

Definition claim_bonus_reward_for (origin : Origin) (account : AccountId) (c : Contract) (s : St)
    : Dispatch :=
  let! _ := ensure_pallet_enabled s in
  let! _ := signed origin in
  internal_claim_bonus_reward_for account c s.

Definition tier_error (err : DAppTierError) : DispatchError :=
  match err with
  | NoDAppInTiers => Module NoClaimableRewards
  | InternalError => Module InternalClaimDAppError
  end.

Definition claim_dapp_reward (origin : Origin) (c : Contract) (era : Z) (s : St) : Dispatch :=
  let! _ := ensure_pallet_enabled s in
  let! _ := signed origin in
  let! dapp_info := ok_or (IntegratedDApps s !! c) (Module ContractNotFound) in
  let state := ActiveProtocolState s in
  guard! (era <? Protocol.era state) else InvalidClaimEra in
  let! dapp_tiers := ok_or (DAppTiers s !! era) (Module NoDAppTierInfo) in
  guard! (oldest_claimable_period cfg (Protocol.period_number state) <=? Tiers.period dapp_tiers)
    else RewardExpired in
  let! (amount, ranked_tier, dapp_tiers) :=
    map_err tier_error (try_claim (id dapp_info) dapp_tiers) in
  let '(tier_id, rank) := deconstruct ranked_tier in
  let beneficiary := reward_destination dapp_info in
  let! w := ok_or (payout_reward (world s) beneficiary amount) (Module RewardPayoutFailed) in
  let s := put_dapp_tiers (<[era := dapp_tiers]> (DAppTiers s)) (put_world w s) in
  Ok (deposit_event (DAppReward beneficiary c tier_id rank era amount) s).

(** ** Forcing *)

Definition notify_block_before_new_era (state : ProtocolState) (w : W) : W :=
  block_before_new_era w (sat_add u32_max (era state) 1).

Definition force (origin : Origin) (forcing_type : ForcingType) (s : St) : Dispatch :=
  let! _ := ensure_pallet_enabled s in
  let! _ := ensure_origin (ensure_root origin) in
  guard! negb (Safeguard s) else ForceNotAllowed in
  let state := ActiveProtocolState s in
  let state := set_next_era_start (sat_add u32_max (block_number (world s)) 1) state in
  let state :=
    match forcing_type with
    | ForceEra => state
    | ForceSubperiod => set_next_subperiod_start_era (sat_add u32_max (era state) 1) state
    end in
  let s := put_world (notify_block_before_new_era state (world s)) (put_state state s) in
  Ok (deposit_event (Force forcing_type) s).
End calls.
