(* ===== verification/TierAssignment.v ===== *)
(** * Assignment of dApps to tiers

    [get_dapp_tier_assignment_and_rewards] of
    [pallets/dapp-staking/src/lib.rs]. *)

From S2P Require Import Prelude Frame Primitives StakeAmount ContractStakeAmount Tiers Protocol.
From S2P Require Import PalletState.

(** The order in which a hashed map is enumerated, and the order
    [sort_unstable_by] leaves equal amounts in, are not determined by the
    code. *)
Class UnspecifiedOrder := {
  contract_stake_iter : gmap Z ContractStakeAmount -> list (Z * ContractStakeAmount);
  sort_by_amount_desc : list (Z * Z) -> list (Z * Z);
}.

Class UnspecifiedOrderLaws `{UnspecifiedOrder} : Prop := {
  contract_stake_iter_perm m : contract_stake_iter m ≡ₚ map_to_list m;
  sort_by_amount_desc_perm l : sort_by_amount_desc l ≡ₚ l;
  sort_by_amount_desc_sorted l :
    StronglySorted (fun x y => snd y <= snd x) (sort_by_amount_desc l);
}.

(** [Iterator::take_while]. *)
Fixpoint take_while {A} (f : A -> bool) (l : list A) : list A :=
  match l with
  | [] => []
  | x :: l => if f x then x :: take_while f l else []
  end.

Section assignment.
Context `{!SpArithmetic} {AccountId W : Type} `{Countable AccountId, !UnspecifiedOrder}.
Context (cfg : Config).

(** Step 1: the dApps with a stake in the era, and the number of entries read. *)
Definition staked_dapps (m : gmap Z ContractStakeAmount) (era period : Z) : list (Z * Z) :=
  omap (fun '(dapp_id, c) =>
          match ContractStakeAmount.get c era period with
          | Some s => if total s =? 0 then None else Some (dapp_id, total s)
          | None => None
          end) (contract_stake_iter m).

(** Step 3: the reward of one slot of each tier. *)
Definition slot_rewards (c : TiersConfiguration) (dapp_reward_pool : Z) : list Z :=
  zip_with (fun percent slots =>
              if slots =? 0 then 0 else permill_mul percent dapp_reward_pool / slots)
    (reward_portion c) (slots_per_tier c).

(** Step 4, one tier: the dApps that get into it, with their ranks. *)
Definition fill_tier (dapp_stakes : list (Z * Z)) (assigned : nat)
    (tier_id capacity lower_bound upper_bound : Z) : gmap Z Z :=
  foldl (fun m '(dapp_id, staked_amount) =>
           let rank := if RankingEnabled cfg
                       then find_rank lower_bound upper_bound staked_amount else 0 in
           <[dapp_id := new_saturated (tier_id mod 256) rank]> m)
    ∅
    (take (Z.to_nat capacity)
       (take_while (fun x => lower_bound <=? snd x) (drop assigned dapp_stakes))).

Definition ranks_sum (tier_slots : gmap Z Z) : Z :=
  foldl (fun accum x => sat_add u32_max accum (rank (snd x))) 0 (map_to_list tier_slots).

(** Step 4, one tier: the reward of one rank. *)
Definition tier_reward_per_rank (tier_slots : gmap Z Z) (capacity tier_reward : Z) : Z :=
  let ranks_sum := ranks_sum tier_slots in
  if ranks_sum =? 0 then 0
  else
    let empty_slots := sat_sub capacity (Z.of_nat (size tier_slots) mod 65536) in
    let remaining_reward := sat_mul u128_max tier_reward empty_slots in
    let reward_per_rank := sat_div tier_reward MAX_RANK in
    let expected_reward_for_ranks := sat_mul u128_max reward_per_rank ranks_sum in
    let reward_for_ranks := Z.min expected_reward_for_ranks remaining_reward in
    sat_div reward_for_ranks ranks_sum.

(** Step 4, the loop over the tiers. *)
Fixpoint assign_tiers (dapp_stakes : list (Z * Z)) (tier_rewards : list Z)
    (tiers : list (Z * Z)) (tier_id upper_bound : Z)
    (dapp_tiers : gmap Z Z) (rank_rewards : list Z) : gmap Z Z * list Z :=
  match tiers with
  | [] => (dapp_tiers, rank_rewards)
  | (capacity, lower_bound) :: tiers =>
      let tier_slots :=
        fill_tier dapp_stakes (size dapp_tiers) tier_id capacity lower_bound upper_bound in
      let reward := tier_reward_per_rank tier_slots capacity (get_or_zero tier_rewards tier_id) in
      assign_tiers dapp_stakes tier_rewards tiers (tier_id + 1) lower_bound
        (tier_slots ∪ dapp_tiers) (rank_rewards ++ [reward])
  end.

Definition get_dapp_tier_assignment_and_rewards (era period dapp_reward_pool : Z)
    (s : Storage AccountId W) : DAppTierRewards * Z :=
  (* 1 *)
  let dapp_stakes := staked_dapps (ContractStake s) era period in
  let counter := foldl (fun n _ => sat_add u16_max n 1) 0 (contract_stake_iter (ContractStake s)) in
  (* 2 *)
  let dapp_stakes := sort_by_amount_desc dapp_stakes in
  (* 3 *)
  let tier_config := TierConfig s in
  let tier_rewards := slot_rewards tier_config dapp_reward_pool in
  (* 4 *)
  let '(dapp_tiers, rank_rewards) :=
    assign_tiers dapp_stakes tier_rewards
      (zip (slots_per_tier tier_config) (tier_thresholds tier_config)) 0 0 ∅ [] in
  (* 5 *)
  (match tier_rewards_new (MaxNumberOfContracts cfg) (NumberOfTiers cfg)
           dapp_tiers tier_rewards period rank_rewards with
   | Ok t => t
   | Err _ => default_tier_rewards
   end, counter).

Definition get_dapp_tier_assignment (s : Storage AccountId W) : gmap Z Z :=
  let state := ActiveProtocolState s in
  dapps (fst (get_dapp_tier_assignment_and_rewards (era state) (Protocol.period_number state) 0 s)).
End assignment.

(** ** Reference definition: one list of entries per tier *)

Section reference.
Context (cfg : Config).

(** The dApps of one tier, and the entry each gets. *)
Definition tier_segment (stakes : list (Z * Z)) (n : nat) (capacity lower_bound : Z)
    : list (Z * Z) :=
  take (Z.to_nat capacity) (take_while (fun x => lower_bound <=? snd x) (drop n stakes)).

Definition tier_entry (tier_id lower_bound upper_bound : Z) (x : Z * Z) : Z * Z :=
  (fst x, new_saturated (tier_id mod 256)
            (if RankingEnabled cfg then find_rank lower_bound upper_bound (snd x) else 0)).

Fixpoint tier_entries (stakes : list (Z * Z)) (tiers : list (Z * Z)) (tier_id upper_bound : Z)
    (n : nat) : list (list (Z * Z)) :=
  match tiers with
  | [] => []
  | (capacity, lower_bound) :: tiers =>
      let seg := tier_segment stakes n capacity lower_bound in
      (tier_entry tier_id lower_bound upper_bound <$> seg)
        :: tier_entries stakes tiers (tier_id + 1) lower_bound (n + length seg)
  end.

Lemma take_while_take {A} (f : A -> bool) l : take_while f l = take (length (take_while f l)) l.
Proof. induction l as [|x l IH]; simpl; [done|]. destruct (f x); simpl; [by f_equal|done]. Qed.

Lemma take_while_all {A} (f : A -> bool) l x : x ∈ take_while f l -> f x = true.
Proof.
  induction l as [|y l IH]; simpl; [by intros ?%elem_of_nil|].
  destruct (f y) eqn:Hf; [|by intros ?%elem_of_nil].
  intros [->|?]%elem_of_cons; auto.
Qed.

Lemma tier_segment_take stakes n cap lo :
  tier_segment stakes n cap lo = take (length (tier_segment stakes n cap lo)) (drop n stakes).
Proof.
  unfold tier_segment. rewrite (take_while_take _ (drop n stakes)) at 1. rewrite take_take.
  rewrite length_take. f_equal.
Qed.

Lemma tier_segment_length stakes n cap lo :
  0 <= cap -> Z.of_nat (length (tier_segment stakes n cap lo)) <= cap.
Proof. intros. unfold tier_segment. rewrite length_take. lia. Qed.

Lemma tier_segment_elem stakes n cap lo x :
  x ∈ tier_segment stakes n cap lo -> x ∈ drop n stakes /\ lo <= snd x.
Proof.
  intros Hx. split.
  - rewrite tier_segment_take in Hx. by apply (subseteq_take (length (tier_segment stakes n cap lo))).
  - unfold tier_segment in Hx. apply subseteq_take in Hx. apply take_while_all in Hx. lia.
Qed.

(** Inserting a list of fresh entries one by one. *)
Lemma foldl_insert_list (g : Z * Z -> Z * Z) l (m : gmap Z Z) :
  NoDup (fst <$> (g <$> l)) ->
  foldl (fun m x => <[fst (g x) := snd (g x)]> m) m l = list_to_map (g <$> l) ∪ m.
Proof.
  revert m. induction l as [|x l IH]; intros m Hnd; simpl.
  - by rewrite (left_id_L ∅ (∪)).
  - inversion Hnd; subst. rewrite IH by done.
    destruct (g x) as [k v] eqn:Hg. simpl in *. rewrite <- insert_union_r, insert_union_l; [done|].
    by apply not_elem_of_list_to_map_1.
Qed.

Lemma fill_tier_eq stakes n tid cap lo ub :
  NoDup (fst <$> stakes) ->
  fill_tier cfg stakes n tid cap lo ub =
    list_to_map (tier_entry tid lo ub <$> tier_segment stakes n cap lo).
Proof.
  intros Hnd.
  rewrite <- (right_id_L ∅ (∪) (list_to_map _)), <- foldl_insert_list.
  - unfold fill_tier, tier_segment, tier_entry. apply foldl_ext.
    by intros m [id a].
  - rewrite <- list_fmap_compose. unfold compose, tier_entry. simpl.
    rewrite tier_segment_take. rewrite fmap_take, fmap_drop.
    eapply sublist_NoDup; [exact Hnd|]. etrans; [apply sublist_take|apply sublist_drop].
Qed.

Fixpoint rank_list (segs : list (list (Z * Z))) (tiers : list (Z * Z)) (tier_rewards : list Z)
    (tier_id : Z) : list Z :=
  match segs, tiers with
  | seg :: segs, (capacity, _) :: tiers =>
      tier_reward_per_rank (list_to_map seg) capacity (get_or_zero tier_rewards tier_id)
        :: rank_list segs tiers tier_rewards (tier_id + 1)
  | _, _ => []
  end.

(** The entries assigned so far are those of the first dApps, in order. *)
Definition covers (stakes es : list (Z * Z)) : Prop :=
  fst <$> es = fst <$> take (length es) stakes.

Lemma covers_app stakes es cap lo tid ub :
  covers stakes es ->
  covers stakes (es ++ (tier_entry tid lo ub <$> tier_segment stakes (length es) cap lo)).
Proof.
  unfold covers. intros Hes. rewrite fmap_app, length_app, length_fmap, Hes.
  rewrite <- list_fmap_compose. unfold compose, tier_entry. simpl.
  rewrite tier_segment_take at 1. rewrite <- fmap_app. f_equal. apply take_take_drop.
Qed.

Lemma covers_NoDup stakes es : NoDup (fst <$> stakes) -> covers stakes es -> NoDup (fst <$> es).
Proof.
  intros Hnd ->. rewrite fmap_take. eapply sublist_NoDup; [exact Hnd|apply sublist_take].
Qed.

Lemma covers_size stakes es :
  NoDup (fst <$> stakes) -> covers stakes es -> size (list_to_map es : gmap Z Z) = length es.
Proof.
  intros Hnd Hc. rewrite map_size_list_to_map by by eapply covers_NoDup. done.
Qed.

Lemma assign_tiers_eq stakes rw tiers tid ub es rr :
  NoDup (fst <$> stakes) -> covers stakes es ->
  let segs := tier_entries stakes tiers tid ub (length es) in
  covers stakes (es ++ concat segs) /\
  assign_tiers cfg stakes rw tiers tid ub (list_to_map es) rr =
    (list_to_map (es ++ concat segs), rr ++ rank_list segs tiers rw tid).
Proof.
  intros Hnd. revert tid ub es rr.
  induction tiers as [|[cap lo] tiers IH]; intros tid ub es rr Hc; simpl.
  { by rewrite !(right_id_L [] (++)). }
  pose proof (covers_app stakes es cap lo tid ub Hc) as Hc'.
  set (seg := tier_entry tid lo ub <$> tier_segment stakes (length es) cap lo) in *.
  rewrite (covers_size stakes) by done. rewrite fill_tier_eq by done. fold seg.
  assert (Hun : (list_to_map seg ∪ list_to_map es : gmap Z Z) = list_to_map (es ++ seg)).
  { rewrite list_to_map_app. symmetry. apply map_union_comm.
    apply map_disjoint_list_to_map_l, Forall_forall. intros [k v] Hk.
    apply not_elem_of_list_to_map_1. simpl. intros Hk'.
    pose proof (covers_NoDup _ _ Hnd Hc') as Hnd'. rewrite fmap_app in Hnd'.
    apply NoDup_app in Hnd' as (_ & Hd & _). apply (Hd k); [|done].
    by apply (list_elem_of_fmap_2 fst) in Hk. }
  rewrite Hun.
  destruct (IH (tid + 1) lo (es ++ seg) (rr ++ [tier_reward_per_rank (list_to_map seg) cap
    (get_or_zero rw tid)]) Hc') as [Hcov Heq].
  rewrite length_app in Hcov, Heq. subst seg. rewrite length_fmap in Hcov, Heq.
  rewrite Heq. rewrite <- !(assoc_L (++)) in *. done.
Qed.

Lemma tier_entry_spec t lo ub x :
  0 <= t <= 15 -> 0 <= lo <= snd x ->
  tier (snd (tier_entry t lo ub x)) = t /\
  0 <= rank (snd (tier_entry t lo ub x)) <= MAX_RANK.
Proof.
  intros Ht Hlo. unfold tier_entry. simpl.
  set (r := if RankingEnabled cfg then _ else 0).
  assert (0 <= r <= MAX_RANK).
  { subst r. destruct (RankingEnabled cfg); [by apply find_rank_range|unfold MAX_RANK; lia]. }
  pose proof (new_saturated_deconstruct (t mod 256) r) as Hd.
  rewrite Z.mod_small in * by lia. unfold deconstruct in Hd. unfold MAX_RANK in *.
  specialize (Hd ltac:(lia) ltac:(lia)). injection Hd as -> ->. lia.
Qed.

(** Each tier's entries: within capacity, above the threshold, in that tier. *)
Lemma tier_entries_lookup stakes tiers tid ub n j seg :
  0 <= tid -> tid + Z.of_nat (length tiers) <= 16 ->
  Forall (fun t => 0 <= fst t /\ 0 <= snd t) tiers ->
  tier_entries stakes tiers tid ub n !! j = Some seg ->
  exists cap lo, tiers !! j = Some (cap, lo) /\ Z.of_nat (length seg) <= cap /\
    forall e, e ∈ seg ->
      tier (snd e) = tid + Z.of_nat j /\ 0 <= rank (snd e) <= MAX_RANK /\
      exists amount, (fst e, amount) ∈ stakes /\ lo <= amount.
Proof.
  intros Htid Hlen Hpos. revert tid ub n j Htid Hlen.
  induction Hpos as [|[cap lo] tiers [Hcap Hlo] Hpos IH]; intros tid ub n j Htid Hlen Hj; [done|].
  simpl in Hj, Hcap, Hlo, Hlen. destruct j as [|j]; simpl in Hj.
  - injection Hj as <-. exists cap, lo. split_and!; [done| |].
    + rewrite length_fmap. by apply tier_segment_length.
    + intros e He. apply list_elem_of_fmap in He as (x & -> & Hx).
      apply tier_segment_elem in Hx as [Hx Hle].
      destruct (tier_entry_spec tid lo ub x) as [Ht Hr]; [lia|lia|].
      split_and!; [lia|lia|lia|]. exists (snd x). split; [|done].
      apply subseteq_drop in Hx. by destruct x.
  - apply IH in Hj as (cap' & lo' & Htj & Hl & He); [|lia..].
    exists cap', lo'. split_and!; [done|done|]. intros e Hin.
    destruct (He e Hin) as (Ht & ?). split; [lia|done].
Qed.

(** What [take_while] leaves of a sorted list fails its test, when the test
    is monotone along the order. *)
Lemma take_while_rest {A} (R : A -> A -> Prop) (f : A -> bool) l x :
  StronglySorted R l -> (forall a b, R a b -> f b = true -> f a = true) ->
  x ∈ drop (length (take_while f l)) l -> f x = false.
Proof.
  intros Hs Hf. induction Hs as [|y l Hs IH Hy]; [by intros ?%elem_of_nil|]. simpl.
  destruct (f y) eqn:Hfy; [exact IH|]. simpl. intros [->|Hx]%elem_of_cons; [done|].
  rewrite Forall_forall in Hy. specialize (Hy x Hx). apply not_true_is_false. intros Hfx.
  by rewrite (Hf y x Hy Hfx) in Hfy.
Qed.

(** A tier takes all it can: it is full, or every dApp left is below its
    threshold. *)
Lemma tier_segment_maximal stakes n cap lo :
  StronglySorted (fun x y => snd y <= snd x) stakes ->
  length (tier_segment stakes n cap lo) = Z.to_nat cap \/
  forall x, x ∈ drop (n + length (tier_segment stakes n cap lo)) stakes -> snd x < lo.
Proof.
  intros Hs. unfold tier_segment. rewrite length_take.
  destruct (le_lt_dec (Z.to_nat cap) (length (take_while (fun x => lo <=? snd x) (drop n stakes))))
    as [Hle|Hlt]; [left; lia|right]. rewrite Nat.min_r by lia. intros x. rewrite <- drop_drop. intros Hx.
  assert (Hsd : StronglySorted (fun x y : Z * Z => snd y <= snd x) (drop n stakes)).
  { rewrite <- (take_drop n stakes) in Hs. by apply StronglySorted_app in Hs as (_ & _ & ?). }
  assert (Hf : (lo <=? snd x) = false); [|lia].
  apply (take_while_rest _ (fun x => lo <=? snd x) _ x Hsd); [intros a b ??; lia|exact Hx].
Qed.

(** The tier before [j] bounds the stakes of tier [j] from above. *)
Definition upper_bound_of (tiers : list (Z * Z)) (ub : Z) (j : nat) : Z :=
  match j with O => ub | S j => from_option snd ub (tiers !! j) end.

(** Each tier's entries are complete, in a tier of their own and ranked. *)
Lemma tier_entries_complete stakes tiers tid ub n j cap lo :
  StronglySorted (fun x y => snd y <= snd x) stakes -> tiers !! j = Some (cap, lo) ->
  let segs := tier_entries stakes tiers tid ub n in
  exists seg, segs !! j = Some seg /\
    (forall e, e ∈ seg -> exists x, x ∈ stakes /\
       e = tier_entry (tid + Z.of_nat j) lo (upper_bound_of tiers ub j) x) /\
    (length seg = Z.to_nat cap \/
     forall x, x ∈ drop (n + length (concat (take (S j) segs))) stakes -> snd x < lo).
Proof.
  intros Hs. cbv zeta. revert tid ub n j.
  induction tiers as [|[cap' lo'] tiers IH]; intros tid ub n [|j] Hj; simpl in Hj; try done.
  - injection Hj as -> ->. cbn [tier_entries]. eexists. split; [done|]. split.
    + intros e (x & -> & Hx)%list_elem_of_fmap. exists x. split.
      * apply tier_segment_elem in Hx as [Hx _]. by apply subseteq_drop in Hx.
      * simpl. by rewrite Z.add_0_r.
    + simpl. rewrite app_nil_r, length_fmap. by apply tier_segment_maximal.
  - cbn [tier_entries]. destruct (IH (tid + 1) lo' (n + length (tier_segment stakes n cap' lo'))%nat
      j Hj) as (seg & Hseg & Hent & Hfull). exists seg. split; [done|]. split.
    + intros e He. destruct (Hent e He) as (x & Hx & ->). exists x. split; [done|].
      replace (tid + 1 + Z.of_nat j) with (tid + Z.of_nat (S j)) by lia. f_equal.
      destruct j as [|j]; [done|]. simpl in Hj |- *.
      pose proof (lookup_lt_Some _ _ _ Hj). destruct (lookup_lt_is_Some_2 tiers j ltac:(lia)) as [y Hy].
      by rewrite Hy.
    + destruct Hfull as [?|Hfull]; [by left|right]. intros x. cbn [take concat].
      rewrite length_app, length_fmap, Nat.add_assoc. apply Hfull.
Qed.

Lemma tier_entry_rank t lo ub x :
  0 <= t <= 15 -> 0 <= lo <= snd x ->
  rank (snd (tier_entry t lo ub x)) =
  if RankingEnabled cfg then find_rank lo ub (snd x) else 0.
Proof.
  intros Ht Hlo. unfold tier_entry. simpl. set (r := if RankingEnabled cfg then _ else 0).
  assert (0 <= r <= MAX_RANK).
  { subst r. destruct (RankingEnabled cfg); [by apply find_rank_range|unfold MAX_RANK; lia]. }
  pose proof (new_saturated_deconstruct (t mod 256) r) as Hd.
  rewrite Z.mod_small in * by lia. unfold deconstruct in Hd. unfold MAX_RANK in *.
  specialize (Hd ltac:(lia) ltac:(lia)). injection Hd as _ ->. lia.
Qed.

(** ** What the dApps of a tier can claim *)

(** The amount [DAppTierRewards::try_claim] pays for an entry. *)
Definition claimable (rewards rank_rewards : list Z) (rt : Z) : Z :=
  sat_add u128_max (get_or_zero rewards (tier rt))
    (sat_mul u128_max (get_or_zero rank_rewards (tier rt)) (rank rt)).

Lemma ranks_sum_eq seg :
  NoDup (fst <$> seg) -> (forall e, e ∈ seg -> 0 <= rank (snd e) <= MAX_RANK) ->
  Z.of_nat (length seg) <= u16_max ->
  ranks_sum (list_to_map seg) = zsum ((fun e => rank (snd e)) <$> seg) /\
  0 <= zsum ((fun e => rank (snd e)) <$> seg) <= MAX_RANK * Z.of_nat (length seg).
Proof.
  intros Hnd Hr Hlen.
  assert (Hb : 0 <= zsum ((fun e => rank (snd e)) <$> seg) <= MAX_RANK * Z.of_nat (length seg)).
  { clear Hnd Hlen. induction seg as [|e seg IH]; [simpl; lia|].
    rewrite fmap_cons. unfold zsum in *. cbn [foldr length].
    pose proof (Hr e (list_elem_of_here _ _)).
    specialize (IH (fun e He => Hr e (list_elem_of_further _ _ _ He))). lia. }
  split; [|done]. unfold ranks_sum.
  rewrite (foldl_sat_add u32_max (fun x => rank (snd x))).
  - rewrite (map_to_list_to_map (M := gmap Z)) by done. unfold MAX_RANK in *. lia.
  - lia.
  - apply Forall_forall. intros e He. rewrite (map_to_list_to_map (M := gmap Z)) in He by done.
    apply (Hr e) in He. lia.
Qed.

(** A tier's rewards never exceed its share: the rank rewards are paid out of
    the empty slots. *)
Lemma tier_payout seg cap reward :
  NoDup (fst <$> seg) -> (forall e, e ∈ seg -> 0 <= rank (snd e) <= MAX_RANK) ->
  0 <= reward -> Z.of_nat (length seg) <= cap <= u16_max ->
  let q := tier_reward_per_rank (list_to_map seg) cap reward in
  0 <= q /\
  reward * Z.of_nat (length seg) + q * zsum ((fun e => rank (snd e)) <$> seg) <= reward * cap.
Proof.
  intros Hnd Hr Hrew Hlen. cbv zeta. unfold tier_reward_per_rank.
  destruct (ranks_sum_eq seg Hnd Hr ltac:(lia)) as [-> Hb].
  set (R := zsum _) in *. destruct (R =? 0) eqn:HR; [nia|].
  rewrite map_size_list_to_map by done. rewrite Z.mod_small by lia.
  unfold sat_div, sat_mul, MAX_RANK in *. rewrite sat_sub_exact by lia.
  set (rem := Z.min u128_max (reward * (cap - Z.of_nat (length seg)))).
  set (x := Z.min (Z.min u128_max (reward / 10 * R)) rem).
  assert (Hx : 0 <= x <= reward * (cap - Z.of_nat (length seg))).
  { subst x rem. pose proof (Z.div_pos reward 10 Hrew ltac:(lia)). nia. }
  pose proof (Z.div_pos x R ltac:(lia) ltac:(lia)). pose proof (Z.mul_div_le x R ltac:(lia)).
  split; [done|]. nia.
Qed.

(** What all tiers pay out when every slot is filled. *)
Fixpoint tier_budget (rewards : list Z) (tiers : list (Z * Z)) (tier_id : Z) : Z :=
  match tiers with
  | [] => 0
  | (cap, _) :: tiers =>
      get_or_zero rewards tier_id * cap + tier_budget rewards tiers (tier_id + 1)
  end.

Lemma claimable_le rw rr rt :
  claimable rw rr rt <= get_or_zero rw (tier rt) + get_or_zero rr (tier rt) * rank rt.
Proof. unfold claimable. ulia. Qed.

Lemma segment_payout rw rr tid (seg : list (Z * Z)) :
  (forall e, e ∈ seg -> tier (snd e) = tid) ->
  zsum ((fun e => claimable rw rr (snd e)) <$> seg) <=
  get_or_zero rw tid * Z.of_nat (length seg) +
  get_or_zero rr tid * zsum ((fun e => rank (snd e)) <$> seg).
Proof.
  intros Ht. induction seg as [|e seg IH]; [unfold zsum; simpl; lia|].
  rewrite !fmap_cons. unfold zsum in *. cbn [foldr length].
  pose proof (claimable_le rw rr (snd e)) as Hc. rewrite (Ht e) in Hc by apply list_elem_of_here.
  assert (IH' := IH (fun e He => Ht e (list_elem_of_further _ _ _ He))). lia.
Qed.

Lemma get_or_zero_app_at l x l' : get_or_zero (l ++ x :: l') (Z.of_nat (length l)) = x.
Proof. unfold get_or_zero. by rewrite Nat2Z.id, list_lookup_middle. Qed.

Lemma get_or_zero_nonneg l i : Forall (fun x => 0 <= x) l -> 0 <= get_or_zero l i.
Proof.
  intros Hl. unfold get_or_zero. destruct (l !! Z.to_nat i) as [x|] eqn:Hx; simpl; [|lia].
  by eapply Forall_lookup_1 in Hx.
Qed.

Lemma entries_payout stakes tiers ub n rw rr :
  NoDup (fst <$> stakes) ->
  Z.of_nat (length rr) + Z.of_nat (length tiers) <= 16 ->
  Forall (fun t => 0 <= fst t <= u16_max /\ 0 <= snd t) tiers -> Forall (fun x => 0 <= x) rw ->
  let tid := Z.of_nat (length rr) in
  let segs := tier_entries stakes tiers tid ub n in
  zsum ((fun e => claimable rw (rr ++ rank_list segs tiers rw tid) (snd e)) <$> concat segs)
    <= tier_budget rw tiers tid.
Proof.
  intros Hnd Hlen Hpos Hrw. revert ub n rr Hlen.
  induction Hpos as [|[cap lo] tiers [Hcap Hlo] Hpos IH]; intros ub n rr Hlen; [done|].
  cbn [tier_entries concat rank_list tier_budget]. simpl in Hcap, Hlo.
  set (tid := Z.of_nat (length rr)). set (seg := tier_entry tid lo ub <$> _).
  assert (Hseg : forall e, e ∈ seg -> tier (snd e) = tid /\ 0 <= rank (snd e) <= MAX_RANK).
  { intros e He. apply list_elem_of_fmap in He as (x & -> & Hx).
    apply tier_segment_elem in Hx as [_ Hle]. simpl in Hlen. apply tier_entry_spec; lia. }
  assert (Hsl : Z.of_nat (length seg) <= cap).
  { subst seg. rewrite length_fmap. apply tier_segment_length. lia. }
  assert (Hsnd : NoDup (fst <$> seg)).
  { subst seg. rewrite <- list_fmap_compose. unfold compose, tier_entry. simpl.
    rewrite tier_segment_take, fmap_take, fmap_drop.
    eapply sublist_NoDup; [exact Hnd|]. etrans; [apply sublist_take|apply sublist_drop]. }
  set (q := tier_reward_per_rank _ _ _).
  rewrite fmap_app, zsum_app. rewrite cons_middle, (assoc_L (++)).
  destruct (tier_payout seg cap (get_or_zero rw tid) Hsnd) as [Hq Hpay];
    [by intros e He; apply Hseg|by apply get_or_zero_nonneg|lia|].
  fold q in Hq, Hpay.
  pose proof (IH lo (n + length (tier_segment stakes n cap lo))%nat (rr ++ [q])) as IH'.
  rewrite length_app, Nat2Z.inj_add in IH'. simpl in Hlen, IH'. fold tid in IH'.
  specialize (IH' ltac:(lia)).
  eapply Z.le_trans; [apply Z.add_le_mono; [|exact IH']|].
  { apply segment_payout. intros e He. by apply Hseg. }
  rewrite <- (assoc_L (++)). simpl. subst tid. rewrite get_or_zero_app_at.
  change (Z.of_nat 1) with 1. lia.
Qed.

Lemma StronglySorted_lookup_lt {A} (R : A -> A -> Prop) l i j x y :
  StronglySorted R l -> (i < j)%nat -> l !! i = Some x -> l !! j = Some y -> R x y.
Proof.
  intros Hs Hij Hi Hj. rewrite <- (take_drop j l) in Hs.
  eapply StronglySorted_app_1_elem_of; [exact Hs| |].
  - apply list_elem_of_lookup. exists i. by rewrite lookup_take_lt.
  - apply list_elem_of_lookup. exists 0%nat. by rewrite lookup_drop, Nat.add_0_r.
Qed.

(** The entries come in the order of the tiers. *)
Lemma entries_sorted stakes tiers tid ub n :
  0 <= tid -> tid + Z.of_nat (length tiers) <= 16 ->
  Forall (fun t => 0 <= fst t /\ 0 <= snd t) tiers ->
  Forall (fun e => tid <= tier (snd e)) (concat (tier_entries stakes tiers tid ub n)) /\
  StronglySorted (fun x y => tier (snd x) <= tier (snd y))
    (concat (tier_entries stakes tiers tid ub n)).
Proof.
  intros Htid Hlen Hpos. revert tid ub n Htid Hlen.
  induction Hpos as [|[cap lo] tiers [Hcap Hlo] Hpos IH]; intros tid ub n Htid Hlen; simpl.
  { split; constructor. }
  simpl in Hcap, Hlo, Hlen. set (seg := tier_entry tid lo ub <$> _).
  assert (Hseg : forall e, e ∈ seg -> tier (snd e) = tid).
  { intros e He. apply list_elem_of_fmap in He as (x & -> & Hx).
    apply tier_segment_elem in Hx as [_ Hle]. apply tier_entry_spec; lia. }
  destruct (IH (tid + 1) lo (n + length (tier_segment stakes n cap lo))%nat
    ltac:(lia) ltac:(lia)) as [Hge Hs].
  rewrite Forall_forall in Hge. split.
  - apply Forall_forall. intros e [He|He]%elem_of_app.
    + rewrite (Hseg e He). lia.
    + specialize (Hge e He). simpl in Hge. lia.
  - apply StronglySorted_app. split_and!; [|clear -Hseg|done].
    + intros x y Hx Hy. rewrite (Hseg x Hx). specialize (Hge y Hy). simpl in Hge. lia.
    + induction seg as [|e seg IHs]; constructor.
      * apply IHs. intros e' He'. apply Hseg. by right.
      * apply Forall_forall. intros y Hy. rewrite (Hseg e), (Hseg y) by (by left || by right). lia.
Qed.
End reference.

(** ** Properties of the assignment *)

Section properties.
Context `{!SpArithmetic, !SpArithmeticLaws} {AccountId W : Type} `{Countable AccountId}.
Context `{!UnspecifiedOrder, !UnspecifiedOrderLaws} (cfg : Config).

(** The amount staked on a dApp in an era. *)
Definition stake_on (s : Storage AccountId W) (era period id : Z) : Z :=
  value (contract_stake_of s id) era period.

Lemma staked_dapps_elem (s : Storage AccountId W) era period id amount :
  (id, amount) ∈ staked_dapps (ContractStake s) era period <->
  stake_on s era period id = amount /\ amount <> 0.
Proof.
  unfold staked_dapps, stake_on, value, contract_stake_of. rewrite list_elem_of_omap. split.
  - intros ([id' c] & Hin & Hf). rewrite contract_stake_iter_perm in Hin.
    apply elem_of_map_to_list in Hin. destruct (ContractStakeAmount.get c era period) eqn:Hg;
      [|done]. destruct (total s0 =? 0) eqn:Ht; simplify_eq. rewrite Hin, Hg. split; [done|lia].
  - intros [Hv Hnz]. destruct (ContractStake s !! id) as [c|] eqn:Hc.
    + exists (id, c). split; [by rewrite contract_stake_iter_perm, elem_of_map_to_list|].
      destruct (ContractStakeAmount.get c era period) as [x|]; [|done].
      rewrite (proj2 (Z.eqb_neq _ _)) by lia. by subst.
    + unfold ContractStakeAmount.get in Hv. simpl in Hv.
      destruct (_ && _) in Hv; simpl in Hv; subst; done.
Qed.

Lemma fst_omap_sublist {A} (f : Z * A -> option (Z * Z)) l :
  (forall x y, f x = Some y -> fst y = fst x) -> fst <$> omap f l `sublist_of` fst <$> l.
Proof.
  intros Hf. induction l as [|x l IH]; simpl; [done|].
  destruct (f x) as [y|] eqn:Hx; simpl; [rewrite (Hf x y Hx); by constructor|by constructor].
Qed.

Lemma staked_dapps_NoDup (m : gmap Z ContractStakeAmount) era period :
  NoDup (fst <$> staked_dapps m era period).
Proof.
  unfold staked_dapps. eapply sublist_NoDup; [|apply fst_omap_sublist].
  - rewrite contract_stake_iter_perm. apply NoDup_fst_map_to_list.
  - intros [id c] [id' a]. case_all; naive_solver.
Qed.

Lemma staked_dapps_length (m : gmap Z ContractStakeAmount) era period :
  (length (staked_dapps m era period) <= size m)%nat.
Proof.
  pose proof (sublist_length _ _ (fst_omap_sublist (fun '(dapp_id, c) =>
          match ContractStakeAmount.get c era period with
          | Some s => if total s =? 0 then None else Some (dapp_id, total s)
          | None => None
          end) (contract_stake_iter m) ltac:(intros [id c] [id' a]; case_all; naive_solver))) as Hl.
  rewrite !length_fmap, (Permutation_length (contract_stake_iter_perm m)) in Hl.
  rewrite length_map_to_list in Hl. exact Hl.
Qed.

(** What the assignment relies on: a valid tier configuration, at most 16
    tiers, and no more contract stake entries than registered dApps allowed. *)
Record assignable (s : Storage AccountId W) : Prop := {
  assignable_valid : config_is_valid (NumberOfTiers cfg) (TierConfig s) = true;
  assignable_tiers : NumberOfTiers cfg <= 16;
  assignable_slots : Forall (in_range u16_max) (slots_per_tier (TierConfig s));
  assignable_thresholds : Forall (in_range u128_max) (tier_thresholds (TierConfig s));
  assignable_portions : Forall (in_range permill_one) (reward_portion (TierConfig s));
  assignable_size : Z.of_nat (size (ContractStake s)) <= MaxNumberOfContracts cfg;
}.

Lemma assignable_lengths s :
  assignable s ->
  length (slots_per_tier (TierConfig s)) = Z.to_nat (NumberOfTiers cfg) /\
  length (reward_portion (TierConfig s)) = Z.to_nat (NumberOfTiers cfg) /\
  length (tier_thresholds (TierConfig s)) = Z.to_nat (NumberOfTiers cfg) /\
  0 <= NumberOfTiers cfg.
Proof.
  intros [Hv _ _ _ _ _]. unfold config_is_valid in Hv.
  rewrite !andb_true_iff, !Z.eqb_eq in Hv. lia.
Qed.

Lemma zip_tiers_ok (slots thresholds : list Z) :
  Forall (in_range u16_max) slots -> Forall (in_range u128_max) thresholds ->
  Forall (fun t => 0 <= fst t <= u16_max /\ 0 <= snd t) (zip slots thresholds).
Proof.
  intros Hs. revert thresholds. induction Hs as [|x slots Hx Hs IH]; intros [|y ths] Ht; simpl;
    [constructor..|]. inversion_clear Ht. constructor; [unfold in_range in *; simpl; lia|auto].
Qed.

(** The sorted stakes and the entries of the tiers for one era. *)
Definition sorted_stakes (s : Storage AccountId W) (era period : Z) : list (Z * Z) :=
  sort_by_amount_desc (staked_dapps (ContractStake s) era period).
Definition tiers_of (s : Storage AccountId W) : list (Z * Z) :=
  zip (slots_per_tier (TierConfig s)) (tier_thresholds (TierConfig s)).
Definition assigned_entries (s : Storage AccountId W) (era period : Z) : list (list (Z * Z)) :=
  tier_entries cfg (sorted_stakes s era period) (tiers_of s) 0 0 0.

Lemma sorted_stakes_NoDup s era period : NoDup (fst <$> sorted_stakes s era period).
Proof.
  unfold sorted_stakes. rewrite sort_by_amount_desc_perm. apply staked_dapps_NoDup.
Qed.

Lemma tiers_of_ok s :
  assignable s ->
  Forall (fun t => 0 <= fst t <= u16_max /\ 0 <= snd t) (tiers_of s) /\
  Z.of_nat (length (tiers_of s)) <= 16.
Proof.
  intros Hok. destruct (assignable_lengths s Hok) as (Hl1 & Hl2 & Hl3 & Hnn). destruct Hok.
  split; [by apply zip_tiers_ok|]. unfold tiers_of. rewrite length_zip. lia.
Qed.

Lemma rank_list_length segs tiers rw tid :
  (length (rank_list segs tiers rw tid) <= length tiers)%nat.
Proof.
  revert tiers tid. induction segs as [|seg segs IH]; intros [|[cap lo] tiers] tid; simpl; try lia.
  specialize (IH tiers (tid + 1)). lia.
Qed.

Lemma assignment_shape s era period pool :
  assignable s ->
  let es := concat (assigned_entries s era period) in
  covers (sorted_stakes s era period) es /\
  fst (get_dapp_tier_assignment_and_rewards cfg era period pool s) =
    mkDAppTierRewards (list_to_map es) (slot_rewards (TierConfig s) pool) period
      (rank_list (assigned_entries s era period) (tiers_of s)
         (slot_rewards (TierConfig s) pool) 0).
Proof.
  intros Hok es. pose proof (assignable_lengths s Hok) as (Hl1 & Hl2 & Hl3 & Hnn).
  unfold get_dapp_tier_assignment_and_rewards. fold (sorted_stakes s era period) (tiers_of s).
  set (rw := slot_rewards (TierConfig s) pool).
  destruct (assign_tiers_eq cfg (sorted_stakes s era period) rw (tiers_of s) 0 0 [] [])
    as [Hcov Heq]; [apply sorted_stakes_NoDup|done|].
  simpl in Hcov, Heq. fold (assigned_entries s era period) in Hcov, Heq. fold es in Hcov, Heq.
  change (list_to_map [] : gmap Z Z) with (∅ : gmap Z Z) in Heq.
  split; [exact Hcov|]. rewrite Heq. simpl. unfold tier_rewards_new, try_from.
  rewrite (covers_size (sorted_stakes s era period)); [|apply sorted_stakes_NoDup|done].
  assert (Hes : Z.of_nat (length es) <= MaxNumberOfContracts cfg).
  { pose proof (f_equal length Hcov) as Hlen. rewrite !length_fmap, length_take in Hlen.
    pose proof (staked_dapps_length (ContractStake s) era period).
    pose proof (Permutation_length (sort_by_amount_desc_perm
      (staked_dapps (ContractStake s) era period))) as Hp. fold (sorted_stakes s era period) in Hp.
    pose proof (assignable_size s Hok). lia. }
  rewrite (proj2 (Z.leb_le _ _) Hes).
  assert (Hrw : Z.of_nat (length rw) <= NumberOfTiers cfg).
  { subst rw. unfold slot_rewards. rewrite length_zip_with. lia. }
  rewrite (proj2 (Z.leb_le _ _) Hrw). simpl.
  pose proof (rank_list_length (assigned_entries s era period) (tiers_of s) rw 0) as Hrl.
  assert (Htl : Z.of_nat (length (tiers_of s)) <= NumberOfTiers cfg).
  { unfold tiers_of. rewrite length_zip. lia. }
  by rewrite (proj2 (Z.leb_le _ _)) by lia.
Qed.

Lemma entries_NoDup s era period :
  assignable s -> NoDup (fst <$> concat (assigned_entries s era period)).
Proof.
  intros Hok. eapply covers_NoDup; [apply sorted_stakes_NoDup|].
  apply (assignment_shape s era period 0 Hok).
Qed.

Lemma dapps_lookup s era period pool id rt :
  assignable s ->
  dapps (fst (get_dapp_tier_assignment_and_rewards cfg era period pool s)) !! id = Some rt <->
  (id, rt) ∈ concat (assigned_entries s era period).
Proof.
  intros Hok. destruct (assignment_shape s era period pool Hok) as [_ ->]. simpl.
  symmetry. apply elem_of_list_to_map. by apply entries_NoDup.
Qed.

(** An entry, the tier it is in and the stake behind it. *)
Lemma assigned_entry s era period id rt :
  assignable s -> (id, rt) ∈ concat (assigned_entries s era period) ->
  exists j seg cap lo, assigned_entries s era period !! j = Some seg /\ (id, rt) ∈ seg /\
    tier rt = Z.of_nat j /\ 0 <= rank rt <= MAX_RANK /\
    slots_per_tier (TierConfig s) !! j = Some cap /\
    tier_thresholds (TierConfig s) !! j = Some lo /\
    Z.of_nat (length seg) <= cap /\ lo <= stake_on s era period id /\
    stake_on s era period id <> 0.
Proof.
  intros Hok Hin. destruct (tiers_of_ok s Hok) as [Ht Hl].
  apply list_elem_of_In, in_concat in Hin as (seg & Hseg%list_elem_of_In & Hin%list_elem_of_In).
  apply list_elem_of_lookup in Hseg as [j Hj].
  destruct (tier_entries_lookup cfg (sorted_stakes s era period) (tiers_of s) 0 0 0 j seg)
    as (cap & lo & Htj & Hlen & He); [lia|lia| |exact Hj|].
  { eapply Forall_impl; [exact Ht|]. simpl. lia. }
  destruct (He (id, rt) Hin) as (Htier & Hrank & amount & Hst & Hlo).
  unfold sorted_stakes in Hst. rewrite sort_by_amount_desc_perm in Hst. simpl in Hst.
  apply staked_dapps_elem in Hst as [<- Hnz].
  unfold tiers_of in Htj. apply lookup_zip_with_Some in Htj as (a & b & Heq & Hs & Hb).
  injection Heq as <- <-. exists j, seg, cap, lo. simpl in *. split_and!; try done; lia.
Qed.

(** A tier's dApps are entries of its segment. *)
Lemma tier_size s era period pool (i : nat) cap :
  assignable s -> slots_per_tier (TierConfig s) !! i = Some cap ->
  Z.of_nat (size (filter (fun kv : Z * Z => tier (snd kv) = Z.of_nat i)
    (dapps (fst (get_dapp_tier_assignment_and_rewards cfg era period pool s))))) <= cap.
Proof.
  intros Hok Hcap. set (m := dapps _).
  assert (Hall : forall e, e ∈ map_to_list (filter (fun kv : Z * Z => tier (snd kv) = Z.of_nat i) m) ->
    exists seg, assigned_entries s era period !! i = Some seg /\ e ∈ seg /\
      Z.of_nat (length seg) <= cap).
  { intros [id rt] He. apply elem_of_map_to_list, map_lookup_filter_Some in He as [Hm Ht].
    apply dapps_lookup in Hm; [|done].
    destruct (assigned_entry s era period id rt Hok Hm)
      as (j & seg & cap' & lo & Hseg & Hin & Hj & _ & Hc & _ & Hlen & _).
    simpl in Ht. assert (j = i) as -> by lia. exists seg. rewrite Hcap in Hc.
    by injection Hc as <-. }
  rewrite <- length_map_to_list.
  pose proof (Forall_lookup_1 _ _ _ _ (assignable_slots s Hok) Hcap) as Hr. unfold in_range in Hr.
  pose proof (NoDup_map_to_list (filter (fun kv : Z * Z => tier (snd kv) = Z.of_nat i) m)) as Hnd.
  destruct (map_to_list _) as [|e l]; [simpl; lia|].
  destruct (Hall e ltac:(by left)) as (seg & Hseg & _ & Hlen).
  assert (Hsub : (e :: l) ⊆+ seg).
  { apply NoDup_submseteq; [done|]. intros e' He'.
    destruct (Hall e' He') as (seg' & Hseg' & Hin & _). congruence. }
  apply submseteq_length in Hsub. lia.
Qed.

(** Larger stakes come first. *)
Lemma larger_stake_first s era period pool x y rty :
  assignable s ->
  let t := fst (get_dapp_tier_assignment_and_rewards cfg era period pool s) in
  dapps t !! y = Some rty ->
  stake_on s era period y < stake_on s era period x -> 0 <= stake_on s era period y ->
  exists rtx, dapps t !! x = Some rtx /\ tier rtx <= tier rty.
Proof.
  intros Hok t Hy Hlt Hge. apply dapps_lookup in Hy; [|done].
  destruct (assignment_shape s era period pool Hok) as [Hcov _].
  set (es := concat (assigned_entries s era period)) in *.
  apply list_elem_of_lookup in Hy as [j Hj].
  set (st := sorted_stakes s era period) in *.
  assert (Hst : forall k id a, st !! k = Some (id, a) -> a = stake_on s era period id).
  { intros k id a Hk. apply list_elem_of_lookup_2 in Hk. subst st. unfold sorted_stakes in Hk.
    rewrite sort_by_amount_desc_perm in Hk. by apply staked_dapps_elem in Hk as [-> _]. }
  assert (Hx : (x, stake_on s era period x) ∈ st).
  { subst st. unfold sorted_stakes. rewrite sort_by_amount_desc_perm.
    apply staked_dapps_elem. split; [done|lia]. }
  apply list_elem_of_lookup in Hx as [i Hi].
  pose proof (lookup_lt_Some _ _ _ Hj) as Hjlt.
  assert (Hat : forall k, (k < length es)%nat -> fst <$> es !! k = fst <$> st !! k).
  { intros k Hk. rewrite <- !list_lookup_fmap, Hcov, list_lookup_fmap, lookup_take_lt by done.
    by rewrite list_lookup_fmap. }
  assert (Hij : (i < j)%nat).
  { pose proof (Hat j Hjlt) as Hfj. rewrite Hj in Hfj.
    destruct (st !! j) as [[y' a]|] eqn:Hsj; simplify_eq/=. pose proof (Hst _ _ _ Hsj) as ->.
    destruct (Nat.lt_trichotomy i j) as [?|[->|Hji]]; [done|simplify_eq; lia|].
    pose proof (StronglySorted_lookup_lt _ _ _ _ _ _
      (sort_by_amount_desc_sorted (staked_dapps (ContractStake s) era period)) Hji Hsj Hi) as Hs.
    simpl in Hs. lia. }
  pose proof (Hat i ltac:(lia)) as Hfi. rewrite Hi in Hfi.
  destruct (es !! i) as [[x' rtx]|] eqn:Hei; simplify_eq/=. exists rtx. split.
  + apply dapps_lookup; [done|]. by apply list_elem_of_lookup_2 in Hei.
  + destruct (tiers_of_ok s Hok) as [Ht Hl].
    assert (Hpos : Forall (fun t => 0 <= fst t /\ 0 <= snd t) (tiers_of s))
      by (eapply Forall_impl; [exact Ht|simpl; lia]).
    destruct (entries_sorted cfg st (tiers_of s) 0 0 0 ltac:(lia) ltac:(lia) Hpos) as [_ Hso].
    exact (StronglySorted_lookup_lt _ _ _ _ _ _ Hso Hij Hei Hj).
Qed.

(** What a dApp's position in the order of stakes says of the tiers up to [i]:
    it is in one of them, or tier [i] is full, or its stake is below that
    tier's threshold. *)
Lemma entry_up_to s era period (i : nat) cap lo id :
  assignable s -> slots_per_tier (TierConfig s) !! i = Some cap ->
  tier_thresholds (TierConfig s) !! i = Some lo ->
  stake_on s era period id <> 0 -> lo <= stake_on s era period id ->
  exists seg, assigned_entries s era period !! i = Some seg /\
    ((exists rt, (id, rt) ∈ concat (assigned_entries s era period) /\ tier rt <= Z.of_nat i) \/
     length seg = Z.to_nat cap).
Proof.
  intros Hok Hcap Hlo Hnz Hle. set (st := sorted_stakes s era period).
  assert (Hti : tiers_of s !! i = Some (cap, lo)).
  { unfold tiers_of. apply lookup_zip_with_Some. by exists cap, lo. }
  destruct (tier_entries_complete cfg st (tiers_of s) 0 0 0 i cap lo (sort_by_amount_desc_sorted _)
    Hti) as (seg & Hseg & _ & Hfull). fold (assigned_entries s era period) in Hseg, Hfull.
  exists seg. split; [done|]. destruct Hfull as [?|Hrest]; [by right|left]. simpl in Hrest.
  set (segs := assigned_entries s era period) in *.
  assert (Hin : (id, stake_on s era period id) ∈ st).
  { unfold st, sorted_stakes. rewrite sort_by_amount_desc_perm. by apply staked_dapps_elem. }
  apply list_elem_of_lookup in Hin as [p Hp].
  assert (Hlt : (p < length (concat (take (S i) segs)))%nat).
  { destruct (le_lt_dec (length (concat (take (S i) segs))) p) as [Hge|?]; [exfalso|done].
    specialize (Hrest (id, stake_on s era period id)). simpl in Hrest. cut (stake_on s era period id < lo);
      [lia|]. apply Hrest. apply list_elem_of_lookup.
    exists (p - length (concat (take (S i) segs)))%nat. rewrite lookup_drop.
    by rewrite Nat.add_comm, Nat.sub_add. }
  destruct (assignment_shape s era period 0 Hok) as [Hcov _]. fold st segs in Hcov.
  assert (Hsplit : concat segs = concat (take (S i) segs) ++ concat (drop (S i) segs)).
  { by rewrite <- concat_app, take_drop. }
  destruct (lookup_lt_is_Some_2 _ _ Hlt) as [[id' rt] He].
  assert (Hes : concat segs !! p = Some (id', rt)) by by rewrite Hsplit, lookup_app_l.
  assert (id' = id) as ->.
  { pose proof (lookup_lt_Some _ _ _ Hes) as Hl. apply (f_equal (fun l => l !! p)) in Hcov.
    rewrite !list_lookup_fmap, lookup_take_lt, Hes, Hp in Hcov by done. by injection Hcov as ->. }
  exists rt. split; [by apply list_elem_of_lookup_2 in Hes|].
  apply list_elem_of_lookup_2, list_elem_of_In, in_concat in He
    as (seg' & Hs'%list_elem_of_In & He%list_elem_of_In).
  apply list_elem_of_lookup in Hs' as [j Hj]. apply lookup_take_Some in Hj as [Hj Hji].
  destruct (tiers_of_ok s Hok) as [Ht Hl].
  destruct (tier_entries_lookup cfg st (tiers_of s) 0 0 0 j seg') as (? & ? & _ & _ & Hall);
    [lia|lia| |exact Hj|].
  { eapply Forall_impl; [exact Ht|]. simpl. lia. }
  destruct (Hall (id, rt) He) as [Htier _]. simpl in Htier. lia.
Qed.

(** A tier holds as many dApps as its segment has entries. *)
Lemma tier_holds s era period pool (i : nat) seg :
  assignable s -> assigned_entries s era period !! i = Some seg ->
  (length seg <= size (filter (fun kv : Z * Z => tier (snd kv) = Z.of_nat i)
    (dapps (fst (get_dapp_tier_assignment_and_rewards cfg era period pool s)))))%nat.
Proof.
  intros Hok Hseg. rewrite <- length_map_to_list. apply submseteq_length, NoDup_submseteq.
  - apply (NoDup_fmap_1 fst). eapply sublist_NoDup; [apply (entries_NoDup s era period Hok)|].
    apply fmap_sublist. apply list_elem_of_split_length in Hseg as (l1 & l2 & -> & _).
    rewrite concat_app. simpl. apply sublist_inserts_l, sublist_inserts_r. done.
  - intros [id rt] He. apply elem_of_map_to_list, map_lookup_filter_Some. split.
    + apply dapps_lookup; [done|]. apply list_elem_of_In, in_concat. exists seg.
      split; apply list_elem_of_In; [by apply list_elem_of_lookup_2 in Hseg|done].
    + destruct (tiers_of_ok s Hok) as [Ht Hl].
      destruct (tier_entries_lookup cfg (sorted_stakes s era period) (tiers_of s) 0 0 0 i seg)
        as (? & ? & _ & _ & Hall); [lia|lia| |exact Hseg|].
      { eapply Forall_impl; [exact Ht|]. simpl. lia. }
      by destruct (Hall (id, rt) He) as [Htier _].
Qed.

(** The threshold of the tier above tier [i]; the first tier has none. *)
Definition threshold_above (s : Storage AccountId W) (i : nat) : Z :=
  match i with O => 0 | S i => get_or_zero (tier_thresholds (TierConfig s)) (Z.of_nat i) end.

(** The rank that goes with an entry. *)
Lemma entry_rank s era period id rt cap lo :
  assignable s -> (id, rt) ∈ concat (assigned_entries s era period) ->
  slots_per_tier (TierConfig s) !! Z.to_nat (tier rt) = Some cap ->
  tier_thresholds (TierConfig s) !! Z.to_nat (tier rt) = Some lo ->
  rank rt = if RankingEnabled cfg
            then find_rank lo (threshold_above s (Z.to_nat (tier rt))) (stake_on s era period id)
            else 0.
Proof.
  intros Hok Hin Hcap Hlo.
  destruct (assigned_entry s era period id rt Hok Hin)
    as (j & seg & cap' & lo' & Hseg & He & Hj & _ & Hc & Hl & _ & Hle & _).
  rewrite Hj, Nat2Z.id in *. simplify_eq.
  assert (Hti : tiers_of s !! j = Some (cap, lo)).
  { unfold tiers_of. apply lookup_zip_with_Some. by exists cap, lo. }
  destruct (tiers_of_ok s Hok) as [Ht Hlen].
  destruct (tier_entries_complete cfg (sorted_stakes s era period) (tiers_of s) 0 0 0 j cap lo
    (sort_by_amount_desc_sorted _) Hti) as (seg' & Hseg' & Hent & _).
  fold (assigned_entries s era period) in Hseg'. assert (seg' = seg) as -> by congruence.
  destruct (Hent _ He) as ([id' amount] & Hx & Heq). injection Heq as <- Hrt.
  unfold sorted_stakes in Hx. rewrite sort_by_amount_desc_perm in Hx.
  apply staked_dapps_elem in Hx as [Hst _]. pose proof (lookup_lt_Some _ _ _ Hti).
  pose proof (Forall_lookup_1 _ _ _ _ Ht Hti) as Hpos. simpl in Hpos.
  pose proof (tier_entry_rank cfg (0 + Z.of_nat j) lo (upper_bound_of (tiers_of s) 0 j) (id, amount)
    ltac:(lia) ltac:(simpl; lia)) as Hr.
  unfold tier_entry in Hr. simpl in Hr. rewrite Hrt. simpl. rewrite Hr, Hst.
  replace (upper_bound_of (tiers_of s) 0 j) with (threshold_above s j); [done|].
  destruct j as [|j]; [done|]. simpl.
  destruct (lookup_lt_is_Some_2 (tiers_of s) j ltac:(lia)) as [[c l] Hcl]. rewrite Hcl.
  unfold tiers_of in Hcl. apply lookup_zip_with_Some in Hcl as (? & ? & [= -> ->] & _ & Hth).
  unfold get_or_zero. by rewrite Nat2Z.id, Hth.
Qed.

(** ** Theorems *)

(** C7: the assignment for an era is the greedy one in the order of the
    stakes.  Every dApp in a tier has a stake of at least the tier's threshold,
    and the rank its stake has between this threshold and that of the tier
    above; no tier holds more dApps than it has slots; a dApp with a larger
    stake than one that got into a tier got into a tier at least as good; and
    a staked dApp that reaches the threshold of a tier, if only just, is in
    that tier or a better one unless all slots of the tier are taken.  One slot
    of a tier is rewarded with the tier's share of the pool divided by the
    number of its slots. *)
Theorem tier_assignment_spec (s : Storage AccountId W) (era period pool : Z) :
  assignable s ->
  let t := fst (get_dapp_tier_assignment_and_rewards cfg era period pool s) in
  let held (i : nat) := Z.of_nat (size (filter (fun kv : Z * Z => tier (snd kv) = Z.of_nat i) (dapps t))) in
  (forall id rt, dapps t !! id = Some rt ->
     exists cap lo, slots_per_tier (TierConfig s) !! Z.to_nat (tier rt) = Some cap /\
       tier_thresholds (TierConfig s) !! Z.to_nat (tier rt) = Some lo /\
       lo <= stake_on s era period id /\ stake_on s era period id <> 0 /\
       rank rt = if RankingEnabled cfg
                 then find_rank lo (threshold_above s (Z.to_nat (tier rt))) (stake_on s era period id)
                 else 0) /\
  (forall i cap, slots_per_tier (TierConfig s) !! i = Some cap -> held i <= cap) /\
  (forall x y rty, dapps t !! y = Some rty ->
     stake_on s era period y < stake_on s era period x -> 0 <= stake_on s era period y ->
     exists rtx, dapps t !! x = Some rtx /\ tier rtx <= tier rty) /\
  (forall i cap lo id, slots_per_tier (TierConfig s) !! i = Some cap ->
     tier_thresholds (TierConfig s) !! i = Some lo ->
     stake_on s era period id <> 0 -> lo <= stake_on s era period id ->
     (exists rt, dapps t !! id = Some rt /\ tier rt <= Z.of_nat i) \/ held i = cap) /\
  (forall i cap p, slots_per_tier (TierConfig s) !! i = Some cap ->
     reward_portion (TierConfig s) !! i = Some p ->
     rewards t !! i = Some (if cap =? 0 then 0 else permill_mul p pool / cap)).
Proof.
  intros Hok. cbv zeta. split_and!.
  - intros id rt Hl. apply dapps_lookup in Hl; [|done].
    destruct (assigned_entry s era period id rt Hok Hl)
      as (j & seg & cap & lo & _ & _ & Hj & Hr & Hc & Hlo & _ & Hle & Hnz).
    pose proof (entry_rank s era period id rt cap lo Hok Hl) as Hrk.
    exists cap, lo. rewrite Hj, Nat2Z.id in *. split_and!; try done. by apply Hrk.
  - intros i cap Hcap. by apply tier_size.
  - intros x y rty. by apply larger_stake_first.
  - intros i cap lo id Hcap Hlo Hnz Hle.
    destruct (entry_up_to s era period i cap lo id Hok Hcap Hlo Hnz Hle)
      as (seg & Hseg & [(rt & Hin & Ht)|Hfull]); [left; exists rt; split; [by apply dapps_lookup|done]|right].
    pose proof (tier_holds s era period pool i seg Hok Hseg).
    pose proof (tier_size s era period pool i cap Hok Hcap). lia.
  - intros i cap p Hcap Hp. destruct (assignment_shape s era period pool Hok) as [_ ->].
    apply lookup_zip_with_Some. by exists p, cap.
Qed.

(** Rounding: the shares of a pool add up to at most the pool plus half a
    unit per share. *)
Lemma shares_sum_bound pool ps :
  in_range u128_max pool -> Forall (in_range permill_one) ps ->
  2 * permill_one * zsum ((fun p => permill_mul p pool) <$> ps)
    <= 2 * pool * zsum ps + permill_one * Z.of_nat (length ps).
Proof.
  intros Hn. induction 1 as [|p ps Hp Hps IH]; [unfold zsum; simpl; lia|].
  rewrite fmap_cons. unfold zsum in *. cbn [foldr length]. rewrite Nat2Z.inj_succ.
  pose proof (permill_mul_nearest p pool Hp Hn). lia.
Qed.

Lemma budget_bound pool rp slots ths pre :
  in_range u128_max pool -> Forall (in_range permill_one) rp -> Forall (in_range u16_max) slots ->
  length rp = length slots ->
  tier_budget (pre ++ zip_with (fun percent slots =>
      if slots =? 0 then 0 else permill_mul percent pool / slots) rp slots)
    (zip slots ths) (Z.of_nat (length pre))
  <= zsum ((fun p => permill_mul p pool) <$> rp).
Proof.
  intros Hpool Hrp. revert slots ths pre.
  induction Hrp as [|p rp Hp Hrp IH]; intros slots ths pre Hsl Hlen.
  { destruct slots; [done|discriminate]. }
  destruct slots as [|sl slots]; [discriminate|]. inversion_clear Hsl as [|? ? Hs Hsl'].
  pose proof (permill_mul_bound p pool Hp Hpool) as Hb.
  assert (Hrest : 0 <= zsum ((fun p => permill_mul p pool) <$> rp)).
  { apply zsum_nonneg, Forall_fmap. eapply Forall_impl; [exact Hrp|].
    intros x Hx. simpl. by apply permill_mul_bound. }
  rewrite fmap_cons. destruct ths as [|th ths].
  { unfold zsum in *. simpl. lia. }
  cbn [zip_with tier_budget]. set (x := if sl =? 0 then 0 else _).
  rewrite get_or_zero_app_at. rewrite cons_middle, (assoc_L (++)).
  specialize (IH slots ths (pre ++ [x]) Hsl' ltac:(simpl in Hlen; lia)).
  rewrite length_app, Nat2Z.inj_add in IH. simpl in IH. change (Z.of_nat 1) with 1 in IH.
  assert (x * sl <= permill_mul p pool).
  { subst x. unfold in_range in Hs. destruct (sl =? 0) eqn:?; [lia|].
    pose proof (Z.mul_div_le (permill_mul p pool) sl). lia. }
  unfold zsum in *. cbn [foldr]. simpl in *. lia.
Qed.

Lemma slot_rewards_nonneg c pool :
  in_range u128_max pool -> Forall (in_range permill_one) (reward_portion c) ->
  Forall (in_range u16_max) (slots_per_tier c) -> Forall (fun x => 0 <= x) (slot_rewards c pool).
Proof.
  intros Hpool Hrp Hs. unfold slot_rewards. apply Forall_lookup. intros i x Hx.
  apply lookup_zip_with_Some in Hx as (p & sl & -> & Hp & Hsl).
  pose proof (Forall_lookup_1 _ _ _ _ Hrp Hp). pose proof (Forall_lookup_1 _ _ _ _ Hs Hsl).
  pose proof (permill_mul_bound p pool). unfold in_range in *.
  destruct (sl =? 0) eqn:?; [lia|]. apply Z.div_pos; lia.
Qed.

Lemma tier_total_bound (s : Storage AccountId W) (era period pool : Z) :
  assignable s -> in_range u128_max pool ->
  let t := fst (get_dapp_tier_assignment_and_rewards cfg era period pool s) in
  let total := map_sum (claimable (rewards t) (rank_rewards t)) (dapps t) in
  let portions := reward_portion (TierConfig s) in
  total <= zsum ((fun p => permill_mul p pool) <$> portions) /\
  (zsum portions <= permill_one -> 2 * total <= 2 * pool + NumberOfTiers cfg).
Proof.
  intros Hok Hpool. cbv zeta.
  destruct (assignment_shape s era period pool Hok) as [_ ->]. simpl.
  assert (Htotal : map_sum (claimable (slot_rewards (TierConfig s) pool)
      (rank_list (assigned_entries s era period) (tiers_of s) (slot_rewards (TierConfig s) pool) 0))
      (list_to_map (concat (assigned_entries s era period)) : gmap Z Z)
    <= zsum ((fun p => permill_mul p pool) <$> reward_portion (TierConfig s))).
  { unfold map_sum. rewrite map_to_list_to_map by by apply entries_NoDup.
    destruct (tiers_of_ok s Hok) as [Ht Hl].
    destruct (assignable_lengths s Hok) as (Hl1 & Hl2 & Hl3 & Hnn).
    etrans; [apply (entries_payout cfg (sorted_stakes s era period) (tiers_of s) 0 0
      (slot_rewards (TierConfig s) pool) [])|].
    - apply sorted_stakes_NoDup.
    - simpl. lia.
    - exact Ht.
    - apply slot_rewards_nonneg; try apply Hok. done.
    - apply (budget_bound pool (reward_portion (TierConfig s)) (slots_per_tier (TierConfig s))
        (tier_thresholds (TierConfig s)) []); try apply Hok; [done|lia]. }
  split; [exact Htotal|]. intros Hsum.
  pose proof (shares_sum_bound pool (reward_portion (TierConfig s)) Hpool
    (assignable_portions s Hok)).
  destruct (assignable_lengths s Hok) as (Hl1 & Hl2 & Hl3 & Hnn).
  assert (pool * zsum (reward_portion (TierConfig s)) <= pool * permill_one)
    by (apply Z.mul_le_mono_nonneg_l; unfold in_range in Hpool; lia).
  rewrite Hl2 in *. lia.
Qed.

(** C8: everything the dApps of an era can claim together, tier rewards and
    rank rewards, is at most the tiers' shares of the reward pool; when the
    shares add up to at most the whole, that is the pool plus at most half a
    unit per tier (rounding). *)
Theorem tier_rewards_within_pool (s : Storage AccountId W) (era period pool : Z) :
  assignable s -> in_range u128_max pool ->
  let t := fst (get_dapp_tier_assignment_and_rewards cfg era period pool s) in
  let total := map_sum (claimable (rewards t) (rank_rewards t)) (dapps t) in
  let portions := reward_portion (TierConfig s) in
  total <= zsum ((fun p => permill_mul p pool) <$> portions) /\
  (zsum portions <= permill_one -> 2 * total <= 2 * pool + NumberOfTiers cfg).
Proof. apply tier_total_bound. Qed.
End properties.

(** ** One order that satisfies the laws, and an example *)

Definition amount_ge (x y : Z * Z) : Prop := snd y <= snd x.

#[export] Instance amount_ge_dec x y : Decision (amount_ge x y).
Proof. unfold amount_ge. apply _. Defined.

#[export] Instance amount_ge_trans : Transitive amount_ge.
Proof. intros x y z. unfold amount_ge. lia. Qed.

#[export] Instance amount_ge_total : Total amount_ge.
Proof. intros x y. unfold amount_ge. lia. Qed.

Definition StableOrder : UnspecifiedOrder := {|
  contract_stake_iter := map_to_list;
  sort_by_amount_desc := merge_sort amount_ge;
|}.

Lemma StableOrder_laws : @UnspecifiedOrderLaws StableOrder.
Proof.
  split; simpl.
  - done.
  - apply merge_sort_Permutation.
  - intros l. exact (StronglySorted_merge_sort amount_ge l).
Qed.

(** Four dApps staked with 600, 1000, 500 and 200; three slots from 600 on, one
    from 100 on. *)
Definition example_cfg : Config :=
  mkConfig (Build_CycleConfiguration 3 5 10 100) 0 16 2 10 8 10 2 5 5 2 true.

Definition example_storage : Storage Z unit :=
  let c x := ContractStakeAmount.mkContractStakeAmount (mkStakeAmount x 0 4 1) None in
  mkStorage (mkProtocolState 6 100 (mkPeriodInfo 1 BuildAndEarn 20) false) 4 ∅ ∅ ∅
    (<[0 := c 600]> (<[1 := c 1000]> (<[2 := c 500]> (<[3 := c 200]> ∅))))
    EraInfo.default ∅ ∅ default_params
    (mkTiersConfiguration [3; 1] [600000; 400000] [600; 100]) ∅ default_marker true [] tt.

Lemma example_assignable : assignable example_cfg example_storage.
Proof. by split; simpl; repeat constructor; unfold in_range; simpl; try lia. Qed.

(** dApp 0 is exactly at the threshold of the first tier. *)
Lemma tier_assignment_spec_witness :
  let A := ExactArithmetic in let O := StableOrder in
  let t := fst (get_dapp_tier_assignment_and_rewards example_cfg 6 1 3000 example_storage) in
  dapps t !! 1 = Some (new_saturated 0 0) /\ dapps t !! 2 = Some (new_saturated 1 8) /\
  dapps t !! 3 = None /\
  (exists rtx, dapps t !! 1 = Some rtx /\ tier rtx <= tier (new_saturated 1 8)) /\
  (stake_on example_storage 6 1 0 = 600 /\ exists rt, dapps t !! 0 = Some rt /\ tier rt <= 0).
Proof.
  intros A O t. split_and!; [reflexivity|reflexivity|reflexivity| |reflexivity|].
  all: pose proof ExactArithmetic_laws; pose proof StableOrder_laws.
  all: destruct (tier_assignment_spec example_cfg example_storage 6 1 3000 example_assignable)
    as (_ & _ & Hprio & Hall & _).
  - apply (Hprio 1 2 (new_saturated 1 8)); [reflexivity|vm_compute; congruence..].
  - destruct (Hall 0%nat 3 600 0) as [Hin|Hfull]; [reflexivity|reflexivity|vm_compute; congruence..| |].
    + exact Hin.
    + vm_compute in Hfull. congruence.
Defined.

Lemma tier_rewards_within_pool_witness :
  let A := ExactArithmetic in let O := StableOrder in
  let t := fst (get_dapp_tier_assignment_and_rewards example_cfg 6 1 3000 example_storage) in
  rewards t = [600; 1200] /\ rank_rewards t = [0; 0] /\
  2 * map_sum (claimable (rewards t) (rank_rewards t)) (dapps t) <= 6002.
Proof.
  intros A O t. split_and!; [reflexivity..|].
  pose proof ExactArithmetic_laws. pose proof StableOrder_laws.
  destruct (tier_rewards_within_pool example_cfg example_storage 6 1 3000 example_assignable)
    as [_ Hle]; [unfold in_range; lia|].
  etrans; [apply Hle; vm_compute; congruence|]. done.
Defined.
