(* ===== verification/EraHandler.v ===== *)
(** * Era and period transitions, and the clean-up of expired history

    [pallets/dapp-staking/src/lib.rs]: [era_and_period_handler],
    [update_cleanup_marker], [expired_entry_cleanup] and the two hooks that
    call them. *)

From S2P Require Import Prelude Frame Primitives StakeAmount EraInfo AccountLedger.
From S2P Require Import SingularStakingInfo ContractStakeAmount EraRewardSpan Tiers Protocol.
From S2P Require Import PalletState DAppStaking TierAssignment.

Section handler.
Context {AccountId W : Type} `{Countable AccountId}.
Context `{!SpArithmetic, !Currency AccountId W, !Observer W, !StakingRewardHandler AccountId W}.
Context `{!PriceProvider W, !TierSlots, !UnspecifiedOrder}.
Context (cfg : Config).

Abbreviation St := (Storage AccountId W).
Abbreviation cycle := (cycle_configuration cfg).

Definition update_cleanup_marker (new_period_number : Z) (s : St) : St :=
  match checked_sub new_period_number (sat_add u32_max (RewardRetentionInPeriods cfg) 1) with
  | Some latest_expired_period =>
      if latest_expired_period =? 0 then s
      else
        match PeriodEnd s !! latest_expired_period with
        | Some period_end_info =>
            let s := put_period_end (delete latest_expired_period (PeriodEnd s)) s in
            let m := HistoryCleanupMarker s in
            put_marker (mkCleanupMarker (era_reward_index m) (dapp_tiers_index m)
              (sat_add u32_max (final_era period_end_info) 1)) s
        | None => s
        end
  | None => s
  end.

(** The arm of a [Voting] subperiod: the new protocol state and era info, the
    event and the reward entry of the ended era. *)
Definition end_voting (now : Z) (state : ProtocolState) (era_info : EraInfo)
    : ProtocolState * EraInfo * option (Event AccountId) * EraReward :=
  let next_era := sat_add u32_max (era state) 1 in
  let era_reward := mkEraReward 0 (EraInfo.total_staked_amount era_info) 0 in
  let next_subperiod_start_era := sat_add u32_max next_era (eras_per_build_and_earn_subperiod cycle) in
  let build_and_earn_start_block := sat_add u32_max now (blocks_per_era cycle) in
  let state := advance_to_next_subperiod next_subperiod_start_era build_and_earn_start_block state in
  (state, migrate_to_next_era (Some (current_subperiod state)) era_info,
   Some (NewSubperiod (current_subperiod state) (Protocol.period_number state)), era_reward).

(** The arm of a [BuildAndEarn] subperiod. *)
Definition end_build_and_earn_era (now : Z) (state : ProtocolState) (era_info : EraInfo) (s : St)
    : ProtocolState * EraInfo * option (Event AccountId) * EraReward * St :=
  let current_era := era state in
  let next_era := sat_add u32_max current_era 1 in
  let staked := EraInfo.total_staked_amount era_info in
  let '(staker_reward_pool, dapp_reward_pool) := staker_and_dapp_reward_pools (world s) staked in
  let era_reward := mkEraReward staker_reward_pool staked dapp_reward_pool in
  let '(dapp_tier_rewards, _) :=
    get_dapp_tier_assignment_and_rewards cfg current_era (Protocol.period_number state)
      dapp_reward_pool s in
  let s := put_dapp_tiers (<[current_era := dapp_tier_rewards]> (DAppTiers s)) s in
  if is_next_period (period_info state) next_era then
    let info := mkPeriodEndInfo (Primitives.bonus_reward_pool (world s))
                  (EraInfo.staked_amount era_info Voting) current_era in
    let s := put_period_end (<[Protocol.period_number state := info]> (PeriodEnd s)) s in
    let next_subperiod_start_era := sat_add u32_max next_era 1 in
    let next_era_start_block := sat_add u32_max now (blocks_per_voting_period cfg) in
    let state := advance_to_next_subperiod next_subperiod_start_era next_era_start_block state in
    (state, migrate_to_next_era (Some (current_subperiod state)) era_info,
     Some (NewSubperiod (current_subperiod state) (Protocol.period_number state)), era_reward,
     update_cleanup_marker (Protocol.period_number state) s)
  else
    let next_era_start_block := sat_add u32_max now (blocks_per_era cycle) in
    (set_next_era_start next_era_start_block state, migrate_to_next_era None era_info,
     None, era_reward, s).

(** The storage updates after either arm. *)
Definition finish_era (current_era : Z) (state : ProtocolState) (era_info : EraInfo)
    (period_event : option (Event AccountId)) (era_reward : EraReward) (s : St) : St :=
  let next_era := sat_add u32_max current_era 1 in
  let s := put_state (set_era next_era state) s in
  let s := put_era_info era_info s in
  let era_span_index := era_reward_span_index cfg current_era in
  let span := match EraRewards s !! era_span_index with
              | Some span => span
              | None => EraRewardSpan.new
              end in
  let span := snd (push (EraRewardSpanLength cfg) current_era era_reward span) in
  let s := put_era_rewards (<[era_span_index := span]> (EraRewards s)) s in
  let new_tier_config :=
    calculate_new (NumberOfTiers cfg) (BaseNativeCurrencyPrice cfg) (StaticTierParams s)
      (average_price (world s)) (total_issuance (world s)) in
  let s := if config_is_valid (NumberOfTiers cfg) new_tier_config
           then put_tier_config new_tier_config s else s in
  let s := deposit_event (NewEra next_era) s in
  match period_event with Some ev => deposit_event ev s | None => s end.

Definition era_and_period_handler (now : Z) (s : St) : St :=
  let state := ActiveProtocolState s in
  if maintenance state then s
  else
    let s := if next_era_start state =? sat_add u32_max now 1
             then put_world (notify_block_before_new_era state (world s)) s else s in
    if negb (is_new_era state now) then s
    else
      let era_info := CurrentEraInfo s in
      let current_era := era state in
      match current_subperiod state with
      | Voting =>
          let '(state, era_info, ev, reward) := end_voting now state era_info in
          finish_era current_era state era_info ev reward s
      | BuildAndEarn =>
          let '(state, era_info, ev, reward, s) := end_build_and_earn_era now state era_info s in
          finish_era current_era state era_info ev reward s
      end.

(** [enough_weight]: the remaining weight covers one full pass. *)
Definition expired_entry_cleanup (enough_weight : bool) (s : St) : St :=
  let m := HistoryCleanupMarker s in
  if negb enough_weight then s
  else if negb (has_pending_cleanups m) then s
  else
    let SL := EraRewardSpanLength cfg in
    let next_index := sat_add u32_max (era_reward_index m) SL in
    (* 1 *)
    let '(rewards, index) :=
      if era_reward_index m <? oldest_valid_era m then
        match EraRewards s !! era_reward_index m with
        | Some era_reward =>
            if last_era era_reward <? oldest_valid_era m
            then (delete (era_reward_index m) (EraRewards s), next_index)
            else (EraRewards s, era_reward_index m)
        | None => (EraRewards s, next_index)
        end
      else (EraRewards s, era_reward_index m) in
    (* 2 *)
    let '(tiers, tiers_index) :=
      if dapp_tiers_index m <? oldest_valid_era m
      then (delete (dapp_tiers_index m) (DAppTiers s), sat_add u32_max (dapp_tiers_index m) 1)
      else (DAppTiers s, dapp_tiers_index m) in
    let s := put_dapp_tiers tiers (put_era_rewards rewards s) in
    put_marker (mkCleanupMarker index tiers_index (oldest_valid_era m)) s.

(** The hooks; block numbers are saturated to [u32]. *)
Definition on_initialize (now : Z) (s : St) : St :=
  era_and_period_handler (saturated_into u32_max now) s.
Definition on_idle (enough_weight : bool) (s : St) : St := expired_entry_cleanup enough_weight s.
End handler.
