(* ===== verification/Invariant.v ===== *)
(** * The accounting invariant of dApp staking

    The protocol-wide totals of [CurrentEraInfo], the ledgers, the entries of
    [StakerInfo] and the balances agree in every state the pallet can reach;
    [TryState] shows that this is what the pallet's own [try_state] checks
    demand. *)

From S2P Require Import Prelude Frame Primitives StakeAmount EraInfo AccountLedger.
From S2P Require Import SingularStakingInfo ContractStakeAmount EraRewardSpan Tiers Protocol.
From S2P Require Import PalletState DAppStaking TierAssignment EraHandler.

(** ** What the pallet relies on *)

(** Paying a reward lowers nobody's balance. *)
Class RewardHandlerLaws (AccountId W : Type)
    `{!Currency AccountId W, !StakingRewardHandler AccountId W} : Prop := {
  payout_reward_balance w a x w' b :
    payout_reward w a x = Some w' -> total_balance w b <= total_balance w' b;
}.

(** Nor does telling the observers about the next era. *)
Class ObserverLaws (AccountId W : Type) `{!Currency AccountId W, !Observer W} : Prop := {
  block_before_new_era_balance w e b :
    total_balance w b <= total_balance (block_before_new_era w e) b;
}.

(** The configuration passes [integrity_test] and its bounds are [u32]. *)
Record config_ok (cfg : Config) : Prop := {
  config_integrity : integrity_test cfg = true;
  config_chunks : MaxUnlockingChunks cfg <= u32_max;
  config_contracts : MaxNumberOfStakedContracts cfg <= u32_max;
  config_dapps : MaxNumberOfContracts cfg <= u16_max;
  config_retention : RewardRetentionInPeriods cfg <= u32_max;
}.

(** ** The invariant *)

(** What an entry of [StakerInfo] counts for in period [p]. *)
Definition stake_in (p : Z) (i : SingularStakingInfo) : Z :=
  if SingularStakingInfo.period_number i =? p then SingularStakingInfo.total_staked_amount i else 0.

(** No entry of the ledger is of a period after [p]. *)
Definition periods_le (p : Z) (l : AccountLedger) : Prop :=
  StakeAmount.period (AccountLedger.staked l) <= p /\
  match AccountLedger.staked_future l with
  | Some f => StakeAmount.period f <= p
  | None => True
  end.

(** The amount of a ledger that is unlocking. *)
Definition unlocking_sum (l : AccountLedger) : Z := chunk_sum (unlocking l).

Section invariant.
Context {AccountId W : Type} `{Countable AccountId, !Currency AccountId W}.
Context (cfg : Config).

Abbreviation St := (Storage AccountId W).

Definition current_period (s : St) : Z := Protocol.period_number (ActiveProtocolState s).
Definition current_era (s : St) : Z := era (ActiveProtocolState s).

(** A ledger of an account with balance [balance] in period [p]. *)
Record ledger_inv (p balance : Z) (l : AccountLedger) : Prop := {
  li_wf : AccountLedger.wf (MaxUnlockingChunks cfg) l;
  li_minimum : locked l = 0 \/ MinimumLockedAmount cfg <= locked l;
  li_count : contract_stake_count l <= MaxNumberOfStakedContracts cfg;
  li_staked : AccountLedger.staked_amount l p <= locked l;
  li_periods : periods_le p l;
  li_balance : total_locked_amount l <= balance;
}.

(** An entry of [StakerInfo] in period [p]. *)
Record staker_inv (p : Z) (i : SingularStakingInfo) : Prop := {
  si_valid : SingularStakingInfo.valid i;
  si_period : SingularStakingInfo.period_number i <= p;
  si_minimum : MinimumStakeAmount cfg <= SingularStakingInfo.total_staked_amount i;
}.

Record Inv (s : St) : Prop := {
  inv_clock : 1 <= current_period s <= current_era s;
  inv_ledger a l :
    Ledger s !! a = Some l -> ledger_inv (current_period s) (total_balance (world s) a) l;
  inv_staker a c i : staker_info s a c = Some i -> staker_inv (current_period s) i;
  inv_stakes a :
    map_sum (stake_in (current_period s)) (stakers_of s a) =
    AccountLedger.staked_amount (ledger_of s a) (current_period s);
  inv_era_info : EraInfo.valid (CurrentEraInfo s);
  inv_locked : map_sum locked (Ledger s) = total_locked (CurrentEraInfo s);
  inv_unlocking : map_sum unlocking_sum (Ledger s) = EraInfo.unlocking (CurrentEraInfo s);
  inv_staked :
    map_sum (fun l => AccountLedger.staked_amount l (current_period s)) (Ledger s) =
    total_staked_amount_next_era (CurrentEraInfo s);
}.

(** ** Lemmas on ledgers *)

Lemma staked_amount_past p q l :
  periods_le p l -> p < q -> AccountLedger.staked_amount l q = 0.
Proof.
  intros [Hs Hf] Hpq. unfold AccountLedger.staked_amount.
  rewrite (proj2 (Z.eqb_neq _ _)) by lia.
  destruct (AccountLedger.staked_future l) as [f|]; [|done].
  by rewrite (proj2 (Z.eqb_neq _ _)) by lia.
Qed.

Lemma periods_le_mono p q l : periods_le p l -> p <= q -> periods_le q l.
Proof.
  intros [Hs Hf] Hpq. split; [lia|]. destruct (AccountLedger.staked_future l); [lia|done].
Qed.

Lemma ledger_inv_next_period p q b l : ledger_inv p b l -> p < q -> ledger_inv q b l.
Proof.
  intros [] Hpq. split; try done.
  - rewrite (staked_amount_past p) by done. destruct li_wf0. lia.
  - eapply periods_le_mono; [done|lia].
Qed.

Lemma ledger_inv_balance p b b' l : ledger_inv p b l -> b <= b' -> ledger_inv p b' l.
Proof. intros [] Hb. split; try done. lia. Qed.

(** The ledger of an account without one. *)
Lemma default_ledger_inv p b : config_ok cfg -> 0 <= p -> 0 <= b -> ledger_inv p b AccountLedger.default.
Proof.
  intros [Hi _ _ _ _] Hp Hb. unfold integrity_test in Hi. rewrite !andb_true_iff in Hi. split; simpl.
  - apply wf_no_chunks; unfold in_range; try lia. apply stake_wf_default.
  - by left.
  - lia.
  - unfold AccountLedger.staked_amount. simpl. by case_all.
  - split; simpl; [lia|done].
  - unfold total_locked_amount, unlocking_amount. simpl. ulia.
Qed.

(** An empty ledger counts for nothing. *)
Lemma empty_ledger n l p :
  AccountLedger.wf n l -> AccountLedger.is_empty l = true ->
  locked l = 0 /\ unlocking_sum l = 0 /\ AccountLedger.staked_amount l p = 0.
Proof.
  intros Hwf He. unfold AccountLedger.is_empty in He.
  rewrite !andb_true_iff, !bool_decide_eq_true in He. destruct He as [[[Hl Hu] Hs] Hf].
  unfold unlocking_sum, AccountLedger.staked_amount. rewrite Hf.
  destruct (unlocking l); [|done]. split_and!; [lia|done|]. case_all; lia.
Qed.

(** The sums over all ledgers stay in range: they are backed by balances. *)
Lemma map_sum_le_issuance `{!CurrencyLaws AccountId W} (w : W) (f : AccountLedger -> Z)
    (m : gmap AccountId AccountLedger) :
  (forall a l, m !! a = Some l -> f l <= total_balance w a) ->
  map_sum f m <= total_issuance w.
Proof.
  intros Hf. etrans; [|apply (total_balance_sum w (fst <$> map_to_list m));
    apply NoDup_fst_map_to_list].
  unfold map_sum. assert (Hall : forall kv, kv ∈ map_to_list m -> f (snd kv) <= total_balance w (fst kv)).
  { intros [a l] Hin. apply elem_of_map_to_list in Hin. by apply Hf. }
  induction (map_to_list m) as [|kv l IH]; [done|]. rewrite !fmap_cons. unfold zsum in *. cbn [foldr].
  pose proof (Hall kv (list_elem_of_here _ _)).
  specialize (IH (fun x Hx => Hall x (list_elem_of_further _ _ _ Hx))). lia.
Qed.

(** ** Updates of one account *)

(** The ledgers after [update_ledger]. *)
Definition updated (a : AccountId) (l : AccountLedger) (m : gmap AccountId AccountLedger)
    : gmap AccountId AccountLedger :=
  if AccountLedger.is_empty l then delete a m else <[a := l]> m.

(** [Ledger::mutate] stores the ledger whether it is empty or not. *)
Definition written (a : AccountId) (l : AccountLedger) (m m' : gmap AccountId AccountLedger)
    : Prop := m' = updated a l m \/ m' = <[a := l]> m.

Lemma written_sum (f : AccountLedger -> Z) (s : St) a l m' :
  f AccountLedger.default = 0 -> (AccountLedger.is_empty l = true -> f l = 0) ->
  written a l (Ledger s) m' ->
  map_sum f m' = map_sum f (Ledger s) - f (ledger_of s a) + f l.
Proof.
  intros Hd He Hw.
  assert (Hins : map_sum f (<[a := l]> (Ledger s)) =
    map_sum f (Ledger s) - f (ledger_of s a) + f l).
  { rewrite map_sum_insert. unfold at_key, ledger_of. destruct (Ledger s !! a); lia. }
  destruct Hw as [-> | ->]; [|done]. unfold updated.
  destruct (AccountLedger.is_empty l); [|done].
  rewrite map_sum_delete_key, He by done. unfold at_key, ledger_of. destruct (Ledger s !! a); lia.
Qed.

Lemma written_lookup a l m m' b l' :
  written a l m m' -> m' !! b = Some l' -> (b = a /\ l' = l) \/ (b <> a /\ m !! b = Some l').
Proof.
  intros [-> | ->]; [unfold updated; destruct (AccountLedger.is_empty l)|].
  1: by intros [Hne Hl]%lookup_delete_Some; auto.
  all: intros [[-> ->]|[Hne Hl]]%lookup_insert_Some; auto.
Qed.

Lemma written_lookup_ne a l m m' b : written a l m m' -> b <> a -> m' !! b = m !! b.
Proof.
  intros [-> | ->] Hne; [unfold updated; destruct (AccountLedger.is_empty l)|];
    by rewrite ?lookup_delete_ne, ?lookup_insert_ne.
Qed.

(** How an operation changes the totals, when they stay in range. *)
Definition era_update (e e' : EraInfo) (dl du ds : Z) : Prop :=
  EraInfo.valid e -> in_range u128_max (total_locked e + dl) ->
  in_range u128_max (EraInfo.unlocking e + du) ->
  in_range u128_max (total_staked_amount_next_era e + ds) ->
  EraInfo.valid e' /\ total_locked e' = total_locked e + dl /\
  EraInfo.unlocking e' = EraInfo.unlocking e + du /\
  total_staked_amount_next_era e' = total_staked_amount_next_era e + ds.

Lemma era_update_id e : era_update e e 0 0 0.
Proof. intros Hv _ _ _. split_and!; done || lia. Qed.

Lemma era_update_lock x e : 0 <= x -> era_update e (add_locked x e) x 0 0.
Proof. intros Hx (?&?&?&?) ???. unfold EraInfo.valid, total_staked_amount_next_era in *. simpl. split_and!; try done; ulia. Qed.

Lemma era_update_unlock x e : 0 <= x -> era_update e (unlocking_started x e) (- x) x 0.
Proof. intros Hx (?&?&?&?) ???. unfold EraInfo.valid, total_staked_amount_next_era in *. simpl. split_and!; try done; ulia. Qed.

Lemma era_update_unlocked x e : 0 <= x -> era_update e (unlocking_removed x e) 0 (- x) 0.
Proof. intros Hx (?&?&?&?) ???. unfold EraInfo.valid, total_staked_amount_next_era in *. simpl. split_and!; try done; ulia. Qed.

Lemma era_update_relock x e :
  0 <= x -> era_update e (unlocking_removed x (add_locked x e)) x (- x) 0.
Proof. intros Hx (?&?&?&?) ???. unfold EraInfo.valid, total_staked_amount_next_era in *. simpl. split_and!; try done; ulia. Qed.

Lemma era_update_stake x sp e : 0 <= x -> era_update e (EraInfo.add_stake_amount x sp e) 0 0 x.
Proof.
  intros Hx (?&?&Hc&Hn) ?? Hs. unfold EraInfo.valid, total_staked_amount_next_era, in_range in *.
  simpl. rewrite total_add by (done || lia).
  split_and!; try done; try lia. apply add_valid; done || lia.
Qed.

Lemma era_update_unstake x e : 0 <= x -> era_update e (EraInfo.unstake_amount x e) 0 0 (- x).
Proof.
  intros Hx (?&?&Hc&Hn) ?? Hs. unfold EraInfo.valid, total_staked_amount_next_era, in_range in *.
  simpl. rewrite total_subtract by (done || lia).
  split_and!; try done; try lia; try (by apply subtract_valid); ulia.
Qed.

(** The frame of an update of account [a] to ledger [l]. *)
Record account_update (s s' : St) (a : AccountId) (l : AccountLedger) : Prop := {
  au_state : ActiveProtocolState s' = ActiveProtocolState s;
  au_ledger : written a l (Ledger s) (Ledger s');
  au_balance b : total_balance (world s) b <= total_balance (world s') b;
  au_others b : b <> a -> stakers_of s' b = stakers_of s b;
}.

Lemma inv_account_update `{!CurrencyLaws AccountId W} s s' a l dl du ds :
  let p := current_period s in
  Inv s -> account_update s s' a l ->
  ledger_inv p (total_balance (world s') a) l ->
  (forall c i, staker_info s' a c = Some i -> staker_inv p i) ->
  map_sum (stake_in p) (stakers_of s' a) = AccountLedger.staked_amount l p ->
  era_update (CurrentEraInfo s) (CurrentEraInfo s') dl du ds ->
  dl = locked l - locked (ledger_of s a) ->
  du = unlocking_sum l - unlocking_sum (ledger_of s a) ->
  ds = AccountLedger.staked_amount l p - AccountLedger.staked_amount (ledger_of s a) p ->
  Inv s'.
Proof.
  intros p Hinv [Hst Hl Hbal Hoth] Hli Hsi Hsum Hera -> -> ->.
  assert (Hp : current_period s' = p) by (unfold current_period; by rewrite Hst).
  assert (He : current_era s' = current_era s) by (unfold current_era; by rewrite Hst).
  assert (Hall : forall b l', Ledger s' !! b = Some l' ->
    ledger_inv p (total_balance (world s') b) l').
  { intros b l' Hb. eapply written_lookup in Hb as [[-> ->]|[Hne Hb]]; [done| |exact Hl].
    eapply ledger_inv_balance; [by apply (inv_ledger s Hinv)|auto]. }
  assert (Hwf : forall b l', Ledger s' !! b = Some l' ->
    0 <= locked l' /\ 0 <= unlocking_sum l' /\ 0 <= AccountLedger.staked_amount l' p <= locked l' /\
    locked l' + unlocking_sum l' <= total_balance (world s') b).
  { intros b l' Hb. destruct (Hall b l' Hb) as [Hw _ _ Hs _ Hb']. unfold unlocking_sum.
    rewrite (total_locked_exact (MaxUnlockingChunks cfg)) in Hb' by done.
    pose proof (staked_amount_nonneg l' p (wf_stake _ _ Hw)).
    pose proof (chunk_sum_nonneg _ (wf_chunks _ _ Hw)). pose proof (wf_locked _ _ Hw). lia. }
  pose proof (total_issuance_range (world s')) as Hti. unfold in_range in Hti.
  assert (Hrange : forall f, (forall b l', Ledger s' !! b = Some l' ->
      0 <= f l' <= total_balance (world s') b) -> in_range u128_max (map_sum f (Ledger s'))).
  { intros f Hf. split; [apply map_sum_nonneg; intros b l' Hb; by apply (Hf b)|].
    etrans; [apply (map_sum_le_issuance (world s'))|lia]. intros b l' Hb. by apply Hf. }
  assert (Hempty := fun He => empty_ledger (MaxUnlockingChunks cfg) l p (li_wf _ _ _ Hli) He).
  assert (Hdef : forall q, AccountLedger.staked_amount AccountLedger.default q = 0)
    by (intros q; unfold AccountLedger.staked_amount; simpl; by case_all).
  pose proof (written_sum locked s a l _ eq_refl (fun He => proj1 (Hempty He)) Hl) as Slock.
  pose proof (written_sum unlocking_sum s a l _ eq_refl
    (fun He => proj1 (proj2 (Hempty He))) Hl) as Sunl.
  pose proof (written_sum (fun l => AccountLedger.staked_amount l p) s a l _ (Hdef p)
    (fun He => proj2 (proj2 (Hempty He))) Hl) as Sstk. simpl in Sstk.
  rewrite (inv_locked s Hinv) in Slock. rewrite (inv_unlocking s Hinv) in Sunl.
  unfold p in Sstk. rewrite (inv_staked s Hinv) in Sstk. fold p in Sstk.
  destruct Hera as (Hv & E1 & E2 & E3).
  - apply Hinv.
  - replace (_ + _) with (map_sum locked (Ledger s')) by lia.
    apply Hrange. intros b l' Hb. specialize (Hwf b l' Hb). lia.
  - replace (_ + _) with (map_sum unlocking_sum (Ledger s')) by lia.
    apply Hrange. intros b l' Hb. specialize (Hwf b l' Hb). lia.
  - replace (_ + _) with (map_sum (fun l => AccountLedger.staked_amount l p) (Ledger s')) by lia.
    apply (Hrange (fun l => AccountLedger.staked_amount l p)).
    intros b l' Hb. specialize (Hwf b l' Hb). lia.
  - split; rewrite ?Hp, ?He; try done; try lia; [apply Hinv| |].
    + intros b c i Hi. destruct (decide (b = a)) as [->|Hne]; [by apply (Hsi c)|].
      unfold staker_info in Hi. rewrite Hoth in Hi by done. by apply (inv_staker s Hinv b c).
    + intros b. destruct (decide (b = a)) as [->|Hne].
      * rewrite Hsum. unfold ledger_of.
        destruct Hl as [-> | ->]; [unfold updated|by rewrite lookup_insert_eq].
        destruct (AccountLedger.is_empty l) eqn:Hem; [|by rewrite lookup_insert_eq].
        rewrite lookup_delete_eq, Hdef. by destruct (Hempty eq_refl) as (_ & _ & ->).
      * rewrite Hoth by done. unfold ledger_of. rewrite (written_lookup_ne _ _ _ _ _ Hl Hne).
        apply (inv_stakes s Hinv b).
Qed.
End invariant.
