(* ===== verification/Preservation.v ===== *)
(** * Every operation of the pallet preserves the accounting invariant *)

From S2P Require Import Prelude Frame Primitives StakeAmount EraInfo AccountLedger.
From S2P Require Import SingularStakingInfo ContractStakeAmount EraRewardSpan Tiers Protocol.
From S2P Require Import PalletState DAppStaking TierAssignment EraHandler Invariant.

Section preservation.
Context {AccountId Origin W : Type} `{Countable AccountId}.
Context `{!SpArithmetic, !Currency AccountId W, !FrameSystem AccountId Origin W}.
Context `{!Observer W, !StakingRewardHandler AccountId W, !AccountCheck AccountId W}.
Context `{!PrivilegedOrigins Origin, !PrefixOrder AccountId}.
Context `{!CurrencyLaws AccountId W, !RewardHandlerLaws AccountId W, !ObserverLaws AccountId W}.
Context (cfg : Config) (Hcfg : config_ok cfg).

Abbreviation St := (Storage AccountId W).
Abbreviation Inv := (Inv cfg).

Lemma update_ledger_ok a l (s s' : St) :
  update_ledger a l s = Ok s' ->
  exists w, s' = put_world w (put_ledger (updated a l (Ledger s)) s) /\
    forall b, total_balance w b = total_balance (world s) b.
Proof.
  unfold update_ledger, updated. intros Hu. result_inv; eexists; (split; [done|]); intros b.
  - by eapply thaw_balance.
  - by eapply set_freeze_balance.
Qed.

Lemma total_balance_range (w : W) a : 0 <= total_balance w a <= u128_max.
Proof.
  pose proof (total_issuance_range w) as Hti. unfold in_range in Hti.
  pose proof (total_balance_sum w [a] ltac:(apply NoDup_singleton)) as Hbs.
  unfold zsum in Hbs. simpl in Hbs. pose proof (total_balance_nonneg w a). lia.
Qed.

(** The ledger of any account satisfies the invariant. *)
Lemma ledger_of_inv (s : St) a :
  Inv s -> ledger_inv cfg (current_period s) (total_balance (world s) a) (ledger_of s a).
Proof.
  intros Hinv. unfold ledger_of. destruct (Ledger s !! a) as [l|] eqn:Hl; [by apply Hinv|].
  pose proof (inv_clock _ s Hinv). apply default_ledger_inv; [done|lia|apply total_balance_nonneg].
Qed.

(** Operations that touch neither ledgers, totals, stakes nor the clock. *)
Lemma inv_frame (s s' : St) :
  Inv s -> current_period s' = current_period s -> current_era s' = current_era s ->
  Ledger s' = Ledger s -> StakerInfo s' = StakerInfo s -> CurrentEraInfo s' = CurrentEraInfo s ->
  (forall b l, Ledger s !! b = Some l -> total_locked_amount l <= total_balance (world s') b) ->
  Inv s'.
Proof.
  intros [] Hp He Hl Hs Hei Hb.
  assert (Hsk : forall a, stakers_of s' a = stakers_of s a)
    by (intros a; unfold stakers_of; by rewrite Hs).
  assert (Hlo : forall a, ledger_of s' a = ledger_of s a)
    by (intros a; unfold ledger_of; by rewrite Hl).
  split; rewrite ?Hp, ?He, ?Hl, ?Hei; try done.
  - intros a l Ha. destruct (inv_ledger a l Ha). split; try done. by apply Hb.
  - intros a c i. unfold staker_info. rewrite Hsk. apply inv_staker.
  - intros a. rewrite Hsk, Hlo. apply inv_stakes.
Qed.

Lemma inv_frame_world (s s' : St) :
  Inv s -> ActiveProtocolState s' = ActiveProtocolState s ->
  Ledger s' = Ledger s -> StakerInfo s' = StakerInfo s -> CurrentEraInfo s' = CurrentEraInfo s ->
  (forall b, total_balance (world s) b <= total_balance (world s') b) -> Inv s'.
Proof.
  intros Hinv Hst Hl Hs He Hb. apply (inv_frame s); try done; unfold current_period, current_era;
    rewrite ?Hst; try done.
  intros b l Hbl. etrans; [|apply Hb]. by apply (inv_ledger _ s Hinv b l).
Qed.

Lemma stakers_of_put_eq a m (s : St) : stakers_of (put_stakers_of a m s) a = m.
Proof. unfold stakers_of. simpl. by rewrite lookup_insert_eq. Qed.

Lemma stakers_of_put_ne a b m (s : St) :
  b <> a -> stakers_of (put_stakers_of a m s) b = stakers_of s b.
Proof. intros Hne. unfold stakers_of. simpl. by rewrite lookup_insert_ne. Qed.

(** ** Locking and unlocking *)

(** An update of account [acc] that leaves its stakes alone. *)
Lemma relocked_preserves (s s' : St) acc l' dl du :
  let l := ledger_of s acc in let p := current_period s in
  Inv s -> account_update s s' acc l' ->
  l' = set_unlocking (unlocking l') (set_locked (locked l') l) ->
  AccountLedger.wf (MaxUnlockingChunks cfg) l' ->
  (locked l' = 0 \/ MinimumLockedAmount cfg <= locked l') ->
  AccountLedger.staked_amount l p <= locked l' ->
  locked l' + unlocking_sum l' <= total_balance (world s') acc ->
  (forall c i, staker_info s' acc c = Some i -> staker_info s acc c = Some i) ->
  map_sum (stake_in p) (stakers_of s' acc) = map_sum (stake_in p) (stakers_of s acc) ->
  era_update (CurrentEraInfo s) (CurrentEraInfo s') dl du 0 ->
  dl = locked l' - locked l -> du = unlocking_sum l' - unlocking_sum l ->
  Inv s'.
Proof.
  intros l p Hinv Hau Hl' Hwf Hmin Hst Hbal Hsub Hsum Hera Hdl Hdu.
  pose proof (ledger_of_inv s acc Hinv) as Hli. fold l p in Hli.
  assert (Hsa : AccountLedger.staked_amount l' p = AccountLedger.staked_amount l p)
    by (rewrite Hl'; done).
  apply (inv_account_update cfg s s' acc l' dl du 0); try done; fold l p.
  - destruct Hli as [Hw ? Hcnt ? Hper ?]. split; try done.
    + rewrite Hl'. exact Hcnt.
    + by rewrite Hsa.
    + rewrite Hl'. exact Hper.
    + by rewrite (total_locked_exact (MaxUnlockingChunks cfg)).
  - intros c i Hi. apply (inv_staker _ s Hinv acc c). auto.
  - rewrite Hsum, Hsa. apply (inv_stakes _ s Hinv acc).
  - lia.
Qed.

(** The facts about account [acc] every operation on it starts from. *)
Lemma account_facts (s : St) acc :
  Inv s ->
  let l := ledger_of s acc in
  ledger_inv cfg (current_period s) (total_balance (world s) acc) l /\
  0 <= locked l /\ 0 <= unlocking_sum l /\
  locked l + unlocking_sum l <= total_balance (world s) acc <= u128_max /\
  total_locked_amount l = locked l + unlocking_sum l /\
  0 <= AccountLedger.staked_amount l (current_period s) <= locked l.
Proof.
  intros Hinv l. pose proof (ledger_of_inv s acc Hinv) as Hli. fold l in Hli.
  pose proof (li_wf _ _ _ _ Hli) as Hwf. pose proof (total_balance_range (world s) acc).
  pose proof (wf_locked _ _ Hwf). pose proof (chunk_sum_nonneg _ (wf_chunks _ _ Hwf)).
  pose proof (total_locked_exact _ _ Hwf). pose proof (li_balance _ _ _ _ Hli).
  pose proof (staked_amount_nonneg l (current_period s) (wf_stake _ _ Hwf)).
  pose proof (li_staked _ _ _ _ Hli). unfold unlocking_sum. split_and!; done || lia.
Qed.

Lemma updated_frame (s s' : St) acc l w :
  s' = put_world w (put_ledger (updated acc l (Ledger s)) s) ->
  (forall b, total_balance w b = total_balance (world s) b) -> account_update s s' acc l.
Proof. intros -> Hw. split; try done; [by left|]. intros b. simpl. by rewrite Hw. Qed.

Lemma lock_preserves o x (s s' : St) :
  0 <= x -> Inv s -> lock cfg o x s = Ok s' -> Inv s'.
Proof.
  intros Hx Hinv Hop. unfold lock in Hop. cbv zeta in Hop.
  bind_inv Hop as u Een. bind_inv Hop as acc Esig. guard_inv Hop as Eallow.
  destruct (account_facts s acc Hinv) as (Hli & Hlk & Hun & Hb & Htl & Hst).
  remember (ledger_of s acc) as l eqn:El. remember (Z.min _ x) as y eqn:Ey.
  guard_inv Hop as Ey0. guard_inv Hop as Emin. bind_inv Hop as s1 Eup. injection Hop as <-.
  apply update_ledger_ok in Eup as (w & -> & Hw).
  assert (Hy : 0 < y <= total_balance (world s) acc - total_locked_amount l) by ulia.
  assert (Hadd : add_lock_amount y l = set_locked (locked l + y) l).
  { unfold add_lock_amount. by rewrite sat_add_exact by lia. }
  rewrite Hadd in *. unfold active_locked_amount in Emin. unfold unlocking_sum in *. simpl in Emin.
  apply (relocked_preserves s _ acc (set_locked (locked l + y) l) y 0); rewrite <- ?El; simpl;
    try done; try lia.
  - split; try done; [by left|]. intros b. simpl. by rewrite Hw.
  - destruct Hli as [[] ? ? ? ? ?]. split; simpl; try done; lia.
  - rewrite Hw. unfold unlocking_sum. simpl. lia.
  - apply era_update_lock. lia.
  - unfold unlocking_sum. simpl. lia.
Qed.

(** What [unlock] leaves behind: [y] moved from locked to unlocking in the
    caller's new ledger [l']. *)
Record unlock_update (s s' : St) (a : AccountId) (x y : Z) (l' : AccountLedger) : Prop := {
  ul_state : ActiveProtocolState s' = ActiveProtocolState s;
  ul_ledger : Ledger s' = updated a l' (Ledger s);
  ul_balance b : total_balance (world s') b = total_balance (world s) b;
  ul_stakers : StakerInfo s' = StakerInfo s;
  ul_era_info : CurrentEraInfo s' = unlocking_started y (CurrentEraInfo s);
  ul_amount : 0 < y <= locked (ledger_of s a);
  ul_requested :
    y = Z.min x (locked (ledger_of s a) -
                 AccountLedger.staked_amount (ledger_of s a) (current_period s)) \/
    y = locked (ledger_of s a) /\
      AccountLedger.staked_amount (ledger_of s a) (current_period s) = 0;
  ul_wf : AccountLedger.wf (MaxUnlockingChunks cfg) l';
  ul_locked : locked l' = locked (ledger_of s a) - y;
  ul_minimum : locked l' = 0 \/ MinimumLockedAmount cfg <= locked l';
  ul_backed : AccountLedger.staked_amount (ledger_of s a) (current_period s) <= locked l';
  ul_unlocking : unlocking_sum l' = unlocking_sum (ledger_of s a) + y;
  ul_rest : l' = set_unlocking (unlocking l') (set_locked (locked l') (ledger_of s a));
}.

Lemma unlock_facts o x (s s' : St) :
  0 <= x -> Inv s -> unlock cfg o x s = Ok s' ->
  exists a y l', ensure_signed o = Some a /\ unlock_update s s' a x y l'.
Proof.
  intros Hx Hinv Hop. unfold unlock in Hop. cbv zeta in Hop.
  bind_inv Hop as u Een. bind_inv Hop as acc Esig. bind_inv Hop as y Ey.
  destruct (account_facts s acc Hinv) as (Hli & Hlk & Hun & Hb & Htl & Hst).
  guard_inv Hop as Ey0. bind_inv Hop as l' El'. bind_inv Hop as s1 Eup. injection Hop as <-.
  apply update_ledger_ok in Eup as (w & -> & Hw).
  change (number (period_info (ActiveProtocolState s))) with (current_period s) in Ey.
  unfold unlockable_amount, active_locked_amount in Ey.
  exists acc, y, l'. split; [unfold signed, ok_or in Esig; by result_inv|].
  remember (ledger_of s acc) as l eqn:El.
  assert (Hy : 0 < y <= locked l /\
    (locked l - y = 0 \/ MinimumLockedAmount cfg <= locked l - y) /\
    AccountLedger.staked_amount l (current_period s) <= locked l - y /\
    (y = Z.min x (locked l - AccountLedger.staked_amount l (current_period s)) \/
     y = locked l /\ AccountLedger.staked_amount l (current_period s) = 0)).
  { destruct (_ <? MinimumLockedAmount cfg) eqn:Hm in Ey.
    - guard_inv Ey as Hz. injection Ey as <-. lia.
    - injection Ey as <-. ulia. }
  assert (Hsub : subtract_lock_amount y l = set_locked (locked l - y) l).
  { unfold subtract_lock_amount. by rewrite sat_sub_exact by lia. }
  rewrite Hsub in El'. pose proof (li_wf _ _ _ _ Hli) as Hwf.
  assert (Hwf1 : AccountLedger.wf (MaxUnlockingChunks cfg) (set_locked (locked l - y) l)).
  { destruct Hwf. unfold unlocking_sum in *. split; simpl; try done; lia. }
  unfold map_err in El'. destruct (add_unlocking_chunk _ _ _ _) as [l1|] eqn:Eadd; [|done].
  injection El' as <-. unfold unlocking_sum in *.
  apply add_unlocking_chunk_wf in Eadd as (Hwf' & Hcs & Heq); [|done|lia|simpl; lia].
  simpl in Hcs.
  assert (Hlk' : locked l1 = locked l - y) by (rewrite Heq; done).
  split; rewrite <- ?El, ?Hlk'; try done; tauto.
Qed.

Lemma unlock_preserves o x (s s' : St) :
  0 <= x -> Inv s -> unlock cfg o x s = Ok s' -> Inv s'.
Proof.
  intros Hx Hinv Hop. apply unlock_facts in Hop as (acc & y & l' & _ & []); [|done..].
  destruct (account_facts s acc Hinv) as (Hli & Hlk & Hun & Hb & Htl & Hst).
  apply (relocked_preserves s _ acc l' (- y) y); try done; try lia.
  - split; try done; [by left|intros b; by rewrite ul_balance0|].
    intros b _. unfold stakers_of. by rewrite ul_stakers0.
  - rewrite ul_balance0. lia.
  - unfold staker_info, stakers_of. by rewrite ul_stakers0.
  - unfold stakers_of. by rewrite ul_stakers0.
  - rewrite ul_era_info0. apply era_update_unlock. lia.
Qed.

Lemma relock_preserves o (s s' : St) :
  Inv s -> relock_unlocking cfg o s = Ok s' -> Inv s'.
Proof.
  intros Hinv Hop. unfold relock_unlocking in Hop. cbv zeta in Hop.
  bind_inv Hop as u Een. bind_inv Hop as acc Esig. guard_inv Hop as Ene.
  destruct (account_facts s acc Hinv) as (Hli & Hlk & Hun & Hb & Htl & Hst).
  remember (ledger_of s acc) as l eqn:El. pose proof (li_wf _ _ _ _ Hli) as Hwf.
  assert (Hn : 0 <= MaxUnlockingChunks cfg) by (pose proof (AccountLedger.wf_length _ _ Hwf); lia).
  pose proof (consume_unlocking_chunks_ok _ l Hwf Hn) as Hc.
  destruct (consume_unlocking_chunks l) as [y l1]. destruct Hc as (Hwf1 & -> & Hy & ->).
  unfold unlocking_sum in *.
  assert (Hadd : add_lock_amount (chunk_sum (unlocking l)) (set_unlocking [] l) =
    set_locked (locked l + chunk_sum (unlocking l)) (set_unlocking [] l)).
  { unfold add_lock_amount. by rewrite sat_add_exact by (simpl; lia). }
  rewrite Hadd in Hop. guard_inv Hop as Emin. bind_inv Hop as s1 Eup. injection Hop as <-.
  apply update_ledger_ok in Eup as (w & -> & Hw).
  unfold active_locked_amount in Emin. simpl in Emin.
  apply (relocked_preserves s _ acc (set_locked (locked l + chunk_sum (unlocking l))
    (set_unlocking [] l)) (chunk_sum (unlocking l)) (- chunk_sum (unlocking l)));
    rewrite <- ?El; simpl; try done; try lia.
  - split; try done; [by left|]. intros b. simpl. by rewrite Hw.
  - destruct Hwf1. simpl in *. split; simpl; try done; change (chunk_sum []) with 0 in *; lia.
  - rewrite Hw. unfold unlocking_sum. simpl. change (chunk_sum []) with 0. lia.
  - by apply era_update_relock.
Qed.

(** Removing entries one by one. *)
Lemma foldl_delete_lookup {K V} `{Countable K} (ks : list K) (m : gmap K V) k v :
  foldl (fun m k => delete k m) m ks !! k = Some v -> m !! k = Some v.
Proof.
  revert m. induction ks as [|k' ks IH]; intros m Hl; simpl in Hl; [done|].
  apply IH, lookup_delete_Some in Hl. tauto.
Qed.

Lemma foldl_delete_sum {K V} `{Countable K} (f : V -> Z) (ks : list K) (m : gmap K V) :
  (forall k v, m !! k = Some v -> 0 <= f v) ->
  0 <= map_sum f (foldl (fun m k => delete k m) m ks) <= map_sum f m.
Proof.
  revert m. induction ks as [|k ks IH]; intros m Hf; simpl.
  - split; [by apply map_sum_nonneg|lia].
  - assert (Hd : forall k' v, delete k m !! k' = Some v -> 0 <= f v)
      by (intros k' v [_ Hl]%lookup_delete_Some; by apply (Hf k')).
    specialize (IH (delete k m) Hd). rewrite map_sum_delete_key in IH.
    assert (0 <= at_key f m k) by (unfold at_key; destruct (m !! k) eqn:Hk; [by apply (Hf k)|lia]).
    lia.
Qed.

Lemma config_positive :
  0 < MinimumStakeAmount cfg /\ 0 < MinimumLockedAmount cfg /\
  0 < EraRewardSpanLength cfg /\ 0 < RewardRetentionInPeriods cfg.
Proof.
  destruct Hcfg as [Hi _ _ _ _]. unfold integrity_test in Hi. rewrite !andb_true_iff in Hi. lia.
Qed.

Lemma stake_in_nonneg (s : St) a c i :
  Inv s -> stakers_of s a !! c = Some i -> 0 <= stake_in (current_period s) i.
Proof.
  intros Hinv Hi. destruct (inv_staker _ s Hinv a c i Hi) as [_ _ Hm].
  pose proof config_positive. unfold stake_in. destruct (_ =? _); lia.
Qed.

Lemma claim_unlocked_preserves acc (s s' : St) :
  Inv s -> internal_claim_unlocked acc s = Ok s' -> Inv s'.
Proof.
  intros Hinv Hop. unfold internal_claim_unlocked in Hop.
  destruct (account_facts s acc Hinv) as (Hli & Hlk & Hun & Hb & Htl & Hst).
  pose proof (inv_stakes _ s Hinv acc) as Hsum.
  remember (ledger_of s acc) as l eqn:El. pose proof (li_wf _ _ _ _ Hli) as Hwf.
  pose proof (claim_unlocked_ok _ (saturated_into u32_max (block_number (world s))) l Hwf) as Hc.
  destruct (AccountLedger.claim_unlocked _ l) as [y l1].
  destruct Hc as (Hwf1 & _ & Hy & Hcs & Hl1). guard_inv Hop as Ey. cbv zeta in Hop.
  assert (Hlk1 : locked l1 = locked l) by (rewrite Hl1; done).
  assert (Hsa : AccountLedger.staked_amount l1 (current_period s) =
    AccountLedger.staked_amount l (current_period s)) by (rewrite Hl1; done).
  bind_inv Hop as s1 Eup. injection Hop as <-. apply update_ledger_ok in Eup as (w & -> & Hw).
  unfold unlocking_sum in *.
  assert (Hcl : (forall c i, staker_info (if AccountLedger.is_empty l1
        then clear_prefix acc (contract_stake_count l1) s else s) acc c = Some i ->
      staker_info s acc c = Some i) /\
    map_sum (stake_in (current_period s)) (stakers_of (if AccountLedger.is_empty l1
        then clear_prefix acc (contract_stake_count l1) s else s) acc) =
    map_sum (stake_in (current_period s)) (stakers_of s acc)).
  { destruct (AccountLedger.is_empty l1) eqn:Hem; [|done].
    unfold staker_info, clear_prefix. rewrite stakers_of_put_eq.
    split; [intros c i; apply foldl_delete_lookup|].
    destruct (empty_ledger _ l1 (current_period s) Hwf1 Hem) as (_ & _ & Hz).
    pose proof (foldl_delete_sum (stake_in (current_period s))
      (take (Z.to_nat (contract_stake_count l1)) (prefix_keys (stakers_of s acc)))
      (stakers_of s acc) (fun c i Hi => stake_in_nonneg s acc c i Hinv Hi)). lia. }
  destruct Hcl as [Hsub Hsm].
  apply (relocked_preserves s _ acc l1 0 (- y)); rewrite <- ?El; try done; try lia.
  - split; simpl.
    + by destruct (AccountLedger.is_empty l1).
    + left. by destruct (AccountLedger.is_empty l1).
    + intros b. rewrite Hw. by destruct (AccountLedger.is_empty l1).
    + intros b Hb'. destruct (AccountLedger.is_empty l1); [|done].
      by apply stakers_of_put_ne.
  - rewrite Hlk1. rewrite Hl1 at 1. by destruct l.
  - rewrite Hlk1. apply Hli.
  - unfold unlocking_sum. simpl. rewrite Hw.
    replace (world (if AccountLedger.is_empty l1 then _ else s)) with (world s)
      by by destruct (AccountLedger.is_empty l1). lia.
  - simpl. replace (CurrentEraInfo (if AccountLedger.is_empty l1 then _ else s))
      with (CurrentEraInfo s) by by destruct (AccountLedger.is_empty l1).
    by apply era_update_unlocked.
  - unfold unlocking_sum. lia.
Qed.

(** ** Staking *)

Lemma staked_period_amount l p q :
  stake_wf (AccountLedger.staked l) (AccountLedger.staked_future l) ->
  staked_period l = Some q -> q <> p -> AccountLedger.staked_amount l p = 0.
Proof.
  intros Hwf Hq Hne. rewrite staked_amount_latest by done. destruct Hwf as (Hv & Hd & Hf).
  unfold staked_period, latest in *. rewrite is_empty_total in Hq by done.
  pose proof (total_nonneg _ Hv).
  destruct (AccountLedger.staked_future l) as [f|], (total (AccountLedger.staked l) =? 0) eqn:?;
    simplify_eq/=; by rewrite (proj2 (Z.eqb_neq _ _)) by lia.
Qed.

Lemma maybe_cleanup_facts n t p l :
  AccountLedger.wf n l -> periods_le p l -> 1 <= p -> t <= p ->
  let l1 := snd (maybe_cleanup_expired t l) in
  AccountLedger.wf n l1 /\ periods_le p l1 /\
  AccountLedger.staked_amount l1 p = AccountLedger.staked_amount l p /\
  l1 = set_stake (AccountLedger.staked l1) (AccountLedger.staked_future l1) l.
Proof.
  intros Hwf Hper Hp Ht. unfold maybe_cleanup_expired.
  destruct (staked_period l) as [q|] eqn:Hq; [destruct (q <? t) eqn:Hlt|]; simpl;
    try (split_and!; try done; by destruct l).
  rewrite (staked_period_amount l p q) by (apply Hwf || done || lia). split_and!.
  - apply stake_wf_set; [done|apply stake_wf_default].
  - split; simpl; [lia|done].
  - unfold AccountLedger.staked_amount. simpl. by case_all.
  - done.
Qed.

(** The entry that is staked on: of the ongoing period, and counted as such. *)
Lemma entry_to_stake_facts st t p (entry : option SingularStakingInfo) i b :
  Protocol.period_number st = p ->
  (forall i, entry = Some i -> staker_inv cfg p i) ->
  entry_to_stake st t entry = Ok (i, b) ->
  SingularStakingInfo.valid i /\ SingularStakingInfo.period_number i = p /\
  0 <= SingularStakingInfo.total_staked_amount i /\
  SingularStakingInfo.total_staked_amount i =
    match entry with Some j => stake_in p j | None => 0 end.
Proof.
  intros Hp Hinv He. unfold entry_to_stake in He. rewrite Hp in He.
  assert (Hnew : SingularStakingInfo.valid (SingularStakingInfo.new p (current_subperiod st)))
    by apply new_valid.
  destruct entry as [j|]; [|by simplify_eq; split_and!].
  unfold stake_in. destruct (_ =? p) eqn:Hj.
  - simplify_eq. destruct (Hinv i eq_refl) as [Hv _ Hm]. pose proof config_positive.
    split_and!; done || lia.
  - destruct (_ && _); simplify_eq. by split_and!.
Qed.

Lemma periods_le_staked n a e pi l l' :
  AccountLedger.wf n l -> 0 < a -> 0 <= e < u32_max -> 0 <= number pi ->
  AccountLedger.add_stake_amount a e pi l = Ok l' -> periods_le (number pi) l'.
Proof.
  intros Hwf Ha He Hp Hok. pose proof (add_stake_amount_ok n a e pi l l' Hwf Ha He Hok)
    as (Hwf' & _ & _ & _ & _ & (f & Hf & _ & Hfp) & Hs).
  destruct (wf_stake _ _ Hwf') as (Hv & Hd & _). split; [|rewrite Hf; lia].
  pose proof (total_nonneg _ Hv).
  destruct (Z.eq_dec (total (AccountLedger.staked l')) 0) as [Hz|Hz].
  - rewrite (Hd Hz). simpl. lia.
  - destruct Hs as [_ ->]; lia.
Qed.

(** An update of account [acc] that changes its stakes by [dx]. *)
Lemma restaked_preserves (s s' : St) acc l' dx :
  let l := ledger_of s acc in let p := current_period s in
  Inv s -> account_update s s' acc l' ->
  locked l' = locked l -> unlocking l' = unlocking l ->
  AccountLedger.wf (MaxUnlockingChunks cfg) l' ->
  contract_stake_count l' <= MaxNumberOfStakedContracts cfg ->
  AccountLedger.staked_amount l' p = AccountLedger.staked_amount l p + dx ->
  AccountLedger.staked_amount l' p <= locked l -> periods_le p l' ->
  (forall c i, staker_info s' acc c = Some i -> staker_inv cfg p i) ->
  map_sum (stake_in p) (stakers_of s' acc) = map_sum (stake_in p) (stakers_of s acc) + dx ->
  era_update (CurrentEraInfo s) (CurrentEraInfo s') 0 0 dx ->
  Inv s'.
Proof.
  intros l p Hinv Hau Hlk Hun Hwf Hcnt Hsa Hst Hper Hsi Hsum Hera.
  destruct (account_facts s acc Hinv) as (Hli & _ & _ & Hb & _ & _). fold l p in Hli, Hb.
  pose proof (au_balance _ _ _ _ Hau acc) as Hbal.
  apply (inv_account_update cfg s s' acc l' 0 0 dx); try done; fold l p.
  - destruct Hli as [_ Hmin _ _ _ _]. split; try done; [by rewrite Hlk|by rewrite Hlk|].
    rewrite (total_locked_exact (MaxUnlockingChunks cfg)) by done.
    rewrite Hlk, Hun. unfold unlocking_sum in Hb. lia.
  - rewrite Hsum, Hsa. f_equal. apply (inv_stakes _ s Hinv acc).
  - lia.
  - unfold unlocking_sum. rewrite Hun. lia.
  - lia.
Qed.

Lemma put_count_facts n k p l :
  AccountLedger.wf n l -> in_range u32_max k ->
  let l' := set_contract_stake_count k l in
  AccountLedger.wf n l' /\ locked l' = locked l /\ unlocking l' = unlocking l /\
  AccountLedger.staked_amount l' p = AccountLedger.staked_amount l p /\
  (periods_le p l -> periods_le p l').
Proof. intros [] Hk. by split_and!. Qed.

(** The sum of an account's stakes after one entry is written or removed. *)
Lemma insert_stake_sum p m c (i : SingularStakingInfo) :
  map_sum (stake_in p) (<[c := i]> m : gmap (SmartContract AccountId) SingularStakingInfo) =
  map_sum (stake_in p) m - match m !! c with Some j => stake_in p j | None => 0 end + stake_in p i.
Proof. by rewrite map_sum_insert. Qed.

(** The ledger and the entry [stake] writes. *)
Lemma stake_entry_facts e x sp info p :
  SingularStakingInfo.valid info -> SingularStakingInfo.period_number info = p -> 0 < x ->
  SingularStakingInfo.total_staked_amount info + x <= u128_max ->
  MinimumStakeAmount cfg <=
    SingularStakingInfo.total_staked_amount (SingularStakingInfo.stake x e sp info) ->
  staker_inv cfg p (SingularStakingInfo.stake x e sp info) /\
  stake_in p (SingularStakingInfo.stake x e sp info) =
    SingularStakingInfo.total_staked_amount info + x.
Proof.
  intros Hv Hper Hx Hle Hmin. split.
  - split; [apply stake_valid; done || lia|rewrite stake_period; lia|done].
  - unfold stake_in. rewrite stake_period, Hper, Z.eqb_refl. apply stake_total; done || lia.
Qed.

(** Whether an entry is of the period [p]; only another one is counted as new. *)
Definition current_entry (p : Z) (entry : option SingularStakingInfo) : bool :=
  match entry with Some i => SingularStakingInfo.period_number i =? p | None => false end.

Lemma entry_to_stake_new st t (entry : option SingularStakingInfo) i b :
  entry_to_stake st t entry = Ok (i, b) ->
  b = negb (current_entry (Protocol.period_number st) entry).
Proof.
  unfold entry_to_stake, current_entry. intros He. destruct entry as [j|]; [|by simplify_eq].
  destruct (_ =? _); [by simplify_eq|]. destruct (_ && _); by simplify_eq.
Qed.

(** What [stake] leaves behind: the caller's new ledger [l'] and entry [i']. *)
Record stake_update (s s' : St) (a : AccountId) (c : SmartContract AccountId) (x : Z)
    (l' : AccountLedger) (i' : SingularStakingInfo) : Prop := {
  su_state : ActiveProtocolState s' = ActiveProtocolState s;
  su_ledger : Ledger s' = updated a l' (Ledger s);
  su_balance b : total_balance (world s') b = total_balance (world s) b;
  su_entry : stakers_of s' a = <[c := i']> (stakers_of s a);
  su_others b : b <> a -> stakers_of s' b = stakers_of s b;
  su_era_info : CurrentEraInfo s' =
    EraInfo.add_stake_amount x (current_subperiod (ActiveProtocolState s)) (CurrentEraInfo s);
  su_wf : AccountLedger.wf (MaxUnlockingChunks cfg) l';
  su_locked : locked l' = locked (ledger_of s a);
  su_unlocking : unlocking l' = unlocking (ledger_of s a);
  su_count : contract_stake_count l' <= MaxNumberOfStakedContracts cfg;
  su_counted : contract_stake_count l' =
    sat_add u32_max (contract_stake_count (ledger_of s a))
      (if current_entry (current_period s) (staker_info s a c) then 0 else 1);
  su_staked : AccountLedger.staked_amount l' (current_period s) =
    AccountLedger.staked_amount (ledger_of s a) (current_period s) + x;
  su_backed : AccountLedger.staked_amount l' (current_period s) <= locked l';
  su_periods : periods_le (current_period s) l';
  su_entry_inv : staker_inv cfg (current_period s) i';
  su_entry_stake : stake_in (current_period s) i' =
    match staker_info s a c with Some i => stake_in (current_period s) i | None => 0 end + x;
}.

(** The ledger [stake] starts from: expired stakes are dropped first. *)
Lemma cleaned_ledger_facts (s : St) a :
  Inv s ->
  let l1 := snd (maybe_cleanup_expired (oldest_claimable_period cfg (current_period s))
                   (ledger_of s a)) in
  AccountLedger.wf (MaxUnlockingChunks cfg) l1 /\
  AccountLedger.staked_amount l1 (current_period s) =
    AccountLedger.staked_amount (ledger_of s a) (current_period s) /\
  l1 = set_stake (AccountLedger.staked l1) (AccountLedger.staked_future l1) (ledger_of s a).
Proof.
  intros Hinv. destruct (account_facts s a Hinv) as (Hli & _). pose proof (inv_clock _ s Hinv).
  destruct (maybe_cleanup_facts _ (oldest_claimable_period cfg (current_period s))
    (current_period s) _ (li_wf _ _ _ _ Hli) (li_periods _ _ _ _ Hli)) as (Hwf1 & _ & Hsa1 & Hl1);
    [lia|pose proof config_positive; unfold oldest_claimable_period; ulia|done].
Qed.

Lemma entry_le_stake (s : St) a c p i b st t :
  Inv s -> p = current_period s -> Protocol.period_number st = p ->
  entry_to_stake st t (staker_info s a c) = Ok (i, b) ->
  SingularStakingInfo.valid i /\ SingularStakingInfo.period_number i = p /\
  SingularStakingInfo.total_staked_amount i =
    match staker_info s a c with Some j => stake_in p j | None => 0 end /\
  SingularStakingInfo.total_staked_amount i <= AccountLedger.staked_amount (ledger_of s a) p.
Proof.
  intros Hinv -> Hst Hent. pose proof (inv_stakes _ s Hinv a) as Hsum.
  apply (entry_to_stake_facts _ _ (current_period s)) in Hent as (Hiv & Hip & Hi0 & Hit);
    [|done|intros j Hj; by apply (inv_staker _ s Hinv a c)].
  split_and!; try done. rewrite Hit, <- Hsum. unfold staker_info.
  apply (map_sum_at_le (stake_in (current_period s))).
  intros k v Hk. by apply (stake_in_nonneg s a k).
Qed.

Lemma stake_facts o c x (s s' : St) :
  Inv s -> current_era s < u32_max -> stake cfg o c x s = Ok s' ->
  exists a l' i', ensure_signed o = Some a /\ 0 < x /\ stake_update s s' a c x l' i'.
Proof.
  intros Hinv Hmax Hop. unfold stake in Hop. cbv zeta in Hop.
  bind_inv Hop as u Een. bind_inv Hop as acc Esig. guard_inv Hop as Ex.
  bind_inv Hop as d Ed. guard_inv Hop as Enp.
  bind_inv Hop as l2 El2. bind_inv Hop as [info is_new] Eent.
  guard_inv Hop as Emin. guard_inv Hop as Ecnt. bind_inv Hop as s1 Eup. injection Hop as <-.
  apply update_ledger_ok in Eup as (w & -> & Hw). simpl in Hw.
  destruct (account_facts s acc Hinv) as (Hli & Hlk & Hun & Hb & Htl & Hst).
  pose proof (inv_clock _ s Hinv) as Hclk.
  change (Protocol.period_number (ActiveProtocolState s)) with (current_period s) in *.
  change (era (ActiveProtocolState s)) with (current_era s) in *.
  destruct (cleaned_ledger_facts s acc Hinv) as (Hwf1 & Hsa1 & Hl1).
  remember (snd (maybe_cleanup_expired _ _)) as l1 eqn:El1.
  unfold map_err in El2. destruct (AccountLedger.add_stake_amount _ _ _ l1) as [l2'|] eqn:Eadd;
    [|done]. injection El2 as ->.
  assert (Hper2 := Eadd).
  eapply periods_le_staked in Hper2;
    [|exact Hwf1|lia|lia|change (0 <= current_period s); lia].
  apply (add_stake_amount_ok (MaxUnlockingChunks cfg)) in Eadd
    as (Hwf2 & Hl2 & Hsa2 & Hle2 & _); [|done|lia|lia].
  change (number (period_info (ActiveProtocolState s))) with (current_period s) in *.
  pose proof (entry_to_stake_new _ _ _ _ _ Eent) as Hnew.
  change (Protocol.period_number (ActiveProtocolState s)) with (current_period s) in Hnew.
  apply (entry_le_stake s acc c (current_period s)) in Eent as (Hiv & Hip & Hit & Hile); [|done..].
  assert (Hlk2 : locked l2 = locked (ledger_of s acc)) by (rewrite Hl2, Hl1; done).
  assert (Hlk1 : locked l1 = locked (ledger_of s acc)) by (rewrite Hl1; done).
  destruct (stake_entry_facts (current_era s) x (current_subperiod (ActiveProtocolState s)) info
    (current_period s)) as [Hsi Hsi']; [done|done|lia|lia|lia|].
  set (l3 := if is_new then _ else l2) in *.
  assert (Hl3 : AccountLedger.wf (MaxUnlockingChunks cfg) l3 /\ locked l3 = locked l2 /\
    unlocking l3 = unlocking l2 /\
    AccountLedger.staked_amount l3 (current_period s) =
      AccountLedger.staked_amount l2 (current_period s) /\
    (periods_le (current_period s) l2 -> periods_le (current_period s) l3)).
  { subst l3. destruct is_new; [|done]. apply put_count_facts; [done|].
    pose proof (wf_count _ _ Hwf2). ulia. }
  destruct Hl3 as (Hwf3 & Hlk3 & Hun3 & Hsa3 & Hper3).
  exists acc, l3, (SingularStakingInfo.stake x (current_era s)
    (current_subperiod (ActiveProtocolState s)) info).
  split; [unfold signed, ok_or in Esig; by result_inv|]. split; [lia|].
  split; try done; rewrite ?Hlk3, ?Hsa3; try lia; auto.
  - unfold stakers_of. simpl. by rewrite lookup_insert_eq.
  - intros b Hne. unfold stakers_of. simpl. by rewrite lookup_insert_ne.
  - rewrite Hun3, Hl2, Hl1. done.
  - subst l3. destruct is_new; simpl in *; [lia|]. rewrite Hl2, Hl1. apply Hli.
  - subst l3. rewrite Hnew. pose proof (wf_count _ _ (li_wf _ _ _ _ Hli)).
    destruct (current_entry _ _); simpl; rewrite Hl2, Hl1; simpl; ulia.
Qed.

Lemma stake_preserves o c x (s s' : St) :
  Inv s -> current_era s < u32_max -> stake cfg o c x s = Ok s' -> Inv s'.
Proof.
  intros Hinv Hmax Hop.
  apply stake_facts in Hop as (acc & l' & i' & _ & Hx & []); [|done..].
  apply (restaked_preserves s _ acc l' x); try done.
  - split; try done; [by left|]. intros b. by rewrite su_balance0.
  - lia.
  - intros c' i. unfold staker_info. rewrite su_entry0. intros [[_ <-]|[_ Hi]]%lookup_insert_Some; [done|].
    by apply (inv_staker _ s Hinv acc c').
  - rewrite su_entry0, insert_stake_sum, su_entry_stake0. unfold staker_info. lia.
  - rewrite su_era_info0. apply era_update_stake. lia.
Qed.

(** ** Unstaking *)

Lemma periods_le_unstaked p a e pi l l' :
  periods_le p l -> 0 <= p -> AccountLedger.unstake_amount a e pi l = Ok l' -> periods_le p l'.
Proof.
  intros [Hs Hf] Hp Hok. unfold AccountLedger.unstake_amount in Hok.
  destruct (a =? 0); [by simplify_eq|]. bind_inv Hok as u Echk. destruct (_ <? a); [done|].
  injection Hok as <-. split; simpl.
  - destruct (StakeAmount.is_empty _); simpl; [lia|by rewrite subtract_period].
  - destruct (AccountLedger.staked_future l) as [f|]; [|done].
    destruct (StakeAmount.is_empty _); [done|]. by rewrite subtract_period.
Qed.

(** The ledger after an unstake of [y] with the stake count set to [k]. *)
Lemma unstaked_ledger_facts p y e pi l l2 k :
  AccountLedger.wf (MaxUnlockingChunks cfg) l -> periods_le p l -> 0 <= p -> number pi = p ->
  0 < y -> AccountLedger.unstake_amount y e pi l = Ok l2 ->
  0 <= k <= contract_stake_count l2 ->
  let l3 := set_contract_stake_count k l2 in
  AccountLedger.wf (MaxUnlockingChunks cfg) l3 /\ locked l3 = locked l /\
  unlocking l3 = unlocking l /\ periods_le p l3 /\
  AccountLedger.staked_amount l3 p = AccountLedger.staked_amount l p - y /\
  contract_stake_count l2 = contract_stake_count l.
Proof.
  intros Hwf Hper Hp Hpi Hy Hok Hk. assert (Hper2 := Hok).
  eapply periods_le_unstaked in Hper2; [|exact Hper|done].
  apply (unstake_amount_ok (MaxUnlockingChunks cfg)) in Hok as (Hwf2 & Hl2 & _ & Hsa); [|done..].
  rewrite Hpi in Hsa. pose proof (wf_count _ _ Hwf2). unfold in_range in *.
  destruct (put_count_facts (MaxUnlockingChunks cfg) k p l2 Hwf2 ltac:(unfold in_range; lia))
    as (? & ? & ? & Hsa3 & ?).
  split_and!; try done; try (rewrite Hl2; done); auto; by rewrite Hsa3.
Qed.

Lemma same_count l : set_contract_stake_count (contract_stake_count l) l = l.
Proof. by destruct l. Qed.

(** The staking entry after an unstake. *)
Lemma unstake_entry_facts p x e sp i :
  staker_inv cfg p i -> SingularStakingInfo.period_number i = p -> 0 <= e < u32_max ->
  0 < x <= SingularStakingInfo.total_staked_amount i ->
  let y := amount_to_unstake cfg i x in
  let i' := snd (SingularStakingInfo.unstake y e sp i) in
  0 < y <= SingularStakingInfo.total_staked_amount i /\
  (if SingularStakingInfo.is_empty i' then y = SingularStakingInfo.total_staked_amount i
   else staker_inv cfg p i' /\ stake_in p i' = SingularStakingInfo.total_staked_amount i - y).
Proof.
  intros [Hv Hp Hm] Hper He Hx. cbv zeta. pose proof config_positive as Hpos.
  assert (Hy : 0 < amount_to_unstake cfg i x <= SingularStakingInfo.total_staked_amount i /\
    (amount_to_unstake cfg i x = SingularStakingInfo.total_staked_amount i \/
     MinimumStakeAmount cfg <=
       SingularStakingInfo.total_staked_amount i - amount_to_unstake cfg i x)).
  { unfold amount_to_unstake. destruct (_ <? _) eqn:Hlt; ulia. }
  destruct Hy as [Hy Hrem]. split; [done|].
  pose proof (unstake_fields _ e sp i Hv Hy He) as Hf.
  pose proof (unstake_valid _ e sp i Hv Hy He) as Hv'.
  destruct (SingularStakingInfo.unstake _ e sp i) as [prs i']. simpl in *.
  destruct Hf as (Ht & Hne & _). destruct (SingularStakingInfo.is_empty i') eqn:Hem.
  - unfold SingularStakingInfo.is_empty in Hem. rewrite is_empty_total in Hem by apply Hv'.
    unfold SingularStakingInfo.total_staked_amount in *. lia.
  - destruct (Hne eq_refl) as [Hp' _]. unfold SingularStakingInfo.is_empty in Hem.
    rewrite is_empty_total in Hem by apply Hv'. split.
    + split; [done|lia|]. unfold SingularStakingInfo.total_staked_amount in *. lia.
    + unfold stake_in. by rewrite Hp', Hper, Z.eqb_refl.
Qed.

(** The common part of [unstake] and [unstake_from_unregistered]: [y] of the
    stake [i] on [c] is taken back, the ledger becomes [l2] but for its count
    of entries, and the entry is updated or removed. *)
Record unstake_update (s s' : St) (a : AccountId) (c : SmartContract AccountId)
    (i : SingularStakingInfo) (y k : Z) (l2 : AccountLedger) : Prop := {
  uu_state : ActiveProtocolState s' = ActiveProtocolState s;
  uu_ledger : Ledger s' = updated a (set_contract_stake_count k l2) (Ledger s);
  uu_balance b : total_balance (world s') b = total_balance (world s) b;
  uu_entry : staker_info s a c = Some i;
  uu_period : SingularStakingInfo.period_number i = current_period s;
  uu_amount : 0 < y <= SingularStakingInfo.total_staked_amount i;
  uu_unstaked : AccountLedger.unstake_amount y (current_era s)
    (period_info (ActiveProtocolState s)) (ledger_of s a) = Ok l2;
  uu_count : 0 <= k <= contract_stake_count l2;
  uu_entries :
    stakers_of s' a = delete c (stakers_of s a) /\
      y = SingularStakingInfo.total_staked_amount i \/
    exists i', stakers_of s' a = <[c := i']> (stakers_of s a) /\
      staker_inv cfg (current_period s) i' /\
      stake_in (current_period s) i' = SingularStakingInfo.total_staked_amount i - y;
  uu_others b : b <> a -> stakers_of s' b = stakers_of s b;
  uu_era_info : CurrentEraInfo s' = EraInfo.unstake_amount y (CurrentEraInfo s);
}.

Lemma unstaked_preserves (s s' : St) acc c i l2 y k :
  Inv s -> unstake_update s s' acc c i y k l2 -> Inv s'.
Proof.
  intros Hinv [Hst Hl Hbal Hi Hper Hy Eun Hk Hm' Hoth Hera]. set (p := current_period s) in *.
  destruct (account_facts s acc Hinv) as (Hli & Hlk & Hun & Hb & Htl & Hsl). fold p in Hli, Hsl.
  pose proof (inv_clock _ s Hinv) as Hclk. fold p in Hclk.
  destruct (unstaked_ledger_facts p y (current_era s) _ _ l2 k (li_wf _ _ _ _ Hli)
    (li_periods _ _ _ _ Hli) ltac:(lia) eq_refl ltac:(lia) Eun Hk)
    as (Hwf3 & Hlk3 & Hun3 & Hper3 & Hsa3 & Hc2).
  assert (Hsin : stake_in p i = SingularStakingInfo.total_staked_amount i)
    by (unfold stake_in; by rewrite Hper, Z.eqb_refl).
  unfold staker_info in Hi.
  apply (restaked_preserves s s' acc (set_contract_stake_count k l2) (- y)); try done; fold p.
  - split; try done; [by left|]. intros b. by rewrite Hbal.
  - simpl. pose proof (li_count _ _ _ _ Hli). lia.
  - lia.
  - intros c' j Hj. unfold staker_info in Hj.
    destruct Hm' as [[Hst' _]|(i' & Hst' & Hi' & _)]; rewrite Hst' in Hj.
    + apply lookup_delete_Some in Hj as [_ Hj]. by apply (inv_staker _ s Hinv acc c').
    + apply lookup_insert_Some in Hj as [[_ <-]|[_ Hj]]; [done|].
      by apply (inv_staker _ s Hinv acc c').
  - destruct Hm' as [[-> ->]|(i' & -> & _ & Hs')].
    + rewrite map_sum_delete_key. unfold at_key. rewrite Hi. lia.
    + rewrite insert_stake_sum, Hi. lia.
  - rewrite Hera. apply era_update_unstake. lia.
Qed.

Lemma unstaked_count y e pi l l2 :
  AccountLedger.wf (MaxUnlockingChunks cfg) l -> 0 < y ->
  AccountLedger.unstake_amount y e pi l = Ok l2 -> 0 <= contract_stake_count l2.
Proof.
  intros Hwf Hy Eun.
  apply (unstake_amount_ok (MaxUnlockingChunks cfg)) in Eun as (Hwf2 & _); [|done..].
  by apply (wf_count _ _ Hwf2).
Qed.

(** An entry of the ongoing period is covered by the ledger. *)
Lemma entry_covered (s : St) a c i :
  Inv s -> staker_info s a c = Some i -> SingularStakingInfo.period_number i = current_period s ->
  SingularStakingInfo.total_staked_amount i <=
    AccountLedger.staked_amount (ledger_of s a) (current_period s).
Proof.
  intros Hinv Hi Hper. rewrite <- (inv_stakes _ s Hinv a).
  pose proof (map_sum_at_le (stake_in (current_period s)) (stakers_of s a) c
    (fun k v Hk => stake_in_nonneg s a k v Hinv Hk)) as Hle.
  unfold at_key, staker_info in *. rewrite Hi in Hle. unfold stake_in at 1 in Hle.
  by rewrite Hper, Z.eqb_refl in Hle.
Qed.

Lemma unstake_facts o c x (s s' : St) :
  Inv s -> current_era s < u32_max -> unstake cfg o c x s = Ok s' ->
  exists a i l2 k, ensure_signed o = Some a /\
    0 < x <= SingularStakingInfo.total_staked_amount i /\
    unstake_update s s' a c i (amount_to_unstake cfg i x) k l2.
Proof.
  intros Hinv Hmax Hop. unfold unstake in Hop. cbv zeta in Hop.
  bind_inv Hop as u Een. bind_inv Hop as acc Esig. guard_inv Hop as Ex.
  bind_inv Hop as d Ed. bind_inv Hop as i Ei. guard_inv Hop as Eper. guard_inv Hop as Ele.
  change (Protocol.period_number (ActiveProtocolState s)) with (current_period s) in *.
  change (era (ActiveProtocolState s)) with (current_era s) in *.
  assert (Hi : staker_info s acc c = Some i)
    by (unfold ok_or in Ei; destruct (staker_info s acc c); by simplify_eq).
  pose proof (inv_clock _ s Hinv) as Hclk.
  destruct (unstake_entry_facts (current_period s) x (current_era s)
    (current_subperiod (ActiveProtocolState s)) i (inv_staker _ s Hinv acc c i Hi)
    ltac:(lia) ltac:(lia) ltac:(lia)) as [Hy Hent].
  remember (amount_to_unstake cfg i x) as y eqn:Hyeq.
  destruct (SingularStakingInfo.unstake y _ _ i) as [prs i'] eqn:Hun. simpl in Hent.
  bind_inv Hop as l2 El2. unfold map_err in El2.
  destruct (AccountLedger.unstake_amount y _ _ _) as [l2'|] eqn:Eun; [|done]. injection El2 as ->.
  pose proof (unstaked_count y _ _ _ _ (li_wf _ _ _ _ (ledger_of_inv s acc Hinv)) ltac:(lia) Eun).
  exists acc, i, l2,
    (if SingularStakingInfo.is_empty i' then sat_sub (contract_stake_count l2) 1
     else contract_stake_count l2).
  split; [unfold signed, ok_or in Esig; by result_inv|]. split; [lia|]. rewrite <- Hyeq.
  destruct (SingularStakingInfo.is_empty i'); bind_inv Hop as s1 Eup; injection Hop as <-;
    apply update_ledger_ok in Eup as (w & -> & Hw); simpl in Hw;
    (split; rewrite ?same_count; try done; try lia; try ulia;
     [|intros b Hne; unfold stakers_of; simpl; by rewrite lookup_insert_ne]);
    unfold stakers_of; simpl; rewrite lookup_insert_eq; [by left|right; by exists i'].
Qed.

Lemma unstake_preserves o c x (s s' : St) :
  Inv s -> current_era s < u32_max -> unstake cfg o c x s = Ok s' -> Inv s'.
Proof.
  intros Hinv Hmax Hop. apply unstake_facts in Hop as (a & i & l2 & k & _ & _ & Hu); [|done..].
  by eapply unstaked_preserves.
Qed.

Lemma unstake_from_unregistered_facts o c (s s' : St) :
  Inv s -> unstake_from_unregistered o c s = Ok s' ->
  exists a i l2, ensure_signed o = Some a /\
    unstake_update s s' a c i (SingularStakingInfo.total_staked_amount i)
      (contract_stake_count l2) l2.
Proof.
  intros Hinv Hop. unfold unstake_from_unregistered in Hop. cbv zeta in Hop.
  bind_inv Hop as u Een. bind_inv Hop as acc Esig. guard_inv Hop as Ereg.
  bind_inv Hop as i Ei. guard_inv Hop as Eper. bind_inv Hop as l2 El2.
  bind_inv Hop as s1 Eup. injection Hop as <-. apply update_ledger_ok in Eup as (w & -> & Hw).
  simpl in Hw. unfold map_err in El2.
  destruct (AccountLedger.unstake_amount _ _ _ _) as [l2'|] eqn:Eun; [|done]. injection El2 as ->.
  assert (Hi : staker_info s acc c = Some i)
    by (unfold ok_or in Ei; destruct (staker_info s acc c); by simplify_eq).
  pose proof (si_minimum _ _ _ (inv_staker _ s Hinv acc c i Hi)). pose proof config_positive.
  pose proof (unstaked_count (SingularStakingInfo.total_staked_amount i) _ _ _ _
    (li_wf _ _ _ _ (ledger_of_inv s acc Hinv)) ltac:(lia) Eun).
  exists acc, i, l2. split; [unfold signed, ok_or in Esig; by result_inv|].
  split; rewrite ?same_count; try done; try lia; [unfold current_period; lia| |].
  - left. split; [|done]. unfold stakers_of. simpl. by rewrite lookup_insert_eq.
  - intros b Hne. unfold stakers_of. simpl. by rewrite lookup_insert_ne.
Qed.

Lemma unstake_from_unregistered_preserves o c (s s' : St) :
  Inv s -> unstake_from_unregistered o c s = Ok s' -> Inv s'.
Proof.
  intros Hinv Hop. apply unstake_from_unregistered_facts in Hop as (a & i & l2 & _ & Hu); [|done].
  by eapply unstaked_preserves.
Qed.

(** ** Clean-up and claims *)

(** Removing entries that count for nothing. *)
Lemma foldl_delete_zero {K V} `{Countable K} (f : V -> Z) (ks : list K) (m : gmap K V) :
  (forall k v, k ∈ ks -> m !! k = Some v -> f v = 0) ->
  map_sum f (foldl (fun m k => delete k m) m ks) = map_sum f m.
Proof.
  revert m. induction ks as [|k ks IH]; intros m Hf; simpl; [done|].
  rewrite IH, map_sum_delete_key.
  - unfold at_key. destruct (m !! k) as [v|] eqn:Hk; [|lia].
    rewrite (Hf k v); [lia|by left|done].
  - intros k' v Hk' [_ Hl]%lookup_delete_Some. apply (Hf k'); [by right|done].
Qed.

Lemma cleanup_preserves o (s s' : St) :
  Inv s -> cleanup_expired_entries cfg o s = Ok s' -> Inv s'.
Proof.
  intros Hinv Hop. unfold cleanup_expired_entries in Hop. cbv zeta in Hop.
  bind_inv Hop as u Een. bind_inv Hop as acc Esig. guard_inv Hop as Ene.
  bind_inv Hop as s1 Eup. injection Hop as <-. apply update_ledger_ok in Eup as (w & -> & Hw).
  simpl in Hw. change (Protocol.period_number (ActiveProtocolState s)) with (current_period s) in *.
  change (ledger_of (put_stakers_of acc _ s) acc) with (ledger_of s acc) in *.
  set (ks := fst <$> filter _ _) in *. set (t := oldest_claimable_period cfg (current_period s)) in *.
  pose proof (inv_clock _ s Hinv) as Hclk. pose proof config_positive as Hpos.
  assert (Ht : t <= current_period s) by (subst t; unfold oldest_claimable_period; ulia).
  destruct (account_facts s acc Hinv) as (Hli & Hlk & Hun & Hb & Htl & Hst).
  remember (set_contract_stake_count _ (ledger_of s acc)) as l1 eqn:El1.
  assert (Hl1 : AccountLedger.wf (MaxUnlockingChunks cfg) l1 /\ locked l1 = locked (ledger_of s acc) /\
    unlocking l1 = unlocking (ledger_of s acc) /\
    AccountLedger.staked_amount l1 (current_period s) =
      AccountLedger.staked_amount (ledger_of s acc) (current_period s) /\
    (periods_le (current_period s) (ledger_of s acc) -> periods_le (current_period s) l1)).
  { subst l1. apply put_count_facts; [apply Hli|].
    pose proof (wf_count _ _ (li_wf _ _ _ _ Hli)). ulia. }
  destruct Hl1 as (Hwf1 & Hlk1 & Hun1 & Hsa1 & Hper1).
  destruct (maybe_cleanup_facts _ t (current_period s) l1 Hwf1
    (Hper1 (li_periods _ _ _ _ Hli)) ltac:(lia) Ht) as (Hwf2 & Hper2 & Hsa2 & Hl2).
  remember (snd (maybe_cleanup_expired t l1)) as l2 eqn:El2.
  apply (restaked_preserves s _ acc l2 0); try done; try lia.
  - split; try done; [by left|intros b; simpl; by rewrite Hw|].
    intros b Hne. unfold stakers_of. simpl. by rewrite lookup_insert_ne.
  - rewrite Hl2. exact Hlk1.
  - rewrite Hl2. exact Hun1.
  - rewrite Hl2, El1. simpl. pose proof (li_count _ _ _ _ Hli). 
    pose proof (wf_count _ _ (li_wf _ _ _ _ Hli)). ulia.
  - intros c i Hi. unfold staker_info, stakers_of in Hi. simpl in Hi.
    rewrite lookup_insert_eq in Hi. apply foldl_delete_lookup in Hi.
    by apply (inv_staker _ s Hinv acc c).
  - unfold stakers_of at 1. simpl. rewrite lookup_insert_eq, foldl_delete_zero; [lia|].
    intros c i Hc Hi. subst ks. apply list_elem_of_fmap in Hc as ([c' i'] & -> & Hc).
    apply list_elem_of_filter in Hc as [Hexp Hin]. apply elem_of_map_to_list in Hin.
    simpl in *. assert (i' = i) as -> by congruence. unfold stake_in, is_expired in *.
    by rewrite (proj2 (Z.eqb_neq _ _)) by lia.
  - apply era_update_id.
Qed.

(** Events are not part of the invariant. *)
Lemma inv_event ev (s : St) : Inv s -> Inv (deposit_event ev s).
Proof. intros Hinv. by apply (inv_frame_world s). Qed.

Lemma inv_events acc rewards (s : St) :
  Inv s ->
  Inv (foldl (fun s '(era, reward) => deposit_event (Reward acc era reward) s) s rewards).
Proof.
  revert s. induction rewards as [|[e r] rs IH]; intros s Hinv; simpl; [done|].
  by apply IH, inv_event.
Qed.

(** The ledger after a claim: the same stake in the ongoing period. *)
Lemma claim_ledger_facts e pe p q l first it l' :
  AccountLedger.wf (MaxUnlockingChunks cfg) l -> periods_le p l -> 1 <= p ->
  earliest_staked_era l = Some first -> staked_period l = Some q ->
  (pe <> None -> q <> p) ->
  claim_up_to_era e pe l = Ok (it, l') ->
  AccountLedger.wf (MaxUnlockingChunks cfg) l' /\ locked l' = locked l /\
  unlocking l' = unlocking l /\ contract_stake_count l' = contract_stake_count l /\
  AccountLedger.staked_amount l' p = AccountLedger.staked_amount l p /\ periods_le p l'.
Proof.
  intros Hwf Hper Hp Hfirst Hq Hpe Hok.
  destruct (latest_positive l first (wf_stake _ _ Hwf) Hfirst) as [Hlv Hlp].
  assert (Hl' : l' = set_stake StakeAmount.default None l /\ pe <> None \/
    l' = set_stake (StakeAmount.set_era (sat_add u32_max e 1) (latest l)) None l).
  { unfold claim_up_to_era in Hok. destruct (if negb _ then _ else _) in Hok; [|done].
    destruct (match AccountLedger.staked_future l with Some _ => _ | None => _ end) as [sp fi] in Hok.
    bind_inv Hok as r Er. injection Hok as _ <-. unfold latest.
    destruct pe as [x|]; [|by right]. destruct (x <=? e); [by left|by right]. }
  destruct Hl' as [[-> Hne]| ->].
  - split_and!; try done.
    + apply stake_wf_set; [done|apply stake_wf_default].
    + rewrite (staked_period_amount l p q) by (apply Hwf || auto).
      unfold AccountLedger.staked_amount. simpl. by case_all.
    + split; simpl; [lia|done].
  - split_and!; try done.
    + apply stake_wf_set; [done|]. split_and!; [done|rewrite total_set_era; lia|done].
    + rewrite (staked_amount_latest l) by apply Hwf. unfold AccountLedger.staked_amount. simpl.
      by rewrite total_set_era.
    + destruct Hper as [Hs Hf]. split; [|done]. simpl. unfold latest.
      by destruct (AccountLedger.staked_future l).
Qed.

Lemma claim_staker_preserves acc (s s' : St) :
  Inv s -> internal_claim_staker_rewards_for cfg acc s = Ok s' -> Inv s'.
Proof.
  intros Hinv Hop. unfold internal_claim_staker_rewards_for in Hop. cbv zeta in Hop.
  bind_inv Hop as q Eq. guard_inv Hop as Eexp. bind_inv Hop as first Efirst.
  bind_inv Hop as span Espan. bind_inv Hop as [last pe] Ecs. bind_inv Hop as [it l'] Ecl.
  bind_inv Hop as prs Eprs. bind_inv Hop as [rs sum] Ers. bind_inv Hop as w Epay.
  bind_inv Hop as s1 Eup. injection Hop as <-. apply inv_events.
  apply update_ledger_ok in Eup as (w' & -> & Hw'). simpl in Hw'.
  unfold ok_or in Epay. destruct (payout_reward _ _ _) as [w0|] eqn:Epo; [|done].
  injection Epay as ->.
  assert (Hbal : forall b, total_balance (world s) b <= total_balance w' b).
  { intros b. rewrite Hw'. by eapply payout_reward_balance. }
  destruct (account_facts s acc Hinv) as (Hli & Hlk & Hun & Hb & Htl & Hst).
  pose proof (inv_clock _ s Hinv) as Hclk.
  unfold map_err in Ecl. destruct (claim_up_to_era _ _ _) as [[it' l1]|] eqn:Eclaim; [|done].
  injection Ecl as -> ->.
  eapply (claim_ledger_facts _ _ (current_period s) q _ first) in Eclaim
    as (Hwf & Hlk' & Hun' & Hc' & Hsa & Hper); [|apply Hli|apply Hli|lia| | |].
  - apply (restaked_preserves s _ acc l' 0); try done; try lia.
    + split; try done. by left.
    + rewrite Hc'. apply Hli.
    + intros c i Hi. by apply (inv_staker _ s Hinv acc c).
    + change (map_sum (stake_in (current_period s)) (stakers_of s acc) =
        map_sum (stake_in (current_period s)) (stakers_of s acc) + 0). lia.
    + apply era_update_id.
  - unfold ok_or in Efirst. by destruct (earliest_staked_era _); simplify_eq.
  - unfold ok_or in Eq. by destruct (staked_period _); simplify_eq.
  - intros Hne. unfold claim_span in Ecs.
    change (Protocol.period_number (ActiveProtocolState s)) with (current_period s) in Ecs.
    destruct (q =? current_period s) eqn:Hqp; [by simplify_eq|lia].
Qed.

Lemma claim_bonus_preserves acc c (s s' : St) :
  Inv s -> internal_claim_bonus_reward_for cfg acc c s = Ok s' -> Inv s'.
Proof.
  intros Hinv Hop. unfold internal_claim_bonus_reward_for in Hop. cbv zeta in Hop.
  bind_inv Hop as i Ei. guard_inv Hop as Eper. guard_inv Hop as Eloyal. guard_inv Hop as Eexp.
  bind_inv Hop as pe Epe. guard_inv Hop as Evp. bind_inv Hop as w Epay. injection Hop as <-.
  unfold ok_or in Epay. destruct (payout_reward _ _ _) as [w0|] eqn:Epo; [|done].
  injection Epay as ->.
  assert (Hi : stakers_of s acc !! c = Some i).
  { unfold ok_or, staker_info in Ei. by destruct (stakers_of s acc !! c); simplify_eq. }
  destruct (account_facts s acc Hinv) as (Hli & Hlk & Hun & Hb & Htl & Hst).
  change (ledger_of (remove_staker_info acc c (put_world w s)) acc) with (ledger_of s acc).
  pose proof (wf_count _ _ (li_wf _ _ _ _ Hli)) as Hcnt.
  destruct (put_count_facts _ (sat_sub (contract_stake_count (ledger_of s acc)) 1)
    (current_period s) _ (li_wf _ _ _ _ Hli) ltac:(ulia)) as (Hwf' & Hlk' & Hun' & Hsa' & Hper').
  remember (set_contract_stake_count _ (ledger_of s acc)) as l' eqn:El'.
  apply (restaked_preserves s _ acc l' 0); try done; try lia.
  - split; try done; [by right|intros b; by eapply payout_reward_balance|].
    intros b Hne. unfold stakers_of. simpl. by rewrite lookup_insert_ne.
  - rewrite El'. simpl. pose proof (li_count _ _ _ _ Hli). ulia.
  - apply Hper', Hli.
  - intros c' j Hj. unfold staker_info, stakers_of in Hj. simpl in Hj.
    rewrite lookup_insert_eq in Hj. apply lookup_delete_Some in Hj as [_ Hj].
    by apply (inv_staker _ s Hinv acc c').
  - unfold stakers_of at 1. simpl. rewrite lookup_insert_eq.
    change (stakers_of (put_world w s) acc) with (stakers_of s acc).
    rewrite map_sum_delete_key. unfold at_key. rewrite Hi. unfold stake_in at 2.
    unfold current_period at 2. rewrite (proj2 (Z.eqb_neq _ _)) by lia. lia.
  - apply era_update_id.
Qed.
End preservation.
