(* ===== verification/Reachability.v ===== *)
(** * Executions of the pallet and the states they reach

    The calls as one dispatch function, the transitions of the pallet as a
    step relation, and the accounting invariant in every reachable state. *)

From S2P Require Import Prelude Frame Primitives StakeAmount EraInfo AccountLedger.
From S2P Require Import SingularStakingInfo ContractStakeAmount EraRewardSpan Tiers Protocol.
From S2P Require Import PalletState DAppStaking TierAssignment EraHandler Invariant Preservation.

(** ** Calls *)

Inductive Call (AccountId : Type) : Type :=
| call_maintenance_mode (enabled : bool)
| call_register (owner : AccountId) (c : SmartContract AccountId)
| call_set_dapp_reward_beneficiary (c : SmartContract AccountId) (b : option AccountId)
| call_set_dapp_owner (c : SmartContract AccountId) (new_owner : AccountId)
| call_unbond_and_unstake (c : SmartContract AccountId) (value : Z)
| call_withdraw_unbonded
| call_unregister (c : SmartContract AccountId)
| call_lock (amount : Z)
| call_unlock (amount : Z)
| call_claim_unlocked
| call_relock_unlocking
| call_stake (c : SmartContract AccountId) (amount : Z)
| call_unstake (c : SmartContract AccountId) (amount : Z)
| call_claim_staker_rewards
| call_claim_bonus_reward (c : SmartContract AccountId)
| call_claim_dapp_reward (c : SmartContract AccountId) (era : Z)
| call_unstake_from_unregistered (c : SmartContract AccountId)
| call_cleanup_expired_entries
| call_force (t : ForcingType)
| call_claim_staker_rewards_for (account : AccountId)
| call_claim_bonus_reward_for (account : AccountId) (c : SmartContract AccountId).
Arguments call_maintenance_mode {AccountId}.
Arguments call_register {AccountId}.
Arguments call_set_dapp_reward_beneficiary {AccountId}.
Arguments call_set_dapp_owner {AccountId}.
Arguments call_unbond_and_unstake {AccountId}.
Arguments call_withdraw_unbonded {AccountId}.
Arguments call_unregister {AccountId}.
Arguments call_lock {AccountId}.
Arguments call_unlock {AccountId}.
Arguments call_claim_unlocked {AccountId}.
Arguments call_relock_unlocking {AccountId}.
Arguments call_stake {AccountId}.
Arguments call_unstake {AccountId}.
Arguments call_claim_staker_rewards {AccountId}.
Arguments call_claim_bonus_reward {AccountId}.
Arguments call_claim_dapp_reward {AccountId}.
Arguments call_unstake_from_unregistered {AccountId}.
Arguments call_cleanup_expired_entries {AccountId}.
Arguments call_force {AccountId}.
Arguments call_claim_staker_rewards_for {AccountId}.
Arguments call_claim_bonus_reward_for {AccountId}.

(** The amounts of a call are [u128]. *)
Definition call_typed {AccountId} (c : Call AccountId) : Prop :=
  match c with
  | call_lock x | call_unlock x | call_unbond_and_unstake _ x
  | call_stake _ x | call_unstake _ x => in_range u128_max x
  | _ => True
  end.

Section executions.
Context {AccountId Origin W : Type} `{Countable AccountId}.
Context `{!SpArithmetic, !Currency AccountId W, !FrameSystem AccountId Origin W}.
Context `{!Observer W, !StakingRewardHandler AccountId W, !AccountCheck AccountId W}.
Context `{!PrivilegedOrigins Origin, !PrefixOrder AccountId}.
Context `{!PriceProvider W, !TierSlots, !UnspecifiedOrder}.
Context (cfg : Config).

Abbreviation St := (Storage AccountId W).

Definition dispatch (o : Origin) (call : Call AccountId) (s : St) : Result St DispatchError :=
  match call with
  | call_maintenance_mode enabled => maintenance_mode o enabled s
  | call_register owner c => register cfg o owner c s
  | call_set_dapp_reward_beneficiary c b => set_dapp_reward_beneficiary o c b s
  | call_set_dapp_owner c new_owner => set_dapp_owner o c new_owner s
  | call_unbond_and_unstake c value => unbond_and_unstake cfg o c value s
  | call_withdraw_unbonded => withdraw_unbonded o s
  | call_unregister c => unregister o c s
  | call_lock x => lock cfg o x s
  | call_unlock x => unlock cfg o x s
  | call_claim_unlocked => claim_unlocked o s
  | call_relock_unlocking => relock_unlocking cfg o s
  | call_stake c x => stake cfg o c x s
  | call_unstake c x => unstake cfg o c x s
  | call_claim_staker_rewards => claim_staker_rewards cfg o s
  | call_claim_bonus_reward c => claim_bonus_reward cfg o c s
  | call_claim_dapp_reward c e => claim_dapp_reward cfg o c e s
  | call_unstake_from_unregistered c => unstake_from_unregistered o c s
  | call_cleanup_expired_entries => cleanup_expired_entries cfg o s
  | call_force t => force o t s
  | call_claim_staker_rewards_for a => claim_staker_rewards_for cfg o a s
  | call_claim_bonus_reward_for a c => claim_bonus_reward_for cfg o a c s
  end.

(** The values of a genesis configuration have their Rust types. *)
Definition genesis_typed (g : GenesisConfig) : Prop :=
  Forall (in_range permill_one) (genesis_reward_portion g) /\
  Forall (in_range permill_one) (genesis_slot_distribution g) /\
  Forall threshold_valid (genesis_tier_thresholds g) /\
  Forall (in_range u16_max) (genesis_slots_per_tier g).

(** ** Steps

    A call that succeeds (one that fails leaves the storage as it is), the
    two hooks, entering and leaving safe mode, and a change outside the
    pallet, which cannot take an account's balance below what is frozen. *)
Inductive step : St -> St -> Prop :=
| step_call o call s s' : call_typed call -> dispatch o call s = Ok s' -> step s s'
| step_block now s : step s (on_initialize cfg now s)
| step_idle enough_weight s : step s (on_idle cfg enough_weight s)
| step_safe_mode (entered : bool) s :
    step s (if entered then safe_mode_entered s else safe_mode_exited s)
| step_world w s :
    (forall a l, Ledger s !! a = Some l -> total_locked_amount l <= total_balance w a) ->
    step s (put_world w s).

Inductive reachable : St -> Prop :=
| reachable_genesis g w s : genesis_typed g -> build cfg g w = Some s -> reachable s
| reachable_step s s' : reachable s -> step s s' -> reachable s'.

(** ** The clock *)

Lemma update_ledger_state a l (s s' : St) :
  update_ledger a l s = Ok s' -> ActiveProtocolState s' = ActiveProtocolState s.
Proof. unfold update_ledger. intros Hu. by result_inv. Qed.

Lemma events_state acc rewards (s : St) :
  ActiveProtocolState (foldl (fun s '(era, reward) => deposit_event (Reward acc era reward) s) s rewards)
  = ActiveProtocolState s.
Proof. revert s. induction rewards as [|[e r] rs IH]; intros s; simpl; [done|]. by rewrite IH. Qed.

(** The protocol state after a call is the old one but for the fields
    [force] and [maintenance_mode] set. *)
Lemma dispatch_clock o call (s s' : St) :
  dispatch o call s = Ok s' ->
  era (ActiveProtocolState s') = era (ActiveProtocolState s) /\
  Protocol.period_number (ActiveProtocolState s') = Protocol.period_number (ActiveProtocolState s).
Proof.
  intros Hd. destruct call; simpl in Hd;
    unfold maintenance_mode, register, set_dapp_reward_beneficiary, set_dapp_owner, unregister,
      unbond_and_unstake, withdraw_unbonded, claim_unlocked, internal_claim_unlocked, lock, unlock,
      relock_unlocking, stake, unstake, unstake_from_unregistered, cleanup_expired_entries,
      claim_staker_rewards, claim_staker_rewards_for, internal_claim_staker_rewards_for,
      claim_bonus_reward, claim_bonus_reward_for, internal_claim_bonus_reward_for,
      claim_dapp_reward, force in Hd; cbv zeta in Hd; result_inv; rewrite ?events_state;
    repeat match goal with
    | Hu : update_ledger _ _ _ = Ok _ |- _ => apply update_ledger_state in Hu; simpl in Hu
    | |- context [match ?t with ForceEra => _ | ForceSubperiod => _ end] => destruct t
    | Hu : context [ActiveProtocolState (if ?b then _ else _)] |- _ => destruct b
    end; try done; simpl; match goal with Hu : ActiveProtocolState _ = _ |- _ => by rewrite Hu end.
Qed.

(** What a block does to the parts the invariant is about. *)
Record new_era (s s' : St) : Prop := {
  ne_ledger : Ledger s' = Ledger s;
  ne_staker : StakerInfo s' = StakerInfo s;
  ne_world : world s' = world s;
  ne_dapps : IntegratedDApps s' = IntegratedDApps s /\ NextDAppId s' = NextDAppId s /\
             ContractStake s' = ContractStake s;
  ne_params : StaticTierParams s' = StaticTierParams s;
  ne_config :
    TierConfig s' = TierConfig s \/
    TierConfig s' = calculate_new (NumberOfTiers cfg) (BaseNativeCurrencyPrice cfg)
      (StaticTierParams s) (average_price (world s)) (total_issuance (world s)) /\
    config_is_valid (NumberOfTiers cfg) (TierConfig s') = true;
  ne_era : current_era s' = sat_add u32_max (current_era s) 1;
  ne_period :
    (current_period s' = current_period s /\
     exists sp, sp <> Some Voting /\
       CurrentEraInfo s' = migrate_to_next_era sp (CurrentEraInfo s)) \/
    (current_period s' = sat_add u32_max (current_period s) 1 /\
     CurrentEraInfo s' = migrate_to_next_era (Some Voting) (CurrentEraInfo s));
}.

Lemma cleanup_marker_frame n (s : St) :
  let s' := update_cleanup_marker cfg n s in
  Ledger s' = Ledger s /\ StakerInfo s' = StakerInfo s /\ world s' = world s /\
  IntegratedDApps s' = IntegratedDApps s /\ NextDAppId s' = NextDAppId s /\
  ContractStake s' = ContractStake s /\ CurrentEraInfo s' = CurrentEraInfo s /\
  StaticTierParams s' = StaticTierParams s /\ TierConfig s' = TierConfig s.
Proof.
  cbv zeta. unfold update_cleanup_marker. destruct (checked_sub _ _) as [q|]; [|done].
  destruct (q =? 0); [done|]. by destruct (PeriodEnd s !! q).
Qed.

Lemma finish_era_frame ce st ei ev r (s : St) :
  let s' := finish_era cfg ce st ei ev r s in
  ActiveProtocolState s' = set_era (sat_add u32_max ce 1) st /\ CurrentEraInfo s' = ei /\
  Ledger s' = Ledger s /\ StakerInfo s' = StakerInfo s /\ world s' = world s /\
  IntegratedDApps s' = IntegratedDApps s /\ NextDAppId s' = NextDAppId s /\
  ContractStake s' = ContractStake s /\ StaticTierParams s' = StaticTierParams s /\
  (TierConfig s' = TierConfig s \/
   TierConfig s' = calculate_new (NumberOfTiers cfg) (BaseNativeCurrencyPrice cfg)
      (StaticTierParams s) (average_price (world s)) (total_issuance (world s)) /\
    config_is_valid (NumberOfTiers cfg) (TierConfig s') = true).
Proof.
  cbv zeta. unfold finish_era.
  destruct ev; cbn -[calculate_new config_is_valid push];
    destruct (config_is_valid _ _) eqn:Hv; cbn -[calculate_new config_is_valid push];
    split_and!; auto.
Qed.

Lemma finish_new_era (s s0 : St) st ei ev r :
  Ledger s0 = Ledger s -> StakerInfo s0 = StakerInfo s -> world s0 = world s ->
  IntegratedDApps s0 = IntegratedDApps s /\ NextDAppId s0 = NextDAppId s /\
    ContractStake s0 = ContractStake s ->
  StaticTierParams s0 = StaticTierParams s -> TierConfig s0 = TierConfig s ->
  (Protocol.period_number st = current_period s /\
     (exists sp, sp <> Some Voting /\ ei = migrate_to_next_era sp (CurrentEraInfo s)) \/
   Protocol.period_number st = sat_add u32_max (current_period s) 1 /\
     ei = migrate_to_next_era (Some Voting) (CurrentEraInfo s)) ->
  new_era s (finish_era cfg (era (ActiveProtocolState s)) st ei ev r s0).
Proof.
  intros Hl Hk Hw (Hd & Hn & Hc) Hpar Hcon Hp.
  destruct (finish_era_frame (era (ActiveProtocolState s)) st ei ev r s0)
    as (Hst & Hei & Hl' & Hk' & Hw' & Hd' & Hn' & Hc' & Hpar' & Hcon').
  split; try congruence.
  - split_and!; congruence.
  - unfold current_era. by rewrite Hst.
  - rewrite Hei. unfold current_period. rewrite Hst. exact Hp.
Qed.

(** A block notifies the observers, starts a new era, or does nothing. *)
Lemma handler_cases now (s : St) :
  let s' := era_and_period_handler cfg now s in
  exists w, (w = world s \/ w = notify_block_before_new_era (ActiveProtocolState s) (world s)) /\
  (s' = put_world w s \/ new_era (put_world w s) s').
Proof.
  cbv zeta. unfold era_and_period_handler.
  destruct (maintenance _); [exists (world s); split; [by left|left; by destruct s]|].
  set (w := if next_era_start (ActiveProtocolState s) =? sat_add u32_max now 1
    then notify_block_before_new_era (ActiveProtocolState s) (world s) else world s).
  assert (Hs : (if next_era_start (ActiveProtocolState s) =? sat_add u32_max now 1
    then put_world (notify_block_before_new_era (ActiveProtocolState s) (world s)) s else s) =
    put_world w s) by (subst w; destruct (_ =? _); [done|by destruct s]).
  exists w. split; [subst w; destruct (_ =? _); auto|].
  rewrite Hs. destruct (is_new_era _ _); cbn [negb]; [|by left]. right.
  change (ActiveProtocolState s) with (ActiveProtocolState (put_world w s)).
  change (CurrentEraInfo (put_world w s)) with (CurrentEraInfo s).
  destruct (current_subperiod (ActiveProtocolState (put_world w s))) eqn:Hsub.
  - unfold end_voting. cbv zeta. apply (finish_new_era (put_world w s)); try done. left.
    unfold advance_to_next_subperiod, current_period, current_subperiod in *. simpl in *.
    rewrite Hsub. split; [done|]. by exists (Some BuildAndEarn).
  - unfold end_build_and_earn_era. destruct (staker_and_dapp_reward_pools _ _) as [sp dp].
    destruct (get_dapp_tier_assignment_and_rewards _ _ _ _ _) as [tr n].
    destruct (is_next_period _ _).
    + destruct (cleanup_marker_frame (Protocol.period_number
        (advance_to_next_subperiod (sat_add u32_max (sat_add u32_max (era (ActiveProtocolState s)) 1) 1)
          (sat_add u32_max now (blocks_per_voting_period cfg)) (ActiveProtocolState s)))
        (put_period_end (<[Protocol.period_number (ActiveProtocolState s) :=
            mkPeriodEndInfo (Primitives.bonus_reward_pool w)
              (EraInfo.staked_amount (CurrentEraInfo s) Voting) (era (ActiveProtocolState s))]>
            (PeriodEnd s)) (put_dapp_tiers (<[era (ActiveProtocolState s) := tr]> (DAppTiers s))
          (put_world w s)))) as (F1 & F2 & F3 & F4 & F5 & F6 & _ & F8 & F9).
      apply (finish_new_era (put_world w s)); try done. right.
      unfold advance_to_next_subperiod, current_period, current_subperiod in *. simpl in *.
      by rewrite Hsub.
    + apply (finish_new_era (put_world w s)); try done. left. split; [done|]. by exists None.
Qed.

Context `{!CurrencyLaws AccountId W, !RewardHandlerLaws AccountId W, !ObserverLaws AccountId W}.
Context (Hcfg : config_ok cfg).
Abbreviation Inv := (Inv cfg).

Lemma new_era_preserves (s s' : St) :
  Inv s -> current_era s < u32_max -> new_era s s' -> Inv s'.
Proof.
  intros Hinv Hmax [Hl Hk Hw _ _ _ He Hp].
  assert (Hsk : forall a, stakers_of s' a = stakers_of s a)
    by (intros a; unfold stakers_of; by rewrite Hk).
  assert (Hlo : forall a, ledger_of s' a = ledger_of s a)
    by (intros a; unfold ledger_of; by rewrite Hl).
  pose proof (inv_clock _ s Hinv) as Hclk. rewrite sat_add_exact in He by lia.
  destruct Hp as [(Hp & sp & Hsp & Hei)|(Hp & Hei)].
  - destruct (migrate_locked sp (CurrentEraInfo s)) as [Hml Hmu].
    pose proof (inv_era_info _ s Hinv) as Hv.
    pose proof (migrate_next_total sp (CurrentEraInfo s) (proj2 (proj2 (proj2 Hv)))) as Hmn.
    destruct Hinv. split; rewrite ?Hp, ?He, ?Hl, ?Hw, ?Hei, ?Hml, ?Hmu; try done; try lia.
    + intros a c i. unfold staker_info. rewrite Hsk. apply inv_staker.
    + intros a. rewrite Hsk, Hlo. apply inv_stakes.
    + by apply migrate_valid.
    + rewrite Hmn, inv_staked. by destruct sp as [[]|].
  - rewrite sat_add_exact in Hp by lia.
    destruct (migrate_locked (Some Voting) (CurrentEraInfo s)) as [Hml Hmu].
    pose proof (inv_era_info _ s Hinv) as Hv.
    pose proof (migrate_next_total (Some Voting) (CurrentEraInfo s) (proj2 (proj2 (proj2 Hv)))) as Hmn.
    assert (Hz : forall a, AccountLedger.staked_amount (ledger_of s a) (current_period s + 1) = 0).
    { intros a. apply (staked_amount_past (current_period s)); [|lia].
      apply (li_periods _ _ _ _ (ledger_of_inv cfg Hcfg s a Hinv)). }
    destruct Hinv. split; rewrite ?Hp, ?He, ?Hl, ?Hw, ?Hei, ?Hml, ?Hmu; try done; try lia.
    + intros a l Ha. eapply ledger_inv_next_period; [by apply inv_ledger|lia].
    + intros a c i. unfold staker_info. rewrite Hsk. intros Hi.
      destruct (inv_staker a c i Hi). split; done || lia.
    + intros a. rewrite Hsk, Hlo, Hz. apply map_sum_zero. intros c i Hi.
      destruct (inv_staker a c i Hi). unfold stake_in. by rewrite (proj2 (Z.eqb_neq _ _)) by lia.
    + by apply migrate_valid.
    + rewrite Hmn. apply map_sum_zero. intros a l Ha.
      apply (staked_amount_past (current_period s)); [|lia]. by apply (inv_ledger a l).
Qed.

Lemma handler_preserves now (s : St) :
  Inv s -> current_era s < u32_max -> Inv (era_and_period_handler cfg now s).
Proof.
  intros Hinv Hmax. destruct (handler_cases now s) as (w & Hw & Hs').
  assert (Hinv' : Inv (put_world w s)).
  { apply (inv_frame_world cfg s); try done. intros b. simpl.
    destruct Hw as [-> | ->]; [lia|]. apply block_before_new_era_balance. }
  destruct Hs' as [-> |Hne]; [done|]. by apply (new_era_preserves (put_world w s)).
Qed.

Lemma idle_preserves b (s : St) : Inv s -> Inv (expired_entry_cleanup cfg b s).
Proof.
  intros Hinv. unfold expired_entry_cleanup.
  destruct (negb b); [done|]. destruct (negb _); [done|].
  destruct (if _ <? _ then _ else _) as [rw idx]. destruct (if _ <? _ then _ else _) as [ts ti].
  by apply (inv_frame_world cfg s).
Qed.

Lemma set_maintenance_preserves b (s : St) : Inv s -> Inv (set_maintenance_mode b s).
Proof.
  intros Hinv. apply (inv_frame cfg s); try done. intros a l Hl. by apply (inv_ledger _ s Hinv a l).
Qed.

Lemma force_preserves o t (s s' : St) : Inv s -> force o t s = Ok s' -> Inv s'.
Proof.
  intros Hinv Hop. unfold force in Hop. cbv zeta in Hop. result_inv.
  apply (inv_frame cfg s); try done; [by destruct t..|].
  intros a' l Hl. simpl. etrans; [by apply (inv_ledger _ s Hinv a' l)|].
  apply block_before_new_era_balance.
Qed.

Lemma dispatch_preserves o call (s s' : St) :
  call_typed call -> Inv s -> current_era s < u32_max -> dispatch o call s = Ok s' -> Inv s'.
Proof.
  intros Ht Hinv Hmax Hd. unfold in_range in *. destruct call; simpl in Hd, Ht.
  - unfold maintenance_mode in Hd. result_inv. by apply (set_maintenance_preserves enabled).
  - unfold register in Hd. result_inv. by apply (inv_frame_world cfg s).
  - unfold set_dapp_reward_beneficiary in Hd. result_inv; by apply (inv_frame_world cfg s).
  - unfold set_dapp_owner in Hd. cbv zeta in Hd. result_inv; by apply (inv_frame_world cfg s).
  - by eapply unlock_preserves; [..|exact Hd]; done || apply Ht.
  - unfold withdraw_unbonded, claim_unlocked in Hd. result_inv.
    by eapply claim_unlocked_preserves; [..|exact Hd].
  - unfold unregister in Hd. result_inv. by apply (inv_frame_world cfg s).
  - by eapply lock_preserves; [..|exact Hd]; done || apply Ht.
  - by eapply unlock_preserves; [..|exact Hd]; done || apply Ht.
  - unfold claim_unlocked in Hd. result_inv. by eapply claim_unlocked_preserves; [..|exact Hd].
  - by eapply relock_preserves; [..|exact Hd].
  - by eapply stake_preserves; [..|exact Hd].
  - by eapply unstake_preserves; [..|exact Hd].
  - unfold claim_staker_rewards in Hd. result_inv. by eapply claim_staker_preserves; [..|exact Hd].
  - unfold claim_bonus_reward in Hd. result_inv. by eapply claim_bonus_preserves; [..|exact Hd].
  - unfold claim_dapp_reward in Hd. cbv zeta in Hd. result_inv. apply (inv_frame_world cfg s); try done.
    intros b. simpl. by eapply payout_reward_balance.
  - by eapply unstake_from_unregistered_preserves; [..|exact Hd].
  - by eapply cleanup_preserves; [..|exact Hd].
  - by eapply force_preserves; [..|exact Hd].
  - unfold claim_staker_rewards_for in Hd. result_inv.
    by eapply claim_staker_preserves; [..|exact Hd].
  - unfold claim_bonus_reward_for in Hd. result_inv.
    by eapply claim_bonus_preserves; [..|exact Hd].
Qed.

(** A step keeps the era or starts the next one. *)
Lemma step_era (s s' : St) :
  step s s' ->
  current_era s' = current_era s \/ current_era s' = sat_add u32_max (current_era s) 1.
Proof.
  intros [o call s0 s1 _ Hd|now s0|b s0|b s0|w s0 _].
  - apply dispatch_clock in Hd as [Hera _]. by left.
  - unfold on_initialize. destruct (handler_cases (saturated_into u32_max now) s0) as (w & _ & [-> |Hne]).
    + by left.
    + right. exact (ne_era _ _ Hne).
  - left. unfold on_idle, expired_entry_cleanup. destruct (negb b); [done|].
    destruct (negb _); [done|]. destruct (if _ <? _ then _ else _) as [rw idx].
    by destruct (if _ <? _ then _ else _) as [ts ti].
  - left. by destruct b.
  - by left.
Qed.

Lemma reachable_era (s : St) : reachable s -> 1 <= current_era s <= u32_max.
Proof.
  induction 1 as [g w s Hg Hb|s s' Hr IH Hs].
  - unfold build in Hb. result_inv. unfold current_era. simpl. lia.
  - apply step_era in Hs. ulia.
Qed.

Lemma genesis_inv g w (s : St) : build cfg g w = Some s -> Inv s.
Proof. unfold build. intros Hb. by result_inv. Qed.

Lemma step_preserves (s s' : St) : step s s' -> current_era s < u32_max -> Inv s -> Inv s'.
Proof.
  intros [o call s0 s1 Ht Hd|now s0|b s0|b s0|w s0 Hw] Hmax Hinv.
  - by eapply dispatch_preserves.
  - by apply handler_preserves.
  - by apply idle_preserves.
  - destruct b; by apply set_maintenance_preserves.
  - by apply (inv_frame cfg s0).
Qed.

Lemma reachable_inv (s : St) : reachable s -> current_era s < u32_max -> Inv s.
Proof.
  induction 1 as [g w s Hg Hb|s s' Hr IH Hs]; intros Hmax; [by eapply genesis_inv|].
  assert (current_era s < u32_max).
  { pose proof (reachable_era s Hr). pose proof (step_era s s' Hs). ulia. }
  apply (step_preserves s); auto.
Qed.
End executions.
