(* ===== verification/Registry.v ===== *)
(** * Registered dApps and the tier configuration, in every reachable state *)

From S2P Require Import Prelude Frame Primitives StakeAmount EraInfo AccountLedger.
From S2P Require Import SingularStakingInfo ContractStakeAmount EraRewardSpan Tiers Protocol.
From S2P Require Import PalletState DAppStaking TierAssignment EraHandler Invariant Reachability.

Section registry.
Context {AccountId Origin W : Type} `{Countable AccountId}.
Context `{!SpArithmetic, !Currency AccountId W, !FrameSystem AccountId Origin W}.
Context `{!Observer W, !StakingRewardHandler AccountId W, !AccountCheck AccountId W}.
Context `{!PrivilegedOrigins Origin, !PrefixOrder AccountId}.
Context `{!PriceProvider W, !TierSlots, !UnspecifiedOrder}.
Context (cfg : Config).

Abbreviation St := (Storage AccountId W).

(** Ids are handed out once, in order; stake is only kept for registered dApps. *)
Record RInv (s : St) : Prop := {
  ri_next : 0 <= NextDAppId s <= u16_max;
  ri_size : Z.of_nat (size (IntegratedDApps s)) <= MaxNumberOfContracts cfg;
  ri_id c d : IntegratedDApps s !! c = Some d -> 0 <= id d < NextDAppId s;
  ri_inj c1 c2 d1 d2 :
    IntegratedDApps s !! c1 = Some d1 -> IntegratedDApps s !! c2 = Some d2 ->
    id d1 = id d2 -> c1 = c2;
  ri_stake k : is_Some (ContractStake s !! k) ->
    exists c d, IntegratedDApps s !! c = Some d /\ id d = k;
}.

(** The parts of the storage this is about. *)
Definition registry_part (s : St) := (NextDAppId s, IntegratedDApps s, ContractStake s).
Definition tier_part (s : St) := (StaticTierParams s, TierConfig s).

Lemma rinv_frame (s s' : St) : registry_part s' = registry_part s -> RInv s -> RInv s'.
Proof.
  unfold registry_part. intros Heq []. injection Heq as Hn Hd Hc.
  split; rewrite ?Hn, ?Hd, ?Hc; done.
Qed.

(** Writing a dApp back under its contract with its id. *)
Lemma rinv_update (s s' : St) c d d' :
  IntegratedDApps s !! c = Some d -> id d' = id d ->
  registry_part s' = (NextDAppId s, <[c := d']> (IntegratedDApps s), ContractStake s) ->
  RInv s -> RInv s'.
Proof.
  unfold registry_part. intros Hc Hid Heq []. injection Heq as Hn Hd Hcs.
  assert (Hl : forall c' x, <[c := d']> (IntegratedDApps s) !! c' = Some x ->
    exists y, IntegratedDApps s !! c' = Some y /\ id x = id y).
  { intros c' x [[<- <-]|[_ Hx]]%lookup_insert_Some; eauto. }
  split; rewrite ?Hn, ?Hd, ?Hcs; try done.
  - rewrite map_size_insert_Some by by eexists. done.
  - intros c' x Hx. apply Hl in Hx as (y & Hy & ->). eauto.
  - intros c1 c2 x1 x2 H1' H2' Hxx. apply Hl in H1' as (y1 & Hy1 & E1).
    apply Hl in H2' as (y2 & Hy2 & E2). apply (ri_inj0 c1 c2 y1 y2); [done..|congruence].
  - intros k Hk. destruct (ri_stake0 k Hk) as (c' & x & Hx & <-).
    destruct (decide (c' = c)) as [->|Hne].
    + exists c, d'. rewrite lookup_insert_eq. split; [done|]. congruence.
    + exists c', x. by rewrite lookup_insert_ne.
Qed.

Lemma rinv_stake (s s' : St) c d x :
  IntegratedDApps s !! c = Some d ->
  registry_part s' = (NextDAppId s, IntegratedDApps s, <[id d := x]> (ContractStake s)) ->
  RInv s -> RInv s'.
Proof.
  unfold registry_part. intros Hc Heq []. injection Heq as Hn Hd Hcs.
  split; rewrite ?Hn, ?Hd, ?Hcs; try done.
  intros k [y Hy]. apply lookup_insert_Some in Hy as [[<- _]|[_ Hy]]; [eauto|].
  apply ri_stake0. by eexists.
Qed.

Lemma update_ledger_parts a l (s s' : St) :
  update_ledger a l s = Ok s' ->
  registry_part s' = registry_part s /\ tier_part s' = tier_part s.
Proof. unfold update_ledger. intros Hu. by result_inv. Qed.

Lemma events_registry acc rewards (s : St) :
  registry_part (foldl (fun s '(era, reward) => deposit_event (Reward acc era reward) s) s rewards)
  = registry_part s.
Proof. revert s. induction rewards as [|[e r] rs IH]; intros s; simpl; [done|]. by rewrite IH. Qed.

Lemma events_tier acc rewards (s : St) :
  tier_part (foldl (fun s '(era, reward) => deposit_event (Reward acc era reward) s) s rewards)
  = tier_part s.
Proof. revert s. induction rewards as [|[e r] rs IH]; intros s; simpl; [done|]. by rewrite IH. Qed.

(** Calls that do not concern the registry. *)
Definition registry_call (c : Call AccountId) : bool :=
  match c with
  | call_register _ _ | call_set_dapp_reward_beneficiary _ _ | call_set_dapp_owner _ _
  | call_unregister _ | call_stake _ _ | call_unstake _ _ => true
  | _ => false
  end.

Lemma dispatch_parts o call (s s' : St) :
  dispatch cfg o call s = Ok s' ->
  tier_part s' = tier_part s /\
  (registry_call call = false -> registry_part s' = registry_part s).
Proof.
  intros Hd. destruct call; simpl in Hd;
    unfold maintenance_mode, register, set_dapp_reward_beneficiary, set_dapp_owner, unregister,
      unbond_and_unstake, withdraw_unbonded, claim_unlocked, internal_claim_unlocked, lock, unlock,
      relock_unlocking, stake, unstake, unstake_from_unregistered, cleanup_expired_entries,
      claim_staker_rewards, claim_staker_rewards_for, internal_claim_staker_rewards_for,
      claim_bonus_reward, claim_bonus_reward_for, internal_claim_bonus_reward_for,
      claim_dapp_reward, force in Hd; cbv zeta in Hd; result_inv;
    repeat match goal with
    | Hu : update_ledger _ _ _ = Ok _ |- _ => apply update_ledger_parts in Hu as [? ?]; simpl in *
    | Hu : context [registry_part (if ?b then _ else _)] |- _ => destruct b
    end; try done; split; try discriminate; intros;
    rewrite ?events_registry, ?events_tier; try done; eassumption.
Qed.

(** ** Preservation *)

Lemma ok_or_some {A E} (x : option A) (e : E) a : ok_or x e = Ok a -> x = Some a.
Proof. destruct x; simpl; congruence. Qed.

Lemma register_rinv o ow c (s s' : St) : RInv s -> register cfg o ow c s = Ok s' -> RInv s'.
Proof.
  intros [] Hop. unfold register in Hop. cbv zeta in Hop. bind_inv Hop as u1 E1.
  bind_inv Hop as u2 E2. guard_inv Hop as Enew. guard_inv Hop as Esz. guard_inv Hop as Eid.
  injection Hop as <-. apply negb_true_iff, bool_decide_eq_false in Enew.
  rewrite <- eq_None_not_Some in Enew. rewrite sat_add_exact by lia. split; simpl.
  - lia.
  - rewrite map_size_insert_None by done. lia.
  - intros c' d [[_ <-]|[_ Hd]]%lookup_insert_Some; simpl; [lia|].
    specialize (ri_id0 c' d Hd). lia.
  - intros c1 c2 d1 d2 [[<- <-]|[Hn1 Hd1]]%lookup_insert_Some
      [[<- <-]|[Hn2 Hd2]]%lookup_insert_Some Heq; simpl in *; try done.
    + specialize (ri_id0 c2 d2 Hd2). lia.
    + specialize (ri_id0 c1 d1 Hd1). lia.
    + eauto.
  - intros k Hk. destruct (ri_stake0 k Hk) as (c' & d & Hd & <-). exists c', d.
    rewrite lookup_insert_ne; [done|]. intros ->. congruence.
Qed.

Lemma unregister_rinv o c (s s' : St) : RInv s -> unregister o c s = Ok s' -> RInv s'.
Proof.
  intros [] Hop. unfold unregister in Hop. cbv zeta in Hop. bind_inv Hop as u1 E1.
  bind_inv Hop as u2 E2. bind_inv Hop as d Ed. injection Hop as <-. apply ok_or_some in Ed.
  split; simpl; try done.
  - rewrite map_size_delete_Some by by eexists. lia.
  - intros c' x [_ Hx]%lookup_delete_Some. eauto.
  - intros c1 c2 d1 d2 [_ H1']%lookup_delete_Some [_ H2']%lookup_delete_Some. eauto.
  - intros k [y [Hne Hy]%lookup_delete_Some]. destruct (ri_stake0 k ltac:(by eexists))
      as (c' & x & Hx & <-). exists c', x. rewrite lookup_delete_ne; [done|].
    intros ->. congruence.
Qed.

Lemma dispatch_rinv o call (s s' : St) : RInv s -> dispatch cfg o call s = Ok s' -> RInv s'.
Proof.
  intros Hinv Hd. destruct (registry_call call) eqn:Hrc.
  2:{ apply dispatch_parts in Hd as [_ Hp]. apply (rinv_frame s); auto. }
  destruct call; try discriminate; simpl in Hd.
  - by eapply register_rinv.
  - unfold set_dapp_reward_beneficiary in Hd. bind_inv Hd as u E1. bind_inv Hd as a E2.
    bind_inv Hd as d Ed. guard_inv Hd as Eo. injection Hd as <-. apply ok_or_some in Ed.
    by apply (rinv_update s _ c d (mkDAppInfo (owner d) (id d) b)).
  - unfold set_dapp_owner in Hd. bind_inv Hd as u E1. bind_inv Hd as a E2.
    bind_inv Hd as d Ed. guard_inv Hd as Eo. injection Hd as <-. apply ok_or_some in Ed.
    by apply (rinv_update s _ c d (mkDAppInfo new_owner (id d) (reward_beneficiary d))).
  - by eapply unregister_rinv.
  - unfold stake in Hd. cbv zeta in Hd. bind_inv Hd as u E1. bind_inv Hd as a E2.
    guard_inv Hd as Ex. bind_inv Hd as d Ed. guard_inv Hd as En. bind_inv Hd as l El.
    bind_inv Hd as [i b] Ei. guard_inv Hd as Em. guard_inv Hd as Ec. bind_inv Hd as s1 Eu.
    injection Hd as <-. apply ok_or_some in Ed. apply update_ledger_parts in Eu as [Hp _].
    injection Hp as Hp1 Hp2 Hp3. eapply (rinv_stake s _ c d); [done| |done].
    unfold registry_part. simpl in *. by rewrite Hp1, Hp2, Hp3.
  - unfold unstake in Hd. cbv zeta in Hd. bind_inv Hd as u E1. bind_inv Hd as a E2.
    guard_inv Hd as Ex. bind_inv Hd as d Ed. bind_inv Hd as i Ei. guard_inv Hd as Ep.
    guard_inv Hd as Ele. destruct (SingularStakingInfo.unstake _ _ _ _) as [prs i'].
    bind_inv Hd as l El. apply ok_or_some in Ed.
    destruct (SingularStakingInfo.is_empty i'); bind_inv Hd as s1 Eu; injection Hd as <-;
      apply update_ledger_parts in Eu as [Hp _]; injection Hp as Hp1 Hp2 Hp3;
      (eapply (rinv_stake s _ c d); [done| |done]); unfold registry_part; simpl in *;
      by rewrite Hp1, Hp2, Hp3.
Qed.

Lemma step_rinv (s s' : St) : step cfg s s' -> RInv s -> RInv s'.
Proof.
  intros [o call s0 s1 _ Hd|now s0|b s0|b s0|w s0 _] Hinv.
  - by eapply dispatch_rinv.
  - unfold on_initialize. destruct (handler_cases cfg (saturated_into u32_max now) s0)
      as (w & _ & [-> |Hne]); [by apply (rinv_frame s0)|].
    apply (rinv_frame s0); [|done]. destruct (ne_dapps _ _ _ Hne) as (Hd & Hn & Hc).
    unfold registry_part. by rewrite Hd, Hn, Hc.
  - apply (rinv_frame s0); [|done]. unfold on_idle, expired_entry_cleanup.
    destruct (negb b); [done|]. destruct (negb _); [done|].
    destruct (if _ <? _ then _ else _) as [rw idx]. by destruct (if _ <? _ then _ else _) as [ts ti].
  - destruct b; by apply (rinv_frame s0).
  - by apply (rinv_frame s0).
Qed.

Lemma genesis_rinv g w (s : St) : 0 <= MaxNumberOfContracts cfg -> build cfg g w = Some s -> RInv s.
Proof.
  unfold build. intros Hm Hb. result_inv. split; simpl; try done; try lia.
  intros k [x Hx]. by rewrite lookup_empty in Hx.
Qed.

Lemma reachable_rinv (s : St) : 0 <= MaxNumberOfContracts cfg -> reachable cfg s -> RInv s.
Proof.
  intros Hm. induction 1 as [g w s Hg Hb|s s' Hr IH Hs]; [by eapply genesis_rinv|].
  by eapply step_rinv.
Qed.

(** ** Counting dApps *)

(** The ids of the registered dApps. *)
Definition dapp_ids (s : St) : list Z := (fun cd => id (snd cd)) <$> map_to_list (IntegratedDApps s).

Lemma dapp_ids_NoDup (s : St) : RInv s -> NoDup (dapp_ids s).
Proof.
  intros [_ _ _ Hinj _]. unfold dapp_ids.
  assert (Hl : forall cd, cd ∈ map_to_list (IntegratedDApps s) ->
    IntegratedDApps s !! fst cd = Some (snd cd)).
  { intros [c d] Hin. by apply elem_of_map_to_list. }
  pose proof (NoDup_fst_map_to_list (IntegratedDApps s)) as Hnd.
  induction (map_to_list (IntegratedDApps s)) as [|cd l IH]; [constructor|].
  rewrite fmap_cons in *. inversion_clear Hnd as [|? ? Hnin Hnd'].
  constructor; [|apply IH; [|done]; intros x Hx; apply Hl; by right].
  intros (cd' & Heq & Hin)%list_elem_of_fmap. apply Hnin. apply list_elem_of_fmap.
  exists cd'. split; [|done]. eapply Hinj; [apply Hl; by left|apply Hl; by right|done].
Qed.

Lemma registry_counts (s : St) :
  RInv s ->
  Z.of_nat (size (IntegratedDApps s)) <= NextDAppId s /\
  (size (ContractStake s) <= size (IntegratedDApps s))%nat /\
  Z.of_nat (size (ContractStake s)) <= NextDAppId s.
Proof.
  intros Hinv. pose proof (dapp_ids_NoDup s Hinv) as Hnd. destruct Hinv as [Hn Hs Hid Hinj Hst].
  assert (Hlen : length (dapp_ids s) = size (IntegratedDApps s)).
  { unfold dapp_ids. by rewrite length_fmap, length_map_to_list. }
  assert (Hsub1 : dapp_ids s ⊆+ seqZ 0 (NextDAppId s)).
  { apply NoDup_submseteq; [done|]. intros k ([c d] & -> & Hin)%list_elem_of_fmap.
    apply elem_of_map_to_list in Hin. apply elem_of_seqZ. specialize (Hid c d Hin). simpl. lia. }
  assert (Hsub2 : fst <$> map_to_list (ContractStake s) ⊆+ dapp_ids s).
  { apply NoDup_submseteq; [apply NoDup_fst_map_to_list|].
    intros k ([k' x] & -> & Hin)%list_elem_of_fmap. apply elem_of_map_to_list in Hin.
    destruct (Hst k' ltac:(by eexists)) as (c & d & Hd & <-).
    apply list_elem_of_fmap. exists (c, d). by rewrite elem_of_map_to_list. }
  apply submseteq_length in Hsub1, Hsub2. rewrite length_seqZ, Hlen in *.
  rewrite length_fmap, length_map_to_list in Hsub2. lia.
Qed.

(** ** The tier configuration *)

(** A slot function and a price provider return values of their types. *)
Class TierSlotsLaws : Prop := {
  number_of_slots_range x : in_range u128_max x -> in_range u16_max (number_of_slots x);
}.
Class PriceProviderLaws : Prop := {
  average_price_range (w : W) : in_range u128_max (average_price w);
}.

Record TInv (s : St) : Prop := {
  ti_params : params_wf (StaticTierParams s);
  ti_params_valid : params_is_valid (NumberOfTiers cfg) (StaticTierParams s) = true;
  ti_config_valid : config_is_valid (NumberOfTiers cfg) (TierConfig s) = true;
  ti_slots : Forall (in_range u16_max) (slots_per_tier (TierConfig s));
  ti_thresholds : Forall (in_range u128_max) (tier_thresholds (TierConfig s));
  ti_portions : reward_portion (TierConfig s) = params_reward_portion (StaticTierParams s);
}.

Lemma tinv_frame (s s' : St) : tier_part s' = tier_part s -> TInv s -> TInv s'.
Proof. unfold tier_part. intros Heq []. injection Heq as Hp Hc. split; rewrite ?Hp, ?Hc; done. Qed.

Section tiers.
Context `{!SpArithmeticLaws, !CurrencyLaws AccountId W, !TierSlotsLaws, !PriceProviderLaws}.
Context (HNT : 0 < NumberOfTiers cfg) (Hprice : in_range u128_max (BaseNativeCurrencyPrice cfg)).

Lemma calculate_new_ranges base price ti p :
  in_range u16_max (number_of_slots base) -> in_range u16_max (number_of_slots price) ->
  in_range u128_max ti -> params_wf p -> params_is_valid (NumberOfTiers cfg) p = true ->
  let c := calculate_new (NumberOfTiers cfg) base p price ti in
  Forall (in_range u16_max) (slots_per_tier c) /\ Forall (in_range u128_max) (tier_thresholds c).
Proof.
  intros Hb Hn Hti (Hrp & Hsd & Htt) Hv. cbv zeta. unfold calculate_new. cbn -[new_threshold].
  assert (Hnn : forall l, Forall (in_range permill_one) l -> Forall (fun x => 0 <= x) l)
    by (intros l Hl; eapply Forall_impl; [exact Hl|unfold in_range; simpl; lia]).
  apply params_is_valid_iff in Hv as (_ & _ & _ & Hl2 & Hl3); auto.
  unfold in_range in Hb, Hn.
  rewrite !try_from_fits by (rewrite length_fmap; lia). split; apply Forall_fmap.
  - eapply Forall_impl; [exact Hsd|]. intros d Hd. simpl.
    set (n := Z.max _ 1). assert (Hn' : in_range u128_max n) by (unfold in_range, n; lia).
    pose proof (permill_mul_bound d n Hd Hn'). unfold in_range, saturated_into. lia.
  - eapply Forall_impl; [exact Htt|]. intros t Ht. simpl.
    refine (proj1 (new_threshold_spec _ _ ti t Hti _ _ Ht)); lia.
Qed.

Lemma new_era_tinv (s s' : St) : new_era cfg s s' -> TInv s -> TInv s'.
Proof.
  intros Hne []. pose proof (ne_params _ _ _ Hne) as Hp.
  destruct (ne_config _ _ _ Hne) as [Hc|[Hc Hv]].
  - split; rewrite ?Hp, ?Hc; done.
  - destruct (calculate_new_ranges (BaseNativeCurrencyPrice cfg) (average_price (world s))
      (total_issuance (world s)) (StaticTierParams s)) as [Hs Ht]; try done.
    + by apply number_of_slots_range.
    + apply number_of_slots_range, average_price_range.
    + apply total_issuance_range.
    + split; rewrite ?Hp; try done; by rewrite Hc.
Qed.

Lemma genesis_tinv g w (s : St) : genesis_typed g -> build cfg g w = Some s -> TInv s.
Proof.
  intros (Hrp & Hsd & Htt & Hsl) Hb. unfold build in Hb. result_inv.
  repeat match goal with H : try_from _ ?l = Some _ |- _ =>
    unfold try_from in H; destruct (_ <=? _) in H; simplify_eq end.
  split; simpl; try done.
  apply Forall_fmap. eapply Forall_impl; [exact Htt|]. intros t Ht. simpl.
  pose proof (total_issuance_range w) as Hti.
  destruct t as [r|p m]; simpl in *;
    [pose proof (perbill_mul_bound r _ Ht Hti)|pose proof (perbill_mul_bound p _ (proj1 Ht) Hti)];
    unfold in_range in *; lia.
Qed.

Lemma reachable_tinv (s : St) : reachable cfg s -> TInv s.
Proof.
  induction 1 as [g w s Hg Hb|s s' Hr IH Hs]; [by eapply genesis_tinv|].
  destruct Hs as [o call s0 s1 _ Hd|now s0|b s0|b s0|w s0 _].
  - apply (tinv_frame s0); [|done]. by apply dispatch_parts in Hd as [Hp _].
  - unfold on_initialize. destruct (handler_cases cfg (saturated_into u32_max now) s0)
      as (w & _ & [-> |Hne]); [by apply (tinv_frame s0)|].
    apply (new_era_tinv (put_world w s0)); [done|]. by apply (tinv_frame s0).
  - apply (tinv_frame s0); [|done]. unfold on_idle, expired_entry_cleanup.
    destruct (negb b); [done|]. destruct (negb _); [done|].
    destruct (if _ <? _ then _ else _) as [rw idx]. by destruct (if _ <? _ then _ else _) as [ts ti].
  - destruct b; by apply (tinv_frame s0).
  - by apply (tinv_frame s0).
Qed.

(** So the tier assignment is always in the situation it relies on. *)
Lemma reachable_assignable (s : St) :
  NumberOfTiers cfg <= 16 -> 0 <= MaxNumberOfContracts cfg -> reachable cfg s ->
  assignable cfg s /\ zsum (reward_portion (TierConfig s)) <= permill_one.
Proof.
  intros H16 Hm Hr. destruct (reachable_tinv s Hr) as [[Hrp Hrest] Hpv Hcv Hs Ht Hp].
  pose proof (reachable_rinv s Hm Hr) as Hri. pose proof (registry_counts s Hri) as (_ & Hc & _).
  pose proof (ri_size s Hri). split.
  - split; try done; [by rewrite Hp|lia].
  - rewrite Hp. destruct Hrest as [Hsd _].
    assert (Hnn : forall l, Forall (in_range permill_one) l -> Forall (fun x => 0 <= x) l)
      by (intros l Hl; eapply Forall_impl; [exact Hl|unfold in_range; simpl; lia]).
    apply params_is_valid_iff in Hpv as (Hsum & _); auto.
Qed.
End tiers.
End registry.

Arguments TierSlotsLaws {_}.
Arguments PriceProviderLaws W {_}.

#[export] Instance StandardTierSlots_laws `{SpArithmeticLaws} : TierSlotsLaws.
Proof.
  split. intros x Hx. simpl. unfold standard_number_of_slots.
  pose proof (fixed_saturating_mul_int_range u64_max x 1000 Hx ltac:(unfold in_range; lia)). ulia.
Qed.
