(* ===== verification/ExampleWorld.v ===== *)
(** * One world in which the pallet runs

    A concrete runtime around the pallet, used to evaluate it: ten accounts
    with a fixed balance, a freeze per account, a log of the rewards paid, and
    a reward handler with constant pools.  It satisfies all the laws the
    theorems rely on. *)

From S2P Require Import Prelude Frame Primitives StakeAmount EraInfo AccountLedger.
From S2P Require Import SingularStakingInfo ContractStakeAmount EraRewardSpan Tiers Protocol.
From S2P Require Import PalletState DAppStaking TierAssignment EraHandler Invariant Reachability.

Record ExWorld := mkExWorld {
  ex_block : Z;
  ex_frozen : gmap Z Z;
  ex_paid : list (Z * Z);
}.

Inductive ExOrigin := Root | Signed (a : Z).

Definition ex_balance (a : Z) : Z := if (0 <=? a) && (a <? 10) then 1000000 else 0.

#[export] Instance ExCurrency : Currency Z ExWorld := {|
  total_balance _ a := ex_balance a;
  total_issuance _ := 10000000;
  set_freeze w a x := Some (mkExWorld (ex_block w) (<[a := x]> (ex_frozen w)) (ex_paid w));
  thaw w a := Some (mkExWorld (ex_block w) (delete a (ex_frozen w)) (ex_paid w));
|}.

#[export] Instance ExSystem : FrameSystem Z ExOrigin ExWorld := {|
  block_number := ex_block;
  ensure_signed o := match o with Signed a => Some a | Root => None end;
  ensure_root o := match o with Root => true | Signed _ => false end;
  ensure_signed_or_root o := match o with Signed a => Some (Some a) | Root => Some None end;
|}.

#[export] Instance ExObserver : Observer ExWorld := {| block_before_new_era w _ := w |}.

#[export] Instance ExRewards : StakingRewardHandler Z ExWorld := {|
  staker_and_dapp_reward_pools _ _ := (1000, 3000);
  Primitives.bonus_reward_pool _ := 500;
  payout_reward w a x := Some (mkExWorld (ex_block w) (ex_frozen w) (ex_paid w ++ [(a, x)]));
|}.

#[export] Instance ExAccountCheck : AccountCheck Z ExWorld := {| allowed_to_stake _ _ := true |}.
#[export] Instance ExPrice : PriceProvider ExWorld := {| average_price _ := fixed_div / 10 |}.

#[export] Instance ExOrigins : PrivilegedOrigins ExOrigin := {|
  ManagerOrigin o := match o with Root => true | Signed _ => false end;
  ContractRegisterOrigin o := match o with Root => true | Signed _ => false end;
  ContractUnregisterOrigin o := match o with Root => true | Signed _ => false end;
|}.

#[export] Instance ExPrefixOrder : PrefixOrder Z := {|
  prefix_keys m := fst <$> map_to_list m;
|}.

Lemma ex_balance_sum l :
  zsum (ex_balance <$> l) = 1000000 * Z.of_nat (length (filter (fun a => 0 <= a < 10) l)).
Proof.
  induction l as [|a l IH]; [done|]. rewrite fmap_cons, filter_cons. unfold zsum in *. cbn [foldr].
  rewrite IH. unfold ex_balance. case_decide; cbn [length]; destruct (_ && _) eqn:?; lia.
Qed.

#[export] Instance ExCurrencyLaws : CurrencyLaws Z ExWorld.
Proof.
  split; simpl; intros; unfold in_range in *; simplify_eq; try lia; try done.
  - unfold ex_balance. by destruct (_ && _).
  - rewrite ex_balance_sum.
    assert (Hsub : filter (fun a => 0 <= a < 10) l ⊆+ seqZ 0 10).
    { apply NoDup_submseteq; [by apply NoDup_filter|]. intros a [Ha _]%list_elem_of_filter.
      apply elem_of_seqZ. lia. }
    apply submseteq_length in Hsub. rewrite length_seqZ in Hsub. lia.
Qed.

#[export] Instance ExRewardLaws : RewardHandlerLaws Z ExWorld.
Proof. split. simpl. intros. lia. Qed.

#[export] Instance ExObserverLaws : ObserverLaws Z ExWorld.
Proof. split. simpl. intros. lia. Qed.

(** ** A small configuration and its genesis *)

(** Eras of 10 blocks, 2 of them voting, 3 build-and-earn. *)
Definition ex_cfg : Config :=
  mkConfig (Build_CycleConfiguration 3 2 3 10) (fixed_div / 20) 4 2 5 2 100 2 3 50 2 true.

Definition ex_genesis : GenesisConfig :=
  mkGenesisConfig [600000; 400000] [500000; 500000]
    [DynamicPercentage 1000000 500000; FixedPercentage 10000] [3; 3] (Some false).

Lemma ex_cfg_ok : config_ok ex_cfg.
Proof. by split. Qed.

Abbreviation ExSt := (Storage Z ExWorld).

Definition ex_start : ExSt :=
  match @build Z _ _ ExWorld ExactArithmetic _ ex_cfg ex_genesis (mkExWorld 1 ∅ []) with
  | Some s => s
  | None => mkStorage default_protocol_state 0 ∅ ∅ ∅ ∅ EraInfo.default ∅ ∅ default_params
              default_config ∅ default_marker true [] (mkExWorld 1 ∅ [])
  end.

(** ** Runs *)

(** A block: the block number moves and [on_initialize] runs; a call; an idle
    clean-up. *)
Inductive Action :=
| act_block
| act_call (o : ExOrigin) (c : Call Z)
| act_idle.

Section runs.
Existing Instance ExactArithmetic.
Existing Instance StableOrder.

Definition set_block (s : ExSt) : ExSt :=
  put_world (mkExWorld (ex_block (world s) + 1) (ex_frozen (world s)) (ex_paid (world s))) s.

Definition act (a : Action) (s : ExSt) : option ExSt :=
  match a with
  | act_block =>
      let s := set_block s in Some (on_initialize ex_cfg (ex_block (world s)) s)
  | act_call o c => match dispatch ex_cfg o c s with Ok s => Some s | Err _ => None end
  | act_idle => Some (on_idle ex_cfg true s)
  end.

Fixpoint run (acts : list Action) (s : ExSt) : option ExSt :=
  match acts with
  | [] => Some s
  | a :: acts => match act a s with Some s => run acts s | None => None end
  end.

Definition blocks (n : nat) : list Action := replicate n act_block.

Definition action_typed (a : Action) : Prop :=
  match a with act_call _ c => call_typed c | _ => True end.

Lemma act_reachable a s s' :
  action_typed a -> reachable ex_cfg s -> current_era s < u32_max -> act a s = Some s' ->
  reachable ex_cfg s'.
Proof.
  intros Ht Hr Hmax Ha. destruct a as [|o c|]; simpl in Ha.
  - injection Ha as <-. eapply reachable_step; [|apply step_block].
    eapply reachable_step; [exact Hr|]. unfold set_block. apply step_world.
    intros b l Hl. pose proof (reachable_inv ex_cfg ex_cfg_ok s Hr Hmax) as Hinv.
    by apply (inv_ledger _ s Hinv b l).
  - destruct (dispatch ex_cfg o c s) eqn:Hd; [|done]. injection Ha as <-.
    eapply reachable_step; [exact Hr|]. by eapply step_call.
  - injection Ha as <-. eapply reachable_step; [exact Hr|]. apply step_idle.
Qed.

(** The eras of a run only go up, so a bound on the last one bounds all. *)
Lemma act_era a s s' :
  act a s = Some s' -> 1 <= current_era s <= u32_max ->
  current_era s <= current_era s' <= u32_max.
Proof.
  intros Ha He.
  assert (Hs : current_era s' = current_era s \/ current_era s' = sat_add u32_max (current_era s) 1).
  { destruct a as [|o c|]; simpl in Ha.
    - injection Ha as <-. apply (step_era ex_cfg (set_block s)), step_block.
    - destruct (dispatch ex_cfg o c s) eqn:Hd; [|done]. injection Ha as <-.
      apply dispatch_clock in Hd as [Hd _]. by left.
    - injection Ha as <-. apply (step_era ex_cfg s), step_idle. }
  ulia.
Qed.

Lemma run_reachable acts s s' :
  Forall action_typed acts -> reachable ex_cfg s -> run acts s = Some s' ->
  current_era s' < u32_max -> reachable ex_cfg s' /\ current_era s <= current_era s'.
Proof.
  intros Hall. revert s. induction Hall as [|a acts Ha Hall IH]; intros s Hr Hrun Hmax; simpl in Hrun.
  - injection Hrun as <-. split; [done|lia].
  - destruct (act a s) as [s1|] eqn:Hact; [|done].
    pose proof (reachable_era ex_cfg s Hr) as He. pose proof (act_era a s s1 Hact He) as Hle.
    destruct (Z.lt_ge_cases (current_era s) u32_max) as [Hlt|Hge].
    + pose proof (act_reachable a s s1 Ha Hr Hlt Hact) as Hr1.
      destruct (IH s1 Hr1 Hrun Hmax). split; [done|lia].
    + exfalso. clear IH Ha Hact. assert (Hs1 : current_era s1 = u32_max) by lia.
      clear -Hall Hrun Hmax Hs1. revert s1 Hrun Hs1.
      induction Hall as [|a acts Ha Hall IH]; intros s1 Hrun Hs1; simpl in Hrun.
      * injection Hrun as <-. lia.
      * destruct (act a s1) as [s2|] eqn:Hact; [|done].
        pose proof (act_era a s1 s2 Hact ltac:(lia)). apply (IH s2 Hrun). lia.
Qed.

Lemma ex_start_reachable : reachable ex_cfg ex_start.
Proof.
  apply (reachable_genesis ex_cfg ex_genesis (mkExWorld 1 ∅ [])); [|by vm_compute].
  split_and!; repeat constructor; simpl; unfold in_range; lia.
Qed.

(** ** A first run

    Two dApps; account 1 locks 1000 and stakes 300 on the first, account 2
    locks 500 and stakes 200 on the second; in the build-and-earn subperiod
    account 1 unstakes 100, starts unlocking 200, and account 2 claims. *)
Definition dapp1 : SmartContract Z := Evm 1.
Definition dapp2 : SmartContract Z := Wasm 7.

Definition setup : list Action :=
  [act_call Root (call_register 8 dapp1); act_call Root (call_register 9 dapp2);
   act_call (Signed 1) (call_lock 1000); act_call (Signed 1) (call_stake dapp1 300);
   act_call (Signed 2) (call_lock 500); act_call (Signed 2) (call_stake dapp2 200)].

Definition first_run : list Action :=
  setup ++ blocks 20 ++
  [act_call (Signed 1) (call_unstake dapp1 100)] ++ blocks 10 ++
  [act_call (Signed 1) (call_unlock 200); act_call (Signed 2) call_claim_staker_rewards].

Definition state_after (acts : list Action) : ExSt :=
  match run acts ex_start with Some s => s | None => ex_start end.

Definition first_state : ExSt := state_after first_run.

Lemma setup_typed : Forall action_typed setup.
Proof. repeat constructor; simpl; unfold in_range; lia. Qed.

Lemma blocks_typed n : Forall action_typed (blocks n).
Proof. induction n; by constructor. Qed.

Lemma first_run_typed : Forall action_typed first_run.
Proof.
  unfold first_run. rewrite !Forall_app.
  split_and!; [apply setup_typed|apply blocks_typed|..|apply blocks_typed|];
    repeat constructor; simpl; unfold in_range; lia.
Qed.

Lemma first_state_run : run first_run ex_start = Some first_state.
Proof. by vm_compute. Qed.

Lemma first_state_reachable : reachable ex_cfg first_state /\ current_era first_state < u32_max.
Proof.
  assert (Hera : current_era first_state < u32_max) by by vm_compute.
  split; [|done].
  by apply (run_reachable first_run ex_start first_state first_run_typed ex_start_reachable
    first_state_run Hera).
Qed.
End runs.
