(* ===== verification/TryState.v ===== *)
(** * The [try_state] checks of the pallet

    [pallets/dapp-staking/src/lib.rs], [do_try_state] and the checks it runs;
    each returns whether the check passes.  The checks of the ledgers, of the
    dApp ids and of the tiers pass in every reachable state. *)

From S2P Require Import Prelude Frame Primitives StakeAmount EraInfo AccountLedger.
From S2P Require Import SingularStakingInfo ContractStakeAmount EraRewardSpan Tiers Protocol.
From S2P Require Import PalletState DAppStaking TierAssignment EraHandler Invariant Preservation.
From S2P Require Import Reachability Registry ExampleWorld.

Section checks.
Context {AccountId Origin W : Type} `{Countable AccountId, !FrameSystem AccountId Origin W}.
Context (cfg : Config).

Abbreviation St := (Storage AccountId W).

Definition try_state_protocol (s : St) : bool :=
  let state := ActiveProtocolState s in
  (Z.of_nat (size (PeriodEnd s)) <? number (period_info state))
  && negb (era state =? 0)
  && (saturated_into u32_max (block_number (FrameSystem := FrameSystem0) (world s))
        <=? next_era_start state).

Definition try_state_next_dapp_id (s : St) : bool :=
  (Z.of_nat (size (IntegratedDApps s)) mod 65536 <=? NextDAppId s)
  && (Z.of_nat (size (ContractStake s)) mod 65536 <=? NextDAppId s).

Definition try_state_integrated_dapps (s : St) : bool :=
  Z.of_nat (size (IntegratedDApps s)) <=? MaxNumberOfContracts cfg.

Definition try_state_tiers (s : St) : bool :=
  let nb_tiers := NumberOfTiers cfg in
  let p := StaticTierParams s in
  let c := TierConfig s in
  (nb_tiers =? Z.of_nat (length (slot_distribution p)))
  && (nb_tiers =? Z.of_nat (length (params_reward_portion p)))
  && (nb_tiers =? Z.of_nat (length (params_tier_thresholds p)))
  && (nb_tiers =? Z.of_nat (length (slots_per_tier c)))
  && (nb_tiers =? Z.of_nat (length (reward_portion c)))
  && (nb_tiers =? Z.of_nat (length (tier_thresholds c))).

(** Invariants 2 to 5 of one ledger. *)
Definition check_ledger (current_period : Z) (l : AccountLedger) : bool :=
  let account_stake := AccountLedger.staked_amount l current_period in
  (Z.of_nat (length (unlocking l)) <=? MaxUnlockingChunks cfg)
  && negb ((0 <? account_stake) && (account_stake <? MinimumStakeAmount cfg))
  && negb ((0 <? active_locked_amount l) && (active_locked_amount l <? MinimumLockedAmount cfg))
  && (contract_stake_count l <=? MaxNumberOfStakedContracts cfg).

Definition try_state_ledger (s : St) : bool :=
  let period := Protocol.period_number (ActiveProtocolState s) in
  let ledgers := snd <$> map_to_list (Ledger s) in
  let e := CurrentEraInfo s in
  forallb (check_ledger period) ledgers
  && (zsum ((fun l => AccountLedger.staked_amount l period) <$> ledgers)
        =? total_staked_amount_next_era e)
  && (zsum (active_locked_amount <$> ledgers) =? total_locked e)
  && (zsum (unlocking_amount <$> ledgers) =? EraInfo.unlocking e).

Definition try_state_contract_stake (s : St) : bool :=
  let period := Protocol.period_number (ActiveProtocolState s) in
  forallb (fun kv =>
      let stake := ContractStakeAmount.total_staked_amount (snd kv) period in
      negb ((0 <? stake) && (stake <? MinimumStakeAmount cfg)))
    (map_to_list (ContractStake s)).

Definition try_state_era_rewards (s : St) : bool :=
  let spans := snd <$> map_to_list (EraRewards s) in
  forallb (fun kv =>
      existsb (fun span => (first_era span <=? fst kv) && (fst kv <=? last_era span)) spans)
    (map_to_list (DAppTiers s))
  && forallb (fun span => Z.of_nat (len span) <=? EraRewardSpanLength cfg) spans.

Definition do_try_state (s : St) : bool :=
  try_state_protocol s && try_state_next_dapp_id s && try_state_integrated_dapps s
  && try_state_tiers s && try_state_ledger s && try_state_contract_stake s
  && try_state_era_rewards s.
End checks.

(** ** The ledgers *)

Lemma map_sum_gap `{Countable K} {V} (f : V -> Z) (m : gmap K V) (x : Z) :
  0 <= x -> (forall k v, m !! k = Some v -> f v = 0 \/ x <= f v) ->
  map_sum f m = 0 \/ x <= map_sum f m.
Proof.
  intros Hx Hf. unfold map_sum.
  assert (Hall : forall kv, kv ∈ map_to_list m -> f (snd kv) = 0 \/ x <= f (snd kv)).
  { intros [k v] Hin. apply elem_of_map_to_list in Hin. by apply (Hf k). }
  induction (map_to_list m) as [|kv l IH]; [by left|].
  rewrite fmap_cons. unfold zsum in *. cbn [foldr].
  pose proof (Hall kv (list_elem_of_here _ _)).
  specialize (IH (fun y Hy => Hall y (list_elem_of_further _ _ _ Hy))). lia.
Qed.

Lemma zsum_ledgers `{Countable K} {V} (f g : V -> Z) (m : gmap K V) :
  (forall k v, m !! k = Some v -> f v = g v) ->
  zsum (f <$> (snd <$> map_to_list m)) = map_sum g m.
Proof.
  intros Hfg. rewrite <- (map_sum_ext f g m Hfg). unfold map_sum. by rewrite <- list_fmap_compose.
Qed.

Section theorems.
Context {AccountId Origin W : Type} `{Countable AccountId}.
Context `{!SpArithmetic, !Currency AccountId W, !FrameSystem AccountId Origin W}.
Context `{!Observer W, !StakingRewardHandler AccountId W, !AccountCheck AccountId W}.
Context `{!PrivilegedOrigins Origin, !PrefixOrder AccountId}.
Context `{!PriceProvider W, !TierSlots, !UnspecifiedOrder}.
Context `{!CurrencyLaws AccountId W, !RewardHandlerLaws AccountId W, !ObserverLaws AccountId W}.
Context (cfg : Config).

Abbreviation St := (Storage AccountId W).

Lemma inv_check_ledger (s : St) a l :
  config_ok cfg -> Inv cfg s -> Ledger s !! a = Some l ->
  check_ledger cfg (current_period s) l = true.
Proof.
  intros Hcfg Hinv Hl. pose proof (inv_ledger _ s Hinv a l Hl) as [Hwf Hmin Hcnt _ _ _].
  pose proof (config_positive cfg Hcfg) as Hpos.
  pose proof (inv_stakes _ s Hinv a) as Hsum. unfold ledger_of in Hsum. rewrite Hl in Hsum.
  assert (Hgap : AccountLedger.staked_amount l (current_period s) = 0 \/
    MinimumStakeAmount cfg <= AccountLedger.staked_amount l (current_period s)).
  { rewrite <- Hsum. apply map_sum_gap; [lia|]. intros c i Hi.
    destruct (inv_staker _ s Hinv a c i Hi). unfold stake_in. destruct (_ =? _); auto. }
  pose proof (AccountLedger.wf_length _ _ Hwf).
  unfold check_ledger, active_locked_amount. lia.
Qed.

Lemma inv_try_state_ledger (s : St) :
  config_ok cfg -> Inv cfg s -> try_state_ledger cfg s = true.
Proof.
  intros Hcfg Hinv. unfold try_state_ledger.
  change (Protocol.period_number (ActiveProtocolState s)) with (current_period s).
  rewrite !andb_true_iff, !Z.eqb_eq. split_and!.
  - apply forallb_forall. intros l Hl. apply list_elem_of_In, list_elem_of_fmap in Hl
      as ([a l'] & -> & Hin). apply elem_of_map_to_list in Hin. by apply (inv_check_ledger s a).
  - rewrite (zsum_ledgers _ (fun l => AccountLedger.staked_amount l (current_period s))) by done.
    apply Hinv.
  - rewrite (zsum_ledgers _ locked) by done. apply Hinv.
  - rewrite (zsum_ledgers _ unlocking_sum); [apply Hinv|].
    intros a l Hl. eapply unlocking_amount_exact. by apply (inv_ledger _ s Hinv a l).
Qed.

(** C1: in every state the pallet can reach from genesis, through any calls,
    blocks, clean-ups, safe-mode switches and outside changes that respect
    the freezes, the ledger check of [try_state] passes: the locked,
    unlocking and staked totals of the current era are the sums over all
    ledgers, every ledger has at most the maximal number of unlocking chunks
    and staked contracts, and neither its stake nor its locked amount is
    below the minimum without being zero. *)
Theorem try_state_ledger_holds (s : St) :
  config_ok cfg -> reachable cfg s -> current_era s < u32_max ->
  try_state_ledger cfg s = true.
Proof. intros Hcfg Hr Hmax. apply inv_try_state_ledger; [done|]. by apply reachable_inv. Qed.

(** C10: in every reachable state the checks of the dApp ids and of the number
    of dApps pass; ids are unique and below the next id to hand out, which
    never takes the sentinel value, and contract stake is kept for registered
    dApps only. *)
Theorem registry_checks_hold (s : St) :
  config_ok cfg -> reachable cfg s ->
  try_state_next_dapp_id s = true /\ try_state_integrated_dapps cfg s = true /\
  NextDAppId s <= u16_max /\
  (forall c d, IntegratedDApps s !! c = Some d -> 0 <= id d < NextDAppId s) /\
  (forall c1 c2 d1 d2, IntegratedDApps s !! c1 = Some d1 -> IntegratedDApps s !! c2 = Some d2 ->
     id d1 = id d2 -> c1 = c2) /\
  (forall k, is_Some (ContractStake s !! k) ->
     exists c d, IntegratedDApps s !! c = Some d /\ id d = k).
Proof.
  intros Hcfg Hr. pose proof (config_dapps cfg Hcfg).
  assert (Hm : 0 <= MaxNumberOfContracts cfg).
  { destruct Hcfg as [Hi _ _ _ _]. unfold integrity_test in Hi. rewrite !andb_true_iff in Hi. lia. }
  pose proof (reachable_rinv cfg s Hm Hr) as Hri.
  destruct (registry_counts cfg s Hri) as (Hc1 & Hc2 & Hc3). destruct Hri.
  unfold try_state_next_dapp_id, try_state_integrated_dapps.
  rewrite !Z.mod_small by lia. split_and!; try done; lia.
Qed.

(** C9: in every reachable state the check of the tier parameters and the
    tier configuration passes, and everything the tier assignment relies on
    holds; so an assignment made in any reachable state keeps within the
    dApp reward pool, up to half a unit of rounding per tier. *)
Theorem tier_checks_hold `{!SpArithmeticLaws, !TierSlotsLaws, !PriceProviderLaws W,
    !UnspecifiedOrderLaws} (s : St) (era period pool : Z) :
  config_ok cfg -> 0 < NumberOfTiers cfg <= 16 ->
  in_range u128_max (BaseNativeCurrencyPrice cfg) -> reachable cfg s -> in_range u128_max pool ->
  try_state_tiers cfg s = true /\
  let t := fst (get_dapp_tier_assignment_and_rewards cfg era period pool s) in
  2 * map_sum (claimable (rewards t) (rank_rewards t)) (dapps t) <= 2 * pool + NumberOfTiers cfg.
Proof.
  intros Hcfg HNT Hprice Hr Hpool.
  assert (Hm : 0 <= MaxNumberOfContracts cfg).
  { destruct Hcfg as [Hi _ _ _ _]. unfold integrity_test in Hi. rewrite !andb_true_iff in Hi. lia. }
  destruct (reachable_tinv cfg ltac:(lia) Hprice s Hr) as [_ Hpv Hcv _ _ _]. split.
  - unfold params_is_valid in Hpv. unfold config_is_valid in Hcv. unfold try_state_tiers.
    destruct (checked_permill_sum _); [|done]. destruct (checked_permill_sum _); [|done]. lia.
  - destruct (reachable_assignable cfg ltac:(lia) Hprice s ltac:(lia) Hm Hr) as [Hok Hsum].
    cbv zeta. by apply tier_total_bound.
Qed.
End theorems.

(** ** Witnesses: the first run of [ExampleWorld] *)

Section witnesses.
Existing Instance ExactArithmetic.
Existing Instance StableOrder.
Existing Instance ExactArithmetic_laws.
Existing Instance StableOrder_laws.

Lemma try_state_ledger_holds_witness :
  total_locked (CurrentEraInfo first_state) = 1300 /\
  try_state_ledger ex_cfg first_state = true.
Proof.
  split; [by vm_compute|]. destruct first_state_reachable as [Hr He].
  revert Hr He. generalize first_state as s. intros s Hr He.
  exact (try_state_ledger_holds ex_cfg s ex_cfg_ok Hr He).
Defined.

Lemma registry_checks_hold_witness :
  NextDAppId first_state = 2 /\ try_state_next_dapp_id first_state = true.
Proof.
  split; [by vm_compute|]. destruct first_state_reachable as [Hr _].
  revert Hr. generalize first_state as s. intros s Hr.
  apply (registry_checks_hold ex_cfg s ex_cfg_ok Hr).
Defined.

#[local] Instance ExPriceLaws : PriceProviderLaws ExWorld.
Proof. split. intros w. vm_compute. split; congruence. Qed.

Lemma tier_checks_hold_witness :
  reachable ex_cfg first_state /\
  try_state_tiers ex_cfg first_state = true.
Proof.
  destruct first_state_reachable as [Hr _]. split; [exact Hr|].
  revert Hr. generalize first_state as s. intros s Hr.
  refine (proj1 (tier_checks_hold
    ex_cfg s 3 1 100 ex_cfg_ok _ _ Hr _)).
  - simpl. lia.
  - vm_compute. split; congruence.
  - unfold in_range. lia.
Defined.
End witnesses.
