(* ===== verification/Operations.v ===== *)
(** * What the staking calls do

    The effect of [lock], [unlock], [stake] and [unstake] on the account that
    makes the call and on the totals, in every reachable state, and the errors
    they can and cannot return. *)

From S2P Require Import Prelude Frame Primitives StakeAmount EraInfo AccountLedger.
From S2P Require Import SingularStakingInfo ContractStakeAmount EraRewardSpan Tiers Protocol.
From S2P Require Import PalletState DAppStaking TierAssignment EraHandler Invariant Preservation.
From S2P Require Import Reachability ExampleWorld.

Section operations.
Context {AccountId Origin W : Type} `{Countable AccountId}.
Context `{!SpArithmetic, !Currency AccountId W, !FrameSystem AccountId Origin W}.
Context `{!Observer W, !StakingRewardHandler AccountId W, !AccountCheck AccountId W}.
Context `{!PrivilegedOrigins Origin, !PrefixOrder AccountId}.
Context `{!PriceProvider W, !TierSlots, !UnspecifiedOrder}.
Context `{!CurrencyLaws AccountId W, !RewardHandlerLaws AccountId W, !ObserverLaws AccountId W}.
Context (cfg : Config).

Abbreviation St := (Storage AccountId W).

(** The amount an account has staked in the ongoing period. *)
Definition stake_of (s : St) (a : AccountId) : Z :=
  AccountLedger.staked_amount (ledger_of s a) (current_period s).

(** What its entry on one contract counts for in the ongoing period. *)
Definition stake_on_contract (s : St) (a : AccountId) (c : SmartContract AccountId) : Z :=
  match staker_info s a c with Some i => stake_in (current_period s) i | None => 0 end.

(** Nobody but [a] sees a change of ledger or stakes. *)
Definition others_unchanged (s s' : St) (a : AccountId) : Prop :=
  forall b, b <> a -> ledger_of s' b = ledger_of s b /\ stakers_of s' b = stakers_of s b.

(** C2: in every reachable state an account's stakes on single contracts in
    the ongoing period add up to the stake in its ledger, which is covered by
    what the account has locked, which with what it is unlocking is covered
    by its balance; and each single stake is at least the minimum. *)
Theorem stakes_are_backed (s : St) (a : AccountId) :
  config_ok cfg -> reachable cfg s -> current_era s < u32_max ->
  map_sum (stake_in (current_period s)) (stakers_of s a) = stake_of s a /\
  stake_of s a <= locked (ledger_of s a) /\
  total_locked_amount (ledger_of s a) = locked (ledger_of s a) + unlocking_sum (ledger_of s a) /\
  total_locked_amount (ledger_of s a) <= total_balance (world s) a /\
  (forall c i, staker_info s a c = Some i ->
     MinimumStakeAmount cfg <= SingularStakingInfo.total_staked_amount i).
Proof.
  intros Hcfg Hr Hmax. pose proof (reachable_inv cfg Hcfg s Hr Hmax) as Hinv.
  destruct (account_facts cfg Hcfg s a Hinv) as (Hli & _ & _ & Hb & Htl & Hst).
  unfold stake_of. split_and!; [by apply Hinv|lia|done|lia|].
  intros c i Hi. by apply (inv_staker _ s Hinv a c).
Qed.

(** The caller's ledger after it has been written, as the calls read it. *)
Lemma updated_ledger_of (s s' : St) a l n p :
  AccountLedger.wf n l -> Ledger s' = updated a l (Ledger s) ->
  locked (ledger_of s' a) = locked l /\ unlocking_sum (ledger_of s' a) = unlocking_sum l /\
  AccountLedger.staked_amount (ledger_of s' a) p = AccountLedger.staked_amount l p /\
  (forall b, b <> a -> ledger_of s' b = ledger_of s b).
Proof.
  intros Hwf Hl. unfold ledger_of. rewrite Hl. unfold updated.
  destruct (AccountLedger.is_empty l) eqn:He.
  - destruct (empty_ledger n l p Hwf He) as (-> & -> & ->). rewrite lookup_delete_eq.
    split_and!; [done|done|unfold AccountLedger.staked_amount; simpl; by case_all|].
    intros b Hb. by rewrite lookup_delete_ne.
  - rewrite lookup_insert_eq. split_and!; try done. intros b Hb. by rewrite lookup_insert_ne.
Qed.

(** The protocol's totals follow the one ledger that changes. *)
Lemma total_update (f : AccountLedger -> Z) (s s' : St) a l t t' :
  map_sum f (Ledger s) = t -> map_sum f (Ledger s') = t' -> f AccountLedger.default = 0 ->
  (AccountLedger.is_empty l = true -> f l = 0) -> Ledger s' = updated a l (Ledger s) ->
  t' = t - f (ledger_of s a) + f l.
Proof. intros <- <- Hd He Hl. apply written_sum; [done|done|by left]. Qed.

Lemma staked_total_update (s s' : St) a l n :
  Inv cfg s -> Inv cfg s' -> current_period s' = current_period s -> AccountLedger.wf n l ->
  Ledger s' = updated a l (Ledger s) ->
  total_staked_amount_next_era (CurrentEraInfo s') =
    total_staked_amount_next_era (CurrentEraInfo s) - stake_of s a +
    AccountLedger.staked_amount l (current_period s).
Proof.
  intros Hinv Hinv' Hp Hwf Hl. pose proof (inv_staked _ s' Hinv') as Hs'. rewrite Hp in Hs'.
  apply (total_update (fun l => AccountLedger.staked_amount l (current_period s)) s s' a l _ _
    (inv_staked _ s Hinv) Hs'); [|intros He; by apply (empty_ledger n l)|done].
  unfold AccountLedger.staked_amount. simpl. by case_all.
Qed.

(** Every way a call can return early, one at a time. *)
Ltac error_step :=
  match goal with
  | H : (match ?e with Ok _ => _ | Err _ => _ end) = Err _ |- _ =>
      let E := fresh "E" in destruct e eqn:E
  | H : (if ?b then _ else _) = Err _ |- _ => let E := fresh "E" in destruct b eqn:E
  | H : (let '(_, _) := ?p in _) = Err _ |- _ => destruct p eqn:?
  | H : Ok _ = Err _ |- _ => discriminate H
  | H : Err _ = Err _ |- _ => injection H as H; subst
  end.

Lemma update_ledger_error a l (s : St) e : update_ledger a l s = Err e -> e = CurrencyFailure.
Proof. unfold update_ledger. intros Hu. by result_inv. Qed.

Lemma entry_to_stake_error st t entry e :
  entry_to_stake st t entry = Err e -> e = Module UnclaimedRewards.
Proof. unfold entry_to_stake. intros He. by result_inv. Qed.

Lemma signed_some (o : Origin) a : signed o = Ok a -> ensure_signed o = Some a.
Proof. unfold signed. intros Hs. by result_inv. Qed.

(** The errors of the parts that do not depend on the state's invariant. *)
Ltac small_errors :=
  try match goal with
  | E : update_ledger _ _ _ = Err _ |- _ => apply update_ledger_error in E as ->; done
  | E : entry_to_stake _ _ _ = Err _ |- _ => apply entry_to_stake_error in E as ->; done
  | E : signed _ = Err _ |- _ => unfold signed in E; by result_inv
  | E : ok_or _ _ = Err _ |- _ => by result_inv
  end.

Lemma stake_error_cases o c x (s : St) e :
  config_ok cfg -> Inv cfg s -> current_era s < u32_max -> stake cfg o c x s = Err e ->
  match e with
  | Module UnavailableStakeFunds =>
      exists a, ensure_signed o = Some a /\ locked (ledger_of s a) < stake_of s a + x
  | Module InternalStakeError | NonTermination => False
  | _ => True
  end.
Proof.
  intros Hcfg Hinv Hmax Hop. unfold stake, ensure_pallet_enabled in Hop. cbv zeta in Hop.
  repeat error_step; try done; small_errors.
  match goal with E : map_err _ _ = Err _ |- _ => rename E into Ea end.
  match goal with E : signed o = Ok _ |- _ => apply signed_some in E as Hsig end.
  destruct (cleaned_ledger_facts cfg Hcfg s a0 Hinv) as (Hwf1 & Hsa1 & Hl1).
  unfold current_period in Hwf1, Hsa1, Hl1. remember (snd (maybe_cleanup_expired _ _)) as l1.
  unfold map_err in Ea. destruct (AccountLedger.add_stake_amount _ _ _ _) as [|err] eqn:Eadd;
    [done|]. injection Ea as <-.
  apply add_stake_amount_errors in Eadd; [|lia]. destruct err; simpl; try done.
  exists a0. split; [done|]. unfold stake_of, current_period. rewrite <- Hsa1.
  rewrite Hl1 in Eadd at 1. exact Eadd.
Qed.

(** What a successful stake does. *)
Lemma stake_effect o c x (s s' : St) :
  config_ok cfg -> Inv cfg s -> current_era s < u32_max -> stake cfg o c x s = Ok s' ->
  exists a, ensure_signed o = Some a /\
    stake_of s' a = stake_of s a + x /\
    stake_on_contract s' a c = stake_on_contract s a c + x /\
    total_staked_amount_next_era (CurrentEraInfo s') =
      total_staked_amount_next_era (CurrentEraInfo s) + x /\
    EraInfo.total_staked_amount (CurrentEraInfo s') =
      EraInfo.total_staked_amount (CurrentEraInfo s) /\
    locked (ledger_of s' a) = locked (ledger_of s a) /\
    contract_stake_count (ledger_of s' a) =
      sat_add u32_max (contract_stake_count (ledger_of s a))
        (if current_entry (current_period s) (staker_info s a c) then 0 else 1) /\
    others_unchanged s s' a /\
    (forall d, d <> c -> stake_on_contract s' a d = stake_on_contract s a d).
Proof.
  intros Hcfg Hinv Hmax Hop.
  pose proof (stake_preserves cfg Hcfg o c x s s' Hinv Hmax Hop) as Hinv'.
  apply stake_facts in Hop as (a & l' & i' & Hsig & Hx & Hu); [|done..]. destruct Hu.
  assert (Hp : current_period s' = current_period s) by (unfold current_period; by rewrite su_state).
  destruct (updated_ledger_of s s' a l' _ (current_period s) su_wf su_ledger)
    as (Hlk & _ & Hsa & Hoth).
  pose proof (staked_total_update s s' a l' _ Hinv Hinv' Hp su_wf su_ledger) as Htot.
  exists a. unfold stake_of, stake_on_contract in *. rewrite Hp. split_and!; try done; try lia.
  - unfold staker_info. by rewrite su_entry, lookup_insert_eq, su_entry_stake.
  - by rewrite su_era_info.
  - rewrite <- su_counted. unfold ledger_of at 1. rewrite su_ledger. unfold updated.
    destruct (AccountLedger.is_empty l') eqn:He; [|by rewrite lookup_insert_eq].
    destruct (empty_ledger _ _ (current_period s) su_wf He) as (_ & _ & Hz).
    pose proof (ledger_of_inv cfg Hcfg s a Hinv) as Hli.
    pose proof (staked_amount_nonneg _ (current_period s) (wf_stake _ _ (li_wf _ _ _ _ Hli))). lia.
  - intros b Hb. auto.
  - intros d Hd. unfold staker_info. by rewrite su_entry, lookup_insert_ne by done.
Qed.

(** C5: in every reachable state a stake of [x] raises, if it succeeds, the
    caller's stake in the ongoing period, its stake on the contract and the
    protocol's stake for the next era by exactly [x], and changes neither what
    anybody has locked, nor the stake of the ongoing era, nor any other
    account; the count of the caller's entries goes up by one unless the
    contract had an entry of the ongoing period; it is refused for lack of funds only if less than [x] of what the
    caller has locked is free; and the error for a broken internal state is
    never returned. *)
Theorem stake_outcome (s : St) (o : Origin) (c : SmartContract AccountId) (x : Z) :
  config_ok cfg -> reachable cfg s -> current_era s < u32_max ->
  match stake cfg o c x s with
  | Ok s' =>
      exists a, ensure_signed o = Some a /\
        stake_of s' a = stake_of s a + x /\
        stake_on_contract s' a c = stake_on_contract s a c + x /\
        total_staked_amount_next_era (CurrentEraInfo s') =
          total_staked_amount_next_era (CurrentEraInfo s) + x /\
        EraInfo.total_staked_amount (CurrentEraInfo s') =
          EraInfo.total_staked_amount (CurrentEraInfo s) /\
        locked (ledger_of s' a) = locked (ledger_of s a) /\
        contract_stake_count (ledger_of s' a) =
          sat_add u32_max (contract_stake_count (ledger_of s a))
            (if current_entry (current_period s) (staker_info s a c) then 0 else 1) /\
        others_unchanged s s' a
  | Err (Module UnavailableStakeFunds) =>
      exists a, ensure_signed o = Some a /\ locked (ledger_of s a) < stake_of s a + x
  | Err (Module InternalStakeError) | Err NonTermination => False
  | Err _ => True
  end.
Proof.
  intros Hcfg Hr Hmax. pose proof (reachable_inv cfg Hcfg s Hr Hmax) as Hinv.
  destruct (stake cfg o c x s) as [s'|err] eqn:Hop;
    [|by apply (stake_error_cases o c x s err)].
  apply stake_effect in Hop as (a & Hop); [|done..]. exists a. tauto.
Qed.

Lemma unstake_error_cases o c x (s : St) e :
  config_ok cfg -> Inv cfg s -> current_era s < u32_max -> unstake cfg o c x s = Err e ->
  match e with
  | Module UnstakeAmountTooLarge =>
      exists a, ensure_signed o = Some a /\ stake_on_contract s a c < x
  | Module InternalUnstakeError | NonTermination => False
  | _ => True
  end.
Proof.
  intros Hcfg Hinv Hmax Hop. unfold unstake, ensure_pallet_enabled in Hop. cbv zeta in Hop.
  repeat error_step; try done; small_errors;
    match goal with E : ok_or (staker_info _ _ _) _ = Ok ?j |- _ =>
      rename j into i; assert (Hi : staker_info s a0 c = Some i) by by result_inv end;
    match goal with E : signed o = Ok _ |- _ => apply signed_some in E as Hsig end.
  - match goal with E : map_err _ _ = Err _ |- _ => rename E into Ea end.
    pose proof (inv_clock _ s Hinv). pose proof (inv_staker _ s Hinv a0 c i Hi) as Hsi.
    change (era (ActiveProtocolState s)) with (current_era s) in *.
    destruct (unstake_entry_facts cfg Hcfg (current_period s) x (current_era s)
      (current_subperiod (ActiveProtocolState s)) i Hsi) as [Hy _]; try lia;
      [unfold current_period; lia|].
    pose proof (entry_covered cfg Hcfg s a0 c i Hinv Hi ltac:(unfold current_period; lia)).
    unfold map_err in Ea. destruct (AccountLedger.unstake_amount _ _ _ _) as [|err] eqn:Eun;
      [done|]. injection Ea as <-.
    apply unstake_amount_errors in Eun; [|lia].
    change (number (period_info (ActiveProtocolState s))) with (current_period s) in Eun.
    destruct err; simpl; try done. lia.
  - exists a0. split; [done|]. unfold stake_on_contract, stake_in, current_period. rewrite Hi.
    destruct (_ =? _); lia.
Qed.

(** What a successful unstake does. *)
Lemma unstake_effect o c x (s s' : St) :
  config_ok cfg -> Inv cfg s -> current_era s < u32_max -> unstake cfg o c x s = Ok s' ->
  exists a i, ensure_signed o = Some a /\ staker_info s a c = Some i /\
    let y := amount_to_unstake cfg i x in
    SingularStakingInfo.period_number i = current_period s /\
    stake_of s' a = stake_of s a - y /\
    stake_on_contract s' a c = stake_on_contract s a c - y /\
    (stake_on_contract s' a c = 0 \/ MinimumStakeAmount cfg <= stake_on_contract s' a c) /\
    total_staked_amount_next_era (CurrentEraInfo s') =
      total_staked_amount_next_era (CurrentEraInfo s) - y /\
    locked (ledger_of s' a) = locked (ledger_of s a) /\ others_unchanged s s' a /\
    (forall d, d <> c -> stake_on_contract s' a d = stake_on_contract s a d).
Proof.
  intros Hcfg Hinv Hmax Hop.
  pose proof (unstake_preserves cfg Hcfg o c x s s' Hinv Hmax Hop) as Hinv'.
  apply unstake_facts in Hop as (a & i & l2 & k & Hsig & Hx & Hu); [|done..]. destruct Hu.
  assert (Hp : current_period s' = current_period s) by (unfold current_period; by rewrite uu_state).
  pose proof (ledger_of_inv cfg Hcfg s a Hinv) as Hli. pose proof (inv_clock _ s Hinv).
  destruct (unstaked_ledger_facts cfg (current_period s) _ _ _ _ l2 k (li_wf _ _ _ _ Hli)
    (li_periods _ _ _ _ Hli) ltac:(lia) eq_refl (proj1 uu_amount) uu_unstaked uu_count)
    as (Hwf & Hlk & _ & _ & Hsa & _).
  destruct (updated_ledger_of s s' a _ _ (current_period s) Hwf uu_ledger) as (Hlk' & _ & Hsa' & Hoth).
  pose proof (staked_total_update s s' a _ _ Hinv Hinv' Hp Hwf uu_ledger) as Htot.
  assert (Hent : stake_on_contract s a c = SingularStakingInfo.total_staked_amount i).
  { unfold stake_on_contract, stake_in. by rewrite uu_entry, uu_period, Z.eqb_refl. }
  assert (Hent' : stake_on_contract s' a c = stake_on_contract s a c - amount_to_unstake cfg i x /\
    (stake_on_contract s' a c = 0 \/ MinimumStakeAmount cfg <= stake_on_contract s' a c)).
  { rewrite Hent. unfold stake_on_contract, staker_info. rewrite Hp.
    destruct uu_entries as [[-> ->]|(i' & -> & [_ _ Hm] & Hi')].
    - rewrite lookup_delete_eq. lia.
    - rewrite lookup_insert_eq, Hi'. split; [done|]. rewrite <- Hi'.
      unfold stake_in. destruct (_ =? _); [by right|by left]. }
  destruct Hent' as [Hent1 Hent2].
  exists a, i. unfold stake_of in *. rewrite Hp.
  split_and!; try done; try lia; [intros b Hb; auto|]. intros d Hd.
  unfold stake_on_contract, staker_info. rewrite Hp.
  destruct uu_entries as [[-> _]|(i' & -> & _)];
    [by rewrite lookup_delete_ne by done|by rewrite lookup_insert_ne by done].
Qed.

(** C4: in every reachable state an unstake of [x] takes, if it succeeds, [x]
    or, when less than the minimum stake would remain, the whole entry: the
    caller's stake in the ongoing period, its stake on the contract and the
    protocol's stake for the next era fall by exactly that amount, what remains
    on the contract is nothing or at least the minimum, and nothing that is
    locked and no other account changes; it is refused as too large only if
    the entry holds less than [x]; and the error for a broken internal state
    is never returned. *)
Theorem unstake_outcome (s : St) (o : Origin) (c : SmartContract AccountId) (x : Z) :
  config_ok cfg -> reachable cfg s -> current_era s < u32_max ->
  match unstake cfg o c x s with
  | Ok s' =>
      exists a y, ensure_signed o = Some a /\
        (y = x \/ y = stake_on_contract s a c /\ y < x + MinimumStakeAmount cfg) /\
        stake_of s' a = stake_of s a - y /\
        stake_on_contract s' a c = stake_on_contract s a c - y /\
        (stake_on_contract s' a c = 0 \/ MinimumStakeAmount cfg <= stake_on_contract s' a c) /\
        total_staked_amount_next_era (CurrentEraInfo s') =
          total_staked_amount_next_era (CurrentEraInfo s) - y /\
        locked (ledger_of s' a) = locked (ledger_of s a) /\ others_unchanged s s' a
  | Err (Module UnstakeAmountTooLarge) =>
      exists a, ensure_signed o = Some a /\ stake_on_contract s a c < x
  | Err (Module InternalUnstakeError) | Err NonTermination => False
  | Err _ => True
  end.
Proof.
  intros Hcfg Hr Hmax. pose proof (reachable_inv cfg Hcfg s Hr Hmax) as Hinv.
  destruct (unstake cfg o c x s) as [s'|err] eqn:Hop;
    [|by apply (unstake_error_cases o c x s err)].
  apply unstake_effect in Hop as (a & i & Hsig & Hi & Hper & Hop); [|done..]. simpl in Hop.
  exists a, (amount_to_unstake cfg i x). split; [done|]. split; [|tauto].
  unfold stake_on_contract, stake_in. rewrite Hi, Hper, Z.eqb_refl.
  unfold amount_to_unstake. destruct (_ <? _) eqn:Hlt; [right|by left]. ulia.
Qed.

(** A lock raises what is locked by at most the amount and changes no stake. *)
Lemma lock_effect o x (s s' : St) :
  config_ok cfg -> 0 <= x -> Inv cfg s -> lock cfg o x s = Ok s' ->
  exists a, ensure_signed o = Some a /\ stake_of s' a = stake_of s a /\
    (forall c, stake_on_contract s' a c = stake_on_contract s a c) /\
    locked (ledger_of s a) < locked (ledger_of s' a) <= locked (ledger_of s a) + x /\
    others_unchanged s s' a.
Proof.
  intros Hcfg Hx Hinv Hop. unfold lock in Hop. cbv zeta in Hop.
  bind_inv Hop as u Een. bind_inv Hop as a Esig. guard_inv Hop as Eallow.
  destruct (account_facts cfg Hcfg s a Hinv) as (Hli & Hlk & Hun & Hb & Htl & Hst).
  remember (ledger_of s a) as l eqn:El. remember (Z.min _ x) as y eqn:Ey.
  guard_inv Hop as Ey0. guard_inv Hop as Emin. bind_inv Hop as s1 Eup. injection Hop as Hs'.
  apply update_ledger_ok in Eup as (w & -> & Hw).
  assert (Hy : 0 < y <= x /\ locked l + y + unlocking_sum l <= u128_max) by ulia.
  assert (Hadd : add_lock_amount y l = set_locked (locked l + y) l).
  { unfold add_lock_amount. unfold unlocking_sum in *. by rewrite sat_add_exact by lia. }
  rewrite Hadd in *. set (l' := set_locked (locked l + y) l) in *.
  assert (Hwf : AccountLedger.wf (MaxUnlockingChunks cfg) l').
  { unfold unlocking_sum in *. destruct Hli as [[] ? ? ? ? ?]. split; simpl; try done; lia. }
  assert (HL : Ledger s' = updated a l' (Ledger s)) by (by rewrite <- Hs').
  assert (Hstk : StakerInfo s' = StakerInfo s) by (by rewrite <- Hs').
  assert (Hp : current_period s' = current_period s) by (by rewrite <- Hs').
  destruct (updated_ledger_of s s' a l' _ (current_period s) Hwf HL) as (Hlk' & _ & Hsa & Hoth).
  exists a. split; [by apply signed_some|].
  unfold stake_of, stake_on_contract, staker_info, others_unchanged, stakers_of.
  rewrite Hlk', Hp, Hsa, Hstk, <- El. split_and!; try done; simpl; try lia.
  intros b Hb'. split; [by apply Hoth|done].
Qed.

(** In every reachable state an unlock of [x] moves, if it succeeds, [x] or
    what is free of stake if that is less from locked to unlocking, or
    everything locked when less than the minimum would stay locked and nothing
    is staked; the account keeps the same total, its stake stays backed, what
    stays locked is nothing or at least the minimum, and the protocol's totals
    move by the same amount. *)
Theorem unlock_outcome (s s' : St) (o : Origin) (x : Z) :
  config_ok cfg -> reachable cfg s -> current_era s < u32_max -> in_range u128_max x ->
  unlock cfg o x s = Ok s' ->
  exists a y, ensure_signed o = Some a /\ 0 < y /\
    (y = Z.min x (locked (ledger_of s a) - stake_of s a) \/
     y = locked (ledger_of s a) /\ stake_of s a = 0) /\
    locked (ledger_of s' a) = locked (ledger_of s a) - y /\
    unlocking_sum (ledger_of s' a) = unlocking_sum (ledger_of s a) + y /\
    stake_of s' a = stake_of s a /\ stake_of s' a <= locked (ledger_of s' a) /\
    (locked (ledger_of s' a) = 0 \/ MinimumLockedAmount cfg <= locked (ledger_of s' a)) /\
    total_locked (CurrentEraInfo s') = total_locked (CurrentEraInfo s) - y /\
    EraInfo.unlocking (CurrentEraInfo s') = EraInfo.unlocking (CurrentEraInfo s) + y /\
    others_unchanged s s' a.
Proof.
  intros Hcfg Hr Hmax Hx Hop. pose proof (reachable_inv cfg Hcfg s Hr Hmax) as Hinv.
  unfold in_range in Hx.
  pose proof (unlock_preserves cfg Hcfg o x s s' (proj1 Hx) Hinv Hop) as Hinv'.
  apply unlock_facts in Hop as (a & y & l' & Hsig & []); [|done|lia|done].
  assert (Hp : current_period s' = current_period s) by (unfold current_period; by rewrite ul_state).
  destruct (updated_ledger_of s s' a l' _ (current_period s) ul_wf ul_ledger)
    as (Hlk & Hun & Hsa & Hoth).
  assert (Hsa' : AccountLedger.staked_amount l' (current_period s) = stake_of s a)
    by (unfold stake_of; rewrite ul_rest; done).
  pose proof (total_update locked s s' a l' _ _ (inv_locked _ s Hinv) (inv_locked _ s' Hinv')
    eq_refl ltac:(intros He; by apply (empty_ledger _ l' 0 ul_wf)) ul_ledger).
  pose proof (total_update unlocking_sum s s' a l' _ _ (inv_unlocking _ s Hinv)
    (inv_unlocking _ s' Hinv') eq_refl ltac:(intros He; by apply (empty_ledger _ l' 0 ul_wf)) ul_ledger).
  exists a, y. unfold stake_of in *. rewrite Hp. split_and!; try done; try lia.
  intros b Hb. split; [auto|]. unfold stakers_of. by rewrite ul_stakers.
Qed.
End operations.

(** ** Witnesses: calls after the first run of [ExampleWorld] *)
Section witnesses.
Existing Instance ExactArithmetic.
Existing Instance StableOrder.

Lemma stakes_are_backed_witness :
  stake_of first_state 1 = 200 /\
  stake_of first_state 1 <= locked (ledger_of first_state 1).
Proof.
  split; [by vm_compute|]. destruct first_state_reachable as [Hr He].
  revert Hr He. generalize first_state as s. intros s Hr He.
  apply (stakes_are_backed ex_cfg s 1 ex_cfg_ok Hr He).
Defined.

Lemma stake_outcome_witness :
  is_ok (stake ex_cfg (Signed 2) dapp1 100 first_state) = true /\
  match stake ex_cfg (Signed 2) dapp1 100 first_state with
  | Err (Module InternalStakeError) => False
  | _ => True
  end.
Proof.
  split; [by vm_compute|]. destruct first_state_reachable as [Hr He]. revert Hr He.
  generalize first_state as s. intros s Hr He.
  pose proof (stake_outcome ex_cfg s (Signed 2) dapp1 100 ex_cfg_ok Hr He) as Hout.
  destruct (stake ex_cfg (Signed 2) dapp1 100 s) as [|[[]| | |]]; done.
Defined.

Lemma unstake_outcome_witness :
  is_ok (unstake ex_cfg (Signed 2) dapp2 100 first_state) = true /\
  match unstake ex_cfg (Signed 2) dapp2 100 first_state with
  | Err (Module InternalUnstakeError) => False
  | _ => True
  end.
Proof.
  split; [by vm_compute|]. destruct first_state_reachable as [Hr He]. revert Hr He.
  generalize first_state as s. intros s Hr He.
  pose proof (unstake_outcome ex_cfg s (Signed 2) dapp2 100 ex_cfg_ok Hr He) as Hout.
  destruct (unstake ex_cfg (Signed 2) dapp2 100 s) as [|[[]| | |]]; done.
Defined.

Lemma unlock_outcome_witness :
  exists s', unlock ex_cfg (Signed 2) 150 first_state = Ok s' /\
    exists a y, ensure_signed (Signed 2) = Some a /\ 0 < y /\
      locked (ledger_of s' a) = locked (ledger_of first_state a) - y.
Proof.
  assert (Hok : is_ok (unlock ex_cfg (Signed 2) 150 first_state) = true) by by vm_compute.
  destruct first_state_reachable as [Hr He]. revert Hok Hr He.
  generalize first_state as s. intros s Hok Hr He.
  destruct (unlock ex_cfg (Signed 2) 150 s) as [s'|] eqn:Hop; [|done].
  exists s'. split; [done|].
  destruct (unlock_outcome ex_cfg s s' (Signed 2) 150 ex_cfg_ok Hr He) as
    (a & y & Hs & Hy & _ & Hl & _); [unfold in_range; lia|done|].
  by exists a, y.
Defined.
End witnesses.
