(* ===== verification/Timeline.v ===== *)
(** * When eras and periods start

    The protocol clock is driven by [on_initialize] alone.  [clock] is what
    [era_and_period_handler] does to [ActiveProtocolState]; [schedule] is the
    calendar of the pallet's documentation as a closed formula, and an
    execution that is never forced, halted or short of a block follows it,
    whatever calls are made in between. *)

From S2P Require Import Prelude Frame Primitives StakeAmount EraInfo AccountLedger.
From S2P Require Import SingularStakingInfo ContractStakeAmount EraRewardSpan Tiers Protocol.
From S2P Require Import PalletState DAppStaking TierAssignment EraHandler Invariant Preservation.
From S2P Require Import Reachability ExampleWorld.

Section clock.
Context (cfg : Config).
Abbreviation cycle := (cycle_configuration cfg).
Abbreviation voting_blocks := (blocks_per_voting_period cfg).
Abbreviation era_blocks := (blocks_per_era cycle).
Abbreviation build_eras := (eras_per_build_and_earn_subperiod cycle).

(** The protocol state after the block [now]. *)
Definition clock (now : Z) (st : ProtocolState) : ProtocolState :=
  if maintenance st || negb (is_new_era st now) then st
  else
    let next_era := sat_add u32_max (era st) 1 in
    set_era next_era
      (match current_subperiod st with
       | Voting =>
           advance_to_next_subperiod (sat_add u32_max next_era build_eras)
             (sat_add u32_max now era_blocks) st
       | BuildAndEarn =>
           if is_next_period (period_info st) next_era
           then advance_to_next_subperiod (sat_add u32_max next_era 1)
                  (sat_add u32_max now voting_blocks) st
           else set_next_era_start (sat_add u32_max now era_blocks) st
       end).

(** The calendar: the state after block [n], counting from block 1. *)
Definition period_blocks : Z := voting_blocks + build_eras * era_blocks.

Definition schedule (n : Z) : ProtocolState :=
  let m := Z.max 0 (n - 1) in
  let q := m / period_blocks in
  let r := m mod period_blocks in
  let first_era := 1 + q * (1 + build_eras) in
  let first_block := 1 + q * period_blocks in
  if r <? voting_blocks then
    mkProtocolState first_era (first_block + voting_blocks)
      (mkPeriodInfo (1 + q) Voting (first_era + 1)) false
  else
    let j := (r - voting_blocks) / era_blocks in
    mkProtocolState (first_era + 1 + j) (first_block + voting_blocks + (j + 1) * era_blocks)
      (mkPeriodInfo (1 + q) BuildAndEarn (first_era + 1 + build_eras)) false.

Context (HV : 0 < voting_blocks) (HE : 0 < era_blocks) (HK : 0 < build_eras).

Lemma schedule_voting q r :
  0 <= q -> 0 <= r < voting_blocks ->
  schedule (1 + q * period_blocks + r) =
  mkProtocolState (1 + q * (1 + build_eras)) (1 + q * period_blocks + voting_blocks)
    (mkPeriodInfo (1 + q) Voting (1 + q * (1 + build_eras) + 1)) false.
Proof.
  intros Hq Hr. unfold schedule. assert (Hp : voting_blocks < period_blocks) by (unfold period_blocks; nia).
  replace (Z.max 0 _) with (r + q * period_blocks) by nia.
  rewrite Z.div_add, Z.mod_add, Z.div_small, Z.mod_small by lia.
  rewrite (proj2 (Z.ltb_lt _ _)) by lia. reflexivity.
Qed.

Lemma schedule_build q j r :
  0 <= q -> 0 <= j < build_eras -> 0 <= r < era_blocks ->
  schedule (1 + q * period_blocks + voting_blocks + j * era_blocks + r) =
  mkProtocolState (1 + q * (1 + build_eras) + 1 + j)
    (1 + q * period_blocks + voting_blocks + (j + 1) * era_blocks)
    (mkPeriodInfo (1 + q) BuildAndEarn (1 + q * (1 + build_eras) + 1 + build_eras)) false.
Proof.
  intros Hq Hj Hr. unfold schedule.
  assert (Hp : 0 <= voting_blocks + j * era_blocks + r < period_blocks) by (unfold period_blocks; nia).
  replace (Z.max 0 _) with (voting_blocks + j * era_blocks + r + q * period_blocks) by nia.
  rewrite Z.div_add, Z.mod_add, Z.div_small, Z.mod_small by lia.
  rewrite (proj2 (Z.ltb_ge _ _)) by nia.
  replace (voting_blocks + j * era_blocks + r - voting_blocks) with (r + j * era_blocks) by lia.
  rewrite Z.div_add, Z.div_small by lia. reflexivity.
Qed.

(** Every block lies in a voting subperiod or in an era of a build-and-earn
    subperiod. *)
Lemma schedule_cases n :
  1 <= n ->
  exists q, 0 <= q /\
    ((exists r, 0 <= r < voting_blocks /\ n = 1 + q * period_blocks + r) \/
     (exists j r, 0 <= j < build_eras /\ 0 <= r < era_blocks /\
        n = 1 + q * period_blocks + voting_blocks + j * era_blocks + r)).
Proof.
  intros Hn. assert (Hp : 0 < period_blocks) by (unfold period_blocks; nia).
  pose proof (Z.div_mod (n - 1) period_blocks ltac:(lia)) as Hdm.
  pose proof (Z.mod_pos_bound (n - 1) period_blocks Hp) as Hm.
  exists ((n - 1) / period_blocks). split; [apply Z.div_pos; lia|].
  destruct (Z.lt_ge_cases ((n - 1) mod period_blocks) voting_blocks) as [Hlt|Hge]; [left|right].
  - exists ((n - 1) mod period_blocks). split; lia.
  - assert (Hx : (n - 1) mod period_blocks - voting_blocks < era_blocks * build_eras)
      by (rewrite Z.mul_comm; unfold period_blocks in *; lia).
    remember ((n - 1) mod period_blocks - voting_blocks) as x eqn:Ex.
    pose proof (Z.div_mod x era_blocks ltac:(lia)). pose proof (Z.mod_pos_bound x era_blocks HE).
    exists (x / era_blocks), (x mod era_blocks). split_and!; try lia.
    + apply Z.div_pos; lia.
    + by apply Z.div_lt_upper_bound.
Qed.

Lemma period_blocks_bounds :
  voting_blocks + build_eras <= period_blocks /\ voting_blocks + era_blocks <= period_blocks.
Proof.
  pose proof (Z.mul_le_mono_nonneg_l 1 era_blocks build_eras ltac:(lia) ltac:(lia)).
  pose proof (Z.mul_le_mono_nonneg_r 1 build_eras era_blocks ltac:(lia) ltac:(lia)).
  unfold period_blocks. lia.
Qed.

(** Eras last at least one block each. *)
Lemma first_era_bound q : 0 <= q -> q * (1 + build_eras) <= q * period_blocks.
Proof. intros Hq. pose proof period_blocks_bounds. apply Z.mul_le_mono_nonneg_l; lia. Qed.

Lemma clock_same now st : now < next_era_start st -> clock now st = st.
Proof.
  intros Hlt. unfold clock, is_new_era. rewrite (proj2 (Z.leb_gt _ _)) by lia.
  by rewrite orb_true_r.
Qed.

Lemma clock_schedule n :
  0 <= n -> n + 1 + period_blocks < u32_max -> clock (n + 1) (schedule n) = schedule (n + 1).
Proof.
  intros Hn Hmax. pose proof period_blocks_bounds as Hle.
  destruct (Z.eq_dec n 0) as [->|Hn0].
  { change (clock 1 (schedule 1) = schedule 1).
    pose proof (schedule_voting 0 0 ltac:(lia) ltac:(lia)) as Hs.
    replace (1 + 0 * period_blocks + 0) with 1 in Hs by lia.
    apply clock_same. rewrite Hs. simpl. lia. }
  destruct (schedule_cases n ltac:(lia)) as (q & Hq & [(r & Hr & ->)|(j & r & Hj & Hr & ->)]);
    pose proof (first_era_bound q Hq) as Hfe.
  - rewrite schedule_voting by lia. destruct (Z.lt_ge_cases (r + 1) voting_blocks) as [Hlt|Hge].
    + rewrite clock_same by (simpl; lia). symmetry.
      replace (1 + q * period_blocks + r + 1) with (1 + q * period_blocks + (r + 1)) by lia.
      by apply schedule_voting; lia.
    + replace (1 + q * period_blocks + r + 1)
        with (1 + q * period_blocks + voting_blocks + 0 * era_blocks + 0) by lia.
      rewrite schedule_build by lia. unfold clock, is_new_era. simpl.
      rewrite (proj2 (Z.leb_le _ _)) by lia. simpl.
      unfold advance_to_next_subperiod, set_era. simpl.
      rewrite !sat_add_exact by lia. f_equal; lia || (f_equal; lia).
  - rewrite schedule_build by lia. destruct (Z.lt_ge_cases (r + 1) era_blocks) as [Hlt|Hge].
    + rewrite clock_same by (simpl; lia). symmetry.
      rewrite <- (Z.add_assoc _ r 1). by apply schedule_build; lia.
    + assert (Hr' : r + 1 = era_blocks) by lia. clear Hge Hr.
      destruct (Z.lt_ge_cases (j + 1) build_eras) as [Hj'|Hj'].
      * replace (1 + q * period_blocks + voting_blocks + j * era_blocks + r + 1)
          with (1 + q * period_blocks + voting_blocks + (j + 1) * era_blocks + 0) in * by lia.
        assert (j * 1 <= j * era_blocks) by (apply Z.mul_le_mono_nonneg_l; lia).
        rewrite schedule_build by lia. unfold clock, is_new_era, is_next_period. simpl.
        rewrite (proj2 (Z.leb_le _ _)) by lia. simpl.
        rewrite sat_add_exact by lia. rewrite (proj2 (Z.leb_gt _ _)) by lia. simpl.
        unfold set_era. simpl. rewrite !sat_add_exact by lia. f_equal; lia.
      * assert (Hjk : j + 1 = build_eras) by lia.
        replace (1 + q * period_blocks + voting_blocks + j * era_blocks + r + 1)
          with (1 + (q + 1) * period_blocks + 0) in *
          by (unfold period_blocks; rewrite <- Hjk; lia).
        rewrite schedule_voting by lia. unfold clock, is_new_era, is_next_period. simpl.
        rewrite (proj2 (Z.leb_le _ _)) by (unfold period_blocks; rewrite <- Hjk; lia). simpl.
        pose proof (first_era_bound (q + 1) ltac:(lia)).
        rewrite (sat_add_exact _ (1 + q * (1 + build_eras) + 1 + j)) by lia.
        rewrite (proj2 (Z.leb_le _ _)) by lia. unfold advance_to_next_subperiod, set_era, Protocol.period_number. simpl.
        assert (q * 1 <= q * (1 + build_eras)) by (apply Z.mul_le_mono_nonneg_l; lia).
        rewrite !sat_add_exact by lia. f_equal; lia || (f_equal; lia).
Qed.
End clock.

Section executions.
Context {AccountId Origin W : Type} `{Countable AccountId}.
Context `{!SpArithmetic, !Currency AccountId W, !FrameSystem AccountId Origin W}.
Context `{!Observer W, !StakingRewardHandler AccountId W, !AccountCheck AccountId W}.
Context `{!PrivilegedOrigins Origin, !PrefixOrder AccountId}.
Context `{!PriceProvider W, !TierSlots, !UnspecifiedOrder}.
Context (cfg : Config).

Abbreviation St := (Storage AccountId W).

Lemma handler_clock now (s : St) :
  ActiveProtocolState (era_and_period_handler cfg now s) = clock cfg now (ActiveProtocolState s).
Proof.
  unfold era_and_period_handler, clock. destruct (maintenance _) eqn:Hm; [done|]. cbn [orb].
  set (s1 := if next_era_start _ =? _ then _ else s).
  assert (Hs1 : ActiveProtocolState s1 = ActiveProtocolState s) by (subst s1; by destruct (_ =? _)).
  destruct (is_new_era _ now); cbn [negb]; [|done].
  destruct (current_subperiod (ActiveProtocolState s)) eqn:Hsub.
  - unfold end_voting. cbv beta iota zeta.
    by rewrite (proj1 (finish_era_frame cfg _ _ _ _ _ _)).
  - unfold end_build_and_earn_era. destruct (staker_and_dapp_reward_pools _ _) as [sp dp].
    destruct (get_dapp_tier_assignment_and_rewards _ _ _ _ _) as [tr k].
    by destruct (is_next_period _ _); cbv beta iota zeta; rewrite (proj1 (finish_era_frame cfg _ _ _ _ _ _)).
Qed.

(** Calls that do not touch the clock. *)
Definition leaves_clock (c : Call AccountId) : bool :=
  match c with call_force _ | call_maintenance_mode _ => false | _ => true end.

Lemma dispatch_leaves_clock o c (s s' : St) :
  leaves_clock c = true -> dispatch cfg o c s = Ok s' ->
  ActiveProtocolState s' = ActiveProtocolState s.
Proof.
  intros Hc Hd. destruct c; simpl in Hc, Hd; try discriminate Hc;
    unfold register, set_dapp_reward_beneficiary, set_dapp_owner, unregister,
      unbond_and_unstake, withdraw_unbonded, claim_unlocked, internal_claim_unlocked, lock, unlock,
      relock_unlocking, stake, unstake, unstake_from_unregistered, cleanup_expired_entries,
      claim_staker_rewards, claim_staker_rewards_for, internal_claim_staker_rewards_for,
      claim_bonus_reward, claim_bonus_reward_for, internal_claim_bonus_reward_for,
      claim_dapp_reward in Hd; cbv zeta in Hd; result_inv; rewrite ?events_state;
    repeat match goal with
    | Hu : update_ledger _ _ _ = Ok _ |- _ => apply update_ledger_state in Hu; simpl in Hu
    | Hu : context [ActiveProtocolState (if ?b then _ else _)] |- _ => destruct b
    end; done.
Qed.

(** An execution in which every block is initialised once, in order, and
    nobody forces an era or halts the pallet; [n] is the last block. *)
Inductive undisturbed : Z -> St -> Prop :=
| undisturbed_genesis g w s : build cfg g w = Some s -> undisturbed 0 s
| undisturbed_block n s : undisturbed n s -> undisturbed (n + 1) (on_initialize cfg (n + 1) s)
| undisturbed_call n o c s s' :
    undisturbed n s -> leaves_clock c = true -> dispatch cfg o c s = Ok s' -> undisturbed n s'
| undisturbed_idle n b s : undisturbed n s -> undisturbed n (on_idle cfg b s)
| undisturbed_world n w s : undisturbed n s -> undisturbed n (put_world w s).

Lemma undisturbed_nonneg n s : undisturbed n s -> 0 <= n.
Proof. induction 1; lia. Qed.

Lemma idle_state b (s : St) : ActiveProtocolState (on_idle cfg b s) = ActiveProtocolState s.
Proof.
  unfold on_idle, expired_entry_cleanup. destruct (negb b); [done|]. destruct (negb _); [done|].
  destruct (if _ <? _ then _ else _). by destruct (if _ <? _ then _ else _).
Qed.

Lemma schedule_genesis :
  0 < blocks_per_voting_period cfg -> 0 < blocks_per_era (cycle_configuration cfg) ->
  0 < eras_per_build_and_earn_subperiod (cycle_configuration cfg) ->
  schedule cfg 0 = mkProtocolState 1 (blocks_per_voting_period cfg + 1) (mkPeriodInfo 1 Voting 2) false.
Proof.
  intros HV HE HK. change (schedule cfg 0) with (schedule cfg 1).
  pose proof (schedule_voting cfg HV HE HK 0 0 ltac:(lia) ltac:(lia)) as Hs.
  replace (1 + 0 * period_blocks cfg + 0) with 1 in Hs by lia. rewrite Hs.
  f_equal; lia.
Qed.

(** C6: from genesis on, as long as every block is initialised and nobody
    forces an era or halts the pallet, the era, the period, the subperiod and
    the blocks of the next transitions after block [n] are those of the
    calendar: a voting subperiod of one long era, then the configured number
    of build-and-earn eras, then the next period, whatever else is called. *)
Theorem era_schedule (n : Z) (s : St) :
  integrity_test cfg = true -> undisturbed n s -> n + period_blocks cfg < u32_max ->
  ActiveProtocolState s = schedule cfg n.
Proof.
  intros Hi. unfold integrity_test in Hi. rewrite !andb_true_iff in Hi.
  assert (HV : 0 < blocks_per_voting_period cfg).
  { unfold blocks_per_voting_period, sat_mul.
    assert (0 < blocks_per_era (cycle_configuration cfg) *
                eras_per_voting_subperiod (cycle_configuration cfg))
      by (apply Z.mul_pos_pos; lia). lia. }
  induction 1 as [g w s Hb|n s Hu IH|n o c s s' Hu IH Hc Hd|n b s Hu IH|n w s Hu IH]; intros Hmax.
  - rewrite schedule_genesis by lia. unfold build in Hb. unfold checked_add in Hb. by result_inv.
  - pose proof (undisturbed_nonneg n s Hu). unfold on_initialize, saturated_into.
    assert (0 < period_blocks cfg) by (pose proof (period_blocks_bounds cfg); lia).
    rewrite Z.min_r by lia. rewrite handler_clock, IH by lia. apply clock_schedule; lia.
  - rewrite (dispatch_leaves_clock o c s s') by done. auto.
  - rewrite idle_state. auto.
  - simpl. auto.
Qed.
End executions.

Definition readme_cfg : Config :=
  mkConfig (Build_CycleConfiguration 3 5 10 100) (fixed_div / 20) 4 2 5 2 100 2 3 50 2 true.

Section witnesses.
Existing Instance ExactArithmetic.
Existing Instance StableOrder.

(** The dates of the pallet's README. *)
Lemma era_schedule_witness :
  ((fun n => (era (schedule readme_cfg n), Protocol.period_number (schedule readme_cfg n),
              current_subperiod (schedule readme_cfg n))) <$> [1; 500; 501; 601; 1401; 1501; 2001]) =
    [(1, 1, Voting); (1, 1, Voting); (2, 1, BuildAndEarn); (3, 1, BuildAndEarn);
     (11, 1, BuildAndEarn); (12, 2, Voting); (13, 2, BuildAndEarn)] /\
  ActiveProtocolState (on_initialize ex_cfg 1 ex_start) = schedule ex_cfg 1.
Proof.
  split; [by vm_compute|]. apply (era_schedule ex_cfg 1); [by vm_compute| |by vm_compute].
  apply (undisturbed_block ex_cfg 0).
  by apply (undisturbed_genesis ex_cfg ex_genesis (mkExWorld 1 ∅ [])); vm_compute.
Defined.
End witnesses.
