(* ===== verification/History.v ===== *)
(** * The reward history: what can be claimed is kept

    [EraRewards], [PeriodEnd] and [HistoryCleanupMarker] against the ledgers:
    in every reachable state the reward entries of all eras for which an
    account may still claim are stored, so that a claim is refused only when
    nothing is claimable, the rewards have expired, or the payout or the freeze
    fails. *)

From S2P Require Import Prelude Frame Primitives StakeAmount EraInfo AccountLedger.
From S2P Require Import SingularStakingInfo ContractStakeAmount EraRewardSpan Tiers Protocol.
From S2P Require Import PalletState DAppStaking TierAssignment EraHandler Invariant Preservation.
From S2P Require Import Reachability ExampleWorld.

(** ** The stakes of a ledger over time *)

(** The stake of [l'] is what is left of the stake of [l], from the same era
    on or later, or a fresh stake of period [p] from the era after [e] on. *)
Definition follows (p e : Z) (l l' : AccountLedger) : Prop :=
  forall q x', staked_period l' = Some q -> earliest_staked_era l' = Some x' ->
  (exists x, staked_period l = Some q /\ earliest_staked_era l = Some x /\ x <= x') \/
  (q = p /\ e < x').

Lemma follows_same p e l l' :
  AccountLedger.staked l' = AccountLedger.staked l ->
  AccountLedger.staked_future l' = AccountLedger.staked_future l -> follows p e l l'.
Proof.
  intros Hs Hf q x. unfold staked_period, earliest_staked_era. rewrite Hs, Hf. intros Hq Hx.
  left. exists x. split_and!; done || lia.
Qed.

Lemma follows_trans p e l1 l2 l3 : follows p e l1 l2 -> follows p e l2 l3 -> follows p e l1 l3.
Proof.
  intros H12 H23 q x3 Hq Hx. destruct (H23 q x3 Hq Hx) as [(x2 & Hq2 & Hx2 & Hle)|?]; [|by right].
  destruct (H12 q x2 Hq2 Hx2) as [(x1 & ? & ? & ?)|[? ?]].
  - left. exists x1. split_and!; done || lia.
  - right. split; [done|]. lia.
Qed.

Lemma follows_reset p e l l' :
  AccountLedger.staked l' = StakeAmount.default -> AccountLedger.staked_future l' = None ->
  follows p e l l'.
Proof. intros Hs Hf q x. unfold staked_period. by rewrite Hs, Hf. Qed.

Lemma follows_cleanup p e t l : follows p e l (snd (maybe_cleanup_expired t l)).
Proof.
  unfold maybe_cleanup_expired. destruct (staked_period l) as [q|]; [|by apply follows_same].
  destruct (q <? t); [by apply follows_reset|by apply follows_same].
Qed.

Lemma follows_stake n a e pi l l' :
  AccountLedger.wf n l -> 0 < a -> 0 <= e < u32_max ->
  AccountLedger.add_stake_amount a e pi l = Ok l' -> follows (number pi) e l l'.
Proof.
  intros Hwf Ha He Hok. destruct (wf_stake _ _ Hwf) as (Hv & Hd & Hf).
  unfold AccountLedger.add_stake_amount in Hok. rewrite (proj2 (Z.eqb_neq a 0)) in Hok by lia.
  bind_inv Hok as u Hc. destruct u.
  apply argument_check_ok in Hc as [Hc1 Hc2]; [|done]. destruct (_ <? a); [done|].
  rewrite sat_add_exact in * by lia. intros q x. unfold staked_period, earliest_staked_era.
  pose proof (total_nonneg _ Hv).
  destruct (AccountLedger.staked_future l) as [f|]; injection Hok as <-; simpl.
  - destruct Hf as (Hfv & Hfp & _ & Hcons).
    destruct (StakeAmount.era f =? e) eqn:Hfe; rewrite !is_empty_total by done;
      destruct (total (AccountLedger.staked l) =? 0) eqn:Ht; simpl.
    + rewrite (proj2 (Z.eqb_neq (total f) 0)) by lia. intros [= <-] [= <-]. left.
      eexists. split_and!; [done..|lia].
    + lia.
    + intros [= <-] [= <-]. right. unfold StakeAmount.period, StakeAmount.era. simpl.
      destruct (subperiod pi); simpl; (split; [apply Hc2|lia]).
    + intros [= <-] [= <-]. left. eexists. split_and!; [done..|lia].
  - rewrite is_empty_total by done. destruct (total (AccountLedger.staked l) =? 0) eqn:Ht; simpl.
    + intros [= <-] [= <-]. right. destruct (subperiod pi); simpl; (split; [done|lia]).
    + intros [= <-] [= <-]. left. eexists. split_and!; [done..|lia].
Qed.

Lemma follows_unstake n a e pi p l l' :
  AccountLedger.wf n l -> 0 < a -> AccountLedger.unstake_amount a e pi l = Ok l' ->
  follows p e l l'.
Proof.
  intros Hwf Ha Hok. destruct (wf_stake _ _ Hwf) as (Hv & Hd & Hf).
  unfold AccountLedger.unstake_amount in Hok. rewrite (proj2 (Z.eqb_neq a 0)) in Hok by lia.
  bind_inv Hok as u Hc. destruct (_ <? a); [done|]. injection Hok as <-.
  intros q x. unfold staked_period, earliest_staked_era. simpl. pose proof (total_nonneg _ Hv).
  rewrite (is_empty_total (AccountLedger.staked l)) by done.
  rewrite (is_empty_total (subtract a (AccountLedger.staked l))) by (apply subtract_valid; done || lia).
  rewrite total_subtract by (done || lia). unfold sat_sub.
  destruct (Z.max 0 _ =? 0) eqn:Hz; simpl.
  - destruct (AccountLedger.staked_future l) as [f|]; [|done].
    destruct Hf as (Hfv & Hfp & _ & Hcons).
    destruct (StakeAmount.is_empty (subtract a f)); [done|]. simpl.
    rewrite subtract_period, subtract_era. intros [= <-] [= <-]. left.
    destruct (total (AccountLedger.staked l) =? 0) eqn:Ht.
    + eexists. split_and!; [done..|lia].
    + destruct (Hcons ltac:(lia)) as [He Hp]. eexists. rewrite Hp. split_and!; [done..|lia].
  - rewrite is_empty_total, total_subtract by (done || lia || (apply subtract_valid; done || lia)).
    unfold sat_sub. rewrite Hz, (proj2 (Z.eqb_neq (total _) 0)) by lia.
    rewrite subtract_period, subtract_era. intros [= <-] [= <-]. left. eexists. split_and!; [done..|lia].
Qed.

Lemma follows_claim p e0 e pe l l' it first :
  stake_wf (AccountLedger.staked l) (AccountLedger.staked_future l) ->
  earliest_staked_era l = Some first -> e < u32_max ->
  claim_up_to_era e pe l = Ok (it, l') -> follows p e0 l l'.
Proof.
  intros Hwf Hfirst He Hok.
  assert (Hl' : l' = set_stake StakeAmount.default None l \/
    first <= e /\ l' = set_stake (StakeAmount.set_era (sat_add u32_max e 1) (latest l)) None l).
  { unfold claim_up_to_era in Hok. unfold earliest_staked_era in Hfirst.
    destruct (if negb _ then _ else _) eqn:Hg in Hok; [|done].
    assert (Hle : first <= e).
    { destruct (StakeAmount.is_empty (AccountLedger.staked l)); simpl in *;
        [destruct (AccountLedger.staked_future l)|]; simplify_eq/=; lia. }
    destruct (match AccountLedger.staked_future l with Some _ => _ | None => _ end) as [sp fi] in Hok.
    bind_inv Hok as r Er. injection Hok as _ <-. unfold latest.
    destruct pe as [x|]; [destruct (x <=? e); [by left|]|]; by right. }
  destruct Hl' as [-> |[Hle ->]]; [by apply follows_reset|].
  intros q x. destruct (latest_positive l first Hwf Hfirst) as [Hlv Hlp].
  unfold staked_period at 1, earliest_staked_era at 1. simpl.
  rewrite is_empty_total, total_set_era, (proj2 (Z.eqb_neq _ 0)) by (done || lia).
  intros [= <-] [= <-]. left. exists first. split_and!; [|done|simpl; ulia].
  unfold earliest_staked_era, staked_period, latest in *. simpl. destruct Hwf as (Hv & Hd & Hf).
  rewrite is_empty_total in * by done. pose proof (total_nonneg _ Hv).
  destruct (AccountLedger.staked_future l) as [f|], (total (AccountLedger.staked l) =? 0) eqn:Ht;
    simplify_eq/=; try done.
  destruct Hf as (_ & _ & _ & Hcons). by destruct (Hcons ltac:(lia)) as [_ ->].
Qed.

Section history.
Context {AccountId Origin W : Type} `{Countable AccountId}.
Context `{!SpArithmetic, !Currency AccountId W, !FrameSystem AccountId Origin W}.
Context `{!Observer W, !StakingRewardHandler AccountId W, !AccountCheck AccountId W}.
Context `{!PrivilegedOrigins Origin, !PrefixOrder AccountId}.
Context `{!PriceProvider W, !TierSlots, !UnspecifiedOrder}.
Context `{!CurrencyLaws AccountId W, !RewardHandlerLaws AccountId W, !ObserverLaws AccountId W}.
Context (cfg : Config) (Hcfg : config_ok cfg).

Abbreviation St := (Storage AccountId W).
Abbreviation SL := (EraRewardSpanLength cfg).
Abbreviation RR := (RewardRetentionInPeriods cfg).
Abbreviation oldest s := (oldest_valid_era (HistoryCleanupMarker s)).

(** ** The calls: history stays, stakes follow *)

Definition history (s : St) : gmap Z EraRewardSpan * gmap Z PeriodEndInfo * CleanupMarker :=
  (EraRewards s, PeriodEnd s, HistoryCleanupMarker s).

Lemma update_ledger_history a l (s s' : St) :
  update_ledger a l s = Ok s' -> history s' = history s.
Proof. unfold update_ledger. intros Hu. by result_inv. Qed.

Lemma events_history acc rewards (s : St) :
  history (foldl (fun s '(era, reward) => deposit_event (Reward acc era reward) s) s rewards) =
  history s.
Proof. revert s. induction rewards as [|[e r] rs IH]; intros s; simpl; [done|]. by rewrite IH. Qed.

Lemma dispatch_history o call (s s' : St) :
  dispatch cfg o call s = Ok s' -> history s' = history s.
Proof.
  intros Hd. destruct call; simpl in Hd;
    unfold maintenance_mode, register, set_dapp_reward_beneficiary, set_dapp_owner, unregister,
      unbond_and_unstake, withdraw_unbonded, claim_unlocked, internal_claim_unlocked, lock, unlock,
      relock_unlocking, stake, unstake, unstake_from_unregistered, cleanup_expired_entries,
      claim_staker_rewards, claim_staker_rewards_for, internal_claim_staker_rewards_for,
      claim_bonus_reward, claim_bonus_reward_for, internal_claim_bonus_reward_for,
      claim_dapp_reward, force in Hd; cbv zeta in Hd; result_inv; rewrite ?events_history;
    repeat match goal with
    | Hu : update_ledger _ _ _ = Ok _ |- _ => apply update_ledger_history in Hu
    | Hu : context [if ?b then _ else _] |- _ => destruct b
    end; done.
Qed.

(** Every ledger after a call follows the one before it. *)
Definition ledgers_follow (s s' : St) : Prop :=
  forall a l', Ledger s' !! a = Some l' ->
  follows (current_period s) (current_era s) (ledger_of s a) l'.

Lemma follow_frame (s s' : St) : Ledger s' = Ledger s -> ledgers_follow s s'.
Proof.
  intros Hl a l'. rewrite Hl. unfold ledger_of. intros ->. by apply follows_same.
Qed.

Lemma follow_written (s s' : St) acc l :
  written acc l (Ledger s) (Ledger s') ->
  follows (current_period s) (current_era s) (ledger_of s acc) l -> ledgers_follow s s'.
Proof.
  intros Hw Hf a l' Ha. eapply written_lookup in Ha as [[-> ->]|[_ Ha]]; [done| |exact Hw].
  unfold ledger_of. rewrite Ha. by apply follows_same.
Qed.

Lemma follow_updated (s0 s s1 s' : St) acc l :
  update_ledger acc l s0 = Ok s1 -> Ledger s0 = Ledger s -> Ledger s' = Ledger s1 ->
  follows (current_period s) (current_era s) (ledger_of s acc) l -> ledgers_follow s s'.
Proof.
  intros Hu Hl Hl' Hf. apply update_ledger_ok in Hu as (w & -> & _).
  apply (follow_written s _ acc l); [|done]. left. rewrite Hl'. simpl. by rewrite Hl.
Qed.

(** Changes of a ledger that leave its stake alone. *)
Lemma follows_chunk n a b p e l l' :
  add_unlocking_chunk n a b l = Ok l' -> follows p e l l'.
Proof.
  unfold add_unlocking_chunk. intros Hok. destruct (a =? 0); [by simplify_eq; apply follows_same|].
  destruct (binary_search_by _ _ _); [|destruct (try_insert _ _ _ _); [|done]];
    injection Hok as <-; by apply follows_same.
Qed.

Lemma stake_follow o c x (s s' : St) :
  Inv cfg s -> current_era s < u32_max -> stake cfg o c x s = Ok s' -> ledgers_follow s s'.
Proof.
  intros Hinv Hmax Hop. unfold stake in Hop. cbv zeta in Hop.
  bind_inv Hop as u Een. bind_inv Hop as acc Esig. guard_inv Hop as Ex.
  bind_inv Hop as d Ed. guard_inv Hop as Enp. bind_inv Hop as l2 El2. bind_inv Hop as [i b] Eent.
  guard_inv Hop as Emin. guard_inv Hop as Ecnt. bind_inv Hop as s1 Eup. injection Hop as <-.
  pose proof (inv_clock _ s Hinv). destruct (cleaned_ledger_facts cfg Hcfg s acc Hinv) as (Hwf1 & _).
  unfold map_err in El2. destruct (AccountLedger.add_stake_amount _ _ _ _) as [l2'|] eqn:Eadd;
    [|done]. injection El2 as ->.
  apply (follow_written s _ acc (if b then set_contract_stake_count
    (sat_add u32_max (contract_stake_count l2) 1) l2 else l2)).
  - apply update_ledger_ok in Eup as (w & -> & _). by left.
  - apply (follows_trans _ _ _ l2); [|by destruct b; apply follows_same].
    eapply follows_trans; [apply follows_cleanup|].
    apply (follows_stake (MaxUnlockingChunks cfg)) in Eadd; [done|done|lia|].
    change (0 <= current_era s < u32_max). lia.
Qed.

Lemma unstake_follow (s s' : St) a c i y k l2 :
  Inv cfg s -> unstake_update cfg s s' a c i y k l2 -> ledgers_follow s s'.
Proof.
  intros Hinv []. apply (follow_written s _ a (set_contract_stake_count k l2)); [by left|].
  apply (follows_trans _ _ _ l2); [|by apply follows_same].
  apply (follows_unstake (MaxUnlockingChunks cfg) y (current_era s)
    (period_info (ActiveProtocolState s))); [|lia|done].
  apply (ledger_of_inv cfg Hcfg s a Hinv).
Qed.

Lemma claim_span_bound (s : St) q last pe :
  current_era s < u32_max ->
  (forall p i, PeriodEnd s !! p = Some i -> final_era i < u32_max) ->
  claim_span s q = Ok (last, pe) -> last < u32_max.
Proof.
  intros Hmax Hpe Hcs. unfold claim_span, current_era in *.
  destruct (q =? _); [simplify_eq; ulia|].
  bind_inv Hcs as i Ei. injection Hcs as <- _. apply (Hpe q). by result_inv.
Qed.

Lemma claim_follow acc (s s' : St) :
  Inv cfg s -> current_era s < u32_max ->
  (forall p i, PeriodEnd s !! p = Some i -> final_era i < u32_max) -> internal_claim_staker_rewards_for cfg acc s = Ok s' ->
  ledgers_follow s s'.
Proof.
  intros Hinv Hmax Hpe Hop. unfold internal_claim_staker_rewards_for in Hop. cbv zeta in Hop.
  bind_inv Hop as q Eq. guard_inv Hop as Eexp. bind_inv Hop as first Efirst.
  bind_inv Hop as span Espan. bind_inv Hop as [last pe] Ecs. bind_inv Hop as [it l'] Ecl.
  bind_inv Hop as prs Eprs. bind_inv Hop as [rs sum] Ers. bind_inv Hop as w Epay.
  bind_inv Hop as s1 Eup. injection Hop as <-. 
  eapply follow_updated; [exact Eup|done|by rewrite events_ledger|].
  unfold map_err in Ecl. destruct (claim_up_to_era _ _ _) as [[it' l0]|] eqn:Eclaim; [|done].
  injection Ecl as -> ->. pose proof (claim_span_bound s q last pe Hmax Hpe Ecs).
  eapply (follows_claim _ _ _ _ _ _ _ first) in Eclaim;
    [exact Eclaim|apply (ledger_of_inv cfg Hcfg s acc Hinv)|by result_inv|lia].
Qed.

Lemma claim_unlocked_follow acc (s s' : St) :
  internal_claim_unlocked acc s = Ok s' -> ledgers_follow s s'.
Proof.
  unfold internal_claim_unlocked, AccountLedger.claim_unlocked. intros Hop. cbv zeta in Hop.
  guard_inv Hop as Ex. bind_inv Hop as s1 Eup. injection Hop as <-.
  eapply follow_updated; [exact Eup| |done|by apply follows_same].
  by destruct (AccountLedger.is_empty _).
Qed.

Lemma claim_bonus_follow acc c (s s' : St) :
  internal_claim_bonus_reward_for cfg acc c s = Ok s' -> ledgers_follow s s'.
Proof.
  unfold internal_claim_bonus_reward_for. intros Hop. cbv zeta in Hop. result_inv.
  eapply follow_written; [by right|]. by apply follows_same.
Qed.

Lemma cleanup_follow o (s s' : St) :
  cleanup_expired_entries cfg o s = Ok s' -> ledgers_follow s s'.
Proof.
  unfold cleanup_expired_entries. intros Hop. cbv zeta in Hop.
  bind_inv Hop as u Een. bind_inv Hop as acc Esig. guard_inv Hop as Ene.
  bind_inv Hop as s1 Eup. injection Hop as <-.
  eapply follow_updated; [exact Eup|done|done|].
  eapply follows_trans; [|apply follows_cleanup]. by apply follows_same.
Qed.

Lemma dispatch_follow o call (s s' : St) :
  call_typed call -> Inv cfg s -> current_era s < u32_max ->
  (forall p i, PeriodEnd s !! p = Some i -> final_era i < u32_max) ->
  dispatch cfg o call s = Ok s' -> ledgers_follow s s'.
Proof.
  intros Ht Hinv Hmax Hpe Hd. destruct call; simpl in Hd, Ht.
  - unfold maintenance_mode in Hd. result_inv. by apply follow_frame.
  - unfold register in Hd. result_inv. by apply follow_frame.
  - unfold set_dapp_reward_beneficiary in Hd. result_inv; by apply follow_frame.
  - unfold set_dapp_owner in Hd. cbv zeta in Hd. result_inv; by apply follow_frame.
  - apply unlock_facts in Hd as (a & y & l' & _ & []); [|done|apply Ht|done].
    apply (follow_written s _ a l'); [by left|]. rewrite ul_rest. by apply follows_same.
  - unfold withdraw_unbonded, claim_unlocked in Hd. result_inv. by eapply claim_unlocked_follow.
  - unfold unregister in Hd. result_inv. by apply follow_frame.
  - unfold lock in Hd. cbv zeta in Hd. result_inv. eapply follow_updated; [eassumption|done|done|].
    by apply follows_same.
  - apply unlock_facts in Hd as (a & y & l' & _ & []); [|done|apply Ht|done].
    apply (follow_written s _ a l'); [by left|]. rewrite ul_rest. by apply follows_same.
  - unfold claim_unlocked in Hd. result_inv. by eapply claim_unlocked_follow.
  - unfold relock_unlocking, consume_unlocking_chunks in Hd. cbv zeta in Hd.
    result_inv. eapply follow_updated; [eassumption|done|done|]. by apply follows_same.
  - by eapply stake_follow.
  - apply unstake_facts in Hd as (a & i & l2 & k & _ & _ & Hu); [|done..]. by eapply unstake_follow.
  - unfold claim_staker_rewards in Hd. result_inv. by eapply claim_follow.
  - unfold claim_bonus_reward in Hd. result_inv. by eapply claim_bonus_follow.
  - unfold claim_dapp_reward in Hd. cbv zeta in Hd. result_inv. by apply follow_frame.
  - apply (unstake_from_unregistered_facts cfg) in Hd as (a & i & l2 & _ & Hu); [|done..].
    by eapply unstake_follow.
  - by eapply cleanup_follow.
  - unfold force in Hd. cbv zeta in Hd. result_inv. by apply follow_frame.
  - unfold claim_staker_rewards_for in Hd. result_inv. by eapply claim_follow.
  - unfold claim_bonus_reward_for in Hd. result_inv. by eapply claim_bonus_follow.
Qed.

(** ** The invariant of the history *)

(** What a stake in a ledger needs: the reward entries from its first era on
    are not cleaned up as long as its period can be claimed for, and it began
    after the end of all earlier periods. *)
Definition stake_history (s : St) (l : AccountLedger) : Prop :=
  forall q x, staked_period l = Some q -> earliest_staked_era l = Some x ->
  1 <= x /\ 1 <= q <= current_period s /\
  (current_period s - RR <= q -> oldest s <= x) /\
  (forall p i, p < q -> PeriodEnd s !! p = Some i -> final_era i < x).

(** The reward span stored under [k]: it is as full as it can be in era [e]. *)
Record full_span (e k : Z) (sp : EraRewardSpan) : Prop := {
  fs_index : 0 <= k /\ k mod SL = 0;
  fs_wf : EraRewardSpan.wf SL sp;
  fs_nonempty : span sp <> [];
  fs_first : first_era sp = Z.max 1 k;
  fs_last : last_era sp = Z.min (k + SL - 1) (e - 1);
}.

Record HInv (s : St) : Prop := {
  hi_spans k sp : EraRewards s !! k = Some sp -> full_span (current_era s) k sp;
  hi_covered e :
    1 <= e -> oldest s <= e < current_era s ->
    is_Some (EraRewards s !! era_reward_span_index cfg e);
  hi_oldest : 0 <= oldest s < current_era s;
  hi_ends p :
    is_Some (PeriodEnd s !! p) <-> 1 <= p /\ current_period s - RR <= p < current_period s;
  hi_final p i : PeriodEnd s !! p = Some i -> oldest s <= final_era i < current_era s;
  hi_ordered p p' i i' :
    PeriodEnd s !! p = Some i -> PeriodEnd s !! p' = Some i' -> p < p' ->
    final_era i < final_era i';
  hi_ledger a l : Ledger s !! a = Some l -> stake_history s l;
}.

Lemma stake_history_default (s : St) : stake_history s AccountLedger.default.
Proof. intros q x Hq. unfold staked_period in Hq. done. Qed.

Lemma ledger_history (s : St) a : HInv s -> stake_history s (ledger_of s a).
Proof.
  intros Hh. unfold ledger_of. destruct (Ledger s !! a) eqn:Hl; [by apply (hi_ledger s Hh a)|].
  apply stake_history_default.
Qed.

(** A step that keeps the history and the clock, and lets stakes follow. *)
Lemma hinv_follow (s s' : St) :
  HInv s -> 1 <= current_period s <= current_era s -> history s' = history s -> current_era s' = current_era s ->
  current_period s' = current_period s -> ledgers_follow s s' -> HInv s'.
Proof.
  intros Hh He1 Hhist He Hp Hf. unfold history in Hhist. injection Hhist as H1' H2' H3'.
  assert (Hl : forall a l, Ledger s' !! a = Some l -> stake_history s l).
  { intros a l Ha q x Hq Hx. destruct (Hf a l Ha q x Hq Hx) as [(y & Hq' & Hy & Hle)|[-> Hlt]].
    - destruct (ledger_history s a Hh q y Hq' Hy) as (? & ? & Ho & Hfin). split_and!; [lia..| |].
      + intros Hr. specialize (Ho Hr). lia.
      + intros p i Hpq Hi. specialize (Hfin p i Hpq Hi). lia.
    - destruct (hi_oldest s Hh). split_and!; [lia..|].
      intros p i _ Hi. pose proof (hi_final s Hh p i Hi). lia. }
  destruct Hh. split; rewrite ?H1', ?H2', ?H3', ?He, ?Hp; try done.
  intros a l Ha. specialize (Hl a l Ha). unfold stake_history in *. by rewrite H2', H3', Hp.
Qed.

(** ** New eras *)

(** The reward map after era [e] was closed with reward [r]. *)
Definition closed_era (e : Z) (r : EraReward) (m : gmap Z EraRewardSpan) : gmap Z EraRewardSpan :=
  let k := era_reward_span_index cfg e in
  <[k := snd (push SL e r (match m !! k with Some sp => sp | None => EraRewardSpan.new end))]> m.

(** What closing an era does to the history. *)
Record era_closed (s s' : St) : Prop := {
  ec_ledger : Ledger s' = Ledger s;
  ec_era : current_era s' = sat_add u32_max (current_era s) 1;
  ec_rewards : exists r, EraRewards s' = closed_era (current_era s) r (EraRewards s);
  ec_period :
    (current_period s' = current_period s /\ PeriodEnd s' = PeriodEnd s /\
     HistoryCleanupMarker s' = HistoryCleanupMarker s) \/
    (current_period s' = sat_add u32_max (current_period s) 1 /\
     exists i, final_era i = current_era s /\
       let s1 := update_cleanup_marker cfg (current_period s')
                   (put_period_end (<[current_period s := i]> (PeriodEnd s)) s) in
       PeriodEnd s' = PeriodEnd s1 /\ HistoryCleanupMarker s' = HistoryCleanupMarker s1);
}.

Lemma finish_era_history ce st ei ev r (s : St) :
  let s' := finish_era cfg ce st ei ev r s in
  EraRewards s' = closed_era ce r (EraRewards s) /\ PeriodEnd s' = PeriodEnd s /\
  HistoryCleanupMarker s' = HistoryCleanupMarker s.
Proof.
  cbv zeta. unfold finish_era, closed_era.
  destruct ev; cbn -[calculate_new config_is_valid push];
    by destruct (config_is_valid _ _).
Qed.

Lemma finish_era_closed (s s0 : St) st ei ev r :
  Ledger s0 = Ledger s -> EraRewards s0 = EraRewards s ->
  (Protocol.period_number st = current_period s /\ PeriodEnd s0 = PeriodEnd s /\
     HistoryCleanupMarker s0 = HistoryCleanupMarker s \/
   Protocol.period_number st = sat_add u32_max (current_period s) 1 /\
     exists i, final_era i = current_era s /\
       let s1 := update_cleanup_marker cfg (Protocol.period_number st)
                   (put_period_end (<[current_period s := i]> (PeriodEnd s)) s) in
       PeriodEnd s0 = PeriodEnd s1 /\ HistoryCleanupMarker s0 = HistoryCleanupMarker s1) ->
  era_closed s (finish_era cfg (era (ActiveProtocolState s)) st ei ev r s0).
Proof.
  intros Hl Hr Hp.
  destruct (finish_era_frame cfg (era (ActiveProtocolState s)) st ei ev r s0) as (Hst & _ & Hl' & _).
  destruct (finish_era_history (era (ActiveProtocolState s)) st ei ev r s0) as (Hr' & Hp' & Hm').
  assert (Hcp : current_period (finish_era cfg (era (ActiveProtocolState s)) st ei ev r s0) =
    Protocol.period_number st) by (unfold current_period; by rewrite Hst).
  split; rewrite ?Hcp, ?Hp', ?Hm'; try done.
  - congruence.
  - unfold current_era. by rewrite Hst.
  - exists r. by rewrite Hr', Hr.
Qed.

Lemma cleanup_marker_rewards n (s : St) :
  EraRewards (update_cleanup_marker cfg n s) = EraRewards s /\
  Ledger (update_cleanup_marker cfg n s) = Ledger s.
Proof.
  unfold update_cleanup_marker. destruct (checked_sub _ _) as [q|]; [|done].
  destruct (q =? 0); [done|]. by destruct (PeriodEnd s !! q).
Qed.

Lemma cleanup_marker_eq n (s s0 : St) :
  PeriodEnd s = PeriodEnd s0 -> HistoryCleanupMarker s = HistoryCleanupMarker s0 ->
  PeriodEnd (update_cleanup_marker cfg n s) = PeriodEnd (update_cleanup_marker cfg n s0) /\
  HistoryCleanupMarker (update_cleanup_marker cfg n s) =
    HistoryCleanupMarker (update_cleanup_marker cfg n s0).
Proof.
  intros Hp Hm. unfold update_cleanup_marker. rewrite Hp.
  destruct (checked_sub _ _) as [q|]; [|done]. destruct (q =? 0); [done|].
  destruct (PeriodEnd s0 !! q); [|done]. simpl. by rewrite Hm.
Qed.

Lemma handler_history now (s : St) :
  let s' := era_and_period_handler cfg now s in
  (Ledger s' = Ledger s /\ history s' = history s /\ current_era s' = current_era s /\
   current_period s' = current_period s) \/
  era_closed s s'.
Proof.
  cbv zeta. unfold era_and_period_handler.
  destruct (maintenance _); [by left|].
  set (s1 := if next_era_start _ =? _ then _ else s).
  assert (Hs1 : exists w, s1 = put_world w s).
  { subst s1. destruct (_ =? _); [by eexists|]. exists (world s). by destruct s. }
  destruct Hs1 as [w ->].
  destruct (is_new_era _ now); cbn [negb]; [right|by left].
  destruct (current_subperiod (ActiveProtocolState s)) eqn:Hsub.
  - unfold end_voting. cbv beta iota zeta. apply finish_era_closed; try done. left.
    unfold advance_to_next_subperiod, current_subperiod in *. simpl. by rewrite Hsub.
  - unfold end_build_and_earn_era. destruct (staker_and_dapp_reward_pools _ _) as [sp dp].
    destruct (get_dapp_tier_assignment_and_rewards _ _ _ _ _) as [tr k].
    destruct (is_next_period _ _); cbv beta iota zeta;
      [|apply finish_era_closed; try done; by left].
    set (i := mkPeriodEndInfo _ _ _). set (x := put_period_end _ _).
    set (st := advance_to_next_subperiod _ _ _).
    destruct (cleanup_marker_rewards (Protocol.period_number st) x) as [Hcr Hcl].
    apply finish_era_closed; [by rewrite Hcl|by rewrite Hcr|right]. split.
    + subst st. unfold advance_to_next_subperiod, current_subperiod in *. simpl. by rewrite Hsub.
    + exists i. split; [done|]. by apply cleanup_marker_eq.
Qed.

Lemma span_index_facts e :
  0 <= e -> let k := era_reward_span_index cfg e in
  0 <= k <= e /\ e < k + SL /\ k mod SL = 0.
Proof.
  intros He. pose proof (config_positive cfg Hcfg) as (_ & _ & HSL & _). cbv zeta.
  unfold era_reward_span_index. pose proof (Z.mod_pos_bound e SL HSL) as Hm.
  pose proof (Z.mod_le e SL He HSL). rewrite sat_sub_exact by lia. split_and!; try lia.
  rewrite Zminus_mod_idemp_r, Z.sub_diag. apply Z.mod_0_l. lia.
Qed.

(** Different multiples of the span length are a span apart. *)
Lemma multiples_apart k k' : k mod SL = 0 -> k' mod SL = 0 -> k < k' -> k + SL <= k'.
Proof.
  intros H1' H2' Hlt. pose proof (config_positive cfg Hcfg) as (_ & _ & HSL & _).
  apply Z.div_exact in H1'; [|lia]. apply Z.div_exact in H2'; [|lia].
  assert (k / SL < k' / SL) by nia. nia.
Qed.

Lemma span_index_unique e k :
  0 <= e -> k mod SL = 0 -> k <= e < k + SL -> k = era_reward_span_index cfg e.
Proof.
  intros He Hk Hr. destruct (span_index_facts e He) as (Hk0 & Hlt & Hm).
  destruct (Z.lt_trichotomy k (era_reward_span_index cfg e)) as [Hl|[?|Hl]]; [|done|].
  - pose proof (multiples_apart _ _ Hk Hm Hl). lia.
  - pose proof (multiples_apart _ _ Hm Hk Hl). lia.
Qed.

Lemma full_span_length e k sp :
  full_span e k sp ->
  Z.of_nat (length (span sp)) = Z.min (k + SL - 1) (e - 1) - Z.max 1 k + 1 /\
  Z.max 1 k <= Z.min (k + SL - 1) (e - 1).
Proof.
  intros [_ [Hlen Hf Hlast] Hne Hfirst Hl]. specialize (Hlast Hne).
  destruct (span sp); [done|]. simpl in *. lia.
Qed.

(** The current span takes the era that ends. *)
Lemma closed_span (s : St) r :
  HInv s -> 1 <= current_era s < u32_max ->
  let e := current_era s in let k := era_reward_span_index cfg e in
  full_span (e + 1) k (snd (push SL e r
    (match EraRewards s !! k with Some sp => sp | None => EraRewardSpan.new end))).
Proof.
  intros Hh He. cbv zeta. set (e := current_era s) in *.
  destruct (span_index_facts e ltac:(lia)) as (Hk & Hlt & Hm).
  pose proof (config_positive cfg Hcfg) as (_ & _ & HSL & _).
  set (k := era_reward_span_index cfg e) in *. destruct (EraRewards s !! k) as [sp|] eqn:Hsp.
  - pose proof (hi_spans s Hh k sp Hsp) as Hfull. fold e in Hfull.
    destruct (full_span_length e k sp Hfull) as [Hlen Hle]. destruct Hfull as [_ Hwf Hne Hf Hl].
    assert (Hcap : Z.of_nat (length (span sp)) < SL) by lia.
    assert (Hnext : span sp <> [] -> e = last_era sp + 1) by (intros _; rewrite Hl; lia).
    pose proof (push_wf SL e r sp Hwf ltac:(lia) Hcap Hnext) as Hwf'.
    rewrite push_ok in * by (done || lia). unfold EraRewardSpan.is_empty in *.
    rewrite bool_decide_eq_false_2 in * by done.
    split; simpl in *; try done; [split; [lia|done]|by destruct (span sp)|lia].
  - assert (Hfirst : e = Z.max 1 k).
    { destruct (Z.eq_dec e (Z.max 1 k)); [done|exfalso].
      destruct (hi_oldest s Hh) as [_ Ho]. fold e in Ho.
      destruct (hi_covered s Hh (e - 1)) as [sp' Hsp']; [lia|fold e; lia|].
      rewrite <- (span_index_unique (e - 1) k) in Hsp' by lia. congruence. }
    assert (Hnext : span EraRewardSpan.new <> [] -> e = last_era EraRewardSpan.new + 1) by done.
    pose proof (push_wf SL e r EraRewardSpan.new (new_wf SL ltac:(lia)) ltac:(lia)
      ltac:(simpl; lia) Hnext) as Hwf'.
    rewrite push_ok in * by (done || (apply new_wf; lia) || (simpl; lia)).
    split; simpl in *; try done; [split; [lia|done]|lia].
Qed.

Lemma closed_era_spans (s : St) r k sp :
  HInv s -> 1 <= current_era s < u32_max ->
  closed_era (current_era s) r (EraRewards s) !! k = Some sp -> full_span (current_era s + 1) k sp.
Proof.
  intros Hh He Hk. unfold closed_era in Hk. cbv zeta in Hk.
  apply lookup_insert_Some in Hk as [[<- <-]|[Hne Hk]]; [by apply closed_span|].
  pose proof (hi_spans s Hh k sp Hk) as Hfull.
  destruct (full_span_length _ k sp Hfull) as [_ Hle]. destruct Hfull as [[Hk0 Hkm] Hwf Hsn Hf Hl].
  split; try done. rewrite Hl.
  destruct (span_index_facts (current_era s) ltac:(lia)) as (Hi & Hlt & Hm).
  destruct (Z.lt_trichotomy k (era_reward_span_index cfg (current_era s))) as [Hlk|[?|Hlk]].
  - pose proof (multiples_apart _ _ Hkm Hm Hlk). lia.
  - done.
  - pose proof (multiples_apart _ _ Hm Hkm Hlk). lia.
Qed.

Lemma closed_era_covered (s : St) r e :
  HInv s -> 1 <= e -> oldest s <= e < current_era s + 1 ->
  is_Some (closed_era (current_era s) r (EraRewards s) !! era_reward_span_index cfg e).
Proof.
  intros Hh He Hr. unfold closed_era. cbv zeta. rewrite lookup_insert_is_Some'.
  destruct (Z.eq_dec e (current_era s)) as [->|Hne]; [by left|right].
  apply (hi_covered s Hh); lia.
Qed.

(** The marker after period [P] has ended: it moves when the period that has
    just become too old is removed. *)
Lemma cleanup_marker_cases (s : St) i :
  let P := current_period s in
  let s1 := update_cleanup_marker cfg (P + 1) (put_period_end (<[P := i]> (PeriodEnd s)) s) in
  HInv s -> 1 <= P < u32_max -> current_era s < u32_max ->
  (P - RR <= 0 /\ PeriodEnd s1 = <[P := i]> (PeriodEnd s) /\ oldest s1 = oldest s) \/
  (exists j, 1 <= P - RR /\ PeriodEnd s !! (P - RR) = Some j /\
     PeriodEnd s1 = delete (P - RR) (<[P := i]> (PeriodEnd s)) /\ oldest s1 = final_era j + 1).
Proof.
  intros P s1 Hh HP He. pose proof (config_positive cfg Hcfg) as (_ & _ & _ & HR).
  pose proof (config_retention cfg Hcfg) as HRm. subst s1. unfold update_cleanup_marker, checked_sub.
  destruct (Z.eq_dec RR u32_max) as [HRe|HRe].
  { assert (Hsat : sat_add u32_max RR 1 = u32_max) by ulia. rewrite Hsat.
    destruct (_ <=? P + 1) eqn:Hle; [|left; split_and!; [lia|done..]].
    rewrite (proj2 (Z.eqb_eq _ 0)) by lia. left. split_and!; [lia|done..]. }
  rewrite sat_add_exact by lia. destruct (RR + 1 <=? P + 1) eqn:Hle;
    [|left; split_and!; [lia|done..]].
  replace (P + 1 - (RR + 1)) with (P - RR) by lia.
  destruct (P - RR =? 0) eqn:Hz; [left; split_and!; [lia|done..]|right].
  simpl. rewrite lookup_insert_ne by lia.
  destruct (proj2 (hi_ends s Hh (P - RR))) as [j Hj]; [fold P; lia|]. rewrite Hj. exists j.
  pose proof (hi_final s Hh _ j Hj). simpl. split_and!; try done; [lia|].
  rewrite sat_add_exact by lia. done.
Qed.

(** The ends of periods and the marker once the ongoing period has ended with
    [i]: the period that became too old is gone, and everything from the
    oldest valid era on still belongs to the others. *)
Lemma period_closed (s : St) i :
  let P := current_period s in
  let s1 := update_cleanup_marker cfg (P + 1) (put_period_end (<[P := i]> (PeriodEnd s)) s) in
  HInv s -> 1 <= P < u32_max -> current_era s < u32_max -> final_era i = current_era s ->
  (forall p j, PeriodEnd s1 !! p = Some j <->
     P + 1 - RR <= p /\ (p = P /\ j = i \/ p < P /\ PeriodEnd s !! p = Some j)) /\
  oldest s <= oldest s1 <= current_era s /\
  (forall p j, PeriodEnd s1 !! p = Some j -> oldest s1 <= final_era j) /\
  (forall l q x, stake_history s l -> staked_period l = Some q -> earliest_staked_era l = Some x ->
     P + 1 - RR <= q -> oldest s1 <= x).
Proof.
  intros P s1 Hh HP Hmax Hi. pose proof (cleanup_marker_cases s i Hh HP Hmax) as Hcases.
  cbv zeta in Hcases. fold P in Hcases. change (update_cleanup_marker cfg (P + 1) _) with s1 in Hcases.
  pose proof (hi_oldest s Hh) as Ho. pose proof (config_positive cfg Hcfg) as (_ & _ & _ & HR).
  assert (Hkey : forall p j, PeriodEnd s !! p = Some j -> 1 <= p /\ P - RR <= p < P).
  { intros p j Hj. apply (hi_ends s Hh p). by eexists. }
  clearbody s1. destruct Hcases as [(HPR & -> & ->)|(j0 & HPR & Hj0 & -> & ->)].
  - split_and!; [|lia|lia| |].
    + intros p j. rewrite lookup_insert_Some. split.
      * intros [[<- <-]|[Hne Hj]]; [split; [lia|by left]|]. pose proof (Hkey p j Hj).
        split; [lia|]. right. split; [lia|done].
      * intros [_ [[-> ->]|[Hlt Hj]]]; [by left|]. right. split; [lia|done].
    + intros p j. rewrite lookup_insert_Some. intros [[_ <-]|[_ Hj]]; [lia|].
      by apply (hi_final s Hh p j).
    + intros l q x Hs Hq Hx Hr. apply (Hs q x Hq Hx). lia.
  - pose proof (hi_final s Hh _ j0 Hj0) as Hf0. split_and!; [|lia|lia| |].
    + intros p j. rewrite lookup_delete_Some, lookup_insert_Some. split.
      * intros [Hne0 [[<- <-]|[Hne Hj]]]; [split; [lia|by left]|].
        pose proof (Hkey p j Hj). split; [lia|].
        right. split; [lia|done].
      * intros [Hr [[-> ->]|[Hlt Hj]]]; (split; [lia|]); [by left|]. right. split; [lia|done].
    + intros p j. rewrite lookup_delete_Some, lookup_insert_Some. intros [Hne0 [[_ <-]|[Hne Hj]]]; [lia|].
      pose proof (Hkey p j Hj). pose proof (hi_ordered s Hh _ _ j0 j Hj0 Hj). lia.
    + intros l q x Hs Hq Hx Hr. destruct (Hs q x Hq Hx) as (_ & _ & _ & Hfin).
      specialize (Hfin (P - RR) j0 ltac:(lia) Hj0). lia.
Qed.

Lemma era_closed_hinv (s s' : St) :
  HInv s -> 1 <= current_period s <= current_era s -> current_era s < u32_max ->
  era_closed s s' -> HInv s'.
Proof.
  intros Hh Hclk Hmax [Hl He [r Hr] Hp]. rewrite sat_add_exact in He by lia.
  destruct Hp as [(Hp & Hpe & Hm)|(Hp & i & Hi & Hpe & Hm)].
  - split; rewrite ?Hr, ?He, ?Hp, ?Hpe, ?Hm.
    + intros k sp Hk. by eapply closed_era_spans; [|lia|].
    + intros e H1' H2'. by apply closed_era_covered.
    + pose proof (hi_oldest s Hh). lia.
    + apply (hi_ends s Hh).
    + intros p j Hj. pose proof (hi_final s Hh p j Hj). lia.
    + apply (hi_ordered s Hh).
    + intros a l. rewrite Hl. intros Ha. pose proof (hi_ledger s Hh a l Ha) as Hs.
      unfold stake_history in *. by rewrite Hp, Hpe, Hm.
  - rewrite sat_add_exact in Hp by lia. rewrite Hp in Hpe, Hm.
    destruct (period_closed s i Hh ltac:(lia) Hmax Hi) as (Hk & Ho & Hof & Hol).
    rewrite <- Hpe, <- Hm in *. clear Hpe Hm. pose proof (hi_oldest s Hh).
    split; rewrite ?Hr, ?He, ?Hp.
    + intros k sp Hsp. by eapply closed_era_spans; [|lia|].
    + intros e H1' H2'. apply closed_era_covered; [done|lia|lia].
    + lia.
    + intros p. split.
      * intros [j Hj]. apply Hk in Hj as [Hge [[-> _]|[Hlt Hj]]]; [lia|].
        destruct (proj1 (hi_ends s Hh p)); [by eexists|]. lia.
      * intros [Hp1 Hpr]. destruct (Z.eq_dec p (current_period s)) as [->|Hne].
        { exists i. apply Hk. split; [lia|by left]. }
        destruct (proj2 (hi_ends s Hh p)) as [j Hj]; [lia|].
        exists j. apply Hk. split; [lia|]. right. split; [lia|done].
    + intros p j Hj. split; [by apply (Hof p)|].
      apply Hk in Hj as [_ [[_ ->]|[_ Hj]]]; [lia|]. pose proof (hi_final s Hh p j Hj). lia.
    + intros p p' j j' Hj Hj' Hlt. apply Hk in Hj as [_ [[-> ->]|[Hp' Hj]]];
        apply Hk in Hj' as [_ [[-> ->]|[Hp'' Hj']]]; try lia.
      * pose proof (hi_final s Hh p j Hj). lia.
      * by apply (hi_ordered s Hh p p').
    + intros a l. rewrite Hl. intros Ha q x Hq Hx. pose proof (hi_ledger s Hh a l Ha) as Hs.
      destruct (Hs q x Hq Hx) as (Hx1 & Hqp & _ & Hfin). rewrite Hp.
      split_and!; [lia..|intros; by apply (Hol l q)|].
      intros p j Hpq Hj. apply Hk in Hj as [_ [[-> _]|[_ Hj]]]; [lia|]. by apply (Hfin p).
Qed.

(** ** Clean-up *)

(** A pass removes at most a span that ends before the oldest valid era. *)
Lemma cleanup_cases b (s : St) :
  let s' := expired_entry_cleanup cfg b s in
  Ledger s' = Ledger s /\ ActiveProtocolState s' = ActiveProtocolState s /\
  PeriodEnd s' = PeriodEnd s /\ oldest s' = oldest s /\
  (EraRewards s' = EraRewards s \/
   exists k sp, EraRewards s !! k = Some sp /\ last_era sp < oldest s /\
     EraRewards s' = delete k (EraRewards s)).
Proof.
  cbv zeta. unfold expired_entry_cleanup. destruct (negb b); [by auto 10|].
  destruct (negb _); [by auto 10|]. set (m := HistoryCleanupMarker s).
  destruct (if dapp_tiers_index m <? _ then _ else _) as [ts ti].
  destruct (era_reward_index m <? _); [|by auto 10].
  destruct (EraRewards s !! era_reward_index m) as [sp|] eqn:Hsp; [|by auto 10].
  destruct (last_era sp <? oldest_valid_era m) eqn:Hl; [|by auto 10].
  simpl. split_and!; try done. right. exists (era_reward_index m), sp.
  split_and!; [done|fold m; lia|done].
Qed.

Lemma cleanup_hinv b (s : St) : HInv s -> HInv (expired_entry_cleanup cfg b s).
Proof.
  intros Hh. destruct (cleanup_cases b s) as (Hl & Hst & Hpe & Ho & Hr).
  assert (He : current_era (expired_entry_cleanup cfg b s) = current_era s)
    by (unfold current_era; by rewrite Hst).
  assert (Hp : current_period (expired_entry_cleanup cfg b s) = current_period s)
    by (unfold current_period; by rewrite Hst).
  assert (Hsh : forall l, stake_history s l -> stake_history (expired_entry_cleanup cfg b s) l)
    by (intros l; unfold stake_history; by rewrite Hp, Hpe, Ho).
  destruct (expired_entry_cleanup cfg b s) eqn:Heq; rewrite <- Heq in *; clear Heq.
  split; rewrite ?He, ?Hp, ?Hpe, ?Ho; try apply Hh.
  - intros k sp Hk. apply (hi_spans s Hh).
    destruct Hr as [Hr|(k0 & sp0 & _ & _ & Hr)]; rewrite Hr in Hk; [done|].
    by apply lookup_delete_Some in Hk as [_ Hk].
  - intros e H1' H2'. destruct (hi_covered s Hh e H1' H2') as [sp Hsp].
    destruct Hr as [Hr|(k0 & sp0 & Hk0 & Hlast & Hr)]; rewrite Hr; [by eexists|].
    destruct (Z.eq_dec k0 (era_reward_span_index cfg e)) as [->|Hne];
      [|exists sp; by rewrite lookup_delete_ne].
    exfalso. assert (sp0 = sp) as -> by congruence.
    destruct (hi_spans s Hh _ sp Hsp) as [_ _ _ _ Hl'].
    destruct (span_index_facts e ltac:(lia)) as (? & ? & _). lia.
  - intros a l. rewrite Hl. intros Ha. apply Hsh. by apply (hi_ledger s Hh a).
Qed.

(** ** Reachable states *)

Lemma genesis_hinv g w (s : St) : build cfg g w = Some s -> HInv s.
Proof.
  unfold build. intros Hb. result_inv. pose proof (config_positive cfg Hcfg) as (_ & _ & _ & HR).
  split; unfold current_era, current_period, Protocol.period_number; simpl; try done; try lia.
  intros p. split; [by intros [? ?]|lia].
Qed.

Lemma step_hinv (s s' : St) :
  step cfg s s' -> Inv cfg s -> current_era s < u32_max -> HInv s -> HInv s'.
Proof.
  intros Hs Hinv Hmax Hh. pose proof (inv_clock _ s Hinv) as Hclk.
  destruct Hs as [o call s s' Ht Hd|now s|b s|b s|w s Hw].
  - destruct (dispatch_clock cfg o call s s' Hd) as [He Hp].
    apply (hinv_follow s); [done|done|by eapply dispatch_history|done|done|].
    eapply dispatch_follow; try done. intros p i Hi. pose proof (hi_final s Hh p i Hi). lia.
  - unfold on_initialize. destruct (handler_history (saturated_into u32_max now) s)
      as [(Hl & Hhist & He & Hp)|Hc].
    + apply (hinv_follow s); try done. by apply follow_frame.
    + by apply (era_closed_hinv s).
  - by apply cleanup_hinv.
  - apply (hinv_follow s); try done; destruct b; try done; by apply follow_frame.
  - apply (hinv_follow s); try done. by apply follow_frame.
Qed.

Lemma reachable_hinv (s : St) : reachable cfg s -> current_era s < u32_max -> HInv s.
Proof.
  induction 1 as [g w s Hg Hb|s s' Hr IH Hs]; intros Hmax; [by eapply genesis_hinv|].
  assert (current_era s < u32_max).
  { pose proof (reachable_era cfg s Hr). pose proof (step_era cfg s s' Hs). ulia. }
  apply (step_hinv s); auto. by apply reachable_inv.
Qed.

(** ** Claiming staker rewards *)

(** The stored reward of an era. *)
Definition era_reward_of (s : St) (e : Z) : option EraReward :=
  EraRewards s !! era_reward_span_index cfg e ≫= fun sp => EraRewardSpan.get sp e.

(** What the stake of ledger [l] earned in era [e]. *)
Definition era_share (s : St) (l : AccountLedger) (e : Z) : Z :=
  match era_reward_of s e with
  | Some r =>
      if (stake_at l e =? 0) || (EraRewardSpan.staked r =? 0) then 0
      else perbill_mul (perbill_from_rational (stake_at l e) (EraRewardSpan.staked r))
             (staker_reward_pool r)
  | None => 0
  end.

(** The era pays ledger [l] something: it had a stake, and so had the era. *)
Definition earns (s : St) (l : AccountLedger) (e : Z) : bool :=
  match era_reward_of s e with
  | Some r => negb ((stake_at l e =? 0) || (EraRewardSpan.staked r =? 0))
  | None => false
  end.

(** The eras from [first] to [last] that pay, each with its share, and the sum
    of the shares. *)
Definition paid_shares (s : St) (l : AccountLedger) (first last : Z) : list (Z * Z) :=
  (fun e => (e, era_share s l e)) <$> filter (fun e => earns s l e = true)
    (seqZ first (last - first + 1)).
Definition claim_sum (s : St) (l : AccountLedger) (first last : Z) : Z :=
  foldl (sat_add u128_max) 0 (era_share s l <$> seqZ first (last - first + 1)).

(** The last era for which a stake of period [q] earns rewards. *)
Definition last_claimable (s : St) (q : Z) : Z :=
  if q =? current_period s then current_era s - 1
  else from_option final_era 0 (PeriodEnd s !! q).

(** The eras of one claim: from the first unclaimed era to the end of its
    reward span, or to the last era of the period if that comes first. *)
Record claim_window (s : St) (l : AccountLedger) (first last : Z) : Prop := {
  window_first : earliest_staked_era l = Some first;
  window_last : exists q sp, staked_period l = Some q /\
    EraRewards s !! era_reward_span_index cfg first = Some sp /\
    last = Z.min (last_era sp) (last_claimable s q);
  window_range : first <= last < current_era s;
}.

(** The ledger after a claim up to [last]: nothing is staked any more once the
    last era of a past period is claimed. *)
Definition ledger_after_claim (s : St) (l : AccountLedger) (last : Z) : AccountLedger :=
  match staked_period l with
  | Some q =>
      if (q <? current_period s) && (last_claimable s q <=? last)
      then set_stake StakeAmount.default None l else claimed l last
  | None => l
  end.

Lemma reward_fold (s : St) l (sp : EraRewardSpan) es :
  (forall e, e ∈ es -> era_reward_of s e = EraRewardSpan.get sp e /\
     is_Some (EraRewardSpan.get sp e)) ->
  forall rs sum, sum <= u128_max ->
  foldl (staker_reward_step sp) (Ok (rs, sum)) ((fun e => (e, stake_at l e)) <$> es) =
  Ok (rs ++ ((fun e => (e, era_share s l e)) <$> filter (fun e => earns s l e = true) es),
      foldl (sat_add u128_max) sum (era_share s l <$> es)).
Proof.
  induction es as [|e es IH]; intros Hes rs sum Hsum.
  { simpl. by rewrite (right_id_L [] (++)). }
  rewrite filter_cons, !fmap_cons. cbn [foldl staker_reward_step].
  assert (Hes' := fun e' He' => Hes e' (list_elem_of_further _ _ _ He')).
  destruct (Hes e ltac:(by left)) as (Hr & [r Hget]). rewrite Hget in Hr |- *. cbn [ok_or].
  assert (Hsh : era_share s l e =
    if (stake_at l e =? 0) || (EraRewardSpan.staked r =? 0) then 0
    else perbill_mul (perbill_from_rational (stake_at l e) (EraRewardSpan.staked r))
           (staker_reward_pool r)) by (unfold era_share; by rewrite Hr).
  assert (Hea : earns s l e = negb ((stake_at l e =? 0) || (EraRewardSpan.staked r =? 0)))
    by (unfold earns; by rewrite Hr).
  destruct ((stake_at l e =? 0) || (EraRewardSpan.staked r =? 0)) eqn:Hz; simpl in Hea.
  - rewrite decide_False by congruence. rewrite Hsh. replace (sat_add u128_max sum 0) with sum by ulia.
    by apply IH.
  - rewrite decide_True by done. rewrite fmap_cons, <- Hsh.
    rewrite IH by (done || ulia). by rewrite <- (assoc_L (++)).
Qed.

Lemma claimable_span (s : St) a q first :
  HInv s -> staked_period (ledger_of s a) = Some q ->
  earliest_staked_era (ledger_of s a) = Some first -> current_period s - RR <= q ->
  first < current_era s ->
  exists sp, EraRewards s !! era_reward_span_index cfg first = Some sp /\
    full_span (current_era s) (era_reward_span_index cfg first) sp /\
    first_era sp <= first <= last_era sp.
Proof.
  intros Hh Hq Hfirst Hr Hlt. destruct (ledger_history s a Hh q first Hq Hfirst) as (H1' & _ & Ho & _).
  destruct (hi_covered s Hh first H1') as [sp Hsp]; [specialize (Ho Hr); lia|].
  pose proof (hi_spans s Hh _ sp Hsp) as Hfull. exists sp. split_and!; try done;
    destruct Hfull as [_ _ _ Hf Hl], (span_index_facts first ltac:(lia)) as (? & ? & _); lia.
Qed.

Lemma claim_span_known (s : St) q :
  HInv s -> 1 <= q <= current_period s -> current_period s - RR <= q ->
  claim_span s q =
    Ok (last_claimable s q, if q =? current_period s then None else Some (last_claimable s q)) /\
  last_claimable s q < current_era s /\
  (q < current_period s -> exists i, PeriodEnd s !! q = Some i /\ last_claimable s q = final_era i).
Proof.
  intros Hh Hq Hr. unfold claim_span, last_claimable. fold (current_period s) (current_era s).
  pose proof (hi_oldest s Hh). destruct (q =? current_period s) eqn:Heq.
  - split_and!; [by rewrite sat_sub_exact by lia|lia|lia].
  - destruct (proj2 (hi_ends s Hh q)) as [i Hi]; [lia|]. rewrite Hi. simpl.
    pose proof (hi_final s Hh q i Hi). split_and!; [done|lia|]. intros _. by exists i.
Qed.

(** Where the ledger stands after a claim. *)
Lemma ledger_after_claim_first (s : St) (l : AccountLedger) first last :
  stake_wf (AccountLedger.staked l) (AccountLedger.staked_future l) ->
  earliest_staked_era l = Some first -> is_Some (staked_period l) -> 0 <= last < u32_max ->
  earliest_staked_era (ledger_after_claim s l last) = None \/
  earliest_staked_era (ledger_after_claim s l last) = Some (last + 1).
Proof.
  intros Hwf Hfirst [q Hq] Hlast. unfold ledger_after_claim. rewrite Hq.
  destruct (_ && _); [by left|right]. destruct (latest_positive _ first Hwf Hfirst) as [Hlv Hlp].
  unfold claimed, earliest_staked_era. simpl.
  rewrite is_empty_total, total_set_era, (proj2 (Z.eqb_neq _ 0)) by (done || lia). simpl.
  f_equal. ulia.
Qed.

(** The rewards of all eras of a claim are found in its span. *)
Lemma claim_rewards_found (s : St) first last (sp : EraRewardSpan) e :
  EraRewards s !! era_reward_span_index cfg first = Some sp ->
  full_span (current_era s) (era_reward_span_index cfg first) sp -> 0 <= first ->
  first_era sp <= first -> last <= last_era sp ->
  e ∈ seqZ first (last - first + 1) ->
  era_reward_of s e = EraRewardSpan.get sp e /\ is_Some (EraRewardSpan.get sp e).
Proof.
  intros Hsp [Hk Hspwf Hne Hf Hl] Hpos Hfl Hll [He1 He2]%elem_of_seqZ.
  destruct (span_index_facts first ltac:(lia)) as (? & ? & Hkm).
  assert (Hidx : era_reward_span_index cfg first = era_reward_span_index cfg e)
    by (apply span_index_unique; lia || done).
  unfold era_reward_of. rewrite <- Hidx, Hsp. split; [done|].
  apply (EraRewardSpan.get_Some_iff SL sp e Hspwf ltac:(lia)).
  pose proof (EraRewardSpan.wf_last _ _ Hspwf Hne). lia.
Qed.

(** The claim, once its parts are known. *)
Lemma claim_computes (s : St) a q first :
  HInv s -> Inv cfg s -> current_era s < u32_max -> staked_period (ledger_of s a) = Some q ->
  earliest_staked_era (ledger_of s a) = Some first -> current_period s - RR <= q ->
  first < current_era s ->
  (forall i, q < current_period s -> PeriodEnd s !! q = Some i -> first <= final_era i) ->
  let l := ledger_of s a in
  exists last, claim_window s l first last /\
    internal_claim_staker_rewards_for cfg a s =
    (let! w := ok_or (payout_reward (world s) a (claim_sum s l first last))
                 (Module RewardPayoutFailed) in
     let! s1 := update_ledger a (ledger_after_claim s l last) (put_world w s) in
     Ok (foldl (fun s '(era, reward) => deposit_event (Reward a era reward) s) s1
           (paid_shares s l first last))).
Proof.
  intros Hh Hinv Hmax Hq Hfirst Hr Hlt Hfin. cbv zeta.
  destruct (ledger_history s a Hh q first Hq Hfirst) as (Hx1 & Hqp & _ & _).
  destruct (claimable_span s a q first Hh Hq Hfirst Hr Hlt) as (sp & Hsp & Hfull & Hrange).
  destruct (claim_span_known s q Hh Hqp Hr) as (Hcs & Hlast & Hpast).
  pose proof (li_wf _ _ _ _ (ledger_of_inv cfg Hcfg s a Hinv)) as Hwf.
  set (m := Z.min (last_era sp) (last_claimable s q)).
  assert (Hm : first <= m < current_era s).
  { subst m. destruct (Z.eq_dec q (current_period s)) as [Hqe|Hqne].
    - unfold last_claimable. rewrite (proj2 (Z.eqb_eq _ _)) by done. lia.
    - destruct Hpast as (i & Hi & Heq); [lia|]. specialize (Hfin i ltac:(lia) Hi). lia. }
  destruct (claim_up_to_era_ok (ledger_of s a) first m
    (if q =? current_period s then None else Some (last_claimable s q)) (wf_stake _ _ Hwf) Hfirst
    ltac:(lia) ltac:(lia)) as (it & Hclaim & Hit).
  exists m. split; [split; [done|by exists q, sp|done]|].
  unfold internal_claim_staker_rewards_for. cbv zeta. rewrite Hq. cbn [ok_or].
  unfold oldest_claimable_period. rewrite (proj2 (Z.leb_le _ _)) by (unfold current_period in *; ulia).
  rewrite Hfirst. cbn [ok_or]. rewrite Hsp. cbn [ok_or]. rewrite Hcs. cbv beta iota.
  fold m. rewrite Hclaim. cbn [map_err]. rewrite Hit. cbn [ok_or]. unfold owed.
  rewrite (reward_fold s); [|intros e He; apply (claim_rewards_found s first m); subst m; done || lia|ulia].
  cbn [app]. unfold claim_sum, ledger_after_claim. rewrite Hq.
  destruct (Z.eqb_spec q (current_period s)) as [->|Hne].
  - by rewrite Z.ltb_irrefl.
  - by rewrite (proj2 (Z.ltb_lt _ _)) by lia.
Qed.

Lemma nothing_to_claim l first m pe :
  earliest_staked_era l = Some first -> m < first -> claim_up_to_era m pe l = Err NothingToClaim.
Proof.
  intros Hfirst Hlt. unfold claim_up_to_era, earliest_staked_era in *.
  destruct (StakeAmount.is_empty (AccountLedger.staked l)); simpl in *;
    [destruct (AccountLedger.staked_future l)|]; simplify_eq/=;
    by rewrite (proj2 (Z.leb_gt _ _)) by lia.
Qed.

Lemma claim_refused (s : St) a q first :
  HInv s -> staked_period (ledger_of s a) = Some q ->
  earliest_staked_era (ledger_of s a) = Some first -> current_period s - RR <= q ->
  (current_era s <= first \/
   exists i, q < current_period s /\ PeriodEnd s !! q = Some i /\ final_era i < first) ->
  internal_claim_staker_rewards_for cfg a s = Err (Module NoClaimableRewards).
Proof.
  intros Hh Hq Hfirst Hr Hno.
  destruct (ledger_history s a Hh q first Hq Hfirst) as (Hx1 & Hqp & _ & _).
  destruct (claim_span_known s q Hh Hqp Hr) as (Hcs & Hlast & Hpast).
  assert (Hlt : last_claimable s q < first).
  { destruct Hno as [Hge|(i & Hlt & Hi & Hf)]; [lia|]. destruct (Hpast Hlt) as (i' & Hi' & ->).
    by assert (i' = i) as -> by congruence. }
  unfold internal_claim_staker_rewards_for. cbv zeta. rewrite Hq. cbn [ok_or].
  unfold oldest_claimable_period. rewrite (proj2 (Z.leb_le _ _)) by (unfold current_period in *; ulia).
  rewrite Hfirst. cbn [ok_or]. destruct (EraRewards s !! _) as [sp|]; [|done]. cbn [ok_or].
  rewrite Hcs. cbv beta iota. by rewrite (nothing_to_claim _ first) by (done || lia).
Qed.

(** The freeze that goes with the ledger [l']: thawed when it is empty, all
    that is locked otherwise. *)
Definition refreeze (w : W) (a : AccountId) (l' : AccountLedger) : option W :=
  if AccountLedger.is_empty l' then thaw w a else set_freeze w a (total_locked_amount l').

Lemma update_ledger_computes a l' (s : St) :
  update_ledger a l' s =
  (let! w := ok_or (refreeze (world s) a l') CurrencyFailure in
   Ok (put_world w (put_ledger (updated a l' (Ledger s)) s))).
Proof. unfold update_ledger, refreeze, updated. by destruct (AccountLedger.is_empty l'). Qed.

Lemma refreeze_balance w a l' w' b :
  refreeze w a l' = Some w' -> total_balance w' b = total_balance w b.
Proof.
  unfold refreeze. destruct (AccountLedger.is_empty l'); [apply thaw_balance|apply set_freeze_balance].
Qed.

(** C3: in every reachable state a claim of staker rewards covers exactly the
    eras from the account's first unclaimed era to the end of its reward span
    or of its period.  When it succeeds, the new state is the old one with the
    sum of the shares of these eras paid out to the account, the freeze of the
    account renewed in the world after the payout, which changes no balance,
    its ledger moved past the last era claimed, so that no era is paid twice,
    and one event per share.  It is refused only if there is no stake with an
    era that has ended, if the rewards have expired, if the payout of that sum
    is refused, or if the freeze after it is.  Rewards that have not
    expired are never lost to the clean-up of the history, and the loop over
    the eras always ends. *)
Theorem staker_claim_outcome (s : St) (a : AccountId) :
  reachable cfg s -> current_era s < u32_max ->
  let l := ledger_of s a in
  match internal_claim_staker_rewards_for cfg a s with
  | Ok s' =>
      exists first last w w', claim_window s l first last /\
        let l' := ledger_after_claim s l last in
        payout_reward (world s) a (claim_sum s l first last) = Some w /\
        refreeze w a l' = Some w' /\
        s' = foldl (fun s '(era, reward) => deposit_event (Reward a era reward) s)
               (put_world w' (put_ledger (updated a l' (Ledger s)) s))
               (paid_shares s l first last) /\
        world s' = w' /\
        (forall b, total_balance w' b = total_balance w b) /\
        (earliest_staked_era (ledger_of s' a) = None \/
         earliest_staked_era (ledger_of s' a) = Some (last + 1))
  | Err (Module NoClaimableRewards) =>
      forall q first, staked_period l = Some q -> earliest_staked_era l = Some first ->
        current_era s <= first \/
        exists i, q < current_period s /\ PeriodEnd s !! q = Some i /\ final_era i < first
  | Err (Module RewardExpired) => exists q, staked_period l = Some q /\ q < current_period s - RR
  | Err (Module RewardPayoutFailed) =>
      exists first last, claim_window s l first last /\
        payout_reward (world s) a (claim_sum s l first last) = None
  | Err CurrencyFailure =>
      exists first last w, claim_window s l first last /\
        payout_reward (world s) a (claim_sum s l first last) = Some w /\
        refreeze w a (ledger_after_claim s l last) = None
  | Err _ => False
  end.
Proof.
  intros Hr Hmax. cbv zeta. pose proof (reachable_hinv s Hr Hmax) as Hh.
  pose proof (reachable_inv cfg Hcfg s Hr Hmax) as Hinv.
  destruct (staked_period (ledger_of s a)) as [q|] eqn:Hq.
  2: { unfold internal_claim_staker_rewards_for. cbv zeta. rewrite Hq. simpl. by intros ? ? ?. }
  assert (Hfirst : exists first, earliest_staked_era (ledger_of s a) = Some first).
  { unfold staked_period, earliest_staked_era in *. destruct (StakeAmount.is_empty _); [|by eexists].
    destruct (AccountLedger.staked_future _); [by eexists|done]. }
  destruct Hfirst as [first Hfirst].
  destruct (ledger_history s a Hh q first Hq Hfirst) as (Hx1 & Hqp & _).
  destruct (Z.lt_ge_cases q (current_period s - RR)) as [Hexp|Hok].
  { unfold internal_claim_staker_rewards_for. cbv zeta. rewrite Hq. cbn [ok_or].
    unfold oldest_claimable_period.
    rewrite (proj2 (Z.leb_gt _ _)) by (unfold current_period in *; ulia). by exists q. }
  assert (Hcase : (first < current_era s /\
      forall i, q < current_period s -> PeriodEnd s !! q = Some i -> first <= final_era i) \/
    (current_era s <= first \/
     exists i, q < current_period s /\ PeriodEnd s !! q = Some i /\ final_era i < first)).
  { destruct (Z.lt_ge_cases first (current_era s)) as [Hlt|Hge]; [|by right; left].
    destruct (PeriodEnd s !! q) as [i|] eqn:Hi; [|by left].
    destruct (Z.lt_ge_cases (final_era i) first) as [Hf|Hf]; [|left; split; [done|]; by intros ? _ [= <-]].
    right. right. exists i. split_and!; try done. apply (hi_ends s Hh q). by eexists. }
  destruct Hcase as [[Hlt Hfin]|Hno].
  - destruct (claim_computes s a q first Hh Hinv Hmax Hq Hfirst Hok Hlt Hfin) as (last & Hw & ->).
    destruct (payout_reward _ _ _) as [w|] eqn:Hpay; cbn [ok_or]; [|by exists first, last].
    rewrite update_ledger_computes. change (world (put_world w s)) with w.
    destruct (refreeze w a _) as [w'|] eqn:Hre; cbn [ok_or]; [|by exists first, last, w].
    exists first, last, w, w'. split_and!; try done.
    + by rewrite events_world.
    + intros b. by eapply refreeze_balance.
    + unfold ledger_of. rewrite events_ledger. unfold updated. simpl.
      destruct (AccountLedger.is_empty _); [left; by rewrite lookup_delete_eq|].
      rewrite lookup_insert_eq. destruct (window_range _ _ _ _ Hw). apply (ledger_after_claim_first s _ first);
        [exact (wf_stake _ _ (li_wf _ _ _ _ (ledger_of_inv cfg Hcfg s a Hinv)))|done|by eexists|lia].
  - rewrite (claim_refused s a q first) by done. intros ? ? [= <-].
    rewrite Hfirst. by intros [= <-].
Qed.
End history.

(** ** Witness: account 1 of the first run of [ExampleWorld] *)
Section witnesses.
Existing Instance ExactArithmetic.
Existing Instance StableOrder.

Lemma staker_claim_outcome_witness :
  match internal_claim_staker_rewards_for ex_cfg 1 first_state with
  | Ok s' =>
      exists first last w w', claim_window ex_cfg first_state (ledger_of first_state 1) first last /\
        payout_reward (world first_state) 1
          (claim_sum ex_cfg first_state (ledger_of first_state 1) first last) = Some w /\
        refreeze w 1 (ledger_after_claim first_state (ledger_of first_state 1) last) = Some w' /\
        world s' = w' /\ ex_paid (world s') <> ex_paid (world first_state)
  | Err _ => False
  end.
Proof.
  assert (Hpaid : match internal_claim_staker_rewards_for ex_cfg 1 first_state with
    | Ok s' => bool_decide (ex_paid (world s') <> ex_paid (world first_state))
    | Err _ => false end = true) by by vm_compute.
  destruct first_state_reachable as [Hr He]. revert Hr He Hpaid.
  generalize first_state as s. intros s Hr He Hpaid.
  pose proof (staker_claim_outcome ex_cfg ex_cfg_ok s 1 Hr He) as Hout. cbv zeta in Hout.
  destruct (internal_claim_staker_rewards_for ex_cfg 1 s) as [s'|]; [|done].
  destruct Hout as (first & last & w & w' & Hw & Hpay & Hre & _ & Hs & _).
  exists first, last, w, w'. split_and!; try done. by apply bool_decide_eq_true in Hpaid.
Defined.
End witnesses.
