(* ===== verification/Findings.v ===== *)
(** * Reachable states that break what the pallet promises

    Runs of [ExampleWorld] that end in a state which contradicts the pallet's
    own [try_state] checks or the documented meaning of its storage.  Each run
    uses only calls that succeed, from a genesis state, so each state is
    reachable. *)

From S2P Require Import Prelude Frame Primitives StakeAmount EraInfo AccountLedger.
From S2P Require Import SingularStakingInfo ContractStakeAmount EraRewardSpan Tiers Protocol.
From S2P Require Import PalletState DAppStaking TierAssignment EraHandler Invariant Reachability.
From S2P Require Import ExampleWorld TryState.

Section runs.
Existing Instance ExactArithmetic.
Existing Instance StableOrder.

Lemma state_after_reachable acts :
  Forall action_typed acts -> is_Some (run acts ex_start) ->
  current_era (state_after acts) < u32_max -> reachable ex_cfg (state_after acts).
Proof.
  intros Ht [s Hs] Hera. unfold state_after in *. rewrite Hs in *.
  by apply (run_reachable acts ex_start s Ht ex_start_reachable).
Qed.
End runs.

Ltac typed_run :=
  rewrite ?Forall_app; split_and?; try apply blocks_typed;
  repeat constructor; simpl; unfold in_range; lia.
Ltac by_run :=
  apply state_after_reachable; [typed_run|vm_compute; eauto|by vm_compute].

Definition signed_by (a : Z) (c : Call Z) : Action := act_call (Signed a) c.
Definition as_root (c : Call Z) : Action := act_call Root c.

Section found.
Existing Instance ExactArithmetic.
Existing Instance StableOrder.

(** ** A dApp registered again in the period it was unregistered *)

Definition reregister_run : list Action :=
  [as_root (call_register 8 dapp1); signed_by 1 (call_lock 1000);
   signed_by 1 (call_stake dapp1 300);
   as_root (call_unregister dapp1); as_root (call_register 8 dapp1);
   signed_by 2 (call_lock 1000); signed_by 2 (call_stake dapp1 320);
   signed_by 1 (call_unstake dapp1 300)].

(** The staking entries of an unregistered contract survive, and count
    against the new dApp when the contract is registered again: an old entry
    of 300 is unstaked from the new dApp, whose stake falls to 20 although its
    only staker has 320 on it, and the pallet's check of the contract stakes
    fails in a reachable state. *)
Theorem reregistered_dapp_loses_stake :
  let s := state_after reregister_run in
  reachable ex_cfg s /\ try_state_contract_stake ex_cfg s = false /\
  ContractStakeAmount.total_staked_amount (contract_stake_of s 1) 1 = 20 /\
  (SingularStakingInfo.total_staked_amount <$> staker_info s 2 dapp1) = Some 320 /\
  staker_info s 1 dapp1 = None.
Proof. cbv zeta. split; [unfold reregister_run; by_run|]. by vm_compute. Qed.

(** ** Entries removed without being counted *)

Definition three_dapps : list (SmartContract Z) := [Evm 1; Evm 2; Evm 3].

Definition unregistered_run : list Action :=
  [signed_by 1 (call_lock 1000)] ++ ((fun c => as_root (call_register 8 c)) <$> three_dapps)
  ++ ((fun c => signed_by 1 (call_stake c 100)) <$> three_dapps)
  ++ ((fun c => as_root (call_unregister c)) <$> three_dapps)
  ++ ((fun c => signed_by 1 (call_unstake_from_unregistered c)) <$> three_dapps)
  ++ [as_root (call_register 8 (Evm 4))].

(** [unstake_from_unregistered] removes the staking entry but leaves the
    ledger's count of entries as it was: after three such calls an account
    without a single entry is still counted as having the maximum of three,
    and its next stake is refused. *)
Theorem unstake_from_unregistered_keeps_count :
  let s := state_after unregistered_run in
  reachable ex_cfg s /\ stakers_of s 1 = ∅ /\ contract_stake_count (ledger_of s 1) = 3 /\
  dispatch ex_cfg (Signed 1) (call_stake (Evm 4) 100) s = Err (Module TooManyStakedContracts).
Proof. cbv zeta. split; [unfold unregistered_run; by_run|]. by vm_compute. Qed.

(** ** Old entries that are counted again *)

Definition restake_period : list Action :=
  [signed_by 1 (call_stake dapp1 100)] ++ blocks 50 ++
  [signed_by 1 call_claim_staker_rewards; signed_by 1 call_claim_staker_rewards].

Definition restake_run : list Action :=
  [as_root (call_register 8 dapp1); signed_by 1 (call_lock 1000)] ++ blocks 20
  ++ restake_period ++ restake_period ++ restake_period.

(** A stake over an entry of a past period replaces the entry but counts
    it as a new one: an account that stakes on one single contract in the
    build-and-earn subperiods of three periods has one entry and a count of
    three, the maximum, and its next stake on that contract is refused. *)
Theorem restake_counts_entry_again :
  let s := state_after restake_run in
  reachable ex_cfg s /\ size (stakers_of s 1) = 1%nat /\
  contract_stake_count (ledger_of s 1) = 3 /\
  dispatch ex_cfg (Signed 1) (call_stake dapp1 100) s = Err (Module TooManyStakedContracts).
Proof. cbv zeta. split; [unfold restake_run, restake_period; by_run|]. by vm_compute. Qed.

(** ** Unstaking what is not effective yet *)

Definition drain_run : list Action :=
  [as_root (call_register 8 dapp1); signed_by 1 (call_lock 1000); signed_by 2 (call_lock 1000);
   signed_by 3 (call_lock 1000); signed_by 1 (call_stake dapp1 500);
   signed_by 2 (call_stake dapp1 500)] ++ blocks 20 ++
  [signed_by 3 (call_stake dapp1 500); signed_by 3 (call_unstake dapp1 500)] ++ blocks 10 ++
  [signed_by 1 call_claim_staker_rewards; signed_by 2 call_claim_staker_rewards].

(** A stake made and taken back in one era lowers the era's total stake,
    to which it never counted: with 1000 staked in the era by two accounts and
    a third that stakes and unstakes 500, the era is closed with a total of
    500, and the two stakers are paid 1000 each out of a pool of 1000. *)
Theorem transient_stake_inflates_rewards :
  let s := state_after drain_run in
  reachable ex_cfg s /\
  (EraRewards s !! 0) ≫= (fun span => get span 2) = Some (mkEraReward 1000 500 3000) /\
  ex_paid (world s) = [(1, 1000); (2, 1000)].
Proof. cbv zeta. split; [unfold drain_run; by_run|]. by vm_compute. Qed.

(** ** A ledger for an account that has left *)

Definition exit_run : list Action :=
  [as_root (call_register 8 dapp1); signed_by 1 (call_lock 1000);
   signed_by 1 (call_stake dapp1 300)] ++ blocks 50 ++
  [signed_by 1 (call_unlock 1000)] ++ blocks 50 ++
  [signed_by 1 call_claim_unlocked; signed_by 1 call_claim_staker_rewards;
   signed_by 1 call_claim_staker_rewards].

(** An account that has unlocked everything and claimed its rewards has no
    ledger and is no staker; claiming its bonus reward afterwards stores an
    empty ledger for it, so that [is_staker] holds of an account with nothing
    locked. *)
Theorem bonus_claim_revives_ledger :
  let s := state_after exit_run in
  let s' := state_after (exit_run ++ [signed_by 1 (call_claim_bonus_reward dapp1)]) in
  reachable ex_cfg s' /\ is_staker s 1 = false /\ is_staker s' 1 = true /\
  Ledger s' !! 1 = Some AccountLedger.default.
Proof. cbv zeta. split; [unfold exit_run; by_run|]. by vm_compute. Qed.

(** ** History that is half cleaned up *)

Definition cleanup_run : list Action :=
  [as_root (call_register 8 dapp1); signed_by 1 (call_lock 1000);
   signed_by 1 (call_stake dapp1 300)] ++ blocks 160.

(** A pass of the history clean-up can remove a whole reward span while the
    tier assignments of that span's eras, of which it removes one per pass,
    are still stored: the pallet's check that every tier assignment has its
    era reward passes before the pass and fails after it. *)
Theorem cleanup_orphans_tier_assignments :
  let s := state_after cleanup_run in
  let s' := state_after (cleanup_run ++ [act_idle]) in
  reachable ex_cfg s' /\ do_try_state ex_cfg s = true /\ try_state_era_rewards ex_cfg s' = false.
Proof. cbv zeta. split; [unfold cleanup_run; by_run|]. by vm_compute. Qed.
End found.
