(* ===== verification/Inflation.v ===== *)
(** * The inflation pallet

    [pallets/inflation/src/lib.rs]: how much is issued per block, era and
    period, and the cap on it.  The pallet implements the two traits through
    which dApp staking asks for reward pools, pays rewards and announces new
    eras; the instances at the end discharge what the dApp staking theorems
    assume of them. *)

From S2P Require Import Prelude Frame Primitives Invariant.

(** ** Data *)

Record InflationConfiguration := mkInflationConfiguration {
  recalculation_era : Z;
  issuance_safety_cap : Z;
  collator_reward_per_block : Z;
  treasury_reward_per_block : Z;
  dapp_reward_pool_per_era : Z;
  base_staker_reward_pool_per_era : Z;
  adjustable_staker_reward_pool_per_era : Z;
  bonus_reward_pool_per_period : Z;
  config_ideal_staking_rate : Z;
}.

Definition default_inflation_config : InflationConfiguration :=
  mkInflationConfiguration 0 0 0 0 0 0 0 0 0.

Record InflationParameters := mkInflationParameters {
  max_inflation_rate : Z;
  treasury_part : Z;
  collators_part : Z;
  dapps_part : Z;
  base_stakers_part : Z;
  adjustable_stakers_part : Z;
  bonus_part : Z;
  ideal_staking_rate : Z;
}.

(** [Perquintill::from_percent]. *)
Definition percent (n : Z) : Z := n * 10000000000000000.

Definition default_inflation_params : InflationParameters :=
  mkInflationParameters (percent 7) (percent 5) (percent 3) (percent 20) (percent 25)
    (percent 35) (percent 12) (percent 50).

Definition inflation_parts (p : InflationParameters) : list Z :=
  [treasury_part p; collators_part p; dapps_part p; base_stakers_part p;
   adjustable_stakers_part p; bonus_part p].

Definition inflation_params_is_valid `{SpArithmetic} (p : InflationParameters) : bool :=
  bool_decide
    (foldl (fun acc part => match acc with
                            | Some acc => perquintill_checked_add acc part
                            | None => None
                            end) (Some 0) (inflation_parts p) = Some perquintill_one).

Inductive InflationEvent :=
| InflationParametersForceChanged
| InflationConfigurationForceChanged (config : InflationConfiguration)
| ForcedInflationRecalculation (config : InflationConfiguration)
| NewInflationConfiguration (config : InflationConfiguration).

Inductive InflationError := InvalidInflationParameters | InflationBadOrigin.

(** ** Issuing

    [fungible::Balanced] and the handlers of the issued amounts: [issue]
    raises the issuance and yields a credit of the amount, which the runtime's
    [PayoutPerBlock] hands to its beneficiary; [deposit] mints into an
    account, and [None] is its error. *)
Class Minting (AccountId V : Type) := {
  issue : V -> Z -> V * Z;
  deposit : V -> AccountId -> Z -> option V;
  pay_collators : V -> Z -> V;
  pay_treasury : V -> Z -> V;
}.

(** Minting lowers no balance, and a deposit raises the issuance by exactly
    the amount. *)
Class MintingLaws (AccountId V : Type) `{!Currency AccountId V, !Minting AccountId V} : Prop := {
  deposit_balance v a x v' b :
    deposit v a x = Some v' -> total_balance v b <= total_balance v' b;
  deposit_issuance v a x v' :
    deposit v a x = Some v' -> total_issuance v' = total_issuance v + x;
}.

Section pallet.
Context {AccountId Origin V : Type}.
Context `{!SpArithmetic, !Currency AccountId V, !Minting AccountId V}.
Context `{!FrameSystem AccountId Origin V}.
Context (cycle : CycleConfiguration).

(** The pallet's storage, in the runtime around it. *)
Record InflationStorage := mkInflationStorage {
  ActiveInflationConfig : InflationConfiguration;
  InflationParams : InflationParameters;
  DoRecalculation : option Z;
  inflation_events : list InflationEvent;
  outer : V;
}.

Definition put_inflation_config (c : InflationConfiguration) (s : InflationStorage) :=
  mkInflationStorage c (InflationParams s) (DoRecalculation s) (inflation_events s) (outer s).
Definition put_inflation_params (p : InflationParameters) (s : InflationStorage) :=
  mkInflationStorage (ActiveInflationConfig s) p (DoRecalculation s) (inflation_events s) (outer s).
Definition put_recalculation (r : option Z) (s : InflationStorage) :=
  mkInflationStorage (ActiveInflationConfig s) (InflationParams s) r (inflation_events s) (outer s).
Definition put_outer (v : V) (s : InflationStorage) :=
  mkInflationStorage (ActiveInflationConfig s) (InflationParams s) (DoRecalculation s)
    (inflation_events s) v.
Definition inflation_event (e : InflationEvent) (s : InflationStorage) :=
  mkInflationStorage (ActiveInflationConfig s) (InflationParams s) (DoRecalculation s)
    (inflation_events s ++ [e]) (outer s).

(** ** Recalculation *)

Definition recalculate_inflation (next_era : Z) (s : InflationStorage) : InflationConfiguration :=
  let params := InflationParams s in
  let total_issuance := total_issuance (outer s) in
  (* 1 *)
  let max_emission := perquintill_mul (max_inflation_rate params) total_issuance in
  let issuance_safety_cap := sat_add u128_max total_issuance max_emission in
  (* 2 *)
  let treasury_emission := perquintill_mul (treasury_part params) max_emission in
  let collators_emission := perquintill_mul (collators_part params) max_emission in
  let dapps_emission := perquintill_mul (dapps_part params) max_emission in
  let base_stakers_emission := perquintill_mul (base_stakers_part params) max_emission in
  let adjustable_stakers_emission := perquintill_mul (adjustable_stakers_part params) max_emission in
  let bonus_emission := perquintill_mul (bonus_part params) max_emission in
  (* 3 *)
  let blocks_per_cycle := Z.max (blocks_per_cycle cycle) 1 in
  let build_and_earn_eras_per_cycle := Z.max (build_and_earn_eras_per_cycle cycle) 1 in
  let periods_per_cycle := Z.max (periods_per_cycle cycle) 1 in
  mkInflationConfiguration
    (sat_add u32_max next_era (eras_per_cycle cycle))
    issuance_safety_cap
    (sat_div collators_emission blocks_per_cycle)
    (sat_div treasury_emission blocks_per_cycle)
    (sat_div dapps_emission build_and_earn_eras_per_cycle)
    (sat_div base_stakers_emission build_and_earn_eras_per_cycle)
    (sat_div adjustable_stakers_emission build_and_earn_eras_per_cycle)
    (sat_div bonus_emission periods_per_cycle)
    (ideal_staking_rate params).

(** ** Genesis and hooks *)

(** [build]; [None] is its panic.  The parameters are stored after the
    recalculation, which reads them from storage. *)
Definition inflation_build (params : InflationParameters) (s : InflationStorage)
    : option InflationStorage :=
  if inflation_params_is_valid params then
    let config := recalculate_inflation 1 s in
    Some (put_inflation_params params (put_inflation_config config s))
  else None.

(** Storage before genesis: every item has its default. *)
Definition inflation_empty (v : V) : InflationStorage :=
  mkInflationStorage default_inflation_config default_inflation_params None [] v.

(** The return value is the total issued. *)
Definition payout_block_rewards (s : InflationStorage) : InflationStorage * Z :=
  let config := ActiveInflationConfig s in
  let '(v, collator_amount) := issue (outer s) (collator_reward_per_block config) in
  let '(v, treasury_amount) := issue v (treasury_reward_per_block config) in
  let v := pay_collators v collator_amount in
  let v := pay_treasury v treasury_amount in
  (put_outer v s, collator_reward_per_block config + treasury_reward_per_block config).

Definition inflation_on_initialize (s : InflationStorage) : InflationStorage :=
  fst (payout_block_rewards s).

Definition inflation_on_finalize (s : InflationStorage) : InflationStorage :=
  match DoRecalculation s with
  | Some next_era =>
      let config := recalculate_inflation next_era s in
      inflation_event (NewInflationConfiguration config)
        (put_recalculation None (put_inflation_config config s))
  | None => s
  end.

Definition inflation_integrity_test : bool :=
  (0 <? periods_per_cycle cycle) && (0 <? eras_per_voting_subperiod cycle)
  && (0 <? eras_per_build_and_earn_subperiod cycle) && (0 <? blocks_per_era cycle).

(** ** Calls *)

Definition force_set_inflation_params (o : Origin) (params : InflationParameters)
    (s : InflationStorage) : Result InflationStorage InflationError :=
  ensure! ensure_root o else InflationBadOrigin in
  ensure! inflation_params_is_valid params else InvalidInflationParameters in
  Ok (inflation_event InflationParametersForceChanged (put_inflation_params params s)).

Definition force_inflation_recalculation (o : Origin) (next_era : Z) (s : InflationStorage)
    : Result InflationStorage InflationError :=
  ensure! ensure_root o else InflationBadOrigin in
  let config := recalculate_inflation next_era s in
  Ok (inflation_event (ForcedInflationRecalculation config) (put_inflation_config config s)).

(** ** What dApp staking calls *)

Definition is_payout_cap_limit_exceeded (payout : Z) (s : InflationStorage) : bool :=
  let config := ActiveInflationConfig s in
  let new_issuance := sat_add u128_max (total_issuance (outer s)) payout in
  let relaxed_issuance_safety_cap :=
    sat_div (sat_mul u128_max (issuance_safety_cap config) 101) 100 in
  relaxed_issuance_safety_cap <? new_issuance.

Definition inflation_block_before_new_era (s : InflationStorage) (new_era : Z) : InflationStorage :=
  if recalculation_era (ActiveInflationConfig s) <=? new_era
  then put_recalculation (Some new_era) s else s.

Definition inflation_reward_pools (s : InflationStorage) (total_value_staked : Z) : Z * Z :=
  let config := ActiveInflationConfig s in
  let staked_ratio := perquintill_from_rational total_value_staked (total_issuance (outer s)) in
  let adjustment_factor := perquintill_div staked_ratio (config_ideal_staking_rate config) in
  let adjustable_part :=
    perquintill_mul adjustment_factor (adjustable_staker_reward_pool_per_era config) in
  (sat_add u128_max (base_staker_reward_pool_per_era config) adjustable_part,
   dapp_reward_pool_per_era config).

Definition inflation_bonus_reward_pool (s : InflationStorage) : Z :=
  bonus_reward_pool_per_period (ActiveInflationConfig s).

(** A deposit that fails is ignored. *)
Definition inflation_payout_reward (s : InflationStorage) (account : AccountId) (reward : Z)
    : option InflationStorage :=
  if is_payout_cap_limit_exceeded reward s then None
  else Some (match deposit (outer s) account reward with
             | Some v => put_outer v s
             | None => s
             end).
End pallet.

Arguments InflationStorage : clear implicits.
Arguments inflation_empty {V} v.

(** ** The instances dApp staking is configured with *)

Section instances.
Context {AccountId V : Type}.
Context `{!SpArithmetic, !Currency AccountId V, !Minting AccountId V}.

(** The currency of the runtime around the pallet. *)
#[export] Instance InflationCurrency : Currency AccountId (InflationStorage V) := {|
  total_balance s a := total_balance (outer s) a;
  total_issuance s := total_issuance (outer s);
  set_freeze s a x := (fun v => put_outer v s) <$> set_freeze (outer s) a x;
  thaw s a := (fun v => put_outer v s) <$> thaw (outer s) a;
|}.

#[export] Instance InflationObserver : Observer (InflationStorage V) := {|
  block_before_new_era := inflation_block_before_new_era;
|}.

#[export] Instance InflationRewards : StakingRewardHandler AccountId (InflationStorage V) := {|
  staker_and_dapp_reward_pools := inflation_reward_pools;
  Primitives.bonus_reward_pool := inflation_bonus_reward_pool;
  payout_reward := inflation_payout_reward;
|}.

Context `{!CurrencyLaws AccountId V, !MintingLaws AccountId V}.

#[export] Instance InflationCurrency_laws : CurrencyLaws AccountId (InflationStorage V).
Proof.
  split; simpl.
  - intros s a. apply total_balance_nonneg.
  - intros s. apply total_issuance_range.
  - intros s l. apply total_balance_sum.
  - intros s a x s' b (v & Hv & ->)%fmap_Some. by eapply set_freeze_balance.
  - intros s a s' b (v & Hv & ->)%fmap_Some. by eapply thaw_balance.
Qed.

#[export] Instance InflationRewards_laws : RewardHandlerLaws AccountId (InflationStorage V).
Proof.
  split. intros s a x s' b. simpl. unfold inflation_payout_reward.
  destruct (is_payout_cap_limit_exceeded x s); [done|]. intros [= <-].
  destruct (deposit _ _ _) as [v|] eqn:Hd; simpl; [by eapply deposit_balance|lia].
Qed.

#[export] Instance InflationObserver_laws : ObserverLaws AccountId (InflationStorage V).
Proof.
  split. intros s e b. simpl. unfold inflation_block_before_new_era. destruct (_ <=? e); simpl; lia.
Qed.
End instances.

(** ** What the pallet promises *)

(** The most a configuration pays out over one cycle. *)
Definition cycle_emission (cycle : CycleConfiguration) (c : InflationConfiguration) : Z :=
  (collator_reward_per_block c + treasury_reward_per_block c) * Z.max (blocks_per_cycle cycle) 1 +
  (dapp_reward_pool_per_era c + base_staker_reward_pool_per_era c +
   adjustable_staker_reward_pool_per_era c) * Z.max (build_and_earn_eras_per_cycle cycle) 1 +
  bonus_reward_pool_per_period c * Z.max (periods_per_cycle cycle) 1.

Definition inflation_params_typed (p : InflationParameters) : Prop :=
  in_range perquintill_one (max_inflation_rate p) /\
  in_range perquintill_one (ideal_staking_rate p) /\
  Forall (in_range perquintill_one) (inflation_parts p).

Section theorems.
Context {AccountId Origin V : Type}.
Context `{SpArithmeticLaws, !Currency AccountId V, !Minting AccountId V}.
Context `{!FrameSystem AccountId Origin V, !CurrencyLaws AccountId V, !MintingLaws AccountId V}.
Context (cycle : CycleConfiguration).

Lemma checked_sum_exact (l : list Z) (a r : Z) :
  foldl (fun acc part => match acc with
                         | Some acc => perquintill_checked_add acc part
                         | None => None
                         end) (Some a) l = Some r -> r = a + zsum l.
Proof.
  revert a. induction l as [|x l IH]; intros a; simpl; [intros [= ->]; lia|].
  rewrite perquintill_checked_add_spec. unfold checked_add.
  destruct (a + x <=? _); [intros Hr; apply IH in Hr; lia|].
  assert (Hn : foldl (fun acc part => match acc with
                         | Some acc => perquintill_checked_add acc part
                         | None => None
                         end) None l = None) by (clear; by induction l).
  by rewrite Hn.
Qed.

Lemma parts_sum p :
  inflation_params_is_valid p = true -> zsum (inflation_parts p) = perquintill_one.
Proof.
  unfold inflation_params_is_valid. rewrite bool_decide_eq_true. intros Hv.
  apply checked_sum_exact in Hv. lia.
Qed.

(** Floor division per unit never adds up to more than the whole. *)
Lemma per_unit_total x n : 0 <= x -> 0 <= sat_div x (Z.max n 1) * Z.max n 1 <= x.
Proof.
  intros Hx. unfold sat_div. pose proof (Z.mul_div_le x (Z.max n 1) ltac:(lia)).
  pose proof (Z.div_pos x (Z.max n 1) ltac:(lia) ltac:(lia)). nia.
Qed.

(** C12: with valid parameters, everything a recalculated configuration pays
    over a whole cycle, all block, era and period rewards at their maximum,
    adds up to no more than the configured share of the issuance plus 3 units
    of rounding; so issuance cannot pass the safety cap by more than that. *)
Theorem emission_within_cap (next_era : Z) (s : InflationStorage V) :
  inflation_params_typed (InflationParams s) ->
  inflation_params_is_valid (InflationParams s) = true ->
  let c := recalculate_inflation cycle next_era s in
  let max_emission := perquintill_mul (max_inflation_rate (InflationParams s))
                        (total_issuance (outer s)) in
  0 <= cycle_emission cycle c <= max_emission + 3 /\
  (total_issuance (outer s) + max_emission <= u128_max ->
   total_issuance (outer s) + cycle_emission cycle c <= issuance_safety_cap c + 3).
Proof.
  intros (Hrate & _ & Hparts) Hvalid. cbv zeta. pose proof (parts_sum _ Hvalid) as Hsum.
  destruct (InflationParams s) as [rate pt pc pd pb pa pbo ideal] eqn:Hp.
  unfold inflation_parts in *. simpl in *.
  rewrite !Forall_cons in Hparts. destruct Hparts as (H1 & H2 & H3 & H4 & H5 & H6 & _).
  pose proof (total_issuance_range (outer s)) as Hti.
  pose proof (perquintill_mul_bound rate _ Hrate Hti) as HM.
  set (M := perquintill_mul rate (total_issuance (outer s))) in *.
  assert (HMr : in_range u128_max M) by ulia.
  pose proof (perquintill_mul_nearest pt M H1 HMr). pose proof (perquintill_mul_nearest pc M H2 HMr).
  pose proof (perquintill_mul_nearest pd M H3 HMr). pose proof (perquintill_mul_nearest pb M H4 HMr).
  pose proof (perquintill_mul_nearest pa M H5 HMr). pose proof (perquintill_mul_nearest pbo M H6 HMr).
  pose proof (perquintill_mul_bound pt M H1 HMr). pose proof (perquintill_mul_bound pc M H2 HMr).
  pose proof (perquintill_mul_bound pd M H3 HMr). pose proof (perquintill_mul_bound pb M H4 HMr).
  pose proof (perquintill_mul_bound pa M H5 HMr). pose proof (perquintill_mul_bound pbo M H6 HMr).
  assert (Htotal : (pt + (pc + (pd + (pb + (pa + pbo))))) * M = perquintill_one * M)
    by (f_equal; lia).
  unfold recalculate_inflation, cycle_emission. rewrite Hp. cbn -[blocks_per_cycle
    build_and_earn_eras_per_cycle Z.max sat_div]. fold M.
  pose proof (per_unit_total (perquintill_mul pc M) (blocks_per_cycle cycle) ltac:(lia)).
  pose proof (per_unit_total (perquintill_mul pt M) (blocks_per_cycle cycle) ltac:(lia)).
  pose proof (per_unit_total (perquintill_mul pd M) (build_and_earn_eras_per_cycle cycle) ltac:(lia)).
  pose proof (per_unit_total (perquintill_mul pb M) (build_and_earn_eras_per_cycle cycle) ltac:(lia)).
  pose proof (per_unit_total (perquintill_mul pa M) (build_and_earn_eras_per_cycle cycle) ltac:(lia)).
  pose proof (per_unit_total (perquintill_mul pbo M) (periods_per_cycle cycle) ltac:(lia)).
  rewrite !Z.mul_add_distr_r in *. split; [lia|]. intros Hmax. rewrite sat_add_exact by done. lia.
Qed.

(** A payout is made only if the issuance it leads to stays within 101% of
    the safety cap, and a payout that is made raises the issuance by the
    reward or leaves it as it is; one that would go above is refused and
    changes nothing. *)
Theorem payout_respects_cap (s s' : InflationStorage V) (a : AccountId) (x : Z) :
  0 <= x -> issuance_safety_cap (ActiveInflationConfig s) * 101 <= u128_max ->
  (inflation_payout_reward s a x = Some s' ->
   100 * (total_issuance (outer s) + x) <= 101 * issuance_safety_cap (ActiveInflationConfig s) /\
   (total_issuance (outer s') = total_issuance (outer s) + x \/ s' = s)) /\
  (inflation_payout_reward s a x = None ->
   101 * issuance_safety_cap (ActiveInflationConfig s) < 100 * (total_issuance (outer s) + x)).
Proof.
  intros Hx Hcap. unfold inflation_payout_reward, is_payout_cap_limit_exceeded.
  pose proof (total_issuance_range (outer s)) as Hti. unfold in_range in Hti.
  rewrite (sat_mul_exact u128_max) by lia. unfold sat_div.
  set (cap := issuance_safety_cap (ActiveInflationConfig s)) in *.
  pose proof (Z.div_mod (cap * 101) 100 ltac:(lia)). pose proof (Z.mod_pos_bound (cap * 101) 100 ltac:(lia)).
  assert (cap * 101 / 100 <= u128_max) by (apply Z.div_le_upper_bound; lia).
  destruct (_ <? _) eqn:Hexc; split; try done.
  - intros _. ulia.
  - intros [= <-]. split; [ulia|]. destruct (deposit _ _ _) as [v|] eqn:Hd; [left|by right].
    simpl. by eapply deposit_issuance.
Qed.

(** When a new era is announced that is not before the recalculation era,
    the end of the block installs the configuration recalculated for it and
    schedules the next recalculation one cycle of eras later; every era
    announced before that changes nothing, so there is exactly one
    recalculation per cycle. *)
Theorem recalculation_once_per_cycle (s : InflationStorage V) (e e' : Z) :
  DoRecalculation s = None -> 0 <= e -> e + eras_per_cycle cycle <= u32_max ->
  recalculation_era (ActiveInflationConfig s) <= e ->
  let s' := inflation_on_finalize cycle (inflation_block_before_new_era s e) in
  ActiveInflationConfig s' = recalculate_inflation cycle e s /\ DoRecalculation s' = None /\
  outer s' = outer s /\ recalculation_era (ActiveInflationConfig s') = e + eras_per_cycle cycle /\
  (e' < e + eras_per_cycle cycle ->
   inflation_on_finalize cycle (inflation_block_before_new_era s' e') = s').
Proof.
  intros Hnone He Hmax Hdue. cbv zeta. unfold inflation_block_before_new_era at 1.
  rewrite (proj2 (Z.leb_le _ _) Hdue). unfold inflation_on_finalize at 1. cbn [DoRecalculation put_recalculation].
  set (c := recalculate_inflation cycle e _). assert (Hc : c = recalculate_inflation cycle e s) by done.
  assert (Hera : recalculation_era c = e + eras_per_cycle cycle)
    by (unfold c, recalculate_inflation; cbn [recalculation_era]; by apply sat_add_exact).
  unfold inflation_block_before_new_era, inflation_on_finalize. rewrite (proj2 (Z.leb_le _ _) Hdue).
  cbn [DoRecalculation put_recalculation]. fold c. split_and!; try done.
  intros Hlt. cbn [ActiveInflationConfig inflation_event put_recalculation put_inflation_config].
  by rewrite (proj2 (Z.leb_gt _ _)) by lia.
Qed.

(** The staker pool of an era lies between the base pool and the base pool
    plus the adjustable pool, whatever amount is staked, and the dApp pool is
    the configured one. *)
Theorem reward_pools_bounded (s : InflationStorage V) (staked : Z) :
  let c := ActiveInflationConfig s in
  in_range u128_max (base_staker_reward_pool_per_era c) ->
  in_range u128_max (adjustable_staker_reward_pool_per_era c) ->
  let '(stakers, dapps) := inflation_reward_pools s staked in
  base_staker_reward_pool_per_era c <= stakers <=
    base_staker_reward_pool_per_era c + adjustable_staker_reward_pool_per_era c /\
  in_range u128_max stakers /\ dapps = dapp_reward_pool_per_era c.
Proof.
  intros c Hb Ha. unfold inflation_reward_pools. fold c.
  pose proof (perquintill_mul_bound
    (perquintill_div (perquintill_from_rational staked (total_issuance (outer s)))
       (config_ideal_staking_rate c)) _ (perquintill_div_range _ _) Ha) as Hm.
  split_and!; ulia.
Qed.
End theorems.

(** ** One economy, to evaluate the pallet in

    One account holds everything that was issued. *)
Definition economy_issuance (v : Z) : Z := Z.max 0 (Z.min v u128_max).

#[export] Instance EconomyCurrency : Currency Z Z := {|
  total_balance v a := if a =? 0 then economy_issuance v else 0;
  total_issuance := economy_issuance;
  set_freeze v a x := Some v;
  thaw v a := Some v;
|}.

#[export] Instance EconomyMinting : Minting Z Z := {|
  issue v x := (v + x, x);
  deposit v a x :=
    if (a =? 0) && (0 <=? x) && (economy_issuance v + x <=? u128_max)
    then Some (economy_issuance v + x) else None;
  pay_collators v x := v;
  pay_treasury v x := v;
|}.

#[export] Instance EconomyCurrency_laws : CurrencyLaws Z Z.
Proof.
  split; simpl; unfold economy_issuance, in_range; try (intros; lia); try (by intros; simplify_eq).
  - intros v a. destruct (_ =? _); lia.
  - intros v l Hnd. induction Hnd as [|a l Ha Hnd IH]; [unfold zsum; simpl; lia|].
    rewrite fmap_cons. unfold zsum in *. simpl.
    destruct (a =? 0) eqn:Ha0; [|lia]. apply Z.eqb_eq in Ha0 as ->.
    assert (Hz : foldr Z.add 0 ((fun a => if a =? 0 then Z.max 0 (Z.min v u128_max) else 0) <$> l) = 0).
    { clear IH. induction l as [|b l IH]; [done|]. rewrite fmap_cons. simpl.
      rewrite (proj2 (Z.eqb_neq b 0)) by (intros ->; apply Ha; by left).
      rewrite IH; [done| |by inversion Hnd]. intros Hin. apply Ha. by right. }
    rewrite Hz. lia.
Qed.

#[export] Instance EconomyMinting_laws : MintingLaws Z Z.
Proof.
  split; simpl; intros v a x v'; [intros b|];
    destruct (a =? 0) eqn:?; simpl; try done; destruct (0 <=? x) eqn:?; simpl; try done;
    destruct (_ <=? u128_max) eqn:?; try done; intros [= <-]; unfold economy_issuance in *;
    [destruct (b =? 0)|]; lia.
Qed.

Section witnesses.
Existing Instance ExactArithmetic.
Existing Instance ExactArithmetic_laws.

Definition example_cycle : CycleConfiguration := Build_CycleConfiguration 2 5 20 100.
Definition example_economy : InflationStorage Z := inflation_empty 1000000000.

Lemma default_params_typed : inflation_params_typed default_inflation_params.
Proof.
  split; [|split; [|repeat apply Forall_cons_2; [..|done]]]; vm_compute; split; congruence.
Qed.

Lemma emission_within_cap_witness :
  issuance_safety_cap (recalculate_inflation example_cycle 1 example_economy) = 1070000000 /\
  0 <= cycle_emission example_cycle (recalculate_inflation example_cycle 1 example_economy)
    <= 70000000 + 3.
Proof.
  split; [by vm_compute|].
  exact (proj1 (emission_within_cap example_cycle 1 example_economy default_params_typed
    ltac:(by vm_compute))).
Defined.

(** [build] at work: the state after genesis with the default parameters. *)
Definition example_inflation : InflationStorage Z :=
  put_inflation_config (recalculate_inflation example_cycle 1 example_economy) example_economy.

Lemma payout_respects_cap_witness :
  inflation_payout_reward example_inflation 0 80700001 = None /\
  101 * 1070000000 < 100 * (1000000000 + 80700001).
Proof.
  assert (Hn : inflation_payout_reward example_inflation 0 80700001 = None) by by vm_compute.
  split; [done|].
  apply (proj2 (payout_respects_cap example_inflation example_inflation 0 80700001
    ltac:(lia) ltac:(vm_compute; congruence)) Hn).
Defined.

Lemma recalculation_once_per_cycle_witness :
  let s' := inflation_on_finalize example_cycle
              (inflation_block_before_new_era example_inflation 43) in
  recalculation_era (ActiveInflationConfig example_inflation) = 43 /\
  recalculation_era (ActiveInflationConfig s') = 43 + 42.
Proof.
  split; [by vm_compute|].
  apply (recalculation_once_per_cycle example_cycle example_inflation 43 44);
    vm_compute; congruence.
Defined.

Lemma reward_pools_bounded_witness :
  inflation_reward_pools example_inflation 250000000 =
    (base_staker_reward_pool_per_era (ActiveInflationConfig example_inflation) + 306250, 350000) /\
  in_range u128_max (fst (inflation_reward_pools example_inflation 250000000)).
Proof.
  split; [by vm_compute|].
  apply (reward_pools_bounded example_inflation 250000000); vm_compute; split; congruence.
Defined.

(** Parameters with the highest possible inflation rate. *)
Definition generous_params : InflationParameters :=
  mkInflationParameters (percent 100) (percent 5) (percent 3) (percent 20) (percent 25)
    (percent 35) (percent 12) (percent 50).

(** The genesis build recalculates the inflation before it stores the
    parameters it was given, so the first cycle runs on the default rate of 7%
    whatever rate is configured. *)
Theorem genesis_ignores_params :
  exists s, inflation_build example_cycle generous_params example_economy = Some s /\
    InflationParams s = generous_params /\
    issuance_safety_cap (ActiveInflationConfig s) = 1070000000 /\
    issuance_safety_cap (recalculate_inflation example_cycle 1 s) = 2000000000.
Proof. eexists. split; [by vm_compute|]. by vm_compute. Qed.
End witnesses.
