(* ===== verification/PriceAggregator.v ===== *)
(** * The price aggregator pallet

    [pallets/price-aggregator/src/lib.rs]: the oracle values of a block become
    one value, the values of an aggregation period one average, and the
    averages a moving average kept in a circular buffer.  The pallet is the
    [PriceProvider] from which dApp staking computes its tiers.  The last part is its constant
    stand-in, [pallets/static-price-provider/src/lib.rs]. *)

From S2P Require Import Prelude Frame Primitives.

Section aggregator.
Context `{SpArithmetic}.

(** ** Processing the values of one block *)

Inductive ProcessError := NoValues.

(** [iter().fold(0, saturating_add)] over fixed-point values. *)
Definition fixed_sum (values : list Z) : Z := foldl fixed_saturating_add 0 values.

Definition average_of (values : list Z) : Z :=
  fixed_saturating_mul (fixed_sum values) (fixed_from_rational 1 (Z.of_nat (length values))).

(** [AverageBlockValue::process]. *)
Definition process_average (values : list Z) : Result Z ProcessError :=
  if bool_decide (values = []) then Err NoValues else Ok (average_of values).

(** [MedianBlockValue::process]; an index out of range would be a panic, and
    is zero here. *)
Definition value_at (values : list Z) (i : nat) : Z :=
  match values !! i with Some v => v | None => 0 end.

Definition process_median (values : list Z) : Result Z ProcessError :=
  if bool_decide (values = []) then Err NoValues
  else
    let sorted_values := merge_sort Z.le values in
    let mid := (length sorted_values / 2)%nat in
    if (length sorted_values mod 2 =? 0)%nat then
      Ok (fixed_saturating_mul
            (fixed_saturating_add (value_at sorted_values (mid - 1)) (value_at sorted_values mid))
            (fixed_from_rational 1 2))
    else Ok (value_at sorted_values mid).

(** ** [ValueAggregator] *)

Record ValueAggregator := mkValueAggregator {
  agg_total : Z;
  agg_count : Z;
  limit_block : Z;
}.

Definition aggregator_new (limit_block : Z) : ValueAggregator := mkValueAggregator 0 0 limit_block.

Inductive AggregatorError := TotalOverflow | CountOverflow.

Definition try_add (value : Z) (a : ValueAggregator) : Result ValueAggregator AggregatorError :=
  let! total := ok_or (fixed_checked_add (agg_total a) value) TotalOverflow in
  let! count := ok_or (checked_add u32_max (agg_count a) 1) CountOverflow in
  Ok (mkValueAggregator total count (limit_block a)).

Definition aggregator_average (a : ValueAggregator) : Z :=
  if agg_count a =? 0 then 0
  else fixed_saturating_mul (agg_total a) (fixed_from_rational 1 (agg_count a)).

(** ** [CircularBuffer] *)

Record CircularBuffer := mkCircularBuffer {
  buffer : list Z;
  head : Z;
}.

Definition buffer_default : CircularBuffer := mkCircularBuffer [] 0.

Definition buffer_add (L value : Z) (c : CircularBuffer) : CircularBuffer :=
  if (L <=? head c) || (Z.of_nat (length (buffer c)) <? head c) then c
  else
    let b :=
      if head c <? Z.of_nat (length (buffer c))
      then <[Z.to_nat (head c) := value]> (buffer c)
      else match try_push L (buffer c) value with Some b => b | None => buffer c end in
    mkCircularBuffer b (sat_add u32_max (head c) 1 mod L).

Definition buffer_average (c : CircularBuffer) : Z :=
  if bool_decide (buffer c = []) then 0 else average_of (buffer c).

(** ** The pallet *)

Record PriceConfig := mkPriceConfig {
  MaxValuesPerBlock : Z;
  ProcessBlockValues : list Z -> Result Z ProcessError;
  NativeCurrencyId : Z;
  CircularBufferLength : Z;
  AggregationDuration : Z;
}.

Inductive PriceEvent := AverageAggregatedValue (value : Z).

Record PriceStorage := mkPriceStorage {
  CurrentBlockValues : list Z;
  IntermediateValueAggregator : ValueAggregator;
  ValuesCircularBuffer : CircularBuffer;
  price_events : list PriceEvent;
}.

Context (cfg : PriceConfig).

Definition price_build (circular_buffer : list Z) : PriceStorage :=
  mkPriceStorage [] (mkValueAggregator 0 0 (saturated_into u32_max (AggregationDuration cfg)))
    (mkCircularBuffer circular_buffer
       (Z.of_nat (length circular_buffer) mod CircularBufferLength cfg)) [].

Definition price_integrity_test : bool :=
  (0 <? MaxValuesPerBlock cfg) && (0 <? CircularBufferLength cfg)
  && negb (AggregationDuration cfg =? 0).

(** The oracle reports a value; one too many in a block is dropped. *)
Definition on_new_data (key value : Z) (s : PriceStorage) : PriceStorage :=
  if negb (NativeCurrencyId cfg =? key) then s
  else
    match try_push (MaxValuesPerBlock cfg) (CurrentBlockValues s) value with
    | Some vs =>
        mkPriceStorage vs (IntermediateValueAggregator s) (ValuesCircularBuffer s) (price_events s)
    | None => s
    end.

Definition process_block_aggregated_values (s : PriceStorage) : PriceStorage :=
  let accumulated_values := CurrentBlockValues s in
  let s := mkPriceStorage [] (IntermediateValueAggregator s) (ValuesCircularBuffer s) (price_events s) in
  match ProcessBlockValues cfg accumulated_values with
  | Err _ => s
  | Ok processed_value =>
      match try_add processed_value (IntermediateValueAggregator s) with
      | Ok new_aggregator =>
          mkPriceStorage (CurrentBlockValues s) new_aggregator (ValuesCircularBuffer s) (price_events s)
      | Err _ => s
      end
  end.

Definition process_intermediate_aggregated_values (now : Z) (s : PriceStorage) : PriceStorage :=
  let average_value := aggregator_average (IntermediateValueAggregator s) in
  let s := mkPriceStorage (CurrentBlockValues s)
             (aggregator_new (sat_add u32_max now (AggregationDuration cfg)))
             (ValuesCircularBuffer s) (price_events s) in
  if average_value =? 0 then s
  else
    mkPriceStorage (CurrentBlockValues s) (IntermediateValueAggregator s)
      (buffer_add (CircularBufferLength cfg) average_value (ValuesCircularBuffer s))
      (price_events s ++ [AverageAggregatedValue average_value]).

Definition price_on_finalize (now : Z) (s : PriceStorage) : PriceStorage :=
  let s := process_block_aggregated_values s in
  if limit_block (IntermediateValueAggregator s) <=? saturated_into u32_max now
  then process_intermediate_aggregated_values now s else s.

(** [PriceProvider::average_price]. *)
Definition aggregated_price (s : PriceStorage) : Z := buffer_average (ValuesCircularBuffer s).
End aggregator.

#[export] Instance AggregatedPrice `{SpArithmetic} : PriceProvider PriceStorage :=
  {| average_price := aggregated_price |}.

(** ** The circular buffer holds the last values *)

(** What the buffer stands for: its values, oldest first. *)
Definition buffered (c : CircularBuffer) : list Z :=
  drop (Z.to_nat (head c)) (buffer c) ++ take (Z.to_nat (head c)) (buffer c).

(** The last [n] elements of a list. *)
Definition last_n {A} (n : nat) (l : list A) : list A := drop (length l - n) l.

Record buffer_wf (L : Z) (c : CircularBuffer) : Prop := {
  bw_length : Z.of_nat (length (buffer c)) <= L;
  bw_head : 0 <= head c < L;
  bw_filling : Z.of_nat (length (buffer c)) < L -> head c = Z.of_nat (length (buffer c));
}.

Lemma last_n_short {A} n (l : list A) : (length l <= n)%nat -> last_n n l = l.
Proof. intros Hl. unfold last_n. by replace (length l - n)%nat with 0%nat by lia. Qed.

Lemma rotated_length (b : list Z) h : length (drop h b ++ take h b) = length b.
Proof. rewrite length_app, length_drop, length_take. lia. Qed.

Lemma buffer_add_step L v c :
  0 < L <= u32_max -> buffer_wf L c ->
  buffer_wf L (buffer_add L v c) /\
  buffered (buffer_add L v c) = last_n (Z.to_nat L) (buffered c ++ [v]).
Proof.
  intros HL [Hlen Hhead Hfill]. unfold buffer_add, buffered.
  destruct c as [b h]. cbn [buffer head] in *.
  destruct (Z.eq_dec (Z.of_nat (length b)) L) as [Hfull|Hroom].
  - rewrite (proj2 (Z.leb_gt _ _)), (proj2 (Z.ltb_ge _ h)), (proj2 (Z.ltb_lt h _)) by lia.
    cbn [orb buffer head]. rewrite sat_add_exact by lia.
    assert (Hn : (Z.to_nat h < length b)%nat) by lia.
    assert (Hrhs : last_n (Z.to_nat L) ((drop (Z.to_nat h) b ++ take (Z.to_nat h) b) ++ [v]) =
      drop (S (Z.to_nat h)) b ++ take (Z.to_nat h) b ++ [v]).
    { unfold last_n. rewrite length_app, rotated_length. cbn [length].
      replace (length b + 1 - Z.to_nat L)%nat with 1%nat by lia.
      destruct (drop (Z.to_nat h) b) as [|x r] eqn:Hd.
      - apply (f_equal length) in Hd. rewrite length_drop in Hd. simpl in Hd. lia.
      - rewrite <- app_assoc. simpl. f_equal. change r with (drop 1 (x :: r)).
        rewrite <- Hd, drop_drop, drop_0. by rewrite Nat.add_1_r. }
    rewrite Hrhs, insert_take_drop by done.
    destruct (Z.eq_dec (h + 1) L) as [He|Hne].
    + rewrite He, Z_mod_same_full. split.
      * split; simpl; rewrite ?length_app, ?length_take; simpl; rewrite ?length_drop; lia.
      * rewrite (drop_ge b (S (Z.to_nat h))) by lia. change (Z.to_nat 0) with 0%nat.
        by rewrite drop_0, take_0, app_nil_r.
    + rewrite Z.mod_small by lia. split.
      * split; simpl; rewrite ?length_app, ?length_take; simpl; rewrite ?length_drop; lia.
      * replace (Z.to_nat (h + 1)) with (length (take (Z.to_nat h) b ++ [v])).
        2: { rewrite length_app, length_take. simpl. lia. }
        replace (take (Z.to_nat h) b ++ v :: drop (S (Z.to_nat h)) b) with
          ((take (Z.to_nat h) b ++ [v]) ++ drop (S (Z.to_nat h)) b) by by rewrite <- app_assoc.
        by rewrite drop_app_length, take_app_length.
  - specialize (Hfill ltac:(lia)). subst h.
    rewrite (proj2 (Z.leb_gt _ _)), !(proj2 (Z.ltb_ge _ _)) by lia. cbn [orb].
    unfold try_push. rewrite (proj2 (Z.ltb_lt _ L)) by lia. cbn [buffer head].
    rewrite Nat2Z.id, drop_all, firstn_all, app_nil_l.
    rewrite last_n_short by (rewrite length_app; simpl; lia).
    rewrite sat_add_exact by lia. destruct (Z.eq_dec (Z.of_nat (length b) + 1) L) as [He|Hne].
    + rewrite He, Z_mod_same_full. change (Z.to_nat 0) with 0%nat. rewrite drop_0, take_0, app_nil_r.
      split; [|done]. split; simpl; rewrite ?length_app; simpl; lia.
    + rewrite Z.mod_small by lia. split; [split; simpl; rewrite ?length_app; simpl; lia|].
      rewrite drop_ge, take_ge by (rewrite length_app; simpl; lia). done.
Qed.

(** The history after adding the values [vs], oldest first. *)
Definition buffer_adds (L : Z) (vs : list Z) (c : CircularBuffer) : CircularBuffer :=
  foldl (fun c v => buffer_add L v c) c vs.

Lemma last_n_app {A} n (l k : list A) : last_n n (last_n n l ++ k) = last_n n (l ++ k).
Proof.
  unfold last_n. rewrite !length_app, length_drop.
  destruct (decide (length l <= n)%nat) as [Hle|Hgt].
  - replace (length l - n)%nat with 0%nat by lia. rewrite drop_0. f_equal. lia.
  - replace (length l - (length l - n) + length k - n)%nat with (length k) by lia.
    replace (length l + length k - n)%nat with (length l - n + length k)%nat by lia.
    by rewrite <- drop_drop, (drop_app_le l k (length l - n)) by lia.
Qed.

(** C14: the circular buffer implements a sliding window: from an empty buffer,
    after any number of additions it is well-formed and holds, oldest first
    from its head on, exactly the last [L] values that were added. *)
Theorem circular_buffer_window (L : Z) (vs : list Z) :
  0 < L <= u32_max ->
  buffer_wf L (buffer_adds L vs buffer_default) /\
  buffered (buffer_adds L vs buffer_default) = last_n (Z.to_nat L) vs.
Proof.
  intros HL. induction vs as [|v vs IH] using rev_ind.
  - split; [by split; simpl; lia|]. done.
  - unfold buffer_adds in *. rewrite foldl_app. simpl. destruct IH as [Hwf Hb].
    destruct (buffer_add_step L v _ HL Hwf) as [Hwf' Hb']. split; [done|].
    rewrite Hb', Hb. apply last_n_app.
Qed.

Lemma circular_buffer_window_witness :
  buffer (buffer_adds 3 [1; 2; 3; 4; 5] buffer_default) = [4; 5; 3] /\
  buffered (buffer_adds 3 [1; 2; 3; 4; 5] buffer_default) = [3; 4; 5].
Proof.
  split; [done|]. apply (circular_buffer_window 3 [1; 2; 3; 4; 5]). lia.
Defined.

(** ** The median is robust *)

Section median.
Context `{SpArithmeticLaws}.

Abbreviation within lo hi := (fun v => lo <= v <= hi).

Lemma filter_none {A} (P : A -> Prop) `{forall x, Decision (P x)} l :
  (forall x, x ∈ l -> ~ P x) -> filter P l = [].
Proof.
  induction l as [|x l IH]; intros Hl; [done|].
  rewrite filter_cons_False by (apply Hl; by left). apply IH. intros y Hy. apply Hl. by right.
Qed.

(** How many elements of a sorted list lie in an interval bounds its [i]-th
    element. *)
Lemma sorted_bounds (l : list Z) (i : nat) x lo hi :
  StronglySorted Z.le l -> l !! i = Some x ->
  (length l - S i < length (filter (within lo hi) l))%nat ->
  (i < length (filter (within lo hi) l))%nat -> lo <= x <= hi.
Proof.
  intros Hs Hx H1 H2. pose proof (take_drop_middle l i x Hx) as Hl.
  rewrite <- Hl in Hs. apply StronglySorted_app in Hs as (Hcross & _ & Hs).
  apply StronglySorted_inv in Hs as [_ Hafter]. rewrite Forall_forall in Hafter.
  assert (Hi : (i < length l)%nat) by by eapply lookup_lt_Some.
  assert (Hf : length (filter (within lo hi) l) =
    (length (filter (within lo hi) (take i l)) +
     length (filter (within lo hi) (x :: drop (S i) l)))%nat)
    by (rewrite <- length_app, <- filter_app, Hl; done).
  rewrite Hf in H1, H2. clear Hf.
  split; apply Z.nlt_ge; intros Hlt.
  - assert (Hnone : filter (within lo hi) (take i l) = []).
    { apply filter_none. intros v Hv Hw. specialize (Hcross v x Hv ltac:(by left)). lia. }
    rewrite Hnone, filter_cons_False in H1 by lia.
    pose proof (length_filter (within lo hi) (drop (S i) l)) as Hd. rewrite length_drop in Hd.
    simpl in H1. lia.
  - assert (Hnone : filter (within lo hi) (drop (S i) l) = []).
    { apply filter_none. intros v Hv Hw. specialize (Hafter v Hv). lia. }
    rewrite filter_cons_False, Hnone in H2 by lia.
    pose proof (length_filter (within lo hi) (take i l)) as Hd. rewrite length_take in Hd.
    simpl in H2. lia.
Qed.

(** The median of a block's values cannot be moved by a minority: if more
    than half of the values lie between [lo] and [hi], so does the processed
    value, for odd and even numbers of values. *)
Theorem median_robust (values : list Z) (lo hi : Z) :
  Forall (fun v => 0 <= 2 * v <= u128_max) values ->
  (length values < 2 * length (filter (within lo hi) values))%nat ->
  exists m, process_median values = Ok m /\ lo <= m <= hi.
Proof.
  intros Hr Hmaj. unfold process_median.
  assert (Hne : values <> []) by (intros ->; simpl in Hmaj; lia).
  rewrite bool_decide_eq_false_2 by done.
  pose proof (merge_sort_Permutation Z.le values) as Hp.
  pose proof (StronglySorted_merge_sort Z.le values) as Hs.
  set (l := merge_sort Z.le values) in *. clearbody l.
  assert (Hlen : length l = length values) by by apply Permutation_length.
  assert (Hcount : length (filter (within lo hi) l) = length (filter (within lo hi) values))
    by (apply Permutation_length; by rewrite Hp).
  rewrite <- Hlen, <- Hcount in Hmaj.
  assert (Hpos : (0 < length l)%nat) by (destruct values; [done|simpl in Hlen; lia]).
  pose proof (Nat.div_mod (length l) 2 ltac:(lia)) as Hdm.
  pose proof (Nat.mod_upper_bound (length l) 2 ltac:(lia)) as Hmb.
  assert (Hat : forall i, (i < length l)%nat -> (length l - S i < length (filter (within lo hi) l))%nat ->
    (i < length (filter (within lo hi) l))%nat ->
    lo <= value_at l i <= hi /\ 0 <= 2 * value_at l i <= u128_max).
  { intros i Hi H1 H2. unfold value_at. destruct (lookup_lt_is_Some_2 l i Hi) as [x Hx]. rewrite Hx.
    split; [by apply (sorted_bounds l i x)|]. rewrite Forall_forall in Hr. apply Hr.
    rewrite <- Hp. by eapply list_elem_of_lookup_2. }
  destruct (_ =? 0)%nat eqn:Hev.
  - apply Nat.eqb_eq in Hev. eexists. split; [done|].
    destruct (Hat (length l / 2 - 1)%nat ltac:(lia) ltac:(lia) ltac:(lia)) as [Ha Har].
    destruct (Hat (length l / 2)%nat ltac:(lia) ltac:(lia) ltac:(lia)) as [Hb Hbr].
    rewrite fixed_saturating_add_spec, sat_add_exact by lia.
    pose proof (fixed_saturating_mul_half (value_at l (length l / 2 - 1) + value_at l (length l / 2))
      ltac:(unfold in_range; lia)). lia.
  - apply Nat.eqb_neq in Hev. eexists. split; [done|]. apply Hat; lia.
Qed.
End median.

Lemma median_robust_witness :
  @process_median ExactArithmetic [100; 7000000; 102; 99; 0; 101] = Ok 100 /\
  exists m, @process_median ExactArithmetic [100; 7000000; 102; 99; 0; 101] = Ok m /\ 99 <= m <= 102.
Proof.
  split; [by vm_compute|].
  apply (@median_robust ExactArithmetic ExactArithmetic_laws).
  - repeat (apply Forall_cons_2; [lia|]). apply Forall_nil_2.
  - vm_compute. lia.
Defined.

(** * The static price provider pallet

    [pallets/static-price-provider/src/lib.rs]: a price of the native currency
    that only the root can set, the [PriceProvider] of networks without an
    oracle. *)

(** [BadOrigin] is the error of [ensure_root]. *)
Inductive StaticPriceError := PriceBadOrigin | ZeroPrice.

Inductive StaticPriceEvent := PriceSet (price : Z).

Record StaticPriceStorage := mkStaticPriceStorage {
  ActivePrice : option Z;
  static_price_events : list StaticPriceEvent;
}.

Section static_price.
Context {AccountId Origin W : Type} `{!SpArithmetic, !FrameSystem AccountId Origin W}.

Definition DefaultActivePrice : Z := fixed_from_rational 1 10.

(** [PriceProvider::average_price]. *)
Definition static_average_price (s : StaticPriceStorage) : Z :=
  default DefaultActivePrice (ActivePrice s).

Definition force_set_price (origin : Origin) (price : Z) (s : StaticPriceStorage) :
    Result StaticPriceStorage StaticPriceError :=
  ensure! ensure_root (W := W) origin else PriceBadOrigin in
  ensure! negb (price =? 0) else ZeroPrice in
  Ok (mkStaticPriceStorage (Some price) (static_price_events s ++ [PriceSet price])).

Inductive static_price_reachable : StaticPriceStorage -> Prop :=
| static_price_genesis : static_price_reachable (mkStaticPriceStorage None [])
| static_price_set o price s s' :
    static_price_reachable s -> in_range u128_max price ->
    force_set_price o price s = Ok s' -> static_price_reachable s'.

(** The price is a positive [FixedU128] at all times, so the number of tier
    slots is never computed from a zero price. *)
Theorem static_price_positive (s : StaticPriceStorage) :
  0 < DefaultActivePrice <= u128_max -> static_price_reachable s ->
  0 < static_average_price s <= u128_max.
Proof.
  intros Hd. induction 1 as [|o price s s' _ _ Hp Hs]; [done|].
  unfold force_set_price in Hs. destruct (ensure_root o); [|done].
  destruct (price =? 0) eqn:Hz; [done|]. simplify_eq/=.
  unfold static_average_price, in_range in *. simpl. lia.
Qed.
End static_price.

#[export] Instance StaticPrice `{SpArithmetic} : PriceProvider StaticPriceStorage :=
  {| average_price := static_average_price |}.
