(* ===== verification/DynamicEvmBaseFee.v ===== *)
(** * The dynamic EVM base fee pallet

    [pallets/dynamic-evm-base-fee/src/lib.rs]: the gas price of the EVM follows
    the fee multiplier of native transactions, by at most a fixed ratio per
    block and within configured limits.  The multiplier belongs to the
    transaction payment pallet, so it is read from the state outside. *)

From S2P Require Import Prelude Frame.

Abbreviation u256_max :=
  115792089237316195423570985008687907853269984665640564039457584007913129639935.

(** [Config::AdjustmentFactor], a [FixedU128] by its inner value. *)
Class AdjustmentFactor (W : Type) := {
  adjustment_factor : W -> Z;
}.

(** ** Configuration and storage *)

Record FeeConfig := mkFeeConfig {
  DefaultBaseFeePerGas : Z;
  MinBaseFeePerGas : Z;
  MaxBaseFeePerGas : Z;
  WeightFactor : Z;
  StepLimitRatio : Z;
}.

Inductive FeeEvent := NewBaseFeePerGas (fee : Z).

(** [BadOrigin] is the error of [ensure_root]. *)
Inductive FeeError := FeeBadOrigin | ValueOutOfBounds.

Definition fee_integrity_test (c : FeeConfig) : bool :=
  (MinBaseFeePerGas c <=? MaxBaseFeePerGas c)
  && (MinBaseFeePerGas c <=? DefaultBaseFeePerGas c)
  && (DefaultBaseFeePerGas c <=? MaxBaseFeePerGas c)
  && (MaxBaseFeePerGas c <=? u128_max).

(** [Ord::clamp], which panics on an empty interval. *)
Definition clamp (x lo hi : Z) : option Z :=
  if lo <=? hi then Some (Z.min hi (Z.max lo x)) else None.

Record FeeStorage (W : Type) := mkFeeStorage {
  BaseFeePerGas : option Z;
  fee_events : list FeeEvent;
  fee_world : W;
}.
Arguments mkFeeStorage {W}.
Arguments BaseFeePerGas {W}.
Arguments fee_events {W}.
Arguments fee_world {W}.

Section fee.
Context {AccountId Origin W : Type}.
Context `{!SpArithmetic, !FrameSystem AccountId Origin W, !AdjustmentFactor W}.
Context (cfg : FeeConfig).

Abbreviation St := (FeeStorage W).

(** [BaseFeePerGas::get()] of a [ValueQuery] with a default. *)
Definition base_fee (s : St) : Z := default (DefaultBaseFeePerGas cfg) (BaseFeePerGas s).

(** [max_step] of [on_finalize]. *)
Definition fee_max_step (old_bfpg : Z) : Z :=
  perquintill_mul (StepLimitRatio cfg) (saturated_into u128_max old_bfpg).

(** [lower_limit] and [upper_limit] of [on_finalize]. *)
Definition fee_limits (old_bfpg : Z) : Z * Z :=
  let max_step := fee_max_step old_bfpg in
  let apply_configured_bounds :=
    (MinBaseFeePerGas cfg <=? old_bfpg) && (old_bfpg <=? MaxBaseFeePerGas cfg) in
  if apply_configured_bounds
  then (Z.max (MinBaseFeePerGas cfg) (sat_sub old_bfpg max_step),
        Z.min (MaxBaseFeePerGas cfg) (sat_add u256_max old_bfpg max_step))
  else (sat_sub old_bfpg max_step, sat_add u256_max old_bfpg max_step).

(** [ideal_new_bfpg] of [on_finalize]. *)
Definition ideal_base_fee (w : W) : Z :=
  sat_div
    (sat_mul u128_max
       (fixed_saturating_mul_int u128_max (adjustment_factor w) (WeightFactor cfg)) 25) 98974.

(** [on_finalize]; [None] is a panic. *)
Definition fee_on_finalize (s : St) : option St :=
  let old_bfpg := base_fee s in
  let '(lower_limit, upper_limit) := fee_limits old_bfpg in
  new_bfpg ← clamp (ideal_base_fee (fee_world s)) lower_limit upper_limit;
  Some (mkFeeStorage (Some new_bfpg) (fee_events s) (fee_world s)).

Definition set_base_fee_per_gas (origin : Origin) (fee : Z) (s : St) : Result St FeeError :=
  ensure! ensure_root (W := W) origin else FeeBadOrigin in
  ensure! (MinBaseFeePerGas cfg <=? fee) && (fee <=? MaxBaseFeePerGas cfg) else ValueOutOfBounds in
  Ok (mkFeeStorage (Some fee) (fee_events s ++ [NewBaseFeePerGas fee]) (fee_world s)).

(** [FeeCalculator::min_gas_price]. *)
Definition min_gas_price (s : St) : Z := base_fee s.

(** ** Executions

    A block ends, the root sets the fee, or the world outside, the multiplier
    included, changes. *)
Inductive fee_step : St -> St -> Prop :=
| fee_step_block s s' : fee_on_finalize s = Some s' -> fee_step s s'
| fee_step_set o fee s s' : set_base_fee_per_gas o fee s = Ok s' -> fee_step s s'
| fee_step_world w s : fee_step s (mkFeeStorage (BaseFeePerGas s) (fee_events s) w).

Inductive fee_reachable : St -> Prop :=
| fee_reachable_genesis w : fee_reachable (mkFeeStorage None [] w)
| fee_reachable_step s s' : fee_reachable s -> fee_step s s' -> fee_reachable s'.

(** [n] blocks in a row. *)
Fixpoint fee_blocks (n : nat) (s : St) : option St :=
  match n with O => Some s | S n => fee_on_finalize s ≫= fee_blocks n end.

(** ** One block *)

Section laws.
Context `{!SpArithmeticLaws}.
Context (Htest : fee_integrity_test cfg = true).
Context (Hmin : 0 <= MinBaseFeePerGas cfg).
Context (Hratio : in_range perquintill_one (StepLimitRatio cfg)).

Lemma fee_config :
  MinBaseFeePerGas cfg <= DefaultBaseFeePerGas cfg <= MaxBaseFeePerGas cfg /\
  MaxBaseFeePerGas cfg <= u128_max.
Proof. unfold fee_integrity_test in Htest. lia. Qed.

Lemma fee_max_step_range old : 0 <= old -> 0 <= fee_max_step old <= old.
Proof.
  intros Ho. unfold fee_max_step, saturated_into.
  pose proof (perquintill_mul_bound _ (Z.min u128_max old) Hratio). unfold in_range in *. lia.
Qed.

(** What the limits of a block are. *)
Lemma fee_limits_spec old lo hi :
  in_range u256_max old -> fee_limits old = (lo, hi) ->
  0 <= lo <= old /\ old <= hi <= u256_max /\
  old - lo <= fee_max_step old /\ hi - old <= fee_max_step old /\
  (MinBaseFeePerGas cfg <= old <= MaxBaseFeePerGas cfg ->
   lo = Z.max (MinBaseFeePerGas cfg) (old - fee_max_step old) /\
   hi = Z.min (MaxBaseFeePerGas cfg) (old + fee_max_step old)).
Proof.
  unfold in_range. intros Ho Hl. pose proof fee_config. pose proof (fee_max_step_range old).
  unfold fee_limits in Hl. cbv zeta in Hl. destruct (_ && _) eqn:Hb;
    injection Hl as <- <-; unfold sat_sub, sat_add in *; lia.
Qed.

Lemma fee_block_spec s :
  in_range u256_max (base_fee s) ->
  exists s', fee_on_finalize s = Some s' /\ fee_world s' = fee_world s /\
    fee_events s' = fee_events s /\
    base_fee s' = Z.min (snd (fee_limits (base_fee s)))
                    (Z.max (fst (fee_limits (base_fee s))) (ideal_base_fee (fee_world s))).
Proof.
  intros Ho. unfold fee_on_finalize. destruct (fee_limits (base_fee s)) as [lo hi] eqn:Hl.
  destruct (fee_limits_spec _ _ _ Ho Hl) as (Hlo & Hhi & _).
  unfold clamp. rewrite (proj2 (Z.leb_le lo hi)) by lia. by eexists.
Qed.

(** The end of a block never panics; it moves the base fee by at most the
    step limit, towards the ideal value of the formula and never past it, and
    a fee within the configured limits stays within them.  If the ideal value
    is within a step and within the limits, it is reached. *)
Theorem base_fee_step (s : St) :
  in_range u256_max (base_fee s) ->
  let old := base_fee s in let ideal := ideal_base_fee (fee_world s) in
  exists s', fee_on_finalize s = Some s' /\
    let new := base_fee s' in
    Z.abs (new - old) <= fee_max_step old /\
    (old <= ideal -> old <= new <= ideal) /\ (ideal <= old -> ideal <= new <= old) /\
    (MinBaseFeePerGas cfg <= old <= MaxBaseFeePerGas cfg ->
       MinBaseFeePerGas cfg <= new <= MaxBaseFeePerGas cfg /\
       (MinBaseFeePerGas cfg <= ideal <= MaxBaseFeePerGas cfg ->
        Z.abs (ideal - old) <= fee_max_step old -> new = ideal)).
Proof.
  intros Ho. cbv zeta. destruct (fee_block_spec s Ho) as (s' & Hs & _ & _ & Hn).
  exists s'. split; [done|]. rewrite Hn.
  destruct (fee_limits (base_fee s)) as [lo hi] eqn:Hl.
  destruct (fee_limits_spec _ _ _ Ho Hl) as (Hlo & Hhi & Hd1 & Hd2 & Hb).
  pose proof (fee_max_step_range (base_fee s)). simpl. repeat split; lia.
Qed.

(** ** Reachable states *)

Lemma base_fee_bounded s :
  fee_reachable s -> MinBaseFeePerGas cfg <= base_fee s <= MaxBaseFeePerGas cfg.
Proof.
  pose proof fee_config as Hc. induction 1 as [w|s s' _ IH Hst]; [unfold base_fee; simpl; lia|].
  destruct Hst as [s s' Hf|o fee s s' Hf|w s].
  - assert (Ho : in_range u256_max (base_fee s)) by (unfold in_range; lia).
    destruct (fee_block_spec s Ho) as (s'' & Hs & _ & _ & Hn). simplify_eq. rewrite Hn.
    destruct (fee_limits (base_fee s)) as [lo hi] eqn:Hl.
    destruct (fee_limits_spec _ _ _ Ho Hl) as (Hlo & Hhi & _ & _ & Hb). simpl. lia.
  - unfold set_base_fee_per_gas in Hf. destruct (ensure_root o); [|done].
    destruct (_ && _) eqn:Hr; [|done]. simplify_eq. unfold base_fee. simpl. lia.
  - exact IH.
Qed.

(** ** Convergence *)

(** The fee the pallet aims at. *)
Definition target_fee (w : W) : Z :=
  Z.min (MaxBaseFeePerGas cfg) (Z.max (MinBaseFeePerGas cfg) (ideal_base_fee w)).

Lemma fee_block_progress s :
  perquintill_one <= StepLimitRatio cfg * MinBaseFeePerGas cfg ->
  MinBaseFeePerGas cfg <= base_fee s <= MaxBaseFeePerGas cfg ->
  exists s', fee_on_finalize s = Some s' /\ fee_world s' = fee_world s /\
    MinBaseFeePerGas cfg <= base_fee s' <= MaxBaseFeePerGas cfg /\
    Z.abs (target_fee (fee_world s) - base_fee s')
      <= Z.max 0 (Z.abs (target_fee (fee_world s) - base_fee s) - 1).
Proof.
  intros Hm Hb. pose proof fee_config as Hc.
  assert (Ho : in_range u256_max (base_fee s)) by (unfold in_range; lia).
  assert (Hstep : 1 <= fee_max_step (base_fee s)).
  { assert (Ho' : in_range u128_max (base_fee s)) by (unfold in_range; lia).
    unfold fee_max_step, saturated_into. rewrite Z.min_r by lia.
    pose proof (perquintill_mul_nearest _ _ Hratio Ho').
    pose proof (perquintill_mul_bound _ _ Hratio Ho').
    assert (perquintill_one <= StepLimitRatio cfg * base_fee s)
      by (unfold in_range in Hratio; nia). lia. }
  destruct (fee_block_spec s Ho) as (s' & Hs & Hw & _ & Hn).
  exists s'. split; [done|]. split; [done|]. rewrite Hn. unfold target_fee.
  destruct (fee_limits (base_fee s)) as [lo hi] eqn:Hl.
  destruct (fee_limits_spec _ _ _ Ho Hl) as (_ & _ & _ & _ & Hb'). simpl. lia.
Qed.

(** C20: in every reachable state the base fee lies within the configured
    limits; and if the step limit is at least one unit at the lower limit, then
    with an unchanged multiplier the fee settles: after as many blocks as it is
    away from the ideal value, brought within the limits, it is that value, and
    it stays there. *)
Theorem base_fee_settles (s : St) (n : nat) :
  fee_reachable s ->
  perquintill_one <= StepLimitRatio cfg * MinBaseFeePerGas cfg ->
  MinBaseFeePerGas cfg <= min_gas_price s <= MaxBaseFeePerGas cfg /\
  (Z.abs (target_fee (fee_world s) - min_gas_price s) <= Z.of_nat n ->
   exists s', fee_blocks n s = Some s' /\ min_gas_price s' = target_fee (fee_world s)).
Proof.
  intros Hr Hm. pose proof (base_fee_bounded s Hr) as Hb. split; [done|]. clear Hr.
  unfold min_gas_price in *. revert s Hb. induction n as [|n IH]; intros s Hb Hd.
  - exists s. split; [done|]. lia.
  - destruct (fee_block_progress s Hm Hb) as (s1 & Hs & Hw & Hb1 & Hp). simpl. rewrite Hs. simpl.
    rewrite <- Hw in *. apply IH; [done|]. lia.
Qed.
End laws.
End fee.

(** ** Witnesses: the configuration of the Astar runtime *)

Definition astar_fee_config : FeeConfig :=
  mkFeeConfig 1470000000000 800000000000 80000000000000 30855000000000000 93000000000000.

(** The world is the multiplier itself. *)
Definition FixedFactor (f : Z) : AdjustmentFactor unit := {| adjustment_factor _ := f |}.
Definition RootSystem : FrameSystem Z bool unit :=
  {| block_number _ := 0; ensure_signed _ := None; ensure_root o := o; ensure_signed_or_root _ := None |}.

(** With a multiplier of one the fee of the Astar runtime leaves its default
    upwards by the whole step. *)
Lemma base_fee_step_witness :
  let A := ExactArithmetic in let F := FixedFactor fixed_div in
  let s := mkFeeStorage None [] tt in
  in_range u256_max (base_fee astar_fee_config s) /\
  fee_on_finalize astar_fee_config s = Some (mkFeeStorage (Some 1470136710000) [] tt) /\
  exists s', fee_on_finalize astar_fee_config s = Some s' /\
    Z.abs (base_fee astar_fee_config s' - 1470000000000) <= 136710000.
Proof.
  intros A F s. assert (Hr : in_range u256_max (base_fee astar_fee_config s))
    by (unfold base_fee; simpl; unfold in_range; lia).
  split; [exact Hr|]. split; [by vm_compute|].
  destruct (@base_fee_step unit A F astar_fee_config ExactArithmetic_laws
    eq_refl ltac:(simpl; lia) ltac:(unfold in_range; simpl; lia) s Hr)
    as (s' & Hs & Hd & _).
  exists s'. split; [exact Hs|]. exact Hd.
Defined.

(** A fee of 100 with an ideal value of 200 and steps of a tenth. *)
Lemma base_fee_settles_witness :
  let A := ExactArithmetic in let F := FixedFactor fixed_div in let R := RootSystem in
  let cfg := mkFeeConfig 100 10 1000 791792 100000000000000000 in
  let s := mkFeeStorage None [] tt in
  fee_blocks cfg 8 s = Some (mkFeeStorage (Some 200) [] tt) /\
  exists s', fee_blocks cfg 100 s = Some s' /\ min_gas_price cfg s' = 200.
Proof.
  intros A F R cfg s. split; [by vm_compute|].
  destruct (@base_fee_settles Z bool unit A R F cfg ExactArithmetic_laws
    eq_refl ltac:(simpl; lia) ltac:(unfold in_range; simpl; lia) s 100%nat
    (fee_reachable_genesis cfg tt) ltac:(simpl; lia)) as [_ Hs].
  apply Hs. vm_compute. done.
Defined.
