(* ===== verification/CollatorSelection.v ===== *)
(** * The collator selection pallet

    [pallets/collator-selection/src/lib.rs]: candidates bond a deposit, the
    collators of a session are the invulnerables and the candidates, a
    candidate that stops producing blocks is kicked and slashed, and one that
    leaves gets its deposit back after the next session change.  Reserving
    funds, the session pallet and the enumeration order of a hashed map are
    outside the repository. *)

From S2P Require Import Prelude Frame.

(** ** What the pallet is configured with *)

(** [ValidatorIdOf], [ValidatorRegistration] and [ValidatorSet]. *)
Class ValidatorSet (AccountId ValidatorId W : Type) := {
  validator_id_of : AccountId -> option ValidatorId;
  is_registered : W -> ValidatorId -> bool;
  session_index : W -> Z;
}.

(** The order in which [LastAuthoredBlock::iter] enumerates the map. *)
Class AuthoredOrder (AccountId : Type) `{Countable AccountId} := {
  authored_iter : gmap AccountId Z -> list (AccountId * Z);
}.

Class UpdateOrigin (Origin : Type) := {
  update_origin : Origin -> bool;
}.

(** Reserving, releasing and slashing change the reserve of one account by the
    amount asked for, as far as there is one; released funds become free.
    Depositing and transferring leave the reserves alone, and none of it moves
    the session or the block. *)
Class ReservableCurrencyLaws (AccountId ValidatorId Origin W : Type) `{Countable AccountId}
    `{!ReservableCurrency AccountId W, !ValidatorSet AccountId ValidatorId W}
    `{!FrameSystem AccountId Origin W} : Prop := {
  reserved_balance_range w a : in_range u128_max (reserved_balance w a);
  reserve_reserved w a x w' b :
    reserve w a x = Some w' ->
    reserved_balance w' b = reserved_balance w b + (if decide (b = a) then x else 0);
  unreserve_reserved w a x b :
    0 <= x -> reserved_balance (unreserve w a x) b =
    reserved_balance w b - (if decide (b = a) then Z.min x (reserved_balance w a) else 0);
  unreserve_free w a x b :
    0 <= x -> free_balance (unreserve w a x) b =
    free_balance w b + (if decide (b = a) then Z.min x (reserved_balance w a) else 0);
  slash_reserved_reserved w a x b :
    0 <= x -> reserved_balance (fst (slash_reserved w a x)) b =
    reserved_balance w b - (if decide (b = a) then Z.min x (reserved_balance w a) else 0);
  slash_reserved_free w a x b :
    0 <= x -> free_balance (fst (slash_reserved w a x)) b = free_balance w b;
  slash_reserved_amount w a x :
    0 <= x -> snd (slash_reserved w a x) = Z.min x (reserved_balance w a);
  resolve_creating_reserved w a x b :
    reserved_balance (resolve_creating w a x) b = reserved_balance w b;
  resolve_creating_free w a x b :
    b <> a -> free_balance (resolve_creating w a x) b = free_balance w b;
  transfer_reserved w a b x w' c :
    transfer_keep_alive w a b x = Some w' -> reserved_balance w' c = reserved_balance w c;
  unreserve_session w a x : session_index (unreserve w a x) = session_index w;
  slash_reserved_session w a x : session_index (fst (slash_reserved w a x)) = session_index w;
  resolve_creating_session w a x : session_index (resolve_creating w a x) = session_index w;
}.

Class AuthoredOrderLaws (AccountId : Type) `{AuthoredOrder AccountId} : Prop := {
  authored_iter_perm m : authored_iter m ≡ₚ map_to_list m;
}.

(** ** Data *)

Record CollatorConfig (AccountId : Type) := mkCollatorConfig {
  PotAccount : AccountId;
  MaxCandidates : Z;
  MinCandidates : Z;
  MaxInvulnerables : Z;
  KickThreshold : Z;
  SlashRatio : Z;
}.
Arguments mkCollatorConfig {AccountId}.
Arguments PotAccount {AccountId}.
Arguments MaxCandidates {AccountId}.
Arguments MinCandidates {AccountId}.
Arguments MaxInvulnerables {AccountId}.
Arguments KickThreshold {AccountId}.
Arguments SlashRatio {AccountId}.

Record CandidateInfo (AccountId : Type) := mkCandidateInfo {
  who : AccountId;
  deposit : Z;
}.
Arguments mkCandidateInfo {AccountId}.
Arguments who {AccountId}.
Arguments deposit {AccountId}.

#[export] Instance CandidateInfo_eq_dec `{EqDecision AccountId} : EqDecision (CandidateInfo AccountId).
Proof. solve_decision. Defined.

Inductive CollatorEvent (AccountId : Type) :=
| NewInvulnerables (new : list AccountId)
| NewDesiredCandidates (max : Z)
| NewCandidacyBond (bond : Z)
| CandidateAdded (a : AccountId) (deposit : Z)
| CandidateRemoved (a : AccountId)
| CandidateSlashed (a : AccountId).
Arguments NewInvulnerables {AccountId}.
Arguments NewDesiredCandidates {AccountId}.
Arguments NewCandidacyBond {AccountId}.
Arguments CandidateAdded {AccountId}.
Arguments CandidateRemoved {AccountId}.
Arguments CandidateSlashed {AccountId}.

(** The errors of the pallet, of its origin checks and of the currency. *)
Inductive CollatorError :=
| TooManyCandidates
| TooFewCandidates
| Unknown
| Permission
| AlreadyCandidate
| NotCandidate
| AlreadyInvulnerable
| NoAssociatedValidatorId
| ValidatorNotRegistered
| NotAllowedCandidate
| BondStillLocked
| NoCandidacyBond
| CollatorBadOrigin
| ReserveFailed.

Record CollatorStorage (AccountId W : Type) `{Countable AccountId} := mkCollatorStorage {
  Invulnerables : list AccountId;
  Candidates : list (CandidateInfo AccountId);
  NonCandidates : gmap AccountId (Z * Z);
  LastAuthoredBlock : gmap AccountId Z;
  DesiredCandidates : Z;
  CandidacyBond : Z;
  SlashDestination : option AccountId;
  collator_events : list (CollatorEvent AccountId);
  collator_world : W;
}.
Arguments mkCollatorStorage {AccountId W EqDecision0 H}.
Arguments Invulnerables {AccountId W EqDecision0 H}.
Arguments Candidates {AccountId W EqDecision0 H}.
Arguments NonCandidates {AccountId W EqDecision0 H}.
Arguments LastAuthoredBlock {AccountId W EqDecision0 H}.
Arguments DesiredCandidates {AccountId W EqDecision0 H}.
Arguments CandidacyBond {AccountId W EqDecision0 H}.
Arguments SlashDestination {AccountId W EqDecision0 H}.
Arguments collator_events {AccountId W EqDecision0 H}.
Arguments collator_world {AccountId W EqDecision0 H}.

Section storage_updates.
Context {AccountId W : Type} `{Countable AccountId}.
Abbreviation St := (CollatorStorage AccountId W).

Definition put_invulnerables (x : list AccountId) (s : St) : St :=
  mkCollatorStorage x (Candidates s) (NonCandidates s) (LastAuthoredBlock s) (DesiredCandidates s)
    (CandidacyBond s) (SlashDestination s) (collator_events s) (collator_world s).
Definition put_candidates (x : list (CandidateInfo AccountId)) (s : St) : St :=
  mkCollatorStorage (Invulnerables s) x (NonCandidates s) (LastAuthoredBlock s)
    (DesiredCandidates s) (CandidacyBond s) (SlashDestination s) (collator_events s)
    (collator_world s).
Definition put_non_candidates (x : gmap AccountId (Z * Z)) (s : St) : St :=
  mkCollatorStorage (Invulnerables s) (Candidates s) x (LastAuthoredBlock s)
    (DesiredCandidates s) (CandidacyBond s) (SlashDestination s) (collator_events s)
    (collator_world s).
Definition put_authored (x : gmap AccountId Z) (s : St) : St :=
  mkCollatorStorage (Invulnerables s) (Candidates s) (NonCandidates s) x
    (DesiredCandidates s) (CandidacyBond s) (SlashDestination s) (collator_events s)
    (collator_world s).
Definition put_desired (x : Z) (s : St) : St :=
  mkCollatorStorage (Invulnerables s) (Candidates s) (NonCandidates s) (LastAuthoredBlock s) x
    (CandidacyBond s) (SlashDestination s) (collator_events s) (collator_world s).
Definition put_bond (x : Z) (s : St) : St :=
  mkCollatorStorage (Invulnerables s) (Candidates s) (NonCandidates s) (LastAuthoredBlock s)
    (DesiredCandidates s) x (SlashDestination s) (collator_events s) (collator_world s).
Definition put_slash_destination (x : option AccountId) (s : St) : St :=
  mkCollatorStorage (Invulnerables s) (Candidates s) (NonCandidates s) (LastAuthoredBlock s)
    (DesiredCandidates s) (CandidacyBond s) x (collator_events s) (collator_world s).
Definition collator_event (e : CollatorEvent AccountId) (s : St) : St :=
  mkCollatorStorage (Invulnerables s) (Candidates s) (NonCandidates s) (LastAuthoredBlock s)
    (DesiredCandidates s) (CandidacyBond s) (SlashDestination s) (collator_events s ++ [e])
    (collator_world s).
Definition put_collator_world (w : W) (s : St) : St :=
  mkCollatorStorage (Invulnerables s) (Candidates s) (NonCandidates s) (LastAuthoredBlock s)
    (DesiredCandidates s) (CandidacyBond s) (SlashDestination s) (collator_events s) w.
End storage_updates.

(** ** Operations *)

Section collators.
Context {AccountId ValidatorId Origin W : Type} `{Countable AccountId}.
Context `{!SpArithmetic, !FrameSystem AccountId Origin W, !ReservableCurrency AccountId W}.
Context `{!ValidatorSet AccountId ValidatorId W, !AuthoredOrder AccountId, !UpdateOrigin Origin}.
Context (cfg : CollatorConfig AccountId).

Abbreviation St := (CollatorStorage AccountId W).
Abbreviation Outcome := (Result St CollatorError).

(** [x as u32] of a length. *)
Definition len_u32 {A} (l : list A) : Z := Z.of_nat (length l) mod 4294967296.

(** [GenesisConfig::build]; [None] is a failed assertion. *)
Definition collator_build (invulnerables : list AccountId) (candidacy_bond desired_candidates : Z)
    (w : W) : option St :=
  if bool_decide (NoDup invulnerables) && (len_u32 invulnerables <=? MaxInvulnerables cfg)
     && (desired_candidates <=? MaxCandidates cfg)
  then Some (mkCollatorStorage invulnerables [] ∅ ∅ desired_candidates candidacy_bond None [] w)
  else None.

(** Whether an account has session keys. *)
Definition check_registered (w : W) (a : AccountId) : Result unit CollatorError :=
  let! validator_key := ok_or (validator_id_of (ValidatorSet := ValidatorSet0) a)
                          NoAssociatedValidatorId in
  ensure! is_registered w validator_key else ValidatorNotRegistered in
  Ok tt.

Fixpoint check_all_registered (w : W) (new : list AccountId) : Result unit CollatorError :=
  match new with
  | [] => Ok tt
  | a :: new => let! _ := check_registered w a in check_all_registered w new
  end.

Definition set_invulnerables (origin : Origin) (new : list AccountId) (s : St) : Outcome :=
  ensure! update_origin origin else CollatorBadOrigin in
  let! _ := check_all_registered (collator_world s) new in
  Ok (collator_event (NewInvulnerables new) (put_invulnerables new s)).

Definition set_desired_candidates (origin : Origin) (max : Z) (s : St) : Outcome :=
  ensure! update_origin origin else CollatorBadOrigin in
  Ok (collator_event (NewDesiredCandidates max) (put_desired max s)).

Definition set_candidacy_bond (origin : Origin) (bond : Z) (s : St) : Outcome :=
  ensure! update_origin origin else CollatorBadOrigin in
  Ok (collator_event (NewCandidacyBond bond) (put_bond bond s)).

Definition set_slash_destination (origin : Origin) (destination : option AccountId) (s : St)
    : Outcome :=
  ensure! update_origin origin else CollatorBadOrigin in
  Ok (put_slash_destination destination s).

Definition is_account_candidate (s : St) (account : AccountId) : bool :=
  existsb (fun c => bool_decide (who c = account)) (Candidates s).

(** The bond of an account that has left is released once it is unlocked. *)
Definition release_bond (a : AccountId) (d : Z) (s : St) : St :=
  put_collator_world (unreserve (collator_world s) a d)
    (put_non_candidates (delete a (NonCandidates s)) s).

(** The part of [register_as_candidate] before the new deposit is reserved. *)
Definition take_unlocked_bond (a : AccountId) (s : St) : Outcome :=
  match NonCandidates s !! a with
  | Some (index, d) =>
      ensure! (index <=? session_index (collator_world s)) else BondStillLocked in
      Ok (release_bond a d s)
  | None => Ok s
  end.

Definition signed_by (origin : Origin) : Result AccountId CollatorError :=
  ok_or (ensure_signed (W := W) origin) CollatorBadOrigin.

(** [allowed_candidacy] is [Config::AccountCheck]. *)
Definition register_as_candidate (allowed_candidacy : AccountId -> bool) (origin : Origin)
    (s : St) : Outcome :=
  let! a := signed_by origin in
  ensure! (len_u32 (Candidates s) <? DesiredCandidates s) else TooManyCandidates in
  ensure! negb (bool_decide (a ∈ Invulnerables s)) else AlreadyInvulnerable in
  ensure! allowed_candidacy a else NotAllowedCandidate in
  let! _ := check_registered (collator_world s) a in
  let! s := take_unlocked_bond a s in
  let d := CandidacyBond s in
  ensure! negb (is_account_candidate s a) else AlreadyCandidate in
  let! w := ok_or (reserve (collator_world s) a d) ReserveFailed in
  let s := put_candidates (Candidates s ++ [mkCandidateInfo a d]) (put_collator_world w s) in
  let s := put_authored
    (<[a := (block_number w + KickThreshold cfg) mod 4294967296]> (LastAuthoredBlock s)) s in
  Ok (collator_event (CandidateAdded a d) s).

Definition try_remove_candidate (a : AccountId) (s : St) : Outcome :=
  match list_find (fun c => who c = a) (Candidates s) with
  | None => Err NotCandidate
  | Some (index, candidate) =>
      let unlocked_at := sat_add u32_max (session_index (collator_world s)) 1 in
      Ok (collator_event (CandidateRemoved a)
            (put_non_candidates (<[a := (unlocked_at, deposit candidate)]> (NonCandidates s))
               (put_candidates (delete index (Candidates s)) s)))
  end.

Definition leave_intent (origin : Origin) (s : St) : Outcome :=
  let! a := signed_by origin in
  ensure! (MinCandidates cfg <? len_u32 (Candidates s)) else TooFewCandidates in
  try_remove_candidate a s.

Definition withdraw_bond (origin : Origin) (s : St) : Outcome :=
  let! a := signed_by origin in
  match NonCandidates s !! a with
  | Some (index, d) =>
      ensure! (index <=? session_index (collator_world s)) else BondStillLocked in
      Ok (put_authored (delete a (LastAuthoredBlock s)) (release_bond a d s))
  | None => Err NoCandidacyBond
  end.

Definition slash_non_candidate (a : AccountId) (s : St) : St :=
  match NonCandidates s !! a with
  | Some (_, d) =>
      let slash := perbill_mul (SlashRatio cfg) d in
      let remain := sat_sub d slash in
      let '(w, imbalance) := slash_reserved (collator_world s) a slash in
      let w := unreserve w a remain in
      let w := match SlashDestination s with
               | Some dest => resolve_creating w dest imbalance
               | None => w
               end in
      collator_event (CandidateSlashed a)
        (put_authored (delete a (LastAuthoredBlock s))
           (put_collator_world w (put_non_candidates (delete a (NonCandidates s)) s)))
  | None => s
  end.

Definition assemble_collators (s : St) (candidates : list AccountId) : list AccountId :=
  Invulnerables s ++ candidates.

(** One round of the loop of [kick_stale_candidates]. *)
Definition kick_if_stale (now : Z) (s : St) (entry : AccountId * Z) : St :=
  let '(a, last_authored) := entry in
  if sat_sub now last_authored <? KickThreshold cfg then s
  else if is_account_candidate s a then
    if MinCandidates cfg <? Z.of_nat (length (Candidates s)) then
      let s := match try_remove_candidate a s with Ok s => s | Err _ => s end in
      slash_non_candidate a s
    else s
  else
    match NonCandidates s !! a with
    | Some (locked_until, _) =>
        if locked_until <? session_index (collator_world s)
        then put_authored (delete a (LastAuthoredBlock s)) s
        else slash_non_candidate a s
    | None => s
    end.

Definition kick_stale_candidates (s : St) : St * (Z * Z) :=
  let now := block_number (collator_world s) in
  let count := len_u32 (Candidates s) in
  let s := foldl (kick_if_stale now) s (authored_iter (LastAuthoredBlock s)) in
  (s, (count, sat_sub count (len_u32 (Candidates s)))).

(** [EventHandler::note_author]. *)
Definition note_author (author : AccountId) (s : St) : St :=
  let w := collator_world s in
  let pot := PotAccount cfg in
  let reward :=
    default 0 (checked_sub (free_balance w pot) (minimum_balance (AccountId := AccountId) (W := W))) / 2 in
  let w := default w (transfer_keep_alive w pot author reward) in
  put_authored (<[author := block_number w]> (LastAuthoredBlock s)) (put_collator_world w s).

(** [SessionManager::new_session]. *)
Definition new_session (s : St) : St * option (list AccountId) :=
  let '(s, _) := kick_stale_candidates s in
  let active_candidates := who <$> Candidates s in
  (s, Some (assemble_collators s active_candidates)).
End collators.
