(* ===== verification/CollatorSafety.v ===== *)
(** * Collator selection: executions and what they keep

    The steps of the pallet of [CollatorSelection], the invariant of its
    reachable states, what a new session and a departure do, and a concrete
    world in which the pallet runs. *)

From S2P Require Import Prelude Frame CollatorSelection.

Section collators.
Context {AccountId ValidatorId Origin W : Type} `{Countable AccountId}.
Context `{!SpArithmetic, !FrameSystem AccountId Origin W, !ReservableCurrency AccountId W}.
Context `{!ValidatorSet AccountId ValidatorId W, !AuthoredOrder AccountId, !UpdateOrigin Origin}.
Context (cfg : CollatorConfig AccountId).

Abbreviation St := (CollatorStorage AccountId W).
Implicit Types (s : St) (a b : AccountId) (o : Origin).

(** ** Executions *)

(** [a] has the deposit [d] in the pallet's hands: as a candidate, or as one
    that has left and not yet taken it back. *)
Definition bonded (s : St) (a : AccountId) (d : Z) : Prop :=
  mkCandidateInfo a d ∈ Candidates s \/ exists index, NonCandidates s !! a = Some (index, d).

(** [allowed] is the account check at the time of the step.  The world outside
    may change in any way that leaves the bonds reserved. *)
Inductive collator_step (allowed : AccountId -> bool) : St -> St -> Prop :=
| step_set_invulnerables o new s s' :
    set_invulnerables o new s = Ok s' -> collator_step allowed s s'
| step_set_desired o max s s' :
    in_range u32_max max -> set_desired_candidates o max s = Ok s' -> collator_step allowed s s'
| step_set_bond o bond s s' :
    0 <= bond -> set_candidacy_bond o bond s = Ok s' -> collator_step allowed s s'
| step_set_destination o d s s' : set_slash_destination o d s = Ok s' -> collator_step allowed s s'
| step_register o s s' :
    register_as_candidate cfg allowed o s = Ok s' -> collator_step allowed s s'
| step_leave o s s' : leave_intent cfg o s = Ok s' -> collator_step allowed s s'
| step_withdraw o s s' : withdraw_bond o s = Ok s' -> collator_step allowed s s'
| step_author a s : collator_step allowed s (note_author cfg a s)
| step_session s : collator_step allowed s (fst (new_session cfg s))
| step_collator_world w s :
    (forall a d, bonded s a d -> d <= reserved_balance w a) ->
    collator_step allowed s (put_collator_world w s).

Inductive collator_reachable : St -> Prop :=
| collator_genesis inv bond desired w s :
    0 <= bond -> in_range u32_max desired -> collator_build cfg inv bond desired w = Some s ->
    collator_reachable s
| collator_reachable_step allowed s s' :
    collator_reachable s -> collator_step allowed s s' -> collator_reachable s'.

(** ** The invariant *)

Record CInv (s : St) : Prop := {
  ci_nodup : NoDup (who <$> Candidates s);
  ci_left c : c ∈ Candidates s -> NonCandidates s !! who c = None;
  ci_authored c : c ∈ Candidates s -> is_Some (LastAuthoredBlock s !! who c);
  ci_backed a d : bonded s a d -> 0 <= d <= reserved_balance (collator_world s) a;
  ci_length : Z.of_nat (length (Candidates s)) <= u32_max;
  ci_desired : in_range u32_max (DesiredCandidates s);
  ci_bond : 0 <= CandidacyBond s;
}.

Lemma is_account_candidate_iff s a :
  is_account_candidate s a = true <-> a ∈ who <$> Candidates s.
Proof.
  unfold is_account_candidate. rewrite existsb_exists, list_elem_of_fmap. split.
  - intros (c & Hc & <-%bool_decide_eq_true). exists c. by rewrite list_elem_of_In.
  - intros (c & -> & Hc). exists c. rewrite bool_decide_eq_true. by rewrite <- list_elem_of_In.
Qed.

(** A candidate is known by its account. *)
Lemma candidate_unique s c1 c2 :
  CInv s -> c1 ∈ Candidates s -> c2 ∈ Candidates s -> who c1 = who c2 -> c1 = c2.
Proof.
  intros Hinv H1 H2 Heq. apply list_elem_of_lookup in H1 as [i Hi], H2 as [j Hj].
  assert (i = j); [|by simplify_eq].
  eapply (NoDup_lookup _ _ _ (who c1) (ci_nodup s Hinv)); rewrite list_lookup_fmap.
  - by rewrite Hi.
  - by rewrite Hj, Heq.
Qed.

Lemma bonded_unique s a d1 d2 : CInv s -> bonded s a d1 -> bonded s a d2 -> d1 = d2.
Proof.
  intros Hinv [H1|[i H1]] [H2|[j H2]].
  - assert (mkCandidateInfo a d1 = mkCandidateInfo a d2) by by apply (candidate_unique s).
    congruence.
  - pose proof (ci_left s Hinv _ H1). simpl in *. congruence.
  - pose proof (ci_left s Hinv _ H2). simpl in *. congruence.
  - congruence.
Qed.

(** [Candidates] and its accounts after [position] and [remove]. *)
Lemma remove_candidate_spec s a s' :
  CInv s -> try_remove_candidate a s = Ok s' ->
  exists d, mkCandidateInfo a d ∈ Candidates s /\
    Candidates s ≡ₚ mkCandidateInfo a d :: Candidates s' /\
    (exists i, Candidates s' = delete i (Candidates s)) /\
    s' = collator_event (CandidateRemoved a)
           (put_non_candidates
              (<[a := (sat_add u32_max (session_index (collator_world s)) 1, d)]> (NonCandidates s))
              (put_candidates (Candidates s') s)).
Proof.
  intros Hinv Hr. unfold try_remove_candidate in Hr.
  destruct (list_find _ _) as [[i c]|] eqn:Hf; [|done]. injection Hr as <-.
  apply list_find_Some in Hf as (Hi & <- & _). destruct c as [a d]. exists d. simpl.
  split_and!; try done; [by eapply list_elem_of_lookup_2|by apply delete_Permutation|eauto].
Qed.

Section laws.
Context `{!ReservableCurrencyLaws AccountId ValidatorId Origin W, !AuthoredOrderLaws AccountId}.
Context `{!SpArithmeticLaws} (Hratio : in_range perbill_one (SlashRatio cfg)).

Lemma event_inv e s : CInv s -> CInv (collator_event e s).
Proof. intros []. by split. Qed.

(** The bond of an account that has left ends. *)
Lemma unbonded_inv s a x authored w :
  CInv s -> NonCandidates s !! a = Some x ->
  (forall b, b <> a -> authored !! b = LastAuthoredBlock s !! b) ->
  (forall b, b <> a -> reserved_balance w b = reserved_balance (collator_world s) b) ->
  CInv (put_authored authored
          (put_collator_world w (put_non_candidates (delete a (NonCandidates s)) s))).
Proof.
  intros [Hnd Hleft Hau Hb Hlen Hdes Hbond] Ha Hauth Hw.
  assert (Hne : forall c, c ∈ Candidates s -> who c <> a).
  { intros c Hc <-. by rewrite (Hleft c Hc) in Ha. }
  split; simpl; try done.
  - intros c Hc. rewrite lookup_delete_ne by (symmetry; by apply Hne). by apply Hleft.
  - intros c Hc. rewrite Hauth by by apply Hne. by apply Hau.
  - intros b d [Hc|[i Hi]]; simpl in *.
    + rewrite Hw by by apply (Hne _ Hc). apply Hb. by left.
    + apply lookup_delete_Some in Hi as [Hne' Hi]. rewrite Hw by done. apply Hb. right. by exists i.
Qed.

Lemma left_bond s a i d :
  CInv s -> NonCandidates s !! a = Some (i, d) ->
  0 <= d <= reserved_balance (collator_world s) a.
Proof. intros Hinv Ha. apply Hinv. right. by exists i. Qed.

Lemma release_bond_inv s a i d :
  CInv s -> NonCandidates s !! a = Some (i, d) -> CInv (release_bond a d s).
Proof.
  intros Hinv Ha. apply (unbonded_inv s a _ (LastAuthoredBlock s)
    (unreserve (collator_world s) a d) Hinv Ha); [done|].
  intros b Hb. pose proof (left_bond s a i d Hinv Ha).
  rewrite unreserve_reserved, decide_False by (done || lia). lia.
Qed.

Lemma remove_candidate_inv s a s' : CInv s -> try_remove_candidate a s = Ok s' -> CInv s'.
Proof.
  intros Hinv Hr. destruct (remove_candidate_spec s a s' Hinv Hr) as (d & Hd & Hp & _ & Heq).
  destruct Hinv as [Hnd Hleft Hau Hb Hlen Hdes Hbond].
  remember (Candidates s') as cs' eqn:Hcs'. clear Hcs'.
  rewrite Hp in Hnd. apply NoDup_cons in Hnd as [Hnin Hnd].
  assert (Hsub : forall c, c ∈ cs' -> c ∈ Candidates s) by (intros c Hc; rewrite Hp; by right).
  rewrite Heq. apply event_inv. split; simpl; try done; auto.
  - intros c Hc. rewrite lookup_insert_ne; [by apply Hleft, Hsub|].
    intros ->. apply Hnin. apply list_elem_of_fmap. by exists c.
  - intros b x [Hc|[i Hi]]; simpl in *; [apply Hb; left; by apply Hsub|].
    apply lookup_insert_Some in Hi as [[<- [= <- <-]]|[_ Hi]]; apply Hb; [by left|right; by exists i].
  - apply Permutation_length in Hp. simpl in Hp. lia.
Qed.

(** What a slash does to the reserves. *)
Lemma slash_world (s : St) a d w imb :
  0 <= d <= reserved_balance (collator_world s) a ->
  slash_reserved (collator_world s) a (perbill_mul (SlashRatio cfg) d) = (w, imb) ->
  forall dest b,
  reserved_balance
    (match dest with
     | Some dest => resolve_creating (unreserve w a (sat_sub d (perbill_mul (SlashRatio cfg) d))) dest imb
     | None => unreserve w a (sat_sub d (perbill_mul (SlashRatio cfg) d))
     end) b =
  reserved_balance (collator_world s) b - (if decide (b = a) then d else 0).
Proof.
  intros Hle Hs dest b.
  assert (Hd : in_range u128_max d)
    by (pose proof (reserved_balance_range (collator_world s) a); unfold in_range in *; lia).
  pose proof (perbill_mul_bound (SlashRatio cfg) d Hratio Hd) as Hm.
  assert (Hw : forall b, reserved_balance w b = reserved_balance (collator_world s) b -
    (if decide (b = a) then perbill_mul (SlashRatio cfg) d else 0)).
  { intros c. pose proof (slash_reserved_reserved (collator_world s) a
      (perbill_mul (SlashRatio cfg) d) c (proj1 Hm)) as Hsl. rewrite Hs in Hsl. simpl in Hsl. rewrite Hsl.
    by rewrite Z.min_l by lia. }
  assert (Hu : reserved_balance (unreserve w a (sat_sub d (perbill_mul (SlashRatio cfg) d))) b =
    reserved_balance (collator_world s) b - (if decide (b = a) then d else 0)).
  { rewrite sat_sub_exact by lia. rewrite unreserve_reserved, !Hw, (decide_True (P := a = a))
      by (done || lia). case_decide; lia. }
  destruct dest; [by rewrite resolve_creating_reserved|done].
Qed.

Lemma slash_inv s a : CInv s -> CInv (slash_non_candidate cfg a s).
Proof.
  intros Hinv. unfold slash_non_candidate. destruct (NonCandidates s !! a) as [[i d]|] eqn:Ha; [|done].
  destruct (slash_reserved _ _ _) as [w imb] eqn:Hs. apply event_inv.
  apply (unbonded_inv s a _ (delete a (LastAuthoredBlock s)) _ Hinv Ha).
  - intros b Hb. by rewrite lookup_delete_ne.
  - intros b Hb. erewrite slash_world; [|by eapply left_bond|exact Hs].
    rewrite decide_False by done. lia.
Qed.

Lemma kick_inv now s e : CInv s -> CInv (kick_if_stale cfg now s e).
Proof.
  intros Hinv. destruct e as [a la]. unfold kick_if_stale. destruct (_ <? _); [done|].
  destruct (is_account_candidate s a) eqn:Hc.
  - destruct (_ <? _); [|done]. apply slash_inv.
    destruct (try_remove_candidate a s) eqn:Hr; [|done]. by eapply remove_candidate_inv.
  - destruct (NonCandidates s !! a) as [[i d]|] eqn:Ha; [|done]. destruct (i <? _).
    + destruct Hinv. split; try done. simpl. intros c Hin. rewrite lookup_delete_ne; [auto|].
      intros ->. by rewrite ci_left0 in Ha.
    + by apply slash_inv.
Qed.

Lemma kick_all_inv now es s : CInv s -> CInv (foldl (kick_if_stale cfg now) s es).
Proof. revert s. induction es as [|e es IH]; intros s Hinv; simpl; [done|]. by apply IH, kick_inv. Qed.

Lemma session_inv s : CInv s -> CInv (fst (new_session cfg s)).
Proof. intros Hinv. unfold new_session, kick_stale_candidates. simpl. by apply kick_all_inv. Qed.

Lemma take_bond_inv a s s' :
  CInv s -> take_unlocked_bond a s = Ok s' ->
  CInv s' /\ Candidates s' = Candidates s /\ NonCandidates s' !! a = None /\
  DesiredCandidates s' = DesiredCandidates s.
Proof.
  intros Hinv Ht. unfold take_unlocked_bond in Ht.
  destruct (NonCandidates s !! a) as [[i d]|] eqn:Ha; [|by simplify_eq].
  destruct (_ <=? _); [|done]. injection Ht as <-. split; [by eapply release_bond_inv|].
  split_and!; try done. simpl. apply lookup_delete_eq.
Qed.

Lemma register_inv allowed o s s' :
  CInv s -> register_as_candidate cfg allowed o s = Ok s' -> CInv s'.
Proof.
  intros Hinv Hop. unfold register_as_candidate in Hop.
  bind_inv Hop as a Esig. guard_inv Hop as Elen. guard_inv Hop as Einv. guard_inv Hop as Eal.
  bind_inv Hop as u Ereg. bind_inv Hop as s1 Etake. guard_inv Hop as Ecand.
  bind_inv Hop as w Eres. injection Hop as <-. apply event_inv.
  destruct (take_bond_inv a s s1 Hinv Etake) as (Hinv1 & Hc1 & Hn1 & Hd1).
  assert (Hnew : a ∉ who <$> Candidates s1).
  { intros Hin. apply is_account_candidate_iff in Hin. by rewrite Hin in Ecand. }
  unfold ok_or in Eres. destruct (reserve _ a _) as [w'|] eqn:Hr; [|done]. injection Eres as ->.
  pose proof (fun b => reserve_reserved _ _ _ _ b Hr) as Hw.
  destruct Hinv1 as [Hnd Hleft Hau Hb Hlen Hdes Hbond]. split; simpl; try done.
  - rewrite fmap_app. apply NoDup_app. split_and!; [done| |apply NoDup_singleton].
    intros b Hb' Hba. apply list_elem_of_singleton in Hba. simpl in *. by subst.
  - intros c [Hc|Hc]%elem_of_app; [by apply Hleft|]. apply list_elem_of_singleton in Hc. by subst.
  - intros c [Hc|Hc]%elem_of_app.
    + rewrite lookup_insert_ne; [by apply Hau|]. intros ->. apply Hnew, list_elem_of_fmap. by exists c.
    + apply list_elem_of_singleton in Hc. subst. simpl. by rewrite lookup_insert_eq.
  - intros b d [Hc|[i Hi]]; simpl in *; rewrite Hw.
    + apply elem_of_app in Hc as [Hc|Hc].
      * rewrite decide_False; [pose proof (Hb b d ltac:(by left)); lia|].
        intros ->. apply Hnew, list_elem_of_fmap. by exists (mkCandidateInfo a d).
      * apply list_elem_of_singleton in Hc. injection Hc as -> ->. rewrite decide_True by done.
        pose proof (reserved_balance_range (collator_world s1) a). unfold in_range in *. lia.
    + rewrite decide_False by congruence. pose proof (Hb b d ltac:(right; by exists i)). lia.
  - rewrite length_app. simpl. rewrite <- Hc1 in Elen. unfold len_u32, in_range in *.
    rewrite Z.mod_small in Elen by lia. rewrite <- Hd1 in Elen. lia.
Qed.

Lemma withdraw_inv o s s' : CInv s -> withdraw_bond o s = Ok s' -> CInv s'.
Proof.
  intros Hinv Hop. unfold withdraw_bond in Hop. bind_inv Hop as a Esig.
  destruct (NonCandidates s !! a) as [[i d]|] eqn:Ha; [|done]. guard_inv Hop as Ei.
  injection Hop as <-.
  apply (unbonded_inv s a _ (delete a (LastAuthoredBlock s)) (unreserve (collator_world s) a d)
    Hinv Ha).
  - intros b Hb. by rewrite lookup_delete_ne.
  - intros b Hb. pose proof (left_bond s a i d Hinv Ha).
    rewrite unreserve_reserved, decide_False by (done || lia). lia.
Qed.

Lemma author_inv a s : CInv s -> CInv (note_author cfg a s).
Proof.
  intros [Hnd Hleft Hau Hb Hlen Hdes Hbond]. unfold note_author. cbv zeta.
  set (x := default 0 _ / 2). split; simpl; try done.
  - intros c Hc. destruct (decide (who c = a)) as [->|Hne]; [by rewrite lookup_insert_eq|].
    rewrite lookup_insert_ne by done. by apply Hau.
  - intros b d Hbd. destruct (transfer_keep_alive _ _ _ _) as [w|] eqn:Ht; simpl; [|by apply Hb].
    rewrite (transfer_reserved _ _ _ _ _ b Ht). by apply Hb.
Qed.

Lemma collator_step_inv allowed s s' : CInv s -> collator_step allowed s s' -> CInv s'.
Proof.
  intros Hinv Hst. destruct Hst as [o new s s' Hop|o m s s' Hm Hop|o x s s' Hx Hop|o d s s' Hop
    |o s s' Hop|o s s' Hop|o s s' Hop|a s|s|w s Hw].
  - unfold set_invulnerables in Hop. result_inv. apply event_inv. by destruct Hinv; split.
  - unfold set_desired_candidates in Hop. result_inv. apply event_inv. by destruct Hinv; split.
  - unfold set_candidacy_bond in Hop. result_inv. apply event_inv. by destruct Hinv; split.
  - unfold set_slash_destination in Hop. result_inv. by destruct Hinv; split.
  - by eapply register_inv.
  - unfold leave_intent in Hop. bind_inv Hop as a Esig. guard_inv Hop as Emin.
    by eapply remove_candidate_inv.
  - by eapply withdraw_inv.
  - by apply author_inv.
  - by apply session_inv.
  - destruct Hinv as [Hnd Hleft Hau Hb Hlen Hdes Hbond]. split; try done. simpl.
    intros a d Hbd. split; [by eapply Hb|by apply Hw].
Qed.

Lemma collator_reachable_inv s : collator_reachable s -> CInv s.
Proof.
  induction 1 as [inv bond desired w s Hb Hd Hs|allowed s s' _ IH Hst]; [|by eapply collator_step_inv].
  unfold collator_build in Hs. destruct (_ && _); [|done]. injection Hs as <-.
  split; simpl; try done; try lia.
  - apply NoDup_nil_2.
  - intros c Hc. by apply not_elem_of_nil in Hc.
  - intros a d [Hc|[i Hi]]; [by apply not_elem_of_nil in Hc|simpl in Hi; by rewrite lookup_empty in Hi].
Qed.

(** ** A new session *)

Definition stale (s : St) (a : AccountId) : Prop :=
  exists last_authored, LastAuthoredBlock s !! a = Some last_authored /\
    KickThreshold cfg <= sat_sub (block_number (collator_world s)) last_authored.

(** What some rounds of the loop do, where only accounts in [P] are stale. *)
Record kicked (P : AccountId -> Prop) (s s' : St) : Prop := {
  k_invulnerables : Invulnerables s' = Invulnerables s;
  k_candidates : sublist (Candidates s') (Candidates s);
  k_minimum : MinCandidates cfg <= Z.of_nat (length (Candidates s)) ->
    MinCandidates cfg <= Z.of_nat (length (Candidates s'));
  k_kept c : c ∈ Candidates s' ->
    reserved_balance (collator_world s') (who c) = reserved_balance (collator_world s) (who c);
  k_free a : (forall d, ~ bonded s a d) ->
    reserved_balance (collator_world s') a = reserved_balance (collator_world s) a /\
    (forall d, ~ bonded s' a d);
  k_removed c : c ∈ Candidates s -> c ∉ Candidates s' ->
    P (who c) /\ (forall d, ~ bonded s' (who c) d) /\
    reserved_balance (collator_world s') (who c) =
      reserved_balance (collator_world s) (who c) - deposit c;
}.

Lemma kicked_refl P s : kicked P s s.
Proof. split; try done. Qed.

Lemma kicked_trans P s1 s2 s3 : kicked P s1 s2 -> kicked P s2 s3 -> kicked P s1 s3.
Proof.
  intros H12 H23. split.
  - by rewrite (k_invulnerables _ _ _ H23), (k_invulnerables _ _ _ H12).
  - by etrans; [apply H23|apply H12].
  - intros Hm. apply H23, H12, Hm.
  - intros c Hc. rewrite (k_kept _ _ _ H23 c Hc). apply H12.
    eapply elem_of_sublist; [exact Hc|apply H23].
  - intros a Ha. destruct (k_free _ _ _ H12 a Ha) as [Hr2 Hb2].
    destruct (k_free _ _ _ H23 a Hb2) as [Hr3 Hb3]. split; [lia|done].
  - intros c Hc Hc3. destruct (decide (c ∈ Candidates s2)) as [Hin|Hout].
    + destruct (k_removed _ _ _ H23 c Hin Hc3) as (HP & Hb & Hr).
      pose proof (k_kept _ _ _ H12 c Hin). split_and!; [done|done|lia].
    + destruct (k_removed _ _ _ H12 c Hc Hout) as (HP & Hb & Hr).
      destruct (k_free _ _ _ H23 (who c) Hb) as [Hr3 Hb3]. split_and!; [done|done|lia].
Qed.

Lemma slash_spec s a i d :
  CInv s -> NonCandidates s !! a = Some (i, d) ->
  let s' := slash_non_candidate cfg a s in
  Candidates s' = Candidates s /\ Invulnerables s' = Invulnerables s /\
  (forall b x, bonded s' b x -> bonded s b x /\ b <> a) /\
  (forall b, reserved_balance (collator_world s') b =
    reserved_balance (collator_world s) b - (if decide (b = a) then d else 0)).
Proof.
  intros Hinv Ha. cbv zeta. unfold slash_non_candidate. rewrite Ha.
  destruct (slash_reserved _ _ _) as [w imb] eqn:Hs. split_and!; try done.
  - intros b x [Hc|[j Hj]]; simpl in *.
    + split; [by left|]. intros ->. pose proof (ci_left s Hinv _ Hc). simpl in *. congruence.
    + apply lookup_delete_Some in Hj as [Hne Hj]. split; [right; by exists j|done].
  - intros b. simpl. eapply slash_world; [|exact Hs]. by eapply left_bond.
Qed.

(** Slashing an account that has left keeps the candidates. *)
Lemma slash_kicked P s a i d :
  CInv s -> NonCandidates s !! a = Some (i, d) -> kicked P s (slash_non_candidate cfg a s).
Proof.
  intros Hinv Ha. destruct (slash_spec s a i d Hinv Ha) as (Hc & Hi & Hb & Hr).
  split; rewrite ?Hc; try done.
  - intros c Hin. rewrite Hr, decide_False; [lia|]. intros Heq.
    by rewrite <- Heq, (ci_left s Hinv c Hin) in Ha.
  - intros b Hfree. rewrite Hr, decide_False; [split; [lia|]|].
    + intros x Hx. by apply (Hfree x), Hb.
    + intros ->. apply (Hfree d). right. by exists i.
Qed.

(** A stale candidate loses its place and its deposit. *)
Lemma remove_kicked (P : AccountId -> Prop) s a s1 :
  CInv s -> P a -> MinCandidates cfg < Z.of_nat (length (Candidates s)) ->
  try_remove_candidate a s = Ok s1 ->
  kicked P s (slash_non_candidate cfg a s1) /\ a ∉ who <$> Candidates (slash_non_candidate cfg a s1).
Proof.
  intros Hinv HP Hmin Hrem. pose proof (remove_candidate_inv s a s1 Hinv Hrem) as Hinv1.
  destruct (remove_candidate_spec s a s1 Hinv Hrem) as (d & Hd & Hp & [j Hj] & Heq).
  assert (Ha : NonCandidates s1 !! a =
    Some (sat_add u32_max (session_index (collator_world s)) 1, d))
    by (rewrite Heq; simpl; by rewrite lookup_insert_eq).
  assert (Hw : collator_world s1 = collator_world s) by by rewrite Heq.
  assert (Hbon : forall b x, bonded s1 b x -> bonded s b x).
  { intros b x [Hc|[k Hk]]; [left; rewrite Hp; by right|]. rewrite Heq in Hk. simpl in Hk.
    apply lookup_insert_Some in Hk as [[<- [= <- <-]]|[_ Hk]]; [by left|right; by exists k]. }
  destruct (slash_spec s1 a _ d Hinv1 Ha) as (Hc & Hi & Hb & Hr). rewrite Hw in Hr.
  assert (Hout : a ∉ who <$> Candidates s1).
  { pose proof (ci_nodup s Hinv) as Hnd. rewrite Hp in Hnd. by apply NoDup_cons in Hnd as [Hnd _]. }
  split; [|by rewrite Hc]. split; rewrite ?Hc.
  - rewrite Hi, Heq. done.
  - rewrite Hj. apply sublist_delete.
  - apply Permutation_length in Hp. simpl in Hp. lia.
  - intros c Hin. rewrite Hr, decide_False; [lia|]. intros <-.
    apply Hout, list_elem_of_fmap. by exists c.
  - intros b Hfree. rewrite Hr, decide_False; [split; [lia|]|].
    + intros x Hx. apply (Hfree x). by apply Hbon, Hb.
    + intros ->. apply (Hfree d). by left.
  - intros c Hin Hnin. rewrite Hp in Hin. apply elem_of_cons in Hin as [->|Hin]; [|done].
    simpl. rewrite Hr, decide_True by done. split_and!; [done| |done].
    intros x Hx. by apply Hb in Hx as [_ Hx].
Qed.

Lemma kick_kicked (P : AccountId -> Prop) now s a la :
  CInv s -> (KickThreshold cfg <= sat_sub now la -> P a) ->
  let s' := kick_if_stale cfg now s (a, la) in
  kicked P s s' /\
  (KickThreshold cfg <= sat_sub now la -> a ∈ who <$> Candidates s' ->
   Z.of_nat (length (Candidates s')) <= MinCandidates cfg).
Proof.
  intros Hinv HP. cbv zeta. unfold kick_if_stale.
  destruct (Z.ltb_spec (sat_sub now la) (KickThreshold cfg)) as [Hlt|Hge];
    [split; [apply kicked_refl|lia]|].
  destruct (is_account_candidate s a) eqn:Hc.
  - destruct (Z.ltb_spec (MinCandidates cfg) (Z.of_nat (length (Candidates s)))) as [Hm|Hm];
      [|split; [apply kicked_refl|done]].
    destruct (try_remove_candidate a s) as [s1|er] eqn:Hrem.
    + destruct (remove_kicked P s a s1 Hinv (HP Hge) Hm Hrem) as [Hk Hout]. by split.
    + exfalso. apply is_account_candidate_iff, list_elem_of_fmap in Hc as (c & Hw & Hin).
      unfold try_remove_candidate in Hrem.
      destruct (list_find _ _) as [[]|] eqn:Hf; [done|].
      eapply list_find_None in Hf. rewrite Forall_forall in Hf. by eapply Hf.
  - assert (Hout : a ∉ who <$> Candidates s)
      by (intros Hin; apply is_account_candidate_iff in Hin; congruence).
    destruct (NonCandidates s !! a) as [[i d]|] eqn:Ha; [|split; [apply kicked_refl|done]].
    destruct (i <? _).
    + split; [by split|done].
    + split; [by eapply slash_kicked|]. destruct (slash_spec s a i d Hinv Ha) as (-> & _). done.
Qed.

Lemma kick_all (P : AccountId -> Prop) now es s :
  CInv s -> (forall a la, (a, la) ∈ es -> KickThreshold cfg <= sat_sub now la -> P a) ->
  let s' := foldl (kick_if_stale cfg now) s es in
  kicked P s s' /\
  (forall a la, (a, la) ∈ es -> KickThreshold cfg <= sat_sub now la ->
   a ∈ who <$> Candidates s' -> Z.of_nat (length (Candidates s')) <= MinCandidates cfg).
Proof.
  revert s. induction es as [|[a la] es IH]; intros s Hinv HP; cbv zeta; cbn [foldl].
  - split; [apply kicked_refl|]. intros a la Hin. by apply not_elem_of_nil in Hin.
  - destruct (kick_kicked P now s a la Hinv (HP a la ltac:(by left))) as [Hk Hst].
    destruct (IH (kick_if_stale cfg now s (a, la)) (kick_inv now s (a, la) Hinv)) as [Hk' Hst'].
    { intros b lb Hin. apply HP. by right. }
    split; [by eapply kicked_trans|]. intros b lb Hin Hle Hc.
    apply elem_of_cons in Hin as [[= -> ->]|Hin]; [|by eapply Hst'].
    pose proof (k_candidates _ _ _ Hk') as Hsub. apply sublist_length in Hsub as Hlen.
    assert (Hc' : a ∈ who <$> Candidates (kick_if_stale cfg now s (a, la))).
    { apply list_elem_of_fmap in Hc as (c & -> & Hc). apply list_elem_of_fmap. exists c.
      split; [done|]. by eapply elem_of_sublist. }
    specialize (Hst Hle Hc'). lia.
Qed.

(** Leaving moves no funds: the deposit stays with the pallet. *)
Lemma leave_keeps_bond (s s' : St) (o : Origin) (a : AccountId) :
  ensure_signed o = Some a -> leave_intent cfg o s = Ok s' ->
  collator_world s' = collator_world s /\
  exists d, mkCandidateInfo a d ∈ Candidates s /\
    NonCandidates s' !! a = Some (sat_add u32_max (session_index (collator_world s)) 1, d).
Proof.
  intros Ho Hl. unfold leave_intent, signed_by in Hl. rewrite Ho in Hl. cbn [ok_or] in Hl.
  guard_inv Hl as Hmin. unfold try_remove_candidate in Hl.
  destruct (list_find _ _) as [[i [w d]]|] eqn:Hf; [|done]. injection Hl as <-.
  apply list_find_Some in Hf as (Hi & Hw & _). simpl in Hw. subst w. split; [done|]. exists d.
  split; [by apply list_elem_of_lookup_2 in Hi|]. simpl. by rewrite lookup_insert_eq.
Qed.

(** C21: every bond is backed: in every reachable state each deposit the pallet
    records, of a candidate or of one that has left, is reserved on its
    account, no account has two of them, no candidate is listed twice, and
    every candidate is watched for missing blocks.  Leaving in particular
    returns nothing: the deposit stays reserved, recorded with the session from
    which it can be withdrawn (the comment on [CandidacyBond] says that it is
    returned immediately; the documentation of [withdraw_bond] and the code say
    otherwise). *)
Theorem collator_bonds_backed (s : St) :
  collator_reachable s ->
  (forall a d, bonded s a d -> 0 <= d <= reserved_balance (collator_world s) a) /\
  (forall a d1 d2, bonded s a d1 -> bonded s a d2 -> d1 = d2) /\
  NoDup (who <$> Candidates s) /\
  (forall c, c ∈ Candidates s ->
     NonCandidates s !! who c = None /\ is_Some (LastAuthoredBlock s !! who c)) /\
  (forall o a s', ensure_signed o = Some a -> leave_intent cfg o s = Ok s' ->
     collator_world s' = collator_world s /\
     exists d, mkCandidateInfo a d ∈ Candidates s /\
       NonCandidates s' !! a = Some (sat_add u32_max (session_index (collator_world s)) 1, d)).
Proof.
  intros Hr. pose proof (collator_reachable_inv s Hr) as Hinv. split_and!; try apply Hinv.
  - intros a d1 d2. by apply bonded_unique.
  - intros c Hc. split; by apply Hinv.
  - intros o a s'. apply leave_keeps_bond.
Qed.

(** C22: a new session consists of the invulnerables and the candidates that
    are left after stale ones were kicked.  Exactly stale candidates are
    kicked: whoever is missing afterwards was stale, has lost its place and
    has its whole deposit taken out of its reserve; whoever is stale and still
    there is spared because the minimum number is reached, and the kicks never
    go below it.  The others keep their reserve. *)
Theorem new_session_outcome (s : St) :
  collator_reachable s ->
  let s' := fst (new_session cfg s) in
  snd (new_session cfg s) = Some (Invulnerables s ++ (who <$> Candidates s')) /\
  sublist (Candidates s') (Candidates s) /\
  (forall c, c ∈ Candidates s -> c ∉ Candidates s' ->
     stale s (who c) /\ (forall d, ~ bonded s' (who c) d) /\
     reserved_balance (collator_world s') (who c) =
       reserved_balance (collator_world s) (who c) - deposit c) /\
  (forall c, c ∈ Candidates s' -> 
     reserved_balance (collator_world s') (who c) =
       reserved_balance (collator_world s) (who c) /\
     (stale s (who c) -> Z.of_nat (length (Candidates s')) <= MinCandidates cfg)) /\
  (MinCandidates cfg <= Z.of_nat (length (Candidates s)) ->
   MinCandidates cfg <= Z.of_nat (length (Candidates s'))).
Proof.
  intros Hr. pose proof (collator_reachable_inv s Hr) as Hinv. cbv zeta.
  unfold new_session, kick_stale_candidates, assemble_collators. cbn [fst snd].
  destruct (kick_all (stale s) (block_number (collator_world s))
    (authored_iter (LastAuthoredBlock s)) s Hinv) as [[Hi Hs Hm Hk _ Hrm] Hstale].
  { intros a la Hin Hle. rewrite authored_iter_perm, elem_of_map_to_list in Hin. by exists la. }
  rewrite Hi. split_and!; try done. intros c Hc. split; [by apply Hk|].
  intros (la & Hla & Hle). apply (Hstale (who c) la); [|done|apply list_elem_of_fmap; by exists c].
  by rewrite authored_iter_perm, elem_of_map_to_list.
Qed.

(** What leaving costs: [leave_intent] of a candidate turns its deposit
    into a bond that is locked for a session; [withdraw_bond] refuses while the
    session it was locked until has not begun, and otherwise releases exactly
    the deposit into the free balance and forgets the account; without a bond
    it is refused. *)
Theorem leave_and_withdraw (s : St) (o : Origin) (a : AccountId) :
  collator_reachable s -> ensure_signed o = Some a ->
  match leave_intent cfg o s with
  | Ok s' => exists d, mkCandidateInfo a d ∈ Candidates s /\ (a ∉ who <$> Candidates s') /\
      NonCandidates s' !! a =
        Some (sat_add u32_max (session_index (collator_world s)) 1, d) /\
      MinCandidates cfg <= Z.of_nat (length (Candidates s'))
  | Err TooFewCandidates => Z.of_nat (length (Candidates s)) <= MinCandidates cfg
  | Err NotCandidate => a ∉ who <$> Candidates s
  | Err _ => False
  end /\
  match withdraw_bond o s, NonCandidates s !! a with
  | Ok s', Some (index, d) =>
      index <= session_index (collator_world s) /\
      reserved_balance (collator_world s') a = reserved_balance (collator_world s) a - d /\
      free_balance (collator_world s') a = free_balance (collator_world s) a + d /\
      (forall x, ~ bonded s' a x) /\ LastAuthoredBlock s' !! a = None
  | Err BondStillLocked, Some (index, _) => session_index (collator_world s) < index
  | Err NoCandidacyBond, None => True
  | _, _ => False
  end.
Proof.
  intros Hr Hsig. pose proof (collator_reachable_inv s Hr) as Hinv. split.
  - unfold leave_intent, signed_by. rewrite Hsig. cbn [ok_or].
    pose proof (ci_length s Hinv). unfold len_u32. rewrite Z.mod_small by lia.
    destruct (Z.ltb_spec (MinCandidates cfg) (Z.of_nat (length (Candidates s)))) as [Hm|Hm]; [|done].
    destruct (try_remove_candidate a s) as [s'|er] eqn:Hrem.
    + destruct (remove_candidate_spec s a s' Hinv Hrem) as (d & Hd & Hp & _ & Heq).
      exists d. split; [done|]. split_and!.
      * pose proof (ci_nodup s Hinv) as Hnd. rewrite Hp in Hnd. by apply NoDup_cons in Hnd as [Hnd _].
      * rewrite Heq. simpl. by rewrite lookup_insert_eq.
      * apply Permutation_length in Hp. simpl in Hp. lia.
    + unfold try_remove_candidate in Hrem. destruct (list_find _ _) as [[]|] eqn:Hf; [done|].
      injection Hrem as <-. intros Hin. apply list_elem_of_fmap in Hin as (c & -> & Hin).
      eapply list_find_None in Hf. rewrite Forall_forall in Hf. by eapply Hf.
  - unfold withdraw_bond, signed_by. rewrite Hsig. cbn [ok_or].
    destruct (NonCandidates s !! a) as [[i d]|] eqn:Ha; [|done].
    destruct (Z.leb_spec i (session_index (collator_world s))) as [Hle|Hlt]; [|done].
    pose proof (left_bond s a i d Hinv Ha) as Hb.
    simpl. rewrite unreserve_reserved, unreserve_free, decide_True, Z.min_l by (done || lia).
    split_and!; try done; [|by rewrite lookup_delete_eq].
    intros x [Hc|[j Hj]]; simpl in *; [|by rewrite lookup_delete_eq in Hj].
    pose proof (ci_left s Hinv _ Hc). simpl in *. congruence.
Qed.
End laws.
End collators.

(** ** A world in which the pallet runs

    Balances are two maps, every account has session keys, and an account
    cannot reserve more than it has free. *)

Record CollatorWorld := mkCollatorWorld {
  cw_block : Z;
  cw_session : Z;
  cw_free : gmap Z Z;
  cw_reserved : gmap Z Z;
}.

Definition cw_reserve_of (w : CollatorWorld) (a : Z) : Z :=
  Z.max 0 (Z.min u128_max (default 0 (cw_reserved w !! a))).
Definition cw_free_of (w : CollatorWorld) (a : Z) : Z := default 0 (cw_free w !! a).
Definition cw_set (w : CollatorWorld) (a free reserved : Z) : CollatorWorld :=
  mkCollatorWorld (cw_block w) (cw_session w) (<[a := free]> (cw_free w))
    (<[a := reserved]> (cw_reserved w)).

Definition cw_move (w : CollatorWorld) (a to_free off_reserve : Z) : CollatorWorld :=
  cw_set w a (cw_free_of w a + to_free) (cw_reserve_of w a - off_reserve).

#[export] Instance CwCurrency : ReservableCurrency Z CollatorWorld := {|
  free_balance := cw_free_of;
  reserved_balance := cw_reserve_of;
  minimum_balance := 1;
  reserve w a x :=
    if (0 <=? x) && (x <=? cw_free_of w a) && (cw_reserve_of w a + x <=? u128_max)
    then Some (cw_move w a (- x) (- x)) else None;
  unreserve w a x :=
    if x <? 0 then w
    else cw_move w a (Z.min x (cw_reserve_of w a)) (Z.min x (cw_reserve_of w a));
  slash_reserved w a x :=
    if x <? 0 then (w, 0)
    else (cw_move w a 0 (Z.min x (cw_reserve_of w a)), Z.min x (cw_reserve_of w a));
  resolve_creating w a x := cw_move w a x 0;
  transfer_keep_alive w a b x :=
    if cw_free_of w a <=? x then None
    else let w := cw_move w a (- x) 0 in Some (cw_move w b x 0);
|}.

#[export] Instance CwValidators : ValidatorSet Z Z CollatorWorld := {|
  validator_id_of a := Some a;
  is_registered _ _ := true;
  session_index := cw_session;
|}.

Inductive CwOrigin := CwRoot | CwSigned (a : Z).

#[export] Instance CwSystem : FrameSystem Z CwOrigin CollatorWorld := {|
  block_number := cw_block;
  ensure_signed o := match o with CwSigned a => Some a | CwRoot => None end;
  ensure_root o := match o with CwRoot => true | CwSigned _ => false end;
  ensure_signed_or_root o := match o with CwSigned a => Some (Some a) | CwRoot => Some None end;
|}.

#[export] Instance CwUpdateOrigin : UpdateOrigin CwOrigin :=
  {| update_origin o := match o with CwRoot => true | CwSigned _ => false end |}.
#[export] Instance CwOrder : AuthoredOrder Z := {| authored_iter := map_to_list |}.
#[export] Instance CwOrderLaws : AuthoredOrderLaws Z.
Proof. by split. Qed.

Lemma cw_move_reserved w a f x b :
  in_range u128_max (cw_reserve_of w a - x) ->
  cw_reserve_of (cw_move w a f x) b = cw_reserve_of w b - (if decide (b = a) then x else 0).
Proof.
  intros Hr. unfold cw_reserve_of at 1, cw_move, cw_set. simpl.
  case_decide as Hb; [subst; rewrite lookup_insert_eq|rewrite lookup_insert_ne by done];
    simpl; unfold cw_reserve_of, in_range in *; lia.
Qed.

Lemma cw_move_free w a f x b :
  cw_free_of (cw_move w a f x) b = cw_free_of w b + (if decide (b = a) then f else 0).
Proof.
  unfold cw_free_of at 1, cw_move, cw_set. simpl.
  case_decide as Hb; [subst; rewrite lookup_insert_eq|rewrite lookup_insert_ne by done];
    simpl; unfold cw_free_of; lia.
Qed.

Lemma cw_reserve_range w a : in_range u128_max (cw_reserve_of w a).
Proof. unfold cw_reserve_of, in_range. lia. Qed.

#[export] Instance CwLaws : ReservableCurrencyLaws Z Z CwOrigin CollatorWorld.
Proof.
  split; simpl; intros; pose proof (cw_reserve_range w a) as Hr; unfold in_range in Hr.
  - done.
  - destruct (_ && _) eqn:Hc; [|done]. simplify_eq.
    rewrite cw_move_reserved by (unfold in_range; lia). case_decide; lia.
  - rewrite (proj2 (Z.ltb_ge x 0)) by done. by apply cw_move_reserved; unfold in_range; lia.
  - rewrite (proj2 (Z.ltb_ge x 0)) by done. apply cw_move_free.
  - rewrite (proj2 (Z.ltb_ge x 0)) by done. by apply cw_move_reserved; unfold in_range; lia.
  - rewrite (proj2 (Z.ltb_ge x 0)) by done. simpl. rewrite cw_move_free. case_decide; lia.
  - by rewrite (proj2 (Z.ltb_ge x 0)) by done.
  - rewrite cw_move_reserved by (unfold in_range; lia). case_decide; lia.
  - rewrite cw_move_free, decide_False by done. lia.
  - destruct (_ <=? _); [done|]. simplify_eq.
    pose proof (cw_reserve_range (cw_move w a (- x) 0) b) as Hb. unfold in_range in Hb.
    rewrite !cw_move_reserved by (unfold in_range; lia). repeat case_decide; lia.
  - by destruct (_ <? _).
  - by destruct (_ <? _).
  - done.
Qed.

(** ** Runs *)

Definition cw_cfg : CollatorConfig Z := mkCollatorConfig 99 10 1 5 20 100000000.

Abbreviation CwSt := (CollatorStorage Z CollatorWorld).

Definition cw_start : CwSt :=
  mkCollatorStorage [7] [] ∅ ∅ 5 100 None []
    (mkCollatorWorld 1 0 (list_to_map ((fun a => (a, 1000)) <$> [1; 2; 3; 4; 99])) ∅).

(** Time passes to a block of a session, or a step of the pallet. *)
Inductive CollatorAction :=
| ca_time (block session : Z)
| ca_register (a : Z)
| ca_leave (a : Z)
| ca_withdraw (a : Z)
| ca_author (a : Z)
| ca_invulnerables (new : list Z)
| ca_session.

Definition to_option {A E} (r : Result A E) : option A :=
  match r with Ok a => Some a | Err _ => None end.

Section runs.
Existing Instance ExactArithmetic.
Existing Instance ExactArithmetic_laws.

Definition collator_act (x : CollatorAction) (s : CwSt) : option CwSt :=
  match x with
  | ca_time block session =>
      let w := collator_world s in
      Some (put_collator_world (mkCollatorWorld block session (cw_free w) (cw_reserved w)) s)
  | ca_register a => to_option (register_as_candidate cw_cfg (fun _ => true) (CwSigned a) s)
  | ca_leave a => to_option (leave_intent cw_cfg (CwSigned a) s)
  | ca_withdraw a => to_option (withdraw_bond (CwSigned a) s)
  | ca_author a => Some (note_author cw_cfg a s)
  | ca_invulnerables new => to_option (set_invulnerables CwRoot new s)
  | ca_session => Some (fst (new_session cw_cfg s))
  end.

Fixpoint collator_run (xs : list CollatorAction) (s : CwSt) : option CwSt :=
  match xs with
  | [] => Some s
  | x :: xs => collator_act x s ≫= collator_run xs
  end.

Lemma cw_ratio : in_range perbill_one (SlashRatio cw_cfg).
Proof. unfold in_range. simpl. lia. Qed.

Lemma collator_act_step x s s' :
  collator_reachable cw_cfg s -> collator_act x s = Some s' -> collator_reachable cw_cfg s'.
Proof.
  intros Hr Ha. apply (collator_reachable_step cw_cfg (fun _ => true) s); [exact Hr|].
  destruct x; cbn [collator_act] in Ha; unfold to_option in Ha; result_inv.
  - apply step_collator_world. intros a d Hb. unfold reserved_balance. simpl.
    by apply (ci_backed s (collator_reachable_inv cw_cfg cw_ratio s Hr)) in Hb as [_ Hb].
  - by eapply step_register.
  - by eapply step_leave.
  - by eapply step_withdraw.
  - apply step_author.
  - by eapply step_set_invulnerables.
  - exact (step_session cw_cfg _ s).
Qed.

Lemma collator_run_reachable xs s s' :
  collator_reachable cw_cfg s -> collator_run xs s = Some s' -> collator_reachable cw_cfg s'.
Proof.
  revert s. induction xs as [|x xs IH]; intros s Hr Hrun; simpl in Hrun; [by simplify_eq|].
  destruct (collator_act x s) as [s1|] eqn:Ha; [|done]. by eapply IH, Hrun; eapply collator_act_step.
Qed.

Definition collator_after (xs : list CollatorAction) : CwSt := default cw_start (collator_run xs cw_start).

Lemma collator_after_reachable xs :
  is_Some (collator_run xs cw_start) -> collator_reachable cw_cfg (collator_after xs).
Proof.
  intros [s Hs]. unfold collator_after. rewrite Hs. simpl.
  eapply collator_run_reachable; [|exact Hs].
  apply (collator_genesis cw_cfg [7] 100 5 (collator_world cw_start)); [lia|unfold in_range; lia|].
  by vm_compute.
Qed.

(** ** Witnesses *)

(** Three candidates; the first one keeps producing blocks. *)
Definition cw_session_run : list CollatorAction :=
  [ca_register 1; ca_register 2; ca_register 3; ca_time 60 1; ca_author 1].

Lemma collator_bonds_backed_witness :
  let s := collator_after cw_session_run in
  bonded s 2 100 /\ 100 <= reserved_balance (collator_world s) 2.
Proof.
  assert (Hr := collator_after_reachable cw_session_run ltac:(vm_compute; eauto)).
  assert (Hb : bonded (collator_after cw_session_run) 2 100).
  { left. unfold bonded. vm_compute. right. left. }
  revert Hr Hb. generalize (collator_after cw_session_run) as s. intros s Hr Hb. split; [exact Hb|].
  by apply (collator_bonds_backed cw_cfg cw_ratio s Hr).
Defined.

Lemma new_session_outcome_witness :
  let s := collator_after cw_session_run in
  snd (new_session cw_cfg s) = Some [7; 1] /\
  snd (new_session cw_cfg s) =
    Some (Invulnerables s ++ (who <$> Candidates (fst (new_session cw_cfg s)))).
Proof.
  split; [by vm_compute|].
  assert (Hr := collator_after_reachable cw_session_run ltac:(vm_compute; eauto)).
  revert Hr. generalize (collator_after cw_session_run) as s. intros s Hr.
  apply (new_session_outcome cw_cfg cw_ratio s Hr).
Defined.

Lemma leave_and_withdraw_witness :
  let s := collator_after (cw_session_run ++ [ca_leave 2; ca_time 61 2]) in
  is_ok (withdraw_bond (CwSigned 2) s) = true /\
  match withdraw_bond (CwSigned 2) s with Err TooFewCandidates => False | _ => True end.
Proof.
  split; [by vm_compute|].
  assert (Hr := collator_after_reachable (cw_session_run ++ [ca_leave 2; ca_time 61 2])
    ltac:(vm_compute; eauto)).
  revert Hr. generalize (collator_after (cw_session_run ++ [ca_leave 2; ca_time 61 2])) as s.
  intros s Hr. destruct (leave_and_withdraw cw_cfg cw_ratio s (CwSigned 2) 2 Hr eq_refl) as [_ Hw].
  destruct (withdraw_bond (CwSigned 2) s) as [|[]]; done.
Defined.

(** ** Deviations *)

Definition unlocked_run : list CollatorAction :=
  [ca_register 1; ca_register 2; ca_time 30 0; ca_leave 1; ca_time 60 1].

(** A bond that [withdraw_bond] would pay out in full in this very state is
    slashed by a new session: the bond counts as unlocked for the withdrawal
    from the session it was locked until on, for the slash only after it. *)
Theorem unlocked_bond_slashed :
  let s := collator_after unlocked_run in
  collator_reachable cw_cfg s /\
  (free_balance (collator_world s) 1 = 900 /\ reserved_balance (collator_world s) 1 = 100) /\
  (exists s', withdraw_bond (CwSigned 1) s = Ok s' /\ free_balance (collator_world s') 1 = 1000) /\
  let s' := fst (new_session cw_cfg s) in
  free_balance (collator_world s') 1 = 990 /\ reserved_balance (collator_world s') 1 = 0.
Proof.
  cbv zeta. split; [apply collator_after_reachable; vm_compute; eauto|].
  split; [by vm_compute|]. split; [|by vm_compute].
  eexists. split; [vm_compute; reflexivity|by vm_compute].
Qed.

(** A candidate can be made invulnerable: it then stands in the collator
    set of the next session twice. *)
Theorem invulnerable_candidate_twice :
  let s := collator_after [ca_register 1; ca_invulnerables [7; 1]] in
  collator_reachable cw_cfg s /\ snd (new_session cw_cfg s) = Some [7; 1; 1].
Proof. cbv zeta. split; [apply collator_after_reachable; vm_compute; eauto|by vm_compute]. Qed.
End runs.
