(* ===== verification/Composition.v ===== *)
(** * dApp staking and collator selection together

    The runtimes let no account stake and collate at once: dApp staking asks
    the collator selection pallet whether an account is a candidate before it
    accepts its first lock, and collator selection asks dApp staking whether an
    account has a ledger before it accepts a candidacy
    ([runtime/astar/src/lib.rs], [AccountCheck] and
    [CollatorSelectionAccountCheck]).  The composed state is the storage of
    dApp staking whose outside world is the storage of collator selection. *)

From S2P Require Import Prelude Frame Primitives StakeAmount EraInfo AccountLedger.
From S2P Require Import SingularStakingInfo ContractStakeAmount EraRewardSpan Tiers Protocol.
From S2P Require Import PalletState DAppStaking TierAssignment EraHandler Invariant Reachability.
From S2P Require Import ExampleWorld CollatorSelection CollatorSafety.

(** ** The interfaces of dApp staking, read through collator selection *)

Section instances.
Context {AccountId Origin V : Type} `{Countable AccountId}.
Abbreviation W := (CollatorStorage AccountId V).

Definition inside (w : W) (v : option V) : option W := (fun v => put_collator_world v w) <$> v.

#[export] Instance RtCurrency `{!Currency AccountId V} : Currency AccountId W := {|
  total_balance w := total_balance (collator_world w);
  total_issuance w := total_issuance (collator_world w);
  set_freeze w a x := inside w (set_freeze (collator_world w) a x);
  thaw w a := inside w (thaw (collator_world w) a);
|}.

#[export] Instance RtSystem `{!FrameSystem AccountId Origin V} : FrameSystem AccountId Origin W := {|
  block_number w := block_number (collator_world w);
  ensure_signed := ensure_signed (W := V);
  ensure_root := ensure_root (W := V);
  ensure_signed_or_root := ensure_signed_or_root (W := V);
|}.

#[export] Instance RtObserver `{!Observer V} : Observer W := {|
  block_before_new_era w e := put_collator_world (block_before_new_era (collator_world w) e) w;
|}.

#[export] Instance RtRewards `{!StakingRewardHandler AccountId V} : StakingRewardHandler AccountId W := {|
  staker_and_dapp_reward_pools w := staker_and_dapp_reward_pools (collator_world w);
  Primitives.bonus_reward_pool w := Primitives.bonus_reward_pool (collator_world w);
  payout_reward w a x := inside w (payout_reward (collator_world w) a x);
|}.

#[export] Instance RtPrice `{!PriceProvider V} : PriceProvider W := {|
  average_price w := average_price (collator_world w);
|}.

(** [AccountCheck::allowed_to_stake] and
    [CollatorSelectionAccountCheck::allowed_candidacy] of the runtimes. *)
#[export] Instance RtAccountCheck : AccountCheck AccountId W := {|
  allowed_to_stake w a := negb (is_account_candidate w a);
|}.

Definition allowed_candidacy (s : Storage AccountId W) (a : AccountId) : bool :=
  negb (is_staker s a).

(** The laws of the outside world carry over. *)
Lemma inside_Some (w w' : W) v : inside w v = Some w' -> v = Some (collator_world w').
Proof. unfold inside. intros Hi. apply fmap_Some in Hi as (v' & -> & ->). done. Qed.

#[export] Instance RtCurrencyLaws `{!Currency AccountId V, !CurrencyLaws AccountId V} :
  CurrencyLaws AccountId W.
Proof.
  split; simpl; intros.
  - apply total_balance_nonneg.
  - apply (total_issuance_range (AccountId := AccountId)).
  - by apply total_balance_sum.
  - match goal with Hi : _ = Some _ |- _ => apply inside_Some in Hi end. by eapply set_freeze_balance.
  - match goal with Hi : _ = Some _ |- _ => apply inside_Some in Hi end. by eapply thaw_balance.
Qed.

#[export] Instance RtRewardLaws
  `{!Currency AccountId V, !StakingRewardHandler AccountId V, !RewardHandlerLaws AccountId V} :
  RewardHandlerLaws AccountId W.
Proof.
  split. simpl. intros w a x w' b Hi. apply inside_Some in Hi. by eapply payout_reward_balance.
Qed.

#[export] Instance RtObserverLaws
  `{!Currency AccountId V, !Observer V, !ObserverLaws AccountId V} : ObserverLaws AccountId W.
Proof. split. simpl. intros. apply block_before_new_era_balance. Qed.
End instances.

Section composition.
Context {AccountId ValidatorId Origin V : Type} `{Countable AccountId}.
Context `{!SpArithmetic, !Currency AccountId V, !FrameSystem AccountId Origin V}.
Context `{!Observer V, !StakingRewardHandler AccountId V, !PriceProvider V}.
Context `{!PrivilegedOrigins Origin, !PrefixOrder AccountId, !TierSlots, !UnspecifiedOrder}.
Context `{!ReservableCurrency AccountId V, !ValidatorSet AccountId ValidatorId V}.
Context `{!AuthoredOrder AccountId, !UpdateOrigin Origin}.
Context (cfg : Config) (ccfg : CollatorConfig AccountId).

Abbreviation W := (CollatorStorage AccountId V).
Abbreviation St := (Storage AccountId W).

(** ** Steps

    The hooks of dApp staking, the steps of collator selection and changes
    outside both pallets, which leave frozen funds where they are. *)

Inductive runtime_step : St -> St -> Prop :=
| rt_block now s : runtime_step s (on_initialize cfg now s)
| rt_idle enough_weight s : runtime_step s (on_idle cfg enough_weight s)
| rt_safe_mode (entered : bool) s :
    runtime_step s (if entered then safe_mode_entered s else safe_mode_exited s)
| rt_collators w s :
    collator_step ccfg (allowed_candidacy s) (world s) w ->
    (forall a l, Ledger s !! a = Some l -> total_locked_amount l <= total_balance w a) ->
    runtime_step s (put_world w s)
| rt_outside v s :
    (forall a l, Ledger s !! a = Some l -> total_locked_amount l <= total_balance v a) ->
    runtime_step s (put_world (put_collator_world v (world s)) s).

(** [admitted] says which calls of dApp staking an execution contains. *)
Inductive runtime_reachable (admitted : Origin -> Call AccountId -> St -> Prop) : St -> Prop :=
| rt_genesis g inv bond desired v w s :
    genesis_typed g -> collator_build ccfg inv bond desired v = Some w ->
    build cfg g w = Some s -> runtime_reachable admitted s
| rt_call o c s s' :
    runtime_reachable admitted s -> call_typed c -> admitted o c s ->
    dispatch cfg o c s = Ok s' -> runtime_reachable admitted s'
| rt_other s s' :
    runtime_reachable admitted s -> runtime_step s s' -> runtime_reachable admitted s'.

(** A bonus reward claimed for an account that has no ledger any more. *)
Definition late_bonus_claim (o : Origin) (c : Call AccountId) (s : St) : Prop :=
  match c with
  | call_claim_bonus_reward _ => exists a, ensure_signed (W := V) o = Some a /\ Ledger s !! a = None
  | call_claim_bonus_reward_for a _ => Ledger s !! a = None
  | _ => False
  end.

Definition exclusive (s : St) : Prop :=
  forall a, is_staker s a = true -> is_account_candidate (world s) a = false.

(** ** dApp staking leaves the candidates alone *)

Lemma inside_candidates (w w' : W) v : inside w v = Some w' -> Candidates w' = Candidates w.
Proof. unfold inside. intros Hi. apply fmap_Some in Hi as (v' & _ & ->). done. Qed.

Lemma update_ledger_candidates a l (s s' : St) :
  update_ledger a l s = Ok s' -> Candidates (world s') = Candidates (world s).
Proof.
  unfold update_ledger. intros Hu. destruct (AccountLedger.is_empty l); result_inv; simpl;
    match goal with Hw : _ = Some _ |- _ => exact (inside_candidates _ _ _ Hw) end.
Qed.

Lemma dispatch_candidates o c (s s' : St) :
  dispatch cfg o c s = Ok s' -> Candidates (world s') = Candidates (world s).
Proof.
  intros Hd. destruct c; simpl in Hd;
    unfold maintenance_mode, register, set_dapp_reward_beneficiary, set_dapp_owner, unregister,
      unbond_and_unstake, withdraw_unbonded, claim_unlocked, internal_claim_unlocked, lock, unlock,
      relock_unlocking, stake, unstake, unstake_from_unregistered, cleanup_expired_entries,
      claim_staker_rewards, claim_staker_rewards_for, internal_claim_staker_rewards_for,
      claim_bonus_reward, claim_bonus_reward_for, internal_claim_bonus_reward_for,
      claim_dapp_reward, force in Hd; cbv zeta in Hd; result_inv; rewrite ?events_world;
    repeat match goal with
    | Hu : update_ledger _ _ _ = Ok _ |- _ => apply update_ledger_candidates in Hu; simpl in Hu
    | Hp : payout_reward _ _ _ = Some _ |- _ => apply (inside_candidates _ _ _) in Hp
    | Hu : context [world (if ?b then _ else _)] |- _ => destruct b
    end; simpl in *; congruence || done.
Qed.

(** ** Who gets a ledger *)

(** What a call can do to the ledger of an account that has none. *)
Lemma update_ledger_new b l (s s' : St) a :
  update_ledger b l s = Ok s' -> Ledger s !! a = None -> is_Some (Ledger s' !! a) ->
  a = b /\ AccountLedger.is_empty l = false.
Proof.
  unfold update_ledger. intros Hu Hn [l' Hl'].
  destruct (AccountLedger.is_empty l); result_inv; simpl in Hl'.
  - apply lookup_delete_Some in Hl' as [_ Hl']. congruence.
  - apply lookup_insert_Some in Hl' as [[<- _]|[_ Hl']]; [done|congruence].
Qed.

Lemma no_ledger (s : St) a : Ledger s !! a = None -> ledger_of s a = AccountLedger.default.
Proof. unfold ledger_of. by intros ->. Qed.

Lemma default_staked p : AccountLedger.staked_amount AccountLedger.default p = 0.
Proof. unfold AccountLedger.staked_amount; simpl; by case_all. Qed.

Lemma default_unstake x e pi l :
  0 <= x -> AccountLedger.unstake_amount x e pi AccountLedger.default = Ok l ->
  l = AccountLedger.default.
Proof.
  unfold AccountLedger.unstake_amount. intros Hx Hu. destruct (x =? 0) eqn:Hz; [by simplify_eq|].
  bind_inv Hu as u Hc. rewrite default_staked in Hu.
  destruct (0 <? x) eqn:Hp; [done|]. lia.
Qed.

Lemma default_stake x e pi l :
  0 < x -> AccountLedger.add_stake_amount x e pi AccountLedger.default = Ok l -> False.
Proof.
  unfold AccountLedger.add_stake_amount. intros Hx Hu. destruct (x =? 0) eqn:Hz; [lia|].
  bind_inv Hu as u Hc. unfold stakeable_amount, active_locked_amount in Hu.
  rewrite default_staked in Hu. simpl in Hu. destruct (_ <? x) eqn:Hp; [done|]. ulia.
Qed.

Lemma unlock_new o x (s s' : St) a :
  0 <= x -> unlock cfg o x s = Ok s' -> Ledger s !! a = None -> Ledger s' !! a = None.
Proof.
  intros Hx Hop Hn. unfold unlock in Hop. cbv zeta in Hop.
  bind_inv Hop as u Een. bind_inv Hop as acc Esig. bind_inv Hop as y Ey. guard_inv Hop as Ez.
  bind_inv Hop as l El. bind_inv Hop as s1 Eup. injection Hop as <-. simpl.
  apply eq_None_not_Some. intros Hs. destruct (update_ledger_new acc l s s1 a Eup Hn Hs) as [<- _].
  rewrite (no_ledger s a Hn) in Ey. unfold unlockable_amount, active_locked_amount in Ey.
  rewrite default_staked in Ey. simpl in Ey. unfold sat_sub in Ey.
  destruct (_ <? _); injection Ey as <-; lia.
Qed.

Lemma claim_unlocked_new b (s s' : St) a :
  internal_claim_unlocked b s = Ok s' -> Ledger s !! a = None -> Ledger s' !! a = None.
Proof.
  intros Hop Hn. unfold internal_claim_unlocked in Hop.
  destruct (AccountLedger.claim_unlocked _ _) as [y l] eqn:Ec. guard_inv Hop as Ey.
  cbv zeta in Hop. bind_inv Hop as s1 Eup. injection Hop as <-. simpl.
  assert (Hn' : Ledger (if AccountLedger.is_empty l then clear_prefix b (contract_stake_count l) s else s)
    !! a = None) by by destruct (AccountLedger.is_empty l).
  apply eq_None_not_Some. intros Hs. destruct (update_ledger_new b l _ s1 a Eup Hn' Hs) as [<- _].
  rewrite (no_ledger s a Hn) in Ec. unfold AccountLedger.claim_unlocked in Ec. simpl in Ec.
  injection Ec as <- _. done.
Qed.

Lemma relock_new o (s s' : St) a :
  relock_unlocking cfg o s = Ok s' -> Ledger s !! a = None -> Ledger s' !! a = None.
Proof.
  intros Hop Hn. unfold relock_unlocking in Hop. bind_inv Hop as u Een. bind_inv Hop as acc Esig.
  cbv zeta in Hop. guard_inv Hop as Eun. destruct (consume_unlocking_chunks _) as [y l].
  guard_inv Hop as Em. bind_inv Hop as s1 Eup. injection Hop as <-. simpl.
  apply eq_None_not_Some. intros Hs. destruct (update_ledger_new acc _ s s1 a Eup Hn Hs) as [<- _].
  by rewrite (no_ledger s a Hn) in Eun.
Qed.

Lemma stake_new o c x (s s' : St) a :
  stake cfg o c x s = Ok s' -> Ledger s !! a = None -> Ledger s' !! a = None.
Proof.
  intros Hop Hn. unfold stake in Hop. cbv zeta in Hop.
  bind_inv Hop as u Een. bind_inv Hop as acc Esig. guard_inv Hop as Ex. bind_inv Hop as d Ed.
  guard_inv Hop as Enp. bind_inv Hop as l2 El2. bind_inv Hop as [info is_new] Eent.
  guard_inv Hop as Emin. guard_inv Hop as Ecnt. bind_inv Hop as s1 Eup. injection Hop as <-. simpl.
  apply eq_None_not_Some. intros Hs.
  destruct (update_ledger_new acc _ _ s1 a Eup Hn Hs) as [<- _].
  rewrite (no_ledger s a Hn) in El2.
  change (snd (maybe_cleanup_expired _ _)) with
    (snd (maybe_cleanup_expired (oldest_claimable_period cfg
      (Protocol.period_number (ActiveProtocolState s))) AccountLedger.default)) in El2.
  assert (Hcl : forall t, snd (maybe_cleanup_expired t AccountLedger.default) = AccountLedger.default)
    by done.
  rewrite Hcl in El2. unfold map_err in El2.
  destruct (AccountLedger.add_stake_amount _ _ _ _) eqn:Eadd; [|done].
  eapply default_stake, Eadd. lia.
Qed.

Lemma unstake_new o c x (s s' : St) a :
  unstake cfg o c x s = Ok s' -> Ledger s !! a = None -> Ledger s' !! a = None.
Proof.
  intros Hop Hn. unfold unstake in Hop. cbv zeta in Hop.
  bind_inv Hop as u Een. bind_inv Hop as acc Esig. guard_inv Hop as Ex. bind_inv Hop as d Ed.
  bind_inv Hop as i Ei. guard_inv Hop as Eper. guard_inv Hop as Ele.
  destruct (SingularStakingInfo.unstake _ _ _ _) as [prs i']. bind_inv Hop as l2 El2.
  destruct (if SingularStakingInfo.is_empty i' then _ else _) as [l3 s0] eqn:E3.
  bind_inv Hop as s1 Eup. injection Hop as <-. simpl.
  assert (H3 : Ledger s0 = Ledger s /\ (AccountLedger.is_empty l2 = true -> AccountLedger.is_empty l3 = true)).
  { destruct (SingularStakingInfo.is_empty i'); injection E3 as <- <-; by split. }
  destruct H3 as [Hl3 He3]. apply eq_None_not_Some. intros Hs.
  destruct (update_ledger_new acc l3 s0 s1 a Eup ltac:(by rewrite Hl3) Hs) as [<- He].
  rewrite (no_ledger s a Hn) in El2. unfold map_err in El2.
  destruct (AccountLedger.unstake_amount _ _ _ _) as [l|] eqn:Eu; [|done]. injection El2 as <-.
  apply default_unstake in Eu; [subst; by rewrite He3 in He|].
  apply Z.ltb_lt in Ex. apply Z.leb_le in Ele. unfold amount_to_unstake. cbv zeta.
  destruct (sat_sub _ _ <? _); lia.
Qed.

Lemma unstake_unregistered_new o c (s s' : St) a :
  (forall i, staker_info s a c = Some i -> 0 <= SingularStakingInfo.total_staked_amount i) ->
  unstake_from_unregistered o c s = Ok s' -> Ledger s !! a = None -> Ledger s' !! a = None.
Proof.
  intros Hnn Hop Hn. unfold unstake_from_unregistered in Hop. cbv zeta in Hop.
  bind_inv Hop as u Een. bind_inv Hop as acc Esig. guard_inv Hop as Eact.
  bind_inv Hop as i Ei. guard_inv Hop as Eper. bind_inv Hop as l2 El2. bind_inv Hop as s1 Eup.
  injection Hop as <-. simpl. apply eq_None_not_Some. intros Hs.
  destruct (update_ledger_new acc l2 _ s1 a Eup Hn Hs) as [<- He].
  rewrite (no_ledger s a Hn) in El2. unfold map_err in El2.
  destruct (AccountLedger.unstake_amount _ _ _ _) as [l|] eqn:Eu; [|done]. injection El2 as <-.
  apply default_unstake in Eu; [by subst|].
  unfold ok_or in Ei. destruct (staker_info s a c) as [j|] eqn:Hj; [|done]. injection Ei as <-.
  by apply Hnn.
Qed.

Lemma cleanup_new o (s s' : St) a :
  cleanup_expired_entries cfg o s = Ok s' -> Ledger s !! a = None -> Ledger s' !! a = None.
Proof.
  intros Hop Hn. unfold cleanup_expired_entries in Hop. cbv zeta in Hop.
  bind_inv Hop as u Een. bind_inv Hop as acc Esig. guard_inv Hop as Ecl. bind_inv Hop as s1 Eup.
  injection Hop as <-. simpl. apply eq_None_not_Some. intros Hs.
  destruct (update_ledger_new acc _ _ s1 a Eup Hn Hs) as [<- He]. revert He.
  rewrite (no_ledger _ a); [done|exact Hn].
Qed.

Lemma claim_new b (s s' : St) a :
  internal_claim_staker_rewards_for cfg b s = Ok s' -> Ledger s !! a = None -> Ledger s' !! a = None.
Proof.
  intros Hop Hn. unfold internal_claim_staker_rewards_for in Hop. cbv zeta in Hop.
  destruct (decide (a = b)) as [<-|Hne].
  { rewrite (no_ledger s a Hn) in Hop. done. }
  result_inv. apply eq_None_not_Some. intros Hs. revert Hs.
  match goal with |- context [foldl _ ?s1 ?l] =>
    assert (Hl : Ledger (foldl (fun s '(era, reward) => deposit_event (Reward b era reward) s) s1 l)
      = Ledger s1) by
      (clear; generalize s1; induction l as [|[e r] rs IH]; intros s0; simpl; [done|by rewrite IH])
  end. rewrite Hl. intros Hs.
  match goal with Hu : update_ledger _ _ _ = Ok _ |- _ =>
    by destruct (update_ledger_new _ _ _ _ a Hu Hn Hs) end.
Qed.

Lemma lock_new o x (s s' : St) a :
  lock cfg o x s = Ok s' -> Ledger s !! a = None -> is_Some (Ledger s' !! a) ->
  is_account_candidate (world s) a = false.
Proof.
  intros Hop Hn Hs. unfold lock in Hop. cbv zeta in Hop.
  bind_inv Hop as u Een. bind_inv Hop as acc Esig. guard_inv Hop as Eal. guard_inv Hop as Ez.
  guard_inv Hop as Em. bind_inv Hop as s1 Eup. injection Hop as <-. simpl in Hs.
  destruct (update_ledger_new acc _ s s1 a Eup Hn Hs) as [<- _].
  rewrite (no_ledger s a Hn) in Eal. simpl in Eal. by apply negb_true_iff in Eal.
Qed.

Lemma bonus_new b c (s s' : St) a :
  internal_claim_bonus_reward_for cfg b c s = Ok s' -> Ledger s !! a = None ->
  is_Some (Ledger s' !! a) -> a = b.
Proof.
  intros Hop Hn [l Hl]. unfold internal_claim_bonus_reward_for in Hop. cbv zeta in Hop.
  result_inv. simpl in Hl. apply lookup_insert_Some in Hl as [[<- _]|[_ Hl]]; [done|congruence].
Qed.

(** An account without a ledger gets one by locking, which a candidate cannot,
    or by a late claim of a bonus reward. *)
Lemma dispatch_new o c (s s' : St) a :
  (forall k i, staker_info s a k = Some i -> 0 <= SingularStakingInfo.total_staked_amount i) ->
  call_typed c -> dispatch cfg o c s = Ok s' -> Ledger s !! a = None ->
  is_Some (Ledger s' !! a) ->
  late_bonus_claim o c s \/ is_account_candidate (world s) a = false.
Proof.
  intros Hnn Ht Hd Hn Hs.
  assert (Hno : Ledger s' !! a = None ->
    late_bonus_claim o c s \/ is_account_candidate (world s) a = false)
    by (intros Hn'; rewrite Hn' in Hs; by destruct Hs).
  assert (Hsig : forall b, signed o = Ok b -> ensure_signed (W := V) o = Some b)
    by (intros b Hb; unfold signed, ok_or in Hb; simpl in Hb; destruct (ensure_signed o); by simplify_eq).
  destruct c; simpl in Hd, Ht; try (right; by eapply lock_new);
    try lazymatch type of Hd with
      | claim_bonus_reward _ _ _ _ = _ => fail
      | claim_bonus_reward_for _ _ _ _ _ = _ => fail
      | _ => apply Hno
      end; clear Hno;
    try (by eapply stake_new); try (by eapply unstake_new); try (by eapply relock_new);
    try (by eapply cleanup_new); try (by eapply unstake_unregistered_new; eauto);
    try (eapply unlock_new; [apply Ht|exact Hd|exact Hn]);
    unfold maintenance_mode, register, set_dapp_reward_beneficiary, set_dapp_owner, unregister,
      withdraw_unbonded, claim_unlocked, claim_staker_rewards,
      claim_staker_rewards_for, claim_bonus_reward, claim_bonus_reward_for, claim_dapp_reward, force
      in Hd; cbv zeta in Hd; try (result_inv; exact Hn).
  - bind_inv Hd as u E1. bind_inv Hd as b E2. by eapply claim_unlocked_new.
  - bind_inv Hd as u E1. bind_inv Hd as b E2. by eapply claim_unlocked_new.
  - bind_inv Hd as u E1. bind_inv Hd as b E2. by eapply claim_new.
  - left. bind_inv Hd as u E1. bind_inv Hd as b E2. exists b. split; [by apply Hsig|].
    by rewrite <- (bonus_new b c s s' a Hd Hn Hs).
  - bind_inv Hd as u E1. bind_inv Hd as b E2. by eapply claim_new.
  - left. bind_inv Hd as u E1. bind_inv Hd as b E2. simpl.
    by rewrite <- (bonus_new account c s s' a Hd Hn Hs).
Qed.

(** ** Who becomes a candidate *)

Lemma remove_candidates a (w w' : W) :
  try_remove_candidate a w = Ok w' -> Candidates w' ⊆ Candidates w.
Proof.
  unfold try_remove_candidate. intros Hr. destruct (list_find _ _) as [[i c]|]; [|done].
  injection Hr as <-. simpl. apply sublist_subseteq, sublist_delete.
Qed.

Lemma slash_candidates a (w : W) : Candidates (slash_non_candidate ccfg a w) = Candidates w.
Proof.
  unfold slash_non_candidate. destruct (NonCandidates w !! a) as [[i d]|]; [|done].
  by destruct (slash_reserved _ _ _).
Qed.

Lemma kick_candidates now es (w : W) :
  Candidates (foldl (kick_if_stale ccfg now) w es) ⊆ Candidates w.
Proof.
  revert w. induction es as [|[a la] es IH]; intros w; [done|]. cbn [foldl].
  etrans; [apply IH|]. unfold kick_if_stale. destruct (_ <? _); [done|].
  destruct (is_account_candidate w a).
  - destruct (_ <? _); [|done]. rewrite slash_candidates.
    destruct (try_remove_candidate a w) eqn:Hr; [by eapply remove_candidates|done].
  - destruct (NonCandidates w !! a) as [[i d]|]; [|done]. destruct (_ <? _); [done|].
    by rewrite slash_candidates.
Qed.

Lemma candidate_mono (w w' : W) a :
  Candidates w' ⊆ Candidates w -> is_account_candidate w' a = true -> is_account_candidate w a = true.
Proof.
  rewrite !is_account_candidate_iff, !list_elem_of_fmap. intros Hsub (c & -> & Hc). eauto.
Qed.

Lemma collator_step_new allowed (w w' : W) a :
  collator_step ccfg allowed w w' -> is_account_candidate w' a = true ->
  is_account_candidate w a = true \/ allowed a = true.
Proof.
  intros Hst Hc. destruct Hst as [o new s s' Hop|o m s s' Hm Hop|o x s s' Hx Hop|o d s s' Hop
    |o s s' Hop|o s s' Hop|o s s' Hop|b s|s|w' s Hw].
  - unfold set_invulnerables in Hop. result_inv. by left.
  - unfold set_desired_candidates in Hop. result_inv. by left.
  - unfold set_candidacy_bond in Hop. result_inv. by left.
  - unfold set_slash_destination in Hop. result_inv. by left.
  - unfold register_as_candidate in Hop.
    bind_inv Hop as b Esig. guard_inv Hop as Elen. guard_inv Hop as Einv. guard_inv Hop as Eal.
    bind_inv Hop as u Ereg. bind_inv Hop as s1 Etake. guard_inv Hop as Ecand.
    bind_inv Hop as w' Eres. injection Hop as <-. revert Hc.
    assert (Hc1 : Candidates s1 = Candidates s).
    { unfold take_unlocked_bond in Etake. destruct (NonCandidates s !! b) as [[i d]|]; by result_inv. }
    rewrite !is_account_candidate_iff. simpl. rewrite fmap_app, elem_of_app, Hc1. simpl.
    intros [Hc|Hc%list_elem_of_singleton]; [by left|right; by subst].
  - left. unfold leave_intent in Hop. bind_inv Hop as b Esig. guard_inv Hop as Emin.
    eapply candidate_mono; [by eapply remove_candidates|done].
  - left. unfold withdraw_bond in Hop. bind_inv Hop as b Esig.
    destruct (NonCandidates s !! b) as [[i d]|]; by result_inv.
  - by left.
  - left. eapply candidate_mono, Hc. unfold new_session, kick_stale_candidates. simpl.
    apply kick_candidates.
  - by left.
Qed.

(** ** The two roles exclude each other *)

Section laws.
Context `{!CurrencyLaws AccountId V, !RewardHandlerLaws AccountId V, !ObserverLaws AccountId V}.

Lemma runtime_is_reachable P (s : St) : runtime_reachable P s -> reachable cfg s.
Proof.
  induction 1 as [g inv bond desired v w s Hg Hb Hs|o c s s' _ IH Ht _ Hd|s s' _ IH Hst].
  - by eapply reachable_genesis.
  - eapply reachable_step; [exact IH|]. by eapply step_call.
  - eapply reachable_step; [exact IH|]. destruct Hst as [now s|b s|b s|w s Hc Hw|v s Hv].
    + apply step_block.
    + apply step_idle.
    + apply step_safe_mode.
    + by apply step_world.
    + by apply step_world.
Qed.

Lemma runtime_step_era (s s' : St) :
  reachable cfg s -> runtime_step s s' -> current_era s <= current_era s'.
Proof.
  intros Hr Hst. pose proof (reachable_era cfg s Hr).
  assert (Hs : step cfg s s').
  { destruct Hst; [apply step_block|apply step_idle|apply step_safe_mode|by apply step_world..]. }
  apply step_era in Hs. ulia.
Qed.

Lemma block_keeps now (s : St) :
  Ledger (on_initialize cfg now s) = Ledger s /\
  Candidates (world (on_initialize cfg now s)) = Candidates (world s).
Proof.
  unfold on_initialize. destruct (handler_cases cfg (saturated_into u32_max now) s)
    as (w & Hw & Hs).
  assert (Hcw : Candidates w = Candidates (world s)) by (destruct Hw as [->| ->]; done).
  destruct Hs as [->|[Hl _ Hwo _ _ _ _ _]]; [by split|]. by rewrite Hl, Hwo.
Qed.

Lemma idle_keeps b (s : St) :
  Ledger (on_idle cfg b s) = Ledger s /\ world (on_idle cfg b s) = world s.
Proof.
  unfold on_idle, expired_entry_cleanup. destruct (negb b); [done|]. destruct (negb _); [done|].
  destruct (if _ <? _ then _ else _) as [rw idx]. by destruct (if _ <? _ then _ else _) as [ts ti].
Qed.

(** C23: in every execution of the two pallets together in which no bonus reward
    is claimed for an account that has left dApp staking, no account ever has a
    ledger in dApp staking and is a collator candidate at the same time. *)
Theorem stakers_are_not_candidates (s : St) :
  config_ok cfg -> current_era s < u32_max ->
  runtime_reachable (fun o c s => ~ late_bonus_claim o c s) s -> exclusive s.
Proof.
  intros Hcfg Hmax Hr.
  induction Hr as [g inv bond desired v w s Hg Hb Hs|o c s s' Hr IH Ht Hadm Hd|s s' Hr IH Hst].
  - intros a Ha. unfold build in Hs. result_inv. unfold is_staker in Ha. simpl in Ha.
    by rewrite bool_decide_eq_true, lookup_empty, is_Some_alt in Ha.
  - pose proof (runtime_is_reachable _ s Hr) as Hreach.
    destruct (dispatch_clock cfg o c s s' Hd) as [He _].
    assert (Hmax' : current_era s < u32_max) by (unfold current_era in *; lia).
    pose proof (reachable_inv cfg Hcfg s Hreach Hmax') as Hinv. specialize (IH Hmax').
    intros a Ha. unfold is_staker in Ha. rewrite bool_decide_eq_true in Ha.
    assert (Hc : is_account_candidate (world s') a = is_account_candidate (world s) a)
      by (unfold is_account_candidate; by rewrite (dispatch_candidates o c s s' Hd)).
    rewrite Hc. destruct (Ledger s !! a) as [l|] eqn:Hl.
    + apply IH. unfold is_staker. by rewrite Hl.
    + destruct (dispatch_new o c s s' a) as [Hlate|Hno]; try done.
      intros k i Hi. destruct (inv_staker _ s Hinv a k i Hi) as [Hv _ _].
      apply total_nonneg, Hv.
  - pose proof (runtime_is_reachable _ s Hr) as Hreach.
    pose proof (runtime_step_era s s' Hreach Hst). specialize (IH ltac:(lia)).
    destruct Hst as [now s|b s|b s|w s Hc Hw|v s Hv].
    + destruct (block_keeps now s) as [Hl Hca]. intros a Ha. unfold is_staker in Ha. rewrite Hl in Ha.
      unfold is_account_candidate. rewrite Hca. by apply IH.
    + destruct (idle_keeps b s) as [Hl Hwo]. intros a Ha. unfold is_staker in Ha. rewrite Hl in Ha.
      rewrite Hwo. by apply IH.
    + intros a Ha. destruct b; by apply IH.
    + intros a Ha. simpl. destruct (is_account_candidate w a) eqn:Hca; [|done].
      change (is_staker s a = true) in Ha.
      destruct (collator_step_new _ (world s) w a Hc Hca) as [Hold|Hal].
      * by rewrite (IH a Ha) in Hold.
      * unfold allowed_candidacy in Hal. by rewrite Ha in Hal.
    + intros a Ha. by apply IH.
Qed.
End laws.
End composition.

(** ** A world for both pallets *)

Record BothWorld := mkBothWorld {
  bw_staking : ExWorld;
  bw_collators : CollatorWorld;
}.

Definition with_staking (v : BothWorld) (w : ExWorld) : BothWorld := mkBothWorld w (bw_collators v).
Definition with_collators (v : BothWorld) (w : CollatorWorld) : BothWorld :=
  mkBothWorld (bw_staking v) w.

#[export] Instance BwCurrency : Currency Z BothWorld := {|
  total_balance v := total_balance (bw_staking v);
  total_issuance v := total_issuance (bw_staking v);
  set_freeze v a x := with_staking v <$> set_freeze (bw_staking v) a x;
  thaw v a := with_staking v <$> thaw (bw_staking v) a;
|}.
#[export] Instance BwSystem : FrameSystem Z ExOrigin BothWorld := {|
  block_number v := block_number (bw_staking v);
  ensure_signed := ensure_signed (W := ExWorld);
  ensure_root := ensure_root (W := ExWorld);
  ensure_signed_or_root := ensure_signed_or_root (W := ExWorld);
|}.
#[export] Instance BwObserver : Observer BothWorld := {| block_before_new_era v _ := v |}.
#[export] Instance BwRewards : StakingRewardHandler Z BothWorld := {|
  staker_and_dapp_reward_pools v := staker_and_dapp_reward_pools (bw_staking v);
  Primitives.bonus_reward_pool v := Primitives.bonus_reward_pool (bw_staking v);
  payout_reward v a x := with_staking v <$> payout_reward (bw_staking v) a x;
|}.
#[export] Instance BwPrice : PriceProvider BothWorld :=
  {| average_price v := average_price (bw_staking v) |}.
#[export] Instance BwReservable : ReservableCurrency Z BothWorld := {|
  free_balance v := free_balance (bw_collators v);
  reserved_balance v := reserved_balance (bw_collators v);
  minimum_balance := minimum_balance (AccountId := Z) (W := CollatorWorld);
  reserve v a x := with_collators v <$> reserve (bw_collators v) a x;
  unreserve v a x := with_collators v (unreserve (bw_collators v) a x);
  slash_reserved v a x :=
    let '(w, imb) := slash_reserved (bw_collators v) a x in (with_collators v w, imb);
  resolve_creating v a x := with_collators v (resolve_creating (bw_collators v) a x);
  transfer_keep_alive v a b x := with_collators v <$> transfer_keep_alive (bw_collators v) a b x;
|}.
#[export] Instance BwValidators : ValidatorSet Z Z BothWorld := {|
  validator_id_of a := Some a;
  is_registered _ _ := true;
  session_index v := cw_session (bw_collators v);
|}.
#[export] Instance BwUpdateOrigin : UpdateOrigin ExOrigin :=
  {| update_origin o := match o with Root => true | Signed _ => false end |}.

#[export] Instance BwCurrencyLaws : CurrencyLaws Z BothWorld.
Proof.
  split.
  - intros w a. exact (total_balance_nonneg (bw_staking w) a).
  - intros w. exact (total_issuance_range (AccountId := Z) (bw_staking w)).
  - intros w l. exact (total_balance_sum (bw_staking w) l).
  - done.
  - done.
Qed.
#[export] Instance BwRewardLaws : RewardHandlerLaws Z BothWorld.
Proof. split. simpl. intros. lia. Qed.
#[export] Instance BwObserverLaws : ObserverLaws Z BothWorld.
Proof. split. simpl. intros. lia. Qed.

(** ** Runs of both pallets *)

Abbreviation BothSt := (Storage Z (CollatorStorage Z BothWorld)).

Inductive BothAction :=
| both_block
| both_call (o : ExOrigin) (c : Call Z)
| both_candidate (a : Z).

Section runs.
Existing Instance ExactArithmetic.
Existing Instance StableOrder.

Definition both_start_world : CollatorStorage Z BothWorld :=
  mkCollatorStorage [7] [] ∅ ∅ 5 100 None []
    (mkBothWorld (mkExWorld 1 ∅ []) (collator_world cw_start)).

Definition both_start : option BothSt := build ex_cfg ex_genesis both_start_world.

Definition next_block (s : BothSt) : BothSt :=
  let v := collator_world (world s) in
  let w := bw_staking v in
  put_world (put_collator_world
    (with_staking v (mkExWorld (ex_block w + 1) (ex_frozen w) (ex_paid w))) (world s)) s.

Definition both_act (x : BothAction) (s : BothSt) : option BothSt :=
  match x with
  | both_block =>
      let s := next_block s in
      Some (on_initialize ex_cfg (ex_block (bw_staking (collator_world (world s)))) s)
  | both_call o c => to_option (dispatch ex_cfg o c s)
  | both_candidate a =>
      (fun w => put_world w s) <$>
        to_option (register_as_candidate cw_cfg (allowed_candidacy s) (Signed a) (world s))
  end.

Fixpoint both_run (xs : list BothAction) (s : BothSt) : option BothSt :=
  match xs with
  | [] => Some s
  | x :: xs => both_act x s ≫= both_run xs
  end.

Definition both_after (xs : list BothAction) : option BothSt := both_start ≫= both_run xs.

(** A typed action whose call the execution admits in any state. *)
Definition both_ok (P : ExOrigin -> Call Z -> BothSt -> Prop) (x : BothAction) : Prop :=
  match x with both_call o c => call_typed c /\ forall s, P o c s | _ => True end.

Lemma register_balance allowed o (w w' : CollatorStorage Z BothWorld) a :
  register_as_candidate cw_cfg allowed o w = Ok w' -> total_balance w' a = total_balance w a.
Proof. done. Qed.

Lemma both_act_reachable P x s s' :
  both_ok P x -> runtime_reachable ex_cfg cw_cfg P s -> current_era s < u32_max ->
  both_act x s = Some s' -> runtime_reachable ex_cfg cw_cfg P s'.
Proof.
  intros Hok Hr Hmax Ha.
  pose proof (reachable_inv ex_cfg ex_cfg_ok s (runtime_is_reachable ex_cfg cw_cfg P s Hr) Hmax) as Hinv.
  assert (Hbal : forall a l, Ledger s !! a = Some l ->
    total_locked_amount l <= total_balance (world s) a)
    by (intros a l Hl; by apply (inv_ledger _ s Hinv a l)).
  destruct x as [|o c|a]; cbn [both_act] in Ha.
  - injection Ha as <-. eapply rt_other; [|apply rt_block].
    eapply rt_other; [exact Hr|]. apply rt_outside. exact Hbal.
  - unfold to_option in Ha. destruct (dispatch ex_cfg o c s) eqn:Hd; [|done]. injection Ha as <-.
    destruct Hok as [Ht HP]. by eapply rt_call.
  - unfold to_option in Ha. apply fmap_Some in Ha as (w & Hw & ->).
    destruct (register_as_candidate _ _ _ _) as [w'|] eqn:Hreg; [|done]. injection Hw as ->.
    eapply rt_other; [exact Hr|]. apply rt_collators; [by eapply step_register|].
    intros b l Hl. rewrite (register_balance _ _ _ _ _ Hreg). by apply Hbal.
Qed.

(** Whether a run succeeds without reaching the last era. *)
Fixpoint both_runs (xs : list BothAction) (s : BothSt) : bool :=
  match xs with
  | [] => true
  | x :: xs =>
      (current_era s <? u32_max) &&
      match both_act x s with Some s => both_runs xs s | None => false end
  end.

Lemma both_run_reachable P xs s s' :
  Forall (both_ok P) xs -> runtime_reachable ex_cfg cw_cfg P s -> both_runs xs s = true ->
  both_run xs s = Some s' -> runtime_reachable ex_cfg cw_cfg P s'.
Proof.
  intros Hall. revert s. induction Hall as [|x xs Hx Hall IH]; intros s Hr Hb Hrun;
    cbn [both_run both_runs] in *; [by simplify_eq|].
  apply andb_true_iff in Hb as [He Hb]. destruct (both_act x s) as [s1|] eqn:Ha; [|done].
  apply (IH s1); [|done|done]. by apply (both_act_reachable P x s); [..|lia|].
Qed.

Lemma both_after_reachable P xs s :
  Forall (both_ok P) xs -> from_option (both_runs xs) false both_start = true ->
  both_after xs = Some s -> runtime_reachable ex_cfg cw_cfg P s.
Proof.
  intros Hall Hb Hs. unfold both_after in Hs. destruct both_start as [s0|] eqn:H0; [|done].
  apply (both_run_reachable P xs s0 s); try done.
  apply (rt_genesis ex_cfg cw_cfg P ex_genesis [7] 100 5
    (collator_world both_start_world) both_start_world); [|by vm_compute|exact H0].
  split_and!; repeat constructor; simpl; unfold in_range; lia.
Qed.

(** Account 1 stakes, account 2 becomes a candidate. *)
Definition both_roles : list BothAction :=
  [both_call Root (call_register 8 dapp1); both_call (Signed 1) (call_lock 1000);
   both_call (Signed 1) (call_stake dapp1 300); both_candidate 2].

Lemma both_blocks_ok P n : Forall (both_ok P) (replicate n both_block).
Proof. induction n; by constructor. Qed.

Lemma stakers_are_not_candidates_witness :
  match both_after (both_roles ++ replicate 10 both_block) with
  | Some s => is_staker s 1 = true /\ is_account_candidate (world s) 2 = true /\
      is_account_candidate (world s) 1 = false
  | None => False
  end.
Proof.
  assert (Hall : Forall (both_ok (fun o c s => ~ late_bonus_claim o c s))
    (both_roles ++ replicate 10 both_block)).
  { apply Forall_app. split; [|apply both_blocks_ok].
    repeat constructor; simpl; unfold in_range; try lia; intros s []. }
  assert (Hb : from_option (both_runs (both_roles ++ replicate 10 both_block)) false both_start = true)
    by by vm_compute.
  assert (Hs : match both_after (both_roles ++ replicate 10 both_block) with
    | Some s => is_staker s 1 = true /\ is_account_candidate (world s) 2 = true /\
        current_era s < u32_max
    | None => False end) by (clear; vm_compute; repeat split).
  pose proof (fun s => both_after_reachable _ _ s Hall Hb) as Hr. revert Hs Hr. clear.
  destruct (both_after _) as [s|]; [|done]. intros (H1 & H2 & He) Hr.
  split; [exact H1|]. split; [exact H2|].
  exact (stakers_are_not_candidates ex_cfg cw_cfg s ex_cfg_ok He (Hr s eq_refl) 1 H1).
Defined.

(** The account leaves dApp staking and becomes a candidate; then somebody
    claims the bonus reward it is still owed. *)
Definition late_bonus_run : list BothAction :=
  [both_call Root (call_register 8 dapp1); both_call (Signed 1) (call_lock 1000);
   both_call (Signed 1) (call_stake dapp1 300)] ++ replicate 50 both_block ++
  [both_call (Signed 1) (call_unlock 1000)] ++ replicate 50 both_block ++
  [both_call (Signed 1) call_claim_unlocked; both_call (Signed 1) call_claim_staker_rewards;
   both_call (Signed 1) call_claim_staker_rewards; both_candidate 1;
   both_call (Signed 2) (call_claim_bonus_reward_for 1 dapp1)].

(** Without the restriction the exclusion fails: an account that has left
    dApp staking becomes a candidate, and a bonus reward that anybody claims on
    its behalf gives it a ledger again while it is one. *)
Theorem candidate_becomes_staker :
  match both_after late_bonus_run with
  | Some s => runtime_reachable ex_cfg cw_cfg (fun _ _ _ => True) s /\
      is_staker s 1 = true /\ is_account_candidate (world s) 1 = true
  | None => False
  end.
Proof.
  assert (Hall : Forall (both_ok (fun _ _ _ => True)) late_bonus_run).
  { unfold late_bonus_run. rewrite !Forall_app.
    split_and!; try apply both_blocks_ok; repeat constructor; simpl; unfold in_range; lia. }
  assert (Hb : from_option (both_runs late_bonus_run) false both_start = true) by by vm_compute.
  assert (Hs : match both_after late_bonus_run with
    | Some s => is_staker s 1 = true /\ is_account_candidate (world s) 1 = true
    | None => False end) by (clear; vm_compute; repeat split).
  pose proof (fun s => both_after_reachable _ _ s Hall Hb) as Hr. revert Hs Hr. clear.
  destruct (both_after _) as [s|]; [|done]. intros Hs Hr. split; [by apply Hr|exact Hs].
Qed.
End runs.
