(* ===== verification/UnifiedAccounts.v ===== *)
(** * The unified accounts pallet

    [pallets/unified-accounts/src/lib.rs] and the address mapper trait of
    [primitives/src/evm.rs]: an account and an EVM address are bound to each
    other, once and for good, by the owner of both.  Hashing, signature
    recovery and the currency are outside the repository. *)

From stdpp Require Import strings.
From Stdlib Require Import Ascii.
From S2P Require Import Prelude Frame.

(** ** Bytes *)

Abbreviation bytes := (list Z).

Definition bytes_of_string (s : string) : bytes :=
  (fun c => Z.of_N (N_of_ascii c)) <$> String.list_ascii_of_string s.

(** [n] as [k] bytes, most significant first. *)
Fixpoint be_bytes (k : nat) (n : Z) : bytes :=
  match k with
  | O => []
  | S k => be_bytes k (n / 256) ++ [n mod 256]
  end.

(** An EVM address is twenty bytes. *)
Abbreviation EvmAddress := bytes.

(** [keccak_256] and [secp256k1_ecdsa_recover] of [sp_io], which yields the
    public key or fails. *)
Class Crypto := {
  keccak_256 : bytes -> bytes;
  secp256k1_ecdsa_recover : bytes -> bytes -> option bytes;
}.

(** The SCALE encoding of an account id. *)
Class Encode (A : Type) := { encode : A -> bytes }.

(** [FungibleMutate]: what an account can spend with and without staying alive,
    burning while it stays alive, and a transfer that may reap the sender; the
    list names the accounts that were reaped. *)
Class FungibleMutate (AccountId W : Type) := {
  reducible_preserve : W -> AccountId -> Z;
  reducible_expendable : W -> AccountId -> Z;
  burn_from : W -> AccountId -> Z -> option W;
  transfer_expendable : W -> AccountId -> AccountId -> Z -> option (W * list AccountId);
  account_exists : W -> AccountId -> bool;
}.

(** ** [UnifiedAddressMapper] *)

Inductive UnifiedAddress (Address : Type) :=
| Mapped (a : Address)
| Default (a : Address).
Arguments Mapped {Address} a.
Arguments Default {Address} a.

Definition into_address {Address} (u : UnifiedAddress Address) : Address :=
  match u with Default a => a | Mapped a => a end.

Class UnifiedAddressMapper (AccountId M : Type) := {
  to_account_id : M -> EvmAddress -> option AccountId;
  to_default_account_id : M -> EvmAddress -> AccountId;
  to_h160 : M -> AccountId -> option EvmAddress;
  to_default_h160 : M -> AccountId -> EvmAddress;
}.

Section mapper.
Context {AccountId M : Type} `{!UnifiedAddressMapper AccountId M} (m : M).

Definition to_account_id_or_default (evm_address : EvmAddress) : UnifiedAddress AccountId :=
  match to_account_id m evm_address with
  | Some a => Mapped a
  | None => Default (to_default_account_id m evm_address)
  end.

Definition to_h160_or_default (account_id : AccountId) : UnifiedAddress EvmAddress :=
  match to_h160 m account_id with
  | Some a => Mapped a
  | None => Default (to_default_h160 m account_id)
  end.
End mapper.

(** [HashedDefaultMappings]: [hash] is the runtime's hasher and
    [into_account_id] is [HashedAddressMapping] of the EVM pallet; nothing is
    mapped. *)
Definition hashed_default_mappings {AccountId : Type} `{!Encode AccountId}
    (hash : bytes -> bytes) (hashed_into_account_id : EvmAddress -> AccountId)
    : UnifiedAddressMapper AccountId unit := {|
  to_account_id _ _ := None;
  to_default_account_id _ e := hashed_into_account_id e;
  to_h160 _ _ := None;
  to_default_h160 _ a := take 20 (hash (bytes_of_string "evm:" ++ encode a));
|}.

(** ** The pallet *)

Record UnifiedConfig := mkUnifiedConfig {
  ChainId : Z;
  AccountMappingStorageFee : Z;
}.

(** The errors of the pallet, of its origin check and of the currency. *)
Inductive UnifiedError :=
| AlreadyMapped
| UnexpectedSignatureFormat
| InvalidSignature
| FundsUnavailable
| UnifiedBadOrigin
| FungibleFailed.

Inductive UnifiedEvent (AccountId : Type) :=
| AccountClaimed (account_id : AccountId) (evm_address : EvmAddress).
Arguments AccountClaimed {AccountId}.

Record UnifiedStorage (AccountId W : Type) `{Countable AccountId} := mkUnifiedStorage {
  EvmToNative : gmap EvmAddress AccountId;
  NativeToEvm : gmap AccountId EvmAddress;
  unified_events : list (UnifiedEvent AccountId);
  unified_world : W;
}.
Arguments mkUnifiedStorage {AccountId W EqDecision0 H}.
Arguments EvmToNative {AccountId W EqDecision0 H}.
Arguments NativeToEvm {AccountId W EqDecision0 H}.
Arguments unified_events {AccountId W EqDecision0 H}.
Arguments unified_world {AccountId W EqDecision0 H}.

Section pallet.
Context {AccountId Origin W D : Type} `{Countable AccountId}.
Context `{!Crypto, !Encode AccountId, !FungibleMutate AccountId W}.
Context `{!FrameSystem AccountId Origin W, !UnifiedAddressMapper AccountId D} (defaults : D).
Context (cfg : UnifiedConfig) (genesis_hash : bytes).

Abbreviation St := (UnifiedStorage AccountId W).
Abbreviation Outcome := (Result St UnifiedError).

Definition put_unified_world (w : W) (s : St) : St :=
  mkUnifiedStorage (EvmToNative s) (NativeToEvm s) (unified_events s) w.

(** *** Signatures *)

Definition build_domain_separator : bytes :=
  keccak_256
    (keccak_256 (bytes_of_string
       "EIP712Domain(string name,string version,uint256 chainId,bytes32 salt)")
     ++ keccak_256 (bytes_of_string "Astar EVM Claim")
     ++ keccak_256 (bytes_of_string "1")
     ++ be_bytes 32 (ChainId cfg)
     ++ genesis_hash).

Definition build_args_hash (account : AccountId) : bytes :=
  keccak_256
    (keccak_256 (bytes_of_string "Claim(bytes substrateAddress)") ++ keccak_256 (encode account)).

Definition build_signing_payload (who : AccountId) : bytes :=
  keccak_256 ([25; 1] ++ build_domain_separator ++ build_args_hash who).

(** The address is the last twenty bytes of the hash of the public key. *)
Definition verify_signature (who : AccountId) (sig : bytes) : option EvmAddress :=
  (fun pubkey => drop 12 (keccak_256 pubkey)) <$>
    secp256k1_ecdsa_recover sig (build_signing_payload who).

(** *** Mappings *)

Definition charge_storage_fee (who : AccountId) (s : St) : Outcome :=
  let balance := reducible_preserve (unified_world s) who in
  let fee := AccountMappingStorageFee cfg in
  ensure! (fee <=? balance) else FundsUnavailable in
  let! w := ok_or (burn_from (unified_world s) who (AccountMappingStorageFee cfg)) FungibleFailed in
  Ok (put_unified_world w s).

(** [KillAccountMapping::on_killed_account]. *)
Definition on_killed_account (who : AccountId) (s : St) : St :=
  match NativeToEvm s !! who with
  | Some evm_addr =>
      mkUnifiedStorage (delete evm_addr (EvmToNative s)) (delete who (NativeToEvm s))
        (unified_events s) (unified_world s)
  | None => s
  end.

(** The two insertions and the event at the end of both claims. *)
Definition bind_accounts (who : AccountId) (evm_address : EvmAddress) (s : St) : St :=
  mkUnifiedStorage (<[evm_address := who]> (EvmToNative s)) (<[who := evm_address]> (NativeToEvm s))
    (unified_events s ++ [AccountClaimed who evm_address]) (unified_world s).

(** The transfer of what the default account of the address holds; the
    currency tells the pallet whom it reaps. *)
Definition sweep_default_account (who : AccountId) (evm_address : EvmAddress) (s : St) : Outcome :=
  let default_account_id := to_default_account_id defaults evm_address in
  if account_exists (unified_world s) default_account_id then
    let! (w, killed) :=
      ok_or (transfer_expendable (unified_world s) default_account_id who
               (reducible_expendable (unified_world s) default_account_id)) FungibleFailed in
    Ok (put_unified_world w (foldr on_killed_account s killed))
  else Ok s.

Definition unified_signed (origin : Origin) : Result AccountId UnifiedError :=
  ok_or (ensure_signed (W := W) origin) UnifiedBadOrigin.

Definition claim_evm_address (origin : Origin) (evm_address : EvmAddress) (signature : bytes)
    (s : St) : Outcome :=
  let! who := unified_signed origin in
  ensure! bool_decide (NativeToEvm s !! who = None) else AlreadyMapped in
  ensure! bool_decide (EvmToNative s !! evm_address = None) else AlreadyMapped in
  let! address := ok_or (verify_signature who signature) UnexpectedSignatureFormat in
  ensure! bool_decide (evm_address = address) else InvalidSignature in
  let! s := charge_storage_fee who s in
  let! s := sweep_default_account who evm_address s in
  Ok (bind_accounts who evm_address s).

Definition do_claim_default_evm_address (account_id : AccountId) (s : St)
    : Result (EvmAddress * St) UnifiedError :=
  ensure! bool_decide (NativeToEvm s !! account_id = None) else AlreadyMapped in
  let evm_address := to_default_h160 defaults account_id in
  ensure! bool_decide (EvmToNative s !! evm_address = None) else AlreadyMapped in
  let! s := charge_storage_fee account_id s in
  Ok (evm_address, bind_accounts account_id evm_address s).

Definition claim_default_evm_address (origin : Origin) (s : St) : Outcome :=
  let! who := unified_signed origin in
  let! (_, s) := do_claim_default_evm_address who s in
  Ok s.

(** *** The mapper the pallet offers *)

Definition unified_mapper : UnifiedAddressMapper AccountId St := {|
  to_account_id s e := EvmToNative s !! e;
  to_default_account_id _ e := to_default_account_id defaults e;
  to_h160 s a := NativeToEvm s !! a;
  to_default_h160 _ a := to_default_h160 defaults a;
|}.

(** [AddressMapping::into_account_id]. *)
Definition into_account_id (s : St) (evm_address : EvmAddress) : AccountId :=
  into_address (to_account_id_or_default (UnifiedAddressMapper0 := unified_mapper) s evm_address).

(** [StaticLookup]: only a twenty byte address is looked up here. *)
Inductive MultiAddress :=
| Id (a : AccountId)
| Index
| Raw (b : bytes)
| Address32 (b : bytes)
| Address20 (b : bytes).

Definition lookup_address (s : St) (a : MultiAddress) : option AccountId :=
  match a with
  | Address20 i => Some (into_account_id s i)
  | _ => None
  end.

Definition unlookup_address (a : AccountId) : MultiAddress := Id a.

(** ** Executions *)

Inductive UnifiedAction :=
| ua_claim (o : Origin) (e : EvmAddress) (sig : bytes)
| ua_claim_default (o : Origin)
| ua_killed (a : AccountId)
| ua_world (w : W).

Definition unified_act (x : UnifiedAction) (s : St) : Outcome :=
  match x with
  | ua_claim o e sig => claim_evm_address o e sig s
  | ua_claim_default o => claim_default_evm_address o s
  | ua_killed a => Ok (on_killed_account a s)
  | ua_world w => Ok (put_unified_world w s)
  end.

Inductive unified_reachable : St -> Prop :=
| unified_genesis w : unified_reachable (mkUnifiedStorage ∅ ∅ [] w)
| unified_reachable_act x s s' :
    unified_reachable s -> unified_act x s = Ok s' -> unified_reachable s'.

(** The accounts an action can reap: one that is killed, and the default
    account of an address that is claimed. *)
Definition may_reap (x : UnifiedAction) (a : AccountId) : Prop :=
  match x with
  | ua_claim _ e _ => a = to_default_account_id defaults e
  | ua_killed b => a = b
  | _ => False
  end.

(** ** The mappings are inverse to each other *)

Definition paired (s : St) : Prop :=
  forall a e, NativeToEvm s !! a = Some e <-> EvmToNative s !! e = Some a.

Lemma killed_paired a s : paired s -> paired (on_killed_account a s).
Proof.
  intros Hp. unfold on_killed_account. destruct (NativeToEvm s !! a) as [e|] eqn:Ha; [|done].
  pose proof (proj1 (Hp a e) Ha) as He. intros b x. simpl.
  rewrite !lookup_delete_Some, (Hp b x). split; intros [Hne Hx]; split; try done.
  - intros <-. congruence.
  - intros <-. apply Hp in Hx. congruence.
Qed.

(** A kill unbinds no other account. *)
Lemma killed_other a b s :
  b <> a -> NativeToEvm (on_killed_account a s) !! b = NativeToEvm s !! b.
Proof.
  intros Hne. unfold on_killed_account. destruct (NativeToEvm s !! a); [|done]. simpl.
  by rewrite lookup_delete_ne.
Qed.

Lemma killed_unbound a s b :
  NativeToEvm s !! b = None -> NativeToEvm (on_killed_account a s) !! b = None.
Proof.
  intros Hb. unfold on_killed_account. destruct (NativeToEvm s !! a); [|done]. simpl.
  by apply lookup_delete_None; right.
Qed.

Lemma killed_free a s e :
  EvmToNative s !! e = None -> EvmToNative (on_killed_account a s) !! e = None.
Proof.
  intros He. unfold on_killed_account. destruct (NativeToEvm s !! a); [|done]. simpl.
  by apply lookup_delete_None; right.
Qed.

Lemma bind_paired a e s :
  paired s -> NativeToEvm s !! a = None -> EvmToNative s !! e = None ->
  paired (bind_accounts a e s).
Proof.
  intros Hp Ha He b x. simpl. rewrite !lookup_insert_Some. split.
  - intros [[<- <-]|[Hne Hx]]; [by left|]. apply Hp in Hx. right. split; [congruence|done].
  - intros [[<- <-]|[Hne Hx]]; [by left|]. apply Hp in Hx. right. split; [congruence|done].
Qed.

Lemma charge_keeps a s s' :
  charge_storage_fee a s = Ok s' ->
  NativeToEvm s' = NativeToEvm s /\ EvmToNative s' = EvmToNative s /\
  unified_events s' = unified_events s /\
  AccountMappingStorageFee cfg <= reducible_preserve (unified_world s) a /\
  burn_from (unified_world s) a (AccountMappingStorageFee cfg) = Some (unified_world s').
Proof.
  unfold charge_storage_fee. intros Hc. cbv zeta in Hc. guard_inv Hc as Hle. bind_inv Hc as w Hw.
  injection Hc as <-. unfold ok_or in Hw. destruct (burn_from _ _ _); [|done]. injection Hw as ->.
  split_and!; try done. lia.
Qed.

(** What the sweep of the default account can do to the mappings. *)
Lemma sweep_shape a e s s' :
  sweep_default_account a e s = Ok s' ->
  exists killed w, s' = put_unified_world w (foldr on_killed_account s killed) /\
    (killed = [] \/ transfer_expendable (unified_world s) (to_default_account_id defaults e) a
        (reducible_expendable (unified_world s) (to_default_account_id defaults e)) =
      Some (w, killed)).
Proof.
  unfold sweep_default_account. intros Hs. cbv zeta in Hs. destruct (account_exists _ _).
  - bind_inv Hs as [w killed] Hw. injection Hs as <-. exists killed, w. split; [done|]. right.
    unfold ok_or in Hw. destruct (transfer_expendable _ _ _ _) as [p|]; [|done]. by injection Hw as ->.
  - injection Hs as <-. exists [], (unified_world s). split; [by destruct s|by left].
Qed.

Lemma killed_all_paired ks s : paired s -> paired (foldr on_killed_account s ks).
Proof. intros Hp. induction ks as [|k ks IH]; simpl; [done|]. by apply killed_paired. Qed.

Lemma killed_all_unbound ks s a e :
  NativeToEvm s !! a = None -> EvmToNative s !! e = None ->
  NativeToEvm (foldr on_killed_account s ks) !! a = None /\
  EvmToNative (foldr on_killed_account s ks) !! e = None.
Proof.
  intros Ha He. induction ks as [|k ks [IHa IHe]]; simpl; [done|].
  split; [by apply killed_unbound|by apply killed_free].
Qed.

(** What a successful claim has checked and done. *)
Lemma claim_facts o e sig s s' :
  claim_evm_address o e sig s = Ok s' ->
  exists a s1 s2, ensure_signed o = Some a /\ NativeToEvm s !! a = None /\
    EvmToNative s !! e = None /\ verify_signature a sig = Some e /\
    charge_storage_fee a s = Ok s1 /\ sweep_default_account a e s1 = Ok s2 /\
    s' = bind_accounts a e s2.
Proof.
  unfold claim_evm_address. intros Hc. bind_inv Hc as a Ha. guard_inv Hc as H1. guard_inv Hc as H2.
  bind_inv Hc as x Hx. guard_inv Hc as H3. bind_inv Hc as s1 H4. bind_inv Hc as s2 H5.
  injection Hc as <-. apply bool_decide_eq_true in H1, H2, H3. subst x.
  exists a, s1, s2. unfold unified_signed, ok_or in *.
  destruct (ensure_signed o); [|done]. destruct (verify_signature a sig); [|by simplify_eq].
  by simplify_eq.
Qed.

Lemma claim_default_facts o s s' :
  claim_default_evm_address o s = Ok s' ->
  exists a s1, ensure_signed o = Some a /\ NativeToEvm s !! a = None /\
    EvmToNative s !! to_default_h160 defaults a = None /\
    charge_storage_fee a s = Ok s1 /\ s' = bind_accounts a (to_default_h160 defaults a) s1.
Proof.
  unfold claim_default_evm_address, do_claim_default_evm_address. intros Hc. cbv zeta in Hc.
  bind_inv Hc as a Ha. bind_inv Hc as [e s2] Hd. injection Hc as ->.
  guard_inv Hd as H1. guard_inv Hd as H2. bind_inv Hd as s1 H3. injection Hd as <- <-.
  apply bool_decide_eq_true in H1, H2. exists a, s1. unfold unified_signed, ok_or in Ha.
  destruct (ensure_signed o); [|done]. by simplify_eq.
Qed.

Lemma act_paired x s s' : paired s -> unified_act x s = Ok s' -> paired s'.
Proof.
  intros Hp Ha. destruct x as [o e sig|o|a|w]; simpl in Ha.
  - apply claim_facts in Ha as (a & s1 & s2 & _ & Hn & He & _ & Hc & Hs & ->).
    apply charge_keeps in Hc as (Hn1 & He1 & _). apply sweep_shape in Hs as (ks & w & -> & _).
    assert (Hp1 : paired s1) by (intros b y; rewrite Hn1, He1; apply Hp).
    rewrite <- Hn1 in Hn. rewrite <- He1 in He.
    destruct (killed_all_unbound ks s1 a e Hn He). apply bind_paired; try done.
    by apply (killed_all_paired ks).
  - apply claim_default_facts in Ha as (a & s1 & _ & Hn & He & Hc & ->).
    apply charge_keeps in Hc as (Hn1 & He1 & _). apply bind_paired; [|by rewrite Hn1|by rewrite He1].
    intros b y. rewrite Hn1, He1. apply Hp.
  - injection Ha as <-. by apply killed_paired.
  - by injection Ha as <-.
Qed.

Lemma unified_reachable_paired s : unified_reachable s -> paired s.
Proof.
  induction 1 as [w|x s s' _ IH Ha]; [|by eapply act_paired].
  intros a e. simpl. rewrite !lookup_empty. by split.
Qed.

(** C24: in every reachable state the two maps are inverse to each other: an
    account is bound to an address exactly when the address is bound to it, so
    neither is ever bound twice; and a bound address resolves to its account
    and back. *)
Theorem mappings_are_inverse (s : St) (a : AccountId) (e : EvmAddress) :
  unified_reachable s ->
  (NativeToEvm s !! a = Some e <-> EvmToNative s !! e = Some a) /\
  (NativeToEvm s !! a = Some e ->
     into_account_id s e = a /\
     to_h160_or_default (UnifiedAddressMapper0 := unified_mapper) s (into_account_id s e) = Mapped e) /\
  (forall b, NativeToEvm s !! a = Some e -> NativeToEvm s !! b = Some e -> a = b).
Proof.
  intros Hr. pose proof (unified_reachable_paired s Hr) as Hp.
  assert (Hi : NativeToEvm s !! a = Some e -> into_account_id s e = a).
  { intros Ha. unfold into_account_id, to_account_id_or_default. simpl.
    by rewrite (proj1 (Hp a e) Ha). }
  split; [apply Hp|]. split.
  - intros Ha. split; [by apply Hi|]. rewrite (Hi Ha). unfold to_h160_or_default. simpl. by rewrite Ha.
  - intros b Ha Hb. apply Hp in Ha, Hb. congruence.
Qed.

Section laws.
(** A transfer can reap nobody but its sender. *)
Context (transfer_reaps : forall w (a b : AccountId) x w' killed c,
  transfer_expendable w a b x = Some (w', killed) -> c ∈ killed -> c = a).

(** A binding is for good: no claim by anybody and no change of balances
    undoes or changes it; it ends only when the account itself is reaped, which
    a claim can do to the default account of the claimed address alone. *)
Theorem mapping_is_permanent (s s' : St) (x : UnifiedAction) (a : AccountId) (e : EvmAddress) :
  unified_reachable s -> unified_act x s = Ok s' -> NativeToEvm s !! a = Some e ->
  ~ may_reap x a -> NativeToEvm s' !! a = Some e /\ EvmToNative s' !! e = Some a.
Proof.
  intros Hr Hact Ha Hre.
  pose proof (unified_reachable_paired s' (unified_reachable_act x s s' Hr Hact)) as Hp'.
  rewrite <- (Hp' a e). assert (Hg : NativeToEvm s' !! a = Some e); [|done]. clear Hp'.
  destruct x as [o y sig|o|b|w]; simpl in Hact, Hre.
  - apply claim_facts in Hact as (b & s1 & s2 & _ & Hn & He & _ & Hc & Hs & ->).
    apply charge_keeps in Hc as (Hn1 & _). apply sweep_shape in Hs as (ks & w & -> & Hks). simpl.
    rewrite lookup_insert_ne by congruence. rewrite <- Hn1 in Ha.
    assert (Hnot : a ∉ ks).
    { intros Hin. destruct Hks as [->|Ht]; [by apply not_elem_of_nil in Hin|].
      apply Hre. by eapply transfer_reaps. }
    clear Hks. induction ks as [|k ks IH]; simpl; [done|]. apply not_elem_of_cons in Hnot as [H1 H2].
    rewrite killed_other by done. by apply IH.
  - apply claim_default_facts in Hact as (b & s1 & _ & Hn & He & Hc & ->).
    apply charge_keeps in Hc as (Hn1 & _). simpl. rewrite lookup_insert_ne by congruence. by rewrite Hn1.
  - injection Hact as <-. by rewrite killed_other.
  - by injection Hact as <-.
Qed.
End laws.

(** What a claim of an address takes: it succeeds only for a signed origin
    neither of whose sides is bound, with a signature by the claimed address
    over the caller's own payload and with the fee to spare; then the fee is
    burnt and exactly this pair is bound.  It is refused as already mapped only
    if one side is bound, as invalid only if somebody else signed, and as
    lacking funds only if the fee exceeds what the caller can spend. *)
Theorem claim_evm_address_outcome (s : St) (o : Origin) (e : EvmAddress) (sig : bytes) :
  match claim_evm_address o e sig s with
  | Ok s' => exists a w, ensure_signed o = Some a /\
      NativeToEvm s !! a = None /\ EvmToNative s !! e = None /\ verify_signature a sig = Some e /\
      AccountMappingStorageFee cfg <= reducible_preserve (unified_world s) a /\
      burn_from (unified_world s) a (AccountMappingStorageFee cfg) = Some w /\
      NativeToEvm s' !! a = Some e /\ EvmToNative s' !! e = Some a
  | Err AlreadyMapped => exists a, ensure_signed o = Some a /\
      (is_Some (NativeToEvm s !! a) \/ is_Some (EvmToNative s !! e))
  | Err UnexpectedSignatureFormat =>
      exists a, ensure_signed o = Some a /\ verify_signature a sig = None
  | Err InvalidSignature =>
      exists a x, ensure_signed o = Some a /\ verify_signature a sig = Some x /\ x <> e
  | Err FundsUnavailable => exists a, ensure_signed o = Some a /\
      reducible_preserve (unified_world s) a < AccountMappingStorageFee cfg
  | Err UnifiedBadOrigin => ensure_signed (W := W) o = None
  | Err FungibleFailed => True
  end.
Proof.
  destruct (claim_evm_address o e sig s) as [s'|er] eqn:Hc.
  - apply claim_facts in Hc as (a & s1 & s2 & Hsig & Hn & He & Hv & Hch & _ & ->).
    apply charge_keeps in Hch as (_ & _ & _ & Hfee & Hburn).
    exists a, (unified_world s1). split_and!; try done; simpl; by rewrite lookup_insert_eq.
  - unfold claim_evm_address, unified_signed in Hc. destruct (ensure_signed o) as [a|] eqn:Hsig;
      cbn [ok_or] in Hc; [|by injection Hc as <-].
    destruct (NativeToEvm s !! a) eqn:Hn; simpl in Hc;
      [injection Hc as <-; exists a; split; [done|by left]|].
    destruct (EvmToNative s !! e) eqn:He; simpl in Hc;
      [injection Hc as <-; exists a; split; [done|by right]|].
    destruct (verify_signature a sig) as [x|] eqn:Hv; cbn [ok_or] in Hc;
      [|injection Hc as <-; by exists a].
    destruct (bool_decide (e = x)) eqn:Hx;
      [|apply bool_decide_eq_false in Hx; injection Hc as <-; exists a, x; by split_and!].
    unfold charge_storage_fee in Hc. cbv zeta in Hc.
    destruct (Z.leb_spec (AccountMappingStorageFee cfg) (reducible_preserve (unified_world s) a));
      [|injection Hc as <-; by exists a].
    unfold sweep_default_account, ok_or in Hc. cbv zeta in Hc. result_inv; done.
Qed.

(** A signature made for one account is worthless to another: two accounts
    with the same payload to sign would exhibit a collision of the hash. *)
Theorem signing_payload_separates (a b : AccountId) :
  encode a <> encode b -> build_signing_payload a = build_signing_payload b ->
  exists x y, x <> y /\ keccak_256 x = keccak_256 y.
Proof.
  intros Hne Hp. unfold build_signing_payload in Hp.
  destruct (decide (build_args_hash a = build_args_hash b)) as [Ha|Ha].
  - unfold build_args_hash in Ha.
    destruct (decide (keccak_256 (encode a) = keccak_256 (encode b))) as [He|He]; [by eauto|].
    eexists _, _. split; [|exact Ha]. intros Heq. apply He. by eapply app_inv_head.
  - eexists _, _. split; [|exact Hp]. intros Heq. apply Ha. by do 2 eapply app_inv_head.
Qed.
End pallet.

(** ** Witnesses

    A toy world: accounts are numbers, the hash does nothing, a signature is
    the public key, and an account below one unit is reaped. *)

Section example.
Definition ToyCrypto : Crypto :=
  {| keccak_256 b := b; secp256k1_ecdsa_recover sig _ := Some sig |}.
Definition ToyEncode : Encode Z := {| encode a := be_bytes 4 a |}.
Definition toy_balance (w : gmap Z Z) (a : Z) : Z := default 0 (w !! a).
Definition ToyFungible : FungibleMutate Z (gmap Z Z) := {|
  reducible_preserve w a := toy_balance w a - 1;
  reducible_expendable w a := toy_balance w a;
  burn_from w a x :=
    if x <? toy_balance w a then Some (<[a := toy_balance w a - x]> w) else None;
  transfer_expendable w a b x :=
    if x <=? toy_balance w a
    then Some (<[b := toy_balance w b + x]> (<[a := toy_balance w a - x]> w),
               if toy_balance w a =? x then [a] else [])
    else None;
  account_exists w a := 0 <? toy_balance w a;
|}.
Definition ToySystem : FrameSystem Z Z (gmap Z Z) := {|
  block_number _ := 0;
  ensure_signed o := Some o;
  ensure_root _ := false;
  ensure_signed_or_root o := Some (Some o);
|}.
Existing Instances ToyCrypto ToyEncode ToyFungible ToySystem.

Definition ToyDefaults : UnifiedAddressMapper Z unit :=
  hashed_default_mappings (fun b => b) (fun e => 1000 + foldr Z.add 0 e).
Existing Instance ToyDefaults.

Definition toy_cfg : UnifiedConfig := mkUnifiedConfig 592 10.
Definition toy_world : gmap Z Z := list_to_map [(1, 500); (2, 500); (1007, 70)].
Definition toy_start : UnifiedStorage Z (gmap Z Z) := mkUnifiedStorage ∅ ∅ [] toy_world.
Definition toy_claim : UnifiedAction (AccountId := Z) (W := gmap Z Z) :=
  ua_claim 1 [7] (replicate 12 0 ++ [7]).

Definition toy_claimed : UnifiedStorage Z (gmap Z Z) :=
  match unified_act tt toy_cfg [] toy_claim toy_start with Ok s => s | Err _ => toy_start end.

Lemma toy_claimed_reachable : unified_reachable tt toy_cfg [] toy_claimed.
Proof.
  apply (unified_reachable_act tt toy_cfg [] toy_claim toy_start).
  - apply unified_genesis.
  - by vm_compute.
Qed.

Lemma mappings_are_inverse_witness :
  NativeToEvm toy_claimed !! 1 = Some [7] /\ unified_world toy_claimed !! 1 = Some 560 /\
  into_account_id tt toy_claimed [7] = 1.
Proof.
  split; [by vm_compute|]. split; [by vm_compute|].
  destruct (mappings_are_inverse tt toy_cfg [] toy_claimed 1 [7] toy_claimed_reachable)
    as (_ & Hi & _). apply Hi. by vm_compute.
Defined.

Lemma toy_reaps (w : gmap Z Z) (a b x : Z) w' killed c :
  transfer_expendable w a b x = Some (w', killed) -> c ∈ killed -> c = a.
Proof.
  unfold transfer_expendable. simpl. intros Ht Hin. destruct (_ <=? _); [|done].
  injection Ht as _ <-. destruct (_ =? _); [by apply list_elem_of_singleton in Hin|].
  by apply not_elem_of_nil in Hin.
Qed.

Lemma mapping_is_permanent_witness :
  match claim_default_evm_address tt toy_cfg 2 toy_claimed with
  | Ok s' => NativeToEvm s' !! 1 = Some [7] /\ EvmToNative s' !! [7] = Some 1
  | Err _ => False
  end.
Proof.
  destruct (claim_default_evm_address tt toy_cfg 2 toy_claimed) as [s'|er] eqn:Hc;
    [|by vm_compute in Hc].
  apply (mapping_is_permanent tt toy_cfg [] toy_reaps
    toy_claimed s' (ua_claim_default 2) 1 [7] toy_claimed_reachable Hc).
  - by vm_compute.
  - simpl. tauto.
Defined.

Lemma signing_payload_separates_witness :
  exists x y, x <> y /\ @keccak_256 {| keccak_256 _ := []; secp256k1_ecdsa_recover _ _ := None |} x =
    @keccak_256 {| keccak_256 _ := []; secp256k1_ecdsa_recover _ _ := None |} y.
Proof.
  apply (@signing_payload_separates Z
    {| keccak_256 _ := []; secp256k1_ecdsa_recover _ _ := None |} ToyEncode toy_cfg [] 1 2);
    [by vm_compute|reflexivity].
Defined.
End example.
