(* ===== verification/XcAssetConfig.v ===== *)
(** * The cross-chain asset configuration pallet

    [pallets/xc-asset-config/src/lib.rs] and [migrations.rs]: three maps that
    bind a local asset id to a cross-chain location, the location back to the
    id, and a location to what a second of execution costs in its asset.
    Locations and their versions belong to the [xcm] crate. *)

From S2P Require Import Prelude Frame.

(** ** Locations

    [VersionedLocation::V4], [Location::try_from], [into_versioned] and
    [into_version] of the [xcm] crate, of which version 4 is the latest. *)
Class XcmVersions (Location VersionedLocation : Type) := {
  V4 : Location -> VersionedLocation;
  location_try_from : VersionedLocation -> option Location;
  into_versioned : Location -> VersionedLocation;
  into_version : Z -> VersionedLocation -> option VersionedLocation;
}.

Class XcmVersionsLaws (Location VersionedLocation : Type)
    `{!XcmVersions Location VersionedLocation} : Prop := {
  location_try_from_V4 (l : Location) : location_try_from (V4 l) = Some l;
  into_versioned_latest (l : Location) : into_versioned l = V4 l;
  into_version_latest (v : VersionedLocation) : into_version 4 v = V4 <$> location_try_from v;
}.

Lemma V4_inj `{XcmVersionsLaws Location VersionedLocation} (l1 l2 : Location) :
  V4 l1 = V4 l2 -> l1 = l2.
Proof.
  intros Hl. apply (f_equal location_try_from) in Hl. rewrite !location_try_from_V4 in Hl. congruence.
Qed.

(** ** Interfaces the pallet offers to the XCM code *)

Class XcAssetLocation (Location AssetId S : Type) := {
  get_xc_asset_location : S -> AssetId -> option Location;
  get_asset_id : S -> Location -> option AssetId;
}.

Class ExecutionPaymentRate (Location S : Type) := {
  get_units_per_second : S -> Location -> option Z;
}.

(** [Pallet::weight_to_fee]. *)
Definition WEIGHT_REF_TIME_PER_SECOND : Z := 10 ^ 12.
Definition weight_to_fee (ref_time units_per_second : Z) : Z :=
  sat_mul u128_max units_per_second ref_time / WEIGHT_REF_TIME_PER_SECOND.

(** ** Data *)

Inductive XcAssetError :=
| AssetAlreadyRegistered
| AssetDoesNotExist
| MultiLocationNotSupported
| XcAssetBadOrigin.

Inductive XcAssetEvent (AssetId VersionedLocation : Type) :=
| AssetRegistered (asset_location : VersionedLocation) (asset_id : AssetId)
| UnitsPerSecondChanged (asset_location : VersionedLocation) (units_per_second : Z)
| AssetLocationChanged (previous_asset_location : VersionedLocation) (asset_id : AssetId)
    (new_asset_location : VersionedLocation)
| SupportedAssetRemoved (asset_location : VersionedLocation)
| AssetRemoved (asset_location : VersionedLocation) (asset_id : AssetId).
Arguments AssetRegistered {AssetId VersionedLocation}.
Arguments UnitsPerSecondChanged {AssetId VersionedLocation}.
Arguments AssetLocationChanged {AssetId VersionedLocation}.
Arguments SupportedAssetRemoved {AssetId VersionedLocation}.
Arguments AssetRemoved {AssetId VersionedLocation}.

Record XcStorage (AssetId VersionedLocation : Type)
    `{Countable AssetId, Countable VersionedLocation} := mkXcStorage {
  AssetIdToLocation : gmap AssetId VersionedLocation;
  AssetLocationToId : gmap VersionedLocation AssetId;
  AssetLocationUnitsPerSecond : gmap VersionedLocation Z;
  xc_events : list (XcAssetEvent AssetId VersionedLocation);
}.
Arguments mkXcStorage {AssetId VersionedLocation EqDecision0 H EqDecision1 H0}.
Arguments AssetIdToLocation {AssetId VersionedLocation EqDecision0 H EqDecision1 H0}.
Arguments AssetLocationToId {AssetId VersionedLocation EqDecision0 H EqDecision1 H0}.
Arguments AssetLocationUnitsPerSecond {AssetId VersionedLocation EqDecision0 H EqDecision1 H0}.
Arguments xc_events {AssetId VersionedLocation EqDecision0 H EqDecision1 H0}.

Section pallet.
Context {AssetId Location VersionedLocation Origin : Type}.
Context `{Countable AssetId, Countable VersionedLocation}.
Context `{!XcmVersions Location VersionedLocation} (ManagerOrigin : Origin -> bool).

Abbreviation St := (XcStorage AssetId VersionedLocation).
Abbreviation Outcome := (Result St XcAssetError).

(** ** Getters *)

#[export] Instance pallet_xc_asset_location : XcAssetLocation Location AssetId St := {|
  get_xc_asset_location s asset_id := AssetIdToLocation s !! asset_id ≫= location_try_from;
  get_asset_id s asset_location := AssetLocationToId s !! into_versioned asset_location;
|}.

#[export] Instance pallet_payment_rate : ExecutionPaymentRate Location St := {|
  get_units_per_second s asset_location :=
    AssetLocationUnitsPerSecond s !! into_versioned asset_location;
|}.

(** ** Calls *)

Definition register_asset_location (origin : Origin) (asset_location : VersionedLocation)
    (asset_id : AssetId) (s : St) : Outcome :=
  ensure! ManagerOrigin origin else XcAssetBadOrigin in
  ensure! bool_decide (AssetIdToLocation s !! asset_id = None) else AssetAlreadyRegistered in
  let! v4_asset_loc := ok_or (location_try_from asset_location) MultiLocationNotSupported in
  let asset_location := V4 v4_asset_loc in
  Ok (mkXcStorage
        (<[asset_id := asset_location]> (AssetIdToLocation s))
        (<[asset_location := asset_id]> (AssetLocationToId s))
        (AssetLocationUnitsPerSecond s)
        (xc_events s ++ [AssetRegistered asset_location asset_id])).

Definition set_asset_units_per_second (origin : Origin) (asset_location : VersionedLocation)
    (units_per_second : Z) (s : St) : Outcome :=
  ensure! ManagerOrigin origin else XcAssetBadOrigin in
  let! v4_asset_loc := ok_or (location_try_from asset_location) MultiLocationNotSupported in
  let asset_location := V4 v4_asset_loc in
  ensure! bool_decide (is_Some (AssetLocationToId s !! asset_location)) else AssetDoesNotExist in
  Ok (mkXcStorage (AssetIdToLocation s) (AssetLocationToId s)
        (<[asset_location := units_per_second]> (AssetLocationUnitsPerSecond s))
        (xc_events s ++ [UnitsPerSecondChanged asset_location units_per_second])).

Definition change_existing_asset_location (origin : Origin)
    (new_asset_location : VersionedLocation) (asset_id : AssetId) (s : St) : Outcome :=
  ensure! ManagerOrigin origin else XcAssetBadOrigin in
  let! v4_asset_loc := ok_or (location_try_from new_asset_location) MultiLocationNotSupported in
  let new_asset_location := V4 v4_asset_loc in
  let! previous_asset_location := ok_or (AssetIdToLocation s !! asset_id) AssetDoesNotExist in
  let units := AssetLocationUnitsPerSecond s !! previous_asset_location in
  let taken := delete previous_asset_location (AssetLocationUnitsPerSecond s) in
  Ok (mkXcStorage
        (<[asset_id := new_asset_location]> (AssetIdToLocation s))
        (delete previous_asset_location
           (<[new_asset_location := asset_id]> (AssetLocationToId s)))
        (match units with Some u => <[new_asset_location := u]> taken | None => taken end)
        (xc_events s ++
           [AssetLocationChanged previous_asset_location asset_id new_asset_location])).

Definition remove_payment_asset (origin : Origin) (asset_location : VersionedLocation)
    (s : St) : Outcome :=
  ensure! ManagerOrigin origin else XcAssetBadOrigin in
  let! v4_asset_loc := ok_or (location_try_from asset_location) MultiLocationNotSupported in
  let asset_location := V4 v4_asset_loc in
  Ok (mkXcStorage (AssetIdToLocation s) (AssetLocationToId s)
        (delete asset_location (AssetLocationUnitsPerSecond s))
        (xc_events s ++ [SupportedAssetRemoved asset_location])).

Definition remove_asset (origin : Origin) (asset_id : AssetId) (s : St) : Outcome :=
  ensure! ManagerOrigin origin else XcAssetBadOrigin in
  let! asset_location := ok_or (AssetIdToLocation s !! asset_id) AssetDoesNotExist in
  Ok (mkXcStorage (delete asset_id (AssetIdToLocation s))
        (delete asset_location (AssetLocationToId s))
        (delete asset_location (AssetLocationUnitsPerSecond s))
        (xc_events s ++ [AssetRemoved asset_location asset_id])).

(** ** Executions *)

Inductive XcAction :=
| xa_register (o : Origin) (v : VersionedLocation) (id : AssetId)
| xa_set_units (o : Origin) (v : VersionedLocation) (u : Z)
| xa_change (o : Origin) (v : VersionedLocation) (id : AssetId)
| xa_remove_payment (o : Origin) (v : VersionedLocation)
| xa_remove (o : Origin) (id : AssetId).

Definition xc_act (x : XcAction) (s : St) : Outcome :=
  match x with
  | xa_register o v id => register_asset_location o v id s
  | xa_set_units o v u => set_asset_units_per_second o v u s
  | xa_change o v id => change_existing_asset_location o v id s
  | xa_remove_payment o v => remove_payment_asset o v s
  | xa_remove o id => remove_asset o id s
  end.

Definition xc_genesis : St := mkXcStorage ∅ ∅ ∅ [].

(** States reached by calls that satisfy [ok]. *)
Inductive xc_reachable (ok : St -> XcAction -> Prop) : St -> Prop :=
| xc_start : xc_reachable ok xc_genesis
| xc_next x s s' : xc_reachable ok s -> ok s x -> xc_act x s = Ok s' -> xc_reachable ok s'.

(** The location a call binds to an asset. *)
Definition bound_location (x : XcAction) : option Location :=
  match x with
  | xa_register _ v _ | xa_change _ v _ => location_try_from v
  | _ => None
  end.

(** The managers bind only locations that no asset has. *)
Definition fresh_location (s : St) (x : XcAction) : Prop :=
  forall l, bound_location x = Some l -> AssetLocationToId s !! V4 l = None.

(** ** The invariants *)

(** A location's id has that location, and only version 4 is stored. *)
Record xc_sound (s : St) : Prop := {
  xc_back v id : AssetLocationToId s !! v = Some id -> AssetIdToLocation s !! id = Some v;
  xc_stored_v4 id v : AssetIdToLocation s !! id = Some v -> exists l, v = V4 l;
}.

Record xc_bijective (s : St) : Prop := {
  xc_bij_sound : xc_sound s;
  xc_there id v : AssetIdToLocation s !! id = Some v -> AssetLocationToId s !! v = Some id;
  xc_priced v : is_Some (AssetLocationUnitsPerSecond s !! v) -> is_Some (AssetLocationToId s !! v);
}.

(** What a successful call has checked and done, by the shape of the maps. *)
Lemma xc_act_inv x s s' :
  xc_act x s = Ok s' ->
  match x with
  | xa_register _ v id => exists l, location_try_from v = Some l /\
      AssetIdToLocation s !! id = None /\
      AssetIdToLocation s' = <[id := V4 l]> (AssetIdToLocation s) /\
      AssetLocationToId s' = <[V4 l := id]> (AssetLocationToId s) /\
      AssetLocationUnitsPerSecond s' = AssetLocationUnitsPerSecond s
  | xa_set_units _ v u => exists l, location_try_from v = Some l /\
      is_Some (AssetLocationToId s !! V4 l) /\
      AssetIdToLocation s' = AssetIdToLocation s /\
      AssetLocationToId s' = AssetLocationToId s /\
      AssetLocationUnitsPerSecond s' = <[V4 l := u]> (AssetLocationUnitsPerSecond s)
  | xa_change _ v id => exists l p, location_try_from v = Some l /\
      AssetIdToLocation s !! id = Some p /\
      AssetIdToLocation s' = <[id := V4 l]> (AssetIdToLocation s) /\
      AssetLocationToId s' = delete p (<[V4 l := id]> (AssetLocationToId s)) /\
      AssetLocationUnitsPerSecond s' =
        match AssetLocationUnitsPerSecond s !! p with
        | Some u => <[V4 l := u]> (delete p (AssetLocationUnitsPerSecond s))
        | None => delete p (AssetLocationUnitsPerSecond s)
        end
  | xa_remove_payment _ v => exists l, location_try_from v = Some l /\
      AssetIdToLocation s' = AssetIdToLocation s /\
      AssetLocationToId s' = AssetLocationToId s /\
      AssetLocationUnitsPerSecond s' = delete (V4 l) (AssetLocationUnitsPerSecond s)
  | xa_remove _ id => exists p, AssetIdToLocation s !! id = Some p /\
      AssetIdToLocation s' = delete id (AssetIdToLocation s) /\
      AssetLocationToId s' = delete p (AssetLocationToId s) /\
      AssetLocationUnitsPerSecond s' = delete p (AssetLocationUnitsPerSecond s)
  end.
Proof.
  destruct x; simpl; intros Hx;
    unfold register_asset_location, set_asset_units_per_second, change_existing_asset_location,
      remove_payment_asset, remove_asset in Hx; result_inv;
    repeat match goal with
    | E : bool_decide _ = true |- _ => apply bool_decide_eq_true in E
    end; simpl; eauto 10.
Qed.

(** The case of every call, with the maps of the new state rewritten. *)
Ltac xc_cases x Hx :=
  apply xc_act_inv in Hx; destruct x as [o v i|o v u|o v i|o v|o i];
  [ destruct Hx as (l & Hl & Hn & H1 & H2 & H3)
  | destruct Hx as (l & Hl & Hn & H1 & H2 & H3)
  | destruct Hx as (l & p & Hl & Hn & H1 & H2 & H3)
  | destruct Hx as (l & Hl & H1 & H2 & H3)
  | destruct Hx as (p & Hn & H1 & H2 & H3) ].

Lemma xc_act_sound x s s' : xc_sound s -> xc_act x s = Ok s' -> xc_sound s'.
Proof.
  intros [Hb Hv] Hx. xc_cases x Hx; constructor; intros a b; rewrite ?H1, ?H2;
    rewrite ?lookup_delete_Some, ?lookup_insert_Some; naive_solver.
Qed.

Lemma xc_act_bijective x s s' :
  xc_bijective s -> fresh_location s x -> xc_act x s = Ok s' -> xc_bijective s'.
Proof.
  intros [Hs Ht Hp] Hf Hx. constructor; [by eapply xc_act_sound| |].
  - destruct Hs as [Hb _]. intros a b. xc_cases x Hx; rewrite H1, H2;
      rewrite ?lookup_delete_Some, ?lookup_insert_Some; [| | | |].
    + pose proof (Hf l Hl). intros [[<- <-]|[Hne Hab]]; [by left|].
      apply Ht in Hab. right. split; [congruence|done].
    + apply Ht.
    + pose proof (Hf l Hl) as Hl'. pose proof (Ht i p Hn) as Hip.
      intros [[<- <-]|[Hne Hab]]; [split; [congruence|by left]|].
      apply Ht in Hab. split; [congruence|]. right. split; [congruence|done].
    + apply Ht.
    + intros [Hne Hab]. apply Ht in Hab. pose proof (Ht i p Hn). split; congruence.
  - intros a. xc_cases x Hx; rewrite H2, H3;
      rewrite ?lookup_delete_is_Some, ?lookup_insert_is_Some.
    + intros Ha%Hp. destruct (decide (V4 l = a)); auto.
    + intros [<-|[_ Ha]]; auto.
    + pose proof (Hf l Hl) as Hl'. pose proof (Ht i p Hn) as Hip. assert (p <> V4 l) by congruence.
      destruct (decide (V4 l = a)) as [<-|Hla]; [by split; [|left]|].
      intros Ha. assert (p <> a /\ is_Some (AssetLocationUnitsPerSecond s !! a)) as [? ?%Hp]; [|auto].
      destruct (AssetLocationUnitsPerSecond s !! p); [rewrite lookup_insert_ne in Ha by done|];
        by apply lookup_delete_is_Some.
    + intros [_ Ha]. auto.
    + intros [? Ha]. auto.
Qed.

Lemma xc_reachable_sound ok s : xc_reachable ok s -> xc_sound s.
Proof. induction 1; [by constructor; intros ? ?; simpl; rewrite lookup_empty|by eapply xc_act_sound]. Qed.

Lemma xc_reachable_bijective s : xc_reachable fresh_location s -> xc_bijective s.
Proof.
  induction 1; [|by eapply xc_act_bijective].
  constructor; [constructor| |]; intros *; simpl; rewrite lookup_empty; done.
Qed.

Section theorems.
Context `{!XcmVersionsLaws Location VersionedLocation}.

(** Whatever the managers do, the id that a location resolves to is one
    that resolves back to the same location, and no two locations share an
    id. *)
Theorem asset_id_resolves_back (s : St) (l : Location) (id : AssetId) :
  xc_reachable (fun _ _ => True) s -> get_asset_id s l = Some id ->
  get_xc_asset_location s id = Some l /\
  (forall l', get_asset_id s l' = Some id -> l' = l).
Proof.
  intros Hr. apply xc_reachable_sound in Hr as [Hb _]. simpl. rewrite into_versioned_latest.
  intros Hg. apply Hb in Hg as Hi. rewrite Hi. split; [apply location_try_from_V4|].
  intros l'. rewrite into_versioned_latest. intros Hg'. apply Hb in Hg'.
  apply V4_inj. congruence.
Qed.

(** C25: while the managers bind only locations that no asset has, ids and
    locations are in one-to-one correspondence (converting either way and back
    is the identity) and every location that can pay for execution is a
    registered one. *)
Theorem asset_conversion_roundtrip (s : St) (l : Location) (id : AssetId) :
  xc_reachable fresh_location s ->
  (get_xc_asset_location s id = Some l <-> get_asset_id s l = Some id) /\
  (is_Some (get_units_per_second s l) ->
     exists i, get_asset_id s l = Some i /\ get_xc_asset_location s i = Some l).
Proof.
  intros Hr. apply xc_reachable_bijective in Hr as [[Hb Hv] Ht Hp]. simpl.
  rewrite !into_versioned_latest. split.
  - split; intros Hg.
    + destruct (AssetIdToLocation s !! id) as [v|] eqn:Hi; [simpl in Hg|done].
      destruct (Hv id v Hi) as [l' ->]. rewrite location_try_from_V4 in Hg.
      injection Hg as ->. by apply Ht.
    + rewrite (Hb _ _ Hg). apply location_try_from_V4.
  - intros Hu. apply Hp in Hu as [i Hi]. exists i. split; [done|]. rewrite (Hb _ _ Hi).
    apply location_try_from_V4.
Qed.

(** Moving an asset to a new location that differs from its present one
    rebinds it both ways, unbinds the old location and hands the old price to
    the new location, and leaves every other asset's location alone. *)
Theorem change_location_outcome (o : Origin) (v : VersionedLocation) (l p : Location)
    (id : AssetId) (s s' : St) :
  xc_reachable (fun _ _ => True) s -> location_try_from v = Some l ->
  get_xc_asset_location s id = Some p -> p <> l ->
  change_existing_asset_location o v id s = Ok s' ->
  get_xc_asset_location s' id = Some l /\ get_asset_id s' l = Some id /\
  get_asset_id s' p = None /\ get_units_per_second s' p = None /\
  get_units_per_second s' l =
    match get_units_per_second s p with Some u => Some u | None => get_units_per_second s l end /\
  forall i, i <> id -> get_xc_asset_location s' i = get_xc_asset_location s i.
Proof.
  intros Hr Hv Hp Hne Hc. apply xc_reachable_sound in Hr as [_ Hs].
  apply (xc_act_inv (xa_change o v id)) in Hc as (l' & q & Hl & Hq & H1 & H2 & H3).
  simpl in *. rewrite !into_versioned_latest. replace l' with l in * by congruence.
  rewrite H1, H2, H3, Hq in *. simpl in Hp. destruct (Hs _ _ Hq) as [p' ->].
  rewrite location_try_from_V4 in Hp. injection Hp as ->.
  assert (HV : V4 p <> V4 l) by (by intros ?%V4_inj).
  rewrite lookup_insert_eq, lookup_delete_eq, lookup_delete_ne, lookup_insert_eq by done.
  simpl. rewrite location_try_from_V4. split_and!; try done.
  - destruct (AssetLocationUnitsPerSecond s !! V4 p);
      rewrite ?lookup_insert_ne by done; by rewrite lookup_delete_eq.
  - destruct (AssetLocationUnitsPerSecond s !! V4 p);
      rewrite ?lookup_insert_eq by done; [done|]. by rewrite lookup_delete_ne.
  - intros i Hi. by rewrite lookup_insert_ne by done.
Qed.
End theorems.
End pallet.

(** ** Storage migrations

    [MigrationXcmV3] and [MigrationXcmV4] of [migrations.rs].  A drain yields
    the entries of a map in the order of their hashed keys, which is left
    open; [multi_try_from] is [VersionedLocation::try_from] on the deprecated
    [VersionedMultiLocation]. *)
Section migrations.
Context {AssetId Location VersionedLocation VersionedMultiLocation : Type}.
Context `{Countable AssetId, Countable VersionedLocation}.
Context `{!XcmVersions Location VersionedLocation}.
Context (multi_try_from : VersionedMultiLocation -> option VersionedLocation).
Context (drain : forall {V}, gmap VersionedLocation V -> list (VersionedLocation * V)).

Abbreviation St := (XcStorage AssetId VersionedLocation).

(** The loop over the drained entries, one insertion for each key that
    converts. *)
Definition rekey {V} (conv : VersionedLocation -> option VersionedLocation)
    (entries : list (VersionedLocation * V)) : gmap VersionedLocation V :=
  foldl (fun m kv =>
    match conv kv.1 with Some k => <[k := kv.2]> m | None => m end) ∅ entries.

(** The storage version and the maps. *)
Definition migration_xcm_v3 (version : Z) (s : St) : Z * St :=
  if 2 <=? version then (version, s)
  else (2, mkXcStorage
             ((fun v => default v (into_version 3 v)) <$> AssetIdToLocation s)
             (rekey (into_version 3) (drain _ (AssetLocationToId s)))
             (rekey (into_version 3) (drain _ (AssetLocationUnitsPerSecond s)))
             (xc_events s)).

(** The first map is read in its legacy type. *)
Definition migration_xcm_v4 (ids : gmap AssetId VersionedMultiLocation) (s : St) : Z * St :=
  (3, mkXcStorage
        (omap multi_try_from ids)
        (rekey (into_version 4) (drain _ (AssetLocationToId s)))
        (rekey (into_version 4) (drain _ (AssetLocationUnitsPerSecond s)))
        (xc_events s)).

(** The number of entries [pre_upgrade] and [post_upgrade] compare. *)
Definition xc_entries {L} (ids : gmap AssetId L) (s : St) : nat :=
  size ids + size (AssetLocationToId s) + size (AssetLocationUnitsPerSecond s).

Lemma rekey_app {V} conv (l : list (VersionedLocation * V)) k v :
  rekey conv (l ++ [(k, v)]) =
    match conv k with Some k' => <[k' := v]> (rekey conv l) | None => rekey conv l end.
Proof. unfold rekey. by rewrite foldl_app. Qed.

(** Where every key converts and no two keys become one, the loop renames
    the keys and does nothing else. *)
Lemma rekey_spec {V} conv (l : list (VersionedLocation * V)) :
  NoDup l.*1 ->
  (forall k, k ∈ l.*1 -> is_Some (conv k)) ->
  (forall k k', k ∈ l.*1 -> k' ∈ l.*1 -> conv k = conv k' -> k = k') ->
  (forall c v, rekey conv l !! c = Some v <-> exists k, (k, v) ∈ l /\ conv k = Some c) /\
  size (rekey conv l) = length l.
Proof.
  induction l as [|[k v] l IH] using rev_ind; intros Hnd Htot Hinj.
  - split; [|apply map_size_empty]. intros c v. unfold rekey. simpl. split; [by intros ?%lookup_empty_Some|].
    by intros (k & ?%not_elem_of_nil & _).
  - rewrite fmap_app in Hnd. apply NoDup_app in Hnd as (Hnd & Hk & _).
    assert (Hsub : forall k', k' ∈ l.*1 -> k' ∈ (l ++ [(k, v)]).*1)
      by (intros k' Hk'; rewrite fmap_app; apply elem_of_app; by left).
    assert (Hlast : k ∈ (l ++ [(k, v)]).*1)
      by (rewrite fmap_app; apply elem_of_app; right; apply list_elem_of_here).
    destruct IH as [IHl IHs]; [done|by eauto|by eauto|].
    destruct (Htot k Hlast) as [c Hc]. rewrite rekey_app, Hc.
    assert (Hfresh : rekey conv l !! c = None).
    { apply eq_None_not_Some. intros [v' (k' & Hin & Hk')%IHl].
      apply (list_elem_of_fmap_2 fst) in Hin. simpl in Hin. apply (Hk k' Hin).
      rewrite (Hinj k' k) by (auto; congruence). apply list_elem_of_here. }
    split.
    + intros c' v'. rewrite lookup_insert_Some, IHl. setoid_rewrite elem_of_app.
      setoid_rewrite list_elem_of_singleton. split.
      * intros [[<- <-]|[_ (k' & ? & ?)]]; [exists k; auto|exists k'; auto].
      * intros (k' & [Hin|[= -> ->]] & Hk'); [|left; split; congruence].
        destruct (decide (c = c')) as [<-|Hne]; [|right; eauto].
        exfalso. assert (is_Some (rekey conv l !! c)) as [? ?] by (exists v'; apply IHl; eauto). congruence.
    + rewrite map_size_insert_None, IHs, length_app by done. simpl. lia.
Qed.

Section migration_spec.
Context (drain_perm : forall V (m : gmap VersionedLocation V), drain V m ≡ₚ map_to_list m).

Lemma rekey_drain {V} conv (m : gmap VersionedLocation V) :
  (forall k, is_Some (m !! k) -> is_Some (conv k)) ->
  (forall k k', is_Some (m !! k) -> is_Some (m !! k') -> conv k = conv k' -> k = k') ->
  (forall c v, rekey conv (drain V m) !! c = Some v <-> exists k, m !! k = Some v /\ conv k = Some c) /\
  size (rekey conv (drain V m)) = size m.
Proof.
  intros Htot Hinj.
  assert (Hin : forall k, k ∈ (drain V m).*1 -> is_Some (m !! k)).
  { intros k ([k' v] & -> & Hkv)%list_elem_of_fmap. rewrite drain_perm in Hkv.
    apply elem_of_map_to_list in Hkv. by exists v. }
  destruct (rekey_spec conv (drain V m)) as [Hl Hs]; [|by eauto|by eauto|].
  - rewrite drain_perm. apply NoDup_fst_map_to_list.
  - split.
    + intros c v. rewrite Hl. setoid_rewrite drain_perm. by setoid_rewrite elem_of_map_to_list.
    + rewrite Hs, drain_perm. apply length_map_to_list.
Qed.

(** When every stored location converts to version 4, no two of them to
    the same, and the values of the first map convert as the keys of the
    second do, the migration turns a one-to-one registry into a one-to-one
    registry in which every asset has its old location in the new version,
    every price its old location, and no entry is lost. *)
Theorem migration_preserves_registry (as_location : VersionedMultiLocation -> VersionedLocation)
    (ids : gmap AssetId VersionedMultiLocation) (s : St) :
  (forall id v, AssetLocationToId s !! v = Some id <->
     exists m, ids !! id = Some m /\ as_location m = v) ->
  (forall v, is_Some (AssetLocationUnitsPerSecond s !! v) -> is_Some (AssetLocationToId s !! v)) ->
  (forall id m, ids !! id = Some m -> multi_try_from m = into_version 4 (as_location m)) ->
  (forall v, is_Some (AssetLocationToId s !! v) -> is_Some (into_version 4 v)) ->
  (forall v v', is_Some (AssetLocationToId s !! v) -> is_Some (AssetLocationToId s !! v') ->
     into_version 4 v = into_version 4 v' -> v = v') ->
  let s' := (migration_xcm_v4 ids s).2 in
  (forall id m, ids !! id = Some m ->
     AssetIdToLocation s' !! id = into_version 4 (as_location m)) /\
  (forall id v, AssetIdToLocation s' !! id = Some v <-> AssetLocationToId s' !! v = Some id) /\
  (forall v c, AssetLocationUnitsPerSecond s !! v = Some c ->
     exists v', into_version 4 v = Some v' /\ AssetLocationUnitsPerSecond s' !! v' = Some c) /\
  xc_entries (AssetIdToLocation s') s' = xc_entries ids s.
Proof.
  intros Hbij Hpriced Hagree Htot Hinj s'. simpl in s'.
  destruct (rekey_drain (into_version 4) (AssetLocationToId s)) as [Hloc Hlsize]; [by auto|by auto|].
  destruct (rekey_drain (into_version 4) (AssetLocationUnitsPerSecond s)) as [Hun Husize];
    [by auto|by auto|].
  assert (Hids : forall id m, ids !! id = Some m ->
    omap multi_try_from ids !! id = into_version 4 (as_location m)).
  { intros id m Hm. rewrite lookup_omap, Hm. simpl. by eapply Hagree. }
  assert (Hconv : forall id m, ids !! id = Some m -> is_Some (into_version 4 (as_location m))).
  { intros id m Hm. apply Htot. exists id. apply Hbij. eauto. }
  subst s'. unfold xc_entries. simpl. split_and!; [done| | |].
  - intros id v. rewrite Hloc. split.
    + intros Hv. rewrite lookup_omap in Hv. destruct (ids !! id) as [m|] eqn:Hm; [|done].
      simpl in Hv. exists (as_location m). split; [apply Hbij; eauto|]. by rewrite <- (Hagree id).
    + intros (k & (m & Hm & <-)%Hbij & Hk). by rewrite (Hids id m Hm).
  - intros v c Hc. destruct (Htot v) as [v' Hv']; [by apply Hpriced; exists c|].
    exists v'. split; [done|]. apply Hun. eauto.
  - rewrite Hlsize, Husize. do 2 f_equal. rewrite <- !size_dom. f_equal. apply set_eq.
    intros id. rewrite !elem_of_dom, lookup_omap. destruct (ids !! id) as [m|] eqn:Hm; simpl; [|done].
    rewrite (Hagree id m Hm). split; [by eauto|]. intros _. by eapply Hconv.
Qed.
End migration_spec.
End migrations.

(** ** Witnesses

    A location is a number and a versioned location carries its version in
    front; anything from version 2 on converts. *)
Section example.
Definition ToyVersions : XcmVersions Z (Z * Z) := {|
  V4 l := (4, l);
  location_try_from v := if 2 <=? v.1 then Some v.2 else None;
  into_versioned l := (4, l);
  into_version n v := if 2 <=? v.1 then Some (n, v.2) else None;
|}.
Existing Instance ToyVersions.
Lemma ToyVersionsLaws : XcmVersionsLaws Z (Z * Z).
Proof. split; try done. intros [v l]. simpl. by destruct (_ <=? _). Qed.
Existing Instance ToyVersionsLaws.

Abbreviation ToyXc := (XcStorage Z (Z * Z)).
Abbreviation ToyAction := (@XcAction Z (Z * Z) unit).

(** Anyone is a manager. *)
Definition toy_manager : unit -> bool := fun _ => true.

Fixpoint xc_run (xs : list ToyAction) (s : ToyXc) : option ToyXc :=
  match xs with
  | [] => Some s
  | x :: xs =>
      match xc_act toy_manager x s with Ok s => xc_run xs s | Err _ => None end
  end.

(** Whether each call binds a location that no asset has. *)
Definition fresh_b (s : ToyXc) (x : ToyAction) : bool :=
  match bound_location x with
  | Some l => bool_decide (AssetLocationToId s !! (4, l) = None)
  | None => true
  end.

Fixpoint xc_run_fresh (xs : list ToyAction) (s : ToyXc) : bool :=
  match xs with
  | [] => true
  | x :: xs =>
      fresh_b s x &&
      match xc_act toy_manager x s with Ok s => xc_run_fresh xs s | Err _ => false end
  end.

Lemma xc_run_reachable ok xs s s' :
  (forall s x, ok s x) -> xc_reachable toy_manager ok s -> xc_run xs s = Some s' ->
  xc_reachable toy_manager ok s'.
Proof.
  intros Hok. revert s. induction xs as [|x xs IH]; simpl; intros s Hs Hr; [by injection Hr as <-|].
  destruct (xc_act _ x s) eqn:Hx; [|done]. eapply IH; [|done]. by eapply xc_next.
Qed.

Lemma xc_run_fresh_reachable xs s s' :
  xc_reachable toy_manager fresh_location s -> xc_run_fresh xs s = true -> xc_run xs s = Some s' ->
  xc_reachable toy_manager fresh_location s'.
Proof.
  revert s. induction xs as [|x xs IH]; simpl; intros s Hs Hf Hr; [by injection Hr as <-|].
  apply andb_prop in Hf as [Hx Hf]. destruct (xc_act _ x s) eqn:Ha; [|done].
  eapply IH; [|done..]. eapply xc_next; [done| |done]. intros l Hl. unfold fresh_b in Hx.
  rewrite Hl in Hx. by apply bool_decide_eq_true in Hx.
Qed.

Definition toy_calls : list ToyAction :=
  [xa_register tt (3, 10) 1; xa_set_units tt (4, 10) 77; xa_register tt (4, 20) 2;
   xa_change tt (3, 11) 1].
Definition toy_registry : ToyXc := default xc_genesis (xc_run toy_calls xc_genesis).

Lemma toy_registry_fresh : xc_reachable toy_manager fresh_location toy_registry.
Proof. eapply (xc_run_fresh_reachable toy_calls xc_genesis); [constructor|by vm_compute..]. Qed.

Lemma toy_registry_reachable : xc_reachable toy_manager (fun _ _ => True) toy_registry.
Proof. eapply (xc_run_reachable _ toy_calls xc_genesis); [done|constructor|by vm_compute]. Qed.

Lemma asset_id_resolves_back_witness :
  get_asset_id toy_registry 11 = Some 1 /\ get_xc_asset_location toy_registry 1 = Some 11.
Proof.
  split; [by vm_compute|].
  apply (asset_id_resolves_back toy_manager toy_registry 11 1 toy_registry_reachable). by vm_compute.
Defined.

Lemma asset_conversion_roundtrip_witness :
  get_units_per_second toy_registry 11 = Some 77 /\
  (get_xc_asset_location toy_registry 2 = Some 20 <-> get_asset_id toy_registry 20 = Some 2).
Proof.
  split; [by vm_compute|].
  apply (asset_conversion_roundtrip toy_manager toy_registry 20 2 toy_registry_fresh).
Defined.

Lemma change_location_outcome_witness :
  match change_existing_asset_location toy_manager tt (4, 30) 1 toy_registry with
  | Ok s' => get_asset_id s' 30 = Some 1 /\ get_asset_id s' 11 = None /\
             get_units_per_second s' 30 = Some 77
  | Err _ => False
  end.
Proof.
  destruct (change_existing_asset_location toy_manager tt (4, 30) 1 toy_registry)
    as [s'|e] eqn:Hc; [|by vm_compute in Hc].
  destruct (change_location_outcome toy_manager tt (4, 30) 30 11 1 toy_registry s'
    toy_registry_reachable) as (_ & H1 & H2 & _ & H3 & _);
    [by vm_compute|by vm_compute|lia|exact Hc|].
  rewrite H1, H2, H3. clear. vm_compute. repeat split.
Defined.

(** Changing an asset to the location it already has, which the call
    accepts, deletes the location's entry: the asset keeps its location and
    its price but no message that names the location finds the asset. *)
Theorem change_to_same_location_unmaps :
  exists s', change_existing_asset_location toy_manager tt (4, 11) 1 toy_registry = Ok s' /\
    get_asset_id toy_registry 11 = Some 1 /\ get_xc_asset_location s' 1 = Some 11 /\
    get_units_per_second s' 11 = Some 77 /\ get_asset_id s' 11 = None.
Proof. eexists. split; [by vm_compute|]. repeat split. Qed.

Definition toy_twice : ToyXc :=
  default xc_genesis (xc_run [xa_register tt (4, 20) 3] toy_registry).
Definition toy_once : ToyXc := default xc_genesis (xc_run [xa_remove tt 2] toy_twice).

(** A location that has an asset can be registered for a second one; it
    then resolves to the second, and removing the first leaves the second with
    a location that resolves to nothing. *)
Theorem location_registered_twice :
  exists s s', xc_run [xa_register tt (4, 20) 3] toy_registry = Some s /\
    get_xc_asset_location s 2 = Some 20 /\ get_xc_asset_location s 3 = Some 20 /\
    get_asset_id s 20 = Some 3 /\
    remove_asset toy_manager tt 2 s = Ok s' /\
    get_xc_asset_location s' 3 = Some 20 /\ get_asset_id s' 20 = None.
Proof.
  exists toy_twice, toy_once. split; [by vm_compute|]. split; [by vm_compute|].
  split; [by vm_compute|]. split; [by vm_compute|]. split; [by vm_compute|]. by vm_compute.
Qed.

(** A registry in version 3. *)
Definition legacy_registry : ToyXc :=
  mkXcStorage ∅ {[ (3, 10) := 1; (3, 20) := 2 ]} {[ (3, 20) := 5 ]} [].
Definition legacy_ids : gmap Z (Z * Z) := {[ 1 := (3, 10); 2 := (3, 20) ]}.

Lemma legacy_cases (v : Z * Z) :
  is_Some (AssetLocationToId legacy_registry !! v) -> v = (3, 10) \/ v = (3, 20).
Proof.
  simpl. intros [x [[<- _]|[_ Hv]]%lookup_insert_Some]; [by left|].
  apply lookup_singleton_Some in Hv as [<- _]. by right.
Qed.

Lemma migration_preserves_registry_witness :
  let s' := (migration_xcm_v4 (Location := Z) (into_version 4) (fun _ m => map_to_list m)
    legacy_ids legacy_registry).2 in
  AssetIdToLocation s' !! 2 = Some (4, 20) /\ AssetLocationToId s' !! (4, 20) = Some 2.
Proof.
  destruct (migration_preserves_registry (Location := Z) (into_version 4) (fun _ m => map_to_list m)
    (fun _ _ => Permutation_refl _) (fun m => m) legacy_ids legacy_registry) as (Hi & Hb & _).
  - intros id v. simpl. rewrite lookup_insert_Some, lookup_singleton_Some.
    setoid_rewrite lookup_insert_Some. setoid_rewrite lookup_singleton_Some. split.
    + intros [[<- <-]|[_ [<- <-]]]; eexists; (split; [|done]); [by left|by right].
    + intros (m & [[<- <-]|[_ [<- <-]]] & <-); [by left|by right].
  - simpl. intros v [u [<- _]%lookup_singleton_Some]. by exists 2.
  - done.
  - intros v [-> | ->]%legacy_cases; vm_compute; by eexists.
  - by intros v v' [-> | ->]%legacy_cases [-> | ->]%legacy_cases.
  - cbv zeta. rewrite <- Hb, (Hi 2 (3, 20)) by done. done.
Defined.
End example.
