(* ===== verification/Treasury.v ===== *)
(** * The treasury pallet

    [vendor/treasury/src/lib.rs], the repository's copy of [pallet-treasury]:
    proposals with a bond, a queue of approvals that is paid from the pot at
    every spend period, and spends of other assets that are claimed from a
    paymaster. *)

From S2P Require Import Prelude Frame.

(** ** What the pallet is configured with *)

(** The rest of [Currency]: a deposit yields the imbalance it created, which
    [settle] withdraws from an account that has to stay alive ([None] gives it
    back) and [drop_positive] leaves in the issuance; [burn_pair] is [pair] with
    the credit handed to [BurnDestination]. *)
Class TreasuryCurrency (AccountId W : Type) := {
  make_free_balance_be : W -> AccountId -> Z -> W;
  deposit_creating : W -> AccountId -> Z -> W * Z;
  settle : W -> AccountId -> Z -> option W;
  drop_positive : W -> Z -> W;
  burn_pair : W -> Z -> W;
  reactivate : W -> Z -> W;
  deactivate : W -> Z -> W;
}.

Inductive PaymentStatus := InProgress | UnknownPayment | PaymentSuccess | PaymentFailure.

(** [tokens::Pay] and [ConversionFromAssetBalance]. *)
Class Paymaster (Kind Beneficiary Id W : Type) := {
  pay : W -> Beneficiary -> Kind -> Z -> option (W * Id);
  check_payment : W -> Id -> PaymentStatus;
  from_asset_balance : W -> Z -> Kind -> option Z;
}.

(** [ApproveOrigin], [RejectOrigin], and [SpendOrigin] with the most that the
    origin may spend. *)
Class TreasuryOrigins (Origin : Type) := {
  ApproveOrigin : Origin -> bool;
  RejectOrigin : Origin -> bool;
  SpendOrigin : Origin -> option Z;
}.

Record TreasuryConfig (AccountId : Type) := mkTreasuryConfig {
  TreasuryAccount : AccountId;
  ProposalBond : Z;
  ProposalBondMinimum : Z;
  ProposalBondMaximum : option Z;
  SpendPeriod : Z;
  Burn : Z;
  MaxApprovals : Z;
  PayoutPeriod : Z;
}.
Arguments mkTreasuryConfig {AccountId}.
Arguments TreasuryAccount {AccountId}.
Arguments ProposalBond {AccountId}.
Arguments ProposalBondMinimum {AccountId}.
Arguments ProposalBondMaximum {AccountId}.
Arguments SpendPeriod {AccountId}.
Arguments Burn {AccountId}.
Arguments MaxApprovals {AccountId}.
Arguments PayoutPeriod {AccountId}.

(** ** Data *)

Record Proposal {AccountId : Type} := mkProposal {
  proposer : AccountId;
  value : Z;
  beneficiary : AccountId;
  bond : Z;
}.
Arguments Proposal : clear implicits.
Arguments mkProposal {AccountId}.

Inductive PaymentState {Id : Type} := Pending | Attempted (id : Id) | Failed.
Arguments PaymentState : clear implicits.

Record SpendStatus {Kind Beneficiary Id : Type} := mkSpendStatus {
  asset_kind : Kind;
  amount : Z;
  spend_beneficiary : Beneficiary;
  valid_from : Z;
  expire_at : Z;
  status : PaymentState Id;
}.
Arguments SpendStatus : clear implicits.
Arguments mkSpendStatus {Kind Beneficiary Id}.

Inductive TreasuryEvent {AccountId Kind Beneficiary Id : Type} :=
| Proposed (proposal_index : Z)
| Spending (budget_remaining : Z)
| Awarded (proposal_index award : Z) (account : AccountId)
| Rejected (proposal_index slashed : Z)
| Burnt (burnt_funds : Z)
| Rollover (rollover_balance : Z)
| TreasuryDeposit (deposited : Z)
| SpendApproved (proposal_index amount : Z) (beneficiary : AccountId)
| UpdatedInactive (reactivated deactivated : Z)
| AssetSpendApproved (index : Z) (asset_kind : Kind) (amount : Z) (beneficiary : Beneficiary)
    (valid_from expire_at : Z)
| AssetSpendVoided (index : Z)
| Paid (index : Z) (payment_id : Id)
| PaymentFailed (index : Z) (payment_id : Id)
| SpendProcessed (index : Z).
Arguments TreasuryEvent : clear implicits.

Inductive TreasuryError :=
| InsufficientProposersBalance
| InvalidIndex
| TooManyApprovals
| InsufficientPermission
| ProposalNotApproved
| FailedToConvertBalance
| SpendExpired
| EarlyPayout
| AlreadyAttempted
| PayoutError
| NotAttempted
| Inconclusive
| TreasuryBadOrigin
| LookupError.

Section pallet.
Context {AccountId Kind Beneficiary Id Origin W : Type}.
Context `{!SpArithmetic, !ReservableCurrency AccountId W, !TreasuryCurrency AccountId W}.
Context `{!FrameSystem AccountId Origin W, !Paymaster Kind Beneficiary Id W, !TreasuryOrigins Origin}.
Context (cfg : TreasuryConfig AccountId).
(** [T::SpendFunds::spend_funds], on the budget, the imbalance, [missed_any]
    and the state. *)
Context (spend_hook : Z * Z * bool * W -> Z * Z * bool * W).

Record TreasuryStorage := mkTreasuryStorage {
  ProposalCount : Z;
  Proposals : gmap Z (Proposal AccountId);
  Deactivated : Z;
  Approvals : list Z;
  SpendCount : Z;
  Spends : gmap Z (SpendStatus Kind Beneficiary Id);
  treasury_events : list (TreasuryEvent AccountId Kind Beneficiary Id);
  treasury_world : W;
}.
Abbreviation St := TreasuryStorage.
Abbreviation Outcome := (Result St TreasuryError).

Definition put_proposals c m (s : St) : St :=
  mkTreasuryStorage c m (Deactivated s) (Approvals s) (SpendCount s) (Spends s)
    (treasury_events s) (treasury_world s).
Definition put_deactivated d (s : St) : St :=
  mkTreasuryStorage (ProposalCount s) (Proposals s) d (Approvals s) (SpendCount s) (Spends s)
    (treasury_events s) (treasury_world s).
Definition put_approvals v (s : St) : St :=
  mkTreasuryStorage (ProposalCount s) (Proposals s) (Deactivated s) v (SpendCount s) (Spends s)
    (treasury_events s) (treasury_world s).
Definition put_spends c m (s : St) : St :=
  mkTreasuryStorage (ProposalCount s) (Proposals s) (Deactivated s) (Approvals s) c m
    (treasury_events s) (treasury_world s).
Definition treasury_event e (s : St) : St :=
  mkTreasuryStorage (ProposalCount s) (Proposals s) (Deactivated s) (Approvals s) (SpendCount s)
    (Spends s) (treasury_events s ++ [e]) (treasury_world s).
Definition put_treasury_world w (s : St) : St :=
  mkTreasuryStorage (ProposalCount s) (Proposals s) (Deactivated s) (Approvals s) (SpendCount s)
    (Spends s) (treasury_events s) w.

(** [index + 1] of a [u32]. *)
Definition next_index (c : Z) : Z := (c + 1) mod (u32_max + 1).

Definition account_id : AccountId := TreasuryAccount cfg.

Definition calculate_bond (value : Z) : Z :=
  let r := Z.max (ProposalBondMinimum cfg) (permill_mul (ProposalBond cfg) value) in
  match ProposalBondMaximum cfg with
  | Some m => Z.min r m
  | None => r
  end.

(** What an account can lose before it is reaped. *)
Definition pot (s : St) : Z :=
  sat_sub (free_balance (treasury_world s) account_id) (minimum_balance (AccountId := AccountId) (W := W)).

(** [OnUnbalanced] of the pallet, the handler of slashed bonds. *)
Definition treasury_on_unbalanced (amount : Z) (s : St) : St :=
  if amount =? 0 then s
  else
    treasury_event (TreasuryDeposit amount)
      (put_treasury_world (resolve_creating (treasury_world s) account_id amount) s).

Definition treasury_build (s : St) : St :=
  let min := minimum_balance (AccountId := AccountId) (W := W) in
  if free_balance (treasury_world s) account_id <? min
  then put_treasury_world (make_free_balance_be (treasury_world s) account_id min) s
  else s.

(** ** Calls on proposals *)

Definition propose_spend (origin : Origin) (value : Z) (beneficiary : option AccountId) (s : St)
    : Outcome :=
  let! proposer := ok_or (ensure_signed (W := W) origin) TreasuryBadOrigin in
  let! beneficiary := ok_or beneficiary LookupError in
  let bond := calculate_bond value in
  let! w := ok_or (reserve (treasury_world s) proposer bond) InsufficientProposersBalance in
  let c := ProposalCount s in
  let s := put_treasury_world w s in
  let s := put_proposals (next_index c)
             (<[c := mkProposal proposer value beneficiary bond]> (Proposals s)) s in
  Ok (treasury_event (Proposed c) s).

Definition reject_proposal (origin : Origin) (proposal_id : Z) (s : St) : Outcome :=
  ensure! RejectOrigin origin else TreasuryBadOrigin in
  let! proposal := ok_or (Proposals s !! proposal_id) InvalidIndex in
  let s := put_proposals (ProposalCount s) (delete proposal_id (Proposals s)) s in
  let value := bond proposal in
  let '(w, imbalance) := slash_reserved (treasury_world s) (proposer proposal) value in
  let s := treasury_on_unbalanced imbalance (put_treasury_world w s) in
  Ok (treasury_event (Rejected proposal_id value) s).

Definition approve_proposal (origin : Origin) (proposal_id : Z) (s : St) : Outcome :=
  ensure! ApproveOrigin origin else TreasuryBadOrigin in
  ensure! bool_decide (is_Some (Proposals s !! proposal_id)) else InvalidIndex in
  let! v := ok_or (try_push (MaxApprovals cfg) (Approvals s) proposal_id) TooManyApprovals in
  Ok (put_approvals v s).

(** [Vec::remove] at the first position of the id. *)
Fixpoint remove_first (proposal_id : Z) (v : list Z) : option (list Z) :=
  match v with
  | [] => None
  | x :: v =>
      if x =? proposal_id then Some v
      else (fun v => x :: v) <$> remove_first proposal_id v
  end.

Definition remove_approval (origin : Origin) (proposal_id : Z) (s : St) : Outcome :=
  ensure! RejectOrigin origin else TreasuryBadOrigin in
  let! v := ok_or (remove_first proposal_id (Approvals s)) ProposalNotApproved in
  Ok (put_approvals v s).

(** ** The context of a dispatch

    [with_context]: what the origins of each limit have spent in the dispatch
    being executed; [None] outside a dispatch, where nothing is checked.  It
    is not rolled back with the storage. *)
Abbreviation SpendContext := (option (gmap Z Z)).

Definition spend_in_context (max_amount amount : Z) (ctx : SpendContext)
    : SpendContext * Result unit TreasuryError :=
  match ctx with
  | None => (None, Ok tt)
  | Some context =>
      let spend := default 0 (context !! max_amount) in
      let context := <[max_amount := spend]> context in
      if match checked_add u128_max spend amount with
         | Some s => max_amount <? s
         | None => true
         end
      then (Some context, Err InsufficientPermission)
      else (Some (<[max_amount := sat_add u128_max spend amount]> context), Ok tt)
  end.

(** The part of [spend_local] and [spend] that follows the context check is
    not reached when the check fails. *)
Definition in_context (max_amount amount : Z) (ctx : SpendContext) (k : Outcome)
    : SpendContext * Outcome :=
  match spend_in_context max_amount amount ctx with
  | (ctx, Ok _) => (ctx, k)
  | (ctx, Err e) => (ctx, Err e)
  end.

Definition spend_local (origin : Origin) (amount : Z) (beneficiary : option AccountId)
    (ctx : SpendContext) (s : St) : SpendContext * Outcome :=
  match SpendOrigin origin with
  | None => (ctx, Err TreasuryBadOrigin)
  | Some max_amount =>
      if amount <=? max_amount then
        in_context max_amount amount ctx
          (let! beneficiary := ok_or beneficiary LookupError in
           let proposal_index := ProposalCount s in
           let! v := ok_or (try_push (MaxApprovals cfg) (Approvals s) proposal_index)
                       TooManyApprovals in
           let proposal := mkProposal beneficiary amount beneficiary 0 in
           let s := put_proposals (next_index proposal_index)
                      (<[proposal_index := proposal]> (Proposals s)) (put_approvals v s) in
           Ok (treasury_event (SpendApproved proposal_index amount beneficiary) s))
      else (ctx, Err InsufficientPermission)
  end.

(** ** Calls on spends *)

Definition spend (origin : Origin) (asset_kind : Kind) (amount : Z) (beneficiary : option Beneficiary)
    (valid_from : option Z) (ctx : SpendContext) (s : St) : SpendContext * Outcome :=
  match SpendOrigin origin, beneficiary with
  | None, _ => (ctx, Err TreasuryBadOrigin)
  | _, None => (ctx, Err LookupError)
  | Some max_amount, Some beneficiary =>
      let now := block_number (treasury_world s) in
      let valid_from := default now valid_from in
      let expire_at := sat_add u32_max valid_from (PayoutPeriod cfg) in
      if negb (now <? expire_at) then (ctx, Err SpendExpired)
      else
        match from_asset_balance (treasury_world s) amount asset_kind with
        | None => (ctx, Err FailedToConvertBalance)
        | Some native_amount =>
            if native_amount <=? max_amount then
              in_context max_amount native_amount ctx
                (let index := SpendCount s in
                 let s := put_spends (next_index index)
                   (<[index := mkSpendStatus asset_kind amount beneficiary
                                 valid_from expire_at Pending]> (Spends s)) s in
                 Ok (treasury_event (AssetSpendApproved index asset_kind amount beneficiary
                                       valid_from expire_at) s))
            else (ctx, Err InsufficientPermission)
        end
  end.

(** [matches!(status, Pending | Failed)]. *)
Definition not_attempted (st : PaymentState Id) : bool :=
  match st with Attempted _ => false | _ => true end.

Definition put_status (st : PaymentState Id) (spend : SpendStatus Kind Beneficiary Id) :=
  mkSpendStatus (asset_kind spend) (amount spend) (spend_beneficiary spend)
    (valid_from spend) (expire_at spend) st.

Definition payout (origin : Origin) (index : Z) (s : St) : Outcome :=
  let! _ := ok_or (ensure_signed (W := W) origin) TreasuryBadOrigin in
  let! spend := ok_or (Spends s !! index) InvalidIndex in
  let now := block_number (treasury_world s) in
  ensure! valid_from spend <=? now else EarlyPayout in
  ensure! now <? expire_at spend else SpendExpired in
  ensure! not_attempted (status spend) else AlreadyAttempted in
  let! (w, id) := ok_or (pay (treasury_world s) (spend_beneficiary spend) (asset_kind spend)
                           (amount spend)) PayoutError in
  let s := put_treasury_world w s in
  let s := put_spends (SpendCount s) (<[index := put_status (Attempted id) spend]> (Spends s)) s in
  Ok (treasury_event (Paid index id) s).

(** The flag says whether the fee is charged. *)
Definition check_status (origin : Origin) (index : Z) (s : St) : Result (bool * St) TreasuryError :=
  let! _ := ok_or (ensure_signed (W := W) origin) TreasuryBadOrigin in
  let! spend := ok_or (Spends s !! index) InvalidIndex in
  let now := block_number (treasury_world s) in
  let processed :=
    treasury_event (SpendProcessed index) (put_spends (SpendCount s) (delete index (Spends s)) s) in
  if (expire_at spend <? now) && not_attempted (status spend) then Ok (false, processed)
  else
    match status spend with
    | Attempted payment_id =>
        match check_payment (treasury_world s) payment_id with
        | PaymentFailure =>
            let s := put_spends (SpendCount s) (<[index := put_status Failed spend]> (Spends s)) s in
            Ok (true, treasury_event (PaymentFailed index payment_id) s)
        | PaymentSuccess | UnknownPayment => Ok (false, processed)
        | InProgress => Err Inconclusive
        end
    | _ => Err NotAttempted
    end.

Definition void_spend (origin : Origin) (index : Z) (s : St) : Outcome :=
  ensure! RejectOrigin origin else TreasuryBadOrigin in
  let! spend := ok_or (Spends s !! index) InvalidIndex in
  ensure! not_attempted (status spend) else AlreadyAttempted in
  Ok (treasury_event (AssetSpendVoided index)
        (put_spends (SpendCount s) (delete index (Spends s)) s)).

(** ** The spend period *)

(** The mutable variables of [spend_funds]. *)
Record SpendRound := mkSpendRound {
  budget_remaining : Z;
  imbalance : Z;
  missed_any : bool;
  round_state : St;
}.

(** The closure of [retain]: whether the approval is kept. *)
Definition award (index : Z) (r : SpendRound) : bool * SpendRound :=
  let s := round_state r in
  match Proposals s !! index with
  | Some p =>
      if value p <=? budget_remaining r then
        let s := put_proposals (ProposalCount s) (delete index (Proposals s)) s in
        let w := unreserve (treasury_world s) (proposer p) (bond p) in
        let '(w, created) := deposit_creating w (beneficiary p) (value p) in
        let s := treasury_event (Awarded index (value p) (beneficiary p)) (put_treasury_world w s) in
        (false, mkSpendRound (budget_remaining r - value p)
                  (sat_add u128_max (imbalance r) created) (missed_any r) s)
      else (true, mkSpendRound (budget_remaining r) (imbalance r) true s)
  | None => (false, r)
  end.

(** [Vec::retain], with the state of the closure. *)
Fixpoint retain (v : list Z) (r : SpendRound) : list Z * SpendRound :=
  match v with
  | [] => ([], r)
  | index :: v =>
      let '(keep, r) := award index r in
      let '(v, r) := retain v r in
      (if keep then index :: v else v, r)
  end.

Definition spend_funds (s : St) : St :=
  let budget := pot s in
  let s := treasury_event (Spending budget) s in
  let '(v, r) := retain (Approvals s) (mkSpendRound budget 0 false s) in
  let s := put_approvals v (round_state r) in
  let '(budget, imbalance, missed, w) :=
    spend_hook (budget_remaining r, imbalance r, missed_any r, treasury_world s) in
  let s := put_treasury_world w s in
  let '(budget, imbalance, s) :=
    if missed then (budget, imbalance, s)
    else
      let burn := Z.min (permill_mul (Burn cfg) budget) budget in
      (budget - burn, sat_add u128_max imbalance burn,
       treasury_event (Burnt burn) (put_treasury_world (burn_pair (treasury_world s) burn) s)) in
  let s :=
    match settle (treasury_world s) account_id imbalance with
    | Some w => put_treasury_world w s
    | None => put_treasury_world (drop_positive (treasury_world s) imbalance) s
    end in
  treasury_event (Rollover budget) s.

Definition update_inactive (s : St) : St :=
  let pot := pot s in
  let deactivated := Deactivated s in
  if pot =? deactivated then s
  else
    let w := deactivate (reactivate (treasury_world s) deactivated) pot in
    treasury_event (UpdatedInactive deactivated pot) (put_deactivated pot (put_treasury_world w s)).

(** [n % 0] would panic; the period is a positive constant. *)
Definition treasury_on_initialize (n : Z) (s : St) : St :=
  let s := update_inactive s in
  if n mod SpendPeriod cfg =? 0 then spend_funds s else s.

(** ** [try_state] *)

Definition try_state_proposals (s : St) : bool :=
  (Z.of_nat (size (Proposals s)) <=? ProposalCount s) &&
  forallb (fun k => k <? ProposalCount s) (map_to_list (Proposals s)).*1 &&
  forallb (fun i => bool_decide (is_Some (Proposals s !! i))) (Approvals s).

Definition try_state_spends (s : St) : bool :=
  (Z.of_nat (size (Spends s)) <=? SpendCount s) &&
  forallb (fun k => k <? SpendCount s) (map_to_list (Spends s)).*1 &&
  forallb (fun kv => valid_from kv.2 <? expire_at kv.2) (map_to_list (Spends s)).

(** ** Executions

    The calls, each dispatched in a context; the storage is rolled back where
    a call fails. *)

Inductive TreasuryCall :=
| tc_propose_spend (value : Z) (beneficiary : option AccountId)
| tc_reject_proposal (proposal_id : Z)
| tc_approve_proposal (proposal_id : Z)
| tc_spend_local (amount : Z) (beneficiary : option AccountId)
| tc_remove_approval (proposal_id : Z)
| tc_spend (asset_kind : Kind) (amount : Z) (beneficiary : option Beneficiary) (valid_from : option Z)
| tc_payout (index : Z)
| tc_check_status (index : Z)
| tc_void_spend (index : Z).

Definition treasury_dispatch (origin : Origin) (call : TreasuryCall) (ctx : SpendContext) (s : St)
    : SpendContext * Outcome :=
  match call with
  | tc_propose_spend v b => (ctx, propose_spend origin v b s)
  | tc_reject_proposal i => (ctx, reject_proposal origin i s)
  | tc_approve_proposal i => (ctx, approve_proposal origin i s)
  | tc_spend_local x b => spend_local origin x b ctx s
  | tc_remove_approval i => (ctx, remove_approval origin i s)
  | tc_spend k x b f => spend origin k x b f ctx s
  | tc_payout i => (ctx, payout origin i s)
  | tc_check_status i => (ctx, let! (_, s) := check_status origin i s in Ok s)
  | tc_void_spend i => (ctx, void_spend origin i s)
  end.

(** The calls of one dispatch, a batch of them. *)
Fixpoint treasury_batch (calls : list (Origin * TreasuryCall)) (ctx : SpendContext) (s : St)
    : SpendContext * St :=
  match calls with
  | [] => (ctx, s)
  | (o, c) :: calls =>
      match treasury_dispatch o c ctx s with
      | (ctx, Ok s) => treasury_batch calls ctx s
      | (ctx, Err _) => treasury_batch calls ctx s
      end
  end.
End pallet.
