(* ===== verification/TreasurySafety.v ===== *)
(** * What the treasury guarantees

    The laws of the currency, the invariant of the pallet and its preservation
    by every call and hook. *)

From S2P Require Import Prelude Frame Treasury.

(** ** The currency

    Reserving, releasing, slashing and depositing move the amount asked for, as
    far as there is one; a deposit may be refused, to a dead account, and then
    creates nothing.  Settling succeeds where the account keeps the minimum
    balance.  [BurnDestination] keeps nothing, and the activity of an issuance
    is no balance. *)
Class TreasuryCurrencyLaws (AccountId W : Type) `{EqDecision AccountId}
    `{!ReservableCurrency AccountId W, !TreasuryCurrency AccountId W} : Prop := {
  tl_minimum : 0 <= minimum_balance (AccountId := AccountId) (W := W);
  tl_free w (a : AccountId) : in_range u128_max (free_balance w a);
  tl_reserved w (a : AccountId) : 0 <= reserved_balance w a;
  tl_reserve w a x w' :
    reserve w a x = Some w' -> 0 <= x -> forall b,
    reserved_balance w' b = reserved_balance w b + (if decide (b = a) then x else 0) /\
    free_balance w' b = free_balance w b - (if decide (b = a) then x else 0);
  tl_unreserve w a x :
    0 <= x -> forall b, let y := if decide (b = a) then Z.min x (reserved_balance w a) else 0 in
    reserved_balance (unreserve w a x) b = reserved_balance w b - y /\
    free_balance (unreserve w a x) b = free_balance w b + y;
  tl_slash w a x :
    0 <= x -> forall b,
    reserved_balance (fst (slash_reserved w a x)) b =
      reserved_balance w b - (if decide (b = a) then Z.min x (reserved_balance w a) else 0) /\
    free_balance (fst (slash_reserved w a x)) b = free_balance w b;
  tl_slash_amount w a x :
    0 <= x -> snd (slash_reserved w a x) = Z.min x (reserved_balance w a);
  tl_resolve w a x : 0 <= x -> forall b,
    reserved_balance (resolve_creating w a x) b = reserved_balance w b /\
    free_balance w b <= free_balance (resolve_creating w a x) b;
  tl_make w a x b : reserved_balance (make_free_balance_be w a x) b = reserved_balance w b;
  tl_deposit w a x w' c :
    deposit_creating w a x = (w', c) -> in_range u128_max x ->
    (c = x \/ c = 0) /\ forall b,
    reserved_balance w' b = reserved_balance w b /\
    free_balance w' b = free_balance w b + (if decide (b = a) then c else 0);
  tl_settle w a c :
    0 <= c -> c = 0 \/ minimum_balance (AccountId := AccountId) (W := W) + c <= free_balance w a ->
    exists w', settle w a c = Some w' /\ forall b,
    reserved_balance w' b = reserved_balance w b /\
    free_balance w' b = free_balance w b - (if decide (b = a) then c else 0);
  tl_burn w x b :
    reserved_balance (burn_pair w x) b = reserved_balance w b /\
    free_balance (burn_pair w x) b = free_balance w b;
  tl_activity w x y b :
    reserved_balance (deactivate (reactivate w x) y) b = reserved_balance w b /\
    free_balance (deactivate (reactivate w x) y) b = free_balance w b;
}.

Section treasury.
Context {AccountId Kind Beneficiary Id Origin W : Type} `{EqDecision AccountId}.
Context `{!SpArithmetic, !SpArithmeticLaws}.
Context `{!ReservableCurrency AccountId W, !TreasuryCurrency AccountId W}.
Context `{!TreasuryCurrencyLaws AccountId W}.
Context `{!FrameSystem AccountId Origin W, !Paymaster Kind Beneficiary Id W, !TreasuryOrigins Origin}.
Context (cfg : TreasuryConfig AccountId).
Context (spend_hook : Z * Z * bool * W -> Z * Z * bool * W).

Abbreviation St := (TreasuryStorage (AccountId := AccountId) (Kind := Kind)
  (Beneficiary := Beneficiary) (Id := Id) (W := W)).
Abbreviation Call := (TreasuryCall (AccountId := AccountId) (Kind := Kind) (Beneficiary := Beneficiary)).

Record treasury_config_ok : Prop := {
  ok_bond : in_range permill_one (ProposalBond cfg);
  ok_bond_minimum : in_range u128_max (ProposalBondMinimum cfg);
  ok_bond_maximum m : ProposalBondMaximum cfg = Some m -> in_range u128_max m;
  ok_burn : in_range permill_one (Burn cfg);
}.

(** What a runtime hook may do with the budget: it spends from it what it adds
    to the imbalance, takes from no account and releases no reserve. *)
Definition hook_ok : Prop := forall b i m w,
  0 <= b -> 0 <= i -> b + i <= u128_max ->
  let '(b', i', m', w') := spend_hook (b, i, m, w) in
  0 <= b' /\ i <= i' /\ b' + i' <= b + i /\
  forall a, reserved_balance w a <= reserved_balance w' a /\ free_balance w a <= free_balance w' a.

(** Paying a spend releases no reserve. *)
Definition paymaster_ok : Prop := forall w b k x w' (id : Id),
  pay (Kind := Kind) (Beneficiary := Beneficiary) w b k x = Some (w', id) ->
  forall a : AccountId, reserved_balance w a <= reserved_balance w' a.

(** ** The invariant *)

(** The bonds of an account. *)
Definition bonds (m : gmap Z (Proposal AccountId)) (a : AccountId) : Z :=
  map_sum (fun p => if decide (a = proposer p) then bond p else 0) m.

Record treasury_inv (n : Z) (s : St) : Prop := {
  inv_counts : 0 <= ProposalCount s <= n /\ 0 <= SpendCount s <= n;
  inv_proposals i p : Proposals s !! i = Some p ->
    0 <= i < ProposalCount s /\ in_range u128_max (value p) /\ in_range u128_max (bond p);
  inv_spends i sp : Spends s !! i = Some sp -> 0 <= i < SpendCount s;
  inv_bonds a : bonds (Proposals s) a <= reserved_balance (treasury_world s) a;
  inv_approvals : Z.of_nat (length (Approvals s)) <= Z.max 0 (MaxApprovals cfg) /\
    Forall (fun i => 0 <= i < ProposalCount s) (Approvals s);
}.

Lemma bonds_nonneg m a :
  (forall i p, m !! i = Some p -> in_range u128_max (bond p)) -> 0 <= bonds m a.
Proof.
  intros Hm. apply map_sum_nonneg. intros i p Hi. apply Hm in Hi. unfold in_range in Hi.
  case_decide; lia.
Qed.

Lemma bonds_insert m i p a :
  m !! i = None -> bonds (<[i := p]> m) a = bonds m a + (if decide (a = proposer p) then bond p else 0).
Proof. intros Hi. unfold bonds. rewrite map_sum_insert_None by done. lia. Qed.

Lemma bonds_delete m i p a :
  m !! i = Some p -> bonds (delete i m) a = bonds m a - (if decide (a = proposer p) then bond p else 0).
Proof. intros Hi. unfold bonds. rewrite (map_sum_delete _ m i p Hi). lia. Qed.

(** A bond is covered by the reserve of its proposer. *)
Lemma bond_covered n s i p :
  treasury_inv n s -> Proposals s !! i = Some p ->
  0 <= bond p <= reserved_balance (treasury_world s) (proposer p).
Proof.
  intros Hinv Hi. pose proof (inv_bonds n s Hinv (proposer p)) as Hb.
  pose proof (bonds_delete (Proposals s) i p (proposer p) Hi) as Hd. rewrite decide_True in Hd by done.
  assert (0 <= bonds (delete i (Proposals s)) (proposer p)).
  { apply bonds_nonneg. intros j q [_ Hj]%lookup_delete_Some. by eapply inv_proposals. }
  destruct (inv_proposals n s Hinv i p Hi) as (_ & _ & [? ?]). lia.
Qed.

Lemma calculate_bond_range v :
  treasury_config_ok -> in_range u128_max v -> in_range u128_max (calculate_bond cfg v).
Proof.
  intros [Hb Hmin Hmax _] Hv. unfold calculate_bond.
  pose proof (permill_mul_bound _ _ Hb Hv). destruct (ProposalBondMaximum cfg) as [m|]; [|ulia].
  specialize (Hmax m eq_refl). ulia.
Qed.

Lemma next_index_exact c n : 0 <= c < n -> n <= u32_max -> next_index c = c + 1.
Proof. intros Hc Hn. unfold next_index. apply Z.mod_small. lia. Qed.

(** ** Awards *)

(** What one award did: the amount created is the value, or nothing where the
    deposit was refused. *)
Record Award := mkAward { aw_index : Z; aw_proposal : Proposal AccountId; aw_created : Z }.

Definition awarded (aw : list Award) : Z := zsum ((fun x => value (aw_proposal x)) <$> aw).
Definition created (aw : list Award) : Z := zsum (aw_created <$> aw).
Definition returned_to (a : AccountId) (aw : list Award) : Z :=
  zsum ((fun x => if decide (a = proposer (aw_proposal x)) then bond (aw_proposal x) else 0) <$> aw).
Definition received_by (a : AccountId) (aw : list Award) : Z :=
  zsum ((fun x => if decide (a = beneficiary (aw_proposal x)) then aw_created x else 0) <$> aw).

Abbreviation Round := (SpendRound (AccountId := AccountId) (Kind := Kind)
  (Beneficiary := Beneficiary) (Id := Id) (W := W)).

Lemma awarded_cons i p c aw : awarded (mkAward i p c :: aw) = value p + awarded aw.
Proof. done. Qed.
Lemma created_cons i p c aw : created (mkAward i p c :: aw) = c + created aw.
Proof. done. Qed.
Lemma returned_to_cons a i p c aw : returned_to a (mkAward i p c :: aw) =
  (if decide (a = proposer p) then bond p else 0) + returned_to a aw.
Proof. done. Qed.
Lemma received_by_cons a i p c aw : received_by a (mkAward i p c :: aw) =
  (if decide (a = beneficiary p) then c else 0) + received_by a aw.
Proof. done. Qed.

(** A pass over the queue, and the awards it made. *)
Record retained (v v' : list Z) (r r' : Round) (aw : list Award) : Prop := {
  rt_nodup : NoDup (aw_index <$> aw);
  rt_order : sublist (aw_index <$> aw) v;
  rt_awards : Forall (fun x => aw_index x ∈ v /\
    Proposals (round_state r) !! aw_index x = Some (aw_proposal x) /\
    (aw_created x = value (aw_proposal x) \/ aw_created x = 0)) aw;
  rt_proposals i : Proposals (round_state r') !! i =
    if decide (i ∈ aw_index <$> aw) then None else Proposals (round_state r) !! i;
  rt_budget : budget_remaining r' = budget_remaining r - awarded aw /\ 0 <= budget_remaining r';
  rt_imbalance : imbalance r' = imbalance r + created aw;
  rt_kept : v' = filter (fun i => is_Some (Proposals (round_state r') !! i)) v;
  rt_maximal : Forall (fun i => forall p, Proposals (round_state r') !! i = Some p ->
    budget_remaining r' < value p) v';
  rt_missed : missed_any r' = missed_any r || negb (length v' =? 0)%nat;
  rt_reserved b : reserved_balance (treasury_world (round_state r')) b =
    reserved_balance (treasury_world (round_state r)) b - returned_to b aw;
  rt_free b : free_balance (treasury_world (round_state r')) b =
    free_balance (treasury_world (round_state r)) b + returned_to b aw + received_by b aw;
  rt_rest : ProposalCount (round_state r') = ProposalCount (round_state r) /\
    SpendCount (round_state r') = SpendCount (round_state r) /\
    Spends (round_state r') = Spends (round_state r) /\
    Approvals (round_state r') = Approvals (round_state r);
}.

Lemma filter_gone (m : gmap Z (Proposal AccountId)) i v :
  m !! i = None -> filter (fun j => is_Some (m !! j)) (i :: v) = filter (fun j => is_Some (m !! j)) v.
Proof. intros Hi. rewrite filter_cons, decide_False; [done|]. rewrite Hi. by intros [? ?]. Qed.

(** The rounds that a pass can start from. *)
Record round_ok (r : Round) : Prop := {
  ro_budget : 0 <= budget_remaining r;
  ro_imbalance : 0 <= imbalance r;
  ro_sum : budget_remaining r + imbalance r <= u128_max;
  ro_values i p : Proposals (round_state r) !! i = Some p ->
    in_range u128_max (value p) /\ in_range u128_max (bond p);
  ro_bonds a : bonds (Proposals (round_state r)) a <=
    reserved_balance (treasury_world (round_state r)) a;
}.

Lemma round_bond_covered r i p :
  round_ok r -> Proposals (round_state r) !! i = Some p ->
  0 <= bond p <= reserved_balance (treasury_world (round_state r)) (proposer p).
Proof.
  intros Hr Hi. pose proof (ro_bonds r Hr (proposer p)) as Hb.
  pose proof (bonds_delete _ i p (proposer p) Hi) as Hd. rewrite decide_True in Hd by done.
  assert (0 <= bonds (delete i (Proposals (round_state r))) (proposer p)).
  { apply bonds_nonneg. intros j q [_ Hj]%lookup_delete_Some. by eapply ro_values. }
  destruct (ro_values r Hr i p Hi) as [_ [? _]]. lia.
Qed.

(** One approval. *)
Lemma award_spec i r keep r' :
  round_ok r -> award i r = (keep, r') ->
  round_ok r' /\
  match Proposals (round_state r) !! i with
  | None => keep = false /\ r' = r
  | Some p =>
      if value p <=? budget_remaining r then
        keep = false /\ missed_any r' = missed_any r /\
        exists c, (c = value p \/ c = 0) /\
        budget_remaining r' = budget_remaining r - value p /\ imbalance r' = imbalance r + c /\
        Proposals (round_state r') = delete i (Proposals (round_state r)) /\
        (forall b, reserved_balance (treasury_world (round_state r')) b =
           reserved_balance (treasury_world (round_state r)) b -
             (if decide (b = proposer p) then bond p else 0)) /\
        (forall b, free_balance (treasury_world (round_state r')) b =
           free_balance (treasury_world (round_state r)) b +
             (if decide (b = proposer p) then bond p else 0) +
             (if decide (b = beneficiary p) then c else 0)) /\
        ProposalCount (round_state r') = ProposalCount (round_state r) /\
        SpendCount (round_state r') = SpendCount (round_state r) /\
        Spends (round_state r') = Spends (round_state r) /\
        Approvals (round_state r') = Approvals (round_state r)
      else keep = true /\ r' = mkSpendRound (budget_remaining r) (imbalance r) true (round_state r)
  end.
Proof.
  intros Hr Ha. unfold award in Ha. destruct (Proposals (round_state r) !! i) as [p|] eqn:Hi.
  2:{ injection Ha as <- <-. done. }
  destruct (value p <=? budget_remaining r) eqn:Hv.
  2:{ injection Ha as <- <-. split; [|done]. destruct Hr. by split. }
  cbn in Ha. destruct (deposit_creating _ _ _) as [w c] eqn:Hd. injection Ha as <- <-.
  pose proof (round_bond_covered r i p Hr Hi) as Hb.
  destruct Hr as [H1 H2 H3 H4 H5]. destruct (H4 i p Hi) as [Hvp Hbp]. unfold in_range in Hvp.
  apply tl_deposit in Hd as [Hc Hw]; [|done].
  pose proof (tl_unreserve (treasury_world (round_state r)) (proposer p) (bond p) ltac:(lia)) as Hu.
  cbv zeta in Hu. rewrite Z.min_l in Hu by lia.
  rewrite sat_add_exact by lia.
  assert (Hres : forall b, reserved_balance w b = reserved_balance (treasury_world (round_state r)) b -
    (if decide (b = proposer p) then bond p else 0)).
  { intros b. by rewrite (proj1 (Hw b)), (proj1 (Hu b)). }
  split.
  - split; simpl; try lia.
    + intros j q [_ Hj]%lookup_delete_Some. by eapply H4.
    + intros a. rewrite (bonds_delete _ _ _ a Hi), Hres. specialize (H5 a). lia.
  - split; [done|]. split; [done|]. exists c. split; [done|]. simpl. split_and!; try done.
    intros b. rewrite (proj2 (Hw b)), (proj2 (Hu b)). lia.
Qed.

Lemma retained_gone i v v' r r' aw :
  Proposals (round_state r) !! i = None -> retained v v' r r' aw -> retained (i :: v) v' r r' aw.
Proof.
  intros Hi [? ? Haw Hp ? ? Hk ? ? ? ? ?]. split; try done.
  - by apply sublist_cons.
  - eapply Forall_impl; [exact Haw|]. intros x (? & ? & ?). split_and!; [by right|done..].
  - rewrite filter_gone; [done|]. rewrite Hp, Hi. by destruct (decide _).
Qed.

Lemma awarded_at_least aw x :
  Forall (fun x => 0 <= value (aw_proposal x)) aw -> x ∈ aw -> value (aw_proposal x) <= awarded aw.
Proof.
  unfold awarded. intros Hpos Hx. induction Hpos as [|y aw Hy Hpos IH]; [by apply elem_of_nil in Hx|].
  assert (0 <= zsum ((fun x => value (aw_proposal x)) <$> aw)) by (by apply zsum_nonneg, Forall_fmap).
  rewrite fmap_cons. unfold zsum in *. simpl. apply elem_of_cons in Hx as [->|Hx]; [lia|].
  specialize (IH Hx). lia.
Qed.

Lemma retained_kept i p v v' r r' aw :
  Proposals (round_state r) !! i = Some p -> budget_remaining r < value p ->
  retained v v' (mkSpendRound (budget_remaining r) (imbalance r) true (round_state r)) r' aw ->
  awarded aw <= budget_remaining r -> Forall (fun x => 0 <= value (aw_proposal x)) aw ->
  retained (i :: v) (i :: v') r r' aw.
Proof.
  intros Hi Hv [Hnd Hsub Haw Hp [Hb Hb0] Him Hk Hm Hms Hres Hfr Hrest] Hle Hpos. simpl in *.
  assert (Hni : i ∉ aw_index <$> aw).
  { intros (x & -> & Hx)%list_elem_of_fmap. rewrite Forall_forall in Haw.
    destruct (Haw x Hx) as (_ & Hpx & _). rewrite Hi in Hpx. injection Hpx as ->.
    pose proof (awarded_at_least aw x Hpos Hx). lia. }
  assert (Hpi : Proposals (round_state r') !! i = Some p) by (by rewrite Hp, decide_False).
  split; try done.
  - by apply sublist_cons.
  - eapply Forall_impl; [exact Haw|]. intros x (? & ? & ?). split_and!; [by right|done..].
  - rewrite filter_cons, decide_True by (by rewrite Hpi). by rewrite <- Hk.
  - constructor; [|done]. intros q Hq. rewrite Hpi in Hq. injection Hq as <-.
    assert (0 <= awarded aw) by (by apply zsum_nonneg, Forall_fmap). lia.
  - rewrite Hms. simpl. by rewrite orb_true_r.
Qed.

(** The whole queue. *)
Lemma retain_spec v r v' r' :
  round_ok r -> retain v r = (v', r') -> round_ok r' /\ exists aw, retained v v' r r' aw.
Proof.
  revert r v' r'. induction v as [|i v IH]; intros r v' r' Hr Hret; simpl in Hret.
  { injection Hret as <- <-. split; [done|]. exists []. pose proof (ro_budget r Hr).
    split; unfold awarded, created, returned_to, received_by, zsum; simpl; intros; try done; try lia; constructor. }
  destruct (award i r) as [keep r1] eqn:Ha. destruct (retain v r1) as [v1 r2] eqn:Hv.
  apply award_spec in Ha as [Hr1 Ha]; [|done]. apply IH in Hv as [Hr2 [aw Haw]]; [|done].
  injection Hret as <- <-. split; [done|]. destruct (Proposals (round_state r) !! i) as [p|] eqn:Hi.
  2:{ destruct Ha as [-> ->]. exists aw. by apply retained_gone. }
  assert (Hpos : Forall (fun x => 0 <= value (aw_proposal x)) aw).
  { eapply Forall_impl; [apply (rt_awards _ _ _ _ _ Haw)|]. intros x (_ & Hx & _).
    by apply (ro_values r1 Hr1) in Hx as [[? _] _]. }
  destruct (value p <=? budget_remaining r) eqn:Hle.
  2:{ destruct Ha as [-> ->]. exists aw. eapply retained_kept; try done; [lia|].
      destruct (rt_budget _ _ _ _ _ Haw). simpl in *. lia. }
  destruct Ha as (-> & Hm & c & Hc & Hb & Him & Hp & Hres & Hfr & Hrest).
  exists (mkAward i p c :: aw). destruct Haw as [Hnd Hsub Haw Hprops Hbud Himb Hk Hmax Hms Hres' Hfr' Hrest'].
  assert (Hni : i ∉ aw_index <$> aw).
  { intros (x & -> & Hx)%list_elem_of_fmap. rewrite Forall_forall in Haw.
    destruct (Haw x Hx) as (_ & Hpx & _). by rewrite Hp, lookup_delete_eq in Hpx. }
  assert (Hgone : Proposals (round_state r2) !! i = None)
    by (by rewrite Hprops, decide_False, Hp, lookup_delete_eq).
  split; rewrite ?awarded_cons, ?created_cons; try done; try lia.
  - by constructor.
  - by apply sublist_skip.
  - constructor; [by split_and!; [left|..]|]. eapply Forall_impl; [exact Haw|].
    intros x (? & Hx & ?). rewrite Hp in Hx. apply lookup_delete_Some in Hx as [_ Hx].
    split_and!; [by right|done..].
  - intros j. rewrite Hprops, Hp, fmap_cons. cbn [aw_index]. destruct (decide (j = i)) as [->|Hj].
    + rewrite (decide_True (P := i ∈ i :: _)) by (by left). rewrite lookup_delete_eq. by destruct (decide _).
    + rewrite lookup_delete_ne by done. destruct (decide (j ∈ aw_index <$> aw)).
      * rewrite decide_True; [done|by right].
      * rewrite decide_False; [done|]. by intros [|]%elem_of_cons.
  - by rewrite filter_gone.
  - intros b. rewrite Hres', Hres, returned_to_cons. lia.
  - intros b. rewrite Hfr', Hfr, returned_to_cons, received_by_cons. lia.
  - by destruct Hrest' as (-> & -> & -> & ->).
Qed.

(** ** Every step keeps the invariant *)

Lemma treasury_inv_mono n m s : n <= m -> treasury_inv n s -> treasury_inv m s.
Proof. intros Hn [? ? ? ? ?]. split; try done. lia. Qed.

Lemma treasury_event_inv n e s : treasury_inv n s -> treasury_inv n (treasury_event e s).
Proof. intros []. by split. Qed.

(** A step of the outside that releases no reserve. *)
Lemma treasury_world_inv n w s :
  (forall a, reserved_balance (treasury_world s) a <= reserved_balance w a) ->
  treasury_inv n s -> treasury_inv n (put_treasury_world w s).
Proof. intros Hw [? ? ? Hb ?]. split; try done. intros a. simpl. specialize (Hw a). specialize (Hb a). lia. Qed.

Lemma treasury_spends_inv n m c s :
  0 <= c <= n -> (forall i sp, m !! i = Some sp -> 0 <= i < c) ->
  treasury_inv n s -> treasury_inv n (put_spends c m s).
Proof. intros Hc Hm [? ? ? ? ?]. split; try done. simpl. lia. Qed.

Lemma treasury_approvals_inv n v s :
  Z.of_nat (length v) <= Z.max 0 (MaxApprovals cfg) -> Forall (fun i => 0 <= i < ProposalCount s) v ->
  treasury_inv n s -> treasury_inv n (put_approvals v s).
Proof. intros H1 H2 [? ? ? ? ?]. by split. Qed.

(** A new proposal, whose bond is in reserve. *)
Lemma treasury_propose_inv n p s :
  n + 1 <= u32_max -> in_range u128_max (value p) -> in_range u128_max (bond p) ->
  bonds (Proposals s) (proposer p) + bond p <= reserved_balance (treasury_world s) (proposer p) ->
  treasury_inv n s ->
  treasury_inv (n + 1) (put_proposals (next_index (ProposalCount s))
    (<[ProposalCount s := p]> (Proposals s)) s).
Proof.
  intros Hn Hv Hbp Hb [[Hc Hsc] Hps Hsp Hbs [Ha1 Ha2]].
  rewrite next_index_exact with (n := n + 1) by lia.
  assert (Hfresh : Proposals s !! ProposalCount s = None).
  { destruct (Proposals s !! ProposalCount s) as [q|] eqn:Hq; [|done]. apply Hps in Hq as [? _]. lia. }
  split; simpl.
  - lia.
  - intros i q [[<- <-]|[_ Hq]]%lookup_insert_Some; [by split_and!; try lia|].
    apply Hps in Hq as (? & ? & ?). split_and!; by try lia.
  - done.
  - intros a. rewrite bonds_insert by done. case_decide as Ha; [by rewrite Ha|].
    specialize (Hbs a). lia.
  - split; [done|]. eapply Forall_impl; [exact Ha2|]. simpl. lia.
Qed.

(** A proposal gone with its bond. *)
Lemma treasury_delete_inv n i p w s :
  Proposals s !! i = Some p ->
  (forall a, reserved_balance w a =
     reserved_balance (treasury_world s) a - (if decide (a = proposer p) then bond p else 0)) ->
  treasury_inv n s ->
  treasury_inv n (put_treasury_world w (put_proposals (ProposalCount s) (delete i (Proposals s)) s)).
Proof.
  intros Hi Hw [? Hps ? Hbs ?]. split; try done; simpl.
  - intros j q [_ Hq]%lookup_delete_Some. by apply (Hps j).
  - intros a. rewrite (bonds_delete _ _ _ a Hi), Hw. specialize (Hbs a). lia.
Qed.

Lemma treasury_on_unbalanced_inv n x s :
  0 <= x -> treasury_inv n s -> treasury_inv n (treasury_on_unbalanced cfg x s).
Proof.
  intros Hx Hinv. unfold treasury_on_unbalanced. case_match; [done|].
  apply treasury_event_inv, treasury_world_inv; [|done].
  intros a. by rewrite (proj1 (tl_resolve (treasury_world s) (account_id cfg) x Hx a)).
Qed.

Lemma propose_spend_inv n o v b s s' :
  treasury_config_ok -> n + 1 <= u32_max -> in_range u128_max v ->
  treasury_inv n s -> propose_spend cfg o v b s = Ok s' -> treasury_inv (n + 1) s'.
Proof.
  intros Hcfg Hn Hv Hinv Hs. unfold propose_spend in Hs. result_inv.
  pose proof (calculate_bond_range v Hcfg Hv) as Hb. destruct Hb as [Hb0 Hb1].
  match goal with H : reserve _ _ _ = Some _ |- _ => pose proof (tl_reserve _ _ _ _ H Hb0) as Hr end.
  apply treasury_event_inv. refine (treasury_propose_inv n (mkProposal _ _ _ _) (put_treasury_world _ s) _ _ _ _ _);
    simpl; try done.
  - destruct (Hr a) as [-> _]. rewrite decide_True by done. pose proof (inv_bonds n s Hinv a). lia.
  - apply treasury_world_inv; [|done]. intros b. destruct (Hr b) as [-> _]. case_decide; lia.
Qed.

Lemma spend_local_inv n o x b ctx s ctx' s' :
  n + 1 <= u32_max -> in_range u128_max x ->
  treasury_inv n s -> spend_local cfg o x b ctx s = (ctx', Ok s') -> treasury_inv (n + 1) s'.
Proof.
  intros Hn Hx Hinv Hs. unfold spend_local, in_context in Hs.
  destruct (SpendOrigin o) as [max|]; [|done]. destruct (x <=? max); [|done].
  destruct (spend_in_context _ _ _) as [ctx1 [u|]]; [|done]. injection Hs as <- Hs. clear u. result_inv.
  unfold try_push in *. result_inv. apply treasury_event_inv.
  destruct Hinv as [Hc Hp Hsp Hb [Ha1 Ha2]].
  pose proof (treasury_propose_inv n (mkProposal a x a 0) s Hn Hx ltac:(unfold in_range; simpl; lia)) as Hnew.
  simpl in Hnew. rewrite Z.add_0_r in Hnew. specialize (Hnew (Hb a) ltac:(by split)).
  apply (treasury_approvals_inv _ (Approvals s ++ [ProposalCount s])) in Hnew; [done|..]; simpl.
  - rewrite length_app. simpl. lia.
  - apply Forall_app. rewrite next_index_exact with (n := n + 1) by lia. split.
    + eapply Forall_impl; [exact Ha2|]. simpl. lia.
    + constructor; [lia|done].
Qed.

Lemma reject_proposal_inv n o i s s' :
  treasury_inv n s -> reject_proposal cfg o i s = Ok s' -> treasury_inv n s'.
Proof.
  intros Hinv Hs. unfold reject_proposal in Hs. result_inv.
  match goal with H : Proposals s !! i = Some ?q |- _ => rename H into Hi; rename q into p end.
  pose proof (bond_covered n s i p Hinv Hi) as [Hb0 Hb]. simpl in *.
  pose proof (tl_slash (treasury_world s) (proposer p) _ Hb0) as Hsl.
  pose proof (tl_slash_amount (treasury_world s) (proposer p) _ Hb0) as Hx.
  match goal with H : slash_reserved _ _ _ = _ |- _ => simpl in H; rewrite H in Hsl, Hx end.
  simpl in Hsl, Hx.
  apply treasury_event_inv, treasury_on_unbalanced_inv; [lia|].
  eapply treasury_delete_inv; [done| |done]. intros a. destruct (Hsl a) as [-> _]. case_decide; lia.
Qed.

Lemma approve_proposal_inv n o i s s' :
  treasury_inv n s -> approve_proposal cfg o i s = Ok s' -> treasury_inv n s'.
Proof.
  intros Hinv Hs. unfold approve_proposal, try_push in Hs. result_inv.
  match goal with H : bool_decide _ = true |- _ => apply bool_decide_eq_true in H as [p Hp] end.
  apply treasury_approvals_inv; [| |done].
  - rewrite length_app. simpl. lia.
  - apply Forall_app. split; [apply Hinv|]. constructor; [by apply (inv_proposals n s Hinv) in Hp as [? _]|done].
Qed.

Lemma remove_first_spec i v v' :
  remove_first i v = Some v' -> exists v1 v2, v = v1 ++ i :: v2 /\ v' = v1 ++ v2 /\ i ∉ v1.
Proof.
  revert v'. induction v as [|x v IH]; intros v' Hv; simpl in Hv; [done|].
  destruct (Z.eqb_spec x i) as [->|Hx].
  - injection Hv as <-. exists [], v. split_and!; [done..|]. by apply not_elem_of_nil.
  - apply fmap_Some in Hv as (v'' & Hv & ->). apply IH in Hv as (v1 & v2 & -> & -> & Hni).
    exists (x :: v1), v2. split_and!; [done..|]. by intros [|]%elem_of_cons.
Qed.

Lemma remove_approval_inv n o i s s' :
  treasury_inv n s -> remove_approval o i s = Ok s' -> treasury_inv n s'.
Proof.
  intros Hinv Hs. unfold remove_approval in Hs. result_inv.
  match goal with H : remove_first _ _ = Some _ |- _ => apply remove_first_spec in H as (v1 & v2 & Ha & -> & _) end.
  destruct (inv_approvals n s Hinv) as [Hl Hf]. rewrite Ha in Hl, Hf. apply treasury_approvals_inv; [| |done].
  - rewrite length_app in *. simpl in Hl. lia.
  - apply Forall_app in Hf as [? [_ ?]%Forall_cons]. by apply Forall_app.
Qed.

Lemma spend_inv n o k x b f ctx s ctx' s' :
  n + 1 <= u32_max ->
  treasury_inv n s -> spend cfg o k x b f ctx s = (ctx', Ok s') -> treasury_inv (n + 1) s'.
Proof.
  intros Hn Hinv Hs. unfold spend, in_context in Hs.
  destruct (SpendOrigin o) as [max|]; [|done]. destruct b as [b|]; [|done].
  destruct (negb _); [done|]. destruct (from_asset_balance _ _ _) as [y|]; [|done].
  destruct (y <=? max); [|done]. destruct (spend_in_context _ _ _) as [ctx1 [u|]]; [|done].
  injection Hs as <- <-. apply treasury_event_inv.
  destruct (inv_counts n s Hinv) as [? ?]. rewrite next_index_exact with (n := n + 1) by lia.
  apply treasury_spends_inv; [lia| |by apply (treasury_inv_mono n); [lia|]].
  intros i sp [[<- _]|[_ Hi]]%lookup_insert_Some; [lia|]. apply (inv_spends n s Hinv) in Hi. lia.
Qed.

(** A spend changed or gone. *)
Lemma put_spend_inv n i sp sp' s :
  Spends s !! i = Some sp -> treasury_inv n s ->
  treasury_inv n (put_spends (SpendCount s) (<[i := sp']> (Spends s)) s).
Proof.
  intros Hi Hinv. apply treasury_spends_inv; [apply (inv_counts n s Hinv)| |done].
  intros j sp'' [[<- _]|[_ Hj]]%lookup_insert_Some; by eapply inv_spends.
Qed.
Lemma delete_spend_inv n i s :
  treasury_inv n s -> treasury_inv n (put_spends (SpendCount s) (delete i (Spends s)) s).
Proof.
  intros Hinv. apply treasury_spends_inv; [apply (inv_counts n s Hinv)| |done].
  intros j sp [_ Hj]%lookup_delete_Some. by eapply inv_spends.
Qed.

Lemma payout_inv n o i s s' :
  paymaster_ok -> treasury_inv n s -> payout o i s = Ok s' -> treasury_inv n s'.
Proof.
  intros Hpm Hinv Hs. unfold payout in Hs. result_inv. apply treasury_event_inv.
  match goal with H : pay _ _ _ _ = Some (?w', _) |- _ => pose proof (Hpm _ _ _ _ _ _ H) as Hw end.
  by eapply (put_spend_inv n i _ _ (put_treasury_world _ s)); [|apply treasury_world_inv].
Qed.

Lemma check_status_inv n o i s fee s' :
  treasury_inv n s -> check_status o i s = Ok (fee, s') -> treasury_inv n s'.
Proof.
  intros Hinv Hs. unfold check_status in Hs. result_inv; try (by apply treasury_event_inv, delete_spend_inv).
  repeat case_match; result_inv; try (by apply treasury_event_inv, delete_spend_inv).
  by eapply treasury_event_inv, put_spend_inv.
Qed.

Lemma void_spend_inv n o i s s' :
  treasury_inv n s -> void_spend o i s = Ok s' -> treasury_inv n s'.
Proof.
  intros Hinv Hs. unfold void_spend in Hs. result_inv. by apply treasury_event_inv, delete_spend_inv.
Qed.

(** The amounts of a call are [u128]s. *)
Definition call_typed (c : Call) : Prop :=
  match c with
  | tc_propose_spend v _ => in_range u128_max v
  | tc_spend_local x _ => in_range u128_max x
  | _ => True
  end.

Lemma treasury_dispatch_inv n o c ctx s ctx' s' :
  treasury_config_ok -> paymaster_ok -> call_typed c -> n + 1 <= u32_max ->
  treasury_inv n s -> treasury_dispatch cfg o c ctx s = (ctx', Ok s') -> treasury_inv (n + 1) s'.
Proof.
  intros Hcfg Hpm Hc Hn Hinv Hs. assert (Hm : forall s, treasury_inv n s -> treasury_inv (n + 1) s)
    by (intros s1; apply treasury_inv_mono; lia).
  destruct c; simpl in *; try (injection Hs as _ Hs).
  - by eapply propose_spend_inv.
  - by eapply Hm, reject_proposal_inv.
  - by eapply Hm, approve_proposal_inv.
  - by eapply spend_local_inv.
  - by eapply Hm, remove_approval_inv.
  - by eapply spend_inv.
  - by eapply Hm, payout_inv.
  - destruct (check_status o index s) as [[fee s1]|] eqn:Hch; [|done]. injection Hs as <-.
    by eapply Hm, check_status_inv.
  - by eapply Hm, void_spend_inv.
Qed.

(** ** The spend period *)

Lemma created_range v v' r r' aw :
  round_ok r -> retained v v' r r' aw -> 0 <= created aw <= awarded aw.
Proof.
  intros Hr Haw. pose proof (rt_awards _ _ _ _ _ Haw) as Hall. clear Haw. unfold created, awarded.
  induction Hall as [|x aw (_ & Hx & Hc) _ IH]; [done|].
  apply (ro_values r Hr) in Hx as [[? _] _]. rewrite !fmap_cons. unfold zsum in *. simpl. lia.
Qed.

Lemma returned_to_nonneg a v v' r r' aw :
  round_ok r -> retained v v' r r' aw -> 0 <= returned_to a aw /\ 0 <= received_by a aw.
Proof.
  intros Hr Haw. pose proof (rt_awards _ _ _ _ _ Haw) as Hall. clear Haw. unfold returned_to, received_by.
  induction Hall as [|x aw (_ & Hx & Hc) _ IH]; [done|].
  apply (ro_values r Hr) in Hx as [[? _] [? _]]. rewrite !fmap_cons. unfold zsum in *. simpl.
  repeat case_decide; lia.
Qed.

Lemma pot_range (s : St) :
  0 <= pot cfg s <= u128_max /\
  (pot cfg s = 0 \/ minimum_balance (AccountId := AccountId) (W := W) + pot cfg s =
     free_balance (treasury_world s) (TreasuryAccount cfg)).
Proof.
  unfold pot, account_id. pose proof (tl_free (treasury_world s) (TreasuryAccount cfg)) as [? ?].
  pose proof (tl_minimum (AccountId := AccountId) (W := W)). ulia.
Qed.

(** The round that a spend period starts with. *)
Definition first_round (s : St) : Round :=
  mkSpendRound (pot cfg s) 0 false (treasury_event (Spending (pot cfg s)) s).

Lemma first_round_ok n (s : St) : treasury_inv n s -> round_ok (first_round s).
Proof.
  intros [? Hp ? Hb ?]. pose proof (pot_range s) as [? _]. split; simpl; try lia; try done.
  intros i p Hi. by apply Hp in Hi as (_ & ? & ?).
Qed.

(** Settling what was spent and burnt, with enough in the account. *)
Lemma settle_spec w c :
  0 <= c ->
  c = 0 \/ minimum_balance (AccountId := AccountId) (W := W) + c <= free_balance w (account_id cfg) ->
  exists w', settle w (account_id cfg) c = Some w' /\ forall b,
    reserved_balance w' b = reserved_balance w b /\
    free_balance w' b = free_balance w b - (if decide (b = TreasuryAccount cfg) then c else 0).
Proof. intros H1 H2. exact (tl_settle w (account_id cfg) c H1 H2). Qed.

(** What a spend period does after the awards. *)
Record settled (r' : Round) (s' : St) (b i burn : Z) (m : bool) (w : W) : Prop := {
  se_hook : spend_hook (budget_remaining r', imbalance r', missed_any r',
    treasury_world (round_state r')) = (b, i, m, w);
  se_burn : burn = (if m then 0 else Z.min (permill_mul (Burn cfg) b) b) /\ 0 <= burn <= b;
  se_total : 0 <= i /\ i + burn <= budget_remaining r' + imbalance r';
  se_world a : reserved_balance (treasury_world s') a = reserved_balance w a /\
    free_balance (treasury_world s') a =
      free_balance w a - (if decide (a = TreasuryAccount cfg) then i + burn else 0);
  se_state : Proposals s' = Proposals (round_state r') /\
    ProposalCount s' = ProposalCount (round_state r') /\
    Spends s' = Spends (round_state r') /\ SpendCount s' = SpendCount (round_state r') /\
    Deactivated s' = Deactivated (round_state r');
}.

Lemma spend_funds_spec n s :
  treasury_config_ok -> hook_ok -> treasury_inv n s ->
  exists r' aw b i burn m w,
    retain (Approvals s) (first_round s) = (Approvals (spend_funds cfg spend_hook s), r') /\
    round_ok r' /\ retained (Approvals s) (Approvals (spend_funds cfg spend_hook s)) (first_round s) r' aw /\
    settled r' (spend_funds cfg spend_hook s) b i burn m w.
Proof.
  intros Hcfg Hhook Hinv. pose proof (first_round_ok n s Hinv) as Hr.
  destruct (retain (Approvals s) (first_round s)) as [v r'] eqn:Hret.
  pose proof (retain_spec _ _ _ _ Hr Hret) as [Hr' [aw Haw]].
  destruct (spend_hook (budget_remaining r', imbalance r', missed_any r',
    treasury_world (round_state r'))) as [[[b i] m] w] eqn:Hh.
  pose proof (Hhook (budget_remaining r') (imbalance r') (missed_any r') (treasury_world (round_state r'))
    (ro_budget r' Hr') (ro_imbalance r' Hr') (ro_sum r' Hr')) as Hk.
  rewrite Hh in Hk. destruct Hk as (Hb & Hi & Hbi & Hw).
  pose proof (ro_imbalance r' Hr'). pose proof (ro_sum r' Hr').
  pose proof (permill_mul_bound (Burn cfg) b (ok_burn Hcfg) ltac:(unfold in_range; lia)) as Hpm.
  set (burn := if m then 0 else Z.min (permill_mul (Burn cfg) b) b).
  assert (Hburn : 0 <= burn <= b) by (unfold burn; destruct m; lia).
  assert (Hfree : i + burn = 0 \/ minimum_balance (AccountId := AccountId) (W := W) + (i + burn) <=
    free_balance w (account_id cfg)).
  { destruct (pot_range s) as [Hp Hpot]. pose proof (created_range _ _ _ _ _ Hr Haw) as Hcr.
    pose proof (returned_to_nonneg (account_id cfg) _ _ _ _ _ Hr Haw) as Hret'.
    destruct (rt_budget _ _ _ _ _ Haw) as [Hbud _]. pose proof (rt_imbalance _ _ _ _ _ Haw) as Himb.
    pose proof (rt_free _ _ _ _ _ Haw (account_id cfg)) as Hf. destruct (Hw (account_id cfg)) as [_ Hf'].
    unfold account_id in *. simpl in *. lia. }
  exists r', aw, b, i, burn, m, w.
  destruct (rt_rest _ _ _ _ _ Haw) as (Hc1 & Hc2 & Hs & _).
  assert (Hgoal : Approvals (spend_funds cfg spend_hook s) = v /\
    settled r' (spend_funds cfg spend_hook s) b i burn m w); [|by destruct Hgoal as [-> ?]].
  unfold spend_funds. fold (first_round s). cbn [Approvals treasury_event].
  change (mkSpendRound (pot cfg s) 0 false (treasury_event (Spending (pot cfg s)) s)) with (first_round s).
  rewrite Hret. cbn [treasury_world put_approvals]. rewrite Hh. destruct m; subst burn; cbn iota in *.
  - rewrite Z.add_0_r in *. destruct (settle_spec w i ltac:(lia) Hfree) as (w' & Hset & Hw').
    simpl. rewrite Hset. split; [done|]. split; try done; simpl; try lia.
    intros a. by rewrite Z.add_0_r.
  - assert (Hz : 0 <= i + Z.min (permill_mul (Burn cfg) b) b) by lia.
    destruct (settle_spec (burn_pair w (Z.min (permill_mul (Burn cfg) b) b)) _ Hz) as (w' & Hset & Hw').
    { by rewrite (proj2 (tl_burn _ _ _)). }
    simpl. rewrite sat_add_exact by lia. rewrite Hset. split; [done|].
    split; try done; simpl; try lia.
    intros a. destruct (Hw' a) as [-> ->]. by destruct (tl_burn w (Z.min (permill_mul (Burn cfg) b) b) a) as [-> ->].
Qed.

Lemma spend_funds_inv n s :
  treasury_config_ok -> hook_ok -> treasury_inv n s -> treasury_inv n (spend_funds cfg spend_hook s).
Proof.
  intros Hcfg Hhook Hinv.
  destruct (spend_funds_spec n s Hcfg Hhook Hinv) as (r' & aw & b & i & burn & m & w & _ & Hr' & Haw & Hs).
  destruct Hs as [Hh _ _ Hw (Hp & Hc & Hsp & Hsc & _)].
  pose proof (Hhook _ _ (missed_any r') (treasury_world (round_state r'))
    (ro_budget r' Hr') (ro_imbalance r' Hr') (ro_sum r' Hr')) as Hk.
  rewrite Hh in Hk. destruct Hk as (_ & _ & _ & Hk). destruct (rt_rest _ _ _ _ _ Haw) as (Hc1 & Hc2 & Hs & _).
  pose proof Hinv as [Hcs Hps Hss Hbs [Ha1 Ha2]]. simpl in Hc1, Hc2, Hs.
  split; rewrite ?Hp, ?Hc, ?Hsp, ?Hsc, ?Hc1, ?Hc2, ?Hs; try done.
  - intros j p Hj. rewrite (rt_proposals _ _ _ _ _ Haw) in Hj. case_decide; [done|]. by apply Hps.
  - intros a. pose proof (ro_bonds r' Hr' a). destruct (Hw a) as [-> _]. destruct (Hk a). lia.
  - rewrite (rt_kept _ _ _ _ _ Haw). split.
    + pose proof (length_filter (fun i => is_Some (Proposals (round_state r') !! i)) (Approvals s)). lia.
    + rewrite Forall_forall in *. intros j [_ Hj]%list_elem_of_filter. by apply Ha2.
Qed.

Lemma update_inactive_inv n s : treasury_inv n s -> treasury_inv n (update_inactive cfg s).
Proof.
  intros Hinv. unfold update_inactive. case_match; [done|]. apply treasury_event_inv.
  assert (Hw : treasury_inv n (put_treasury_world
    (deactivate (reactivate (treasury_world s) (Deactivated s)) (pot cfg s)) s)).
  { apply treasury_world_inv; [|done]. intros a. by rewrite (proj1 (tl_activity _ _ _ a)). }
  destruct Hw. by split.
Qed.

Lemma on_initialize_inv n k s :
  treasury_config_ok -> hook_ok -> treasury_inv n s ->
  treasury_inv n (treasury_on_initialize cfg spend_hook k s).
Proof.
  intros Hcfg Hhook Hinv%update_inactive_inv. unfold treasury_on_initialize.
  case_match; [by apply spend_funds_inv|done].
Qed.

End treasury.
