(* ===== verification/TreasuryHistory.v ===== *)
(** * What happens over the life of the treasury

    The executions of the pallet, the outcome of a spend period, the life of a
    spend as an automaton over the events, and the payment of an approved
    proposal.  The second part is the limit of an origin in one dispatch and
    the pallet's own consistency checks. *)

From S2P Require Import Prelude Frame Treasury TreasurySafety.

Section history.
Context {AccountId Kind Beneficiary Id Origin W : Type} `{EqDecision AccountId}.
Context `{!SpArithmetic, !SpArithmeticLaws}.
Context `{!ReservableCurrency AccountId W, !TreasuryCurrency AccountId W}.
Context `{!TreasuryCurrencyLaws AccountId W}.
Context `{!FrameSystem AccountId Origin W, !Paymaster Kind Beneficiary Id W, !TreasuryOrigins Origin}.
Context (cfg : TreasuryConfig AccountId).
Context (spend_hook : Z * Z * bool * W -> Z * Z * bool * W).

Abbreviation St := (TreasuryStorage (AccountId := AccountId) (Kind := Kind)
  (Beneficiary := Beneficiary) (Id := Id) (W := W)).
Abbreviation Call := (TreasuryCall (AccountId := AccountId) (Kind := Kind) (Beneficiary := Beneficiary)).
Abbreviation Event := (TreasuryEvent AccountId Kind Beneficiary Id).
Abbreviation Round := (SpendRound (AccountId := AccountId) (Kind := Kind)
  (Beneficiary := Beneficiary) (Id := Id) (W := W)).
Abbreviation Award' := (Award (AccountId := AccountId)).

(** ** Executions *)

Definition treasury_empty (w : W) : St := mkTreasuryStorage 0 ∅ 0 [] 0 ∅ [] w.

(** [usual] restricts the calls considered; [n] counts them.  The world outside
    may change in any way that leaves the bonds reserved. *)
Inductive treasury_reachable (usual : Call -> St -> Prop) : Z -> St -> Prop :=
| treasury_genesis w : treasury_reachable usual 0 (treasury_build cfg (treasury_empty w))
| treasury_call n o c ctx s ctx' s' :
    treasury_reachable usual n s -> usual c s -> call_typed c ->
    treasury_dispatch cfg o c ctx s = (ctx', Ok s') -> treasury_reachable usual (n + 1) s'
| treasury_block n k s :
    treasury_reachable usual n s -> treasury_reachable usual n (treasury_on_initialize cfg spend_hook k s)
| treasury_deposit n x s :
    treasury_reachable usual n s -> 0 <= x ->
    treasury_reachable usual n (treasury_on_unbalanced cfg x s)
| treasury_outside n w s :
    treasury_reachable usual n s -> (forall a, bonds (Proposals s) a <= reserved_balance w a) ->
    treasury_reachable usual n (put_treasury_world w s).

Definition any_call (c : Call) (s : St) : Prop := True.

(** ** The life of a spend

    Where a spend is, by its entry of [Spends], and what each event says of
    it. *)

Inductive Phase := NotYet | Live (st : PaymentState Id) | Gone.

Definition phase_of (s : St) (i : Z) : Phase :=
  match Spends s !! i with
  | Some sp => Live (status sp)
  | None => if i <? SpendCount s then Gone else NotYet
  end.

Definition spend_of (e : Event) : option Z :=
  match e with
  | AssetSpendApproved i _ _ _ _ _ => Some i
  | AssetSpendVoided i => Some i
  | Paid i _ => Some i
  | PaymentFailed i _ => Some i
  | SpendProcessed i => Some i
  | _ => None
  end.

Inductive spend_move (i : Z) : Event -> Phase -> Phase -> Prop :=
| mv_approve k x b f t : spend_move i (AssetSpendApproved i k x b f t) NotYet (Live Pending)
| mv_pay st id :
    not_attempted st = true -> spend_move i (Paid i id) (Live st) (Live (Attempted id))
| mv_fail id : spend_move i (PaymentFailed i id) (Live (Attempted id)) (Live Failed)
| mv_void st : not_attempted st = true -> spend_move i (AssetSpendVoided i) (Live st) Gone
| mv_processed st : spend_move i (SpendProcessed i) (Live st) Gone
| mv_other e ph : spend_of e <> Some i -> spend_move i e ph ph.

Inductive spend_path (i : Z) : Phase -> list Event -> Phase -> Prop :=
| path_nil ph : spend_path i ph [] ph
| path_cons ph e ph1 l ph2 :
    spend_move i e ph ph1 -> spend_path i ph1 l ph2 -> spend_path i ph (e :: l) ph2.

Lemma spend_path_app i ph l1 ph1 l2 ph2 :
  spend_path i ph l1 ph1 -> spend_path i ph1 l2 ph2 -> spend_path i ph (l1 ++ l2) ph2.
Proof. induction 1 as [|ph e ph' l ph'' He Hl IH]; intros H2; [done|]. econstructor; [done|by apply IH]. Qed.

Lemma spend_path_split i ph l1 l2 ph2 :
  spend_path i ph (l1 ++ l2) ph2 -> exists ph1, spend_path i ph l1 ph1 /\ spend_path i ph1 l2 ph2.
Proof.
  revert ph. induction l1 as [|e l1 IH]; intros ph Hp; [by exists ph; split; [constructor|]|].
  inversion Hp as [|? ? ph1 ? ? He Hl]; subst. apply IH in Hl as (ph' & H1 & H2).
  exists ph'. split; [by econstructor|done].
Qed.

Lemma quiet_path i ph l : Forall (fun e => spend_of e = None) l -> spend_path i ph l ph.
Proof.
  induction 1 as [|e l He Hl IH]; [constructor|]. econstructor; [|exact IH]. apply mv_other. by rewrite He.
Qed.

Lemma gone_is_not_paid i id l1 l2 ph : ~ spend_path i Gone (l1 ++ Paid i id :: l2) ph.
Proof.
  induction l1 as [|e l1 IH]; intros Hp; inversion Hp as [|? ? ph1 ? ? He Hl]; subst;
    inversion He; subst; try done.
Qed.

(** Between two payments of a spend the first one failed. *)
Lemma paid_again i id id2 l1 l2 ph :
  spend_path i (Live (Attempted id)) (l1 ++ Paid i id2 :: l2) ph -> PaymentFailed i id ∈ l1.
Proof.
  induction l1 as [|e l1 IH]; intros Hp; inversion Hp as [|? ? ph1 ? ? He Hl]; subst;
    inversion He; subst; try done.
  - by left.
  - by apply gone_is_not_paid in Hl.
  - right. by apply IH.
Qed.

(** A step that only adds events that are not about spends. *)
Definition quiet (s s' : St) : Prop :=
  Spends s' = Spends s /\ SpendCount s' = SpendCount s /\
  exists l, treasury_events s' = treasury_events s ++ l /\ Forall (fun e => spend_of e = None) l.

#[global] Instance quiet_preorder : PreOrder quiet.
Proof.
  split.
  - intros s. split_and!; try done. exists []. by rewrite app_nil_r.
  - intros s1 s2 s3 (H1 & H2 & l & Hl & Hq) (H1' & H2' & l' & Hl' & Hq').
    split_and!; [congruence..|]. exists (l ++ l'). rewrite Hl', Hl, app_assoc. split; [done|by apply Forall_app].
Qed.

Lemma quiet_same s s' :
  Spends s' = Spends s -> SpendCount s' = SpendCount s -> treasury_events s' = treasury_events s ->
  quiet s s'.
Proof. intros. split_and!; try done. exists []. by rewrite app_nil_r. Qed.

Lemma quiet_event e s s' : spend_of e = None -> quiet s s' -> quiet s (treasury_event e s').
Proof.
  intros He Hq. etrans; [exact Hq|]. split_and!; try done. exists [e]. split; [done|by constructor].
Qed.

Ltac quiet_solve := repeat (apply quiet_event; [done|]); by apply quiet_same.

(** A step of one spend. *)
Definition moves (s s' : St) : Prop :=
  exists e, treasury_events s' = treasury_events s ++ [e] /\
  forall i, 0 <= i -> spend_move i e (phase_of s i) (phase_of s' i).

Lemma on_unbalanced_quiet x s : quiet s (treasury_on_unbalanced cfg x s).
Proof. unfold treasury_on_unbalanced. case_match; [done|quiet_solve]. Qed.

Lemma award_quiet i (r : Round) : quiet (round_state r) (round_state (award i r).2).
Proof.
  unfold award. destruct (Proposals _ !! i) as [p|]; [|done]. case_match; [|done].
  cbn. destruct (deposit_creating _ _ _). quiet_solve.
Qed.

Lemma retain_quiet v (r : Round) : quiet (round_state r) (round_state (retain v r).2).
Proof.
  revert r. induction v as [|i v IH]; intros r; [done|]. simpl. pose proof (award_quiet i r) as Ha.
  destruct (award i r) as [keep r1]. specialize (IH r1). destruct (retain v r1) as [v1 r2]. by etrans.
Qed.

Lemma spend_funds_quiet s : quiet s (spend_funds cfg spend_hook s).
Proof.
  unfold spend_funds.
  pose proof (retain_quiet (Approvals s) (first_round cfg s)) as Hq. unfold first_round in *.
  cbn [Approvals treasury_event]. destruct (retain _ _) as [v r]. simpl in Hq.
  assert (Hq' : quiet s (round_state r)) by (etrans; [|exact Hq]; quiet_solve).
  destruct (spend_hook _) as [[[b i] m] w]. etrans; [exact Hq'|].
  destruct m; destruct (settle _ _ _); quiet_solve.
Qed.

Lemma update_inactive_quiet s : quiet s (update_inactive cfg s).
Proof. unfold update_inactive. case_match; [done|quiet_solve]. Qed.

Lemma on_initialize_quiet k s : quiet s (treasury_on_initialize cfg spend_hook k s).
Proof.
  unfold treasury_on_initialize. pose proof (update_inactive_quiet s) as Hq.
  case_match; [|done]. etrans; [exact Hq|]. apply spend_funds_quiet.
Qed.

Section safe.
Context (Hcfg : treasury_config_ok cfg) (Hhook : hook_ok spend_hook).
Context (Hpay : paymaster_ok (AccountId := AccountId) (Kind := Kind) (Beneficiary := Beneficiary)
  (Id := Id) (W := W)).

Lemma reachable_count usual n s : treasury_reachable usual n s -> 0 <= n.
Proof. induction 1; lia. Qed.

Lemma treasury_reachable_inv usual n s : treasury_reachable usual n s -> n <= u32_max -> treasury_inv cfg n s.
Proof.
  induction 1 as [w|n o c ctx s ctx' s' Hr IH _ Hc Hs|n k s Hr IH|n x s Hr IH Hx|n w s Hr IH Hw]; intros Hn.
  - assert (He : treasury_inv cfg 0 (treasury_empty w)).
    { split; simpl.
      - lia.
      - intros i p Hi. by rewrite lookup_empty in Hi.
      - intros i p Hi. by rewrite lookup_empty in Hi.
      - intros a. unfold bonds. rewrite map_sum_empty. apply tl_reserved.
      - split; [lia|done]. }
    unfold treasury_build. case_match; [|done]. apply treasury_world_inv; [|done].
    intros a. by rewrite tl_make.
  - eapply treasury_dispatch_inv; try done. apply IH. lia.
  - by apply on_initialize_inv, IH.
  - by apply treasury_on_unbalanced_inv, IH.
  - destruct (IH Hn). by split.
Qed.

(** Every bond is in reserve. *)
Theorem treasury_bonds_backed n s :
  treasury_reachable any_call n s -> n <= u32_max ->
  (forall a, 0 <= bonds (Proposals s) a <= reserved_balance (treasury_world s) a) /\
  (forall i p, Proposals s !! i = Some p -> 0 <= i < ProposalCount s /\ 0 <= bond p) /\
  (forall i sp, Spends s !! i = Some sp -> 0 <= i < SpendCount s) /\
  Z.of_nat (length (Approvals s)) <= Z.max 0 (MaxApprovals cfg).
Proof.
  intros Hr Hn. pose proof (treasury_reachable_inv _ n s Hr Hn) as [Hc Hp Hs Hb [Ha _]].
  split_and!; try done.
  - intros a. split; [|done]. apply bonds_nonneg. intros i p Hi. by apply Hp in Hi as (_ & _ & ?).
  - intros i p Hi. apply Hp in Hi as (? & _ & [? _]). done.
Qed.

(** The phase of a spend put in the map, and of the others. *)
Lemma put_spend_moves i e sp ph s w m :
  spend_of e = Some i ->
  (forall j, j <> i -> m !! j = Spends s !! j) ->
  match m !! i with Some sp => ph = Live (status sp) | None => ph = Gone /\ i < SpendCount s end ->
  Spends s !! i = Some sp -> spend_move i e (Live (status sp)) ph ->
  moves s (treasury_event e (put_spends (SpendCount s) m (put_treasury_world w s))).
Proof.
  intros He Hm Hph Hi Hmv. exists e. split; [done|]. intros j Hj. unfold phase_of. simpl.
  destruct (decide (j = i)) as [->|Hji].
  - rewrite Hi. destruct (m !! i) as [sp'|]; [by rewrite Hph in Hmv|].
    destruct Hph as [-> Hc]. rewrite (proj2 (Z.ltb_lt _ _) Hc). done.
  - rewrite Hm by done. apply mv_other. rewrite He. congruence.
Qed.

Lemma spend_moves n o k x b f ctx s ctx' s' :
  treasury_inv cfg n s -> n + 1 <= u32_max ->
  spend cfg o k x b f ctx s = (ctx', Ok s') -> moves s s'.
Proof.
  intros Hinv Hn Hs. unfold spend, in_context in Hs.
  destruct (SpendOrigin o) as [max|]; [|done]. destruct b as [b|]; [|done].
  destruct (negb _); [done|]. destruct (from_asset_balance _ _ _) as [y|]; [|done].
  destruct (y <=? max); [|done]. destruct (spend_in_context _ _ _) as [ctx1 [u|]]; [|done].
  injection Hs as <- <-. destruct (inv_counts cfg n s Hinv) as [_ Hc].
  rewrite next_index_exact with (n := n + 1) by lia. eexists. split; [done|].
  intros j Hj. unfold phase_of. simpl. destruct (decide (j = SpendCount s)) as [->|Hjc].
  - rewrite lookup_insert_eq. destruct (Spends s !! SpendCount s) as [sp|] eqn:Hsp.
    + apply (inv_spends cfg n s Hinv) in Hsp. lia.
    + rewrite Z.ltb_irrefl. apply mv_approve.
  - rewrite lookup_insert_ne by done. destruct (Spends s !! j) as [sp|].
    + apply mv_other. simpl. congruence.
    + destruct (Z.ltb_spec j (SpendCount s)), (Z.ltb_spec j (SpendCount s + 1)); try lia;
        apply mv_other; simpl; congruence.
Qed.

Lemma payout_moves o i s s' : payout o i s = Ok s' -> moves s s'.
Proof.
  intros Hs. unfold payout in Hs. result_inv.
  match goal with H : pay _ _ _ _ = Some (?w', _) |- _ => rename w' into w end.
  eapply (put_spend_moves i _ _ _ s w); [done| | |done|by apply mv_pay]; simpl.
  - intros j Hj. by rewrite lookup_insert_ne.
  - by rewrite lookup_insert_eq.
Qed.

Lemma delete_moves n i e sp s :
  treasury_inv cfg n s -> spend_of e = Some i -> Spends s !! i = Some sp ->
  spend_move i e (Live (status sp)) Gone ->
  moves s (treasury_event e (put_spends (SpendCount s) (delete i (Spends s)) s)).
Proof.
  intros Hinv He Hi Hmv. eapply (put_spend_moves i e sp Gone s (treasury_world s) (delete i (Spends s)));
    try done.
  - intros j Hj. by rewrite lookup_delete_ne.
  - rewrite lookup_delete_eq. split; [done|]. apply (inv_spends cfg n s Hinv) in Hi. lia.
Qed.

Lemma check_status_moves n o i s fee s' :
  treasury_inv cfg n s -> check_status o i s = Ok (fee, s') -> moves s s'.
Proof.
  intros Hinv Hs. unfold check_status in Hs. result_inv;
    try (by eapply delete_moves; [..|apply mv_processed]).
  repeat case_match; result_inv; try (by eapply delete_moves; [..|apply mv_processed]).
  eapply (put_spend_moves i _ _ (Live Failed) s (treasury_world s)); [done| | |done|].
  - intros j Hj. by rewrite lookup_insert_ne.
  - by rewrite lookup_insert_eq.
  - match goal with H : status _ = Attempted _ |- _ => rewrite H end. apply mv_fail.
Qed.

Lemma void_spend_moves n o i s s' :
  treasury_inv cfg n s -> void_spend o i s = Ok s' -> moves s s'.
Proof.
  intros Hinv Hs. unfold void_spend in Hs. result_inv.
  by eapply delete_moves; [..|apply mv_void].
Qed.

Lemma dispatch_moves n o c ctx s ctx' s' :
  treasury_inv cfg n s -> n + 1 <= u32_max ->
  treasury_dispatch cfg o c ctx s = (ctx', Ok s') -> quiet s s' \/ moves s s'.
Proof.
  intros Hinv Hn Hs. destruct c; simpl in Hs; try (injection Hs as _ Hs).
  - left. unfold propose_spend in Hs. result_inv. quiet_solve.
  - left. unfold reject_proposal in Hs. result_inv. apply quiet_event; [done|].
    etrans; [|apply on_unbalanced_quiet]. quiet_solve.
  - left. unfold approve_proposal in Hs. result_inv. quiet_solve.
  - left. unfold spend_local, in_context in Hs. destruct (SpendOrigin o) as [max|]; [|done].
    destruct (_ <=? max); [|done].
    destruct (spend_in_context _ _ _) as [ctx1 [u|]]; [|done].
    injection Hs as _ Hs. clear u. result_inv. quiet_solve.
  - left. unfold remove_approval in Hs. result_inv. quiet_solve.
  - right. by eapply spend_moves.
  - right. by eapply payout_moves.
  - right. destruct (check_status o index s) as [[fee s1]|] eqn:Hch; [|done]. injection Hs as <-.
    by eapply check_status_moves.
  - right. by eapply void_spend_moves.
Qed.

Lemma quiet_life i s s' :
  quiet s s' -> spend_path i NotYet (treasury_events s) (phase_of s i) ->
  spend_path i NotYet (treasury_events s') (phase_of s' i).
Proof.
  intros (H1 & H2 & l & -> & Hl) Hp. eapply spend_path_app; [exact Hp|].
  replace (phase_of s' i) with (phase_of s i) by (unfold phase_of; by rewrite H1, H2). by apply quiet_path.
Qed.

(** C13: the events tell the life of every spend: they lead it through the
    automaton of [spend_move] to what is stored for it, and a spend is paid
    again only after the payment before has been reported as failed. *)
Theorem spend_lifecycle n s i :
  treasury_reachable any_call n s -> n <= u32_max -> 0 <= i ->
  spend_path i NotYet (treasury_events s) (phase_of s i) /\
  forall l1 id1 l2 id2 l3,
    treasury_events s = l1 ++ Paid i id1 :: l2 ++ Paid i id2 :: l3 -> PaymentFailed i id1 ∈ l2.
Proof.
  intros Hr Hn Hi. assert (Hlife : spend_path i NotYet (treasury_events s) (phase_of s i)).
  { induction Hr as [w|n o c ctx s ctx' s' Hr IH _ Hc Hs|n k s Hr IH|n x s Hr IH Hx|n w s Hr IH Hw].
    - unfold treasury_build, phase_of. case_match; simpl; rewrite lookup_empty;
        destruct (Z.ltb_spec i 0); try lia; constructor.
    - pose proof (treasury_reachable_inv _ n s Hr ltac:(lia)) as Hinv. specialize (IH ltac:(lia)).
      destruct (dispatch_moves n _ _ _ _ _ _ Hinv Hn Hs) as [Hq|(e & He & Hm)]; [by eapply quiet_life|].
      rewrite He. eapply spend_path_app; [exact IH|]. econstructor; [by apply Hm|constructor].
    - eapply quiet_life; [apply on_initialize_quiet|by apply IH].
    - eapply quiet_life; [apply on_unbalanced_quiet|by apply IH].
    - by apply IH. }
  split; [done|]. intros l1 id1 l2 id2 l3 He. rewrite He in Hlife.
  apply spend_path_split in Hlife as (ph & _ & Hp). inversion Hp as [|? ? ph1 ? ? Hmv Hl]; subst.
  inversion Hmv; subst; [|done]. by eapply paid_again.
Qed.

(** ** The outcome of a spend period *)

(** C11: a spend period awards a subsequence of the approval queue and removes
    those proposals, keeps the approvals that do not fit in what is left of the
    pot, spends and burns at most the pot, burns only if none was kept, returns
    the bonds, takes from no other account and leaves the treasury with the
    minimum balance if it had it. *)
Theorem spend_funds_outcome n s :
  (forall x, spend_hook x = x) -> treasury_reachable any_call n s -> n <= u32_max ->
  let s' := spend_funds cfg spend_hook s in
  exists (aw : list Award') burn,
    NoDup (aw_index <$> aw) /\ sublist (aw_index <$> aw) (Approvals s) /\
    Forall (fun x => Proposals s !! aw_index x = Some (aw_proposal x) /\
      (aw_created x = value (aw_proposal x) \/ aw_created x = 0)) aw /\
    (forall i, Proposals s' !! i = if decide (i ∈ aw_index <$> aw) then None else Proposals s !! i) /\
    Approvals s' = filter (fun i => is_Some (Proposals s' !! i)) (Approvals s) /\
    (forall i p, i ∈ Approvals s' -> Proposals s' !! i = Some p -> pot cfg s - awarded aw < value p) /\
    0 <= created aw <= awarded aw /\ 0 <= burn /\ awarded aw + burn <= pot cfg s /\
    burn = (if decide (Approvals s' = []) then
              Z.min (permill_mul (Burn cfg) (pot cfg s - awarded aw)) (pot cfg s - awarded aw) else 0) /\
    (forall a, reserved_balance (treasury_world s') a =
       reserved_balance (treasury_world s) a - returned_to a aw) /\
    (forall a, free_balance (treasury_world s') a =
       free_balance (treasury_world s) a + returned_to a aw + received_by a aw -
       (if decide (a = TreasuryAccount cfg) then created aw + burn else 0)) /\
    Z.min (minimum_balance (AccountId := AccountId) (W := W))
      (free_balance (treasury_world s) (TreasuryAccount cfg)) <=
    free_balance (treasury_world s') (TreasuryAccount cfg).
Proof.
  intros Hid Hr Hn s'. pose proof (treasury_reachable_inv _ n s Hr Hn) as Hinv.
  destruct (spend_funds_spec cfg spend_hook n s Hcfg Hhook Hinv)
    as (r' & aw & b & i & burn & m & w & _ & Hr' & Haw & Hs).
  destruct Hs as [Hh [Hb1 Hb2] [Hi Ht] Hw (Hp & _)]. rewrite Hid in Hh. injection Hh as <- <- <- <-.
  pose proof (first_round_ok cfg n s Hinv) as Hr0.
  pose proof (created_range _ _ _ _ _ Hr0 Haw) as Hcr.
  pose proof (returned_to_nonneg (TreasuryAccount cfg) _ _ _ _ _ Hr0 Haw) as [Hre1 Hre2].
  destruct Haw as [Hnd Hsub Haw Hprops [Hbud Hbud0] Himb Hk Hmax Hms Hres Hfr _]. simpl in *.
  fold s' in Hk, Hmax, Hms, Hw, Hp. rewrite Himb in *. rewrite <- Hp in *.
  assert (Hfree : forall a, free_balance (treasury_world s') a =
       free_balance (treasury_world s) a + returned_to a aw + received_by a aw -
       (if decide (a = TreasuryAccount cfg) then created aw + burn else 0)).
  { intros a. destruct (Hw a) as [_ ->]. by rewrite Hfr. }
  exists aw, burn. split_and!; try done; try lia.
  - eapply Forall_impl; [exact Haw|]. by intros x (_ & ? & ?).
  - intros j p Hj Hjp. rewrite Forall_forall in Hmax. specialize (Hmax j Hj p Hjp). lia.
  - rewrite Hb1, Hms, Hbud. destruct (decide (Approvals s' = [])) as [->|He]; [done|]. by destruct (Approvals s').
  - intros a. destruct (Hw a) as [-> _]. apply Hres.
  - rewrite Hfree, decide_True by done. pose proof (pot_range cfg s) as [? ?]. lia.
Qed.
(** ** An approved proposal that the pot covers is paid *)

(** What the queue before a proposal asks for. *)
Definition asked (m : gmap Z (Proposal AccountId)) (v : list Z) : Z :=
  zsum ((fun i => from_option value 0 (m !! i)) <$> v).

Lemma retain_app v1 v2 (r : Round) :
  retain (v1 ++ v2) r =
  let '(k1, r1) := retain v1 r in let '(k2, r2) := retain v2 r1 in (k1 ++ k2, r2).
Proof.
  revert r. induction v1 as [|i v1 IH]; intros r; simpl; [by destruct (retain v2 r)|].
  destruct (award i r) as [keep r1]. rewrite IH. destruct (retain v1 r1) as [k1 r2].
  destruct (retain v2 r2) as [k2 r3]. by destruct keep.
Qed.

Lemma awarded_asked m (aw : list Award') :
  Forall (fun x => m !! aw_index x = Some (aw_proposal x)) aw ->
  awarded aw = asked m (aw_index <$> aw).
Proof.
  induction 1 as [|x aw Hx _ IH]; [done|]. unfold awarded, asked in *. rewrite !fmap_cons.
  unfold zsum in *. simpl. rewrite Hx. simpl. lia.
Qed.

Lemma asked_sublist m v1 v2 :
  (forall i p, m !! i = Some p -> 0 <= value p) -> sublist v1 v2 -> asked m v1 <= asked m v2.
Proof.
  intros Hm. unfold asked. induction 1 as [|i v1 v2 _ IH|i v1 v2 _ IH]; [done|..];
    rewrite ?fmap_cons; unfold zsum in *; simpl; [lia|].
  destruct (m !! i) as [p|] eqn:Hi; simpl; [apply Hm in Hi|]; lia.
Qed.

Definition event_in (e : Event) (s : St) : Prop := e ∈ treasury_events s.

Lemma event_in_prefix e s s' l : treasury_events s' = treasury_events s ++ l -> event_in e s -> event_in e s'.
Proof. unfold event_in. intros ->. rewrite elem_of_app. auto. Qed.

Lemma quiet_event_in e s s' : quiet s s' -> event_in e s -> event_in e s'.
Proof. intros (_ & _ & l & Hl & _). by eapply event_in_prefix. Qed.

(** The queue up to a proposal that is covered, and the rest of it. *)
Lemma retain_covered v1 i v2 p (r r' : Round) v' :
  round_ok r -> Proposals (round_state r) !! i = Some p -> i ∉ v1 ->
  asked (Proposals (round_state r)) v1 + value p <= budget_remaining r ->
  retain (v1 ++ i :: v2) r = (v', r') ->
  Proposals (round_state r') !! i = None /\ event_in (Awarded i (value p) (beneficiary p)) (round_state r').
Proof.
  intros Hr Hi Hni Hask Hret. rewrite retain_app in Hret.
  destruct (retain v1 r) as [k1 r1] eqn:H1. pose proof (retain_spec _ _ _ _ Hr H1) as [Hr1 [aw Haw]].
  assert (Hi1 : Proposals (round_state r1) !! i = Some p).
  { rewrite (rt_proposals _ _ _ _ _ Haw), decide_False; [done|]. intros Hin.
    apply Hni. eapply sublist_subseteq; [apply (rt_order _ _ _ _ _ Haw)|done]. }
  assert (Hb : value p <= budget_remaining r1).
  { destruct (rt_budget _ _ _ _ _ Haw) as [-> _]. rewrite (awarded_asked (Proposals (round_state r))).
    - pose proof (asked_sublist (Proposals (round_state r)) _ _ ltac:(by intros j q [[? ?] ?]%(ro_values r Hr))
        (rt_order _ _ _ _ _ Haw)). lia.
    - eapply Forall_impl; [apply (rt_awards _ _ _ _ _ Haw)|]. by intros x (_ & ? & _). }
  assert (Hev : event_in (Awarded i (value p) (beneficiary p)) (round_state (award i r1).2)).
  { unfold award. rewrite Hi1, (proj2 (Z.leb_le _ _) Hb). cbn. destruct (deposit_creating _ _ _).
    unfold event_in. simpl. rewrite elem_of_app. right. by left. }
  simpl in Hret. destruct (award i r1) as [keep r2] eqn:H2. destruct (retain v2 r2) as [k2 r3] eqn:H3.
  injection Hret as <- <-. pose proof (award_spec _ _ _ _ Hr1 H2) as [Hr2 Hsp].
  rewrite Hi1, (proj2 (Z.leb_le _ _) Hb) in Hsp. destruct Hsp as (-> & _ & c & _ & _ & _ & Hp2 & _).
  pose proof (retain_spec _ _ _ _ Hr2 H3) as [_ [aw2 Haw2]]. split.
  - rewrite (rt_proposals _ _ _ _ _ Haw2), Hp2, lookup_delete_eq. by destruct (decide _).
  - eapply quiet_event_in; [|exact Hev]. pose proof (retain_quiet v2 r2) as Hq. by rewrite H3 in Hq.
Qed.

(** An approved proposal that the pot covers together with what is asked for
    before it in the queue is gone after the next spend period, with the award
    in the events. *)
Theorem approved_proposal_paid n s v1 i v2 p :
  treasury_reachable any_call n s -> n <= u32_max ->
  Approvals s = v1 ++ i :: v2 -> i ∉ v1 -> Proposals s !! i = Some p ->
  asked (Proposals s) v1 + value p <= pot cfg s ->
  let s' := spend_funds cfg spend_hook s in
  Proposals s' !! i = None /\ (i ∉ Approvals s') /\
  Awarded i (value p) (beneficiary p) ∈ treasury_events s'.
Proof.
  intros Hr Hn Hap Hni Hi Hask s'. pose proof (treasury_reachable_inv _ n s Hr Hn) as Hinv.
  destruct (spend_funds_spec cfg spend_hook n s Hcfg Hhook Hinv)
    as (r' & aw & b & k & burn & m & w & Hret & Hr' & Haw & Hs).
  fold s' in Hret, Haw, Hs. rewrite Hap in Hret.
  destruct (retain_covered v1 i v2 p (first_round cfg s) r' _ (first_round_ok cfg n s Hinv) Hi Hni Hask Hret)
    as [Hgone Hev].
  destruct (se_state _ _ _ _ _ _ _ _ _ Hs) as [Hp _]. split_and!.
  - by rewrite Hp.
  - rewrite (rt_kept _ _ _ _ _ Haw). intros [Hsome _]%list_elem_of_filter. rewrite Hgone in Hsome.
    by destruct Hsome.
  - unfold s', spend_funds. cbn [Approvals treasury_event].
    change (mkSpendRound (pot cfg s) 0 false (treasury_event (Spending (pot cfg s)) s)) with (first_round cfg s).
    rewrite Hap, Hret. destruct (spend_hook _) as [[[b' i'] m'] w'].
    apply (quiet_event_in _ (round_state r')); [|exact Hev].
    destruct m'; destruct (settle _ _ _); quiet_solve.
Qed.
End safe.
End history.

(** * The limit of an origin, and the pallet's own checks

    What the origins of one limit can spend in one dispatch, and [try_state] on
    the executions that it is meant for. *)

Section checks.
Context {AccountId Kind Beneficiary Id Origin W : Type} `{EqDecision AccountId}.
Context `{!SpArithmetic, !SpArithmeticLaws}.
Context `{!ReservableCurrency AccountId W, !TreasuryCurrency AccountId W}.
Context `{!TreasuryCurrencyLaws AccountId W}.
Context `{!FrameSystem AccountId Origin W, !Paymaster Kind Beneficiary Id W, !TreasuryOrigins Origin}.
Context (cfg : TreasuryConfig AccountId).
Context (spend_hook : Z * Z * bool * W -> Z * Z * bool * W).

Abbreviation St := (TreasuryStorage (AccountId := AccountId) (Kind := Kind)
  (Beneficiary := Beneficiary) (Id := Id) (W := W)).
Abbreviation Call := (TreasuryCall (AccountId := AccountId) (Kind := Kind) (Beneficiary := Beneficiary)).

(** ** What one dispatch spends *)

(** The native amount that a call approves for an origin of the limit [m]. *)
Definition approves (m : Z) (o : Origin) (c : Call) (s : St) : Z :=
  if bool_decide (SpendOrigin o = Some m) then
    match c with
    | tc_spend_local x _ => x
    | tc_spend k x _ _ => default 0 (from_asset_balance (treasury_world s) x k)
    | _ => 0
    end
  else 0.

(** What the calls of a batch that succeed approve. *)
Fixpoint batch_approves (m : Z) (calls : list (Origin * Call)) (ctx : option (gmap Z Z)) (s : St) : Z :=
  match calls with
  | [] => 0
  | (o, c) :: calls =>
      match treasury_dispatch cfg o c ctx s with
      | (ctx, Ok s') => approves m o c s + batch_approves m calls ctx s'
      | (ctx, Err _) => batch_approves m calls ctx s
      end
  end.

(** [ctx'] has at least [x] more than [ctx] at [m], and no limit is passed. *)
Definition context_adds (m x : Z) (ctx ctx' : gmap Z Z) : Prop :=
  default 0 (ctx !! m) + x <= default 0 (ctx' !! m).

Definition context_ok (ctx : gmap Z Z) : Prop := forall m x, ctx !! m = Some x -> x <= Z.max 0 m.

Lemma spend_in_context_spec max x ctx ctx' r :
  0 <= x -> context_ok ctx -> spend_in_context max x (Some ctx) = (ctx', r) ->
  exists c', ctx' = Some c' /\ context_ok c' /\
    (forall m, context_adds m 0 ctx c') /\ (r = Ok tt -> context_adds max x ctx c').
Proof.
  intros Hx Hok Hs. unfold spend_in_context in Hs. set (sp := default 0 (ctx !! max)) in *.
  assert (Hok1 : context_ok (<[max := sp]> ctx)).
  { intros m y [[<- <-]|[_ Hy]]%lookup_insert_Some; [|by apply Hok].
    unfold sp. destruct (ctx !! max) as [z|] eqn:Hz; simpl; [by apply Hok|lia]. }
  assert (Hmono : forall m y, sp <= y -> context_adds m 0 ctx (<[max := y]> ctx)).
  { intros m y Hy. unfold context_adds. destruct (decide (m = max)) as [->|Hm].
    - rewrite lookup_insert_eq. fold sp. simpl. lia.
    - rewrite lookup_insert_ne by done. lia. }
  destruct (checked_add u128_max sp x) as [t|] eqn:Hadd.
  - destruct (max <? t) eqn:Ht.
    + injection Hs as <- <-. eexists. split_and!; [done..| |done]. intros m. by apply Hmono.
    + unfold checked_add in Hadd. destruct (_ <=? _) eqn:Hle in Hadd; [|done]. injection Hadd as <-.
      injection Hs as <- <-. rewrite insert_insert_eq. rewrite sat_add_exact by lia.
      eexists. split_and!; [done| | |].
      * intros m y [[<- <-]|[_ Hy]]%lookup_insert_Some; [lia|by apply Hok].
      * intros m. apply Hmono. lia.
      * intros _. unfold context_adds. rewrite lookup_insert_eq. fold sp. simpl. lia.
  - injection Hs as <- <-. eexists. split_and!; [done..| |done]. intros m. by apply Hmono.
Qed.

(** The context after a call that approved [y] for the limit [m]. *)
Definition recorded (m y : Z) (ctx : gmap Z Z) (ctx' : option (gmap Z Z)) : Prop :=
  exists c', ctx' = Some c' /\ context_ok c' /\ context_adds m y ctx c'.

Lemma recorded_same m ctx : context_ok ctx -> recorded m 0 ctx (Some ctx).
Proof. intros Hok. exists ctx. split_and!; [done..|]. unfold context_adds. lia. Qed.

Lemma in_context_recorded m max x ctx (k : Result St TreasuryError) ctx' r :
  0 <= x -> context_ok ctx -> in_context max x (Some ctx) k = (ctx', r) ->
  recorded m 0 ctx ctx' /\ forall s', r = Ok s' -> recorded max x ctx ctx'.
Proof.
  intros Hx Hok Hs. unfold in_context in Hs.
  destruct (spend_in_context max x (Some ctx)) as [c1 r1] eqn:H1.
  apply spend_in_context_spec in H1 as (c' & -> & Hok' & Hm & Hadd); [|done..].
  destruct r1 as [[]|e]; injection Hs as <- <-.
  - split; [by exists c'|]. intros s' _. exists c'. split_and!; [done..|]. by apply Hadd.
  - split; [by exists c'|done].
Qed.

(** The amounts of a conversion are balances. *)
Definition conversion_ok : Prop := forall (w : W) (x : Z) (k : Kind) y,
  from_asset_balance (Beneficiary := Beneficiary) (Id := Id) w x k = Some y -> 0 <= y.

Definition approved (m : Z) (o : Origin) (c : Call) (s : St) (r : Result St TreasuryError) : Z :=
  match r with Ok _ => approves m o c s | Err _ => 0 end.

(** A call adds to the context what it approves. *)
Lemma dispatch_recorded o c m ctx s ctx' r :
  conversion_ok -> call_typed c -> context_ok ctx ->
  treasury_dispatch cfg o c (Some ctx) s = (ctx', r) -> recorded m (approved m o c s r) ctx ctx'.
Proof.
  intros Hfrom Hc Hok Hs.
  assert (Hin : forall max x (k : Result St TreasuryError), SpendOrigin o = Some max ->
    0 <= x -> in_context max x (Some ctx) k = (ctx', r) ->
    approves m o c s = (if bool_decide (Some max = Some m) then x else 0) ->
    recorded m (approved m o c s r) ctx ctx').
  { intros max x k Ho Hx Hk Ha. destruct (in_context_recorded m max x ctx k ctx' r Hx Hok Hk) as [H1 H2].
    unfold approved. destruct r as [s'|e]; [|done]. rewrite Ha. case_bool_decide as Hmax; [|done].
    injection Hmax as <-. by apply (H2 s'). }
  assert (Herr : forall e, (Some ctx, Err e) = (ctx', r) -> recorded m (approved m o c s r) ctx ctx').
  { intros e He. injection He as <- <-. by apply recorded_same. }
  destruct c as [ | | |x b| |k x b f| | | ]; simpl in Hs;
    try (injection Hs as <- <-; unfold approved, approves;
         case_bool_decide; case_match; by apply recorded_same).
  - unfold spend_local in Hs. destruct (SpendOrigin o) as [max|] eqn:Ho; [|by eapply Herr].
    destruct (x <=? max); [|by eapply Herr]. destruct Hc as [Hx _].
    eapply Hin; [done|exact Hx|exact Hs|]. unfold approves. by rewrite Ho.
  - unfold spend in Hs. destruct (SpendOrigin o) as [max|] eqn:Ho; [|by eapply Herr].
    destruct b as [b|]; [|by eapply Herr]. destruct (negb _); [by eapply Herr|].
    destruct (from_asset_balance _ _ _) as [y|] eqn:Hy; [|by eapply Herr].
    destruct (y <=? max); [|by eapply Herr].
    eapply Hin; [done|by eapply Hfrom|exact Hs|]. unfold approves. by rewrite Ho, Hy.
  - injection Hs as <- <-. unfold approved, approves. case_bool_decide; by destruct (check_status o index s) as [[]|];
      apply recorded_same.
Qed.

Lemma batch_limit calls m ctx s :
  conversion_ok -> Forall (fun oc => call_typed oc.2) calls -> context_ok ctx ->
  default 0 (ctx !! m) + batch_approves m calls (Some ctx) s <= Z.max (default 0 (ctx !! m)) (Z.max 0 m).
Proof.
  intros Hfrom Hc. revert ctx s. induction Hc as [|[o c] calls Hc _ IH]; intros ctx s Hok; simpl; [lia|].
  destruct (treasury_dispatch cfg o c (Some ctx) s) as [ctx' r] eqn:Hs.
  pose proof (dispatch_recorded o c m ctx s ctx' r Hfrom Hc Hok Hs) as (c' & -> & Hok' & Hadd).
  assert (Hle : default 0 (c' !! m) <= Z.max 0 m).
  { destruct (c' !! m) as [z|] eqn:Hz; simpl; [by apply Hok'|lia]. }
  unfold context_adds, approved in Hadd.
  destruct r as [s'|e]; [specialize (IH c' s' Hok')|specialize (IH c' s Hok')]; lia.
Qed.

(** The origins of a limit approve at most the limit in one dispatch. *)
Theorem dispatch_spend_limit calls m s :
  conversion_ok -> Forall (fun oc => call_typed oc.2) calls -> 0 <= m ->
  batch_approves m calls (Some ∅) s <= m.
Proof.
  intros Hfrom Hc Hm. assert (Hok : context_ok ∅) by (intros k x Hk; by rewrite lookup_empty in Hk).
  pose proof (batch_limit calls m ∅ s Hfrom Hc Hok) as H1. rewrite lookup_empty in H1. simpl in H1. lia.
Qed.

(** ** [try_state] *)

(** Calls that do not reject a proposal that is approved, nor approve a spend
    whose window is empty. *)
Definition careful_call (c : Call) (s : St) : Prop :=
  match c with
  | tc_reject_proposal i => i ∉ Approvals s
  | tc_spend _ _ _ f =>
      0 < PayoutPeriod cfg /\ default (block_number (treasury_world s)) f + PayoutPeriod cfg <= u32_max
  | _ => True
  end.

Record tidy (s : St) : Prop := {
  tidy_approvals : Forall (fun i => is_Some (Proposals s !! i)) (Approvals s);
  tidy_spends i sp : Spends s !! i = Some sp -> valid_from sp < expire_at sp;
}.

Lemma tidy_same s s' :
  Proposals s' = Proposals s -> Approvals s' = Approvals s -> Spends s' = Spends s -> tidy s -> tidy s'.
Proof. intros H1 H2 H3 [Ha Hs]. split; [by rewrite H1, H2|by rewrite H3]. Qed.

Lemma lookup_put_some {V} (m : gmap Z V) i j v : is_Some (m !! j) -> is_Some (<[i := v]> m !! j).
Proof. destruct (decide (i = j)) as [->|Hij]; [rewrite lookup_insert_eq|rewrite lookup_insert_ne by done]; eauto. Qed.

Lemma tidy_new_proposal s p w c v :
  tidy s -> Forall (fun i => i ∈ Approvals s \/ i = ProposalCount s) v ->
  tidy (put_proposals c (<[ProposalCount s := p]> (Proposals s)) (put_approvals v (put_treasury_world w s))).
Proof.
  intros [Ha Hs] Hv. split; simpl; [|done]. rewrite Forall_forall in *. intros i [Hi| ->]%Hv.
  - by apply lookup_put_some, Ha.
  - rewrite lookup_insert_eq. eauto.
Qed.

Lemma tidy_fewer s v : tidy s -> v ⊆ Approvals s -> tidy (put_approvals v s).
Proof. intros [Ha Hs] Hv. split; simpl; [|done]. rewrite Forall_forall in *. intros i Hi. by apply Ha, Hv. Qed.

Lemma tidy_status s i sp c st :
  tidy s -> Spends s !! i = Some sp -> tidy (put_spends c (<[i := put_status st sp]> (Spends s)) s).
Proof.
  intros [Ha Hs] Hi. split; simpl; [done|].
  intros j sp' [[<- <-]|[_ Hj]]%lookup_insert_Some; [exact (Hs i sp Hi)|by eapply Hs].
Qed.

Lemma tidy_no_spend s i c : tidy s -> tidy (put_spends c (delete i (Spends s)) s).
Proof.
  intros [Ha Hs]. split; simpl; [done|]. intros j sp [_ Hj]%lookup_delete_Some. by eapply Hs.
Qed.

Lemma dispatch_tidy o c ctx s ctx' s' :
  careful_call c s -> tidy s -> treasury_dispatch cfg o c ctx s = (ctx', Ok s') -> tidy s'.
Proof.
  intros Hc Ht Hs. destruct c; simpl in Hs; try (injection Hs as _ Hs).
  - unfold propose_spend in Hs. result_inv.
    match goal with H : reserve _ _ _ = Some ?w |- _ =>
      eapply tidy_same; [..|eapply (tidy_new_proposal s _ w 0 (Approvals s) Ht)]; try done end.
    rewrite Forall_forall. auto.
  - unfold reject_proposal in Hs. result_inv. simpl in Hc. destruct Ht as [Ha Hsp].
    match goal with H : slash_reserved _ _ _ = (?w, ?x) |- _ => apply (tidy_same (put_proposals (ProposalCount s)
      (delete proposal_id (Proposals s)) s)) end;
      try (unfold treasury_on_unbalanced; by case_match).
    split; simpl; [|done]. rewrite Forall_forall in *. intros j Hj.
    rewrite lookup_delete_ne; [by apply Ha|]. by intros ->.
  - unfold approve_proposal, try_push in Hs. result_inv. destruct Ht as [Ha Hsp]. split; simpl; [|done].
    apply Forall_app. split; [done|]. constructor; [|done]. by apply bool_decide_eq_true in Heqb0.
  - unfold spend_local, in_context in Hs. destruct (SpendOrigin o) as [max|]; [|done].
    destruct (_ <=? max); [|done]. destruct (spend_in_context _ _ _) as [ctx1 [u|]]; [|done].
    injection Hs as _ Hs. clear u. unfold try_push in Hs. result_inv.
    eapply tidy_same; [..|eapply (tidy_new_proposal s _ (treasury_world s) 0
      (Approvals s ++ [ProposalCount s]) Ht)]; try done.
    apply Forall_app. split; [rewrite Forall_forall; auto|]. constructor; auto.
  - unfold remove_approval in Hs. result_inv. apply tidy_fewer; [done|].
    match goal with H : remove_first _ _ = Some _ |- _ => apply remove_first_spec in H as (v1 & v2 & -> & -> & _) end.
    set_solver.
  - unfold spend, in_context in Hs. destruct (SpendOrigin o) as [max|]; [|done].
    destruct beneficiary as [b|]; [|done]. destruct (negb _); [done|].
    destruct (from_asset_balance _ _ _) as [y|]; [|done]. destruct (y <=? max); [|done].
    destruct (spend_in_context _ _ _) as [ctx1 [u|]]; [|done]. injection Hs as _ <-.
    destruct Hc as [Hp0 Hp]. destruct Ht as [Ha Hsp]. split; simpl; [done|].
    intros j sp [[<- <-]|[_ Hj]]%lookup_insert_Some; [|by eapply Hsp]. simpl. rewrite sat_add_exact; lia.
  - unfold payout in Hs. result_inv. eapply tidy_same; [..|eapply (tidy_status s index _ 0)]; try done.
  - destruct (check_status o index s) as [[fee s1]|] eqn:Hch; [|done]. injection Hs as <-.
    unfold check_status in Hch. result_inv;
      [eapply tidy_same; [..|by eapply (tidy_no_spend s index 0)]; done|].
    repeat case_match; result_inv;
      try (eapply tidy_same; [..|by eapply (tidy_no_spend s index 0)]; done).
    eapply tidy_same; [..|by eapply (tidy_status s index _ 0)]; done.
  - unfold void_spend in Hs. result_inv. eapply tidy_same; [..|by eapply (tidy_no_spend s index 0)]; done.
Qed.

Context (Hcfg : treasury_config_ok cfg) (Hhook : hook_ok spend_hook).
Context (Hpay : paymaster_ok (AccountId := AccountId) (Kind := Kind) (Beneficiary := Beneficiary)
  (Id := Id) (W := W)).

Lemma spend_funds_tidy n s : treasury_inv cfg n s -> tidy s -> tidy (spend_funds cfg spend_hook s).
Proof.
  intros Hinv [Ha Hsp].
  destruct (spend_funds_spec cfg spend_hook n s Hcfg Hhook Hinv)
    as (r' & aw & b & k & burn & m & w & _ & Hr' & Haw & Hs).
  destruct (se_state _ _ _ _ _ _ _ _ _ Hs) as (Hp & _ & Hspends & _).
  split.
  - rewrite Hp, (rt_kept _ _ _ _ _ Haw). rewrite Forall_forall. by intros i [? _]%list_elem_of_filter.
  - rewrite Hspends. destruct (rt_rest _ _ _ _ _ Haw) as (_ & _ & -> & _). done.
Qed.

Lemma careful_tidy n s :
  treasury_reachable cfg spend_hook careful_call n s -> n <= u32_max -> tidy s.
Proof.
  induction 1 as [w|n o c ctx s ctx' s' Hr IH Hu Hc Hs|n k s Hr IH|n x s Hr IH Hx|n w s Hr IH Hw]; intros Hn.
  - unfold treasury_build. split; case_match; simpl; try done; intros i sp Hi; by rewrite lookup_empty in Hi.
  - eapply dispatch_tidy; [exact Hu|apply IH; lia|done].
  - pose proof (treasury_reachable_inv cfg spend_hook Hcfg Hhook Hpay _ n s Hr Hn) as Hinv.
    assert (Hu : tidy (update_inactive cfg s)).
    { unfold update_inactive. case_match; [by apply IH|]. eapply tidy_same; [..|by apply IH]; done. }
    unfold treasury_on_initialize. case_match; [|done].
    eapply spend_funds_tidy; [by apply update_inactive_inv|done].
  - unfold treasury_on_unbalanced. case_match; [by apply IH|]. eapply tidy_same; [..|by apply IH]; done.
  - eapply tidy_same; [..|by apply IH]; done.
Qed.

Lemma keys_checked {V} (m : gmap Z V) n :
  0 <= n -> (forall k, is_Some (m !! k) -> 0 <= k < n) ->
  (Z.of_nat (size m) <=? n) && forallb (fun k => k <? n) (map_to_list m).*1 = true.
Proof.
  intros Hn Hk. apply andb_true_intro. split; [by apply Z.leb_le, keys_below|].
  apply forallb_forall. intros k Hin. apply list_elem_of_In, list_elem_of_fmap in Hin as ([k' v] & -> & Hin).
  apply elem_of_map_to_list in Hin. apply Z.ltb_lt. simpl. specialize (Hk k' ltac:(by eexists)). lia.
Qed.

(** [try_state] passes where the calls are careful. *)
Theorem treasury_try_state n s :
  treasury_reachable cfg spend_hook careful_call n s -> n <= u32_max ->
  try_state_proposals s = true /\ try_state_spends s = true.
Proof.
  intros Hr Hn. pose proof (careful_tidy n s Hr Hn) as [Ha Hsp].
  pose proof (treasury_reachable_inv cfg spend_hook Hcfg Hhook Hpay _ n s Hr Hn) as [[[Hc _] [Hsc _]] Hp Hs _ _].
  unfold try_state_proposals, try_state_spends. split.
  - rewrite keys_checked by (done || (intros k [p Hk]; by apply Hp in Hk as [? _])). simpl.
    apply forallb_forall. intros i Hi%list_elem_of_In. rewrite Forall_forall in Ha.
    by apply bool_decide_eq_true, Ha.
  - rewrite keys_checked by (done || (intros k [p Hk]; by apply Hs in Hk)). simpl.
    apply forallb_forall. intros [i sp] Hi%list_elem_of_In%elem_of_map_to_list. by apply Z.ltb_lt, (Hsp i).
Qed.
End checks.
