(* ===== verification/TreasuryExample.v ===== *)
(** * A treasury at work

    A concrete world of balances, in which the theorems on the treasury apply,
    and the executions that the pallet's own checks do not survive. *)

From S2P Require Import Prelude Frame Treasury TreasurySafety TreasuryHistory.

(** Accounts are numbers; a balance is what its numbers say as far as they make
    sense.  Minus one is the root origin. *)
Record TreasuryWorld := mkTreasuryWorld {
  tw_balances : Z -> Z * Z;
  tw_block : Z;
  tw_payments : Z;
  tw_fate : Z -> PaymentStatus;
}.

Definition sensible (fr : Z * Z) : Z * Z :=
  let f := Z.min u128_max (Z.max 0 fr.1) in (f, Z.min (u128_max - f) (Z.max 0 fr.2)).
Definition balance_of (w : TreasuryWorld) (a : Z) : Z * Z := sensible (tw_balances w a).
Definition put_balance (w : TreasuryWorld) (a f r : Z) : TreasuryWorld :=
  mkTreasuryWorld (fun b => if b =? a then (f, r) else tw_balances w b)
    (tw_block w) (tw_payments w) (tw_fate w).

#[global] Instance toy_reserves : ReservableCurrency Z TreasuryWorld := {|
  free_balance w a := (balance_of w a).1;
  reserved_balance w a := (balance_of w a).2;
  minimum_balance := 10;
  reserve w a x :=
    let '(f, r) := balance_of w a in
    if (0 <=? x) && (x <=? f) then Some (put_balance w a (f - x) (r + x)) else None;
  unreserve w a x :=
    let '(f, r) := balance_of w a in
    let y := Z.min (Z.max 0 x) r in put_balance w a (f + y) (r - y);
  slash_reserved w a x :=
    let '(f, r) := balance_of w a in
    let y := Z.min (Z.max 0 x) r in (put_balance w a f (r - y), y);
  resolve_creating w a x :=
    let '(f, r) := balance_of w a in put_balance w a (f + Z.min (Z.max 0 x) (u128_max - f - r)) r;
  transfer_keep_alive w a b x := None;
|}.

#[global] Instance toy_treasury_currency : TreasuryCurrency Z TreasuryWorld := {|
  make_free_balance_be w a x :=
    let '(f, r) := balance_of w a in put_balance w a (Z.min (Z.max 0 x) (u128_max - r)) r;
  deposit_creating w a x :=
    let '(f, r) := balance_of w a in
    if (0 <=? x) && (f + r + x <=? u128_max) && negb ((f + r =? 0) && (x <? 10))
    then (put_balance w a (f + x) r, x) else (w, 0);
  settle w a x :=
    let '(f, r) := balance_of w a in
    if x =? 0 then Some w
    else if (0 <=? x) && (10 + x <=? f) then Some (put_balance w a (f - x) r) else None;
  drop_positive w x := w;
  burn_pair w x := w;
  reactivate w x := w;
  deactivate w x := w;
|}.

#[global] Instance toy_paymaster : Paymaster Z Z Z TreasuryWorld := {|
  pay w b k x :=
    Some (mkTreasuryWorld (tw_balances w) (tw_block w) (tw_payments w + 1) (tw_fate w), tw_payments w);
  check_payment w id := tw_fate w id;
  from_asset_balance w x k := if 0 <=? x then Some (2 * x) else None;
|}.

#[global] Instance toy_treasury_system : FrameSystem Z Z TreasuryWorld := {|
  block_number := tw_block;
  ensure_signed o := if 0 <=? o then Some o else None;
  ensure_root o := o =? -1;
  ensure_signed_or_root o := if o =? -1 then Some None else Some (Some o);
|}.

#[global] Instance toy_treasury_origins : TreasuryOrigins Z := {|
  ApproveOrigin o := o =? -1;
  RejectOrigin o := o =? -1;
  SpendOrigin o := if o =? -1 then Some 1000 else None;
|}.

Lemma sensible_spec fr : 0 <= (sensible fr).1 /\ 0 <= (sensible fr).2 /\
  (sensible fr).1 + (sensible fr).2 <= u128_max.
Proof. unfold sensible. simpl. lia. Qed.

Lemma sensible_id f r : 0 <= f -> 0 <= r -> f + r <= u128_max -> sensible (f, r) = (f, r).
Proof. intros Hf Hr Hs. unfold sensible. simpl. f_equal; lia. Qed.

Lemma balance_put w a f r b :
  0 <= f -> 0 <= r -> f + r <= u128_max ->
  balance_of (put_balance w a f r) b = if decide (b = a) then (f, r) else balance_of w b.
Proof.
  intros Hf Hr Hs. unfold balance_of, put_balance. simpl.
  destruct (Z.eqb_spec b a) as [->|Hb]; [rewrite decide_True by done; by apply sensible_id|].
  by rewrite decide_False.
Qed.

Lemma balance_spec w a : 0 <= (balance_of w a).1 /\ 0 <= (balance_of w a).2 /\
  (balance_of w a).1 + (balance_of w a).2 <= u128_max.
Proof. apply sensible_spec. Qed.

#[local] Opaque balance_of put_balance.

(** A balance and a changed one, by account. *)
Ltac toy_balance w a :=
  let H := fresh "Hbal" in
  pose proof (balance_spec w a) as H;
  destruct (balance_of w a) as [? ?] eqn:?; simpl in H.
Ltac toy_account :=
  intros ?; simpl;
  rewrite ?balance_put by lia; case_decide; subst;
  repeat match goal with H : balance_of _ _ = _ |- _ => rewrite ?H end; simpl; lia.

#[global] Instance toy_treasury_laws : TreasuryCurrencyLaws Z TreasuryWorld.
Proof.
  split; simpl.
  - lia.
  - intros w a. toy_balance w a. unfold in_range. simpl. lia.
  - intros w a. toy_balance w a. simpl. lia.
  - intros w a x w' Hr Hx. toy_balance w a. destruct (_ && _) eqn:Hc in Hr; [|done].
    injection Hr as <-. toy_account.
  - intros w a x Hx. toy_balance w a. toy_account.
  - intros w a x Hx. toy_balance w a. toy_account.
  - intros w a x Hx. toy_balance w a. simpl. lia.
  - intros w a x Hx. toy_balance w a. toy_account.
  - intros w a x b. toy_balance w a. revert b. toy_account.
  - intros w a x w' c Hd [Hx _]. toy_balance w a.
    destruct (_ && negb _) eqn:Hc; injection Hd as <- <-.
    + split; [by left|]. toy_account.
    + split; [by right|]. toy_account.
  - intros w a c Hc Hmin. revert Hmin. toy_balance w a. intros Hmin. simpl in Hmin. destruct (Z.eqb_spec c 0) as [->|Hc0].
    + exists w. split; [done|]. toy_account.
    + rewrite (proj2 (Z.leb_le 0 c) Hc), (proj2 (Z.leb_le (10 + c) z)) by lia. eexists. split; [done|]. toy_account.
  - done.
  - done.
Qed.

(** ** A history

    A bond of 5%, at least 5 and at most 50; nothing is burnt; ten approvals; a
    spend is open for 20 blocks. *)
#[local] Existing Instance ExactArithmetic.
#[local] Existing Instance ExactArithmetic_laws.

Definition toy_treasury : TreasuryConfig Z := mkTreasuryConfig 100 50000 5 (Some 50) 10 0 10 20.
Definition no_hook (x : Z * Z * bool * TreasuryWorld) : Z * Z * bool * TreasuryWorld := x.

Abbreviation ToyTreasury := (TreasuryStorage (AccountId := Z) (Kind := Z) (Beneficiary := Z)
  (Id := Z) (W := TreasuryWorld)).
Abbreviation ToyCall := (TreasuryCall (AccountId := Z) (Kind := Z) (Beneficiary := Z)).

Definition toy_world (block : Z) : TreasuryWorld :=
  mkTreasuryWorld (fun a => if a =? 100 then (1000, 0) else (500, 0)) block 0
    (fun id => if id =? 0 then PaymentFailure else InProgress).

Lemma toy_config_ok : treasury_config_ok toy_treasury.
Proof. split; unfold in_range; simpl; try lia. intros m Hm. injection Hm as <-. lia. Qed.

Lemma no_hook_ok : hook_ok no_hook.
Proof. intros b i m w Hb Hi Hs. simpl. split_and!; try lia. Qed.

Lemma toy_pay_ok : paymaster_ok (AccountId := Z) (Kind := Z) (Beneficiary := Z) (Id := Z)
  (W := TreasuryWorld).
Proof. intros w b k x w' id Hp a. simpl in Hp. injection Hp as <- <-. done. Qed.

(** The calls in order, each of which has to succeed. *)
Fixpoint toy_run (calls : list (Z * ToyCall)) (s : ToyTreasury) : option ToyTreasury :=
  match calls with
  | [] => Some s
  | (o, c) :: calls =>
      match treasury_dispatch toy_treasury o c (Some ∅) s with
      | (_, Ok s) => toy_run calls s
      | (_, Err _) => None
      end
  end.

Lemma toy_run_reachable (usual : ToyCall -> ToyTreasury -> Prop) calls n s s' :
  (forall c s, usual c s) -> Forall (fun oc => call_typed oc.2) calls ->
  treasury_reachable toy_treasury no_hook usual n s -> toy_run calls s = Some s' ->
  treasury_reachable toy_treasury no_hook usual (n + Z.of_nat (length calls)) s'.
Proof.
  intros Hu Hc. revert n s. induction Hc as [|[o c] calls Hc _ IH]; intros n s Hr Hs; simpl in Hs.
  - injection Hs as <-. by rewrite Z.add_0_r.
  - destruct (treasury_dispatch _ _ _ _ _) as [ctx [s1|e]] eqn:Hd; [|done].
    replace (n + Z.of_nat (length ((o, c) :: calls))) with (n + 1 + Z.of_nat (length calls))
      by (simpl length; lia).
    eapply IH; [|exact Hs]. by eapply treasury_call.
Qed.

Definition toy_start : ToyTreasury := treasury_build toy_treasury (treasury_empty (toy_world 7)).

(** Two proposals approved, one too large for the pot, and a spend. *)
Definition toy_calls : list (Z * ToyCall) :=
  [(1, tc_propose_spend 400 (Some 3)); (2, tc_propose_spend 700 (Some 2)); (1, tc_propose_spend 600 (Some 1));
   (-1, tc_approve_proposal 1); (-1, tc_approve_proposal 0); (-1, tc_approve_proposal 2);
   (-1, tc_spend 0 300 (Some 5) None); (8, tc_payout 0); (9, tc_check_status 0); (8, tc_payout 0)].
Definition toy_busy : ToyTreasury := default toy_start (toy_run toy_calls toy_start).

Lemma toy_busy_reachable : treasury_reachable toy_treasury no_hook any_call 10 toy_busy.
Proof.
  apply (toy_run_reachable any_call toy_calls 0 toy_start); [done| |apply treasury_genesis|vm_compute; reflexivity].
  repeat constructor; unfold in_range; simpl; lia.
Qed.

(** ** The theorems at work *)

Lemma treasury_bonds_backed_witness :
  (forall a, 0 <= bonds (Proposals toy_busy) a <= reserved_balance (treasury_world toy_busy) a) /\
  (forall i p, Proposals toy_busy !! i = Some p -> 0 <= i < ProposalCount toy_busy /\ 0 <= bond p) /\
  (forall i sp, Spends toy_busy !! i = Some sp -> 0 <= i < SpendCount toy_busy) /\
  Z.of_nat (length (Approvals toy_busy)) <= Z.max 0 (MaxApprovals toy_treasury).
Proof.
  apply (treasury_bonds_backed toy_treasury no_hook toy_config_ok no_hook_ok toy_pay_ok 10 toy_busy);
    [exact toy_busy_reachable|lia].
Defined.

(** The pot of 990 pays 700 first, then 400 does not fit any more. *)
Lemma spend_funds_outcome_witness :
  Approvals (spend_funds toy_treasury no_hook toy_busy) = [0; 2] /\
  exists (aw : list (Award (AccountId := Z))) burn, burn = 0 /\ awarded aw + burn <= 990.
Proof.
  split; [vm_compute; reflexivity|].
  destruct (spend_funds_outcome toy_treasury no_hook toy_config_ok no_hook_ok toy_pay_ok 10 toy_busy
    (fun _ => eq_refl) toy_busy_reachable ltac:(lia))
    as (aw & burn & _ & _ & _ & _ & _ & _ & _ & _ & Hs & Hb & _).
  exists aw, burn. split; [rewrite Hb; by rewrite decide_False by (vm_compute; discriminate)|].
  etransitivity; [exact Hs|]. vm_compute. discriminate.
Defined.

(** The first payment of the spend failed, the second is in flight. *)
Lemma spend_lifecycle_witness :
  phase_of toy_busy 0 = Live (Attempted 1) /\
  spend_path 0 NotYet (treasury_events toy_busy) (phase_of toy_busy 0).
Proof.
  split; [vm_compute; reflexivity|].
  apply (spend_lifecycle toy_treasury no_hook toy_config_ok no_hook_ok toy_pay_ok 10 toy_busy 0
    toy_busy_reachable); lia.
Defined.

Lemma approved_proposal_paid_witness :
  Proposals (spend_funds toy_treasury no_hook toy_busy) !! 1 = None.
Proof.
  apply (approved_proposal_paid toy_treasury no_hook toy_config_ok no_hook_ok toy_pay_ok 10 toy_busy
    [] 1 [0; 2] (mkProposal 2 700 2 35) toy_busy_reachable).
  - lia.
  - vm_compute. reflexivity.
  - apply not_elem_of_nil.
  - vm_compute. reflexivity.
  - vm_compute. discriminate.
Defined.

(** Two spends of 600 in one dispatch of an origin that may spend 1000. *)
Lemma dispatch_spend_limit_witness :
  batch_approves toy_treasury 1000
    [(-1, tc_spend_local 600 (Some 3)); (-1, tc_spend_local 600 (Some 4)); (-1, tc_spend 0 200 (Some 5) None)]
    (Some ∅) toy_start <= 1000.
Proof.
  apply (dispatch_spend_limit toy_treasury).
  - intros w x k y Hy. simpl in Hy. destruct (0 <=? x) eqn:Hx; [|done]. injection Hy as <-. lia.
  - repeat constructor; unfold in_range; simpl; lia.
  - lia.
Defined.

Lemma toy_careful :
  exists s, treasury_reachable toy_treasury no_hook (careful_call toy_treasury) 1 s /\
  treasury_dispatch toy_treasury (-1) (tc_spend 0 300 (Some 5) None) None toy_start = (None, Ok s).
Proof.
  eexists. split; [|vm_compute; reflexivity].
  eapply (treasury_call _ _ _ 0 (-1) (tc_spend 0 300 (Some 5) None) None toy_start).
  - apply treasury_genesis.
  - simpl. split; [lia|]. vm_compute. discriminate.
  - done.
  - vm_compute. reflexivity.
Qed.

Lemma treasury_try_state_witness :
  exists s : ToyTreasury, SpendCount s = 1 /\ try_state_proposals s = true /\ try_state_spends s = true.
Proof.
  destruct toy_careful as (s & Hr & Hs). exists s.
  split; [vm_compute in Hs; injection Hs as <-; reflexivity|].
  apply (treasury_try_state toy_treasury no_hook toy_config_ok no_hook_ok toy_pay_ok 1 s Hr). lia.
Defined.

(** ** Where [try_state] fails

    Rejecting a proposal leaves its approval behind; a spend that is valid from
    the last block on has no block in which it can be paid. *)

Definition reject_approved : list (Z * ToyCall) :=
  [(1, tc_propose_spend 400 (Some 3)); (-1, tc_approve_proposal 0); (-1, tc_reject_proposal 0)].
Definition spend_windowless : list (Z * ToyCall) := [(-1, tc_spend 0 300 (Some 5) (Some u32_max))].
Definition toy_rejected : ToyTreasury := default toy_start (toy_run reject_approved toy_start).
Definition toy_windowless : ToyTreasury := default toy_start (toy_run spend_windowless toy_start).

Lemma toy_run_any calls s' :
  Forall (fun oc => call_typed oc.2) calls -> toy_run calls toy_start = Some s' ->
  treasury_reachable toy_treasury no_hook any_call (0 + Z.of_nat (length calls)) s'.
Proof.
  intros Hc. apply (toy_run_reachable any_call calls 0 toy_start); [done|done|]. apply treasury_genesis.
Qed.

Theorem treasury_try_state_fails :
  (treasury_reachable toy_treasury no_hook any_call 3 toy_rejected /\
   try_state_proposals toy_rejected = false) /\
  (treasury_reachable toy_treasury no_hook any_call 1 toy_windowless /\
   try_state_spends toy_windowless = false).
Proof.
  split; (split; [|vm_compute; reflexivity]).
  - apply (toy_run_any reject_approved); [|vm_compute; reflexivity].
    repeat constructor; unfold in_range; simpl; lia.
  - apply (toy_run_any spend_windowless); [|vm_compute; reflexivity]. repeat constructor.
Qed.
