(* ===== verification/XcmPrimitives.v ===== *)
(** * Cross-chain message primitives

    [primitives/src/xcm/mod.rs]: the conversion of locations, the trader that
    sells execution weight for a foreign asset, the fee handler that receives
    its revenue and the filter of trusted reserves.  Locations, holdings and
    the executor belong to the [xcm] crates.  The second part is the barrier for paid execution. *)

From stdpp Require Import strings.
From S2P Require Import Prelude Frame XcAssetConfig.

(** ** Assets and holdings *)

Inductive Fungibility := Fungible (amount : Z) | NonFungible.

Record Asset (Location : Type) := mkAsset { asset_location : Location; fun_ : Fungibility }.
Arguments mkAsset {Location}.
Arguments asset_location {Location}.
Arguments fun_ {Location}.

Definition asset_amount {Location} (a : Asset Location) : Z :=
  match fun_ a with Fungible x => x | NonFungible => 0 end.

(** [AssetsInHolding]: the first fungible asset, subtraction of an asset, and
    what is held of a location. *)
Class AssetsInHolding (Location Holding : Type) := {
  fungible_assets_next : Holding -> option (Asset Location);
  holding_checked_sub : Holding -> Asset Location -> option Holding;
  held : Holding -> Location -> Z;
}.

Class AssetsInHoldingLaws (Location Holding : Type)
    `{!AssetsInHolding Location Holding} : Prop := {
  checked_sub_held (h h' : Holding) (l : Location) (x : Z) :
    holding_checked_sub h (mkAsset l (Fungible x)) = Some h' -> held h' l = held h l - x;
}.

(** ** [AssetLocationIdConverter] *)

Section converter.
Context {Location AssetId S : Type} `{!XcAssetLocation Location AssetId S} (s : S).

Definition convert (location : Location) : option AssetId := get_asset_id s location.
Definition convert_back (id : AssetId) : option Location := get_xc_asset_location s id.
End converter.

(** ** [FixedRateOfForeignAsset] *)

Inductive XcmError := TooExpensive.

Record FixedRateOfForeignAsset (Location : Type) := mkTrader {
  trader_weight : Weight;
  trader_consumed : Z;
  asset_location_and_units_per_second : option (Location * Z);
}.
Arguments mkTrader {Location}.
Arguments trader_weight {Location}.
Arguments trader_consumed {Location}.
Arguments asset_location_and_units_per_second {Location}.

Section trader.
Context {Location S Holding : Type} `{EqDecision Location}.
Context `{!ExecutionPaymentRate Location S, !AssetsInHolding Location Holding} (s : S).

Abbreviation Trader := (FixedRateOfForeignAsset Location).

Definition trader_new : Trader := mkTrader weight_zero 0 None.

Definition buy_weight (t : Trader) (weight : Weight) (payment : Holding)
    : Result (Trader * Holding) XcmError :=
  let! payment_asset := ok_or (fungible_assets_next payment) TooExpensive in
  match fun_ payment_asset with
  | Fungible _ =>
      let asset_location := asset_location payment_asset in
      match get_units_per_second s asset_location with
      | Some units_per_second =>
          let amount :=
            sat_mul u128_max units_per_second (ref_time weight) / WEIGHT_REF_TIME_PER_SECOND in
          if amount =? 0 then Ok (t, payment)
          else
            let! unused :=
              ok_or (holding_checked_sub payment (mkAsset asset_location (Fungible amount)))
                TooExpensive in
            let weight := weight_saturating_add (trader_weight t) weight in
            let t :=
              match asset_location_and_units_per_second t with
              | Some (old_asset_location, _) =>
                  mkTrader weight
                    (if bool_decide (old_asset_location = asset_location)
                     then sat_add u128_max (trader_consumed t) amount else trader_consumed t)
                    (asset_location_and_units_per_second t)
              | None =>
                  mkTrader weight (sat_add u128_max (trader_consumed t) amount)
                    (Some (asset_location, units_per_second))
              end in
            Ok (t, unused)
      | None => Err TooExpensive
      end
  | NonFungible => Err TooExpensive
  end.

Definition refund_weight (t : Trader) (weight : Weight) : Trader * option (Asset Location) :=
  match asset_location_and_units_per_second t with
  | Some (asset_location, units_per_second) =>
      let weight := weight_min weight (trader_weight t) in
      let amount :=
        sat_mul u128_max units_per_second (ref_time weight) / WEIGHT_REF_TIME_PER_SECOND in
      (mkTrader (weight_saturating_sub (trader_weight t) weight)
         (sat_sub (trader_consumed t) amount) (asset_location_and_units_per_second t),
       if 0 <? amount then Some (mkAsset asset_location (Fungible amount)) else None)
  | None => (t, None)
  end.

(** [Drop::drop]: what is handed to [take_revenue]. *)
Definition trader_drop (t : Trader) : option (Asset Location) :=
  match asset_location_and_units_per_second t with
  | Some (asset_location, _) =>
      if 0 <? trader_consumed t
      then Some (mkAsset asset_location (Fungible (trader_consumed t))) else None
  | None => None
  end.

Definition amount_or_zero (a : option (Asset Location)) : Z :=
  match a with Some a => asset_amount a | None => 0 end.
End trader.

(** ** [XcmFungibleFeeHandler::take_revenue]

    [matches_fungibles] and [mint_into] belong to the runtime's assets; a
    failure is logged and the revenue is gone. *)
Section fee_handler.
Context {Location AssetId AccountId W : Type}.
Context (matches_fungibles : Asset Location -> option (AssetId * Z)).
Context (mint_into : W -> AssetId -> AccountId -> Z -> option W).
Context (FeeDestination : AccountId).

Definition take_revenue (revenue : Asset Location) (w : W) : W :=
  match matches_fungibles revenue with
  | Some (asset_id, amount) =>
      if 0 <? amount then default w (mint_into w asset_id FeeDestination amount) else w
  | None => w
  end.
End fee_handler.

(** ** [ReserveAssetFilter] and [AbsoluteAndRelativeReserveProvider]

    [first_interior] of a location, when it is a [Parachain], and the
    locations the code builds: a sibling parachain, the relay chain and the
    chain itself. *)
Class XcmLocation (Location : Type) := {
  parents : Location -> Z;
  first_interior_parachain : Location -> option Z;
  sibling_parachain : Z -> Location;
  location_parent : Location;
  location_here : Location;
}.

Section reserves.
Context {Location : Type} `{EqDecision Location, !XcmLocation Location}.

Definition reserve_location (location : Location) : option Location :=
  if parents location =? 1 then
    match first_interior_parachain location with
    | Some id => Some (sibling_parachain id)
    | None => Some location_parent
    end
  else None.

Definition reserve_contains (asset : Asset Location) (origin : Location) : bool :=
  match reserve_location (asset_location asset) with
  | Some reserve => bool_decide (origin = reserve)
  | None => false
  end.

(** [relative_reserve] is [RelativeReserveProvider::reserve]. *)
Definition absolute_and_relative_reserve (relative_reserve : Asset Location -> option Location)
    (absolute_location : Location) (asset : Asset Location) : option Location :=
  (fun reserve_location =>
     if bool_decide (reserve_location = absolute_location) then location_here
     else reserve_location) <$> relative_reserve asset.
End reserves.

(** ** What a trader takes and gives back *)

Section trader_theorems.
Context {Location S Holding : Type} `{EqDecision Location}.
Context `{!ExecutionPaymentRate Location S, !AssetsInHolding Location Holding}.
Context (l : Location) (u : Z).

Abbreviation Trader := (FixedRateOfForeignAsset Location).

(** A trader that sells weight for the asset at [l], at the rate [u], with
    what it was paid and what it refunded, the reference time it was asked to
    sell and the number of purchases. *)
Inductive trader_history : Trader -> Z -> Z -> Z -> Z -> Prop :=
| th_new : trader_history trader_new 0 0 0 0
| th_buy (s : S) (w : Weight) (payment unused : Holding) a t t' paid refunded sold n :
    trader_history t paid refunded sold n ->
    0 <= ref_time w -> get_units_per_second s l = Some u ->
    fungible_assets_next payment = Some a -> asset_location a = l ->
    buy_weight s t w payment = Ok (t', unused) ->
    trader_history t' (paid + (held payment l - held unused l)) refunded
      (sold + ref_time w) (n + 1)
| th_refund (w : Weight) t t' a paid refunded sold n :
    trader_history t paid refunded sold n -> 0 <= ref_time w ->
    refund_weight t w = (t', a) ->
    trader_history t' paid (refunded + amount_or_zero a) sold n.

Abbreviation D := WEIGHT_REF_TIME_PER_SECOND.

(** The price of [w] seconds is what is charged, rounded down. *)
Lemma price_bounds (w : Z) :
  0 <= u -> 0 <= w -> u * w <= u128_max ->
  exists x, sat_mul u128_max u w / D = x /\ 0 <= x /\ x * D <= u * w /\ u * w <= x * D + (D - 1).
Proof.
  intros Hu Hw Hmax. rewrite sat_mul_exact by done. eexists. split; [done|].
  unfold D. pose proof (Z.div_mod (u * w) (10 ^ 12) ltac:(lia)).
  pose proof (Z.mod_pos_bound (u * w) (10 ^ 12) ltac:(lia)).
  pose proof (Z.div_pos (u * w) (10 ^ 12) ltac:(nia) ltac:(lia)). lia.
Qed.

(** [kept] is the weight still with the trader, [given] the weight refunded. *)
Record trader_ok (t : Trader) (paid refunded sold n : Z) : Prop := {
  to_rate : match asset_location_and_units_per_second t with
            | Some p => p = (l, u) | None => paid = 0 /\ refunded = 0 /\ ref_time (trader_weight t) = 0 end;
  to_nonneg : 0 <= trader_consumed t /\ 0 <= ref_time (trader_weight t) /\ 0 <= paid /\
              0 <= refunded /\ 0 <= n /\ 0 <= sold;
  to_given : exists given, 0 <= given /\ refunded * D <= u * given /\
               ref_time (trader_weight t) + given <= sold /\
               u * (ref_time (trader_weight t) + given) <= paid * D + n * (D - 1);
  to_consumed : paid - refunded <= trader_consumed t <= paid;
  to_paid : paid * D <= u * sold;
  to_exact : n <= 1 -> trader_consumed t = paid - refunded;
}.

Context `{!AssetsInHoldingLaws Location Holding}.

Lemma buy_weight_cases (s : S) (t t' : Trader) w payment unused a :
  get_units_per_second s l = Some u -> fungible_assets_next payment = Some a ->
  asset_location a = l -> buy_weight s t w payment = Ok (t', unused) ->
  let amount := sat_mul u128_max u (ref_time w) / D in
  held payment l - held unused l = amount /\
  (amount = 0 /\ t' = t \/
   amount <> 0 /\ trader_weight t' = weight_saturating_add (trader_weight t) w /\
   match asset_location_and_units_per_second t with
   | Some (k, _) =>
       asset_location_and_units_per_second t' = asset_location_and_units_per_second t /\
       (k = l -> trader_consumed t' = sat_add u128_max (trader_consumed t) amount)
   | None =>
       asset_location_and_units_per_second t' = Some (l, u) /\
       trader_consumed t' = sat_add u128_max (trader_consumed t) amount
   end).
Proof.
  intros Hrate Hnext Hloc Hbuy amount. unfold buy_weight in Hbuy. rewrite Hnext in Hbuy.
  cbn [ok_or] in Hbuy. rewrite Hloc, Hrate in Hbuy. destruct (fun_ a); [|done].
  fold amount in Hbuy. destruct (Z.eqb_spec amount 0) as [Hz|Hz].
  { injection Hbuy as <- <-. split; [lia|]. left. done. }
  bind_inv Hbuy as h Hh. injection Hbuy as <- <-. unfold ok_or in Hh.
  destruct (holding_checked_sub _ _) as [h'|] eqn:Hsub; [|done]. injection Hh as ->.
  apply checked_sub_held in Hsub. split; [lia|]. right. split; [done|].
  destruct (asset_location_and_units_per_second t) as [[k r]|]; [|done].
  split; [done|]. split; [done|]. intros ->. simpl. by rewrite bool_decide_eq_true_2.
Qed.

Lemma refund_weight_cases (t t' : Trader) w a k r :
  asset_location_and_units_per_second t = Some (k, r) -> refund_weight t w = (t', a) ->
  0 <= sat_mul u128_max r (Z.min (ref_time w) (ref_time (trader_weight t))) / D ->
  let given := Z.min (ref_time w) (ref_time (trader_weight t)) in
  let amount := sat_mul u128_max r given / D in
  amount_or_zero a = amount /\
  ref_time (trader_weight t') = sat_sub (ref_time (trader_weight t)) given /\
  trader_consumed t' = sat_sub (trader_consumed t) amount /\
  asset_location_and_units_per_second t' = asset_location_and_units_per_second t.
Proof.
  intros Ht Hr Hpos given amount. unfold refund_weight in Hr. rewrite Ht in Hr.
  injection Hr as <- <-. rewrite Ht. split_and!; [|done..].
  change (0 <= amount) in Hpos. cbn [ref_time weight_min]. fold given. fold amount.
  destruct (Z.ltb_spec 0 amount) as [|Hle]; [done|]. cbn [amount_or_zero]. clearbody amount. lia.
Qed.

Lemma trader_history_ok t paid refunded sold n :
  0 <= u -> trader_history t paid refunded sold n ->
  u * sold <= u128_max -> sold <= u64_max -> trader_ok t paid refunded sold n.
Proof.
  intros Hu Hh. induction Hh as
    [|s w payment unused a t t' paid refunded sold n Hh IH Hw Hrate Hnext Hloc Hbuy
     |w t t' a paid refunded sold n Hh IH Hw Hr]; intros Hmax Hs.
  - constructor; simpl; try lia. exists 0. lia.
  - destruct IH as [Hk (Hc & Ht & Hp & Hre & Hn & Hso) (g & Hg0 & Hg1 & Hg2 & Hg3) Hcons Hpd Hex];
      [nia|lia|].
    destruct (price_bounds (ref_time w) Hu Hw) as (x & Hx & Hx0 & Hx1 & Hx2); [nia|].
    destruct (buy_weight_cases s t t' w payment unused a Hrate Hnext Hloc Hbuy) as [Hheld Hcase].
    rewrite Hx in Hheld, Hcase. rewrite Hheld.
    assert (0 <= u * ref_time w) by nia.
    assert (HD : D = 10 ^ 12) by done.
    destruct Hcase as [[-> ->]|(Hne & Hwt & Hcase)].
    { rewrite Z.add_0_r. constructor; rewrite ?Z.mul_add_distr_l; try lia; [done|].
      exists g. split_and!; lia. }
    assert (Hrt : ref_time (trader_weight t') = ref_time (trader_weight t) + ref_time w)
      by (rewrite Hwt; simpl; apply sat_add_exact; lia).
    assert (Hct : trader_consumed t' = sat_add u128_max (trader_consumed t) x /\
                  asset_location_and_units_per_second t' = Some (l, u)).
    { destruct (asset_location_and_units_per_second t) as [[k r]|];
        [injection Hk as -> ->; destruct Hcase as [-> Hcase]; by rewrite Hcase|].
      destruct Hcase. by split. }
    destruct Hct as [Hct Hal'].
    assert (Hbound : paid + x <= u128_max) by nia.
    rewrite sat_add_exact in Hct by lia.
    constructor; rewrite ?Hal', ?Hct, ?Hrt, ?Z.mul_add_distr_l; try lia; [done|].
    exists g. split_and!; nia.
  - destruct IH as [Hk (Hc & Ht & Hp & Hre & Hn & Hso) (g & Hg0 & Hg1 & Hg2 & Hg3) Hcons Hpd Hex];
      [done..|].
    assert (HD : D = 10 ^ 12) by done.
    destruct (asset_location_and_units_per_second t) as [[k r]|] eqn:Hal.
    2:{ unfold refund_weight in Hr. rewrite Hal in Hr. injection Hr as <- <-. simpl.
        rewrite Z.add_0_r. constructor; rewrite ?Hal; try lia; eauto. }
    injection Hk as -> ->. set (z := Z.min (ref_time w) (ref_time (trader_weight t))).
    destruct (price_bounds z Hu) as (x & Hx & Hx0 & Hx1 & Hx2); [lia|nia|].
    destruct (refund_weight_cases t t' w a l u Hal Hr) as (Ha & Hrt & Hct & Hal').
    { fold z. lia. }
    fold z in Ha, Hrt, Hct. rewrite Hx in Ha, Hct. rewrite sat_sub_exact in Hrt by lia.
    assert (Hle : n <= 1 -> refunded + x <= paid) by nia.
    rewrite Ha. constructor; rewrite ?Hal', ?Hal, ?Hct, ?Hrt; try ulia; try done.
    exists (g + z). split_and!; nia.
Qed.

(** C26: a trader paid in one asset never loses what it was paid (what it
    refunds and what it hands to the treasury make up at least the payment),
    refunds at most one unit more than it was paid for each purchase after the
    first, and with a single purchase accounts for every unit exactly. *)
Theorem trader_conserves (t : Trader) (paid refunded sold n : Z) :
  0 <= u -> trader_history t paid refunded sold n ->
  u * sold <= u128_max -> sold <= u64_max ->
  let revenue := amount_or_zero (trader_drop t) in
  paid <= refunded + revenue /\ revenue <= paid /\
  refunded <= paid + Z.max 0 (n - 1) /\
  (n <= 1 -> refunded + revenue = paid).
Proof.
  intros Hu Hh Hmax Hs revenue.
  destruct (trader_history_ok t paid refunded sold n Hu Hh Hmax Hs)
    as [Hk (Hc & Ht & Hp & Hre & Hn & Hso) (g & Hg0 & Hg1 & Hg2 & Hg3) Hcons Hpd Hex].
  assert (HD : D = 10 ^ 12) by done.
  assert (Hrev : revenue = trader_consumed t).
  { unfold revenue, trader_drop. revert Hk.
    destruct (asset_location_and_units_per_second t) as [[k r]|]; intros Hk;
      [destruct (Z.ltb_spec 0 (trader_consumed t)) as [|Hle]; [done|]|];
      cbn [amount_or_zero]; lia. }
  assert (Hfl : refunded * D <= paid * D + n * (D - 1)) by nia. rewrite HD in Hfl.
  rewrite Hrev. split_and!; [lia|lia|lia|]. intros Hn1. rewrite (Hex Hn1). lia.
Qed.
End trader_theorems.

(** ** Reserves *)

(** An asset has at most one trusted reserve, none when it is not one level
    up; for the others it is the sibling parachain that the location names
    first and the relay chain when it names none. *)
Theorem reserve_is_unique {Location} `{EqDecision Location, !XcmLocation Location}
    (asset : Asset Location) (origin : Location) :
  reserve_contains asset origin = true <->
  parents (asset_location asset) = 1 /\
  origin = match first_interior_parachain (asset_location asset) with
           | Some id => sibling_parachain id | None => location_parent end.
Proof.
  unfold reserve_contains, reserve_location.
  destruct (Z.eqb_spec (parents (asset_location asset)) 1); [|split; [done|lia]].
  destruct (first_interior_parachain _); rewrite bool_decide_eq_true; tauto.
Qed.

(** ** Witnesses

    Locations are numbers and a holding has one asset. *)
Section example.
Definition ToyHolding : AssetsInHolding Z (Z * Z) := {|
  fungible_assets_next h := Some (mkAsset h.1 (Fungible h.2));
  holding_checked_sub h a :=
    if (h.1 =? asset_location a) && (asset_amount a <=? h.2)
    then Some (h.1, h.2 - asset_amount a) else None;
  held h l := if h.1 =? l then h.2 else 0;
|}.
Existing Instance ToyHolding.
Lemma ToyHoldingLaws : AssetsInHoldingLaws Z (Z * Z).
Proof.
  split. intros [k y] h' l x. simpl. destruct (Z.eqb_spec k l); [|done].
  destruct (asset_amount _ <=? y); [|done]. intros [= <-]. simpl. rewrite (proj2 (Z.eqb_eq k l)) by done.
  done.
Qed.
Existing Instance ToyHoldingLaws.

(** A second costs 1500 units of the asset at 7 and one unit of the asset at 8. *)
Definition toy_rate (l : Z) : option Z :=
  if l =? 7 then Some 1500 else if l =? 8 then Some 1 else None.
Definition ToyRate : ExecutionPaymentRate Z unit :=
  {| get_units_per_second _ l := toy_rate l |}.
Existing Instance ToyRate.

Abbreviation ToyTrader := (FixedRateOfForeignAsset Z).

Definition buy (t : ToyTrader) (w : Z) (payment : Z * Z) : ToyTrader * (Z * Z) :=
  match buy_weight tt t (mkWeight w 0) payment with Ok r => r | Err _ => (t, payment) end.

(** A thousandth of a second, priced at one unit and a half. *)
Definition ms : Z := 10 ^ 9.
Definition bought_once : ToyTrader := (buy trader_new ms (7, 50)).1.
Definition bought_twice : ToyTrader := (buy bought_once ms (7, 50)).1.

Lemma toy_history : trader_history (S := unit) (Holding := Z * Z) 7 1500 bought_twice 2 0 (2 * ms) 2.
Proof.
  apply (th_buy (AssetsInHolding0 := ToyHolding) 7 1500 tt (mkWeight ms 0) (7, 50) (7, 49)
    (mkAsset 7 (Fungible 50))
    bought_once bought_twice 1 0 ms 1); [|by vm_compute..].
  apply (th_buy (AssetsInHolding0 := ToyHolding) 7 1500 tt (mkWeight ms 0) (7, 50) (7, 49)
    (mkAsset 7 (Fungible 50))
    trader_new bought_once 0 0 0 0); [|by vm_compute..].
  apply th_new.
Qed.

Lemma trader_conserves_witness :
  amount_or_zero (trader_drop bought_twice) = 2 /\
  2 <= 0 + amount_or_zero (trader_drop bought_twice).
Proof.
  split; [by vm_compute|].
  apply (trader_conserves (S := unit) (Holding := Z * Z) 7 1500 bought_twice 2 0 (2 * ms) 2);
    [lia|apply toy_history|by vm_compute..].
Defined.

(** The bound is met: two purchases of a thousandth of a second cost one
    unit each, and the refund of both is three units, one more than was
    paid. *)
Theorem refund_exceeds_payment :
  buy trader_new ms (7, 50) = (bought_once, (7, 49)) /\
  buy bought_once ms (7, 50) = (bought_twice, (7, 49)) /\
  (refund_weight bought_twice (mkWeight (2 * ms) 0)).2 = Some (mkAsset 7 (Fungible 3)).
Proof. split_and!; by vm_compute. Qed.

(** Weight bought with a second asset is refunded in the first: one unit of
    the asset at 7 and one unit of the asset at 8 are paid, and fifteen
    hundred units of the first come back. *)
Theorem refund_in_other_asset :
  let t := buy bought_once (10 ^ 12) (8, 50) in
  t.2 = (8, 49) /\
  (refund_weight t.1 (mkWeight (10 ^ 12) 0)).2 = Some (mkAsset 7 (Fungible 1500)).
Proof. split; by vm_compute. Qed.
End example.

(** * The barrier for paid execution

    [AllowTopLevelPaidExecutionFrom] of [primitives/src/xcm/mod.rs]: a message
    is executed only if it brings assets and buys its own execution with them. *)

(** ** Instructions *)

Inductive WeightLimit := Unlimited | Limited (weight : Weight).

Inductive OriginKind := NativeOrigin | SovereignAccount | Superuser | XcmOrigin.

(** The instructions the sources build or match on; any other by its name. *)
Inductive Instruction (Location : Type) :=
| WithdrawAsset (assets : list (Asset Location))
| ReserveAssetDeposited (assets : list (Asset Location))
| ReceiveTeleportedAsset (assets : list (Asset Location))
| ClaimAsset (assets : list (Asset Location)) (ticket : Location)
| ClearOrigin
| BuyExecution (fees : Asset Location) (weight_limit : WeightLimit)
| Transact (origin_kind : OriginKind) (require_weight_at_most : Weight) (call : list Z)
| OtherInstruction (name : string).
Arguments WithdrawAsset {Location}.
Arguments ReserveAssetDeposited {Location}.
Arguments ReceiveTeleportedAsset {Location}.
Arguments ClaimAsset {Location}.
Arguments ClearOrigin {Location}.
Arguments BuyExecution {Location}.
Arguments Transact {Location}.
Arguments OtherInstruction {Location}.

Inductive ProcessMessageError := Unsupported | BadFormat | Overweight (weight : Weight).

(** ** [MatchXcm]

    A matcher has passed some instructions, which a closure may have rewritten,
    and has others before it. *)

Class MatchXcm (I : Type) := {
  match_next_inst :
    (I -> Result I ProcessMessageError) -> list I * list I -> Result (list I * list I) ProcessMessageError;
  skip_inst_while : (I -> bool) -> list I * list I -> Result (list I * list I) ProcessMessageError;
}.

(** Both fail where no instruction is left; the first applies the closure to
    the next one, the second passes instructions while the condition holds. *)
Class MatchXcmLaws (I : Type) `{!MatchXcm I} : Prop := {
  match_next_nil f p : exists e, match_next_inst f (p, []) = Err e;
  match_next_cons f p i r :
    match_next_inst f (p, i :: r) = (let! i' := f i in Ok (p ++ [i'], r));
  skip_while_nil c p : exists e, skip_inst_while c (p, []) = Err e;
  skip_while_end c p i : c i = true -> skip_inst_while c (p, [i]) = Ok (p ++ [i], []);
  skip_while_cons c p i j r :
    c i = true -> skip_inst_while c (p, i :: j :: r) = skip_inst_while c (p ++ [i], j :: r);
  skip_while_stop c p i r : c i = false -> skip_inst_while c (p, i :: r) = Ok (p, i :: r);
}.

(** ** The barrier *)

Definition MAX_ASSETS_FOR_BUY_EXECUTION : nat := 2.

Definition weight_all_gte (a b : Weight) : bool :=
  (ref_time b <=? ref_time a) && (proof_size b <=? proof_size a).

Section barrier.
Context {Location : Type} `{!MatchXcm (Instruction Location)}.
Abbreviation Inst := (Instruction Location).

(** The two closures: what may bring the assets, and the purchase, which is
    set to the weight of the message. *)
Definition brings_assets (inst : Inst) : Result Inst ProcessMessageError :=
  match inst with
  | ReceiveTeleportedAsset _ | ReserveAssetDeposited _ => Ok inst
  | WithdrawAsset assets =>
      if (length assets <=? MAX_ASSETS_FOR_BUY_EXECUTION)%nat then Ok inst else Err BadFormat
  | ClaimAsset assets _ =>
      if (length assets <=? MAX_ASSETS_FOR_BUY_EXECUTION)%nat then Ok inst else Err BadFormat
  | _ => Err BadFormat
  end.

Definition buys_execution (max_weight : Weight) (inst : Inst) : Result Inst ProcessMessageError :=
  match inst with
  | BuyExecution fees (Limited weight) =>
      if weight_all_gte weight max_weight then Ok (BuyExecution fees (Limited max_weight))
      else Err (Overweight max_weight)
  | BuyExecution fees Unlimited => Ok (BuyExecution fees (Limited max_weight))
  | _ => Err (Overweight max_weight)
  end.

Definition is_clear_origin (inst : Inst) : bool :=
  match inst with ClearOrigin => true | _ => false end.

(** The instructions are rewritten in place; [contains] is [T::contains]. *)
Definition should_execute (contains : Location -> bool) (origin : Location)
    (instructions : list Inst) (max_weight : Weight) : Result (list Inst) ProcessMessageError :=
  ensure! contains origin else Unsupported in
  let e := Nat.min (length instructions) 5 in
  let! m := match_next_inst brings_assets ([], take e instructions) in
  let! m := skip_inst_while is_clear_origin m in
  let! m := match_next_inst (buys_execution max_weight) m in
  Ok (m.1 ++ m.2 ++ drop e instructions).

(** ** What the barrier admits *)

(** What may bring the assets that pay: a teleport, a reserve deposit, or a
    withdrawal or a claim of at most two assets. *)
Inductive may_pay : Inst -> Prop :=
| mp_teleport assets : may_pay (ReceiveTeleportedAsset assets)
| mp_reserve assets : may_pay (ReserveAssetDeposited assets)
| mp_withdraw assets : (length assets <= 2)%nat -> may_pay (WithdrawAsset assets)
| mp_claim assets ticket : (length assets <= 2)%nat -> may_pay (ClaimAsset assets ticket).

(** A limit covers a weight in time and in size of the proof. *)
Definition covers_weight (limit : WeightLimit) (w : Weight) : Prop :=
  match limit with
  | Unlimited => True
  | Limited l => ref_time w <= ref_time l /\ proof_size w <= proof_size l
  end.

(** The form of a message that pays: assets, at most three times
    [ClearOrigin], and a purchase that covers the weight. *)
Inductive pays_for (max_weight : Weight) : list Inst -> list Inst -> Prop :=
| pays_for_intro (first : Inst) (k : nat) (fees : Asset Location) (limit : WeightLimit) (rest : list Inst) :
    may_pay first -> (k <= 3)%nat -> covers_weight limit max_weight ->
    pays_for max_weight
      (first :: replicate k ClearOrigin ++ BuyExecution fees limit :: rest)
      (first :: replicate k ClearOrigin ++ BuyExecution fees (Limited max_weight) :: rest).

Lemma brings_assets_ok i : brings_assets i = Ok i <-> may_pay i.
Proof.
  unfold brings_assets, MAX_ASSETS_FOR_BUY_EXECUTION. split.
  - destruct i; try done; try (by constructor);
      match goal with |- context [(?n <=? ?m)%nat] => destruct (Nat.leb_spec n m) end; by try constructor.
  - intros []; try done; by rewrite (proj2 (Nat.leb_le _ _)).
Qed.

Lemma covers_weight_iff limit w :
  match limit with Unlimited => True | Limited l => weight_all_gte l w = true end <->
  covers_weight limit w.
Proof.
  destruct limit as [|l]; [done|]. unfold weight_all_gte, covers_weight.
  rewrite andb_true_iff, !Z.leb_le. done.
Qed.

Lemma brings_assets_same i i' : brings_assets i = Ok i' -> i' = i.
Proof. destruct i; simpl; repeat case_match; congruence. Qed.

Lemma buys_execution_ok max i i' :
  buys_execution max i = Ok i' <->
  exists fees limit, i = BuyExecution fees limit /\ i' = BuyExecution fees (Limited max) /\
    match limit with Unlimited => True | Limited w => weight_all_gte w max = true end.
Proof.
  split.
  - destruct i as [| | | | |fees limit| |]; try done. destruct limit as [|w]; simpl.
    + intros [= <-]. by exists fees, Unlimited.
    + destruct (weight_all_gte w max) eqn:Hw; [|done]. intros [= <-]. by exists fees, (Limited w).
  - intros (fees & [|w] & -> & -> & Hl); simpl; [done|]. by rewrite Hl.
Qed.

Context `{!MatchXcmLaws (Instruction Location)}.

(** Skipping passes a run of [ClearOrigin]. *)
Lemma skip_run p k i r :
  is_clear_origin i = false ->
  skip_inst_while is_clear_origin (p, replicate k ClearOrigin ++ i :: r) =
    Ok (p ++ replicate k ClearOrigin, i :: r).
Proof.
  intros Hi. revert p. induction k as [|k IH]; intros p.
  - rewrite app_nil_r. by apply skip_while_stop.
  - rewrite replicate_S. cbn [app].
    destruct (replicate k ClearOrigin ++ i :: r) as [|j t] eqn:Hj.
    { by destruct (replicate k _). }
    rewrite skip_while_cons by done. rewrite IH.
    by rewrite <- app_assoc.
Qed.

Lemma skip_ok p l m :
  skip_inst_while is_clear_origin (p, l) = Ok m ->
  exists k r, l = replicate k ClearOrigin ++ r /\ m = (p ++ replicate k ClearOrigin, r) /\
    match r with i :: _ => is_clear_origin i = false | [] => True end.
Proof.
  revert p m. induction l as [|i l IH]; intros p m Hs.
  - destruct (skip_while_nil is_clear_origin p) as [e He]. congruence.
  - destruct (is_clear_origin i) eqn:Hi.
    + assert (i = ClearOrigin) as -> by (by destruct i). destruct l as [|j l].
      * rewrite skip_while_end in Hs by done. injection Hs as <-. by exists 1%nat, [].
      * rewrite skip_while_cons in Hs by done. apply IH in Hs as (k & r & -> & -> & Hr).
        exists (S k), r. split; [done|]. split; [|done]. by rewrite <- app_assoc.
    + rewrite skip_while_stop in Hs by done. injection Hs as <-. exists 0%nat, (i :: l).
      by rewrite app_nil_r.
Qed.

(** The matcher on a slice that starts with the form of a paying message. *)
Lemma match_paying p first k fees limit r max :
  brings_assets first = Ok first ->
  match limit with Unlimited => True | Limited w => weight_all_gte w max = true end ->
  (let! m := match_next_inst brings_assets
               (p, first :: replicate k ClearOrigin ++ BuyExecution fees limit :: r) in
   let! m := skip_inst_while is_clear_origin m in
   match_next_inst (buys_execution max) m) =
  Ok (p ++ first :: replicate k ClearOrigin ++ [BuyExecution fees (Limited max)], r).
Proof.
  intros Hf Hl. rewrite match_next_cons, Hf. cbn. rewrite skip_run by done. cbn.
  rewrite match_next_cons.
  assert (buys_execution max (BuyExecution fees limit) = Ok (BuyExecution fees (Limited max))) as ->
    by (apply buys_execution_ok; by exists fees, limit).
  cbn. by rewrite <- !app_assoc.
Qed.

(** C40: the barrier lets a message pass exactly when its origin is allowed, an
    instruction that brings assets comes first (of a withdrawal or a claim at
    most two), then at most three times [ClearOrigin] and then a purchase of
    execution without a limit or with one that covers the weight of the
    message; the purchase is then limited to that weight and the rest of the
    message is as it was. *)
Theorem barrier_admits_paid (contains : Location -> bool) (origin : Location)
    (instructions instructions' : list Inst) (max_weight : Weight) :
  should_execute contains origin instructions max_weight = Ok instructions' <->
  contains origin = true /\ pays_for max_weight instructions instructions'.
Proof.
  unfold should_execute. split.
  - intros Hs. destruct (contains origin); [|discriminate]. split; [done|]. cbn in Hs.
    bind_inv Hs as m1 Hm1. bind_inv Hs as m2 Hm2. bind_inv Hs as m3 Hm3. injection Hs as <-.
    destruct instructions as [|i t].
    { destruct (match_next_nil brings_assets []) as [e He]. simpl in Hm1. congruence. }
    replace (Nat.min (length (i :: t)) 5) with (S (Nat.min (length t) 4)) in Hm1 |- * by (simpl; lia).
    cbn [take] in Hm1. rewrite match_next_cons in Hm1. bind_inv Hm1 as i' Hi. injection Hm1 as <-.
    pose proof (brings_assets_same _ _ Hi) as ->.
    apply skip_ok in Hm2 as (k & r & Ht & -> & Hr). destruct r as [|b r].
    { edestruct (match_next_nil (buys_execution max_weight)) as [e He]. by rewrite He in Hm3. }
    rewrite match_next_cons in Hm3. bind_inv Hm3 as b' Hb. injection Hm3 as <-.
    apply buys_execution_ok in Hb as (fees & limit & -> & -> & Hl). cbn [fst snd drop app].
    assert (Hk : (k <= 3)%nat).
    { assert (Hlen := f_equal length Ht). rewrite length_app, length_replicate, length_take in Hlen.
      simpl in Hlen. lia. }
    rewrite <- (take_drop (Nat.min (length t) 4) t) at 1. rewrite Ht, <- !app_assoc. cbn [app].
    apply pays_for_intro; [by apply brings_assets_ok|done|by apply covers_weight_iff].
  - intros [Hc Hp]. rewrite Hc. cbn. destruct Hp as [first k fees limit rest Hf Hk Hl].
    apply brings_assets_ok in Hf. apply covers_weight_iff in Hl.
    set (l := replicate k ClearOrigin ++ BuyExecution fees limit :: rest).
    assert (exists n, Nat.min (length (first :: l)) 5 = S (k + S n)) as [n Hn].
    { exists (Nat.min (length (first :: l)) 5 - S (k + 1))%nat. unfold l. simpl.
      rewrite length_app, length_replicate. simpl. lia. }
    rewrite Hn. cbn [take drop]. unfold l.
    rewrite take_app_add', drop_app_add' by (by rewrite length_replicate).
    cbn [take drop].
    pose proof (match_paying [] first k fees limit (take n rest) max_weight Hf Hl) as Hm.
    destruct (match_next_inst brings_assets _) as [m1|]; [|discriminate]. cbn in Hm |- *.
    destruct (skip_inst_while is_clear_origin m1) as [m2|]; [|discriminate]. cbn in Hm |- *.
    rewrite Hm. cbn. by rewrite <- !app_assoc, app_assoc, take_drop, <- app_assoc.
Qed.
End barrier.

(** ** A matcher *)

Fixpoint toy_skip {I} (c : I -> bool) (p l : list I) : list I * list I :=
  match l with
  | [] => (p, [])
  | i :: r => if c i then toy_skip c (p ++ [i]) r else (p, i :: r)
  end.

Definition ToyMatch {I} : MatchXcm I := {|
  match_next_inst f m :=
    match m with
    | (p, i :: r) => let! i' := f i in Ok (p ++ [i'], r)
    | _ => Err BadFormat
    end;
  skip_inst_while c m :=
    match m with
    | (_, []) => Err BadFormat
    | (p, l) => Ok (toy_skip c p l)
    end;
|}.

Lemma ToyMatchLaws {I} : MatchXcmLaws (MatchXcm0 := ToyMatch) I.
Proof. split; simpl; intros; try (by eexists); case_match; congruence. Qed.

Lemma barrier_admits_paid_witness :
  let M : MatchXcm (Instruction Z) := ToyMatch in
  let a := mkAsset 7 (Fungible 10) in
  let w := mkWeight 5 5 in
  should_execute (fun o => o =? 1) 1
    [WithdrawAsset [a]; ClearOrigin; BuyExecution a Unlimited; OtherInstruction "DepositAsset"] w =
    Ok [WithdrawAsset [a]; ClearOrigin; BuyExecution a (Limited w); OtherInstruction "DepositAsset"] /\
  should_execute (fun o => o =? 1) 1
    [WithdrawAsset [a]; BuyExecution a (Limited (mkWeight 4 9))] w = Err (Overweight w) /\
  ((1 =? 1) = true /\
   pays_for w [WithdrawAsset [a]; ClearOrigin; BuyExecution a Unlimited]
     [WithdrawAsset [a]; ClearOrigin; BuyExecution a (Limited w)]).
Proof.
  intros M a w. split; [by vm_compute|]. split; [by vm_compute|].
  apply (barrier_admits_paid (MatchXcmLaws0 := ToyMatchLaws) (fun o => o =? 1) 1). by vm_compute.
Defined.
