(* ===== verification/SteppedMigration.v ===== *)
(** * Migrations in steps

    The loop that [pallets/vesting-mbm/src/lib.rs] and the lazy migration of
    [pallets/dapp-staking/src/migration.rs] share: as many entries of a storage
    map as the weight of the block allows are rewritten, and the last one is
    the cursor from which the next block continues.  The storage iterator and
    the weight meter belong to the framework.  The second part is the migration of [pallets/vesting-mbm]. *)

From S2P Require Import Prelude.

(** [StorageMap::iter] and [iter_from(hashed_key_for(cursor))]: the next entry
    after the cursor in the order of the hashed keys. *)
Class StorageIter (AccountId Value : Type) `{Countable AccountId} := {
  hashed_key_for : AccountId -> Z;
  storage_next : option AccountId -> gmap AccountId Value -> option (AccountId * Value);
}.
Arguments hashed_key_for {AccountId Value EqDecision0 H StorageIter}.
Arguments storage_next {AccountId Value EqDecision0 H StorageIter}.

(** Whether a key comes after the cursor. *)
Definition after `{StorageIter AccountId Value} (cursor : option AccountId) (k : AccountId) : Prop :=
  match cursor with
  | Some c => hashed_key_for (Value := Value) c < hashed_key_for (Value := Value) k
  | None => True
  end.
Arguments after {AccountId} Value {EqDecision0 H H0} cursor k : simpl never.

Class StorageIterLaws (AccountId Value : Type) `{StorageIter AccountId Value} : Prop := {
  hashed_key_inj (a b : AccountId) :
    hashed_key_for (Value := Value) a = hashed_key_for (Value := Value) b -> a = b;
  storage_next_some (c : option AccountId) (m : gmap AccountId Value) k v :
    storage_next c m = Some (k, v) ->
    m !! k = Some v /\ after Value c k /\
    forall k', is_Some (m !! k') -> after Value c k' ->
      hashed_key_for (Value := Value) k <= hashed_key_for (Value := Value) k';
  storage_next_none (c : option AccountId) (m : gmap AccountId Value) :
    storage_next c m = None -> forall k, is_Some (m !! k) -> ~ after Value c k;
}.

(** [WeightMeter]: whether less than a weight remains, consumption, and
    consumption that fails when it is not covered. *)
Class WeightMeter (M Wt : Type) := {
  remaining_any_lt : M -> Wt -> bool;
  meter_consume : M -> Wt -> M;
  meter_try_consume : M -> Wt -> option M;
}.

Class WeightMeterLaws (M Wt : Type) `{!WeightMeter M Wt} : Prop := {
  try_consume_covered (meter : M) (w : Wt) :
    remaining_any_lt meter w = false -> is_Some (meter_try_consume meter w);
}.

Inductive SteppedMigrationError (Wt : Type) := InsufficientWeight (required : Wt).
Arguments InsufficientWeight {Wt}.

Section stepped.
Context {AccountId Value M Wt Env : Type} `{Countable AccountId, !StorageIter AccountId Value}.
(** The test at the head of the loop, what an entry costs after it, the new
    value of an entry ([None] leaves it alone), and the test and the error
    before the loop. *)
Context (enter : M -> option M) (leave : M -> Value -> M) (update : Env -> Value -> option Value).
Context (enough : M -> bool) (required : Wt).

Abbreviation Map := (gmap AccountId Value).

(** [None] is out of fuel. *)
Fixpoint step_loop (fuel : nat) (env : Env) (cursor : option AccountId) (meter : M) (m : Map)
    : option (option AccountId * M * Map) :=
  match fuel with
  | O => None
  | S fuel =>
      match enter meter with
      | None => Some (cursor, meter, m)
      | Some meter =>
          match storage_next cursor m with
          | Some (last_key, v) =>
              step_loop fuel env (Some last_key) (leave meter v)
                (match update env v with Some v' => <[last_key := v']> m | None => m end)
          | None => Some (None, meter, m)
          end
      end
  end.

(** [SteppedMigration::step], with a round for each entry and one more. *)
Definition migration_step (env : Env) (cursor : option AccountId) (meter : M) (m : Map)
    : option (Result (option AccountId * M * Map) (SteppedMigrationError Wt)) :=
  if enough meter then Ok <$> step_loop (S (size m)) env cursor meter m
  else Some (Err (InsufficientWeight required)).

(** The framework calls [step] in one block after the other, with the cursor
    it got, until there is none. *)
Inductive Progress :=
| Pending (cursor : option AccountId) (m : Map)
| Complete (m : Map)
| Failed.

Fixpoint run_steps (blocks : list (M * Env)) (cursor : option AccountId) (m : Map) : Progress :=
  match blocks with
  | [] => Pending cursor m
  | (meter, env) :: blocks =>
      match migration_step env cursor meter m with
      | Some (Ok (Some c, _, m)) => run_steps blocks (Some c) m
      | Some (Ok (None, _, m)) => Complete m
      | _ => Failed
      end
  end.

(** ** Progress *)

#[global] Instance after_dec (c : option AccountId) k : Decision (after Value c k).
Proof. destruct c; unfold after; apply _. Defined.

Definition updated (env : Env) (v : Value) : Value := default v (update env v).

Lemma write_updated env k v (m : Map) :
  m !! k = Some v ->
  match update env v with Some v' => <[k := v']> m | None => m end = <[k := updated env v]> m.
Proof. intros Hk. unfold updated. destruct (update env v); simpl; [done|by rewrite insert_id]. Qed.

(** The keys that the cursor has not passed. *)
Definition unvisited (c : option AccountId) (m : Map) : nat :=
  length (filter (fun k => after Value c k) (elements (dom m))).

(** What is left of the original [m0] and what has been rewritten. *)
Definition visited (envs : list Env) (c : option AccountId) (m0 m : Map) : Prop :=
  forall k, if decide (after Value c k) then m !! k = m0 !! k
            else exists e, e ∈ envs /\ m !! k = updated e <$> m0 !! k.

Lemma visited_start envs (m : Map) : visited envs None m m.
Proof. intros k. by rewrite decide_True by done. Qed.

Lemma unvisited_le (c : option AccountId) (m : Map) : (unvisited c m <= size m)%nat.
Proof.
  unfold unvisited. rewrite <- size_dom. unfold size, set_size. simpl. apply length_filter.
Qed.

Lemma after_trans (c : option AccountId) k k' :
  after Value c k -> after Value (Some k) k' -> after Value c k'.
Proof. destruct c; unfold after; intros; [lia|done]. Qed.

Context `{!StorageIterLaws AccountId Value}.

Lemma next_unvisited (c : option AccountId) (m : Map) k v v' :
  storage_next c m = Some (k, v) ->
  (unvisited (Some k) (<[k := v']> m) < unvisited c m)%nat.
Proof.
  intros Hn. apply storage_next_some in Hn as (Hk & Hafter & _).
  unfold unvisited. rewrite dom_insert_lookup_L by (by exists v).
  assert (Hin : k ∈ elements (dom m)) by (apply elem_of_elements, elem_of_dom; by exists v).
  apply list_elem_of_split in Hin as (l1 & l2 & ->).
  assert (Hle : forall l, (length (filter (fun x => after Value (Some k) x) l) <=
                      length (filter (fun x => after Value c x) l))%nat).
  { intros l. induction l as [|x l IH]; [done|]. rewrite !filter_cons.
    destruct (decide (after _ (Some k) x)) as [Hx|Hx].
    - rewrite decide_True by (by eapply after_trans). simpl. lia.
    - destruct (decide _); simpl; lia. }
  rewrite !filter_app, !length_app, !filter_cons, (decide_True _ _ Hafter).
  rewrite decide_False by (unfold after; lia). simpl.
  pose proof (Hle l1). pose proof (Hle l2). lia.
Qed.

Lemma next_visited envs e (c : option AccountId) (m0 m : Map) k v :
  e ∈ envs -> visited envs c m0 m -> storage_next c m = Some (k, v) ->
  visited envs (Some k) m0 (<[k := updated e v]> m).
Proof.
  intros He Hv Hn. apply storage_next_some in Hn as (Hk & Hafter & Hmin). intros x.
  destruct (decide (k = x)) as [<-|Hne].
  - rewrite decide_False by (unfold after; lia). exists e. split; [done|]. rewrite lookup_insert_eq.
    specialize (Hv k). rewrite decide_True in Hv by done. by rewrite <- Hv, Hk.
  - rewrite lookup_insert_ne by done. specialize (Hv x).
    destruct (decide (after _ (Some k) x)) as [Hx|Hx].
    { by rewrite decide_True in Hv by (by eapply after_trans). }
    destruct (decide (after _ c x)) as [Hcx|Hcx]; [|done]. rewrite Hv. exists e. split; [done|].
    destruct (m0 !! x) as [w|] eqn:Hw; [|done]. exfalso. apply Hx. unfold after.
    pose proof (Hmin x (ex_intro _ w Hv) Hcx).
    assert (hashed_key_for (Value := Value) k <> hashed_key_for (Value := Value) x)
      by (by intros ?%hashed_key_inj). lia.
Qed.

Lemma step_loop_returns fuel e c meter (m : Map) :
  (unvisited c m < fuel)%nat -> is_Some (step_loop fuel e c meter m).
Proof.
  revert c meter m. induction fuel as [|fuel IH]; intros c meter m Hf; [lia|].
  simpl. destruct (enter meter); [|done].
  destruct (storage_next c m) as [[k v]|] eqn:Hn; [|done].
  rewrite write_updated by (by apply storage_next_some in Hn as []).
  apply IH. pose proof (next_unvisited c m k v (updated e v) Hn). lia.
Qed.

(** The loop ends; it stops at a later cursor, or it has rewritten every
    entry. *)
Lemma step_loop_spec envs e m0 fuel c meter (m : Map) :
  e ∈ envs -> visited envs c m0 m -> (unvisited c m < fuel)%nat ->
  exists c' meter' m', step_loop fuel e c meter m = Some (c', meter', m') /\
    match c' with
    | Some _ => visited envs c' m0 m' /\ (unvisited c' m' <= unvisited c m)%nat /\
        (is_Some (enter meter) -> (unvisited c' m' < unvisited c m)%nat)
    | None => (forall k, exists e, e ∈ envs /\ m' !! k = updated e <$> m0 !! k) \/
        c = None /\ enter meter = None
    end.
Proof.
  intros He. revert c meter m. induction fuel as [|fuel IH]; intros c meter m Hv Hf; [lia|].
  simpl. destruct (enter meter) as [meter1|] eqn:Hent.
  2:{ eexists _, _, _. split; [done|]. destruct c; [|by right]. split_and!; [done..|by intros []]. }
  destruct (storage_next c m) as [[k v]|] eqn:Hn.
  - rewrite write_updated by (by apply storage_next_some in Hn as []).
    pose proof (next_unvisited c m k v (updated e v) Hn) as Hlt.
    destruct (IH (Some k) (leave meter1 v) (<[k := updated e v]> m))
      as (c' & meter' & m' & Hl & Hspec); [by apply (next_visited _ _ c)|lia|].
    exists c', meter', m'. split; [done|]. destruct c'.
    + destruct Hspec as (? & ? & _). split_and!; [done|lia|lia].
    + destruct Hspec as [?|[? _]]; [by left|done].
  - eexists None, _, _. split; [done|]. left. intros k. specialize (Hv k).
    destruct (decide (after _ c k)) as [Hk|Hk]; [|done]. exists e. split; [done|].
    destruct (m !! k) as [v|] eqn:Hm; [|by rewrite <- Hv].
    by destruct (storage_next_none c m Hn k (ex_intro _ v Hm)).
Qed.

(** A step returns. *)
Lemma step_returns e c meter (m : Map) :
  exists r, migration_step e c meter m = Some r /\
    (r = Err (InsufficientWeight required) <-> enough meter = false).
Proof.
  unfold migration_step. destruct (enough meter); [|by eexists].
  destruct (step_loop_returns (S (size m)) e c meter m) as [r ->];
    [pose proof (unvisited_le c m); lia|].
  eexists. split; done.
Qed.

Context (enough_enter : forall meter, enough meter = true -> is_Some (enter meter)).

Lemma run_steps_spec done_ todo c (m0 m : Map) :
  visited (done_ ++ todo.*2) c m0 m ->
  match run_steps todo c m with
  | Complete m' => forall k, exists e, e ∈ done_ ++ todo.*2 /\ m' !! k = updated e <$> m0 !! k
  | Pending c' m' => (unvisited c' m' + length todo <= unvisited c m)%nat /\
      visited (done_ ++ todo.*2) c' m0 m'
  | Failed => Exists (fun x => enough x.1 = false) todo
  end.
Proof.
  revert done_ c m. induction todo as [|[meter e] todo IH]; intros done_ c m Hv.
  { simpl in *. split; [lia|done]. }
  simpl in *. unfold migration_step. destruct (enough meter) eqn:Hm; [|by left].
  destruct (step_loop_spec (done_ ++ e :: todo.*2) e m0 (S (size m)) c meter m)
    as (c' & meter' & m' & -> & Hspec); [set_solver|done|pose proof (unvisited_le c m); lia|].
  cbn [fmap option_fmap option_map]. destruct c' as [c'|].
  - destruct Hspec as (Hv' & _ & Hlt). specialize (Hlt (enough_enter _ Hm)).
    specialize (IH (done_ ++ [e]) (Some c') m'). rewrite <- !app_assoc in IH. simpl in IH.
    specialize (IH Hv'). destruct (run_steps todo (Some c') m'); [|done|by right].
    destruct IH. split; [lia|done].
  - destruct Hspec as [Hall|[_ Hbad]]; [done|]. apply enough_enter in Hm as [? ?]. congruence.
Qed.

(** With weight for one entry in every block and one block more than there are
    entries, the steps make a single pass over the map. *)
Lemma run_steps_complete (blocks : list (M * Env)) (m : Map) :
  Forall (fun x => enough x.1 = true) blocks -> (size m < length blocks)%nat ->
  exists m', run_steps blocks None m = Complete m' /\
    (forall k, exists e, e ∈ blocks.*2 /\ m' !! k = updated e <$> m !! k) /\
    (forall e, Forall (fun x => x.2 = e) blocks -> m' = updated e <$> m).
Proof.
  intros Hw Hlen. pose proof (run_steps_spec [] blocks None m m (visited_start _ m)) as Hs.
  pose proof (unvisited_le None m). destruct (run_steps blocks None m) as [c' m'|m'|]; [lia| |].
  2:{ rewrite Exists_exists in Hs. destruct Hs as (x & Hx & Hbad). rewrite Forall_forall in Hw.
      specialize (Hw x Hx). congruence. }
  exists m'. split; [done|]. split; [done|]. intros e He. apply map_eq. intros k.
  destruct (Hs k) as (e' & Hin & ->). rewrite lookup_fmap. f_equal.
  apply list_elem_of_fmap in Hin as (x & -> & Hx). rewrite Forall_forall in He. by rewrite (He x Hx).
Qed.
End stepped.
Arguments Pending {AccountId Value EqDecision0 H}.
Arguments Complete {AccountId Value EqDecision0 H}.
Arguments Failed {AccountId Value EqDecision0 H}.

(** ** An iterator for concrete maps and a meter

    Accounts are numbers, visited from the largest down; weights are
    numbers. *)
Definition ToyMeter : WeightMeter Z Z := {|
  remaining_any_lt m w := m <? w;
  meter_consume m w := m - w;
  meter_try_consume m w := if w <=? m then Some (m - w) else None;
|}.
Lemma ToyMeterLaws : WeightMeterLaws (WeightMeter0 := ToyMeter) Z Z.
Proof. split. intros meter w. simpl. destruct (Z.leb_spec w meter); [done|lia]. Qed.

Section example.
Context {Value : Type}.

Definition later (c : option Z) (k : Z) : bool :=
  match c with Some c => - c <? - k | None => true end.

Definition first_of (c : option Z) (kv : Z * Value) (best : option (Z * Value)) :=
  if later c kv.1 then
    match best with
    | Some b => if - kv.1 <=? - b.1 then Some kv else best
    | None => Some kv
    end
  else best.

Definition ToyIter : StorageIter Z Value := {|
  hashed_key_for a := - a;
  storage_next c m := foldr (first_of c) None (map_to_list m);
|}.
#[local] Existing Instance ToyIter.

Lemma later_after c k : later c k = true <-> after Value c k.
Proof. destruct c; unfold after; simpl; [lia|done]. Qed.

Lemma first_of_spec c l :
  match foldr (first_of c) None l with
  | Some kv => kv ∈ l /\ later c kv.1 = true /\
      forall x, x ∈ l -> later c x.1 = true -> - kv.1 <= - x.1
  | None => forall x, x ∈ l -> later c x.1 = false
  end.
Proof.
  induction l as [|y l IH]; simpl; [by intros x ?%not_elem_of_nil|].
  unfold first_of at 1. destruct (later c y.1) eqn:Hy; destruct (foldr (first_of c) None l) as [b|].
  - destruct IH as (Hb & Hlb & Hmin). destruct (Z.leb_spec (- y.1) (- b.1)).
    + split; [apply list_elem_of_here|]. split; [done|]. intros x [->|Hx]%elem_of_cons Hl; [lia|].
      specialize (Hmin x Hx Hl). lia.
    + split; [by apply list_elem_of_further|]. split; [done|].
      intros x [->|Hx]%elem_of_cons Hl; [lia|by auto].
  - split; [apply list_elem_of_here|]. split; [done|]. intros x [->|Hx]%elem_of_cons Hl; [lia|].
    rewrite IH in Hl by done. done.
  - destruct IH as (Hb & Hlb & Hmin). split; [by apply list_elem_of_further|]. split; [done|].
    intros x [->|Hx]%elem_of_cons Hl; [congruence|by auto].
  - intros x [->|Hx]%elem_of_cons; auto.
Qed.

Lemma ToyIterLaws : StorageIterLaws Z Value.
Proof.
  split.
  - simpl. intros a b ?. lia.
  - intros c m k v Hn. simpl in Hn. pose proof (first_of_spec c (map_to_list m)) as Hs.
    rewrite Hn in Hs. destruct Hs as (Hin & Hl & Hmin). apply elem_of_map_to_list in Hin.
    split; [done|]. split; [by apply later_after|]. intros k' [v' Hk'] Ha. simpl.
    apply (Hmin (k', v')); [by apply elem_of_map_to_list|by apply later_after].
  - intros c m Hn k [v Hk] Ha. simpl in Hn. pose proof (first_of_spec c (map_to_list m)) as Hs.
    rewrite Hn in Hs. specialize (Hs (k, v)). rewrite elem_of_map_to_list in Hs.
    apply later_after in Ha. specialize (Hs Hk). simpl in Hs. congruence.
Qed.
End example.

(** * The multi-block migration of vesting schedules

    [pallets/vesting-mbm/src/lib.rs]: every account's vesting schedules are
    rewritten for a block number that advances twice as fast.  The loop is that
    of [SteppedMigration]; the schedules and the weight meter belong to the
    framework. *)

(** [VestingInfo] of the vesting pallet. *)
Class VestingInfoOps (VestingInfo : Type) := {
  vesting_new : Z -> Z -> Z -> VestingInfo;
  locked_at : VestingInfo -> Z -> Z;
  per_block : VestingInfo -> Z;
  starting_block : VestingInfo -> Z;
}.

(** A new schedule has the start it was given and locks everything until
    then. *)
Class VestingInfoLaws (VestingInfo : Type) `{!VestingInfoOps VestingInfo} : Prop := {
  starting_block_new l p b : starting_block (vesting_new l p b : VestingInfo) = b;
  per_block_new l p b : per_block (vesting_new l p b : VestingInfo) = p;
  locked_before_start l p b n : n <= b -> locked_at (vesting_new l p b : VestingInfo) n = l;
}.

Section migration.
Context {AccountId VestingInfo M Wt : Type} `{Countable AccountId}.
Context `{!StorageIter AccountId (list VestingInfo), !VestingInfoOps VestingInfo}.
Context `{!WeightMeter M Wt}.
(** [W::step], [T::MAX_VESTING_SCHEDULES] and the product of
    [Percent::from_percent] and a balance. *)
Context (step_weight : Z -> Wt) (MAX_VESTING_SCHEDULES : Z) (percent_mul : Z -> Z -> Z).

Abbreviation Vesting := (gmap AccountId (list VestingInfo)).

(** What is read before the loop: the block numbers of the chain and of the
    provider that vesting follows from now on. *)
Record Blocks := mkBlocks { para_block_number : Z; current_block_number : Z }.

(** The body of the inner loop. *)
Definition migrate_schedule (b : Blocks) (schedule : VestingInfo) : VestingInfo :=
  let locked := locked_at schedule (para_block_number b) in
  let per_block := percent_mul 50 (per_block schedule) in
  let remaining_blocks :=
    sat_mul u32_max (sat_sub (starting_block schedule) (para_block_number b)) 2 in
  let start_block := sat_add u32_max (current_block_number b) remaining_blocks in
  vesting_new locked per_block start_block.

Definition migrate_entry (b : Blocks) (schedules : list VestingInfo) : list VestingInfo :=
  migrate_schedule b <$> schedules.

Definition vesting_required : Wt := step_weight MAX_VESTING_SCHEDULES.

(** The loop stops when less than the largest step remains, and an entry
    consumes the weight of its own size. *)
Definition vesting_enough (meter : M) : bool := negb (remaining_any_lt meter vesting_required).
Definition vesting_enter (meter : M) : option M :=
  if remaining_any_lt meter vesting_required then None else Some meter.
Definition vesting_leave (meter : M) (schedules : list VestingInfo) : M :=
  meter_consume meter (step_weight (saturated_into u32_max (Z.of_nat (length schedules)))).
Definition vesting_update (b : Blocks) (schedules : list VestingInfo) : option (list VestingInfo) :=
  Some (migrate_entry b schedules).

(** [LazyMigration::step]. *)
Definition vesting_step (b : Blocks) (cursor : option AccountId) (meter : M) (m : Vesting) :=
  migration_step vesting_enter vesting_leave vesting_update vesting_enough vesting_required
    b cursor meter m.

Definition vesting_run (blocks : list (M * Blocks)) (m : Vesting) : Progress :=
  run_steps vesting_enter vesting_leave vesting_update vesting_enough vesting_required
    blocks None m.

Section laws.
Context `{!StorageIterLaws AccountId (list VestingInfo)}.

(** C27: a step always returns: it refuses when there is too little weight for
    one account, and otherwise its loop ends within a round for each account
    and one more. *)
Theorem vesting_step_returns (b : Blocks) (c : option AccountId) (meter : M) (m : Vesting) :
  exists r, vesting_step b c meter m = Some r /\
    (r = Err (InsufficientWeight vesting_required) <->
     remaining_any_lt meter vesting_required = true).
Proof.
  destruct (step_returns vesting_enter vesting_leave vesting_update vesting_enough
    vesting_required b c meter m) as (r & Hr & Hiff).
  exists r. split; [done|]. rewrite Hiff. unfold vesting_enough. by rewrite negb_false_iff.
Qed.

Lemma vesting_enough_enter (meter : M) : vesting_enough meter = true -> is_Some (vesting_enter meter).
Proof. unfold vesting_enough, vesting_enter. by destruct (remaining_any_lt _ _). Qed.

(** C28: when every block has weight for one account, one block more than there
    are accounts completes the migration, and the result is a single pass over
    the map: every account keeps its schedules, each rewritten exactly once,
    with the block numbers of one of the steps. *)
Theorem vesting_migration_is_one_pass (blocks : list (M * Blocks)) (m : Vesting) :
  Forall (fun x => remaining_any_lt x.1 vesting_required = false) blocks ->
  (size m < length blocks)%nat ->
  exists m', vesting_run blocks m = Complete m' /\
    (forall k, exists b, b ∈ blocks.*2 /\ m' !! k = migrate_entry b <$> m !! k) /\
    (forall b, Forall (fun x => x.2 = b) blocks -> m' = migrate_entry b <$> m).
Proof.
  intros Hw Hlen. apply run_steps_complete; [apply _|apply vesting_enough_enter| |done].
  eapply Forall_impl; [done|]. intros x Hx. unfold vesting_enough. by rewrite Hx.
Qed.
End laws.

(** At the switch no schedule unlocks anything: what it locks at the new
    block number is what it locked at the old one, nothing of it vests before
    twice the blocks it still had to wait, and it vests at half the rate. *)
Theorem migrate_schedule_keeps_locked `{!VestingInfoLaws VestingInfo} (b : Blocks) (v : VestingInfo) :
  0 <= para_block_number b -> 0 <= starting_block v <= u32_max -> 0 <= current_block_number b ->
  current_block_number b + 2 * starting_block v <= u32_max ->
  let v' := migrate_schedule b v in
  per_block v' = percent_mul 50 (per_block v) /\
  starting_block v' =
    current_block_number b + 2 * Z.max 0 (starting_block v - para_block_number b) /\
  forall n, n <= starting_block v' -> locked_at v' n = locked_at v (para_block_number b).
Proof.
  intros Hp Hs Hc Hsum v'. unfold v', migrate_schedule.
  rewrite per_block_new, starting_block_new. split; [done|]. split; [ulia|].
  intros n Hn. by apply locked_before_start.
Qed.
End migration.

(** ** Witnesses

    A schedule is its three numbers; a meter counts accounts. *)
Section example.
Abbreviation Schedule := (Z * Z * Z)%type.

#[local] Existing Instances ToyIter ToyIterLaws.

Definition ToyVesting : VestingInfoOps Schedule := {|
  vesting_new l p b := (l, p, b);
  locked_at v n := if n <=? v.2 then v.1.1 else Z.max 0 (v.1.1 - v.1.2 * (n - v.2));
  per_block v := v.1.2;
  starting_block v := v.2;
|}.
Existing Instance ToyVesting.
Lemma ToyVestingLaws : VestingInfoLaws Schedule.
Proof. split; try done. intros l p b n Hn. simpl. by rewrite (proj2 (Z.leb_le n b)). Qed.
Existing Instance ToyVestingLaws.

#[local] Existing Instance ToyMeter.

Definition one_each (x : Z) : Z := 1.
Definition halve (p x : Z) : Z := p * x / 100.
Definition toy_blocks : Blocks := mkBlocks 100 1000.
Definition toy_vesting : gmap Z (list Schedule) :=
  {[ 1 := [(500, 10, 60)]; 2 := [(900, 6, 130); (80, 1, 0)]; 3 := [] ]}.

Lemma vesting_step_returns_witness :
  exists r, vesting_step one_each 28 halve toy_blocks (Some 2) 5 toy_vesting = Some r.
Proof.
  destruct (vesting_step_returns one_each 28 halve toy_blocks (Some 2) 5 toy_vesting)
    as (r & Hr & _). by exists r.
Defined.

(** Two accounts in the first block, the last one in the second. *)
Lemma vesting_migration_is_one_pass_witness :
  vesting_run one_each 28 halve [(2, toy_blocks); (3, toy_blocks); (1, toy_blocks); (1, toy_blocks)]
    toy_vesting = Complete (migrate_entry halve toy_blocks <$> toy_vesting).
Proof.
  destruct (vesting_migration_is_one_pass one_each 28 halve
    [(2, toy_blocks); (3, toy_blocks); (1, toy_blocks); (1, toy_blocks)] toy_vesting)
    as (m' & Hm & _ & Heq); [by repeat constructor|by vm_compute; lia|].
  rewrite Hm. f_equal. apply Heq. by repeat constructor.
Defined.

Lemma migrate_schedule_keeps_locked_witness :
  migrate_schedule halve toy_blocks (900, 6, 130) = (900, 3, 1060) /\
  locked_at (migrate_schedule halve toy_blocks (500, 10, 60)) 1000 = 100.
Proof.
  split; [by vm_compute|].
  destruct (migrate_schedule_keeps_locked halve toy_blocks (500, 10, 60)) as (_ & Hs & Hl);
    [by vm_compute..|]. rewrite Hl; [by vm_compute|]. rewrite Hs. by vm_compute.
Defined.
End example.
