(* ===== verification/EthereumChecked.v ===== *)
(** * The checked Ethereum transaction pallet

    [pallets/ethereum-checked/src/lib.rs] and
    [primitives/src/ethereum_checked.rs]: a remote call whose origin has been
    checked elsewhere is turned into an Ethereum transaction with a dummy
    signature and a nonce of the pallet's own, validated and executed.
    Validation, execution and the gas mapping belong to the EVM crates. *)

From S2P Require Import Prelude Frame UnifiedAccounts.

Abbreviation u256_max := (2 ^ 256 - 1).

(** ** Transactions *)

Inductive TransactionAction := Call (target : EvmAddress) | Create.

Record AccessListItem := mkAccessListItem { item_address : EvmAddress; storage_keys : list bytes }.

Record EIP1559Transaction := mkEIP1559 {
  tx_chain_id : Z;
  tx_nonce : Z;
  max_priority_fee_per_gas : Z;
  max_fee_per_gas : Z;
  tx_gas_limit : Z;
  tx_action : TransactionAction;
  tx_value : Z;
  tx_input : bytes;
  access_list : list AccessListItem;
  odd_y_parity : bool;
  tx_r : bytes;
  tx_s : bytes;
}.

Record CheckedEthereumTx := mkCheckedTx {
  gas_limit : Z;
  target : EvmAddress;
  value : Z;
  input : bytes;
  maybe_access_list : option (list (EvmAddress * list bytes));
}.

(** [dummy_rs]: a word of value one. *)
Definition dummy_rs : bytes := be_bytes 32 1.

Definition into_ethereum_tx (tx : CheckedEthereumTx) (nonce chain_id : Z) : EIP1559Transaction :=
  let access_list :=
    match maybe_access_list tx with
    | Some list => (fun i => mkAccessListItem i.1 i.2) <$> list
    | None => []
    end in
  mkEIP1559 chain_id nonce 0 0 (gas_limit tx) (Call (target tx)) (value tx) (input tx)
    access_list true dummy_rs dummy_rs.

(** ** The pallet *)

Inductive RawOrigin (AccountId : Type) := XcmEthereumTx (account_id : AccountId).
Arguments XcmEthereumTx {AccountId}.

Inductive CheckedEthereumTxKind := Xcm.

Class GasWeightMapping := {
  gas_to_weight : Z -> bool -> Weight;
  weight_to_gas : Weight -> Z;
}.

Record PostDispatchInfo := mkPostInfo { actual_weight : option Weight }.

(** What a call reports; the gas of a run that was not applied is the limit. *)
Record CallInfo := mkCallInfo { call_value : bytes; used_gas : Z }.
Inductive CallOrCreateInfo := CallInfo_ (info : CallInfo) | CreateInfo.

Inductive CheckedTxError (E : Type) :=
| FailedToValidate (post_info : PostDispatchInfo)
| ApplyFailed (e : E)
| Unreachable
| CheckedBadOrigin.
Arguments FailedToValidate {E}.
Arguments ApplyFailed {E}.
Arguments Unreachable {E}.
Arguments CheckedBadOrigin {E}.

(** What the validation is given: the block gas limit, the base fee, the chain
    and the transaction with its weight limits. *)
Record CheckEvmTransaction := mkCheckEvm {
  check_block_gas_limit : Z;
  check_base_fee : Z;
  check_chain_id : Z;
  check_tx : EIP1559Transaction;
  check_weight_limit : option Weight;
  check_proof_size_base_cost : option Z;
}.

(** [CheckEvmTransaction::validate_common] and [ValidatedTransaction::apply]. *)
Class EvmValidation := { validate_common : CheckEvmTransaction -> bool }.
Class EvmExecution (W E : Type) := {
  evm_apply : EvmAddress -> EIP1559Transaction -> W ->
    Result (PostDispatchInfo * CallOrCreateInfo * W) E;
}.

(** Executing a call reports a call. *)
Class EvmExecutionLaws (W E : Type) `{!EvmExecution W E} : Prop := {
  apply_call source tx w post info w' t :
    tx_action tx = Call t -> evm_apply source tx w = Ok (post, info, w') -> info <> CreateInfo;
}.

Record CheckedConfig := mkCheckedConfig {
  checked_chain_id : Z;
  ReservedXcmpWeight : Weight;
  transact_without_apply_weight : Weight;
  db_write_weight : Weight;
}.

Record CheckedState (W : Type) := mkCheckedState { Nonce : Z; evm_world : W }.
Arguments mkCheckedState {W}.
Arguments Nonce {W}.
Arguments evm_world {W}.

Section pallet.
Context {AccountId Origin M W E : Type}.
Context `{!GasWeightMapping, !EvmValidation, !EvmExecution W E, !UnifiedAddressMapper AccountId M} (m : M).
Context (origin_into : Origin -> option (RawOrigin AccountId)) (cfg : CheckedConfig).

Abbreviation St := (CheckedState W).

(** [EnsureXcmEthereumTx::try_origin]. *)
Definition try_origin (o : Origin) : option AccountId :=
  (fun o => match o with XcmEthereumTx account_id => account_id end) <$> origin_into o.

Definition block_gas_limit (tx_kind : CheckedEthereumTxKind) : Z :=
  let weight_limit := match tx_kind with Xcm => ReservedXcmpWeight cfg end in
  weight_to_gas weight_limit.

(** The limits that the gas limit of the transaction stands for. *)
Definition weight_limits (tx : EIP1559Transaction) : option Weight * option Z :=
  let weight_limit := gas_to_weight (saturated_into u64_max (tx_gas_limit tx)) true in
  if 0 <? proof_size weight_limit
  then (Some weight_limit, Some (proof_size (transact_without_apply_weight cfg)))
  else (None, None).

(** What [validate_common] is called on. *)
Definition evm_check (tx : EIP1559Transaction) (tx_kind : CheckedEthereumTxKind)
    : CheckEvmTransaction :=
  let '(weight_limit, proof_size_base_cost) := weight_limits tx in
  mkCheckEvm (block_gas_limit tx_kind) 0 (checked_chain_id cfg) tx weight_limit proof_size_base_cost.

Definition do_transact (source : EvmAddress) (checked_tx : CheckedEthereumTx)
    (tx_kind : CheckedEthereumTxKind) (skip_apply : bool) (s : St)
    : Result (PostDispatchInfo * CallInfo * St) (CheckedTxError E) :=
  let nonce := Nonce s in
  let tx := into_ethereum_tx checked_tx (Nonce s) (checked_chain_id cfg) in
  ensure! validate_common (evm_check tx tx_kind) else
    FailedToValidate (mkPostInfo (Some
      (weight_saturating_sub (transact_without_apply_weight cfg) (db_write_weight cfg)))) in
  let s := mkCheckedState (sat_add u256_max nonce 1) (evm_world s) in
  if skip_apply then
    Ok (mkPostInfo (Some (transact_without_apply_weight cfg)),
        mkCallInfo [] (gas_limit checked_tx), s)
  else
    let! (post_info, apply_info, w) := map_err ApplyFailed (evm_apply source tx (evm_world s)) in
    match apply_info with
    | CallInfo_ info => Ok (post_info, info, mkCheckedState (Nonce s) w)
    | CreateInfo => Err Unreachable
    end.

Definition transact (origin : Origin) (tx : CheckedEthereumTx) (s : St)
    : Result (PostDispatchInfo * St) (CheckedTxError E) :=
  let! source := ok_or (try_origin origin) CheckedBadOrigin in
  let! (post_info, _, s) :=
    do_transact (into_address (to_h160_or_default m source)) tx Xcm false s in
  Ok (post_info, s).

(** ** Executions

    A call that fails leaves no trace. *)
Fixpoint transact_all (calls : list (Origin * CheckedEthereumTx)) (s : St) : St :=
  match calls with
  | [] => s
  | (o, tx) :: calls =>
      match transact o tx s with
      | Ok (_, s') => transact_all calls s'
      | Err _ => transact_all calls s
      end
  end.

(** The address a call is executed from. *)
Definition source_of (o : Origin) : option EvmAddress :=
  (fun a => into_address (to_h160_or_default m a)) <$> try_origin o.

(** What [transact] does, on success and on each error: it succeeds only for
    the remote-call origin, after validation with the reserved block gas limit
    and no base fee, executes one call (never a creation) from the address of
    the caller with the pallet's nonce and moves the nonce up by one. *)
Theorem transact_outcome (o : Origin) (tx : CheckedEthereumTx) (s : St) :
  let eth := into_ethereum_tx tx (Nonce s) (checked_chain_id cfg) in
  let check := evm_check eth Xcm in
  tx_action eth = Call (target tx) /\ check_block_gas_limit check = weight_to_gas (ReservedXcmpWeight cfg) /\
  check_base_fee check = 0 /\
  match transact o tx s with
  | Ok (post, s') => exists a info,
      origin_into o = Some (XcmEthereumTx a) /\ validate_common check = true /\
      evm_apply (into_address (to_h160_or_default m a)) eth (evm_world s) =
        Ok (post, CallInfo_ info, evm_world s') /\
      Nonce s' = Z.min u256_max (Nonce s + 1)
  | Err CheckedBadOrigin => origin_into o = None
  | Err (FailedToValidate _) => validate_common check = false
  | Err (ApplyFailed e) => exists a, origin_into o = Some (XcmEthereumTx a) /\
      evm_apply (into_address (to_h160_or_default m a)) eth (evm_world s) = Err e
  | Err Unreachable => exists a post w, origin_into o = Some (XcmEthereumTx a) /\
      evm_apply (into_address (to_h160_or_default m a)) eth (evm_world s) = Ok (post, CreateInfo, w)
  end.
Proof.
  intros eth check. split; [done|]. unfold check at 1 2, evm_check.
  destruct (weight_limits eth) as [wl ps] eqn:Hwl. split; [done|]. split; [done|].
  unfold transact, try_origin, do_transact. destruct (origin_into o) as [[a]|]; [|done].
  cbn [fmap option_fmap option_map ok_or]. fold eth. fold check.
  destruct (validate_common check) eqn:Hv; [|done]. cbn [evm_world].
  destruct (evm_apply _ eth (evm_world s)) as [[[post info] w]|e] eqn:Ha; cbn [map_err];
    [|by exists a]. destruct info as [info|]; cbn [Nonce]; [|by exists a, post, w].
  exists a, info. by split_and!.
Qed.

(** The [unreachable!] at the end of [do_transact] is never reached. *)
Theorem never_creates `{!EvmExecutionLaws W E} (o : Origin) (tx : CheckedEthereumTx) (s : St) :
  transact o tx s <> Err Unreachable.
Proof.
  unfold transact, do_transact. destruct (ok_or _ _) as [a|e] eqn:Ho.
  - cbv zeta. destruct (validate_common _); [|done]. cbn [evm_world].
    destruct (evm_apply _ _ _) as [[[post info] w]|e] eqn:Ha; simpl; [|done].
    destruct info; [done|]. by eapply apply_call in Ha.
  - unfold ok_or in Ho. destruct (try_origin o); [done|]. by injection Ho as <-.
Qed.
End pallet.

(** ** The transactions that are executed

    The pallet runs over any execution of the EVM.  Run over one that keeps a
    log, it leaves in the log what [do_transact] hands to the execution, in
    order; the log changes nothing else. *)
Section logging.
Context {W E : Type} `{!EvmExecution W E}.

Abbreviation Log := (list (EvmAddress * EIP1559Transaction)).

#[export] Instance LoggedExecution : EvmExecution (W * Log) E := {|
  evm_apply source tx w :=
    let! (post_info, info, w') := evm_apply source tx w.1 in
    Ok (post_info, info, (w', w.2 ++ [(source, tx)]));
|}.

Definition with_log (s : CheckedState W) (log : Log) : CheckedState (W * Log) :=
  mkCheckedState (Nonce s) (evm_world s, log).
Definition without_log (s : CheckedState (W * Log)) : CheckedState W :=
  mkCheckedState (Nonce s) (evm_world s).1.
Definition executed (s : CheckedState (W * Log)) : Log := (evm_world s).2.

Context {AccountId Origin M : Type}.
Context `{!GasWeightMapping, !EvmValidation, !UnifiedAddressMapper AccountId M} (m : M).
Context (origin_into : Origin -> option (RawOrigin AccountId)) (cfg : CheckedConfig).

(** One call: refused as without the log, or one more entry. *)
Lemma transact_logged (o : Origin) (tx : CheckedEthereumTx) (s : CheckedState W) (log : Log) :
  transact m origin_into cfg o tx (with_log s log) =
  match transact m origin_into cfg o tx s with
  | Ok (post, s') =>
      Ok (post, with_log s' (log ++
        [(default [] (source_of m origin_into o), into_ethereum_tx tx (Nonce s) (checked_chain_id cfg))]))
  | Err e => Err e
  end.
Proof.
  unfold transact, do_transact, source_of, with_log. destruct (try_origin origin_into o) as [a|]; [|done].
  cbn [ok_or Nonce evm_world fst]. destruct (validate_common _); [|done].
  cbn [Nonce evm_world fst snd evm_apply LoggedExecution].
  destruct (evm_apply _ _ (evm_world s)) as [[[post info] w]|e]; cbn; [|done]. by destruct info.
Qed.

Lemma transact_nonce (o : Origin) (tx : CheckedEthereumTx) (s s' : CheckedState W) post :
  transact m origin_into cfg o tx s = Ok (post, s') -> Nonce s' = Z.min u256_max (Nonce s + 1).
Proof.
  intros Ht. pose proof (transact_outcome m origin_into cfg o tx s) as Ho. cbv zeta in Ho.
  rewrite Ht in Ho. by destruct Ho as (_ & _ & _ & a & info & _ & _ & _ & ?).
Qed.

(** Any number of calls: the log grows by the calls that succeeded, numbered
    from the nonce. *)
Lemma transact_all_logged (calls : list (Origin * CheckedEthereumTx)) (s : CheckedState W) (log : Log) :
  0 <= Nonce s -> Nonce s + Z.of_nat (length calls) <= u256_max ->
  let s' := transact_all m origin_into cfg calls (with_log s log) in
  exists succeeded, succeeded `sublist_of` calls /\
    without_log s' = transact_all m origin_into cfg calls s /\
    Nonce s' = Nonce s + Z.of_nat (length succeeded) /\
    executed s' = log ++ imap (fun i c => (default [] (source_of m origin_into c.1),
      into_ethereum_tx c.2 (Nonce s + Z.of_nat i) (checked_chain_id cfg))) succeeded.
Proof.
  cbv zeta. revert s log. induction calls as [|[o tx] calls IH]; intros s log Hn Hb; simpl in Hb |- *.
  { exists []. split_and!; [done| |simpl; lia|by rewrite app_nil_r]. by destruct s. }
  rewrite transact_logged. destruct (transact m origin_into cfg o tx s) as [[post s1]|e] eqn:Ht.
  - apply transact_nonce in Ht. rewrite Z.min_r in Ht by lia.
    edestruct (IH s1) as (sc & Hsub & Hw & Hns & Hex); [lia|lia|].
    exists ((o, tx) :: sc). split_and!; [by constructor|exact Hw|rewrite Hns; simpl; lia|].
    rewrite Hex, <- (assoc_L (++)). f_equal. simpl. rewrite Z.add_0_r. f_equal.
    apply imap_ext. intros i c _. simpl. do 2 f_equal. lia.
  - destruct (IH s log) as (sc & Hsub & Hrest); [lia|lia|].
    exists sc. split; [by constructor|exact Hrest].
Qed.

End logging.

(** ** Witnesses *)
Section example.
Definition ToyGas : GasWeightMapping :=
  {| gas_to_weight g _ := mkWeight g 0; weight_to_gas w := ref_time w |}.
Definition ToyValidation : EvmValidation :=
  {| validate_common c := tx_gas_limit (check_tx c) <=? check_block_gas_limit c |}.
(** Execution records the value paid to each target and refuses large ones. *)
Definition ToyExecution : EvmExecution (list (bytes * Z)) unit := {|
  evm_apply source tx w :=
    match tx_action tx with
    | Call t => if tx_value tx <=? 100
                then Ok (mkPostInfo None, CallInfo_ (mkCallInfo [] 21), w ++ [(t, tx_value tx)])
                else Err tt
    | Create => Ok (mkPostInfo None, CreateInfo, w)
    end;
|}.
Existing Instances ToyGas ToyValidation ToyExecution.
Lemma ToyExecutionLaws : EvmExecutionLaws (list (bytes * Z)) unit.
Proof.
  split. intros source tx w post info w' t Ht Ha. simpl in Ha. rewrite Ht in Ha.
  destruct (_ <=? _); [|done]. by injection Ha as _ <- _.
Qed.
Existing Instance ToyExecutionLaws.
Definition ToyMapper : UnifiedAddressMapper Z unit :=
  {| to_account_id _ _ := None; to_default_account_id _ _ := 0;
     to_h160 _ _ := None; to_default_h160 _ a := be_bytes 20 a |}.
Existing Instance ToyMapper.

Definition toy_checked : CheckedConfig :=
  mkCheckedConfig 592 (mkWeight 1000 0) (mkWeight 5 0) (mkWeight 1 0).
Definition toy_tx (v : Z) : CheckedEthereumTx := mkCheckedTx 500 [9] v [] None.
(** The second call is too large, the third has the wrong origin. *)
Definition toy_txs : list (Z * CheckedEthereumTx) :=
  [(1, toy_tx 10); (1, toy_tx 900); (0, toy_tx 10); (1, toy_tx 10)].
Definition toy_origin (o : Z) : option (RawOrigin Z) :=
  if o =? 0 then None else Some (XcmEthereumTx o).
Definition toy_evm : CheckedState (list (bytes * Z)) := mkCheckedState 7 [].


Lemma never_creates_witness :
  transact tt toy_origin toy_checked 1 (toy_tx 900) toy_evm <> Err Unreachable.
Proof. apply (never_creates tt toy_origin toy_checked). Defined.
End example.
