(* ===== verification/DAppMigration.v ===== *)
(** * Storage migrations of dApp staking

    [pallets/dapp-staking/src/migration.rs]: the change of the tier types
    ([v7] and [v8]), the lazy migration of the ledgers and the adjustment of
    the era for blocks that come twice as fast. *)

From S2P Require Import Prelude Frame Primitives Protocol StakeAmount EraInfo AccountLedger.
From S2P Require Import SingularStakingInfo ContractStakeAmount EraRewardSpan Tiers PalletState.
From S2P Require Import TierAssignment Invariant Reachability ExampleWorld SteppedMigration.

(** ** The ledgers *)

(** The body of the loop over the chunks: a chunk that is not unlocked yet
    waits twice as long. *)
Definition double_remaining (current_block_number : Z) (chunk : UnlockingChunk) : UnlockingChunk :=
  if unlock_block chunk <=? current_block_number then chunk
  else
    let remaining_blocks := sat_sub (unlock_block chunk) current_block_number in
    mkUnlockingChunk (amount chunk) (sat_add u32_max (unlock_block chunk) remaining_blocks).

(** A ledger without chunks is left alone. *)
Definition migrate_ledger (current_block_number : Z) (ledger : AccountLedger) : option AccountLedger :=
  match unlocking ledger with
  | [] => None
  | _ => Some (set_unlocking (double_remaining current_block_number <$> unlocking ledger) ledger)
  end.

Section lazy.
Context {AccountId M Wt : Type} `{Countable AccountId, !StorageIter AccountId AccountLedger}.
Context `{!WeightMeter M Wt} (required : Wt).

Abbreviation Ledgers := (gmap AccountId AccountLedger).

Definition ledger_enough (meter : M) : bool := negb (remaining_any_lt meter required).

(** [LazyMigration::step]; every round consumes [W::step()] at its head. *)
Definition ledger_step (current_block_number : Z) (cursor : option AccountId) (meter : M)
    (m : Ledgers) :=
  migration_step (fun meter => meter_try_consume meter required) (fun meter _ => meter)
    migrate_ledger ledger_enough required current_block_number cursor meter m.

Definition ledger_run (blocks : list (M * Z)) (m : Ledgers) : Progress :=
  run_steps (fun meter => meter_try_consume meter required) (fun meter _ => meter)
    migrate_ledger ledger_enough required blocks None m.
End lazy.

(** ** [AdjustEraMigration] *)

Definition adjust_era (current_block_number : Z) (state : ProtocolState) : ProtocolState :=
  let remaining := sat_sub (next_era_start state) current_block_number in
  set_next_era_start (sat_add u32_max (next_era_start state) remaining) state.

(** ** The tier types *)

(** A storage value read in its old type: it may not decode. *)
Inductive OldValue (A : Type) := Undecodable | Absent | Present (a : A).
Arguments Undecodable {A}.
Arguments Absent {A}.
Arguments Present {A} a.

(** [StorageValue::translate]: nothing is written when the old value does not
    decode; [None] removes the value. *)
Definition translate {A B} (f : option A -> option B) (old : OldValue A) : option (option B) :=
  match old with
  | Undecodable => None
  | Absent => Some (f None)
  | Present a => Some (f (Some a))
  end.

Module v6.
Record DAppTierRewards := mkDAppTierRewards {
  dapps : gmap Z Z;
  rewards : list Z;
  period : Z;
}.
End v6.

Module v7.
Inductive TierThreshold :=
| FixedTvlAmount (amount : Z)
| DynamicTvlAmount (amount minimum_amount : Z).

Definition threshold (t : TierThreshold) : Z :=
  match t with FixedTvlAmount a => a | DynamicTvlAmount a _ => a end.

Record TierParameters := mkTierParameters {
  reward_portion : list Z;
  slot_distribution : list Z;
  tier_thresholds : list TierThreshold;
}.

Record TiersConfiguration := mkTiersConfiguration {
  number_of_slots : Z;
  slots_per_tier : list Z;
  config_reward_portion : list Z;
  config_tier_thresholds : list TierThreshold;
}.
End v7.

Section tiers.
Context {AccountId W : Type} `{Countable AccountId} (cfg : Config) (TierThresholds : list TierThreshold).

Abbreviation St := (Storage AccountId W).

(** [VersionMigrateV6ToV7]: the closure and the translation of [DAppTiers]. *)
Definition fill_rank_rewards (old_value : v6.DAppTierRewards) : DAppTierRewards :=
  let rank_rewards := replicate (length (v6.rewards old_value)) 0 in
  mkDAppTierRewards (v6.dapps old_value) (v6.rewards old_value) (v6.period old_value)
    (unwrap_or_default (try_from (NumberOfTiers cfg) rank_rewards)).

Definition migrate_v6_to_v7 (old : gmap Z v6.DAppTierRewards) (s : St) : St :=
  put_dapp_tiers (fill_rank_rewards <$> old) s.

(** [VersionMigrateV7ToV8]: the two closures. *)
Definition translate_params (maybe_old_params : option v7.TierParameters) : option TierParameters :=
  match maybe_old_params with
  | Some old_params =>
      match try_from (NumberOfTiers cfg) TierThresholds with
      | Some tier_thresholds =>
          Some (mkTierParameters (v7.reward_portion old_params) (v7.slot_distribution old_params)
                  tier_thresholds)
      | None => None
      end
  | None => None
  end.

Definition translate_config (maybe_old_config : option v7.TiersConfiguration)
    : option TiersConfiguration :=
  match maybe_old_config with
  | Some old_config =>
      match try_from (NumberOfTiers cfg) (v7.threshold <$> v7.config_tier_thresholds old_config) with
      | Some new_tier_thresholds =>
          Some (mkTiersConfiguration (v7.slots_per_tier old_config)
                  (v7.config_reward_portion old_config) new_tier_thresholds)
      | None => None
      end
  | None => None
  end.

Definition put_static_tier_params (x : TierParameters) (s : St) : St :=
  mkStorage (ActiveProtocolState s) (NextDAppId s) (IntegratedDApps s) (Ledger s)
    (StakerInfo s) (ContractStake s) (CurrentEraInfo s) (EraRewards s) (PeriodEnd s)
    x (TierConfig s) (DAppTiers s) (HistoryCleanupMarker s) (Safeguard s) (events s) (world s).

Definition enable_maintenance (s : St) : St :=
  put_state (set_maintenance true (ActiveProtocolState s)) s.

(** [on_runtime_upgrade]; a value that is removed reads as its default. *)
Definition migrate_v7_to_v8 (old_params : OldValue v7.TierParameters)
    (old_config : OldValue v7.TiersConfiguration) (s : St) : St :=
  match translate translate_params old_params with
  | None => enable_maintenance s
  | Some params =>
      let s := put_static_tier_params (match params with Some p => p | None => default_params end) s in
      match translate translate_config old_config with
      | None => enable_maintenance s
      | Some config => put_tier_config (match config with Some c => c | None => default_config end) s
      end
  end.
End tiers.

(** ** Twice as many blocks *)

Lemma double_remaining_exact now c :
  0 <= now -> 2 * unlock_block c <= u32_max ->
  amount (double_remaining now c) = amount c /\
  unlock_block (double_remaining now c) = unlock_block c + Z.max 0 (unlock_block c - now).
Proof.
  intros Hn Hc. unfold double_remaining. destruct (Z.leb_spec (unlock_block c) now); simpl.
  - split; lia.
  - split; [done|]. ulia.
Qed.

(** What was due within [n] blocks is now due within [2n]: the chunks that
    can be claimed and the start of the next era keep their place in time when
    blocks come twice as fast, and no amount changes. *)
Theorem remaining_time_doubled (now n : Z) (l l' : AccountLedger) (p : ProtocolState) :
  0 <= now -> 0 <= n -> migrate_ledger now l = Some l' ->
  Forall (fun c => 2 * unlock_block c <= u32_max) (unlocking l) ->
  2 * next_era_start p <= u32_max ->
  amount <$> unlocking l' = amount <$> unlocking l /\
  (forall i c c', unlocking l !! i = Some c -> unlocking l' !! i = Some c' ->
     (matured (now + 2 * n) c' <-> matured (now + n) c)) /\
  (is_new_era (adjust_era now p) (now + 2 * n) = is_new_era p (now + n)).
Proof.
  intros Hn Hn' Hm Hc Hp. unfold migrate_ledger in Hm.
  assert (l' = set_unlocking (double_remaining now <$> unlocking l) l) as ->
    by (destruct (unlocking l); [done|by injection Hm as <-]). simpl. split_and!.
  - rewrite <- list_fmap_compose. apply list_fmap_ext. intros i c Hi.
    rewrite Forall_lookup in Hc. by apply double_remaining_exact; [|apply (Hc i)].
  - intros i c c' Hi Hi'. rewrite list_lookup_fmap, Hi in Hi'. injection Hi' as <-.
    rewrite Forall_lookup in Hc. unfold matured.
    destruct (double_remaining_exact now c Hn (Hc i c Hi)) as [_ ->]. lia.
  - unfold is_new_era, adjust_era. simpl. apply Bool.eq_iff_eq_true. rewrite !Z.leb_le. ulia.
Qed.

(** ** The invariant *)

Lemma map_sum_same `{Countable K} {V} (f : V -> Z) (m1 m2 : gmap K V) :
  (forall k, f <$> m1 !! k = f <$> m2 !! k) -> map_sum f m1 = map_sum f m2.
Proof.
  intros Hf. assert (Heq : f <$> m1 = f <$> m2) by (apply map_eq; intros k; by rewrite !lookup_fmap).
  assert (Hm : forall m : gmap K V, map_sum f m = map_sum (fun x => x) (f <$> m)).
  { intros m. unfold map_sum. rewrite map_to_list_fmap, <- list_fmap_compose. f_equal. }
  by rewrite !Hm, Heq.
Qed.

(** Twice the wait for a chunk that is not unlocked yet. *)
Definition wait_twice (now : Z) (c : UnlockingChunk) : UnlockingChunk :=
  mkUnlockingChunk (amount c) (unlock_block c + Z.max 0 (unlock_block c - now)).

(** The chunks unlock before half of the block numbers. *)
Definition in_first_half (cs : list UnlockingChunk) : Prop :=
  Forall (fun c => 2 * unlock_block c <= u32_max) cs.

Lemma double_remaining_wait now cs :
  0 <= now -> in_first_half cs -> double_remaining now <$> cs = wait_twice now <$> cs.
Proof.
  intros Hn Hc. apply list_fmap_ext. intros i c Hi. apply (Forall_lookup_1 _ _ _ _ Hc) in Hi.
  destruct (double_remaining_exact now c Hn Hi) as [Ha Hu]. unfold wait_twice.
  destruct (double_remaining now c). simpl in *. by subst.
Qed.

Lemma wait_twice_sorted now cs :
  sorted_by_key unlock_block cs -> sorted_by_key unlock_block (wait_twice now <$> cs).
Proof.
  unfold sorted_by_key. induction cs as [|c cs IH]; intros Hs; [done|].
  rewrite !fmap_cons in *. apply StronglySorted_inv in Hs as [Hs Hall].
  constructor; [by apply IH|]. rewrite Forall_fmap in Hall. rewrite !Forall_fmap.
  eapply Forall_impl; [exact Hall|]. simpl. lia.
Qed.

Lemma wait_twice_amounts now (cs : list UnlockingChunk) : amount <$> (wait_twice now <$> cs) = amount <$> cs.
Proof. rewrite <- list_fmap_compose. by apply list_fmap_ext. Qed.

Section invariant.
Context {AccountId W M Wt : Type} `{Countable AccountId, !Currency AccountId W}.
Context `{!StorageIter AccountId AccountLedger, !StorageIterLaws AccountId AccountLedger}.
Context `{!WeightMeter M Wt, !WeightMeterLaws M Wt}.
Context (cfg : Config) (required : Wt).

Abbreviation St := (Storage AccountId W).

(** The chunks of every ledger do. *)
Definition chunks_in_first_half (s : St) : Prop :=
  forall a l, Ledger s !! a = Some l -> in_first_half (unlocking l).

(** A ledger that waits twice as long. *)
Definition waits_twice (now : Z) (l : AccountLedger) : AccountLedger :=
  set_unlocking (wait_twice now <$> unlocking l) l.

Lemma updated_waits_twice now l :
  0 <= now -> in_first_half (unlocking l) -> updated migrate_ledger now l = waits_twice now l.
Proof.
  intros Hn Hc. transitivity (set_unlocking (double_remaining now <$> unlocking l) l).
  - unfold updated, migrate_ledger. by destruct l as [k [|c cs] st f n].
  - unfold waits_twice. by rewrite double_remaining_wait.
Qed.

Lemma waits_twice_wf now n l : AccountLedger.wf n l -> AccountLedger.wf n (waits_twice now l).
Proof.
  intros []. split; simpl; try done.
  - unfold chunk_sum. by rewrite wait_twice_amounts.
  - by apply wait_twice_sorted.
  - apply Forall_fmap. eapply Forall_impl; [exact wf_chunks|done].
  - by rewrite length_fmap.
Qed.

Lemma waits_twice_unlocking now l : unlocking_sum (waits_twice now l) = unlocking_sum l.
Proof. unfold unlocking_sum, chunk_sum. simpl. by rewrite wait_twice_amounts. Qed.

Lemma waits_twice_inv now p b l : ledger_inv cfg p b l -> ledger_inv cfg p b (waits_twice now l).
Proof.
  intros [Hwf Hmin Hcount Hst Hper Hbal]. pose proof (waits_twice_wf now _ l Hwf) as Hwf'.
  split; [done| | | | |]; try done.
  rewrite (total_locked_exact _ _ Hwf) in Hbal. rewrite (total_locked_exact _ _ Hwf').
  pose proof (waits_twice_unlocking now l) as Hsum. unfold unlocking_sum in Hsum. by rewrite Hsum.
Qed.

(** A ledger is as it was, or waits twice as long from some block on. *)
Definition kept_or_doubled (blocks : list (M * Z)) (l l' : option AccountLedger) : Prop :=
  l' = l \/ exists now, now ∈ blocks.*2 /\ l' = waits_twice now <$> l.

(** However many of the ledgers are migrated, and wherever, the invariant
    holds. *)
Lemma partly_migrated_inv (s : St) (blocks : list (M * Z)) (m : gmap AccountId AccountLedger) :
  Inv cfg s -> (forall a, kept_or_doubled blocks (Ledger s !! a) (m !! a)) ->
  Inv cfg (put_ledger m s).
Proof.
  intros Hinv Hm.
  assert (Hkeep : forall f : AccountLedger -> Z,
    (forall now l, f (waits_twice now l) = f l) -> map_sum f m = map_sum f (Ledger s)).
  { intros f Hf. apply map_sum_same. intros a. destruct (Hm a) as [->|(now & _ & ->)]; [done|].
    destruct (Ledger s !! a) as [l|] eqn:Ha; [|done]. simpl. f_equal. apply Hf. }
  destruct Hinv as [Hclock Hled Hstk Hstakes Hera Hlock Hunl Hstaked]. split; simpl; try done.
  - intros a l Hl. destruct (Hm a) as [Ha|(now & _ & Ha)]; rewrite Hl in Ha; [by apply Hled|].
    destruct (Ledger s !! a) as [l0|] eqn:H0; [|done]. injection Ha as ->.
    by apply waits_twice_inv, Hled.
  - intros a. change (stakers_of (put_ledger m s) a) with (stakers_of s a).
    change (current_period (put_ledger m s)) with (current_period s).
    rewrite Hstakes. unfold ledger_of. simpl. destruct (Hm a) as [->|(now & _ & ->)]; [done|].
    by destruct (Ledger s !! a).
  - rewrite <- Hlock. by apply Hkeep.
  - rewrite <- Hunl. apply Hkeep. intros. by apply waits_twice_unlocking.
  - rewrite <- Hstaked. by apply Hkeep.
Qed.

Lemma updated_rewrites now (s : St) a :
  0 <= now -> chunks_in_first_half s ->
  updated migrate_ledger now <$> Ledger s !! a = waits_twice now <$> Ledger s !! a.
Proof.
  intros Hn Hc. destruct (Ledger s !! a) eqn:Ha; [|done]. simpl.
  by rewrite updated_waits_twice by (done || by eapply Hc).
Qed.

(** C30: when every chunk unlocks in the first half of the block numbers: in
    whichever blocks the lazy migration runs and whatever weight they have,
    every ledger it has passed has each wait that is left doubled, once, with
    the amounts untouched; every other ledger is as it was; and the invariant of
    the pallet holds: what is locked, staked and unlocking, the totals of the
    era and the order of the chunks.  It fails only in a block without the
    weight for one ledger, and when no block lacks it the migration is complete
    after at most one block more than there are ledgers. *)
Theorem ledger_migration_preserves_invariant (s : St) (blocks : list (M * Z)) :
  Inv cfg s -> chunks_in_first_half s -> Forall (fun x => 0 <= x.2) blocks ->
  let rewritten (m : gmap AccountId AccountLedger) a :=
    exists now, now ∈ blocks.*2 /\ m !! a = waits_twice now <$> Ledger s !! a in
  match ledger_run required blocks (Ledger s) with
  | Complete m => (forall a, rewritten m a) /\ Inv cfg (put_ledger m s)
  | Pending c m =>
      (forall a, if decide (after AccountLedger c a) then m !! a = Ledger s !! a else rewritten m a) /\
      Inv cfg (put_ledger m s)
  | Failed => Exists (fun x => remaining_any_lt x.1 required = true) blocks
  end /\
  (Forall (fun x => remaining_any_lt x.1 required = false) blocks ->
   (size (Ledger s) < length blocks)%nat ->
   exists m, ledger_run required blocks (Ledger s) = Complete m).
Proof.
  intros Hinv Hhalf Hb rewritten.
  assert (Hrw : forall (m : gmap AccountId AccountLedger) a now, now ∈ blocks.*2 ->
    m !! a = updated migrate_ledger now <$> Ledger s !! a -> rewritten m a).
  { intros m a now Hin Ha. exists now. split; [done|]. rewrite Ha. apply updated_rewrites; [|done].
    apply list_elem_of_fmap in Hin as (x & -> & Hx). rewrite Forall_forall in Hb. by apply Hb. }
  assert (Hee : forall meter : M, ledger_enough required meter = true ->
    is_Some (meter_try_consume meter required)).
  { intros meter Hm. apply try_consume_covered. by apply negb_true_iff. }
  split.
  - pose proof (run_steps_spec (fun meter => meter_try_consume meter required) (fun meter _ => meter)
      migrate_ledger (ledger_enough required) required Hee [] blocks None (Ledger s) (Ledger s)
      (visited_start _ _ _)) as Hs.
    fold (ledger_run required blocks (Ledger s)) in Hs.
    destruct (ledger_run required blocks (Ledger s)) as [c m|m|].
    + destruct Hs as [_ Hv].
      assert (Hm : forall a, if decide (after AccountLedger c a) then m !! a = Ledger s !! a
                        else rewritten m a).
      { intros a. specialize (Hv a). destruct (decide _); [done|].
        destruct Hv as (now & Hin & Ha). by apply (Hrw m a now). }
      split; [exact Hm|]. apply (partly_migrated_inv s blocks); [done|]. intros a.
      specialize (Hm a). destruct (decide _); [by left|right; exact Hm].
    + assert (Hm : forall a, rewritten m a).
      { intros a. destruct (Hs a) as (now & Hin & Ha). by apply (Hrw m a now). }
      split; [exact Hm|]. apply (partly_migrated_inv s blocks); [done|]. intros a. right; apply Hm.
    + eapply Exists_impl; [exact Hs|]. intros x Hx. by apply negb_false_iff in Hx.
  - intros He Hlen.
    destruct (run_steps_complete (fun meter => meter_try_consume meter required) (fun meter _ => meter)
      migrate_ledger (ledger_enough required) required Hee blocks (Ledger s)) as (m & Hrun & _);
      [|done|by exists m].
    eapply Forall_impl; [exact He|]. intros x Hx. unfold ledger_enough. by rewrite Hx.
Qed.
End invariant.

(** ** The tier migration *)

(** With both old values readable and room for the new thresholds, the tier
    parameters keep their portions and take the new thresholds, the tier
    configuration keeps its slots and portions and has the old amounts as
    thresholds, so that a complete configuration stays complete; an old value
    that cannot be read puts the pallet in maintenance, in which it refuses
    calls. *)
Theorem tier_migration_outcome {AccountId W : Type} `{Countable AccountId} (cfg : Config)
    (thresholds : list TierThreshold) (params : OldValue v7.TierParameters)
    (config : OldValue v7.TiersConfiguration) (s : Storage AccountId W) :
  Z.of_nat (length thresholds) = NumberOfTiers cfg ->
  let s' := migrate_v7_to_v8 cfg thresholds params config s in
  match params, config with
  | Present p, Present c =>
      NumberOfTiers cfg = Z.of_nat (length (v7.slots_per_tier c)) ->
      NumberOfTiers cfg = Z.of_nat (length (v7.config_reward_portion c)) ->
      NumberOfTiers cfg = Z.of_nat (length (v7.config_tier_thresholds c)) ->
      StaticTierParams s' =
        mkTierParameters (v7.reward_portion p) (v7.slot_distribution p) thresholds /\
      slots_per_tier (TierConfig s') = v7.slots_per_tier c /\
      tier_thresholds (TierConfig s') = v7.threshold <$> v7.config_tier_thresholds c /\
      config_is_valid (NumberOfTiers cfg) (TierConfig s') = true /\
      Ledger s' = Ledger s /\ ActiveProtocolState s' = ActiveProtocolState s
  | Undecodable, _ | _, Undecodable => ensure_pallet_enabled s' = Err (Module Disabled)
  | _, _ => True
  end.
Proof.
  intros Hth s'. unfold s', migrate_v7_to_v8. destruct params as [| |p], config as [| |c]; try done.
  intros H1 H2 H3. simpl. unfold try_from. rewrite Hth, Z.leb_refl, length_fmap, <- H3, Z.leb_refl.
  simpl. split_and!; try done. unfold config_is_valid. simpl.
  rewrite length_fmap, <- H1, <- H2, <- H3, Z.eqb_refl. done.
Qed.

(** ** Witnesses *)
Section example.
#[local] Existing Instances ToyIter ToyIterLaws ToyMeter ToyMeterLaws ExactArithmetic StableOrder.

Definition toy_ledger : AccountLedger :=
  set_unlocking [mkUnlockingChunk 5 80; mkUnlockingChunk 6 120] AccountLedger.default.
Definition toy_migrated : AccountLedger :=
  set_unlocking [mkUnlockingChunk 5 80; mkUnlockingChunk 6 140] AccountLedger.default.

Lemma remaining_time_doubled_witness :
  migrate_ledger 100 toy_ledger = Some toy_migrated /\
  is_new_era (adjust_era 100 (mkProtocolState 3 130 (mkPeriodInfo 1 Voting 5) false)) 160 = true.
Proof.
  split; [by vm_compute|].
  destruct (remaining_time_doubled 100 30 toy_ledger toy_migrated
    (mkProtocolState 3 130 (mkPeriodInfo 1 Voting 5) false)) as (_ & _ & He);
    [lia|lia|by vm_compute|by repeat constructor|by vm_compute|].
  change 160 with (100 + 2 * 30). rewrite He. by vm_compute.
Defined.

(** Two blocks, each with weight for one ledger, and one to find the end. *)
Definition toy_upgrade : list (Z * Z) := [(1, 40); (1, 41); (1, 42); (1, 43)].

Lemma first_state_chunks : chunks_in_first_half first_state.
Proof.
  assert (Hall : map_Forall (fun _ l => Forall (fun c => 2 * unlock_block c <= u32_max) (unlocking l))
                   (Ledger first_state)) by (by apply (bool_decide_unpack _); vm_compute).
  intros a l Hl. by apply (Hall a l Hl).
Qed.

Lemma ledger_migration_preserves_invariant_witness :
  match ledger_run 1 toy_upgrade (Ledger first_state) with
  | Complete m => Inv ex_cfg (put_ledger m first_state)
  | _ => False
  end /\
  match ledger_run 1 (take 1 toy_upgrade) (Ledger first_state) with
  | Pending _ m => Inv ex_cfg (put_ledger m first_state)
  | _ => False
  end.
Proof.
  assert (Hinv : Inv ex_cfg first_state).
  { destruct first_state_reachable as [Hr He]. by apply (reachable_inv ex_cfg ex_cfg_ok). }
  pose proof first_state_chunks as Hhalf.
  split.
  - destruct (ledger_migration_preserves_invariant ex_cfg 1 first_state toy_upgrade Hinv Hhalf)
      as [Hrun Hdone]; [by repeat constructor|].
    destruct Hdone as [m Hm]; [by repeat constructor|by vm_compute; lia|].
    rewrite Hm in Hrun |- *. apply Hrun.
  - destruct (ledger_migration_preserves_invariant ex_cfg 1 first_state (take 1 toy_upgrade) Hinv
      Hhalf) as [Hrun _]; [by repeat constructor|].
    assert (Hp : match ledger_run 1 (take 1 toy_upgrade) (Ledger first_state) with
      | Pending _ _ => true | _ => false end = true) by by vm_compute.
    revert Hrun Hp. generalize (ledger_run 1 (take 1 toy_upgrade) (Ledger first_state)).
    intros [c m|m|] Hrun; [|done..]. intros _. apply Hrun.
Defined.

Lemma tier_migration_outcome_witness :
  tier_thresholds (TierConfig (migrate_v7_to_v8 ex_cfg
    [FixedPercentage 1; FixedPercentage 2]
    (Present (v7.mkTierParameters [1; 2] [3; 4] []))
    (Present (v7.mkTiersConfiguration 9 [4; 5] [1; 2] [v7.FixedTvlAmount 70; v7.DynamicTvlAmount 50 9]))
    first_state)) = [70; 50].
Proof.
  destruct (tier_migration_outcome ex_cfg [FixedPercentage 1; FixedPercentage 2]
    (Present (v7.mkTierParameters [1; 2] [3; 4] []))
    (Present (v7.mkTiersConfiguration 9 [4; 5] [1; 2] [v7.FixedTvlAmount 70; v7.DynamicTvlAmount 50 9]))
    first_state) as (_ & _ & Ht & _); by vm_compute.
Defined.
End example.
