(* ===== verification/PrecompileUtils.v ===== *)
(** * What the precompiles share

    Byte strings as numbers, and the part of [precompile_utils] that the
    precompiles call: gas is charged before each database read and dispatch,
    and a failure reverts the call. *)

From stdpp Require Import strings.
From S2P Require Import Prelude UnifiedAccounts.

(** ** Numbers as bytes *)

(** [from_be_bytes]. *)
Definition from_be_bytes (b : bytes) : Z := foldl (fun acc x => acc * 256 + x) 0 b.

Definition is_byte (x : Z) : Prop := 0 <= x < 256.

Lemma length_be_bytes k n : length (be_bytes k n) = k.
Proof. revert n. induction k as [|k IH]; intros n; simpl; [done|]. rewrite length_app, IH. simpl. lia. Qed.

Lemma from_be_bytes_app b x : from_be_bytes (b ++ [x]) = from_be_bytes b * 256 + x.
Proof. unfold from_be_bytes. by rewrite foldl_app. Qed.

Lemma from_to_be_bytes k n : 0 <= n < 256 ^ Z.of_nat k -> from_be_bytes (be_bytes k n) = n.
Proof.
  revert n. induction k as [|k IH]; intros n Hn; simpl be_bytes.
  - change (from_be_bytes []) with 0. lia.
  - rewrite from_be_bytes_app, IH.
    + pose proof (Z.div_mod n 256 ltac:(lia)). lia.
    + rewrite Nat2Z.inj_succ, Z.pow_succ_r in Hn by lia. split; [apply Z.div_pos; lia|].
      apply Z.div_lt_upper_bound; lia.
Qed.

Lemma to_from_be_bytes b : Forall is_byte b -> be_bytes (length b) (from_be_bytes b) = b.
Proof.
  induction b as [|x b IH] using rev_ind; intros Hb; [done|].
  apply Forall_app in Hb as [Hb Hx]. rewrite Forall_singleton in Hx. unfold is_byte in Hx.
  rewrite from_be_bytes_app, length_app, Nat.add_1_r. simpl.
  rewrite Z.div_add_l by lia. rewrite (Z.div_small x), Z.add_0_r, IH by (done || lia).
  by rewrite (Z.add_comm (_ * _)), Z.mod_add, Z.mod_small by lia.
Qed.

(** ** Gas and failures *)

(** What is charged for: a database read of a size, the log costs, a
    dispatch. *)
Inductive GasItem (Call : Type) :=
| DbRead (size : Z)
| LogCosts (topics data_len : Z)
| DispatchCost (call : Call).
Arguments DbRead {Call}.
Arguments LogCosts {Call}.
Arguments DispatchCost {Call}.

(** The gas left, [None] when it does not cover an item. *)
Class GasMeter (Call G : Type) := { charge : GasItem Call -> G -> option G }.

(** A call fails for lack of gas, with the error of a dispatch, or with a
    message. *)
Inductive EvmError (E : Type) :=
| OutOfGas
| DispatchFailed (e : E)
| ValueIsTooLarge
| Revert (message : string).
Arguments OutOfGas {E}.
Arguments DispatchFailed {E} e.
Arguments ValueIsTooLarge {E}.
Arguments Revert {E} message.

(** A meter that counts items. *)
Definition ToyGasMeter {Call} : GasMeter Call Z :=
  {| charge _ g := if 0 <? g then Some (g - 1) else None |}.
