(* ===== verification/AssetsErc20.v ===== *)
(** * The ERC-20 precompile of the assets

    [precompiles/assets-erc20/src/lib.rs]: every asset of the assets pallet is
    an ERC-20 token at an EVM address made of its id
    ([AddressToAssetId] of [runtime/astar/src/lib.rs]), whose code is a stub
    that [EvmRevertCodeHandler] of [primitives/src/evm.rs] keeps in place.  The
    assets pallet and the EVM belong to other crates. *)

From stdpp Require Import strings.
From S2P Require Import Prelude UnifiedAccounts PrecompileUtils.

(** ** Asset ids and addresses *)

Definition ASSET_PRECOMPILE_ADDRESS_PREFIX : bytes := replicate 4 255.

(** An address is twenty bytes. *)
Definition address_to_asset_id (address : EvmAddress) : option Z :=
  if bool_decide (take 4 address = ASSET_PRECOMPILE_ADDRESS_PREFIX)
  then Some (from_be_bytes (drop 4 address)) else None.

Definition asset_id_to_address (asset_id : Z) : EvmAddress :=
  ASSET_PRECOMPILE_ADDRESS_PREFIX ++ be_bytes 16 asset_id.

(** ** The code at the addresses *)

Definition EVM_REVERT_CODE : bytes := [96; 0; 96; 0; 253].

(** [EvmRevertCodeHandler::created] and [destroyed], on [AccountCodes]. *)
Definition asset_created (codes : gmap EvmAddress bytes) (id : Z) : option (gmap EvmAddress bytes) :=
  let address := asset_id_to_address id in
  if bool_decide (codes !! address = None) then Some (<[address := EVM_REVERT_CODE]> codes) else None.

Definition asset_destroyed (codes : gmap EvmAddress bytes) (id : Z) : gmap EvmAddress bytes :=
  delete (asset_id_to_address id) codes.

(** ** The assets pallet *)

Inductive AssetsCall (AccountId : Type) :=
| assets_transfer (target : AccountId) (amount : Z)
| assets_transfer_approved (owner destination : AccountId) (amount : Z)
| assets_approve_transfer (delegate : AccountId) (amount : Z)
| assets_cancel_approval (delegate : AccountId)
| assets_mint (beneficiary : AccountId) (amount : Z)
| assets_burn (who : AccountId) (amount : Z).
Arguments assets_transfer {AccountId}.
Arguments assets_transfer_approved {AccountId}.
Arguments assets_approve_transfer {AccountId}.
Arguments assets_cancel_approval {AccountId}.
Arguments assets_mint {AccountId}.
Arguments assets_burn {AccountId}.

Class PalletAssets (AccountId W : Type) := {
  maybe_total_supply : W -> Z -> option Z;
  assets_total_issuance : W -> Z -> Z;
  assets_balance : W -> Z -> AccountId -> Z;
  assets_allowance : W -> Z -> AccountId -> AccountId -> Z;
  assets_name : W -> Z -> bytes;
  assets_symbol : W -> Z -> bytes;
  assets_decimals : W -> Z -> Z;
  assets_minimum_balance : W -> Z -> Z;
  (** A call on an asset, signed by an account. *)
  assets_dispatch : AccountId -> Z -> AssetsCall AccountId -> W -> option W;
}.

(** What the calls do to the allowances: approvals add up, a cancelled one is
    gone, one that is used is used up, and no other call touches them. *)
Class PalletAssetsLaws (AccountId W : Type) `{EqDecision AccountId, !PalletAssets AccountId W} : Prop := {
  approve_allowance w w' i a d x b c :
    assets_dispatch a i (assets_approve_transfer d x) w = Some w' ->
    assets_allowance w' i b c =
      if bool_decide (b = a /\ c = d) then sat_add u128_max (assets_allowance w i a d) x
      else assets_allowance w i b c;
  cancel_allowance w w' i a d b c :
    assets_dispatch a i (assets_cancel_approval d) w = Some w' ->
    assets_allowance w' i b c =
      if bool_decide (b = a /\ c = d) then 0 else assets_allowance w i b c;
  approved_allowance w w' i a o t x b c :
    assets_dispatch a i (assets_transfer_approved o t x) w = Some w' ->
    x <= assets_allowance w i o a /\
    assets_allowance w' i b c =
      if bool_decide (b = o /\ c = a) then assets_allowance w i o a - x
      else assets_allowance w i b c;
  other_allowance w w' i a k b c :
    assets_dispatch a i k w = Some w' ->
    match k with assets_transfer _ _ | assets_mint _ _ | assets_burn _ _ => True | _ => False end ->
    assets_allowance w' i b c = assets_allowance w i b c;
}.

(** ** The precompile *)

Record Log := mkLog { log_address : EvmAddress; log_topics : list bytes; log_data : Z }.

Record PrecompileState (G W : Type) := mkPrecompileState { gas : G; assets : W; logs : list Log }.
Arguments mkPrecompileState {G W}.
Arguments gas {G W}.
Arguments assets {G W}.
Arguments logs {G W}.

(** [DiscriminantResult]. *)
Inductive DiscriminantResult := DSome (asset_id extra_cost : Z) | DNone (extra_cost : Z) | DOutOfGas.

Section precompile.
Context {AccountId G W : Type} `{EqDecision AccountId}.
Context `{!PalletAssets AccountId W, !GasMeter (AssetsCall AccountId) G}.
(** [Runtime::AddressMapping::into_account_id], the hash of the log
    signatures, the database read cost and the runtime's constants. *)
Context (to_account : EvmAddress -> AccountId) (log_selector : string -> bytes).
Context (db_read_gas_cost ExtraMaxLen StringLimit : Z).
(** The context of the call. *)
Context (caller address : EvmAddress) (asset_id : Z).

Abbreviation St := (PrecompileState G W).
Abbreviation EvmResult A := (Result (A * St) (EvmError unit)).

Definition SELECTOR_LOG_TRANSFER : bytes := log_selector "Transfer(address,address,uint256)".
Definition SELECTOR_LOG_APPROVAL : bytes := log_selector "Approval(address,address,uint256)".

Definition record (i : GasItem (AssetsCall AccountId)) (s : St) : Result St (EvmError unit) :=
  let! g := ok_or (charge i (gas s)) OutOfGas in Ok (mkPrecompileState g (assets s) (logs s)).

(** [RuntimeHelper::try_dispatch]. *)
Definition try_dispatch (origin : AccountId) (call : AssetsCall AccountId) (s : St)
    : Result St (EvmError unit) :=
  let! s := record (DispatchCost call) s in
  let! w := ok_or (assets_dispatch origin asset_id call (assets s)) (DispatchFailed tt) in
  Ok (mkPrecompileState (gas s) w (logs s)).

(** [log3(..).record(handle)]; its cost was recorded before. *)
Definition log3 (topic0 topic1 topic2 : bytes) (data : Z) (s : St) : St :=
  mkPrecompileState (gas s) (assets s) (logs s ++ [mkLog address [topic0; topic1; topic2] data]).

Definition discriminant (w : W) (addr : EvmAddress) (gas : Z) : DiscriminantResult :=
  let extra_cost := db_read_gas_cost in
  if gas <? extra_cost then DOutOfGas
  else
    match address_to_asset_id addr with
    | None => DNone extra_cost
    | Some asset_id =>
        match maybe_total_supply w asset_id with
        | Some _ => DSome asset_id extra_cost
        | None => DNone extra_cost
        end
    end.

Definition total_supply (s : St) : EvmResult Z :=
  let! s := record (DbRead 223) s in Ok (assets_total_issuance (assets s) asset_id, s).

Definition balance_of (who : EvmAddress) (s : St) : EvmResult Z :=
  let! s := record (DbRead (99 + ExtraMaxLen)) s in
  Ok (assets_balance (assets s) asset_id (to_account who), s).

Definition allowance (owner spender : EvmAddress) (s : St) : EvmResult Z :=
  let! s := record (DbRead 148) s in
  Ok (assets_allowance (assets s) asset_id (to_account owner) (to_account spender), s).

Definition u256_to_amount (value : Z) : Result Z (EvmError unit) :=
  if value <=? u128_max then Ok value else Err ValueIsTooLarge.

Definition approve_inner (owner spender : EvmAddress) (value : Z) (s : St) : Result St (EvmError unit) :=
  let owner := to_account owner in
  let spender := to_account spender in
  let amount := saturated_into u128_max value in
  let! s := record (DbRead 148) s in
  let! s :=
    (if negb (assets_allowance (assets s) asset_id owner spender =? 0)
     then try_dispatch owner (assets_cancel_approval spender) s else Ok s) in
  try_dispatch owner (assets_approve_transfer spender amount) s.

Definition approve (spender : EvmAddress) (value : Z) (s : St) : EvmResult bool :=
  let! s := record (LogCosts 3 32) s in
  let! s := approve_inner caller spender value s in
  Ok (true, log3 SELECTOR_LOG_APPROVAL caller spender value s).

Definition transfer (to : EvmAddress) (value : Z) (s : St) : EvmResult bool :=
  let! s := record (LogCosts 3 32) s in
  let! value := u256_to_amount value in
  let! s := try_dispatch (to_account caller) (assets_transfer (to_account to) value) s in
  Ok (true, log3 SELECTOR_LOG_TRANSFER caller to value s).

Definition transfer_from (from to : EvmAddress) (value : Z) (s : St) : EvmResult bool :=
  let! s := record (LogCosts 3 32) s in
  let! value := u256_to_amount value in
  let! s :=
    (if negb (bool_decide (to_account caller = to_account from))
     then try_dispatch (to_account caller)
            (assets_transfer_approved (to_account from) (to_account to) value) s
     else try_dispatch (to_account from) (assets_transfer (to_account to) value) s) in
  Ok (true, log3 SELECTOR_LOG_TRANSFER from to value s).

Definition token_name (s : St) : EvmResult bytes :=
  let! s := record (DbRead (50 + 2 * StringLimit)) s in Ok (assets_name (assets s) asset_id, s).
Definition symbol (s : St) : EvmResult bytes :=
  let! s := record (DbRead (50 + 2 * StringLimit)) s in Ok (assets_symbol (assets s) asset_id, s).
Definition decimals (s : St) : EvmResult Z :=
  let! s := record (DbRead (50 + 2 * StringLimit)) s in Ok (assets_decimals (assets s) asset_id, s).
Definition minimum_balance (s : St) : EvmResult Z :=
  let! s := record (DbRead 207) s in Ok (assets_minimum_balance (assets s) asset_id, s).

Definition mint (to : EvmAddress) (value : Z) (s : St) : EvmResult bool :=
  let! s := record (LogCosts 3 32) s in
  let! value := u256_to_amount value in
  let! s := try_dispatch (to_account caller) (assets_mint (to_account to) value) s in
  Ok (true, log3 SELECTOR_LOG_TRANSFER (replicate 20 0) to value s).

Definition burn (from : EvmAddress) (value : Z) (s : St) : EvmResult bool :=
  let! s := record (LogCosts 3 32) s in
  let! value := u256_to_amount value in
  let! s := try_dispatch (to_account caller) (assets_burn (to_account from) value) s in
  Ok (true, log3 SELECTOR_LOG_TRANSFER from (replicate 20 0) value s).
End precompile.

(** ** Asset ids and addresses, both ways *)

(** Ids and addresses convert into each other: the address of an id leads
    back to it, and an address that leads to an id is the address of that
    id. *)
Theorem asset_address_roundtrip (id : Z) (a : EvmAddress) :
  in_range u128_max id -> length a = 20%nat -> Forall is_byte a ->
  address_to_asset_id (asset_id_to_address id) = Some id /\
  length (asset_id_to_address id) = 20%nat /\
  (address_to_asset_id a = Some id <-> asset_id_to_address id = a).
Proof.
  intros Hid Hlen Ha. unfold in_range in Hid.
  assert (Hto : address_to_asset_id (asset_id_to_address id) = Some id).
  { unfold address_to_asset_id, asset_id_to_address.
    rewrite bool_decide_eq_true_2 by (by apply take_app_length').
    rewrite drop_app_length' by done. by rewrite from_to_be_bytes by (simpl; lia). }
  split; [done|]. split; [by unfold asset_id_to_address; rewrite length_app, length_be_bytes|].
  split; [|by intros <-]. unfold address_to_asset_id, asset_id_to_address.
  destruct (bool_decide _) eqn:Hp; [|done]. apply bool_decide_eq_true in Hp. intros [= <-].
  rewrite <- Hp. rewrite <- (take_drop 4 a) at 3. f_equal.
  rewrite <- (to_from_be_bytes (drop 4 a)) at 2 by (by apply Forall_drop).
  by rewrite length_drop, Hlen.
Qed.

(** ** The code at the addresses *)

(** The assets that exist and the codes, after creations and destructions that
    the assets pallet has accepted. *)
Inductive code_history (codes0 : gmap EvmAddress bytes) : gset Z -> gmap EvmAddress bytes -> Prop :=
| ch_start : code_history codes0 ∅ codes0
| ch_created live codes codes' id :
    code_history codes0 live codes -> id ∉ live -> in_range u128_max id ->
    asset_created codes id = Some codes' -> code_history codes0 ({[id]} ∪ live) codes'
| ch_destroyed live codes id :
    code_history codes0 live codes -> id ∈ live ->
    code_history codes0 (live ∖ {[id]}) (asset_destroyed codes id).

Lemma asset_address_inj i j :
  in_range u128_max i -> in_range u128_max j -> asset_id_to_address i = asset_id_to_address j -> i = j.
Proof.
  unfold in_range, asset_id_to_address. intros Hi Hj Heq. apply app_inv_head in Heq.
  apply (f_equal from_be_bytes) in Heq. by rewrite !from_to_be_bytes in Heq by (simpl; lia).
Qed.

(** What the codes are for the live assets and elsewhere. *)
Definition codes_ok (codes0 : gmap EvmAddress bytes) (live : gset Z) (codes : gmap EvmAddress bytes)
    : Prop :=
  (forall id, id ∈ live -> in_range u128_max id /\ codes0 !! asset_id_to_address id = None /\
     codes !! asset_id_to_address id = Some EVM_REVERT_CODE) /\
  (forall a, (forall id, id ∈ live -> a <> asset_id_to_address id) -> codes !! a = codes0 !! a).

Lemma created_ok codes0 live codes codes' id :
  codes_ok codes0 live codes -> id ∉ live -> in_range u128_max id ->
  asset_created codes id = Some codes' -> codes_ok codes0 ({[id]} ∪ live) codes'.
Proof.
  intros [Hl Ho] Hid Hr. unfold asset_created. destruct (bool_decide _) eqn:Hb; [|done].
  apply bool_decide_eq_true in Hb. intros [= <-].
  assert (Hne : forall j, j ∈ live -> asset_id_to_address id <> asset_id_to_address j).
  { intros j Hj Heq. destruct (Hl j Hj) as [Hrj _].
    apply asset_address_inj in Heq; [congruence|done..]. }
  split.
  - intros j [->%elem_of_singleton|Hj]%elem_of_union.
    + rewrite lookup_insert_eq. split_and!; [done| |done]. rewrite <- Ho by apply Hne. done.
    + rewrite lookup_insert_ne by auto. auto.
  - intros a Ha. rewrite lookup_insert_ne.
    + apply Ho. intros j Hj. apply Ha. set_solver.
    + intros Heq. apply (Ha id); [set_solver|done].
Qed.

Lemma destroyed_ok codes0 live codes id :
  codes_ok codes0 live codes -> id ∈ live ->
  codes_ok codes0 (live ∖ {[id]}) (asset_destroyed codes id).
Proof.
  intros [Hl Ho] Hid. unfold asset_destroyed. destruct (Hl id Hid) as (Hr & H0 & _). split.
  - intros j [Hj Hne]%elem_of_difference. destruct (Hl j Hj) as (Hrj & H1 & H2).
    rewrite lookup_delete_ne; [done|]. intros Heq%asset_address_inj; [set_solver|done..].
  - intros a Ha. destruct (decide (asset_id_to_address id = a)) as [<-|Hne].
    + by rewrite lookup_delete_eq.
    + rewrite lookup_delete_ne by done. apply Ho. intros j Hj.
      destruct (decide (j = id)) as [->|Hji]; [done|]. apply Ha. set_solver.
Qed.

(** The address of every existing asset has the revert code and every
    other address has the code it had before: a creation never overwrites a
    contract, and a destruction frees the address. *)
Theorem codes_follow_assets (codes0 : gmap EvmAddress bytes) (live : gset Z)
    (codes : gmap EvmAddress bytes) :
  code_history codes0 live codes ->
  (forall id, id ∈ live -> codes !! asset_id_to_address id = Some EVM_REVERT_CODE) /\
  (forall a, (forall id, id ∈ live -> a <> asset_id_to_address id) -> codes !! a = codes0 !! a).
Proof.
  intros Hh. assert (Hok : codes_ok codes0 live codes).
  { induction Hh; [|by eapply created_ok|by apply destroyed_ok].
    split; [by intros id ?%elem_of_empty|done]. }
  destruct Hok as [Hl Ho]. split; [|done]. intros id Hid. by apply Hl.
Qed.

(** ** Allowances

    What ERC-20 says of allowances: an approval replaces the one before, a
    transfer on behalf of another uses it up, nothing else changes it. *)
Inductive TokenCall :=
| tc_approve (spender : EvmAddress) (value : Z)
| tc_transfer (to : EvmAddress) (value : Z)
| tc_transfer_from (from to : EvmAddress) (value : Z)
| tc_mint (to : EvmAddress) (value : Z)
| tc_burn (from : EvmAddress) (value : Z).

Section allowances.
Context {AccountId G W : Type} `{EqDecision AccountId}.
Context `{!PalletAssets AccountId W, !GasMeter (AssetsCall AccountId) G, !PalletAssetsLaws AccountId W}.
Context (to_account : EvmAddress -> AccountId) (log_selector : string -> bytes).
Context (address : EvmAddress) (asset_id : Z).

Abbreviation St := (PrecompileState G W).

Definition token_call (caller : EvmAddress) (c : TokenCall) (s : St) : Result (bool * St) (EvmError unit) :=
  match c with
  | tc_approve spender v => approve to_account log_selector caller address asset_id spender v s
  | tc_transfer to v => transfer to_account log_selector caller address asset_id to v s
  | tc_transfer_from from to v =>
      transfer_from to_account log_selector caller address asset_id from to v s
  | tc_mint to v => mint to_account log_selector caller address asset_id to v s
  | tc_burn from v => burn to_account log_selector caller address asset_id from v s
  end.

(** The calls that succeed, in order, and the state; a call that fails is
    reverted. *)
Fixpoint token_run (cs : list (EvmAddress * TokenCall)) (s : St)
    : list (EvmAddress * TokenCall) * St :=
  match cs with
  | [] => ([], s)
  | (caller, c) :: cs =>
      match token_call caller c s with
      | Ok (_, s') => let '(done_, s'') := token_run cs s' in ((caller, c) :: done_, s'')
      | Err _ => token_run cs s
      end
  end.

Abbreviation Allowances := (AccountId -> AccountId -> Z).

Definition set_allowance (o d : AccountId) (x : Z) (f : Allowances) : Allowances :=
  fun b c => if bool_decide (b = o /\ c = d) then x else f b c.

Definition erc20_step (f : Allowances) (cc : EvmAddress * TokenCall) : Allowances :=
  let caller := to_account cc.1 in
  match cc.2 with
  | tc_approve spender v => set_allowance caller (to_account spender) (Z.min u128_max v) f
  | tc_transfer_from from _ v =>
      if bool_decide (caller = to_account from) then f
      else set_allowance (to_account from) caller (f (to_account from) caller - v) f
  | _ => f
  end.

Definition allowances (s : St) : Allowances := assets_allowance (assets s) asset_id.

Lemma record_assets i (s s' : St) : record i s = Ok s' -> assets s' = assets s /\ logs s' = logs s.
Proof. unfold record. intros Hr. result_inv. done. Qed.

Lemma dispatch_inv o k (s s' : St) :
  try_dispatch asset_id o k s = Ok s' ->
  assets_dispatch o asset_id k (assets s) = Some (assets s') /\ logs s' = logs s.
Proof.
  unfold try_dispatch. intros Hd. bind_inv Hd as s1 Hr. apply record_assets in Hr as [<- <-].
  bind_inv Hd as w Hw. injection Hd as <-. unfold ok_or in Hw.
  destruct (assets_dispatch _ _ _ _); [|done]. by injection Hw as ->.
Qed.

Lemma approve_inner_allowances owner spender v (s s' : St) :
  approve_inner to_account asset_id owner spender v s = Ok s' ->
  logs s' = logs s /\
  forall x y, allowances s' x y =
    set_allowance (to_account owner) (to_account spender) (Z.min u128_max v) (allowances s) x y.
Proof.
  unfold approve_inner. intros Ha. bind_inv Ha as s1 Hr. apply record_assets in Hr as [Has Hlg].
  bind_inv Ha as s2 Hc. apply dispatch_inv in Ha as [Ha Hl].
  assert (H2 : logs s2 = logs s1 /\ forall x y, allowances s2 x y =
    set_allowance (to_account owner) (to_account spender) 0 (allowances s1) x y).
  { unfold allowances, set_allowance. destruct (Z.eqb_spec (assets_allowance (assets s1) asset_id
      (to_account owner) (to_account spender)) 0) as [Hz|Hz]; simpl in Hc.
    - injection Hc as <-. split; [done|]. intros x y. destruct (bool_decide _) eqn:Hb; [|done].
      apply bool_decide_eq_true in Hb as [-> ->]. done.
    - apply dispatch_inv in Hc as [Hc Hl2]. split; [done|]. intros x y. by eapply cancel_allowance. }
  destruct H2 as [Hl2 H2]. split; [congruence|]. intros x y.
  unfold allowances at 1. rewrite (approve_allowance _ _ _ _ _ _ x y Ha).
  fold (allowances s2). rewrite !H2. unfold allowances, set_allowance. rewrite Has.
  rewrite (bool_decide_eq_true_2 (to_account owner = to_account owner /\ _)) by done.
  destruct (bool_decide (x = _ /\ y = _)); [ulia|done].
Qed.

(** A transfer, a mint or a burn, with its log. *)
Lemma plain_call o k t0 t1 t2 v (s0 s1 s2 : St) :
  assets s1 = assets s0 -> logs s1 = logs s0 -> try_dispatch asset_id o k s1 = Ok s2 ->
  match k with assets_transfer _ _ | assets_mint _ _ | assets_burn _ _ => True | _ => False end ->
  length (logs (log3 address t0 t1 t2 v s2)) = S (length (logs s0)) /\
  forall x y, allowances (log3 address t0 t1 t2 v s2) x y = allowances s0 x y.
Proof.
  intros Has Hlg [Hd Hl]%dispatch_inv Hk. simpl. rewrite length_app, Hl, Hlg. split; [simpl; lia|].
  intros x y. unfold allowances. simpl. rewrite <- Has. by eapply other_allowance.
Qed.

Lemma token_call_allowances caller c (s s' : St) b :
  token_call caller c s = Ok (b, s') ->
  length (logs s') = S (length (logs s)) /\
  forall x y, allowances s' x y = erc20_step (allowances s) (caller, c) x y.
Proof.
  destruct c as [spender v|to v|from to v|to v|from v]; simpl; intros Hc;
    unfold approve, transfer, transfer_from, mint, burn in Hc; bind_inv Hc as s1 Hr;
    apply record_assets in Hr as [Has Hlg].
  - bind_inv Hc as s2 Ha. injection Hc as <- <-. apply approve_inner_allowances in Ha as [Hl Ha].
    simpl. rewrite length_app, Hl, Hlg. simpl. split; [lia|]. intros x y.
    unfold allowances at 1. simpl. fold (allowances s2). rewrite Ha. unfold set_allowance, allowances.
    by rewrite Has.
  - bind_inv Hc as v' Hv. bind_inv Hc as s2 Hd. injection Hc as <- <-. by eapply plain_call.
  - bind_inv Hc as v' Hv. unfold u256_to_amount in Hv. guard_inv Hv as Hle. injection Hv as <-.
    bind_inv Hc as s2 Hd. injection Hc as <- <-. unfold erc20_step. cbn [fst snd]. revert Hd.
    destruct (bool_decide (to_account caller = to_account from)); cbn [negb]; intros Hd;
      [by eapply plain_call|]. cbn [logs log3].
    apply dispatch_inv in Hd as [Hd Hl]. rewrite length_app, Hl, Hlg. split; [simpl; lia|].
    intros x y. unfold allowances, set_allowance. simpl. rewrite <- Has. by eapply approved_allowance.
  - bind_inv Hc as v' Hv. bind_inv Hc as s2 Hd. injection Hc as <- <-. by eapply plain_call.
  - bind_inv Hc as v' Hv. bind_inv Hc as s2 Hd. injection Hc as <- <-. by eapply plain_call.
Qed.

(** Two allowance tables with the same entries. *)
Abbreviation same_table := (pointwise_relation AccountId (pointwise_relation AccountId (@eq Z))).

#[local] Instance erc20_step_proper : Proper (same_table ==> eq ==> same_table) erc20_step.
Proof.
  intros f g Hfg cc ? <- x y. unfold erc20_step, set_allowance.
  destruct cc.2; try apply Hfg; [destruct (bool_decide _); [done|apply Hfg]|].
  destruct (bool_decide (to_account cc.1 = _)); [apply Hfg|].
  destruct (bool_decide _); [by rewrite (Hfg _ _)|apply Hfg].
Qed.

#[local] Instance erc20_fold_proper cs : Proper (same_table ==> same_table) (fun f => foldl erc20_step f cs).
Proof.
  induction cs as [|c cs IH]; intros f g Hfg; simpl; [done|]. apply IH. by apply erc20_step_proper.
Qed.

(** C31: whatever calls are made on the token, by whom and in whatever order, and
    whichever fail, the allowances are those that ERC-20 prescribes for the
    calls that succeeded (an approval replaces the one before it, cut off at
    the largest balance), and each successful call leaves one log. *)
Theorem allowances_follow_erc20 (cs : list (EvmAddress * TokenCall)) (s : St) (o d : EvmAddress) :
  let '(succeeded, s') := token_run cs s in
  allowances s' (to_account o) (to_account d) =
    foldl erc20_step (allowances s) succeeded (to_account o) (to_account d) /\
  length (logs s') = (length (logs s) + length succeeded)%nat.
Proof.
  revert s. induction cs as [|[caller c] cs IH]; intros s; simpl; [split; [done|lia]|].
  destruct (token_call caller c s) as [[b s1]|e] eqn:Hc; [|apply IH].
  specialize (IH s1). destruct (token_run cs s1) as [succeeded s'] eqn:Hrun. simpl.
  destruct (token_call_allowances _ _ _ _ _ Hc) as [Hl Ha]. destruct IH as [IHa IHl].
  split; [|lia]. rewrite IHa. apply (erc20_fold_proper succeeded). intros x y. apply Ha.
Qed.
End allowances.

(** ** Witnesses

    A token ledger in which accounts are numbers, an approval adds up and a
    burn takes at most what there is; gas is a counter. *)
Section example.
Record ToyAssets := mkToyAssets { ta_balance : gmap Z Z; ta_allowance : gmap (Z * Z) Z }.

Definition ta_bal (w : ToyAssets) (a : Z) : Z := default 0 (ta_balance w !! a).
Definition ta_allow (w : ToyAssets) (a b : Z) : Z := default 0 (ta_allowance w !! (a, b)).
Definition ta_move (a b x : Z) (w : ToyAssets) : option ToyAssets :=
  if x <=? ta_bal w a
  then let m := <[a := ta_bal w a - x]> (ta_balance w) in
       Some (mkToyAssets (<[b := default 0 (m !! b) + x]> m) (ta_allowance w))
  else None.
Definition ta_set (a b x : Z) (w : ToyAssets) : ToyAssets :=
  mkToyAssets (ta_balance w) (<[(a, b) := x]> (ta_allowance w)).

Definition ToyPalletAssets : PalletAssets Z ToyAssets := {|
  maybe_total_supply w i := if i =? 5 then Some 0 else None;
  assets_total_issuance w _ := map_sum (fun x => x) (ta_balance w);
  assets_balance w _ a := ta_bal w a;
  assets_allowance w _ a b := ta_allow w a b;
  assets_name _ _ := []; assets_symbol _ _ := []; assets_decimals _ _ := 18;
  assets_minimum_balance _ _ := 1;
  assets_dispatch a _ k w :=
    match k with
    | assets_transfer t x => ta_move a t x w
    | assets_transfer_approved o t x =>
        if x <=? ta_allow w o a then ta_move o t x (ta_set o a (ta_allow w o a - x) w) else None
    | assets_approve_transfer d x => Some (ta_set a d (sat_add u128_max (ta_allow w a d) x) w)
    | assets_cancel_approval d => Some (ta_set a d 0 w)
    | assets_mint b x =>
        Some (mkToyAssets (<[b := ta_bal w b + x]> (ta_balance w)) (ta_allowance w))
    | assets_burn b x =>
        Some (mkToyAssets (<[b := ta_bal w b - Z.min x (ta_bal w b)]> (ta_balance w))
                (ta_allowance w))
    end;
|}.
Existing Instance ToyPalletAssets.

Lemma ta_set_allow a b x w c d :
  ta_allow (ta_set a b x w) c d = if bool_decide (c = a /\ d = b) then x else ta_allow w c d.
Proof.
  unfold ta_allow, ta_set. simpl. case_bool_decide as Hb.
  - destruct Hb as [-> ->]. by rewrite lookup_insert_eq.
  - rewrite lookup_insert_ne; [done|]. intros [= -> ->]. tauto.
Qed.

Lemma ta_move_allow a b x w w' c d : ta_move a b x w = Some w' -> ta_allow w' c d = ta_allow w c d.
Proof. unfold ta_move. destruct (_ <=? _); [|done]. by intros [= <-]. Qed.

Lemma ToyPalletAssetsLaws : PalletAssetsLaws Z ToyAssets.
Proof.
  split; simpl.
  - intros w w' i a d x b c [= <-]. apply ta_set_allow.
  - intros w w' i a d b c [= <-]. apply ta_set_allow.
  - intros w w' i a o t x b c Hd. destruct (Z.leb_spec x (ta_allow w o a)); [|done]. split; [done|].
    apply (ta_move_allow _ _ _ _ _ b c) in Hd. rewrite Hd. apply ta_set_allow.
  - intros w w' i a k b c Hd Hk. destruct k; try done; [by eapply ta_move_allow| |];
      by injection Hd as <-.
Qed.
Existing Instance ToyPalletAssetsLaws.

#[local] Existing Instance ToyGasMeter.

Definition toy_account (a : EvmAddress) : Z := foldr Z.add 0 a.
Definition toy_selector (s : string) : bytes := bytes_of_string s.
Definition toy_token : PrecompileState Z ToyAssets :=
  mkPrecompileState 100 (mkToyAssets {[ 1 := 90; 2 := 40 ]} ∅) [].
Definition toy_calls20 : list (EvmAddress * TokenCall) :=
  [([1], tc_approve [3] 50); ([1], tc_approve [3] 30); ([3], tc_transfer_from [1] [2] 20);
   ([3], tc_transfer_from [1] [2] 20); ([1], tc_transfer [2] 5)].

(** The second approval replaces the first; the second transfer exceeds what
    is left of it. *)
Lemma allowances_follow_erc20_witness :
  let '(succeeded, s') := token_run toy_account toy_selector [] 5 toy_calls20 toy_token in
  length succeeded = 4%nat /\ allowances 5 s' 1 3 = 10.
Proof.
  pose proof (allowances_follow_erc20 toy_account toy_selector [] 5 toy_calls20 toy_token [1] [3]) as Ht.
  destruct (token_run toy_account toy_selector [] 5 toy_calls20 toy_token) as [succeeded s'] eqn:Hrun.
  destruct Ht as [Ha _].
  assert (Hs : succeeded = (token_run toy_account toy_selector [] 5 toy_calls20 toy_token).1)
    by by rewrite Hrun.
  change (allowances 5 s' (toy_account [1]) (toy_account [3])) with (allowances 5 s' 1 3) in Ha.
  rewrite Ha, Hs. clear. split; by vm_compute.
Defined.

Lemma asset_address_roundtrip_witness :
  address_to_asset_id (asset_id_to_address 340282366920938463463374607431768211455) =
  Some 340282366920938463463374607431768211455.
Proof.
  destruct (asset_address_roundtrip 340282366920938463463374607431768211455 (replicate 20 255))
    as [Hr _]; [unfold in_range; lia|done|by repeat constructor|exact Hr].
Defined.

(** Two assets are created and one of them is destroyed. *)
Lemma codes_follow_assets_witness :
  exists codes, code_history {[ [1] := [42] ]} ({[7]} ∪ ({[5]} ∪ ∅) ∖ {[5]}) codes /\
    codes !! asset_id_to_address 7 = Some EVM_REVERT_CODE.
Proof.
  assert (Hh : exists codes, code_history {[ [1] := [42] ]} ({[7]} ∪ ({[5]} ∪ ∅) ∖ {[5]}) codes).
  { eexists. eapply ch_created; [eapply ch_destroyed; [eapply ch_created; [apply ch_start|..]|]|..];
      try done; try (unfold in_range; lia); set_solver. }
  destruct Hh as [codes Hh]. exists codes. split; [done|].
  destruct (codes_follow_assets _ _ _ Hh) as [Hl _]. apply Hl. set_solver.
Defined.

(** A burn of more than the account holds takes what there is, as the assets
    pallet does (its amount is a maximum), but is logged with the full value:
    the log and the change of the supply disagree. *)
Theorem burn_logs_more_than_burned :
  exists s', burn toy_account toy_selector [9] [] 5 [2] 100 toy_token = Ok (true, s') /\
    ta_bal (assets toy_token) 2 = 40 /\ ta_bal (assets s') 2 = 0 /\
    log_data <$> logs s' = [100].
Proof. eexists. split; [by vm_compute|]. repeat split. Qed.
End example.
