(* ===== verification/DAppStakingPrecompile.v ===== *)
(** * The dApp staking precompile

    [precompiles/dapp-staking/src/lib.rs]: what an EVM account can read of dApp
    staking and which calls it can make, in the old interface (v1) and the new
    one (v2).  The calls are dispatched to the pallet of [DAppStaking], signed
    by the account of the caller; H160 addresses are numbers here, as in the
    pallet's contracts. *)

From stdpp Require Import strings.
From S2P Require Import Prelude Frame Primitives StakeAmount EraInfo AccountLedger.
From S2P Require Import SingularStakingInfo ContractStakeAmount EraRewardSpan Tiers Protocol.
From S2P Require Import PalletState DAppStaking TierAssignment EraHandler Invariant Preservation.
From S2P Require Import Reachability Operations ExampleWorld UnifiedAccounts PrecompileUtils.

(** ** Data *)

Record PrecompileProtocolState := mkPrecompileProtocolState {
  state_era : Z;
  state_period : Z;
  state_subperiod : Z;
}.

Inductive SmartContractTypes := EvmType | WasmType.

(** [Codec::read] of [SmartContractTypes], on a word that was read. *)
Definition read_contract_type (value256 : Z) : Result SmartContractTypes (EvmError DispatchError) :=
  if value256 <=? u8_max then
    if value256 =? 0 then Ok EvmType
    else if value256 =? 1 then Ok WasmType
    else Err (Revert "Unknown smart contract type")
  else Err ValueIsTooLarge.

(** [Codec::write]. *)
Definition write_contract_type (t : SmartContractTypes) : Z :=
  match t with EvmType => 0 | WasmType => 1 end.

Record SmartContractV2 := mkSmartContractV2 {
  contract_type : SmartContractTypes;
  contract_address : bytes;
}.

Definition subperiod_id (sp : Subperiod) : Z :=
  match sp with Voting => 0 | BuildAndEarn => 1 end.

(** The [max_encoded_len] of the types that are read. *)
Record EncodedLen := mkEncodedLen {
  len_protocol_state : Z;
  len_era_reward_span : Z;
  len_era_info : Z;
  len_account_ledger : Z;
  len_smart_contract : Z;
  len_singular_staking_info : Z;
  len_dapp_info : Z;
  len_contract_stake_amount : Z;
}.

Record EvmState (G S : Type) := mkEvmState { evm_gas : G; evm_storage : S }.
Arguments mkEvmState {G S}.
Arguments evm_gas {G S}.
Arguments evm_storage {G S}.

Section precompile.
Context {AccountId Origin W G : Type} `{Countable AccountId}.
Context `{!SpArithmetic, !Currency AccountId W, !FrameSystem AccountId Origin W}.
Context `{!Observer W, !StakingRewardHandler AccountId W, !AccountCheck AccountId W}.
Context `{!PrivilegedOrigins Origin, !PrefixOrder AccountId}.
Context `{!PriceProvider W, !TierSlots, !UnspecifiedOrder}.
Context `{!GasMeter (Call AccountId) G}.
Context (cfg : Config) (len : EncodedLen).
(** [Some(account).into()], [AddressMapping::into_account_id] and the account
    of 32 bytes. *)
Context (signed_origin : AccountId -> Origin) (into_account_id : Z -> AccountId).
Context (account_from_bytes : bytes -> AccountId).
(** [handle.context().caller]. *)
Context (caller : Z).

Abbreviation St := (EvmState G (Storage AccountId W)).
Abbreviation EvmResult A := (Result (A * St) (EvmError DispatchError)).

Definition record_db_read (size : Z) (s : St) : Result St (EvmError DispatchError) :=
  let! g := ok_or (charge (DbRead size) (evm_gas s)) OutOfGas in
  Ok (mkEvmState g (evm_storage s)).

(** [RuntimeHelper::try_dispatch]. *)
Definition try_dispatch (origin : AccountId) (call : Call AccountId) (s : St)
    : Result St (EvmError DispatchError) :=
  let! g := ok_or (charge (DispatchCost call) (evm_gas s)) OutOfGas in
  let! st := map_err DispatchFailed (dispatch cfg (signed_origin origin) call (evm_storage s)) in
  Ok (mkEvmState g st).

(** A call that only dispatches. *)
Definition dispatch_as_caller (call : Call AccountId) (s : St) : EvmResult bool :=
  let origin := into_account_id caller in
  let! s := try_dispatch origin call s in Ok (true, s).

(** ** Utility functions *)

Definition decode_smart_contract (smart_contract : SmartContractV2)
    : Result (SmartContract AccountId) (EvmError DispatchError) :=
  match contract_type smart_contract with
  | EvmType =>
      ensure! (length (contract_address smart_contract) =? 20)%nat
        else Revert "Invalid address length for Astar EVM smart contract." in
      Ok (Evm (from_be_bytes (contract_address smart_contract)))
  | WasmType =>
      ensure! (length (contract_address smart_contract) =? 32)%nat
        else Revert "Invalid address length for Astar WASM smart contract." in
      Ok (Wasm (account_from_bytes (contract_address smart_contract)))
  end.

Definition parse_input_address (staker_vec : bytes) : Result AccountId (EvmError DispatchError) :=
  if (length staker_vec =? 32)%nat then Ok (account_from_bytes staker_vec)
  else if (length staker_vec =? 20)%nat then Ok (into_account_id (from_be_bytes staker_vec))
  else Err (Revert "Error while parsing staker's address").

(** ** v1 functions *)

Definition read_current_era (s : St) : EvmResult Z :=
  let! s := record_db_read (8 + len_protocol_state len) s in
  Ok (era (ActiveProtocolState (evm_storage s)), s).

Definition read_unbonding_period (s : St) : EvmResult Z := Ok (UnlockingPeriod cfg, s).

Definition reward_span_of (st : Storage AccountId W) (e : Z) : EraRewardSpan :=
  match EraRewards st !! era_reward_span_index cfg e with
  | Some span => span
  | None => EraRewardSpan.new
  end.

Definition read_era_reward (e : Z) (s : St) : EvmResult Z :=
  let! s := record_db_read (12 + len_era_reward_span len) s in
  let reward_span := reward_span_of (evm_storage s) e in
  Ok (match EraRewardSpan.get reward_span e with
      | Some r => sat_add u128_max (staker_reward_pool r) (dapp_reward_pool r)
      | None => 0
      end, s).

Definition read_era_staked (e : Z) (s : St) : EvmResult Z :=
  let! s := record_db_read (8 + len_protocol_state len) s in
  let current_era := era (ActiveProtocolState (evm_storage s)) in
  if e <? current_era then
    let! s := record_db_read (20 + len_era_reward_span len) s in
    let reward_span := reward_span_of (evm_storage s) e in
    Ok (match EraRewardSpan.get reward_span e with
        | Some r => EraRewardSpan.staked r
        | None => 0
        end, s)
  else if (e =? current_era) || (e =? sat_add u32_max current_era 1) then
    let! s := record_db_read (8 + len_era_info len) s in
    let current_era_info := CurrentEraInfo (evm_storage s) in
    if e =? current_era then Ok (total (current_stake_amount current_era_info), s)
    else Ok (total (next_stake_amount current_era_info), s)
  else Err (Revert "Era is in the future").

Definition read_staked_amount (staker : bytes) (s : St) : EvmResult Z :=
  let! s := record_db_read
    (24 + len_account_ledger len + len_protocol_state len + len_smart_contract len) s in
  let! staker := parse_input_address staker in
  let ledger := ledger_of (evm_storage s) staker in
  let current_period_number := period_number (ActiveProtocolState (evm_storage s)) in
  Ok (AccountLedger.staked_amount ledger current_period_number, s).

(** [StakerInfo::get(..).unwrap_or_default()], its period and its total. *)
Definition staker_entry (st : Storage AccountId W) (a : AccountId) (c : SmartContract AccountId)
    : Z * Z :=
  match staker_info st a c with
  | Some i => (SingularStakingInfo.period_number i, SingularStakingInfo.total_staked_amount i)
  | None => (0, 0)
  end.

Definition read_staked_amount_on_contract (contract_h160 : Z) (staker : bytes) (s : St)
    : EvmResult Z :=
  let! s := record_db_read
    (24 + len_protocol_state len + len_smart_contract len + len_singular_staking_info len) s in
  let smart_contract := Evm contract_h160 in
  let! staker := parse_input_address staker in
  let staking_info := staker_entry (evm_storage s) staker smart_contract in
  let current_period_number := period_number (ActiveProtocolState (evm_storage s)) in
  if staking_info.1 =? current_period_number then Ok (staking_info.2, s) else Ok (0, s).

Definition read_contract_stake (contract_h160 : Z) (s : St) : EvmResult Z :=
  let! s := record_db_read
    (36 + len_protocol_state len + len_smart_contract len + len_dapp_info len
     + len_contract_stake_amount len) s in
  let smart_contract := Evm contract_h160 in
  let current_period_number := period_number (ActiveProtocolState (evm_storage s)) in
  match IntegratedDApps (evm_storage s) !! smart_contract with
  | None => Ok (0, s)
  | Some dapp_info =>
      let contract_stake := contract_stake_of (evm_storage s) (id dapp_info) in
      Ok (ContractStakeAmount.total_staked_amount contract_stake current_period_number, s)
  end.

Definition register (address : Z) (s : St) : EvmResult bool :=
  Err (Revert "register via evm precompile is not allowed").

Definition bond_and_stake (contract_h160 amount : Z) (s : St) : EvmResult bool :=
  let! s := record_db_read
    (24 + len_account_ledger len + len_protocol_state len + len_smart_contract len) s in
  let smart_contract := Evm contract_h160 in
  let origin := into_account_id caller in
  let protocol_state := ActiveProtocolState (evm_storage s) in
  let ledger := ledger_of (evm_storage s) origin in
  let stakeable_amount := AccountLedger.stakeable_amount ledger (period_number protocol_state) in
  let! s :=
    (if stakeable_amount <? amount then
       let delta := sat_sub amount stakeable_amount in
       try_dispatch origin (call_lock delta) s
     else Ok s) in
  let! s := try_dispatch origin (call_stake smart_contract amount) s in
  Ok (true, s).

Definition unbond_and_unstake (contract_h160 amount : Z) (s : St) : EvmResult bool :=
  let! s := record_db_read
    (24 + len_protocol_state len + len_smart_contract len + len_singular_staking_info len) s in
  let smart_contract := Evm contract_h160 in
  let origin := into_account_id caller in
  let protocol_state := ActiveProtocolState (evm_storage s) in
  let staker_info := staker_entry (evm_storage s) origin smart_contract in
  let! s :=
    (if staker_info.1 =? period_number protocol_state
     then try_dispatch origin (call_unstake smart_contract amount) s else Ok s) in
  let! s := try_dispatch origin (call_unlock amount) s in
  Ok (true, s).

Definition withdraw_unbonded (s : St) : EvmResult bool := dispatch_as_caller call_claim_unlocked s.

Definition era_from (e : Z) : Result Z (EvmError DispatchError) :=
  if e <=? u32_max then Ok e else Err ValueIsTooLarge.

Definition claim_dapp (contract_h160 e : Z) (s : St) : EvmResult bool :=
  let smart_contract := Evm contract_h160 in
  let! e := era_from e in dispatch_as_caller (call_claim_dapp_reward smart_contract e) s.

Definition claim_staker (contract_h160 : Z) (s : St) : EvmResult bool :=
  dispatch_as_caller call_claim_staker_rewards s.

Definition set_reward_destination (destination : Z) (s : St) : EvmResult bool :=
  Err (Revert "Setting reward destination is no longer supported.").

Definition withdraw_from_unregistered (contract_h160 : Z) (s : St) : EvmResult bool :=
  dispatch_as_caller (call_unstake_from_unregistered (Evm contract_h160)) s.

Definition nomination_transfer (origin_contract_h160 amount target_contract_h160 : Z) (s : St)
    : EvmResult bool :=
  let! s := record_db_read (16 + len_smart_contract len + len_singular_staking_info len) s in
  let origin_smart_contract := Evm origin_contract_h160 in
  let target_smart_contract := Evm target_contract_h160 in
  let origin := into_account_id caller in
  let staker_info := staker_entry (evm_storage s) origin origin_smart_contract in
  let staked_amount := staker_info.2 in
  let minimum_allowed_stake_amount := MinimumStakeAmount cfg in
  let stake_amount :=
    if (0 <? staked_amount) && (sat_sub staked_amount amount <? minimum_allowed_stake_amount)
    then staked_amount else amount in
  let! s := try_dispatch origin (call_unstake origin_smart_contract amount) s in
  let! s := try_dispatch origin (call_stake target_smart_contract stake_amount) s in
  Ok (true, s).

(** ** v2 functions *)

Definition protocol_state (s : St) : EvmResult PrecompileProtocolState :=
  let! s := record_db_read (8 + len_protocol_state len) s in
  let protocol_state := ActiveProtocolState (evm_storage s) in
  Ok (mkPrecompileProtocolState (era protocol_state) (period_number protocol_state)
        (subperiod_id (current_subperiod protocol_state)), s).

Definition unlocking_period (s : St) : EvmResult Z := Ok (PalletState.unlocking_period cfg, s).

Definition lock (amount : Z) (s : St) : EvmResult bool := dispatch_as_caller (call_lock amount) s.

Definition unlock (amount : Z) (s : St) : EvmResult bool :=
  dispatch_as_caller (call_unlock amount) s.

Definition claim_unlocked (s : St) : EvmResult bool := dispatch_as_caller call_claim_unlocked s.

Definition stake (smart_contract : SmartContractV2) (amount : Z) (s : St) : EvmResult bool :=
  let! smart_contract := decode_smart_contract smart_contract in
  dispatch_as_caller (call_stake smart_contract amount) s.

Definition unstake (smart_contract : SmartContractV2) (amount : Z) (s : St) : EvmResult bool :=
  let! smart_contract := decode_smart_contract smart_contract in
  dispatch_as_caller (call_unstake smart_contract amount) s.

Definition claim_staker_rewards (s : St) : EvmResult bool :=
  dispatch_as_caller call_claim_staker_rewards s.

Definition claim_bonus_reward (smart_contract : SmartContractV2) (s : St) : EvmResult bool :=
  let! smart_contract := decode_smart_contract smart_contract in
  dispatch_as_caller (call_claim_bonus_reward smart_contract) s.

Definition claim_dapp_reward (smart_contract : SmartContractV2) (e : Z) (s : St) : EvmResult bool :=
  let! smart_contract := decode_smart_contract smart_contract in
  let! e := era_from e in dispatch_as_caller (call_claim_dapp_reward smart_contract e) s.

Definition unstake_from_unregistered (smart_contract : SmartContractV2) (s : St) : EvmResult bool :=
  let! smart_contract := decode_smart_contract smart_contract in
  dispatch_as_caller (call_unstake_from_unregistered smart_contract) s.

Definition cleanup_expired_entries (s : St) : EvmResult bool :=
  dispatch_as_caller call_cleanup_expired_entries s.
End precompile.

(** ** The interface

    The functions that change the state, with the arguments the ABI decodes;
    the signatures that the precompile answers to and those of the Solidity
    interfaces [DappsStakingV2.sol] and [DappsStakingV3.sol]. *)
Inductive EvmCall :=
| evm_register (address : Z)
| evm_bond_and_stake (contract_h160 amount : Z)
| evm_unbond_and_unstake (contract_h160 amount : Z)
| evm_withdraw_unbonded
| evm_claim_dapp (contract_h160 e : Z)
| evm_claim_staker (contract_h160 : Z)
| evm_set_reward_destination (destination : Z)
| evm_withdraw_from_unregistered (contract_h160 : Z)
| evm_nomination_transfer (origin_contract_h160 amount target_contract_h160 : Z)
| evm_lock (amount : Z)
| evm_unlock (amount : Z)
| evm_claim_unlocked
| evm_stake (smart_contract : SmartContractV2) (amount : Z)
| evm_unstake (smart_contract : SmartContractV2) (amount : Z)
| evm_claim_staker_rewards
| evm_claim_bonus_reward (smart_contract : SmartContractV2)
| evm_claim_dapp_reward (smart_contract : SmartContractV2) (e : Z)
| evm_unstake_from_unregistered (smart_contract : SmartContractV2)
| evm_cleanup_expired_entries.

(** The amounts are decoded as [uint128]. *)
Definition evm_call_typed (c : EvmCall) : Prop :=
  match c with
  | evm_bond_and_stake _ x | evm_unbond_and_unstake _ x | evm_nomination_transfer _ x _
  | evm_lock x | evm_unlock x | evm_stake _ x | evm_unstake _ x => in_range u128_max x
  | _ => True
  end.

Definition exposed_signatures : list string :=
  ["read_current_era()"; "read_unbonding_period()"; "read_era_reward(uint32)";
   "read_era_staked(uint32)"; "read_staked_amount(bytes)";
   "read_staked_amount_on_contract(address,bytes)"; "read_contract_stake(address)";
   "register(address)"; "bond_and_stake(address,uint128)"; "unbond_and_unstake(address,uint128)";
   "withdraw_unbonded()"; "claim_dapp(address,uint128)"; "claim_staker(address)";
   "set_reward_destination(uint8)"; "withdraw_from_unregistered(address)";
   "nomination_transfer(address,uint128,address)"; "protocol_state()"; "unlocking_period()";
   "lock(uint128)"; "unlock(uint128)"; "claim_unlocked()"; "stake((uint8,bytes),uint128)";
   "unstake((uint8,bytes),uint128)"; "claim_staker_rewards()"; "claim_bonus_reward((uint8,bytes))";
   "claim_bonus_reward((uint8,bytes),uint256)"; "unstake_from_unregistered((uint8,bytes))";
   "cleanup_expired_entries()"]%string.

Definition interface_v2 : list string :=
  ["read_current_era()"; "read_unbonding_period()"; "read_era_reward(uint32)";
   "read_era_staked(uint32)"; "read_staked_amount(bytes)";
   "read_staked_amount_on_contract(address,bytes)"; "read_contract_stake(address)";
   "register(address)"; "bond_and_stake(address,uint128)"; "unbond_and_unstake(address,uint128)";
   "withdraw_unbonded()"; "claim_staker(address)"; "claim_dapp(address,uint128)";
   "set_reward_destination(uint8)"; "withdraw_from_unregistered(address)";
   "nomination_transfer(address,uint128,address)"]%string.

Definition interface_v3 : list string :=
  ["protocol_state()"; "unlocking_period()"; "lock(uint128)"; "unlock(uint128)";
   "claim_unlocked()"; "stake((uint8,bytes),uint128)"; "unstake((uint8,bytes),uint128)";
   "claim_staker_rewards()"; "claim_bonus_reward((uint8,bytes))";
   "claim_dapp_reward((uint8,bytes),uint256)"; "unstake_from_unregistered((uint8,bytes))";
   "cleanup_expired_entries()"]%string.

(** Of the functions that the Solidity interfaces declare, the precompile
    answers to all but [claim_dapp_reward], which it exposes under the name of
    [claim_bonus_reward]. *)
Theorem interface_function_missing :
  filter (fun f => f ∉ exposed_signatures) (interface_v2 ++ interface_v3) =
    ["claim_dapp_reward((uint8,bytes),uint256)"%string] /\
  filter (fun f => f ∉ interface_v2 ++ interface_v3) exposed_signatures =
    ["claim_bonus_reward((uint8,bytes),uint256)"%string].
Proof. split; by vm_compute. Qed.

Section theorems.
Context {AccountId Origin W G : Type} `{Countable AccountId}.
Context `{!SpArithmetic, !Currency AccountId W, !FrameSystem AccountId Origin W}.
Context `{!Observer W, !StakingRewardHandler AccountId W, !AccountCheck AccountId W}.
Context `{!PrivilegedOrigins Origin, !PrefixOrder AccountId}.
Context `{!PriceProvider W, !TierSlots, !UnspecifiedOrder}.
Context `{!CurrencyLaws AccountId W, !RewardHandlerLaws AccountId W, !ObserverLaws AccountId W}.
Context `{!GasMeter (Call AccountId) G}.
Context (cfg : Config) (len : EncodedLen).
Context (signed_origin : AccountId -> Origin) (into_account_id : Z -> AccountId).
Context (account_from_bytes : bytes -> AccountId).

Abbreviation St := (EvmState G (Storage AccountId W)).

Definition evm_call (caller : Z) (c : EvmCall) (s : St)
    : Result (bool * St) (EvmError DispatchError) :=
  match c with
  | evm_register a => register a s
  | evm_bond_and_stake c x => bond_and_stake cfg len signed_origin into_account_id caller c x s
  | evm_unbond_and_unstake c x =>
      unbond_and_unstake cfg len signed_origin into_account_id caller c x s
  | evm_withdraw_unbonded => withdraw_unbonded cfg signed_origin into_account_id caller s
  | evm_claim_dapp c e => claim_dapp cfg signed_origin into_account_id caller c e s
  | evm_claim_staker c => claim_staker cfg signed_origin into_account_id caller c s
  | evm_set_reward_destination d => set_reward_destination d s
  | evm_withdraw_from_unregistered c =>
      withdraw_from_unregistered cfg signed_origin into_account_id caller c s
  | evm_nomination_transfer c x d =>
      nomination_transfer cfg len signed_origin into_account_id caller c x d s
  | evm_lock x => lock cfg signed_origin into_account_id caller x s
  | evm_unlock x => unlock cfg signed_origin into_account_id caller x s
  | evm_claim_unlocked => claim_unlocked cfg signed_origin into_account_id caller s
  | evm_stake c x => stake cfg signed_origin into_account_id account_from_bytes caller c x s
  | evm_unstake c x => unstake cfg signed_origin into_account_id account_from_bytes caller c x s
  | evm_claim_staker_rewards => claim_staker_rewards cfg signed_origin into_account_id caller s
  | evm_claim_bonus_reward c =>
      claim_bonus_reward cfg signed_origin into_account_id account_from_bytes caller c s
  | evm_claim_dapp_reward c e =>
      claim_dapp_reward cfg signed_origin into_account_id account_from_bytes caller c e s
  | evm_unstake_from_unregistered c =>
      unstake_from_unregistered cfg signed_origin into_account_id account_from_bytes caller c s
  | evm_cleanup_expired_entries =>
      cleanup_expired_entries cfg signed_origin into_account_id caller s
  end.

(** The pallet calls of one account, in order. *)
Fixpoint dispatches (o : Origin) (cs : list (Call AccountId)) (s : Storage AccountId W)
    : Result (Storage AccountId W) DispatchError :=
  match cs with
  | [] => Ok s
  | c :: cs => let! s := dispatch cfg o c s in dispatches o cs s
  end.

Lemma record_storage n (s s' : St) :
  record_db_read n s = Ok s' -> evm_storage s' = evm_storage s.
Proof. unfold record_db_read. intros Hr. result_inv. done. Qed.

Lemma try_dispatch_storage a c (s s' : St) :
  try_dispatch cfg signed_origin a c s = Ok s' ->
  dispatch cfg (signed_origin a) c (evm_storage s) = Ok (evm_storage s').
Proof. unfold try_dispatch. intros Hd. result_inv. done. Qed.

Lemma as_caller_storage caller c (s s' : St) b :
  dispatch_as_caller cfg signed_origin into_account_id caller c s = Ok (b, s') ->
  dispatch cfg (signed_origin (into_account_id caller)) c (evm_storage s) = Ok (evm_storage s').
Proof.
  unfold dispatch_as_caller. intros Hd. cbv zeta in Hd. bind_inv Hd as s1 Ht.
  injection Hd as <- <-. by apply try_dispatch_storage.
Qed.

Lemma dispatches_snoc o cs c s s1 s2 :
  dispatches o cs s = Ok s1 -> dispatch cfg o c s1 = Ok s2 -> dispatches o (cs ++ [c]) s = Ok s2.
Proof.
  revert s. induction cs as [|k cs IH]; intros s; simpl.
  - intros [= ->] ->. done.
  - intros Hd Hc. bind_inv Hd as s0 Hk. by apply IH.
Qed.

(** The calls that any account may sign for itself. *)
Definition user_call (c : Call AccountId) : bool :=
  match c with
  | call_lock _ | call_unlock _ | call_claim_unlocked | call_stake _ _ | call_unstake _ _
  | call_claim_staker_rewards | call_claim_bonus_reward _ | call_claim_dapp_reward _ _
  | call_unstake_from_unregistered _ | call_cleanup_expired_entries => true
  | _ => false
  end.

(** [s'] is [s] after user calls of the caller. *)
Definition user_calls (caller : Z) (s s' : St) : Prop :=
  exists cs, (length cs <= 2)%nat /\ Forall (fun c => user_call c = true /\ call_typed c) cs /\
    dispatches (signed_origin (into_account_id caller)) cs (evm_storage s) = Ok (evm_storage s').

Lemma one_call caller c (s s' : St) b :
  user_call c = true -> call_typed c ->
  dispatch_as_caller cfg signed_origin into_account_id caller c s = Ok (b, s') ->
  b = true /\ user_calls caller s s'.
Proof.
  intros Hu Ht Hd. split; [unfold dispatch_as_caller in Hd; cbv zeta in Hd; by result_inv|].
  apply as_caller_storage in Hd. exists [c]. split; [simpl; lia|]. split; [by repeat constructor|].
  simpl. by rewrite Hd.
Qed.

Lemma stakeable_nonneg l p : 0 <= AccountLedger.stakeable_amount l p.
Proof. unfold AccountLedger.stakeable_amount. ulia. Qed.

Section pallet.
Context (Hcfg : config_ok cfg).
Context (Hsigned : forall a, ensure_signed (W := W) (signed_origin a) = Some a).

Lemma dispatches_reachable o cs s s' :
  Forall (fun c => user_call c = true /\ call_typed c) cs ->
  reachable cfg s -> dispatches o cs s = Ok s' -> reachable cfg s'.
Proof.
  intros Hcs. revert s. induction Hcs as [|c cs [_ Hc] Hcs IH]; simpl; intros s Hr Hd;
    [by injection Hd as <-|]. bind_inv Hd as s1 Hd1. apply (IH s1); [|done].
  eapply reachable_step; [done|]. by apply (step_call cfg o c).
Qed.

(** The stake that a transfer between contracts moves. *)
Definition moved_amount (st : Storage AccountId W) (a : AccountId) (c : SmartContract AccountId)
    (x : Z) : Z :=
  let staked_amount := (staker_entry st a c).2 in
  if (0 <? staked_amount) && (sat_sub staked_amount x <? MinimumStakeAmount cfg)
  then staked_amount else x.

Lemma moved_is_unstaked (st : Storage AccountId W) a c i x :
  Inv cfg st -> staker_info st a c = Some i -> SingularStakingInfo.period_number i = current_period st ->
  0 <= x <= u128_max ->
  moved_amount st a c x = amount_to_unstake cfg i x /\ in_range u128_max (moved_amount st a c x).
Proof.
  intros Hinv Hi Hper Hx. pose proof (inv_staker _ st Hinv a c i Hi) as [_ _ Hmin].
  pose proof (entry_covered cfg Hcfg st a c i Hinv Hi Hper) as Hcov.
  destruct (account_facts cfg Hcfg st a Hinv) as (Hli & Hlk & Hun & Hb & Htl & Hst).
  pose proof (config_integrity cfg Hcfg) as Hint. unfold integrity_test in Hint.
  rewrite !andb_true_iff in Hint.
  assert (0 < MinimumStakeAmount cfg) by lia.
  unfold moved_amount, amount_to_unstake, staker_entry. rewrite Hi. cbn [snd].
  rewrite (proj2 (Z.ltb_lt 0 _)) by lia. cbn [andb]. split; [done|].
  clear Hint. unfold in_range. destruct (_ <? _); lia.
Qed.

(** A run of calls, one dispatch at a time. *)
Lemma user_calls_two caller (c1 c2 : Call AccountId) (s s1 s2 : St) :
  user_call c1 = true -> call_typed c1 -> user_call c2 = true -> call_typed c2 ->
  try_dispatch cfg signed_origin (into_account_id caller) c1 s = Ok s1 ->
  try_dispatch cfg signed_origin (into_account_id caller) c2 s1 = Ok s2 -> user_calls caller s s2.
Proof.
  intros U1 T1 U2 T2 D1%try_dispatch_storage D2%try_dispatch_storage. exists [c1; c2].
  split; [done|]. split; [by repeat constructor|]. simpl. by rewrite D1, D2.
Qed.

Lemma user_calls_one caller (c : Call AccountId) (s s1 : St) :
  user_call c = true -> call_typed c ->
  try_dispatch cfg signed_origin (into_account_id caller) c s = Ok s1 -> user_calls caller s s1.
Proof.
  intros U1 T1 D1%try_dispatch_storage. exists [c].
  split; [simpl; lia|]. split; [by repeat constructor|]. simpl. by rewrite D1.
Qed.

Lemma user_calls_recorded caller n (s s1 s2 : St) :
  record_db_read n s = Ok s1 -> user_calls caller s1 s2 -> user_calls caller s s2.
Proof. intros Hr%record_storage (cs & ? & ? & Hd). exists cs. by rewrite <- Hr. Qed.

Lemma bond_and_stake_calls caller c x (s s' : St) b :
  in_range u128_max x ->
  bond_and_stake cfg len signed_origin into_account_id caller c x s = Ok (b, s') ->
  b = true /\ user_calls caller s s'.
Proof.
  intros Hx Hc. unfold bond_and_stake in Hc. cbv zeta in Hc.
  bind_inv Hc as s1 Hs1. bind_inv Hc as s2 Hs2. bind_inv Hc as s3 Hs3. injection Hc as <- <-.
  split; [done|]. apply (user_calls_recorded _ _ _ _ _ Hs1). destruct (_ <? _).
  - eapply user_calls_two; [..|exact Hs2|exact Hs3]; try done.
    pose proof (stakeable_nonneg (ledger_of (evm_storage s1) (into_account_id caller))
      (period_number (ActiveProtocolState (evm_storage s1)))). simpl. ulia.
  - injection Hs2 as <-. by eapply user_calls_one; [..|exact Hs3].
Qed.

Lemma unbond_and_unstake_calls caller c x (s s' : St) b :
  in_range u128_max x ->
  unbond_and_unstake cfg len signed_origin into_account_id caller c x s = Ok (b, s') ->
  b = true /\ user_calls caller s s'.
Proof.
  intros Hx Hc. unfold unbond_and_unstake in Hc. cbv zeta in Hc.
  bind_inv Hc as s1 Hs1. bind_inv Hc as s2 Hs2. bind_inv Hc as s3 Hs3. injection Hc as <- <-.
  split; [done|]. apply (user_calls_recorded _ _ _ _ _ Hs1). destruct (_ =? _).
  - by eapply user_calls_two; [..|exact Hs2|exact Hs3].
  - injection Hs2 as <-. by eapply user_calls_one; [..|exact Hs3].
Qed.

(** The two calls of a transfer between contracts. *)
Lemma nomination_transfer_inv caller c x d (s s' : St) b :
  nomination_transfer cfg len signed_origin into_account_id caller c x d s = Ok (b, s') ->
  let a := into_account_id caller in
  b = true /\ exists s1 s2, evm_storage s1 = evm_storage s /\
    try_dispatch cfg signed_origin a (call_unstake (Evm c) x) s1 = Ok s2 /\
    try_dispatch cfg signed_origin a
      (call_stake (Evm d) (moved_amount (evm_storage s) a (Evm c) x)) s2 = Ok s'.
Proof.
  intros Hc a. unfold nomination_transfer in Hc. cbv zeta in Hc.
  bind_inv Hc as s1 Hs1. bind_inv Hc as s2 Hs2. bind_inv Hc as s3 Hs3. injection Hc as <- <-.
  split; [done|]. apply record_storage in Hs1. exists s1, s2. rewrite <- Hs1. done.
Qed.

Lemma nomination_transfer_calls caller c x d (s s' : St) b :
  Inv cfg (evm_storage s) -> current_era (evm_storage s) < u32_max -> in_range u128_max x ->
  nomination_transfer cfg len signed_origin into_account_id caller c x d s = Ok (b, s') ->
  b = true /\ user_calls caller s s'.
Proof.
  intros Hinv Hmax Hx Hc. apply nomination_transfer_inv in Hc as (-> & s1 & s2 & Hs1 & Hs2 & Hs3).
  split; [done|]. apply try_dispatch_storage in Hs2 as Hun. rewrite Hs1 in Hun. simpl in Hun.
  apply (unstake_effect cfg _ _ _ _ _ Hcfg Hinv Hmax) in Hun as (a & i & Hsig & Hi & Hper & _).
  rewrite Hsigned in Hsig. injection Hsig as <-.
  destruct (moved_is_unstaked _ _ _ i x Hinv Hi Hper Hx) as [_ Hmv].
  destruct (user_calls_two caller (call_unstake (Evm c) x) (call_stake (Evm d)
    (moved_amount (evm_storage s) (into_account_id caller) (Evm c) x)) s1 s2 s')
    as (cs & ? & ? & Hd); try done. exists cs. by rewrite <- Hs1.
Qed.

(** C32: whatever an account asks of the precompile, a call that succeeds
    returns true and amounts to at most two calls of the pallet that any
    account may make for itself, signed by the account of the caller (never a
    privileged call, never in the name of another), so that the state stays
    one that the pallet reaches. *)
Theorem evm_calls_are_user_calls (caller : Z) (c : EvmCall) (s s' : St) (b : bool) :
  reachable cfg (evm_storage s) -> current_era (evm_storage s) < u32_max -> evm_call_typed c ->
  evm_call caller c s = Ok (b, s') ->
  b = true /\ user_calls caller s s' /\ reachable cfg (evm_storage s').
Proof.
  intros Hr Hmax Ht Hc. pose proof (reachable_inv cfg Hcfg _ Hr Hmax) as Hinv.
  assert (Hu : b = true /\ user_calls caller s s').
  2:{ destruct Hu as [Hb Hu]. split; [done|]. split; [done|]. destruct Hu as (cs & _ & Hcs & Hd).
      by eapply dispatches_reachable. }
  destruct c; simpl in Hc, Ht; try done; try (by eapply one_call; [..|exact Hc]).
  - by eapply bond_and_stake_calls.
  - by eapply unbond_and_unstake_calls.
  - unfold claim_dapp in Hc. cbv zeta in Hc. bind_inv Hc as e' He. by eapply one_call; [..|exact Hc].
  - by eapply nomination_transfer_calls.
  - unfold stake in Hc. bind_inv Hc as k Hk. by eapply one_call; [..|exact Hc].
  - unfold unstake in Hc. bind_inv Hc as k Hk. by eapply one_call; [..|exact Hc].
  - unfold claim_bonus_reward in Hc. bind_inv Hc as k Hk. by eapply one_call; [..|exact Hc].
  - unfold claim_dapp_reward in Hc. bind_inv Hc as k Hk. bind_inv Hc as e' He.
    by eapply one_call; [..|exact Hc].
  - unfold unstake_from_unregistered in Hc. bind_inv Hc as k Hk. by eapply one_call; [..|exact Hc].
Qed.

Lemma dispatch_next o c (s s' : Storage AccountId W) :
  call_typed c -> Inv cfg s -> current_era s < u32_max -> dispatch cfg o c s = Ok s' ->
  Inv cfg s' /\ current_era s' < u32_max.
Proof.
  intros Ht Hinv Hmax Hd. split; [by eapply dispatch_preserves|].
  apply dispatch_clock in Hd as [He _]. unfold current_era in *. lia.
Qed.

(** C38: a transfer of stake from one contract to another that succeeds takes
    the amount, or the whole stake exactly when less than the minimum would
    remain, from the one and puts exactly that on the other: the caller's total
    stake, what it has locked and the stake of the protocol do not change. *)
Theorem nomination_transfer_conserves (caller c x d : Z) (s s' : St) (b : bool) :
  reachable cfg (evm_storage s) -> current_era (evm_storage s) < u32_max -> in_range u128_max x ->
  c <> d ->
  nomination_transfer cfg len signed_origin into_account_id caller c x d s = Ok (b, s') ->
  let a := into_account_id caller in
  let st := evm_storage s in
  let st' := evm_storage s' in
  let had := stake_on_contract st a (Evm c) in
  let y := if Z.max 0 (had - x) <? MinimumStakeAmount cfg then had else x in
  stake_on_contract st' a (Evm c) = had - y /\
  stake_on_contract st' a (Evm d) = stake_on_contract st a (Evm d) + y /\
  stake_of st' a = stake_of st a /\ locked (ledger_of st' a) = locked (ledger_of st a) /\
  total_staked_amount_next_era (CurrentEraInfo st') =
    total_staked_amount_next_era (CurrentEraInfo st).
Proof.
  intros Hr Hmax Hx Hne Hc a st st' had y. pose proof (reachable_inv cfg Hcfg _ Hr Hmax) as Hinv.
  apply nomination_transfer_inv in Hc as (-> & s1 & s2 & Es & Hun & Hst).
  apply try_dispatch_storage in Hun. apply try_dispatch_storage in Hst. rewrite Es in Hun.
  fold a st in Hun, Hst. fold st' in Hst.
  destruct (dispatch_next _ (call_unstake (Evm c) x) _ _ Hx Hinv Hmax Hun) as [Hinv2 Hmax2]. simpl in Hun, Hst.
  apply (unstake_effect cfg _ _ _ _ _ Hcfg Hinv Hmax) in Hun
    as (a1 & i & Hs1 & Hi & Hper & U1 & U2 & _ & U3 & U4 & _ & U5).
  apply (stake_effect cfg _ _ _ _ _ Hcfg Hinv2 Hmax2) in Hst
    as (a2 & Hs2 & V1 & V2 & V3 & _ & V4 & _ & _ & V5).
  rewrite Hsigned in Hs1, Hs2. injection Hs1 as <-. injection Hs2 as <-.
  destruct (moved_is_unstaked st a (Evm c) i x Hinv Hi Hper Hx) as [Hmv _].
  rewrite Hmv in V1, V2, V3.
  assert (Hy : y = amount_to_unstake cfg i x).
  { unfold y, had, stake_on_contract, stake_in, amount_to_unstake, sat_sub. fold st in Hi.
    by rewrite Hi, Hper, Z.eqb_refl. }
  rewrite Hy. unfold had. rewrite V2, V1, V3, V4, (V5 (Evm c)), (U5 (Evm d)) by congruence.
  unfold st in *. split_and!; lia.
Qed.

(** A bond-and-stake that succeeds raises the caller's stake and its stake on
    the contract by exactly the amount, and locks no more than what was missing
    for that. *)
Theorem bond_and_stake_outcome (caller c x : Z) (s s' : St) (b : bool) :
  reachable cfg (evm_storage s) -> current_era (evm_storage s) < u32_max -> in_range u128_max x ->
  bond_and_stake cfg len signed_origin into_account_id caller c x s = Ok (b, s') ->
  let a := into_account_id caller in
  let st := evm_storage s in
  let st' := evm_storage s' in
  stake_of st' a = stake_of st a + x /\
  stake_on_contract st' a (Evm c) = stake_on_contract st a (Evm c) + x /\
  locked (ledger_of st' a) = Z.max (locked (ledger_of st a)) (stake_of st a + x).
Proof.
  intros Hr Hmax Hx Hc a st st'. pose proof (reachable_inv cfg Hcfg _ Hr Hmax) as Hinv.
  unfold bond_and_stake in Hc. cbv zeta in Hc.
  bind_inv Hc as s1 Hs1. bind_inv Hc as s2 Hs2. bind_inv Hc as s3 Hs3. injection Hc as <- <-.
  apply record_storage in Hs1. rewrite Hs1 in Hs2. fold a st in Hs2, Hs3.
  apply try_dispatch_storage in Hs3.
  destruct (account_facts cfg Hcfg st a Hinv) as (Hli & Hlk & Hun & Hb & Htl & Hsl).
  fold (current_period st) in Hs2. unfold AccountLedger.stakeable_amount, active_locked_amount in Hs2.
  fold (stake_of st a) in Hsl, Hs2.
  assert (Hlock : exists st1, dispatch cfg (signed_origin a) (call_stake (Evm c) x) st1 = Ok st' /\
    Inv cfg st1 /\ current_era st1 < u32_max /\ stake_of st1 a = stake_of st a /\
    stake_on_contract st1 a (Evm c) = stake_on_contract st a (Evm c) /\
    locked (ledger_of st a) <= locked (ledger_of st1 a) <=
      Z.max (locked (ledger_of st a)) (stake_of st a + x)).
  { exists (evm_storage s2). split; [done|]. unfold in_range in Hx.
    destruct (Z.ltb_spec (sat_sub (locked (ledger_of st a)) (stake_of st a)) x) as [Hlt|Hge].
    - apply try_dispatch_storage in Hs2. rewrite Hs1 in Hs2.
      destruct (dispatch_next (signed_origin a) _ _ _
        (ltac:(simpl; ulia) : call_typed (call_lock
          (sat_sub x (sat_sub (locked (ledger_of st a)) (stake_of st a))))) Hinv Hmax Hs2) as [Hi2 Hm2].
      simpl in Hs2. apply (lock_effect cfg _ _ _ _ Hcfg) in Hs2
        as (a1 & Ha1 & L1 & L2 & L3 & _); [|ulia|done].
      rewrite Hsigned in Ha1. injection Ha1 as <-. unfold stake_of, st in *.
      split_and!; try done; try apply L2; ulia.
    - injection Hs2 as <-. rewrite Hs1. unfold stake_of, st in *. split_and!; try done; ulia. }
  destruct Hlock as (st1 & Hd & Hi1 & Hm1 & E1 & E2 & E3). simpl in Hd.
  pose proof (dispatch_next (signed_origin a) (call_stake (Evm c) x) st1 st' Hx Hi1 Hm1 Hd) as [Hi' _].
  apply (stake_effect cfg _ _ _ _ _ Hcfg Hi1 Hm1) in Hd as (a2 & Ha2 & V1 & V2 & _ & _ & V4 & _).
  rewrite Hsigned in Ha2. injection Ha2 as <-.
  destruct (account_facts cfg Hcfg st' a Hi') as (_ & _ & _ & _ & _ & Hst').
  fold (stake_of st' a) in Hst'. split_and!; lia.
Qed.

(** In every reachable state the read functions agree with each other and
    with the pallet: for a well-formed address the stake on a contract is the
    caller's stake there in the ongoing period, never more than the stake of
    the account, which is never more than what it has locked. *)
Theorem reads_agree (h160 : Z) (staker : bytes) (s s1 s2 : St) (a : AccountId) (x y : Z) :
  reachable cfg (evm_storage s) -> current_era (evm_storage s) < u32_max ->
  parse_input_address into_account_id account_from_bytes staker = Ok a ->
  read_staked_amount len into_account_id account_from_bytes staker s = Ok (x, s1) ->
  read_staked_amount_on_contract len into_account_id account_from_bytes h160 staker s = Ok (y, s2) ->
  evm_storage s1 = evm_storage s /\ evm_storage s2 = evm_storage s /\
  x = stake_of (evm_storage s) a /\ y = stake_on_contract (evm_storage s) a (Evm h160) /\
  0 <= y <= x /\ x <= locked (ledger_of (evm_storage s) a).
Proof.
  intros Hr Hmax Ha Hx Hy. pose proof (reachable_inv cfg Hcfg _ Hr Hmax) as Hinv.
  unfold read_staked_amount in Hx. unfold read_staked_amount_on_contract in Hy. rewrite Ha in Hx, Hy.
  cbv zeta in Hx, Hy. bind_inv Hx as s3 H3. bind_inv Hy as s4 H4. apply record_storage in H3, H4.
  injection Hx as <- <-. rewrite H3, H4 in *. split; [done|].
  destruct (account_facts cfg Hcfg (evm_storage s) a Hinv) as (_ & Hlk & _ & _ & _ & Hsl).
  pose proof (inv_clock _ _ Hinv) as Hclk. unfold current_period in *.
  assert (Hcon : evm_storage s2 = evm_storage s /\ y = stake_on_contract (evm_storage s) a (Evm h160)).
  { unfold stake_on_contract, stake_in, current_period. unfold staker_entry in Hy.
    destruct (staker_info (evm_storage s) a (Evm h160)) as [i|]; cbn [fst snd] in Hy.
    - destruct (_ =? _); by injection Hy as <- <-.
    - rewrite (proj2 (Z.eqb_neq _ _)) in Hy by lia. by injection Hy as <- <-. }
  destruct Hcon as [Hs2 ->]. split; [done|]. split; [done|]. split; [done|].
  split; [|unfold current_period in *; lia].
  unfold stake_on_contract. destruct (staker_info (evm_storage s) a (Evm h160)) as [i|] eqn:Hi;
    [|unfold current_period in *; lia].
  pose proof (inv_staker _ _ Hinv a (Evm h160) i Hi) as [_ _ Hmin].
  pose proof (config_integrity cfg Hcfg) as Hint. unfold integrity_test in Hint.
  rewrite !andb_true_iff in Hint. assert (0 < MinimumStakeAmount cfg) by lia. clear Hint.
  unfold stake_in. destruct (Z.eqb_spec (SingularStakingInfo.period_number i)
    (current_period (evm_storage s))) as [Hper|Hper]; [|unfold current_period in *; lia].
  pose proof (entry_covered cfg Hcfg _ a (Evm h160) i Hinv Hi Hper).
  unfold current_period in *. lia.
Qed.
End pallet.
End theorems.

(** ** Witnesses: after the first run of [ExampleWorld], with a second EVM
    contract registered and the rewards of account 1 claimed *)
Section example.
#[local] Existing Instances ExactArithmetic StableOrder ToyGasMeter.

Definition evm_run_acts : list Action :=
  first_run ++ [act_call Root (call_register 9 (Evm 2)); act_call (Signed 1) call_claim_staker_rewards].
Definition evm_first : ExSt := state_after evm_run_acts.
Definition toy_len : EncodedLen := mkEncodedLen 1 1 1 1 1 1 1 1.
Definition evm_start : EvmState Z ExSt := mkEvmState 50 evm_first.

Lemma evm_first_reachable : reachable ex_cfg evm_first /\ current_era evm_first < u32_max.
Proof.
  assert (Hera : current_era evm_first < u32_max) by by vm_compute.
  split; [|done].
  apply (run_reachable evm_run_acts ex_start evm_first); [|apply ex_start_reachable|by vm_compute|done].
  unfold evm_run_acts. apply Forall_app. split; [apply first_run_typed|by repeat constructor].
Qed.

Lemma ex_signed (a : Z) : ensure_signed (W := ExWorld) (Signed a) = Some a.
Proof. done. Qed.

Lemma evm_calls_are_user_calls_witness :
  match evm_call ex_cfg toy_len Signed (fun a => a) from_be_bytes 1 (evm_bond_and_stake 2 900) evm_start with
  | Ok (b, s') => b = true /\ reachable ex_cfg (evm_storage s')
  | Err _ => False
  end.
Proof.
  destruct (evm_call ex_cfg toy_len Signed (fun a => a) from_be_bytes 1 (evm_bond_and_stake 2 900)
    evm_start) as [[b s']|e] eqn:Hc; [|by vm_compute in Hc].
  destruct evm_first_reachable as [Hr He].
  destruct (evm_calls_are_user_calls ex_cfg toy_len Signed (fun a => a) from_be_bytes ex_cfg_ok
    ex_signed 1 (evm_bond_and_stake 2 900) evm_start s' b Hr He) as (Hb & _ & Hr');
    [simpl; unfold in_range; lia|exact Hc|]. by split.
Defined.

Lemma nomination_transfer_conserves_witness :
  match nomination_transfer ex_cfg toy_len Signed (fun a => a) 1 1 50 2 evm_start with
  | Ok (_, s') => stake_of (evm_storage s') 1 = stake_of evm_first 1
  | Err _ => False
  end.
Proof.
  destruct (nomination_transfer ex_cfg toy_len Signed (fun a => a) 1 1 50 2 evm_start)
    as [[b s']|e] eqn:Hc; [|by vm_compute in Hc].
  destruct evm_first_reachable as [Hr He].
  destruct (nomination_transfer_conserves ex_cfg toy_len Signed (fun a => a) ex_cfg_ok ex_signed
    1 1 50 2 evm_start s' b Hr He) as (_ & _ & Hs & _);
    [unfold in_range; lia|lia|exact Hc|exact Hs].
Defined.

Lemma bond_and_stake_outcome_witness :
  match bond_and_stake ex_cfg toy_len Signed (fun a => a) 1 2 900 evm_start with
  | Ok (_, s') => stake_of (evm_storage s') 1 = stake_of evm_first 1 + 900
  | Err _ => False
  end.
Proof.
  destruct (bond_and_stake ex_cfg toy_len Signed (fun a => a) 1 2 900 evm_start)
    as [[b s']|e] eqn:Hc; [|by vm_compute in Hc].
  destruct evm_first_reachable as [Hr He].
  destruct (bond_and_stake_outcome ex_cfg toy_len Signed (fun a => a) ex_cfg_ok ex_signed
    1 2 900 evm_start s' b Hr He) as (Hs & _); [unfold in_range; lia|exact Hc|exact Hs].
Defined.

Lemma reads_agree_witness :
  match read_staked_amount toy_len (fun a => a) from_be_bytes (be_bytes 20 1) evm_start,
        read_staked_amount_on_contract toy_len (fun a => a) from_be_bytes 1 (be_bytes 20 1) evm_start with
  | Ok (x, _), Ok (y, _) => 0 <= y <= x
  | _, _ => False
  end.
Proof.
  destruct (read_staked_amount toy_len (fun a => a) from_be_bytes (be_bytes 20 1) evm_start)
    as [[x s1]|e] eqn:Hx; [|by vm_compute in Hx].
  destruct (read_staked_amount_on_contract toy_len (fun a => a) from_be_bytes 1 (be_bytes 20 1) evm_start)
    as [[y s2]|e] eqn:Hy; [|by vm_compute in Hy].
  destruct evm_first_reachable as [Hr He].
  destruct (reads_agree ex_cfg toy_len (fun a => a) from_be_bytes ex_cfg_ok 1 (be_bytes 20 1)
    evm_start s1 s2 1 x y Hr He) as (_ & _ & _ & _ & Hxy & _);
    [by vm_compute|exact Hx|exact Hy|exact Hxy].
Defined.
End example.
