(* ===== verification/RuntimeCalls.v ===== *)
(** * The calls of a runtime

    The call type that [construct_runtime!] generates, as far as the filters of
    the runtimes look into it, the interface of a dispatch, and what a batch of
    calls can do.  The runtimes' own filters are in [RuntimeAstar],
    [RuntimeShibuya], [RuntimeShiden] and [RuntimeLocal].  The second part is
    [pallets/collective-proxy/src/lib.rs], which dispatches them as an account. *)

From stdpp Require Import strings.
From S2P Require Import Prelude Frame Primitives PalletState Reachability.

(** ** Calls

    A call that no filter distinguishes is known by the name of its method. *)

Inductive SystemCall := remark | system_other (method : string).
Inductive IdentityCall := provide_judgement | identity_other (method : string).
Inductive ProxyCall := reject_announcement | proxy_other (method : string).
Inductive VestingCall := vest | vest_other | vesting_other (method : string).
Inductive BalancesCall :=
| transfer_allow_death | transfer_keep_alive | transfer_all | balances_other (method : string).
Inductive AssetsCall := create (id : Z) | assets_transfer | assets_other (method : string).
Inductive XTokensCall :=
| transfer_multiasset | transfer_multiasset_with_fee | xtokens_other (method : string).
Inductive XcAssetConfigCall := register_asset_location | xc_asset_other (method : string).

Inductive UtilityCall (C : Type) :=
| batch (calls : list C)
| batch_all (calls : list C)
| force_batch (calls : list C)
| as_derivative (index : Z) (call : C)
| dispatch_as (call : C)
| with_weight (call : C).
Arguments batch {C}.
Arguments batch_all {C}.
Arguments force_batch {C}.
Arguments as_derivative {C}.
Arguments dispatch_as {C}.
Arguments with_weight {C}.

#[warnings="-register-all"] Inductive RuntimeCall (AccountId : Type) :=
| System (c : SystemCall)
| Utility (c : UtilityCall (RuntimeCall AccountId))
| Identity (c : IdentityCall)
| Timestamp (method : string)
| Multisig (method : string)
| Proxy (c : ProxyCall)
| ParachainSystem (method : string)
| Balances (c : BalancesCall)
| Vesting (c : VestingCall)
| DappStaking (c : Call AccountId)
| Assets (c : AssetsCall)
| CollatorSelection (method : string)
| XcAssetConfig (c : XcAssetConfigCall)
| XTokens (c : XTokensCall)
| Preimage (method : string)
| Sudo (method : string)
| Democracy (method : string)
| Council (method : string)
| TechnicalCommittee (method : string)
| CommunityCouncil (method : string)
| Treasury (method : string)
| CommunityTreasury (method : string)
| TxPause (method : string)
| OtherPallet (pallet method : string).
Arguments System {AccountId}.
Arguments Utility {AccountId}.
Arguments Identity {AccountId}.
Arguments Timestamp {AccountId}.
Arguments Multisig {AccountId}.
Arguments Proxy {AccountId}.
Arguments ParachainSystem {AccountId}.
Arguments Balances {AccountId}.
Arguments Vesting {AccountId}.
Arguments DappStaking {AccountId}.
Arguments Assets {AccountId}.
Arguments CollatorSelection {AccountId}.
Arguments XcAssetConfig {AccountId}.
Arguments XTokens {AccountId}.
Arguments Preimage {AccountId}.
Arguments Sudo {AccountId}.
Arguments Democracy {AccountId}.
Arguments Council {AccountId}.
Arguments TechnicalCommittee {AccountId}.
Arguments CommunityCouncil {AccountId}.
Arguments Treasury {AccountId}.
Arguments CommunityTreasury {AccountId}.
Arguments TxPause {AccountId}.
Arguments OtherPallet {AccountId}.

Section calls.
Context {AccountId : Type}.
Abbreviation RtCall := (RuntimeCall AccountId).

(** The calls of a batch. *)
Definition batched (c : RtCall) : option (list RtCall) :=
  match c with
  | Utility (batch calls) | Utility (batch_all calls) => Some calls
  | _ => None
  end.

(** A call that is a batch of calls that pass, or passes itself. *)
Fixpoint all_in_batches (leaf : RtCall -> bool) (t : RtCall) : bool :=
  match t with
  | Utility (batch calls) | Utility (batch_all calls) => forallb (all_in_batches leaf) calls
  | _ => leaf t
  end.

(** The calls that a batch comes down to. *)
Fixpoint leaves (t : RtCall) : list RtCall :=
  match t with
  | Utility (batch calls) | Utility (batch_all calls) => concat (map leaves calls)
  | _ => [t]
  end.

(** Induction through the batches. *)
Lemma batch_ind (P : RtCall -> Prop) :
  (forall c, (forall cs, batched c = Some cs -> Forall P cs) -> P c) -> forall c, P c.
Proof.
  intros Hstep. fix IH 1. intros c. apply Hstep. intros cs Hcs.
  destruct c as [|[]| | | | | | | | | | | | | | | | | | | | | |]; try discriminate Hcs;
    injection Hcs as <-; revert calls; fix go 1;
    (intros [|x l]; constructor; [apply IH|apply go]).
Qed.

Lemma all_in_batches_batched leaf c cs :
  batched c = Some cs -> all_in_batches leaf c = forallb (all_in_batches leaf) cs.
Proof. destruct c as [|[]| | | | | | | | | | | | | | | | | | | | | |]; simpl; congruence. Qed.

Lemma all_in_batches_leaf leaf c : batched c = None -> all_in_batches leaf c = leaf c.
Proof. by destruct c as [|[]| | | | | | | | | | | | | | | | | | | | | |]. Qed.

Lemma leaves_batched c cs : batched c = Some cs -> leaves c = concat (map leaves cs).
Proof. destruct c as [|[]| | | | | | | | | | | | | | | | | | | | | |]; simpl; congruence. Qed.

Lemma leaves_leaf c : batched c = None -> leaves c = [c].
Proof. by destruct c as [|[]| | | | | | | | | | | | | | | | | | | | | |]. Qed.

(** The recursive filter looks at exactly the calls a batch comes down to. *)
Lemma all_in_batches_leaves leaf c : all_in_batches leaf c = forallb leaf (leaves c).
Proof.
  induction c as [c IH] using batch_ind. destruct (batched c) as [cs|] eqn:Hb.
  - rewrite (all_in_batches_batched leaf c cs), (leaves_batched c cs) by done.
    specialize (IH cs eq_refl). clear Hb. induction IH as [|x l Hx _ IHl]; [done|].
    cbn [forallb map concat]. by rewrite forallb_app, Hx, IHl.
  - rewrite all_in_batches_leaf, leaves_leaf by done. simpl. by rewrite andb_true_r.
Qed.

Lemma all_in_batches_calls leaf c cs :
  batched c = Some cs -> all_in_batches leaf c = true -> Forall (fun c => all_in_batches leaf c = true) cs.
Proof.
  intros Hb Hc. rewrite (all_in_batches_batched leaf c cs) in Hc by done.
  apply Forall_forall. intros x Hx. rewrite forallb_forall in Hc. apply Hc. by apply list_elem_of_In.
Qed.
End calls.

(** ** Dispatch

    The origin of a call carries the account that signed it and a filter.  The
    world is the storage of the runtime without the events. *)

Class RuntimeDispatch (AccountId O W E : Type) := {
  signed : AccountId -> O;
  origin_signer : O -> option AccountId;
  add_filter : (RuntimeCall AccountId -> bool) -> O -> O;
  filter_call : O -> RuntimeCall AccountId -> bool;
  dispatch_call : RuntimeCall AccountId -> O -> W -> Result W E;
}.

(** What [frame_support] documents of origins and filters, and
    [pallet_utility] of a batch that is not sent by root: its calls are
    dispatched with the origin of the batch, and nothing else happens. *)
Class RuntimeDispatchLaws (AccountId O W E : Type) `{!RuntimeDispatch AccountId O W E} : Prop := {
  signer_signed a : origin_signer (signed a) = Some a;
  signer_add_filter f o : origin_signer (add_filter f o) = origin_signer o;
  filter_add_filter f o c a :
    origin_signer o = Some a -> filter_call (add_filter f o) c = filter_call o c && f c;
  dispatch_filtered c o w w' : dispatch_call c o w = Ok w' -> filter_call o c = true;
  dispatch_batch c cs o a w w' (R : relation W) :
    batched c = Some cs -> origin_signer o = Some a -> PreOrder R ->
    Forall (fun c' => forall w w', dispatch_call c' o w = Ok w' -> R w w') cs ->
    dispatch_call c o w = Ok w' -> R w w';
}.

Section confinement.
Context {AccountId O W E : Type} `{!RuntimeDispatch AccountId O W E}.
Context `{!RuntimeDispatchLaws AccountId O W E}.

(** A call does no more than the calls it comes down to. *)
Lemma dispatch_confined (o : O) (a : AccountId) (P : RuntimeCall AccountId -> Prop) (R : relation W) :
  origin_signer o = Some a -> PreOrder R ->
  (forall c cs, P c -> batched c = Some cs -> Forall P cs) ->
  (forall c w w', P c -> batched c = None -> dispatch_call c o w = Ok w' -> R w w') ->
  forall c w w', P c -> dispatch_call c o w = Ok w' -> R w w'.
Proof.
  intros Ho HR Hsub Hleaf c. induction c as [c IH] using batch_ind. intros w w' Hc Hd.
  destruct (batched c) as [cs|] eqn:Hb; [|by eapply Hleaf].
  eapply dispatch_batch; [done..| |done].
  pose proof (Hsub c cs Hc Hb) as Hcs. specialize (IH cs eq_refl).
  rewrite Forall_forall in *. intros x Hx w1 w2. by apply IH; [|apply Hcs].
Qed.

(** Under a filter that lets through batches and the calls in [leaf]. *)
Lemma confined_by_filter (f leaf : RuntimeCall AccountId -> bool) (a : AccountId) (R : relation W) :
  (forall c, f c = true -> batched c = None -> leaf c = true) -> PreOrder R ->
  (forall c w w', leaf c = true -> dispatch_call c (add_filter f (signed a)) w = Ok w' -> R w w') ->
  forall c w w', dispatch_call c (add_filter f (signed a)) w = Ok w' -> R w w'.
Proof.
  intros Hf HR Hleaf c w w'.
  apply (dispatch_confined _ a (fun _ => True)); [|done| | |done].
  - by rewrite signer_add_filter, signer_signed.
  - intros. by apply Forall_true.
  - intros x v v' _ Hx Hd. apply (Hleaf x v v'); [|done]. apply Hf; [|done].
    pose proof (dispatch_filtered _ _ _ _ Hd) as Hp.
    rewrite (filter_add_filter f (signed a) x a), andb_true_iff in Hp by apply signer_signed. tauto.
Qed.

(** For a call checked by a recursive filter. *)
Lemma confined_by_whitelist (leaf : RuntimeCall AccountId -> bool) (a : AccountId) (R : relation W) :
  PreOrder R ->
  (forall c w w', leaf c = true -> dispatch_call c (signed a) w = Ok w' -> R w w') ->
  forall c w w', all_in_batches leaf c = true -> dispatch_call c (signed a) w = Ok w' -> R w w'.
Proof.
  intros HR Hleaf c w w'.
  apply (dispatch_confined _ a (fun c => all_in_batches leaf c = true)); [apply signer_signed|done| |].
  - intros x cs Hx Hcs. by apply (all_in_batches_calls leaf x).
  - intros x v v' Hx Hb. rewrite all_in_batches_leaf in Hx by done. by apply Hleaf.
Qed.
End confinement.

(** ** [InstanceFilter]

    "Determines whether [self] matches at least everything that [o] does". *)

Class InstanceFilter (T AccountId : Type) := {
  instance_filter : T -> RuntimeCall AccountId -> bool;
  is_superset : T -> T -> bool;
}.

Class InstanceFilterLaws (T AccountId : Type) `{!InstanceFilter T AccountId} : Prop := {
  superset_matches (x y : T) (c : RuntimeCall AccountId) :
    is_superset x y = true -> instance_filter y c = true -> instance_filter x c = true;
}.

(** ** A runtime that logs what it executes *)

Record ToyRtOrigin := mkToyRtOrigin { toy_signer : option Z; toy_filter : RuntimeCall Z -> bool }.
Abbreviation ToyLog := (list (Z * RuntimeCall Z)).

Fixpoint toy_dispatch_call (c : RuntimeCall Z) (o : ToyRtOrigin) (w : ToyLog) : Result ToyLog unit :=
  if toy_filter o c then
    match c with
    | Utility (batch calls) =>
        Ok ((fix go l w := match l with
                           | [] => w
                           | x :: l => match toy_dispatch_call x o w with Ok w => go l w | Err _ => w end
                           end) calls w)
    | Utility (batch_all calls) =>
        (fix go l w := match l with
                       | [] => Ok w
                       | x :: l => match toy_dispatch_call x o w with Ok w => go l w | Err e => Err e end
                       end) calls w
    | _ => match toy_signer o with Some a => Ok (w ++ [(a, c)]) | None => Err tt end
    end
  else Err tt.

Definition ToyDispatch : RuntimeDispatch Z ToyRtOrigin ToyLog unit := {|
  signed a := mkToyRtOrigin (Some a) (fun _ => true);
  origin_signer := toy_signer;
  add_filter f o := mkToyRtOrigin (toy_signer o) (fun c => toy_filter o c && f c);
  filter_call := toy_filter;
  dispatch_call := toy_dispatch_call;
|}.

Lemma ToyDispatchLaws : RuntimeDispatchLaws (RuntimeDispatch0 := ToyDispatch) Z ToyRtOrigin ToyLog unit.
Proof.
  split; try done; simpl.
  - intros c o w w'. destruct c as [|[]| | | | | | | | | | | | | | | | | | | | | |]; simpl;
      by destruct (toy_filter o _).
  - intros c cs o a w w' R Hb _ HR Hcs.
    destruct c as [|[]| | | | | | | | | | | | | | | | | | | | | |]; try discriminate Hb;
      injection Hb as ->; simpl; destruct (toy_filter o _); try discriminate.
    + intros [= <-]. revert w. induction Hcs as [|x l Hx _ IH]; intros w; [reflexivity|].
      destruct (toy_dispatch_call x o w) as [w1|] eqn:Hd; [|reflexivity].
      transitivity w1; [by apply Hx|apply IH].
    + revert w. induction Hcs as [|x l Hx _ IH]; intros w; [intros [= <-]; reflexivity|].
      destruct (toy_dispatch_call x o w) as [w1|] eqn:Hd; [|discriminate].
      intros Hl. transitivity w1; [by apply Hx|by apply IH].
Qed.

(** * The collective proxy pallet

    [pallets/collective-proxy/src/lib.rs]: a collective acts as the account of
    its treasury, for the calls that a filter lets through. *)

(** The event carries what the dispatch returned. *)
Inductive CollectiveEvent (E : Type) := CollectiveProxyExecuted (result : Result unit E).
Arguments CollectiveProxyExecuted {E}.

Inductive CollectiveError := CollectiveBadOrigin.

Record CollectiveState (W E : Type) := mkCollectiveState {
  collective_events : list (CollectiveEvent E);
  collective_world : W;
}.
Arguments mkCollectiveState {W E}.
Arguments collective_events {W E}.
Arguments collective_world {W E}.

Section pallet.
Context {AccountId O W E : Type} `{!RuntimeDispatch AccountId O W E}.
(** [Config::CollectiveProxy], [Config::ProxyAccountId] and
    [Config::CallFilter]. *)
Context (collective_proxy : O -> bool) (ProxyAccountId : AccountId).
Context (call_filter : RuntimeCall AccountId -> bool).

(** A dispatch that fails leaves the storage as it was. *)
Definition execute_call (origin : O) (call : RuntimeCall AccountId) (s : CollectiveState W E)
    : Result (CollectiveState W E) CollectiveError :=
  ensure! collective_proxy origin else CollectiveBadOrigin in
  let origin := add_filter call_filter (signed ProxyAccountId) in
  match dispatch_call call origin (collective_world s) with
  | Ok w =>
      Ok (mkCollectiveState (collective_events s ++ [CollectiveProxyExecuted (Ok tt)]) w)
  | Err e =>
      Ok (mkCollectiveState (collective_events s ++ [CollectiveProxyExecuted (Err e)])
            (collective_world s))
  end.

(** A call of the collective, whatever batch it is, does no more than the
    calls in [leaf] do when the treasury signs them. *)
Lemma execute_call_confined `{!RuntimeDispatchLaws AccountId O W E}
    (leaf : RuntimeCall AccountId -> bool) (R : relation W) origin call s s' :
  (forall c, call_filter c = true -> batched c = None -> leaf c = true) -> PreOrder R ->
  (forall c w w', leaf c = true ->
     dispatch_call c (add_filter call_filter (signed ProxyAccountId)) w = Ok w' -> R w w') ->
  execute_call origin call s = Ok s' ->
  collective_proxy origin = true /\ R (collective_world s) (collective_world s').
Proof.
  intros Hf HR Hleaf Hx. unfold execute_call in Hx.
  destruct (collective_proxy origin); [|discriminate]. split; [done|].
  destruct (dispatch_call call _ _) as [w|e] eqn:Hd; injection Hx as <-; simpl; [|reflexivity].
  by apply (confined_by_filter call_filter leaf ProxyAccountId R Hf HR Hleaf call).
Qed.
End pallet.
