(* ===== verification/DispatchPrecompiles.v ===== *)
(** * Precompiles that dispatch runtime calls

    [primitives/src/precompiles.rs], the filter of the dispatch precompile, and
    [precompiles/dispatch-lockdrop/src/lib.rs], which dispatches a call for the
    native account of the key that signed the Ethereum transaction.  The
    second part is the precompiles that only look up or verify. *)

From stdpp Require Import gmap.
From stdpp Require Import strings.
From S2P Require Import Prelude Frame Primitives PalletState Reachability.
From S2P Require Import UnifiedAccounts PrecompileUtils RuntimeCalls.

(** ** [DispatchFilterValidate] *)

Inductive Pays := PaysYes | PaysNo.
Inductive DispatchClass := Normal | Operational | Mandatory.
Record DispatchInfo := mkDispatchInfo { pays_fee : Pays; class : DispatchClass }.

(** [get_dispatch_info], which the attributes of a call define. *)
Class GetDispatchInfo (AccountId : Type) := {
  get_dispatch_info : RuntimeCall AccountId -> DispatchInfo;
}.

Definition paid_normal_call (info : DispatchInfo) : bool :=
  match pays_fee info, class info with PaysYes, Normal => true | _, _ => false end.

(** [None] lets the call pass. *)
Definition validate_before_dispatch {AccountId} `{!GetDispatchInfo AccountId}
    (contains : RuntimeCall AccountId -> bool) (call : RuntimeCall AccountId) : option string :=
  if negb (paid_normal_call (get_dispatch_info call)) then Some "invalid call"
  else if contains call then None else Some "call filtered out".

(** ** [DispatchLockdrop] *)

(** [libsecp256k1::PublicKey::parse_slice] with [serialize_compressed],
    [blake2_256] as an account id, and the depth-limited decoding of a call. *)
Class LockdropCrypto (AccountId : Type) := {
  parse_compressed : bytes -> option bytes;
  blake2_256_account : bytes -> AccountId;
}.

Section lockdrop.
Context {AccountId O W E G : Type} `{!RuntimeDispatch AccountId O W E}.
Context `{!GasMeter (RuntimeCall AccountId) G, !Crypto, !LockdropCrypto AccountId}.
Context `{!GetDispatchInfo AccountId}.
(** [decode_with_depth_limit], [DecodeLimit], the gas of the fixed weight and
    the filter. *)
Context (decode_with_depth_limit : Z -> bytes -> option (RuntimeCall AccountId)) (DecodeLimit : Z).
Context (record_cost : Z -> G -> option G) (weight_to_gas : Weight -> Z).
Context (contains : RuntimeCall AccountId -> bool).

Definition get_account_id_from_pubkey (pubkey : bytes) : option AccountId :=
  blake2_256_account <$> parse_compressed pubkey.

(** The address is the last twenty bytes of the hash. *)
Definition get_evm_address_from_pubkey (pubkey : bytes) : EvmAddress :=
  drop 12 (keccak_256 pubkey).

(** [RuntimeHelper::try_dispatch]. *)
Definition try_dispatch_call (origin : AccountId) (call : RuntimeCall AccountId) (g : G) (w : W)
    : Result (G * W) (EvmError E) :=
  let! g := ok_or (charge (DispatchCost call) g) OutOfGas in
  let! w := map_err DispatchFailed (dispatch_call call (signed origin) w) in
  Ok (g, w).

Definition dispatch_lockdrop_call (caller : EvmAddress) (call pubkey : bytes) (g : G) (w : W)
    : Result (bool * G * W) (EvmError E) :=
  let input := call in
  let! g := ok_or (record_cost (weight_to_gas (mkWeight 1000000000 0)) g) OutOfGas in
  ensure! bool_decide (caller = get_evm_address_from_pubkey pubkey)
    else Revert "caller does not match the public key" in
  let! origin := ok_or (get_account_id_from_pubkey pubkey)
                   (Revert "could not derive AccountId from pubkey") in
  let! call := ok_or (decode_with_depth_limit DecodeLimit input) (Revert "could not decode call") in
  let! _ := match validate_before_dispatch contains call with
            | None => Ok tt
            | Some _ => Err (Revert "invalid Call")
            end in
  let! (g, w) := try_dispatch_call origin call g w in
  Ok (true, g, w).

(** What a success means: the caller owns the key, the call is a paid, normal
    one that passes the filter, and it is dispatched as the native account of
    the key. *)
Lemma dispatch_lockdrop_ok caller input pubkey g w b g' w' :
  dispatch_lockdrop_call caller input pubkey g w = Ok (b, g', w') ->
  exists a call,
    caller = get_evm_address_from_pubkey pubkey /\
    get_account_id_from_pubkey pubkey = Some a /\
    decode_with_depth_limit DecodeLimit input = Some call /\
    paid_normal_call (get_dispatch_info call) = true /\ contains call = true /\
    dispatch_call call (signed a) w = Ok w'.
Proof.
  unfold dispatch_lockdrop_call, try_dispatch_call, validate_before_dispatch. intros Hd.
  destruct (record_cost _ _); [|discriminate]. cbn in Hd.
  destruct (bool_decide _) eqn:Hc; [|discriminate]. apply bool_decide_eq_true in Hc. cbn in Hd.
  destruct (get_account_id_from_pubkey pubkey) as [a|]; [|discriminate]. cbn in Hd.
  destruct (decode_with_depth_limit DecodeLimit input) as [call|]; [|discriminate]. cbn in Hd.
  destruct (paid_normal_call _) eqn:Hp; [|discriminate]. cbn in Hd.
  destruct (contains call) eqn:Hf; [|discriminate]. cbn in Hd.
  destruct (charge _ _); [|discriminate]. cbn in Hd.
  destruct (dispatch_call call _ w) as [w1|] eqn:Hw; [|discriminate]. cbn in Hd. simplify_eq.
  by exists a, call.
Qed.
End lockdrop.

(** * Precompiles that only read

    [precompiles/unified-accounts/src/lib.rs], [precompiles/sr25519/src/lib.rs]
    and [precompiles/substrate-ecdsa/src/lib.rs]. *)

(** ** Unified accounts *)

Section unified.
Context {AccountId M : Type} `{!UnifiedAddressMapper AccountId M} (m : M).

(** An [AccountId32] and the [H256] that stands for it are the same bytes. *)
Definition get_evm_address_or_default (account_id : AccountId) : EvmAddress * bool :=
  match to_h160_or_default m account_id with
  | Mapped address => (address, true)
  | Default address => (address, false)
  end.

Definition get_native_address_or_default (evm_address : EvmAddress) : AccountId * bool :=
  match to_account_id_or_default m evm_address with
  | Mapped account_id => (account_id, true)
  | Default account_id => (account_id, false)
  end.
End unified.

(** ** Signatures

    The host functions of the two schemes, on keys and signatures of the right
    length. *)
Class SignatureHost := {
  host_sr25519_verify : bytes -> bytes -> bytes -> bool;
  host_ecdsa_verify : bytes -> bytes -> bytes -> bool;
}.

Section signatures.
Context `{!SignatureHost}.

(** [from_slice] and [try_from] check the length. *)
Definition parse_slice (n : nat) (b : bytes) : option bytes :=
  if (length b =? n)%nat then Some b else None.

Definition verify_sr25519 (public signature message : bytes) : bool :=
  match parse_slice 64 signature with
  | Some signature => host_sr25519_verify signature message public
  | None => false
  end.

Definition verify_ecdsa (public_bytes signature_bytes message : bytes) : bool :=
  match parse_slice 33 public_bytes with
  | Some public =>
      match parse_slice 65 signature_bytes with
      | Some signature => host_ecdsa_verify signature message public
      | None => false
      end
  | None => false
  end.

(** Bytes of the wrong length verify nothing, and what verifies the host
    verified. *)
Lemma verify_iff public signature message :
  (verify_sr25519 public signature message = true <->
   length signature = 64%nat /\ host_sr25519_verify signature message public = true) /\
  (verify_ecdsa public signature message = true <->
   length public = 33%nat /\ length signature = 65%nat /\
   host_ecdsa_verify signature message public = true).
Proof.
  unfold verify_sr25519, verify_ecdsa, parse_slice.
  destruct (Nat.eqb_spec (length signature) 64), (Nat.eqb_spec (length public) 33),
    (Nat.eqb_spec (length signature) 65); naive_solver.
Qed.
End signatures.

(** ** Lookups on chain *)

Section lookups.
Context {AccountId Origin W D : Type} `{Countable AccountId}.
Context `{!Crypto, !Encode AccountId, !FungibleMutate AccountId W}.
Context `{!FrameSystem AccountId Origin W, !UnifiedAddressMapper AccountId D} (defaults : D).
Context (cfg : UnifiedConfig) (genesis_hash : bytes).

(** The two lookups are inverse to each other on what is mapped: a contract
    that asks for the native account of an address and then for the address of
    that account gets back where it started, and the other way around. *)
Theorem lookups_are_inverse (s : UnifiedStorage AccountId W) (a : AccountId) (e : EvmAddress) :
  unified_reachable defaults cfg genesis_hash s ->
  get_native_address_or_default (UnifiedAddressMapper0 := unified_mapper defaults) s e = (a, true) <->
  get_evm_address_or_default (UnifiedAddressMapper0 := unified_mapper defaults) s a = (e, true).
Proof.
  intros Hr. pose proof (unified_reachable_paired defaults cfg genesis_hash s Hr a e) as Hp.
  unfold get_native_address_or_default, get_evm_address_or_default, to_account_id_or_default,
    to_h160_or_default. simpl.
  destruct (EvmToNative s !! e) as [b|] eqn:He, (NativeToEvm s !! a) as [f|] eqn:Ha; naive_solver.
Qed.
End lookups.

#[local] Existing Instances ToyCrypto ToyEncode ToyFungible ToySystem ToyDefaults.

Lemma lookups_are_inverse_witness :
  get_native_address_or_default (UnifiedAddressMapper0 := unified_mapper tt) toy_claimed [7] = (1, true).
Proof.
  apply (lookups_are_inverse tt toy_cfg [] toy_claimed 1 [7] toy_claimed_reachable). by vm_compute.
Defined.
