(* ===== verification/RuntimeShibuya.v ===== *)
(** * The Shibuya runtime

    [runtime/shibuya/src/lib.rs] and [runtime/shibuya/src/precompiles.rs]: the call
    filters, and the configuration of the pallets as far as the theorems need
    it. *)

From stdpp Require Import strings.
From S2P Require Import Prelude Frame Primitives Tiers PalletState Reachability.
From S2P Require Import DynamicEvmBaseFee RuntimeCalls.

(** ** Units *)

Definition MICROSBY : Z := 1000000000000.
Definition MILLISBY : Z := 1000 * MICROSBY.
Definition SBY : Z := 1000 * MILLISBY.
Definition MILLISECS_PER_BLOCK : Z := 6000.
Definition MINUTES : Z := 60000 / MILLISECS_PER_BLOCK.
Definition HOURS : Z := MINUTES * 60.
Definition DAYS : Z := HOURS * 24.

Section filters.
Context {AccountId : Type}.
Abbreviation RtCall := (RuntimeCall AccountId).

(** ** [BaseFilter] *)

(** Assets below [u32::MAX] can be created without permission, and asset
    locations can be registered. *)
Definition base_filter (call : RtCall) : bool :=
  match call with
  | Assets (create id) => id <? u32_max
  | XcAssetConfig register_asset_location => true
  | XcAssetConfig _ => false
  | _ => true
  end.

(** The calls that pass in safe mode. *)
Definition safe_mode_whitelisted_calls (call : RtCall) : bool :=
  match call with
  | System _ | Timestamp _ | ParachainSystem _ | Sudo _ | TxPause _ => true
  | _ => false
  end.

(** [safe_mode] and [tx_pause] are [Contains] of the two pallets. *)
Definition base_call_filter (safe_mode tx_pause : RtCall -> bool) (call : RtCall) : bool :=
  base_filter call && (safe_mode call && tx_pause call).

(** ** [ProxyType]

    [ProxyBalances], [ProxyAssets] and [ProxyDappStaking] are [Balances],
    [Assets] and [DappStaking]. *)

Inductive ProxyType :=
| Any
| NonTransfer
| ProxyBalances
| ProxyAssets
| Governance
| IdentityJudgement
| CancelProxy
| ProxyDappStaking
| StakerRewardClaim.
#[export] Instance ProxyType_eq_dec : EqDecision ProxyType.
Proof. solve_decision. Defined.

(** [Utility] calls pass for every type. *)
Definition proxy_filter (self : ProxyType) (c : RtCall) : bool :=
  match c with
  | Utility _ => true
  | _ =>
      match self with
      | Any => true
      | NonTransfer =>
          match c with
          | System _ | Identity _ | Multisig _ | Proxy _ | Vesting vest | Vesting vest_other
          | DappStaking _ | CollatorSelection _ => true
          | _ => false
          end
      | ProxyBalances => match c with Balances _ => true | _ => false end
      | ProxyAssets => match c with Assets _ => true | _ => false end
      | Governance =>
          match c with
          | Democracy _ | Council _ | TechnicalCommittee _ | CommunityCouncil _ => true
          | _ => false
          end
      | IdentityJudgement =>
          match c with Identity provide_judgement => true | _ => false end
      | CancelProxy => match c with Proxy reject_announcement => true | _ => false end
      | ProxyDappStaking => match c with DappStaking _ => true | _ => false end
      | StakerRewardClaim =>
          match c with DappStaking call_claim_staker_rewards => true | _ => false end
      end
  end.

Definition is_superset (self o : ProxyType) : bool :=
  if bool_decide (self = o) then true
  else
    match self, o with
    | Any, _ => true
    | _, Any => false
    | NonTransfer, _ => true
    | ProxyDappStaking, StakerRewardClaim => true
    | _, _ => false
    end.

#[export] Instance proxy_instance_filter : InstanceFilter ProxyType AccountId := {|
  instance_filter := proxy_filter;
  RuntimeCalls.is_superset := is_superset;
|}.

(** ** [CommunityCouncilCallFilter] *)

Definition community_council_call_filter (c : RtCall) : bool :=
  match c with
  | DappStaking _ | System remark | Utility (batch _) | Utility (batch_all _) => true
  | _ => false
  end.

(** ** The calls of the dispatch precompiles *)

Definition whitelisted_calls : RtCall -> bool :=
  all_in_batches (fun t =>
    match t with
    | DappStaking _ => true
    | Assets assets_transfer => true
    | XTokens transfer_multiasset_with_fee | XTokens transfer_multiasset => true
    | Democracy _ | Treasury _ | CommunityTreasury _ | Preimage _ => true
    | _ => false
    end).

Definition whitelisted_lockdrop_calls : RtCall -> bool :=
  all_in_batches (fun t =>
    match t with
    | DappStaking (call_unbond_and_unstake _ _) | DappStaking call_withdraw_unbonded => true
    | Balances transfer_all | Balances transfer_keep_alive | Balances transfer_allow_death => true
    | Assets assets_transfer => true
    | _ => false
    end).
End filters.

(** ** Configuration *)

Definition InflationCycleConfig : CycleConfiguration := {|
  periods_per_cycle := 2;
  eras_per_voting_subperiod := 8;
  eras_per_build_and_earn_subperiod := 20;
  blocks_per_era := 6 * HOURS;
|}.

Definition MinimumStakingAmount : Z := 5 * SBY.

(** [FixedU128::from_rational(5, 100)]. *)
Definition BaseNativeCurrencyPrice : Z := fixed_div * 5 / 100.

Definition dapp_staking_config : Config := {|
  cycle_configuration := InflationCycleConfig;
  PalletState.BaseNativeCurrencyPrice := BaseNativeCurrencyPrice;
  EraRewardSpanLength := 16;
  RewardRetentionInPeriods := 2;
  MaxNumberOfContracts := 500;
  MaxUnlockingChunks := 8;
  MinimumLockedAmount := MinimumStakingAmount;
  UnlockingPeriod := 4;
  MaxNumberOfStakedContracts := 8;
  MinimumStakeAmount := MinimumStakingAmount;
  NumberOfTiers := 4;
  RankingEnabled := true;
|}.

(** [Perquintill::from_rational]. *)
Definition dynamic_fee_config : FeeConfig := {|
  DefaultBaseFeePerGas := 1470000000000;
  MinBaseFeePerGas := 800000000000;
  MaxBaseFeePerGas := 80000000000000;
  WeightFactor := 30855000000000000;
  StepLimitRatio := perquintill_one * 5 / 100000;
|}.

(** The genesis of [genesis_config.rs]. *)
Definition dapp_staking_genesis : GenesisConfig := {|
  genesis_reward_portion := [400000; 300000; 200000; 100000];
  genesis_slot_distribution := [100000; 200000; 300000; 400000];
  genesis_tier_thresholds :=
    [DynamicPercentage 20000 17000; DynamicPercentage 13000 10000;
     DynamicPercentage 5400 3400; FixedPercentage 1400];
  genesis_slots_per_tier := [10; 20; 30; 40];
  genesis_safeguard := Some false;
|}.
