(* ===== verification/RuntimeLocal.v ===== *)
(** * The Local runtime

    [runtime/local/src/lib.rs] and [runtime/local/src/precompiles.rs]: the call
    filters, and the configuration of the pallets as far as the theorems need
    it. *)

From stdpp Require Import strings.
From S2P Require Import Prelude Frame Primitives Tiers PalletState Reachability.
From S2P Require Import DynamicEvmBaseFee RuntimeCalls.

(** ** Units *)

Definition MICROAST : Z := 1000000000000.
Definition MILLIAST : Z := 1000 * MICROAST.
Definition AST : Z := 1000 * MILLIAST.
Definition MILLISECS_PER_BLOCK : Z := 2000.
Definition MINUTES : Z := 60000 / MILLISECS_PER_BLOCK.
Definition HOURS : Z := MINUTES * 60.
Definition DAYS : Z := HOURS * 24.

Section filters.
Context {AccountId : Type}.
Abbreviation RtCall := (RuntimeCall AccountId).

(** ** The base filter *)

(** The calls that pass in safe mode. *)
Definition safe_mode_whitelisted_calls (call : RtCall) : bool :=
  match call with
  | System _ | Timestamp _ | Sudo _ | TxPause _ => true
  | _ => false
  end.

(** [safe_mode] and [tx_pause] are [Contains] of the two pallets. *)
Definition base_call_filter (safe_mode tx_pause : RtCall -> bool) (call : RtCall) : bool :=
  safe_mode call && tx_pause call.

(** ** [ProxyType]

    [ProxyBalances], [ProxyAssets] and [ProxyDappStaking] are [Balances],
    [Assets] and [DappStaking]. *)

Inductive ProxyType :=
| Any
| NonTransfer
| ProxyBalances
| ProxyAssets
| CancelProxy
| ProxyDappStaking
| StakerRewardClaim
| Governance.
#[export] Instance ProxyType_eq_dec : EqDecision ProxyType.
Proof. solve_decision. Defined.

(** [Utility] calls pass for every type. *)
Definition proxy_filter (self : ProxyType) (c : RtCall) : bool :=
  match c with
  | Utility _ => true
  | _ =>
      match self with
      | Any => true
      | NonTransfer =>
          match c with
          | System _ | Proxy _ | Vesting vest | Vesting vest_other | DappStaking _ => true
          | _ => false
          end
      | ProxyBalances => match c with Balances _ => true | _ => false end
      | ProxyAssets => match c with Assets _ => true | _ => false end
      | CancelProxy => match c with Proxy reject_announcement => true | _ => false end
      | ProxyDappStaking => match c with DappStaking _ => true | _ => false end
      | StakerRewardClaim =>
          match c with DappStaking call_claim_staker_rewards => true | _ => false end
      | Governance =>
          match c with
          | Democracy _ | Council _ | TechnicalCommittee _ | CommunityCouncil _ => true
          | _ => false
          end
      end
  end.

Definition is_superset (self o : ProxyType) : bool :=
  if bool_decide (self = o) then true
  else
    match self, o with
    | Any, _ => true
    | _, Any => false
    | NonTransfer, _ => true
    | ProxyDappStaking, StakerRewardClaim => true
    | _, _ => false
    end.

#[export] Instance proxy_instance_filter : InstanceFilter ProxyType AccountId := {|
  instance_filter := proxy_filter;
  RuntimeCalls.is_superset := is_superset;
|}.

(** ** [CommunityCouncilCallFilter] *)

Definition community_council_call_filter (c : RtCall) : bool :=
  match c with
  | DappStaking _ | System remark | Utility (batch _) | Utility (batch_all _) => true
  | _ => false
  end.

(** ** The calls of the dispatch precompiles *)

Definition whitelisted_calls : RtCall -> bool :=
  all_in_batches (fun t =>
    match t with
    | DappStaking _ => true
    | Assets assets_transfer => true
    | Democracy _ | Treasury _ | CommunityTreasury _ | Preimage _ => true
    | _ => false
    end).

Definition whitelisted_lockdrop_calls : RtCall -> bool :=
  all_in_batches (fun t =>
    match t with
    | DappStaking (call_unbond_and_unstake _ _) | DappStaking call_withdraw_unbonded => true
    | Balances transfer_all | Balances transfer_keep_alive | Balances transfer_allow_death => true
    | Assets assets_transfer => true
    | _ => false
    end).
End filters.

(** ** Configuration *)

Definition InflationCycleConfig : CycleConfiguration := {|
  periods_per_cycle := 4;
  eras_per_voting_subperiod := 2;
  eras_per_build_and_earn_subperiod := 22;
  blocks_per_era := 30;
|}.

(** [FixedU128::from_rational(5, 100)]. *)
Definition BaseNativeCurrencyPrice : Z := fixed_div * 5 / 100.

Definition dapp_staking_config : Config := {|
  cycle_configuration := InflationCycleConfig;
  PalletState.BaseNativeCurrencyPrice := BaseNativeCurrencyPrice;
  EraRewardSpanLength := 8;
  RewardRetentionInPeriods := 2;
  MaxNumberOfContracts := 100;
  MaxUnlockingChunks := 5;
  MinimumLockedAmount := AST;
  UnlockingPeriod := 2;
  MaxNumberOfStakedContracts := 3;
  MinimumStakeAmount := AST;
  NumberOfTiers := 4;
  RankingEnabled := true;
|}.

(** [Perquintill::from_rational]. *)
Definition dynamic_fee_config : FeeConfig := {|
  DefaultBaseFeePerGas := 1470000000000;
  MinBaseFeePerGas := 800000000000;
  MaxBaseFeePerGas := 80000000000000;
  WeightFactor := 30855000000000000;
  StepLimitRatio := perquintill_one * 5 / 100000;
|}.

(** The genesis of [genesis_config.rs]. *)
Definition dapp_staking_genesis : GenesisConfig := {|
  genesis_reward_portion := [400000; 300000; 200000; 100000];
  genesis_slot_distribution := [100000; 200000; 300000; 400000];
  genesis_tier_thresholds :=
    [DynamicPercentage 35700000 23800000; DynamicPercentage 8900000 6000000;
     DynamicPercentage 23800000 17900000; FixedPercentage 600000];
  genesis_slots_per_tier := [10; 20; 30; 40];
  genesis_safeguard := Some false;
|}.
