(* ===== verification/Runtimes.v ===== *)
(** * The runtimes

    What the filters of the four runtimes guarantee, and that the theorems on
    the pallets apply to the configurations the runtimes use. *)

From stdpp Require Import strings.
From S2P Require Import Prelude Frame Primitives Tiers PalletState DAppStaking TierAssignment.
From S2P Require Import Invariant Reachability ExampleWorld DynamicEvmBaseFee RuntimeCalls.
From S2P Require Import UnifiedAccounts PrecompileUtils DispatchPrecompiles.
From S2P Require Import RuntimeAstar RuntimeShibuya RuntimeShiden RuntimeLocal.

(** ** Proxy types *)

Section proxies.
Context {AccountId : Type}.

#[export] Instance astar_proxy_laws : InstanceFilterLaws RuntimeAstar.ProxyType AccountId.
Proof. split. intros x y c Hs. destruct x, y; try discriminate Hs; by destruct c as [|[]|[]| | |[]| |[]|[]|[]|[]| |[]|[]| | | | | | | | | |]. Qed.

#[export] Instance shiden_proxy_laws : InstanceFilterLaws RuntimeShiden.ProxyType AccountId.
Proof. split. intros x y c Hs. destruct x, y; try discriminate Hs; by destruct c as [|[]|[]| | |[]| |[]|[]|[]|[]| |[]|[]| | | | | | | | | |]. Qed.
End proxies.

(** In the Astar and Shiden runtimes [is_superset], which decides what
    proxies a proxy may add and remove, is a preorder under which a type only
    contains types whose calls it can make itself; nothing but [Any] contains
    [Any], and only [Any] and [Balances] let a balance transfer pass. *)
Theorem proxy_types_ordered {AccountId : Type} :
  (forall x y (c : RuntimeCall AccountId),
     RuntimeAstar.is_superset x y = true ->
     RuntimeAstar.proxy_filter y c = true -> RuntimeAstar.proxy_filter x c = true) /\
  (forall x y (c : RuntimeCall AccountId),
     RuntimeShiden.is_superset x y = true ->
     RuntimeShiden.proxy_filter y c = true -> RuntimeShiden.proxy_filter x c = true) /\
  PreOrder (fun x y => RuntimeAstar.is_superset x y = true) /\
  PreOrder (fun x y => RuntimeShiden.is_superset x y = true) /\
  (forall x, RuntimeAstar.is_superset x RuntimeAstar.Any = true -> x = RuntimeAstar.Any) /\
  (forall x, RuntimeShiden.is_superset x RuntimeShiden.Any = true -> x = RuntimeShiden.Any) /\
  (forall x b, RuntimeAstar.proxy_filter x (Balances b : RuntimeCall AccountId) = true ->
     x = RuntimeAstar.Any \/ x = RuntimeAstar.ProxyBalances) /\
  (forall x b, RuntimeShiden.proxy_filter x (Balances b : RuntimeCall AccountId) = true ->
     x = RuntimeShiden.Any \/ x = RuntimeShiden.ProxyBalances).
Proof.
  repeat split.
  - intros x y c. apply (superset_matches (InstanceFilterLaws := astar_proxy_laws)).
  - intros x y c. apply (superset_matches (InstanceFilterLaws := shiden_proxy_laws)).
  - by intros [].
  - by intros [] [] [].
  - by intros [].
  - by intros [] [] [].
  - by intros [].
  - by intros [].
  - intros [] b; simpl; auto; discriminate.
  - intros [] b; simpl; auto; discriminate.
Qed.

(** In safe mode, when its pallet lets its own calls pass and those that are
    whitelisted, the technical committee can call nothing on Shibuya and Local:
    it cannot vote to leave the mode, for which [ForceExitOrigin] asks two
    thirds of it, and neither can a batch. *)
Theorem safe_mode_locks_out_committee (tx_pause own : RuntimeCall Z -> bool) method calls :
  own (TechnicalCommittee method) = false -> own (Utility (batch_all calls)) = false ->
  let shibuya c := RuntimeShibuya.base_call_filter (fun c => own c || RuntimeShibuya.safe_mode_whitelisted_calls c) tx_pause c in
  let local c := RuntimeLocal.base_call_filter (fun c => own c || RuntimeLocal.safe_mode_whitelisted_calls c) tx_pause c in
  shibuya (TechnicalCommittee method) = false /\ shibuya (Utility (batch_all calls)) = false /\
  local (TechnicalCommittee method) = false /\ local (Utility (batch_all calls)) = false.
Proof.
  intros Hc Hu. unfold RuntimeShibuya.base_call_filter, RuntimeLocal.base_call_filter. rewrite Hc, Hu. done.
Qed.

(** In the Shibuya and Local runtimes the type [NonTransfer] counts as a
    superset of [Balances], though it lets no balance transfer pass: a
    [NonTransfer] proxy, which may call the proxy pallet, is allowed to add a
    proxy that transfers. *)
Theorem non_transfer_proxy_widens :
  let c : RuntimeCall Z := Balances transfer_all in
  (RuntimeShibuya.is_superset RuntimeShibuya.NonTransfer RuntimeShibuya.ProxyBalances = true /\
   RuntimeShibuya.proxy_filter RuntimeShibuya.ProxyBalances c = true /\
   RuntimeShibuya.proxy_filter RuntimeShibuya.NonTransfer c = false /\
   RuntimeShibuya.proxy_filter RuntimeShibuya.NonTransfer
     (Proxy (proxy_other "add_proxy") : RuntimeCall Z) = true) /\
  (RuntimeLocal.is_superset RuntimeLocal.NonTransfer RuntimeLocal.ProxyBalances = true /\
   RuntimeLocal.proxy_filter RuntimeLocal.ProxyBalances c = true /\
   RuntimeLocal.proxy_filter RuntimeLocal.NonTransfer c = false /\
   RuntimeLocal.proxy_filter RuntimeLocal.NonTransfer
     (Proxy (proxy_other "add_proxy") : RuntimeCall Z) = true).
Proof. done. Qed.

(** ** Calls on behalf of others *)

(** What the filter of the community council comes down to. *)
Definition council_leaf {AccountId} (c : RuntimeCall AccountId) : bool :=
  match c with DappStaking _ | System remark => true | _ => false end.

Lemma council_filter_leaf {AccountId} (c : RuntimeCall AccountId) :
  RuntimeAstar.community_council_call_filter c = true -> batched c = None -> council_leaf c = true.
Proof. by destruct c as [[]|[]| | | | | | | | | | | | | | | | | | | | | |]. Qed.

Section confinement.
Context {AccountId O W E : Type} `{!RuntimeDispatch AccountId O W E}.
Context `{!RuntimeDispatchLaws AccountId O W E}.

(** C33: on Astar, Shibuya and the local chain, what the community council does
    through the collective proxy, in however many nested batches, it does as
    the treasury account and with dApp staking calls and remarks only: any
    relation between states that those keep is kept.  The call is refused to
    any other origin, and it succeeds even when the call it makes fails. *)
Theorem council_calls_confined (collective_proxy : O -> bool) (treasury : AccountId)
    (R : relation W) (origin : O) (call : RuntimeCall AccountId) (s : CollectiveState W E) :
  let f := RuntimeAstar.community_council_call_filter in
  f = RuntimeShibuya.community_council_call_filter /\
  f = RuntimeLocal.community_council_call_filter /\
  (collective_proxy origin = false ->
     execute_call collective_proxy treasury f origin call s = Err CollectiveBadOrigin) /\
  (PreOrder R ->
   (forall c w w', (c = System remark \/ exists d, c = DappStaking d) ->
      dispatch_call c (add_filter f (signed treasury)) w = Ok w' -> R w w') ->
   collective_proxy origin = true ->
   exists s', execute_call collective_proxy treasury f origin call s = Ok s' /\
     R (collective_world s) (collective_world s')).
Proof.
  intros f. split; [done|]. split; [done|]. split.
  - intros Ho. unfold execute_call. by rewrite Ho.
  - intros HR Hleaf Ho.
    assert (exists s', execute_call collective_proxy treasury f origin call s = Ok s') as (s' & Hs).
    { unfold execute_call. rewrite Ho. destruct (dispatch_call call _ _); by eexists. }
    exists s'. split; [done|].
    apply (execute_call_confined collective_proxy treasury f council_leaf R origin call s s');
      [apply council_filter_leaf|done| |done].
    intros c w w' Hc. apply Hleaf. destruct c as [[]| | | | | | | | | | | | | | | | | | | | | | |];
      try discriminate Hc; eauto.
Qed.
Context {G : Type} `{!GasMeter (RuntimeCall AccountId) G, !Crypto, !LockdropCrypto AccountId}.
Context `{!GetDispatchInfo AccountId}.
Context (decode_with_depth_limit : Z -> bytes -> option (RuntimeCall AccountId)) (DecodeLimit : Z).
Context (record_cost : Z -> G -> option G) (weight_to_gas : Weight -> Z).

(** What the whitelist of the lockdrop precompile comes down to. *)
Definition lockdrop_leaf (c : RuntimeCall AccountId) : Prop :=
  (exists x v, c = DappStaking (call_unbond_and_unstake x v)) \/
  c = DappStaking call_withdraw_unbonded \/
  c = Balances transfer_all \/ c = Balances transfer_keep_alive \/
  c = Balances transfer_allow_death \/ c = Assets assets_transfer.

(** A successful call of the lockdrop precompile is made by the Ethereum
    account of the public key it passes; what it does, in however many nested
    batches, it does as the native account of the same key, and with
    transfers, unbonding and withdrawals only.  The whitelist is the same in
    all runtimes. *)
Theorem lockdrop_calls_confined (caller : EvmAddress) (input pubkey : bytes) (g g' : G) (w w' : W)
    (b : bool) :
  let contains := RuntimeAstar.whitelisted_lockdrop_calls in
  dispatch_lockdrop_call (E := E) decode_with_depth_limit DecodeLimit record_cost weight_to_gas
    contains caller input pubkey g w = Ok (b, g', w') ->
  contains = RuntimeShibuya.whitelisted_lockdrop_calls /\
  contains = RuntimeShiden.whitelisted_lockdrop_calls /\
  contains = RuntimeLocal.whitelisted_lockdrop_calls /\
  caller = get_evm_address_from_pubkey pubkey /\
  exists a, get_account_id_from_pubkey pubkey = Some a /\
    forall R : relation W, PreOrder R ->
      (forall c v v', lockdrop_leaf c -> dispatch_call (E := E) c (signed a) v = Ok v' -> R v v') ->
      R w w'.
Proof.
  intros contains Hd. apply dispatch_lockdrop_ok in Hd as (a & c & -> & Ha & _ & _ & Hc & Hw).
  do 4 (split; [done|]). exists a. split; [done|]. intros R HR Hleaf.
  eapply (confined_by_whitelist _ a R HR); [|exact Hc|exact Hw].
  intros x v v' Hx. apply Hleaf. unfold lockdrop_leaf.
  destruct x as [| | | | | | |[]| |[]|[]| | | | | | | | | | | | |]; try discriminate Hx; eauto 8.
Qed.
End confinement.

(** ** Configurations *)

Record RuntimeParams := mkRuntimeParams {
  rt_dapp_staking : Config;
  rt_genesis : GenesisConfig;
  rt_fee : FeeConfig;
}.

Definition runtimes : list RuntimeParams :=
  [mkRuntimeParams RuntimeAstar.dapp_staking_config RuntimeAstar.dapp_staking_genesis
     RuntimeAstar.dynamic_fee_config;
   mkRuntimeParams RuntimeShibuya.dapp_staking_config RuntimeShibuya.dapp_staking_genesis
     RuntimeShibuya.dynamic_fee_config;
   mkRuntimeParams RuntimeShiden.dapp_staking_config RuntimeShiden.dapp_staking_genesis
     RuntimeShiden.dynamic_fee_config;
   mkRuntimeParams RuntimeLocal.dapp_staking_config RuntimeLocal.dapp_staking_genesis
     RuntimeLocal.dynamic_fee_config].

Section configurations.
Context {AccountId Origin W : Type} `{Countable AccountId}.
Context `{!SpArithmetic, !SpArithmeticLaws, !Currency AccountId W, !FrameSystem AccountId Origin W}.
Context `{!Observer W, !StakingRewardHandler AccountId W, !AccountCheck AccountId W}.
Context `{!PrivilegedOrigins Origin, !PrefixOrder AccountId}.
Context `{!PriceProvider W, !TierSlots, !UnspecifiedOrder}.

Lemma checked_permill_sum_exact ps :
  checked_permill_sum ps =
  foldl (fun acc p => match acc with Some a => checked_add permill_one a p | None => None end)
    (Some 0) ps.
Proof.
  unfold checked_permill_sum. generalize (Some 0) as o. induction ps as [|p ps IH]; intros o; [done|].
  simpl. rewrite IH. f_equal. destruct o; [apply permill_checked_add_spec|done].
Qed.

(** The genesis of four tiers starts the chain. *)
Lemma genesis_starts (cfg : Config) (g : GenesisConfig) (w : W) (n r1 r2 : Z) :
  NumberOfTiers cfg = 4 ->
  length (genesis_reward_portion g) = 4%nat -> length (genesis_slot_distribution g) = 4%nat ->
  length (genesis_tier_thresholds g) = 4%nat -> length (genesis_slots_per_tier g) = 4%nat ->
  checked_permill_sum (genesis_reward_portion g) = Some r1 ->
  checked_permill_sum (genesis_slot_distribution g) = Some r2 ->
  checked_add u32_max (blocks_per_voting_period cfg) 1 = Some n ->
  exists s : Storage AccountId W, build cfg g w = Some s.
Proof.
  intros HNT Ha Hb Hc Hd Hr1 Hr2 Hn. unfold build, try_from. rewrite HNT, ?Ha, ?Hb, ?Hc, ?Hd.
  simpl. unfold params_is_valid, config_is_valid. simpl. rewrite Hr1, Hr2, Ha, Hb, Hc.
  simpl. rewrite length_fmap, ?Hc, ?Hd. simpl. rewrite ?length_fmap, ?Ha, ?Hc, ?Hd, Hn. by eexists.
Qed.

(** C36: the configurations of the four runtimes satisfy what the theorems on
    dApp staking and on the base fee assume, and their genesis starts the
    chain: there is a first state, and it is a reachable one.  A cycle, after
    which the inflation is recalculated, takes 366 days on Astar and Shiden. *)
Theorem runtimes_start (w : W) :
  blocks_per_cycle RuntimeAstar.InflationCycleConfig = 366 * RuntimeAstar.DAYS /\
  blocks_per_cycle RuntimeShiden.InflationCycleConfig = 366 * RuntimeShiden.DAYS /\
  Forall (fun r =>
    config_ok (rt_dapp_staking r) /\ fee_integrity_test (rt_fee r) = true /\
    perquintill_one <= StepLimitRatio (rt_fee r) * MinBaseFeePerGas (rt_fee r) /\
    exists s, build (rt_dapp_staking r) (rt_genesis r) w = Some s /\
      reachable (rt_dapp_staking r) s) runtimes.
Proof.
  assert (Hstart : forall r, genesis_typed (rt_genesis r) ->
    (exists s : Storage AccountId W, build (rt_dapp_staking r) (rt_genesis r) w = Some s) ->
    exists s, build (rt_dapp_staking r) (rt_genesis r) w = Some s /\ reachable (rt_dapp_staking r) s).
  { intros r Ht [s Hs]. exists s. split; [done|]. by apply (reachable_genesis _ (rt_genesis r) w). }
  split; [done|]. split; [done|]. repeat constructor; try done; apply Hstart; try (repeat constructor; done);
    eapply genesis_starts; rewrite ?checked_permill_sum_exact; done.
Qed.
End configurations.

(** ** Examples *)

Section examples.
Existing Instance ExactArithmetic.
Existing Instance StableOrder.

(** Twenty-one dApps with one percent of the issuance each. *)
Definition equal_stakes : list (Z * Z) := (fun id => (id, 100000)) <$> seqZ 1 21.

(** The tier that a dApp gets with a genesis configuration. *)
Definition first_tier (cfg : Config) (g : GenesisConfig) (id : Z) : option Z :=
  match build cfg g (mkExWorld 1 ∅ []) : option ExSt with
  | Some s =>
      tier <$> (assign_tiers cfg equal_stakes []
        (zip (slots_per_tier (TierConfig s)) (tier_thresholds (TierConfig s))) 0 0 ∅ []).1 !! id
  | None => None
  end.

(** The genesis of the local runtime asks more for the third tier (2.38%)
    than for the second (0.89%).  A dApp for which the second tier has no room
    then falls to the fourth, past thirty free places, where on Astar it gets
    into the third. *)
Theorem local_tier_thresholds_unordered :
  first_tier RuntimeLocal.dapp_staking_config RuntimeLocal.dapp_staking_genesis 20 = Some 1 /\
  first_tier RuntimeLocal.dapp_staking_config RuntimeLocal.dapp_staking_genesis 21 = Some 3 /\
  first_tier RuntimeAstar.dapp_staking_config RuntimeAstar.dapp_staking_genesis 20 = Some 1 /\
  first_tier RuntimeAstar.dapp_staking_config RuntimeAstar.dapp_staking_genesis 21 = Some 2.
Proof. by vm_compute. Qed.

Lemma runtimes_start_witness :
  exists s : ExSt,
    build RuntimeAstar.dapp_staking_config RuntimeAstar.dapp_staking_genesis (mkExWorld 1 ∅ []) = Some s /\
    reachable RuntimeAstar.dapp_staking_config s.
Proof.
  pose proof (@runtimes_start Z ExOrigin ExWorld _ _ ExactArithmetic ExactArithmetic_laws _ _ _ _ _ _ _
    _ _ _ (mkExWorld 1 ∅ [])) as (_ & _ & Hall).
  apply Forall_cons in Hall as ((_ & _ & _ & Hs) & _). exact Hs.
Defined.
End examples.

Section toy_confinement.
Existing Instance ToyDispatch.
Existing Instance ToyDispatchLaws.

(** The log grows by entries of an account that satisfy [P]. *)
Definition log_grows (a : Z) (P : RuntimeCall Z -> Prop) (w w' : ToyLog) : Prop :=
  exists l, w' = w ++ l /\ Forall (fun x => x.1 = a /\ P x.2) l.

#[local] Instance log_grows_preorder a P : PreOrder (log_grows a P).
Proof.
  split.
  - intros w. exists []. by rewrite app_nil_r.
  - intros w1 w2 w3 (l1 & -> & H1) (l2 & -> & H2). exists (l1 ++ l2).
    split; [by rewrite app_assoc|]. by apply Forall_app.
Qed.

(** A logged call adds itself. *)
Lemma toy_leaf (P : RuntimeCall Z -> Prop) f a (c : RuntimeCall Z) w w' :
  batched c = None -> P c ->
  toy_dispatch_call c (mkToyRtOrigin (Some a) f) w = Ok w' -> log_grows a P w w'.
Proof.
  intros Hb Hc Hd. exists [(a, c)]. split; [|by repeat constructor].
  destruct c as [|[]| | | | | | | | | | | | | | | | | | | | | |]; try discriminate Hb;
    simpl in Hd; destruct (f _); congruence.
Qed.

Definition council_batch : RuntimeCall Z :=
  Utility (batch [DappStaking (call_lock 5); Utility (batch_all [System remark]);
                  Balances transfer_all; System remark]).

(** A batch stops at the transfer it holds. *)
Lemma council_calls_confined_witness :
  let P c := c = System remark \/ exists d, c = DappStaking d in
  let s := mkCollectiveState [] [] in
  let f := RuntimeAstar.community_council_call_filter in
  execute_call (fun _ => true) 7 f (mkToyRtOrigin None (fun _ => true)) council_batch s =
    Ok (mkCollectiveState [CollectiveProxyExecuted (Ok tt)]
          [(7, DappStaking (call_lock 5)); (7, System remark)]) /\
  exists s', execute_call (fun _ => true) 7 f (mkToyRtOrigin None (fun _ => true)) council_batch s =
    Ok s' /\ log_grows 7 P [] (collective_world s').
Proof.
  intros P s f. split; [by vm_compute|].
  apply (council_calls_confined (fun _ => true) 7 (log_grows 7 P)
           (mkToyRtOrigin None (fun _ => true)) council_batch s); [apply _| |done].
  intros c w w' Hc. apply toy_leaf; [|done]. by destruct Hc as [->|[d ->]].
Defined.

Definition lockdrop_batch : RuntimeCall Z :=
  Utility (batch_all [Balances transfer_all; Utility (batch [Assets assets_transfer])]).

(** The native account of the key is its sum; its hash is the key. *)
Lemma lockdrop_calls_confined_witness :
  let Cr := {| keccak_256 b := b; secp256k1_ecdsa_recover _ _ := None |} in
  let L := {| parse_compressed b := Some b; blake2_256_account b := foldr Z.add 0 b |} in
  let I := {| get_dispatch_info _ := mkDispatchInfo PaysYes Normal |} in
  let M : GasMeter (RuntimeCall Z) Z := ToyGasMeter in
  let key := replicate 12 0 ++ replicate 20 1 in
  dispatch_lockdrop_call (E := unit) (fun _ _ => Some lockdrop_batch) 8 (fun _ g => Some g)
    (fun _ => 0) RuntimeAstar.whitelisted_lockdrop_calls (replicate 20 1) [] key 5 [] =
    Ok (true, 4, [(20, Balances transfer_all); (20, Assets assets_transfer)]) /\
  exists a, get_account_id_from_pubkey key = Some a /\
    log_grows a lockdrop_leaf [] [(20, Balances transfer_all); (20, Assets assets_transfer)].
Proof.
  intros Cr L I M key. split; [by vm_compute|].
  destruct (lockdrop_calls_confined (E := unit) (fun _ _ => Some lockdrop_batch) 8 (fun _ g => Some g)
    (fun _ => 0) (replicate 20 1) [] key 5 4 []
    [(20, Balances transfer_all); (20, Assets assets_transfer)] true)
    as (_ & _ & _ & _ & a & Ha & HR); [by vm_compute|].
  exists a. split; [done|]. apply HR; [apply _|].
  intros c v v' Hc. apply toy_leaf; [|done].
  by destruct Hc as [(x & y & ->)|[->|[->|[->|[->| ->]]]]].
Defined.
End toy_confinement.
