(* ===== verification/RuntimeTreasury.v ===== *)
(** * The treasuries of the runtimes

    The main and the community treasury of Astar, Shibuya and the local
    runtime ([runtime/*/src/lib.rs]); Shiden has none.  Both instances of a
    runtime are configured alike but for the account and the council. *)

From S2P Require Import Prelude Frame Treasury TreasurySafety TreasuryHistory TreasuryExample.
From S2P Require RuntimeAstar RuntimeShibuya RuntimeLocal.

(** [Permill::from_percent(5)]. *)
Definition ProposalBond5 : Z := 50000.

Definition astar_treasury {AccountId} (account : AccountId) : TreasuryConfig AccountId :=
  mkTreasuryConfig account ProposalBond5 (100 * RuntimeAstar.ASTR) (Some (1000 * RuntimeAstar.ASTR))
    (7 * RuntimeAstar.DAYS) 0 64 0.
Definition astar_community_treasury {AccountId} (account : AccountId) : TreasuryConfig AccountId :=
  mkTreasuryConfig account ProposalBond5 (100 * RuntimeAstar.ASTR) (Some (1000 * RuntimeAstar.ASTR))
    (7 * RuntimeAstar.DAYS) 0 64 0.
Definition shibuya_treasury {AccountId} (account : AccountId) : TreasuryConfig AccountId :=
  mkTreasuryConfig account ProposalBond5 (100 * RuntimeShibuya.SBY) (Some (10000 * RuntimeShibuya.SBY))
    (3 * RuntimeShibuya.DAYS) 0 64 0.
Definition shibuya_community_treasury {AccountId} (account : AccountId) : TreasuryConfig AccountId :=
  mkTreasuryConfig account ProposalBond5 (100 * RuntimeShibuya.SBY) (Some (10000 * RuntimeShibuya.SBY))
    (3 * RuntimeShibuya.DAYS) 0 64 0.
Definition local_treasury {AccountId} (account : AccountId) : TreasuryConfig AccountId :=
  mkTreasuryConfig account ProposalBond5 (10 * RuntimeLocal.AST) (Some (100 * RuntimeLocal.AST))
    (1 * RuntimeLocal.MINUTES) 0 64 0.
Definition local_community_treasury {AccountId} (account : AccountId) : TreasuryConfig AccountId :=
  mkTreasuryConfig account ProposalBond5 (10 * RuntimeLocal.AST) (Some (100 * RuntimeLocal.AST))
    (1 * RuntimeLocal.MINUTES) 0 64 0.

Definition deployed_treasuries {AccountId} (a b : AccountId) : list (TreasuryConfig AccountId) :=
  [astar_treasury a; astar_community_treasury b; shibuya_treasury a; shibuya_community_treasury b;
   local_treasury a; local_community_treasury b].

Section deployed.
Context {AccountId Kind Beneficiary Id Origin W : Type} `{EqDecision AccountId}.
Context `{!SpArithmetic, !SpArithmeticLaws}.
Context `{!ReservableCurrency AccountId W, !TreasuryCurrency AccountId W}.
Context `{!TreasuryCurrencyLaws AccountId W}.
Context `{!FrameSystem AccountId Origin W, !Paymaster Kind Beneficiary Id W, !TreasuryOrigins Origin}.

Abbreviation St := (TreasuryStorage (AccountId := AccountId) (Kind := Kind)
  (Beneficiary := Beneficiary) (Id := Id) (W := W)).

(** [SpendFunds = ()]. *)
Definition spend_nothing (x : Z * Z * bool * W) : Z * Z * bool * W := x.

(** [SpendOrigin = NeverEnsureOrigin]. *)
Definition never_spends : Prop := forall o : Origin, SpendOrigin o = None.

Lemma spend_nothing_ok : hook_ok (AccountId := AccountId) spend_nothing.
Proof. intros b i m w Hb Hi Hs. simpl. split_and!; try lia; done. Qed.

(** What the configurations have in common. *)
Lemma deployed_config_ok (a b : AccountId) cfg :
  cfg ∈ deployed_treasuries a b ->
  treasury_config_ok cfg /\ 0 < SpendPeriod cfg /\ Burn cfg = 0 /\
  exists m, ProposalBondMaximum cfg = Some m /\ ProposalBondMinimum cfg <= m.
Proof.
  unfold deployed_treasuries. rewrite !elem_of_cons, elem_of_nil. intros Hcfg.
  assert (Hok : ProposalBond cfg = 50000 /\ Burn cfg = 0 /\ 0 < SpendPeriod cfg /\
    0 <= ProposalBondMinimum cfg /\ exists m, ProposalBondMaximum cfg = Some m /\
    ProposalBondMinimum cfg <= m <= u128_max).
  { destruct_or! Hcfg; subst cfg; (split_and!; [reflexivity..|vm_compute; reflexivity|vm_compute; discriminate|]);
      (eexists; split; [reflexivity|]); vm_compute; split; discriminate. }
  destruct Hok as (Hb & Hburn & Hp & Hmin & m & Hmax & Hm). split_and!; [|done..|exists m; split; [done|lia]].
  split; unfold in_range; rewrite ?Hb, ?Hburn; try lia.
  intros m' Hm'. rewrite Hmax in Hm'. injection Hm' as <-. lia.
Qed.

(** Nothing is burnt where the share is zero. *)
Lemma burn_nothing x : in_range u128_max x -> permill_mul 0 x = 0.
Proof. intros Hx. pose proof (permill_mul_nearest 0 x ltac:(unfold in_range; lia) Hx). lia. Qed.

Lemma no_spends (cfg : TreasuryConfig AccountId) usual n (s : St) :
  never_spends -> treasury_reachable cfg spend_nothing usual n s -> Spends s = ∅ /\ SpendCount s = 0.
Proof.
  intros Hnever. assert (Hq : forall s s' : St, quiet s s' -> Spends s = ∅ /\ SpendCount s = 0 ->
    Spends s' = ∅ /\ SpendCount s' = 0) by (intros s1 s2 (-> & -> & _); done).
  induction 1 as [w|n o c ctx s ctx' s' Hr IH _ Hc Hs|n k s Hr IH|n x s Hr IH Hx|n w s Hr IH Hw].
  - unfold treasury_build. by case_match.
  - destruct c; simpl in Hs; try (injection Hs as _ Hs).
    + eapply Hq; [|exact IH]. unfold propose_spend in Hs. result_inv.
      apply quiet_event; [done|]. by apply quiet_same.
    + eapply Hq; [|exact IH]. unfold reject_proposal in Hs. result_inv. apply quiet_event; [done|].
      etrans; [|apply on_unbalanced_quiet]. by apply quiet_same.
    + eapply Hq; [|exact IH]. unfold approve_proposal in Hs. result_inv. by apply quiet_same.
    + unfold spend_local in Hs. by rewrite Hnever in Hs.
    + eapply Hq; [|exact IH]. unfold remove_approval in Hs. result_inv. by apply quiet_same.
    + unfold spend in Hs. by rewrite Hnever in Hs.
    + unfold payout in Hs. destruct IH as [IH _]. rewrite IH in Hs. by result_inv.
    + destruct (check_status o index s) as [[fee s1]|] eqn:Hch; [|done].
      unfold check_status in Hch. destruct IH as [IH _]. rewrite IH in Hch. by result_inv.
    + unfold void_spend in Hs. destruct IH as [IH _]. rewrite IH in Hs. by result_inv.
  - eapply Hq; [apply on_initialize_quiet|exact IH].
  - eapply Hq; [apply on_unbalanced_quiet|exact IH].
  - done.
Qed.

(** What leaves a deployed treasury at a spend period has been awarded to the
    proposals that a council approved; there are no other spends, and a bond is
    between the minimum and the maximum. *)
Theorem deployed_treasury_awards_only (a b : AccountId) cfg n (s : St) :
  paymaster_ok (AccountId := AccountId) (Kind := Kind) (Beneficiary := Beneficiary) (Id := Id) (W := W) ->
  never_spends -> cfg ∈ deployed_treasuries a b ->
  treasury_reachable cfg spend_nothing any_call n s -> n <= u32_max ->
  let s' := spend_funds cfg spend_nothing s in
  Spends s = ∅ /\
  (forall v, in_range u128_max v -> ProposalBondMinimum cfg <= calculate_bond cfg v /\
     (forall m, ProposalBondMaximum cfg = Some m -> calculate_bond cfg v <= m)) /\
  exists aw : list (Award (AccountId := AccountId)),
    sublist (aw_index <$> aw) (Approvals s) /\
    Forall (fun x => Proposals s !! aw_index x = Some (aw_proposal x)) aw /\
    0 <= created aw <= pot cfg s /\
    free_balance (treasury_world s') (TreasuryAccount cfg) =
      free_balance (treasury_world s) (TreasuryAccount cfg) + returned_to (TreasuryAccount cfg) aw +
      received_by (TreasuryAccount cfg) aw - created aw.
Proof.
  intros Hpay Hnever Hin Hr Hn s'. destruct (deployed_config_ok a b cfg Hin) as (Hcfg & _ & Hburn & max & Hmax & Hmin).
  pose proof (treasury_reachable_inv cfg spend_nothing Hcfg spend_nothing_ok Hpay _ n s Hr Hn) as Hinv.
  split_and!.
  - by eapply no_spends.
  - intros v Hv. unfold calculate_bond. rewrite Hmax. split; [lia|].
    intros m Hm. injection Hm as <-. lia.
  - destruct (spend_funds_spec cfg spend_nothing n s Hcfg spend_nothing_ok Hinv)
      as (r' & aw & x & i & burn & m & w & _ & Hr' & Haw & [Hh [Hb1 Hb2] [Hi Ht] Hw _]).
    fold s' in Haw, Hw. injection Hh as <- <- <- <-.
    pose proof (created_range _ _ _ _ _ (first_round_ok cfg n s Hinv) Haw) as Hcr.
    assert (burn = 0) as ->.
    { rewrite Hb1, Hburn. destruct (missed_any r'); [done|]. rewrite burn_nothing; [lia|].
      pose proof (ro_sum r' Hr'). pose proof (ro_budget r' Hr'). unfold in_range. lia. }
    destruct (rt_budget _ _ _ _ _ Haw) as [Hbud _]. pose proof (rt_imbalance _ _ _ _ _ Haw) as Himb.
    simpl in Hbud, Himb. exists aw. split_and!; [apply (rt_order _ _ _ _ _ Haw)| |lia..|].
    + eapply Forall_impl; [apply (rt_awards _ _ _ _ _ Haw)|]. by intros y (_ & ? & _).
    + destruct (Hw (TreasuryAccount cfg)) as [_ ->]. rewrite decide_True by done.
      rewrite (rt_free _ _ _ _ _ Haw). simpl. lia.
Qed.
End deployed.

(** ** A proposal in the treasury of Astar *)

#[local] Existing Instance ExactArithmetic.
#[local] Existing Instance ExactArithmetic_laws.
#[local] Instance council_only : TreasuryOrigins Z := {|
  ApproveOrigin o := o =? -1;
  RejectOrigin o := o =? -1;
  SpendOrigin o := None;
|}.

Definition rich_world : TreasuryWorld :=
  mkTreasuryWorld (fun a => (1000000 * RuntimeAstar.ASTR, 0)) 0 0 (fun _ => InProgress).
Definition astar_proposed : Result ToyTreasury TreasuryError :=
  propose_spend (astar_treasury 100) 1 (50000 * RuntimeAstar.ASTR) (Some 2)
    (treasury_build (astar_treasury 100) (treasury_empty rich_world)).
Definition astar_approved : Result ToyTreasury TreasuryError :=
  let! s := astar_proposed in approve_proposal (astar_treasury 100) (-1) 0 s.

Lemma astar_approved_reachable s :
  astar_approved = Ok s -> treasury_reachable (astar_treasury 100) spend_nothing any_call 2 s.
Proof.
  unfold astar_approved. destruct astar_proposed as [s1|e] eqn:Hs1; [|done]. intros Hs.
  apply (treasury_call _ _ _ 1 (-1) (tc_approve_proposal 0) None s1 None s); [|done|done|by rewrite <- Hs].
  apply (treasury_call _ _ _ 0 1 (tc_propose_spend (50000 * RuntimeAstar.ASTR) (Some 2)) None
    (treasury_build (astar_treasury 100) (treasury_empty rich_world)) None s1);
    [apply treasury_genesis|done| |by rewrite <- Hs1].
  vm_compute. split; discriminate.
Qed.

Lemma council_never : never_spends (Origin := Z).
Proof. done. Qed.
Lemma astar_deployed : astar_treasury 100 ∈ deployed_treasuries 100 101.
Proof. apply elem_of_cons. by left. Qed.

Lemma deployed_treasury_awards_only_witness :
  exists s : ToyTreasury, astar_approved = Ok s /\ Spends s = ∅ /\
  exists aw : list (Award (AccountId := Z)), 0 <= created aw <= pot (astar_treasury 100) s.
Proof.
  destruct astar_approved as [s|e] eqn:Hs; [|vm_compute in Hs; discriminate]. exists s. split; [reflexivity|].
  destruct (deployed_treasury_awards_only (Origin := Z) 100 101 (astar_treasury 100) 2 s toy_pay_ok council_never
    astar_deployed (astar_approved_reachable s Hs) ltac:(lia)) as (Hsp & _ & aw & _ & _ & Haw & _).
  split; [exact Hsp|]. exists aw. exact Haw.
Defined.
