(* ===== verification/XcmPrecompile.v ===== *)
(** * The XCM precompile

    [precompiles/xcm/src/lib.rs]: cross-chain transfers and messages for
    Ethereum accounts.  Every function turns its arguments into one call of
    [orml_xtokens] or [pallet_xcm] and dispatches it as the caller. *)

From stdpp Require Import strings.
From S2P Require Import Prelude Frame XcAssetConfig XcmPrimitives.
From S2P Require Import UnifiedAccounts PrecompileUtils AssetsErc20.

(** ** Arguments *)

(** An Ethereum word is a number; [network] is [None]. *)
Inductive Junction := AccountId32 (id : bytes) | AccountKey20 (key : bytes).

Record WeightV2 := mkWeightV2 { v2_ref_time : Z; v2_proof_size : Z }.

Definition get_weight (w : WeightV2) : Weight := mkWeight (v2_ref_time w) (v2_proof_size w).
Definition is_zero (w : WeightV2) : bool := v2_ref_time w =? 0.

Record EvmCurrency := mkCurrency { currency_address : EvmAddress; currency_amount : Z }.
Record EvmMultiAsset (Location : Type) := mkEvmMultiAsset {
  evm_location : Location;
  evm_amount : Z;
}.
Arguments mkEvmMultiAsset {Location}.
Arguments evm_location {Location}.
Arguments evm_amount {Location}.

(** ** The calls it makes *)

Inductive XcmCall (Location : Type) :=
| xc_transfer_multiassets (assets : list (Asset Location)) (fee_item : Z) (dest : Location)
    (dest_weight_limit : WeightLimit)
| xc_transfer_multiasset (asset : Asset Location) (dest : Location) (dest_weight_limit : WeightLimit)
| xc_transfer_multiasset_with_fee (asset fee : Asset Location) (dest : Location)
    (dest_weight_limit : WeightLimit)
| xc_transfer (currency_id amount : Z) (dest : Location) (dest_weight_limit : WeightLimit)
| xc_transfer_with_fee (currency_id amount fee : Z) (dest : Location)
    (dest_weight_limit : WeightLimit)
| xc_transfer_multicurrencies (currencies : list (Z * Z)) (fee_item : Z) (dest : Location)
    (dest_weight_limit : WeightLimit)
| xc_send (dest : Location) (message : list (Instruction Location)).
Arguments xc_transfer_multiassets {Location}.
Arguments xc_transfer_multiasset {Location}.
Arguments xc_transfer_multiasset_with_fee {Location}.
Arguments xc_transfer {Location}.
Arguments xc_transfer_with_fee {Location}.
Arguments xc_transfer_multicurrencies {Location}.
Arguments xc_send {Location}.

(** What the precompile uses of the [xcm] crates: appending a junction,
    [Asset::reanchored] to a destination, [Assets::from] and
    [Assets::from_sorted_and_deduplicated], and the decoding of a message. *)
Class XcmTypes (Location : Type) := {
  push_interior : Location -> Junction -> option Location;
  reanchored : Asset Location -> Location -> option (Asset Location);
  assets_from : list (Asset Location) -> list (Asset Location);
  from_sorted_and_deduplicated : list (Asset Location) -> option (list (Asset Location));
  decode_all_with_depth_limit : bytes -> option (list (Instruction Location));
}.

(** [NATIVE_ADDRESS] and [DEFAULT_PROOF_SIZE]. *)
Definition NATIVE_ADDRESS : EvmAddress := replicate 20 0.
Definition DEFAULT_PROOF_SIZE : Z := 1024 * 256.

Definition fungible {Location} (l : Location) (x : Z) : Asset Location := mkAsset l (Fungible x).

Section precompile.
Context {AccountId W E G Location : Type} `{!XcmLocation Location, !XcmTypes Location}.
Context `{!GasMeter (XcmCall Location) G}.
(** The dispatch, [AddressMapping::into_account_id], [C::convert_back] and
    [handle.context().caller]. *)
Context (xcm_dispatch : XcmCall Location -> AccountId -> W -> Result W E).
Context (into_account_id : EvmAddress -> AccountId) (convert_back : Z -> option Location).
Context (caller : EvmAddress).

Abbreviation St := (G * W)%type.
Abbreviation EvmResult A := (Result (A * St) (EvmError E)).

(** [RuntimeHelper::try_dispatch]. *)
Definition try_dispatch_xcm (call : XcmCall Location) (s : St) : EvmResult bool :=
  let! g := ok_or (charge (DispatchCost call) s.1) OutOfGas in
  let! w := map_err DispatchFailed (xcm_dispatch call (into_account_id caller) s.2) in
  Ok (true, (g, w)).

(** [try_into] of a [U256]. *)
Definition u256_into (max x : Z) (message : string) : Result Z (EvmError E) :=
  ensure! x <=? max else Revert message in Ok x.

(** [map(try_into).collect::<Result<_, _>>()]. *)
Fixpoint u256_into_all (max : Z) (xs : list Z) (message : string) : Result (list Z) (EvmError E) :=
  match xs with
  | [] => Ok []
  | x :: xs =>
      let! x := u256_into max x message in
      let! xs := u256_into_all max xs message in
      Ok (x :: xs)
  end.

Definition weight_limit_of (weight : WeightV2) : WeightLimit :=
  if is_zero weight then Unlimited else Limited (get_weight weight).

Definition chain_location (is_relay : bool) (parachain_id : Z) : Location :=
  if is_relay then location_parent else sibling_parachain parachain_id.

(** *** Version 1 *)

(** What the two internal functions share after the addresses are resolved. *)
Definition transfer_resolved (assets : list Location) (amounts : list Z) (beneficiary : Junction)
    (is_relay : bool) (parachain_id fee_index : Z) (s : St) : EvmResult bool :=
  let! amounts := u256_into_all u128_max amounts "error converting amounts, maybe value too large" in
  ensure! (length assets =? length amounts)%nat && negb (length assets =? 0)%nat
    else Revert "Assets resolution failure." in
  let! parachain_id := u256_into u32_max parachain_id
                         "error converting parachain_id, maybe value too large" in
  let! fee_item := u256_into u32_max fee_index
                     "error converting fee_index, maybe value too large" in
  let! destination := ok_or (push_interior (chain_location is_relay parachain_id) beneficiary)
                        (Revert "error building destination multilocation") in
  let assets := zip_with fungible assets amounts in
  try_dispatch_xcm (xc_transfer_multiassets (assets_from assets) fee_item destination Unlimited) s.

Definition resolve_asset (address : EvmAddress) : option Location :=
  address_to_asset_id address ≫= convert_back.

Definition assets_withdraw_v1_internal (assets : list EvmAddress) (amounts : list Z)
    (beneficiary : Junction) (is_relay : bool) (parachain_id fee_index : Z) (s : St)
    : EvmResult bool :=
  transfer_resolved (omap resolve_asset assets) amounts beneficiary is_relay parachain_id fee_index s.

(** The zero address is the native token by convention. *)
Definition resolve_asset_or_native (address : EvmAddress) : option Location :=
  if bool_decide (address = NATIVE_ADDRESS) then Some location_here else resolve_asset address.

Definition assets_reserve_transfer_v1_internal (assets : list EvmAddress) (amounts : list Z)
    (beneficiary : Junction) (is_relay : bool) (parachain_id fee_index : Z) (s : St)
    : EvmResult bool :=
  transfer_resolved (omap resolve_asset_or_native assets) amounts beneficiary is_relay
    parachain_id fee_index s.

Definition assets_withdraw_native_v1 assets amounts (recipient_account_id : bytes) is_relay
    parachain_id fee_index s : EvmResult bool :=
  assets_withdraw_v1_internal assets amounts (AccountId32 recipient_account_id) is_relay
    parachain_id fee_index s.
Definition assets_withdraw_evm_v1 assets amounts (recipient_account_id : EvmAddress) is_relay
    parachain_id fee_index s : EvmResult bool :=
  assets_withdraw_v1_internal assets amounts (AccountKey20 recipient_account_id) is_relay
    parachain_id fee_index s.
Definition assets_reserve_transfer_native_v1 assets amounts (recipient_account_id : bytes) is_relay
    parachain_id fee_index s : EvmResult bool :=
  assets_reserve_transfer_v1_internal assets amounts (AccountId32 recipient_account_id) is_relay
    parachain_id fee_index s.
Definition assets_reserve_transfer_evm_v1 assets amounts (recipient_account_id : EvmAddress)
    is_relay parachain_id fee_index s : EvmResult bool :=
  assets_reserve_transfer_v1_internal assets amounts (AccountKey20 recipient_account_id) is_relay
    parachain_id fee_index s.

Definition fee_asset_location (fee_asset_addr : EvmAddress) : Result Location (EvmError E) :=
  if bool_decide (fee_asset_addr = NATIVE_ADDRESS) then Ok location_here
  else
    let! fee_asset_id := ok_or (address_to_asset_id fee_asset_addr)
                           (Revert "Failed to resolve fee asset id from address") in
    ok_or (convert_back fee_asset_id)
      (Revert "Failed to resolve fee asset multilocation from local id").

(** The message that [remote_transact] sends. *)
Definition remote_transact_message (fee : Asset Location) (remote_call : bytes) (transact_weight : Z)
    : list (Instruction Location) :=
  [WithdrawAsset [fee]; BuyExecution fee Unlimited;
   Transact SovereignAccount (mkWeight transact_weight DEFAULT_PROOF_SIZE) remote_call].

Definition remote_transact_v1 (para_id : Z) (is_relay : bool) (fee_asset_addr : EvmAddress)
    (fee_amount : Z) (remote_call : bytes) (transact_weight : Z) (s : St) : EvmResult bool :=
  let! para_id := u256_into u32_max para_id "error converting para_id, maybe value too large" in
  let! fee_amount := u256_into u128_max fee_amount
                       "error converting fee_amount, maybe value too large" in
  let dest := chain_location is_relay para_id in
  let! fee_asset := fee_asset_location fee_asset_addr in
  let! fee := ok_or (reanchored (fungible fee_asset fee_amount) dest)
                (Revert "Failed to reanchor fee asset") in
  try_dispatch_xcm (xc_send dest (remote_transact_message fee remote_call transact_weight)) s.

Definition send_xcm (dest : Location) (xcm_call : bytes) (s : St) : EvmResult bool :=
  let! xcm := ok_or (decode_all_with_depth_limit xcm_call)
                (Revert "Failed to decode xcm instructions") in
  try_dispatch_xcm (xc_send dest xcm) s.

(** *** Version 2 *)

Definition transfer (currency : EvmAddress) (amount_of_tokens : Z) (destination : Location)
    (weight : WeightV2) (s : St) : EvmResult bool :=
  let! amount := u256_into u128_max amount_of_tokens
                   "error converting amount_of_tokens, maybe value too large" in
  let limit := weight_limit_of weight in
  if bool_decide (currency = NATIVE_ADDRESS) then
    try_dispatch_xcm (xc_transfer_multiasset (fungible location_here amount) destination limit) s
  else
    let! asset_id := ok_or (address_to_asset_id currency)
                       (Revert "Failed to resolve fee asset id from address") in
    try_dispatch_xcm (xc_transfer asset_id amount destination limit) s.

Definition transfer_with_fee (currency : EvmAddress) (amount_of_tokens fee : Z)
    (destination : Location) (weight : WeightV2) (s : St) : EvmResult bool :=
  let! amount := u256_into u128_max amount_of_tokens
                   "error converting amount_of_tokens, maybe value too large" in
  let! fee := u256_into u128_max fee "can't convert fee" in
  let limit := weight_limit_of weight in
  if bool_decide (currency = NATIVE_ADDRESS) then
    try_dispatch_xcm
      (xc_transfer_multiasset_with_fee (fungible location_here amount) (fungible location_here fee)
         destination limit) s
  else
    let! asset_id := ok_or (address_to_asset_id currency)
                       (Revert "Failed to resolve fee asset id from address") in
    try_dispatch_xcm (xc_transfer_with_fee asset_id amount fee destination limit) s.

Definition transfer_multiasset (asset_location : Location) (amount_of_tokens : Z)
    (destination : Location) (weight : WeightV2) (s : St) : EvmResult bool :=
  let! amount := u256_into u128_max amount_of_tokens
                   "error converting amount_of_tokens, maybe value too large" in
  try_dispatch_xcm
    (xc_transfer_multiasset (fungible asset_location amount) destination (weight_limit_of weight)) s.

Definition transfer_multiasset_with_fee (asset_location : Location) (amount_of_tokens fee : Z)
    (destination : Location) (weight : WeightV2) (s : St) : EvmResult bool :=
  let! amount := u256_into u128_max amount_of_tokens
                   "error converting amount_of_tokens, maybe value too large" in
  let! fee := u256_into u128_max fee "can't convert fee" in
  try_dispatch_xcm
    (xc_transfer_multiasset_with_fee (fungible asset_location amount) (fungible asset_location fee)
       destination (weight_limit_of weight)) s.

(** The loop over the currencies. *)
Fixpoint resolve_currencies (currencies : list EvmCurrency) : Result (list (Z * Z)) (EvmError E) :=
  match currencies with
  | [] => Ok []
  | c :: currencies =>
      let! amount := u256_into u128_max (currency_amount c) "value too large: in currency" in
      let! id := ok_or (address_to_asset_id (currency_address c))
                   (Revert "can't convert into currency id") in
      let! rest := resolve_currencies currencies in
      Ok ((id, amount) :: rest)
  end.

Definition transfer_multi_currencies (currencies : list EvmCurrency) (fee_item : Z)
    (destination : Location) (weight : WeightV2) (s : St) : EvmResult bool :=
  let! currencies := resolve_currencies currencies in
  try_dispatch_xcm
    (xc_transfer_multicurrencies currencies fee_item destination (weight_limit_of weight)) s.

(** The loop over the assets. *)
Fixpoint resolve_assets (assets : list (EvmMultiAsset Location))
    : Result (list (Asset Location)) (EvmError E) :=
  match assets with
  | [] => Ok []
  | a :: assets =>
      let! to_balance := u256_into u128_max (evm_amount a) "value too large in assets" in
      let! rest := resolve_assets assets in
      Ok (fungible (evm_location a) to_balance :: rest)
  end.

Definition transfer_multi_assets (assets : list (EvmMultiAsset Location)) (fee_item : Z)
    (destination : Location) (weight : WeightV2) (s : St) : EvmResult bool :=
  let! multiasset_vec := resolve_assets assets in
  let! multiassets := ok_or (from_sorted_and_deduplicated multiasset_vec)
    (Revert "In field Assets, Provided assets either not sorted nor deduplicated") in
  try_dispatch_xcm
    (xc_transfer_multiassets multiassets fee_item destination (weight_limit_of weight)) s.
End precompile.

(** ** The functions together *)

Inductive EvmXcmCall (Location : Type) :=
| ev_assets_withdraw (assets : list EvmAddress) (amounts : list Z) (recipient : Junction)
    (is_relay : bool) (parachain_id fee_index : Z)
| ev_assets_reserve_transfer (assets : list EvmAddress) (amounts : list Z) (recipient : Junction)
    (is_relay : bool) (parachain_id fee_index : Z)
| ev_remote_transact (para_id : Z) (is_relay : bool) (fee_asset : EvmAddress) (fee_amount : Z)
    (remote_call : bytes) (transact_weight : Z)
| ev_send_xcm (dest : Location) (xcm_call : bytes)
| ev_transfer (currency : EvmAddress) (amount : Z) (destination : Location) (weight : WeightV2)
| ev_transfer_with_fee (currency : EvmAddress) (amount fee : Z) (destination : Location)
    (weight : WeightV2)
| ev_transfer_multiasset (asset : Location) (amount : Z) (destination : Location) (weight : WeightV2)
| ev_transfer_multiasset_with_fee (asset : Location) (amount fee : Z) (destination : Location)
    (weight : WeightV2)
| ev_transfer_multi_currencies (currencies : list EvmCurrency) (fee_item : Z)
    (destination : Location) (weight : WeightV2)
| ev_transfer_multi_assets (assets : list (EvmMultiAsset Location)) (fee_item : Z)
    (destination : Location) (weight : WeightV2).
Arguments ev_assets_withdraw {Location}.
Arguments ev_assets_reserve_transfer {Location}.
Arguments ev_remote_transact {Location}.
Arguments ev_send_xcm {Location}.
Arguments ev_transfer {Location}.
Arguments ev_transfer_with_fee {Location}.
Arguments ev_transfer_multiasset {Location}.
Arguments ev_transfer_multiasset_with_fee {Location}.
Arguments ev_transfer_multi_currencies {Location}.
Arguments ev_transfer_multi_assets {Location}.

Section theorems.
Context {AccountId W E G Location : Type} `{!XcmLocation Location, !XcmTypes Location}.
Context `{!GasMeter (XcmCall Location) G}.
Context (xcm_dispatch : XcmCall Location -> AccountId -> W -> Result W E).
Context (into_account_id : EvmAddress -> AccountId) (convert_back : Z -> option Location).

Abbreviation St := (G * W)%type.

Definition xcm_call (caller : EvmAddress) (c : EvmXcmCall Location) (s : St)
    : Result (bool * St) (EvmError E) :=
  match c with
  | ev_assets_withdraw assets amounts (AccountId32 id) r p f =>
      assets_withdraw_native_v1 xcm_dispatch into_account_id convert_back caller assets amounts id r p f s
  | ev_assets_withdraw assets amounts (AccountKey20 k) r p f =>
      assets_withdraw_evm_v1 xcm_dispatch into_account_id convert_back caller assets amounts k r p f s
  | ev_assets_reserve_transfer assets amounts (AccountId32 id) r p f =>
      assets_reserve_transfer_native_v1 xcm_dispatch into_account_id convert_back caller
        assets amounts id r p f s
  | ev_assets_reserve_transfer assets amounts (AccountKey20 k) r p f =>
      assets_reserve_transfer_evm_v1 xcm_dispatch into_account_id convert_back caller
        assets amounts k r p f s
  | ev_remote_transact p r a x call w =>
      remote_transact_v1 xcm_dispatch into_account_id convert_back caller p r a x call w s
  | ev_send_xcm dest x => send_xcm xcm_dispatch into_account_id caller dest x s
  | ev_transfer a x d w => transfer xcm_dispatch into_account_id caller a x d w s
  | ev_transfer_with_fee a x f d w =>
      transfer_with_fee xcm_dispatch into_account_id caller a x f d w s
  | ev_transfer_multiasset l x d w =>
      transfer_multiasset xcm_dispatch into_account_id caller l x d w s
  | ev_transfer_multiasset_with_fee l x f d w =>
      transfer_multiasset_with_fee xcm_dispatch into_account_id caller l x f d w s
  | ev_transfer_multi_currencies cs i d w =>
      transfer_multi_currencies xcm_dispatch into_account_id caller cs i d w s
  | ev_transfer_multi_assets xs i d w =>
      transfer_multi_assets xcm_dispatch into_account_id caller xs i d w s
  end.

(** ** The interface

    [XCM.sol] and [XCM_v2.sol], stated without the functions of the code: the
    call that a function stands for.  Every address names an asset, an amount
    is a balance as it is, the fee is paid in the asset that the fee index has
    in the list of the caller. *)

Definition is_balance (x : Z) : Prop := x <= 2 ^ 128 - 1.
Definition is_u32 (x : Z) : Prop := x <= 2 ^ 32 - 1.

(** The location an address stands for; the zero address is the native token. *)
Definition zero_address : EvmAddress := replicate 20 0.
Definition names (a : EvmAddress) (l : Location) : Prop :=
  exists id, address_to_asset_id a = Some id /\ convert_back id = Some l.
Definition names_or_native (a : EvmAddress) (l : Location) : Prop :=
  (a = zero_address /\ l = location_here) \/ (a <> zero_address /\ names a l).

(** "set `true` for using relay chain". *)
Inductive chain : bool -> Z -> Location -> Prop :=
| chain_relay p : chain true p location_parent
| chain_sibling p : chain false p (sibling_parachain p).

(** "to set the weightlimit to Unlimited, you should use the value 0 for
    ref_time". *)
Inductive buys : WeightV2 -> WeightLimit -> Prop :=
| buys_unlimited proof : buys (mkWeightV2 0 proof) Unlimited
| buys_limited time proof : time <> 0 -> buys (mkWeightV2 time proof) (Limited (mkWeight time proof)).

(** The transfer of a list of assets, in the order of the list. *)
Definition listed (ls : list Location) (amounts : list Z) : list (Asset Location) :=
  zip_with (fun l x => mkAsset l (Fungible x)) ls amounts.
Definition pays_out (R : EvmAddress -> Location -> Prop) (assets : list EvmAddress)
    (amounts : list Z) (out : list (Asset Location)) : Prop :=
  exists ls, Forall2 R assets ls /\ Forall is_balance amounts /\ out = listed ls amounts.

Inductive stands_for : EvmXcmCall Location -> XcmCall Location -> Prop :=
| sf_withdraw assets amounts recipient r p f out dest0 dest :
    pays_out names assets amounts out -> assets <> [] ->
    is_u32 p -> is_u32 f -> chain r p dest0 -> push_interior dest0 recipient = Some dest ->
    stands_for (ev_assets_withdraw assets amounts recipient r p f)
      (xc_transfer_multiassets out f dest Unlimited)
| sf_reserve assets amounts recipient r p f out dest0 dest :
    pays_out names_or_native assets amounts out -> assets <> [] ->
    is_u32 p -> is_u32 f -> chain r p dest0 -> push_interior dest0 recipient = Some dest ->
    stands_for (ev_assets_reserve_transfer assets amounts recipient r p f)
      (xc_transfer_multiassets out f dest Unlimited)
| sf_remote p r a x call w dest l fee :
    is_u32 p -> is_balance x -> chain r p dest -> names_or_native a l ->
    reanchored (mkAsset l (Fungible x)) dest = Some fee ->
    stands_for (ev_remote_transact p r a x call w)
      (xc_send dest [WithdrawAsset [fee]; BuyExecution fee Unlimited;
                     Transact SovereignAccount (mkWeight w (256 * 1024)) call])
| sf_send dest x message :
    decode_all_with_depth_limit x = Some message ->
    stands_for (ev_send_xcm dest x) (xc_send dest message)
| sf_native x d w lim :
    is_balance x -> buys w lim ->
    stands_for (ev_transfer zero_address x d w)
      (xc_transfer_multiasset (mkAsset location_here (Fungible x)) d lim)
| sf_transfer a x d w lim id :
    is_balance x -> buys w lim -> a <> zero_address -> address_to_asset_id a = Some id ->
    stands_for (ev_transfer a x d w) (xc_transfer id x d lim)
| sf_native_fee x f d w lim :
    is_balance x -> is_balance f -> buys w lim ->
    stands_for (ev_transfer_with_fee zero_address x f d w)
      (xc_transfer_multiasset_with_fee (mkAsset location_here (Fungible x))
         (mkAsset location_here (Fungible f)) d lim)
| sf_transfer_fee a x f d w lim id :
    is_balance x -> is_balance f -> buys w lim -> a <> zero_address ->
    address_to_asset_id a = Some id ->
    stands_for (ev_transfer_with_fee a x f d w) (xc_transfer_with_fee id x f d lim)
| sf_multiasset l x d w lim :
    is_balance x -> buys w lim ->
    stands_for (ev_transfer_multiasset l x d w)
      (xc_transfer_multiasset (mkAsset l (Fungible x)) d lim)
| sf_multiasset_fee l x f d w lim :
    is_balance x -> is_balance f -> buys w lim ->
    stands_for (ev_transfer_multiasset_with_fee l x f d w)
      (xc_transfer_multiasset_with_fee (mkAsset l (Fungible x)) (mkAsset l (Fungible f)) d lim)
| sf_currencies cs i d w lim out :
    Forall2 (fun c o => address_to_asset_id (currency_address c) = Some o.1 /\
                        currency_amount c = o.2 /\ is_balance o.2) cs out -> buys w lim ->
    stands_for (ev_transfer_multi_currencies cs i d w) (xc_transfer_multicurrencies out i d lim)
| sf_assets xs i d w lim out :
    Forall (fun x => is_balance (evm_amount x)) xs -> buys w lim ->
    from_sorted_and_deduplicated
      ((fun x => mkAsset (evm_location x) (Fungible (evm_amount x))) <$> xs) = Some out ->
    stands_for (ev_transfer_multi_assets xs i d w) (xc_transfer_multiassets out i d lim).

(** The assets of a transfer are already in the order of [Assets]: without
    that the fee index means another asset (see [version_1_misreads_lists]). *)
Definition in_order (R : EvmAddress -> Location -> Prop) (assets : list EvmAddress)
    (amounts : list Z) : Prop :=
  forall ls, Forall2 R assets ls -> assets_from (listed ls amounts) = listed ls amounts.

(** What a caller of version 1 owes: an amount for each address, and assets in
    order. *)
Definition well_formed (c : EvmXcmCall Location) : Prop :=
  match c with
  | ev_assets_withdraw assets amounts _ _ _ _ =>
      length assets = length amounts /\ in_order names assets amounts
  | ev_assets_reserve_transfer assets amounts _ _ _ _ =>
      length assets = length amounts /\ in_order names_or_native assets amounts
  | _ => True
  end.

(** The functions of the code against the interface. *)
Lemma resolve_names a l : resolve_asset convert_back a = Some l <-> names a l.
Proof. unfold resolve_asset, names. rewrite bind_Some. done. Qed.

Lemma resolve_names_or_native a l :
  resolve_asset_or_native convert_back a = Some l <-> names_or_native a l.
Proof.
  unfold resolve_asset_or_native, names_or_native. change NATIVE_ADDRESS with zero_address.
  case_bool_decide as Ha; rewrite ?resolve_names; naive_solver.
Qed.

Lemma chain_iff r p d : chain r p d <-> d = chain_location r p.
Proof. split; [by intros []|]. intros ->. destruct r; constructor. Qed.

Lemma buys_iff w lim : buys w lim <-> lim = weight_limit_of w.
Proof.
  unfold weight_limit_of, is_zero, get_weight. split.
  - intros [|time proof Ht]; [done|]. simpl. by rewrite (proj2 (Z.eqb_neq _ _)).
  - intros ->. destruct w as [time proof]. simpl. destruct (Z.eqb_spec time 0) as [->|]; by constructor.
Qed.

(** The call was dispatched as the caller, and paid for. *)
Definition dispatched (caller : EvmAddress) (call : XcmCall Location) (b : bool) (s s' : St) : Prop :=
  b = true /\ charge (DispatchCost call) s.1 = Some s'.1 /\
  xcm_dispatch call (into_account_id caller) s.2 = Ok s'.2.

Lemma try_dispatch_iff caller call s b s' :
  try_dispatch_xcm xcm_dispatch into_account_id caller call s = Ok (b, s') <->
  dispatched caller call b s s'.
Proof.
  unfold try_dispatch_xcm, dispatched, ok_or, map_err. destruct s' as [g' w']. simpl.
  destruct (charge _ _); [|naive_solver]. destruct (xcm_dispatch _ _ _); naive_solver.
Qed.

Lemma u256_into_ok {max x m y} : u256_into (E := E) max x m = Ok y <-> y = x /\ x <= max.
Proof. unfold u256_into. destruct (x <=? max) eqn:Hx; split; intros H; [|f_equal| |]; naive_solver lia. Qed.

Lemma u256_into_all_ok max xs m ys :
  u256_into_all (E := E) max xs m = Ok ys <-> ys = xs /\ Forall (fun x => x <= max) xs.
Proof.
  revert ys. induction xs as [|x xs IH]; intros ys; simpl; [naive_solver|].
  split.
  - intros Hu. bind_inv Hu as y Hy. bind_inv Hu as zs Hz. injection Hu as <-.
    apply u256_into_ok in Hy as [-> ?]. destruct (proj1 (IH zs) eq_refl) as [-> ?].
    by repeat constructor.
  - intros [-> Hf]. apply Forall_cons in Hf as [Hx Hf].
    rewrite (proj2 u256_into_ok (conj eq_refl Hx)), (proj2 (IH xs) (conj eq_refl Hf)). done.
Qed.

Lemma omap_length_le {A B} (f : A -> option B) l : (length (omap f l) <= length l)%nat.
Proof. induction l as [|a l IH]; csimpl; [lia|]. destruct (f a); csimpl; lia. Qed.

Lemma omap_total {A B} (f : A -> option B) l :
  length (omap f l) = length l -> Forall2 (fun a b => f a = Some b) l (omap f l).
Proof.
  induction l as [|a l IH]; csimpl; [constructor|]. pose proof (omap_length_le f l).
  destruct (f a) eqn:Ha; csimpl; intros Hl; [|lia]. constructor; [done|]. apply IH. lia.
Qed.

Lemma omap_Forall2 {A B} (f : A -> option B) l ls :
  Forall2 (fun a b => f a = Some b) l ls -> omap f l = ls.
Proof. induction 1 as [|a b l ls Ha _ IH]; csimpl; [done|]. by rewrite Ha, IH. Qed.

(** The two transfers of version 1. *)
Lemma transfer_resolved_ok (resolve : EvmAddress -> option Location) R caller assets amounts
    recipient r p f s b s' :
  (forall a l, resolve a = Some l <-> R a l) ->
  length assets = length amounts -> in_order R assets amounts ->
  transfer_resolved xcm_dispatch into_account_id caller (omap resolve assets) amounts recipient r p f s =
    Ok (b, s') <->
  exists out dest0 dest, pays_out R assets amounts out /\ assets <> [] /\ is_u32 p /\ is_u32 f /\
    chain r p dest0 /\ push_interior dest0 recipient = Some dest /\
    dispatched caller (xc_transfer_multiassets out f dest Unlimited) b s s'.
Proof.
  intros HR Hlen Hord. unfold transfer_resolved. split.
  - intros Ht. bind_inv Ht as ys Hys. apply u256_into_all_ok in Hys as [-> Hbal].
    guard_inv Ht as Hg. apply andb_true_iff in Hg as [Hg Hne]. apply Nat.eqb_eq in Hg.
    bind_inv Ht as p' Hp. apply u256_into_ok in Hp as [-> Hp].
    bind_inv Ht as f' Hf. apply u256_into_ok in Hf as [-> Hf].
    destruct (push_interior _ _) as [dest|] eqn:Hd; [|discriminate]. cbn in Ht.
    assert (Hls : Forall2 R assets (omap resolve assets)).
    { eapply Forall2_impl; [apply omap_total; lia|]. intros a l. apply HR. }
    change (zip_with fungible) with listed in Ht. rewrite (Hord _ Hls) in Ht.
    apply try_dispatch_iff in Ht. exists (listed (omap resolve assets) amounts), (chain_location r p), dest.
    split; [by exists (omap resolve assets)|]. split; [by intros ->|]. split_and!; try done.
    by apply chain_iff.
  - intros (out & dest0 & dest & (ls & Hls & Hbal & ->) & Hne & Hp & Hf & Hc & Hd & Hdis).
    apply chain_iff in Hc as ->. rewrite (proj2 (u256_into_all_ok _ _ _ _) (conj eq_refl Hbal)).
    rewrite <- (Hord ls Hls) in Hdis.
    rewrite (omap_Forall2 resolve assets ls)
      by (eapply Forall2_impl; [exact Hls|]; intros a l; apply HR). apply Forall2_length in Hls.
    rewrite (proj2 (Nat.eqb_eq (length ls) (length amounts))) by lia.
    destruct assets as [|a assets]; [done|]. destruct ls as [|l ls]; [done|]. cbn [negb andb length Nat.eqb].
    rewrite (proj2 u256_into_ok (conj eq_refl Hp)), (proj2 u256_into_ok (conj eq_refl Hf)), Hd.
    cbn. by apply try_dispatch_iff.
Qed.

Lemma resolve_currencies_ok cs out :
  resolve_currencies (E := E) cs = Ok out <->
  Forall2 (fun c o => address_to_asset_id (currency_address c) = Some o.1 /\
                      currency_amount c = o.2 /\ is_balance o.2) cs out.
Proof.
  revert out. induction cs as [|c cs IH]; intros out; simpl.
  - split; [by intros [= <-]|by inversion 1].
  - split.
    + intros Hr. bind_inv Hr as x Hx. apply u256_into_ok in Hx as [-> Hx].
      destruct (address_to_asset_id _) as [id|] eqn:Hid; [|discriminate]. cbn in Hr.
      bind_inv Hr as rest Hrest. injection Hr as <-. constructor; [done|].
      exact (proj1 (IH rest) eq_refl).
    + intros Hf. inversion Hf as [|? [id x] ? ? (Hid & Hx & Hb) Hr]; subst. simpl in *. subst.
      rewrite (proj2 u256_into_ok (conj eq_refl Hb)), Hid. cbn. by rewrite (proj2 (IH _) Hr).
Qed.

Lemma resolve_assets_ok (xs : list (EvmMultiAsset Location)) out :
  resolve_assets (E := E) xs = Ok out <->
  Forall (fun x => is_balance (evm_amount x)) xs /\
  out = (fun x => fungible (evm_location x) (evm_amount x)) <$> xs.
Proof.
  revert out. induction xs as [|x xs IH]; intros out; simpl.
  - split; [by intros [= <-]|by intros [_ ->]].
  - split.
    + intros Hr. bind_inv Hr as y Hy. apply u256_into_ok in Hy as [-> Hy].
      bind_inv Hr as rest Hrest. injection Hr as <-.
      destruct (proj1 (IH rest) eq_refl) as [Hf ->]. by repeat constructor.
    + intros [Hf ->]. apply Forall_cons in Hf as [Hx Hf].
      rewrite (proj2 u256_into_ok (conj eq_refl Hx)), (proj2 (IH _) (conj Hf eq_refl)). done.
Qed.

Lemma fee_asset_location_ok a l :
  fee_asset_location (E := E) convert_back a = Ok l <-> names_or_native a l.
Proof.
  rewrite <- resolve_names_or_native. unfold fee_asset_location, resolve_asset_or_native, resolve_asset.
  case_bool_decide; [naive_solver|]. unfold ok_or. destruct (address_to_asset_id a) as [id|]; simpl; [|done].
  destruct (convert_back id); naive_solver.
Qed.

(** Both sides of a conversion. *)
Ltac convert_all :=
  repeat match goal with
  | H : u256_into _ _ _ = Ok _ |- _ => apply u256_into_ok in H as [-> ?]
  | H : fee_asset_location _ _ = Ok _ |- _ => apply fee_asset_location_ok in H
  | H : try_dispatch_xcm _ _ _ _ _ = Ok _ |- _ => apply try_dispatch_iff in H
  end.
Ltac unconvert :=
  unfold fungible;
  repeat match goal with
  | H : is_u32 ?x |- context [u256_into u32_max ?x _] =>
      rewrite (proj2 (u256_into_ok (max := u32_max)) (conj eq_refl H))
  | H : is_balance ?x |- context [u256_into u128_max ?x _] =>
      rewrite (proj2 (u256_into_ok (max := u128_max)) (conj eq_refl H))
  | H : names_or_native ?a _ |- context [fee_asset_location _ ?a] =>
      rewrite (proj2 (fee_asset_location_ok _ _) H)
  | H : chain _ _ _ |- _ => apply chain_iff in H as ->
  | H : buys _ _ |- _ => apply buys_iff in H as ->
  | H : ?e = Some _ |- context [ok_or ?e _] => rewrite H
  end; cbn.
(** The call found is the one of the interface. *)
Ltac stand :=
  eexists; split; [|eassumption];
  econstructor; first [eassumption | by apply buys_iff | by apply chain_iff | idtac].

Lemma xcm_call_sound caller c s b s' :
  well_formed c -> xcm_call caller c s = Ok (b, s') ->
  exists call, stands_for c call /\ dispatched caller call b s s'.
Proof.
  intros Hm Hx. destruct c; simpl in Hm, Hx.
  - assert (transfer_resolved xcm_dispatch into_account_id caller
      (omap (resolve_asset convert_back) assets) amounts recipient is_relay parachain_id fee_index s
      = Ok (b, s')) as Ht by (by destruct recipient). destruct Hm as [Hlen Hord].
    apply (transfer_resolved_ok _ _ _ _ _ _ _ _ _ _ _ _ resolve_names Hlen Hord) in Ht
      as (out & dest0 & dest & ? & ? & ? & ? & ? & ? & ?).
    eexists. split; [by eapply sf_withdraw|done].
  - assert (transfer_resolved xcm_dispatch into_account_id caller
      (omap (resolve_asset_or_native convert_back) assets) amounts recipient is_relay parachain_id fee_index s
      = Ok (b, s')) as Ht by (by destruct recipient). destruct Hm as [Hlen Hord].
    apply (transfer_resolved_ok _ _ _ _ _ _ _ _ _ _ _ _ resolve_names_or_native Hlen Hord) in Ht
      as (out & dest0 & dest & ? & ? & ? & ? & ? & ? & ?).
    eexists. split; [by eapply sf_reserve|done].
  - unfold remote_transact_v1 in Hx. result_inv. convert_all. stand.
  - unfold send_xcm in Hx. result_inv. convert_all. stand.
  - unfold transfer in Hx. bind_inv Hx as x Hx'.
    case_bool_decide; [subst|result_inv]; convert_all; [change NATIVE_ADDRESS with zero_address|]; stand.
  - unfold transfer_with_fee in Hx. bind_inv Hx as x Hx'. bind_inv Hx as f Hf.
    case_bool_decide; [subst|result_inv]; convert_all; [change NATIVE_ADDRESS with zero_address|]; stand.
  - unfold transfer_multiasset in Hx. bind_inv Hx as x Hx'. convert_all. stand.
  - unfold transfer_multiasset_with_fee in Hx. bind_inv Hx as x Hx'. bind_inv Hx as f Hf. convert_all. stand.
  - unfold transfer_multi_currencies in Hx. bind_inv Hx as out Hout. apply resolve_currencies_ok in Hout.
    convert_all. stand.
  - unfold transfer_multi_assets in Hx. bind_inv Hx as out Hout. apply resolve_assets_ok in Hout as [? ->].
    result_inv. convert_all. stand.
Qed.

Lemma xcm_call_complete caller c call s b s' :
  well_formed c -> stands_for c call -> dispatched caller call b s s' ->
  xcm_call caller c s = Ok (b, s').
Proof.
  intros Hm Hs Hd. destruct Hs; simpl in Hm |- *.
  - assert (Ht : transfer_resolved xcm_dispatch into_account_id caller
      (omap (resolve_asset convert_back) assets) amounts recipient r p f s = Ok (b, s'))
      by (eapply transfer_resolved_ok; [apply resolve_names|apply Hm|apply Hm|]; eauto 12).
    by destruct recipient.
  - assert (Ht : transfer_resolved xcm_dispatch into_account_id caller
      (omap (resolve_asset_or_native convert_back) assets) amounts recipient r p f s = Ok (b, s'))
      by (eapply transfer_resolved_ok; [apply resolve_names_or_native|apply Hm|apply Hm|]; eauto 12).
    by destruct recipient.
  - unfold remote_transact_v1. unconvert. by apply try_dispatch_iff.
  - unfold send_xcm. unconvert. by apply try_dispatch_iff.
  - unfold transfer. unconvert. by apply try_dispatch_iff.
  - unfold transfer. rewrite bool_decide_eq_false_2 by done. unconvert. by apply try_dispatch_iff.
  - unfold transfer_with_fee. unconvert. by apply try_dispatch_iff.
  - unfold transfer_with_fee. rewrite bool_decide_eq_false_2 by done. unconvert. by apply try_dispatch_iff.
  - unfold transfer_multiasset. unconvert. by apply try_dispatch_iff.
  - unfold transfer_multiasset_with_fee. unconvert. by apply try_dispatch_iff.
  - unfold transfer_multi_currencies. unconvert.
    match goal with H : Forall2 _ _ _ |- _ => rewrite (proj2 (resolve_currencies_ok _ _) H) end.
    by apply try_dispatch_iff.
  - unfold transfer_multi_assets.
    match goal with H : Forall _ _ |- _ => rewrite (proj2 (resolve_assets_ok _ _) (conj H eq_refl)) end.
    unconvert. by apply try_dispatch_iff.
Qed.


(** The message that [remote_transact] sends passes the barrier for paid
    execution of a chain that admits its sender, whatever weight the chain
    gives it, and is limited to that weight. *)
Theorem remote_transact_admitted `{!MatchXcm (Instruction Location), !MatchXcmLaws (Instruction Location)}
    (caller : EvmAddress) (p : Z) (r : bool) (a : EvmAddress) (x : Z) (call : bytes) (w : Z)
    (s s' : St) (b : bool) (contains : Location -> bool) (origin : Location) (max_weight : Weight) :
  xcm_call caller (ev_remote_transact p r a x call w) s = Ok (b, s') -> contains origin = true ->
  exists message message',
    dispatched caller (xc_send (chain_location r p) message) b s s' /\
    should_execute contains origin message max_weight = Ok message' /\
    exists fee, message' =
      [WithdrawAsset [fee]; BuyExecution fee (Limited max_weight);
       Transact SovereignAccount (mkWeight w DEFAULT_PROOF_SIZE) call].
Proof.
  intros Hx Hc. destruct (xcm_call_sound caller (ev_remote_transact p r a x call w) s b s' I Hx)
    as (c & Hs & Hd).
  inversion Hs as [| |? ? ? ? ? ? dest l fee ? ? Hch ? ?| | | | | | | | |]; subst. apply chain_iff in Hch as ->.
  eexists _, [WithdrawAsset [fee]; BuyExecution fee (Limited max_weight);
              Transact SovereignAccount (mkWeight w DEFAULT_PROOF_SIZE) call].
  split; [done|]. split; [|by exists fee].
  unfold should_execute, remote_transact_message. rewrite Hc. cbn [length Nat.min take drop].
  pose proof (match_paying [] (WithdrawAsset [fee]) 0 fee Unlimited
    [Transact SovereignAccount (mkWeight w DEFAULT_PROOF_SIZE) call] max_weight eq_refl I) as Hm.
  cbn [replicate app] in Hm.
  destruct (match_next_inst brings_assets _) as [m1|]; [|discriminate].
  destruct (skip_inst_while is_clear_origin m1) as [m2|]; [|discriminate]. by rewrite Hm.
Qed.
End theorems.

(** ** Examples

    Locations are numbers, assets 1 and 2 are at 51 and 52, and the calls are
    logged with the account that made them. *)

Section example.
Existing Instance ToyGasMeter.

#[local] Instance ToyXcmLocation : XcmLocation Z := {|
  parents _ := 1;
  first_interior_parachain _ := None;
  sibling_parachain id := 1000 + id;
  location_parent := 999;
  location_here := 0;
|}.

Fixpoint insert_asset (a : Asset Z) (l : list (Asset Z)) : list (Asset Z) :=
  match l with
  | [] => [a]
  | b :: l =>
      if asset_location a <=? asset_location b then a :: b :: l else b :: insert_asset a l
  end.

#[local] Instance ToyXcmTypes : XcmTypes Z := {|
  push_interior l _ := Some (l + 100000);
  reanchored a _ := Some a;
  assets_from := foldr insert_asset [];
  from_sorted_and_deduplicated l := Some l;
  decode_all_with_depth_limit _ := Some [ClearOrigin];
|}.

Abbreviation XcmLog := (list (Z * XcmCall Z)).
Definition toy_xcm_dispatch (c : XcmCall Z) (a : Z) (w : XcmLog) : Result XcmLog unit :=
  Ok (w ++ [(a, c)]).
Definition toy_convert_back (id : Z) : option Z :=
  if (id =? 1) || (id =? 2) then Some (50 + id) else None.
Definition toy_xcm_call (c : EvmXcmCall Z) : Result (bool * (Z * XcmLog)) (EvmError unit) :=
  xcm_call toy_xcm_dispatch (foldr Z.add 0) toy_convert_back (replicate 20 1) c (9, []).

(** Version 1 skips an address that names no asset instead of refusing it:
    with one amount too few the amounts shift to the wrong assets.  It also
    sorts the assets without moving the fee index with them: the fee that was
    to be paid in the first asset is paid in another. *)
Theorem version_1_misreads_lists :
  let a id := asset_id_to_address id in
  let r := AccountId32 (replicate 32 7) in
  toy_xcm_call (ev_assets_withdraw [a 1; a 5; a 2] [10; 20] r true 0 0) =
    Ok (true, (8, [(20, xc_transfer_multiassets [fungible 51 10; fungible 52 20] 0 100999 Unlimited)])) /\
  toy_xcm_call (ev_assets_withdraw [a 2; a 1] [10; 20] r true 0 0) =
    Ok (true, (8, [(20, xc_transfer_multiassets [fungible 51 20; fungible 52 10] 0 100999 Unlimited)])).
Proof. by vm_compute. Qed.

(** The limit on the proof size alone is dropped. *)
Example proof_size_limit_dropped : weight_limit_of (mkWeightV2 0 5) = Unlimited.
Proof. reflexivity. Qed.


Lemma remote_transact_admitted_witness :
  let s' := (8, [(20, xc_send 3000 (remote_transact_message (fungible 0 10) [1] 5))]) in
  toy_xcm_call (ev_remote_transact 2000 false NATIVE_ADDRESS 10 [1] 5) = Ok (true, s') /\
  exists message message',
    dispatched toy_xcm_dispatch (foldr Z.add 0) (replicate 20 1) (xc_send 3000 message) true (9, []) s' /\
    should_execute (MatchXcm0 := ToyMatch) (fun _ => true) 7 message (mkWeight 4 4) = Ok message'.
Proof.
  intros s'. split; [by vm_compute|].
  destruct (remote_transact_admitted (E := unit) (MatchXcm0 := ToyMatch) (MatchXcmLaws0 := ToyMatchLaws)
    toy_xcm_dispatch (foldr Z.add 0) toy_convert_back (replicate 20 1) 2000 false NATIVE_ADDRESS 10 [1] 5
    (9, []) s' true (fun _ => true) 7 (mkWeight 4 4)) as (message & message' & Hd & Hm & _);
    [by vm_compute|done|].
  by exists message, message'.
Defined.
End example.
