(* ===== verification/ChainExtensions.v ===== *)
(** * Chain extensions for ink! contracts

    [chain-extensions/pallet-assets/src/lib.rs] and
    [chain-extensions/unified-accounts/src/lib.rs], with their types: what a
    Wasm contract can ask of the assets pallet and of the account mappings. *)

From stdpp Require Import strings.
From S2P Require Import Prelude Frame UnifiedAccounts PrecompileUtils AssetsErc20.

(** ** The environment of a call

    [Environment] of [pallet_contracts]: weight is charged, the input is
    decoded and output is written; each can fail. *)

Class Decode (A : Type) := { decode : bytes -> option A }.

Class Environment (Wt M : Type) := {
  env_charge : Wt -> M -> option M;
  env_input : M -> bytes;
  env_write : bytes -> M -> option M;
}.

Inductive ExtensionError := UnsupportedFuncId | ExtensionOutOfGas | DecodingFailed | WriteFailed.

Section environment.
Context {Wt M : Type} `{!Environment Wt M}.

Definition charge_weight (w : Wt) (m : M) : Result M ExtensionError :=
  ok_or (env_charge w m) ExtensionOutOfGas.
Definition read_as (A : Type) `{!Decode A} (m : M) : Result A ExtensionError :=
  ok_or (decode (env_input m)) DecodingFailed.
Definition write (b : bytes) (m : M) : Result M ExtensionError := ok_or (env_write b m) WriteFailed.
End environment.

(** ** The assets extension *)

Inductive Command :=
| Transfer | Mint | Burn | ApproveTransfer | TransferApproved | BalanceOf | TotalSupply | Allowance
| MetadataName | MetadataSymbol | MetadataDecimals | MinimumBalance.

Definition command_id (c : Command) : Z :=
  match c with
  | Transfer => 0 | Mint => 1 | Burn => 2 | ApproveTransfer => 4 | TransferApproved => 5
  | BalanceOf => 6 | TotalSupply => 7 | Allowance => 8 | MetadataName => 9 | MetadataSymbol => 10
  | MetadataDecimals => 11 | MinimumBalance => 12
  end.

Definition commands : list Command :=
  [Transfer; Mint; Burn; ApproveTransfer; TransferApproved; BalanceOf; TotalSupply; Allowance;
   MetadataName; MetadataSymbol; MetadataDecimals; MinimumBalance].

(** [TryFromPrimitive]. *)
Definition command_try_from (func_id : Z) : option Command :=
  snd <$> list_find (fun c => command_id c = func_id) commands.

Inductive ExtOutcome :=
| Success | BalanceLow | NoAccount | NoPermission | UnknownAsset | Frozen | InUse | BadWitness
| MinBalanceZero | UnavailableConsumer | BadMetadata | Unapproved | WouldDie | AlreadyExists
| NoDeposit | WouldBurn | LiveAsset | AssetNotLive | IncorrectStatus | NotFrozen | CallbackFailed
| RuntimeError.

Definition outcome_id (o : ExtOutcome) : Z :=
  match o with
  | Success => 0 | BalanceLow => 1 | NoAccount => 2 | NoPermission => 3 | UnknownAsset => 4
  | Frozen => 5 | InUse => 6 | BadWitness => 7 | MinBalanceZero => 8 | UnavailableConsumer => 9
  | BadMetadata => 10 | Unapproved => 11 | WouldDie => 12 | AlreadyExists => 13 | NoDeposit => 14
  | WouldBurn => 15 | LiveAsset => 16 | AssetNotLive => 17 | IncorrectStatus => 18
  | NotFrozen => 19 | CallbackFailed => 20 | RuntimeError => 99
  end.

(** [DispatchError], with the message of a module error. *)
Inductive PalletError := ModuleError (message : option string) | OtherError.

(** The error names that have a code of their own. *)
Definition outcome_names : list (string * ExtOutcome) :=
  [("BalanceLow", BalanceLow); ("NoAccount", NoAccount); ("NoPermission", NoPermission);
   ("Unknown", UnknownAsset); ("Frozen", Frozen); ("InUse", InUse);
   ("BadWitness", BadWitness); ("MinBalanceZero", MinBalanceZero); ("UnavailableConsumer", UnavailableConsumer);
   ("BadMetadata", BadMetadata); ("Unapproved", Unapproved); ("WouldDie", WouldDie);
   ("AlreadyExists", AlreadyExists); ("NoDeposit", NoDeposit); ("WouldBurn", WouldBurn);
   ("LiveAsset", LiveAsset); ("AssetNotLive", AssetNotLive); ("IncorrectStatus", IncorrectStatus);
   ("NotFrozen", NotFrozen); ("CallbackFailed", CallbackFailed)].

Definition outcome_from (input : PalletError) : ExtOutcome :=
  let error_text :=
    match input with ModuleError message => message | OtherError => Some "No module error Info" end in
  match error_text with
  | Some text =>
      match list_find (fun x => x.1 = text) outcome_names with
      | Some (_, (_, o)) => o
      | None => RuntimeError
      end
  | None => RuntimeError
  end.

(** A weight that the extension charges: that of a call or one read. *)
Inductive ExtWeight :=
| weight_transfer | weight_transfer_approved | weight_mint | weight_burn | weight_approve_transfer
| one_read.

Section assets.
Context {AccountId W M : Type} `{!PalletAssets AccountId W, !Environment ExtWeight M}.
Context `{!Decode Z, !Decode (Z * AccountId), !Decode (Z * AccountId * Z)}.
Context `{!Decode (Z * AccountId * AccountId), !Decode (Z * AccountId * AccountId * Z)}.
Context `{!Encode Z, !Encode bytes}.
(** A function of the assets pallet called directly, not as a dispatch: what
    it did before it failed stays. *)
Context (assets_call : AccountId -> Z -> AssetsCall AccountId -> W -> W * Result unit PalletError).

Abbreviation ExtResult := (Result (Z * M * W) ExtensionError).

Definition handle_result (r : W * Result unit PalletError) (m : M) : ExtResult :=
  match r with
  | (w, Err e) => Ok (outcome_id (outcome_from e), m, w)
  | (w, Ok _) => Ok (outcome_id Success, m, w)
  end.

(** A read: the value is written to the output. *)
Definition answer (b : bytes) (m : M) (w : W) : ExtResult :=
  let! m := write b m in Ok (outcome_id Success, m, w).

(** [AssetsExtension::call]; [address] is the contract that calls. *)
Definition assets_extension_call (func_id : Z) (address : AccountId) (m : M) (w : W) : ExtResult :=
  let! command := ok_or (command_try_from func_id) UnsupportedFuncId in
  match command with
  | Transfer =>
      let! m := charge_weight weight_transfer m in
      let! (id, target, amount) := read_as (Z * AccountId * Z) m in
      handle_result (assets_call address id (assets_transfer target amount) w) m
  | TransferApproved =>
      let! m := charge_weight weight_transfer_approved m in
      let! (id, owner, destination, amount) := read_as (Z * AccountId * AccountId * Z) m in
      handle_result (assets_call address id (assets_transfer_approved owner destination amount) w) m
  | Mint =>
      let! m := charge_weight weight_mint m in
      let! (id, beneficiary, amount) := read_as (Z * AccountId * Z) m in
      handle_result (assets_call address id (assets_mint beneficiary amount) w) m
  | Burn =>
      let! m := charge_weight weight_burn m in
      let! (id, who, amount) := read_as (Z * AccountId * Z) m in
      handle_result (assets_call address id (assets_burn who amount) w) m
  | ApproveTransfer =>
      let! m := charge_weight weight_approve_transfer m in
      let! (id, delegate, amount) := read_as (Z * AccountId * Z) m in
      handle_result (assets_call address id (assets_approve_transfer delegate amount) w) m
  | BalanceOf =>
      let! m := charge_weight one_read m in
      let! (id, who) := read_as (Z * AccountId) m in
      answer (encode (assets_balance w id who)) m w
  | TotalSupply =>
      let! m := charge_weight one_read m in
      let! id := read_as Z m in
      answer (encode (assets_total_issuance w id)) m w
  | Allowance =>
      let! m := charge_weight one_read m in
      let! (id, owner, delegate) := read_as (Z * AccountId * AccountId) m in
      answer (encode (assets_allowance w id owner delegate)) m w
  | MetadataName =>
      let! m := charge_weight one_read m in
      let! id := read_as Z m in
      answer (encode (assets_name w id)) m w
  | MetadataSymbol =>
      let! m := charge_weight one_read m in
      let! id := read_as Z m in
      answer (encode (assets_symbol w id)) m w
  | MetadataDecimals =>
      let! m := charge_weight one_read m in
      let! id := read_as Z m in
      answer (encode (assets_decimals w id)) m w
  | MinimumBalance =>
      let! m := charge_weight one_read m in
      let! id := read_as Z m in
      answer (encode (assets_minimum_balance w id)) m w
  end.
End assets.

(** ** The unified accounts extension *)

Inductive UnifiedCommand :=
| GetEvmAddress | GetEvmAddressOrDefault | GetNativeAddress | GetNativeAddressOrDefault.

Definition unified_command_id (c : UnifiedCommand) : Z :=
  match c with
  | GetEvmAddress => 0 | GetEvmAddressOrDefault => 1 | GetNativeAddress => 2
  | GetNativeAddressOrDefault => 3
  end.

Definition unified_commands : list UnifiedCommand :=
  [GetEvmAddress; GetEvmAddressOrDefault; GetNativeAddress; GetNativeAddressOrDefault].

Definition unified_command_try_from (func_id : Z) : option UnifiedCommand :=
  snd <$> list_find (fun c => unified_command_id c = func_id) unified_commands.

Inductive UnifiedWeight :=
| weight_to_h160 | weight_to_h160_or_default | weight_to_account_id | weight_to_account_id_or_default.

Section unified.
Context {AccountId S M : Type} `{!UnifiedAddressMapper AccountId S, !Environment UnifiedWeight M}.
Context `{!Decode AccountId, !Decode EvmAddress}.
Context `{!Encode (option EvmAddress), !Encode (UnifiedAddress EvmAddress)}.
Context `{!Encode (option AccountId), !Encode (UnifiedAddress AccountId)}.

Definition unified_extension_call (func_id : Z) (m : M) (s : S) : Result (Z * M) ExtensionError :=
  let! command := ok_or (unified_command_try_from func_id) UnsupportedFuncId in
  let! m :=
    match command with
    | GetEvmAddress =>
        let! account_id := read_as AccountId m in
        let! m := charge_weight weight_to_h160 m in
        write (encode (to_h160 s account_id)) m
    | GetEvmAddressOrDefault =>
        let! account_id := read_as AccountId m in
        let! m := charge_weight weight_to_h160_or_default m in
        write (encode (to_h160_or_default s account_id)) m
    | GetNativeAddress =>
        let! evm_address := read_as EvmAddress m in
        let! m := charge_weight weight_to_account_id m in
        write (encode (to_account_id s evm_address)) m
    | GetNativeAddressOrDefault =>
        let! evm_address := read_as EvmAddress m in
        let! m := charge_weight weight_to_account_id_or_default m in
        write (encode (to_account_id_or_default s evm_address)) m
    end in
  Ok (0, m).
End unified.

(** ** Codes *)

(** A failed call is not reported as a success. *)
Lemma outcome_from_error e : outcome_from e <> Success.
Proof.
  unfold outcome_from. destruct (match e with ModuleError m => m | OtherError => _ end) as [text|]; [|done].
  destruct (list_find _ _) as [[i [x o]]|] eqn:Hl; [|done].
  apply list_find_Some in Hl as (Hi & _). apply list_elem_of_lookup_2 in Hi.
  assert (Forall (fun y => y.2 <> Success) outcome_names) as Hn by (by repeat constructor).
  rewrite Forall_forall in Hn. exact (Hn _ Hi).
Qed.

(** ** Two ways to the same assets *)

Section agreement.
Context {AccountId W M G : Type} `{EqDecision AccountId}.
Context `{!PalletAssets AccountId W, !Environment ExtWeight M, !GasMeter (AssetsCall AccountId) G}.
Context `{!Decode Z, !Decode (Z * AccountId), !Decode (Z * AccountId * Z)}.
Context `{!Decode (Z * AccountId * AccountId), !Decode (Z * AccountId * AccountId * Z)}.
Context `{!Encode Z, !Encode bytes}.
Context (assets_call : AccountId -> Z -> AssetsCall AccountId -> W -> W * Result unit PalletError).
Context (to_account : EvmAddress -> AccountId) (log_selector : string -> bytes) (ExtraMaxLen : Z).

(** Charging leaves the input alone, and a function of the pallet that
    succeeds does what its dispatch does. *)
Context (charge_input : forall wt m m', env_charge wt m = Some m' -> env_input m' = env_input m).
Context (call_dispatch : forall a i k w w',
  assets_call a i k w = (w', Ok tt) -> assets_dispatch a i k w = Some w').

Lemma handle_success (r : W * Result unit PalletError) (m m' : M) (w' : W) :
  handle_result r m = Ok (0, m', w') -> r = (w', Ok tt) /\ m' = m.
Proof.
  destruct r as [w1 [[]|e]]; simpl; [by intros [= <- <-]|]. intros Hr. injection Hr as Hid.
  exfalso. apply (outcome_from_error e). by destruct (outcome_from e).
Qed.

(** A transfer, a mint or a burn of the precompile is the dispatch of it. *)
Lemma precompile_dispatch (caller address target : EvmAddress) (id x : Z) (b : bool)
    (s s' : PrecompileState G W) :
  (AssetsErc20.transfer to_account log_selector caller address id target x s = Ok (b, s') ->
   assets_dispatch (to_account caller) id (assets_transfer (to_account target) x) (assets s) =
     Some (assets s')) /\
  (AssetsErc20.mint to_account log_selector caller address id target x s = Ok (b, s') ->
   assets_dispatch (to_account caller) id (assets_mint (to_account target) x) (assets s) =
     Some (assets s')) /\
  (AssetsErc20.burn to_account log_selector caller address id target x s = Ok (b, s') ->
   assets_dispatch (to_account caller) id (assets_burn (to_account target) x) (assets s) =
     Some (assets s')).
Proof.
  unfold AssetsErc20.transfer, mint, burn, AssetsErc20.try_dispatch, record, u256_to_amount.
  repeat split; intros Hp; by result_inv.
Qed.

(** A call of the extension that succeeds is a call of the pallet. *)
Lemma extension_call_success (c : Command) (address : AccountId) (k : AssetsCall AccountId)
    (id : Z) (m m' : M) (w w' : W) :
  match c, k with
  | Transfer, assets_transfer t x | Mint, assets_mint t x | Burn, assets_burn t x
  | ApproveTransfer, assets_approve_transfer t x => decode (env_input m) = Some (id, t, x)
  | TransferApproved, assets_transfer_approved o t x => decode (env_input m) = Some (id, o, t, x)
  | _, _ => False
  end ->
  assets_extension_call assets_call (command_id c) address m w = Ok (0, m', w') ->
  assets_dispatch address id k w = Some w'.
Proof.
  intros Hk He. unfold assets_extension_call, charge_weight, read_as in He.
  destruct c, k; try contradiction; cbn [command_id] in He;
    match type of He with context [command_try_from ?n] =>
      destruct (command_try_from n) as [c|] eqn:Hc; [|discriminate He] end;
    vm_compute in Hc; injection Hc as <-; cbn in He;
    (destruct (env_charge _ m) as [m1|] eqn:Hm; [|discriminate He]); cbn in He;
    rewrite (charge_input _ _ _ Hm), Hk in He; cbn in He;
    apply handle_success in He as [He _]; by apply call_dispatch.
Qed.

(** A read of the extension that succeeds writes the value it read. *)
Lemma answer_success (v : bytes) (m m' : M) (w w' : W) :
  answer v m w = Ok (0, m', w') -> env_write v m = Some m' /\ w' = w.
Proof. unfold answer, write. intros Ha. by result_inv. Qed.

(** A Wasm contract and an Ethereum account that ask for the same thing
    get the same: where the extension reports success and the precompile
    returns, a transfer, a mint or a burn leaves the assets pallet in the same
    state, and the number that either reads as a balance is the same and
    changes nothing. *)
Theorem extension_agrees_with_precompile (caller address : EvmAddress) (id : Z) (target : EvmAddress)
    (x : Z) (m m' : M) (w' : W) (s s' : PrecompileState G W) (b : bool) :
  let ext c := assets_extension_call assets_call (command_id c) (to_account caller) m (assets s) in
  (decode (env_input m) = Some (id, to_account target, x) ->
   (ext Transfer = Ok (0, m', w') ->
    AssetsErc20.transfer to_account log_selector caller address id target x s = Ok (b, s') ->
    assets s' = w') /\
   (ext Mint = Ok (0, m', w') ->
    AssetsErc20.mint to_account log_selector caller address id target x s = Ok (b, s') ->
    assets s' = w') /\
   (ext Burn = Ok (0, m', w') ->
    AssetsErc20.burn to_account log_selector caller address id target x s = Ok (b, s') ->
    assets s' = w')) /\
  (decode (env_input m) = Some (id, to_account target) ->
   forall y m1, env_charge one_read m = Some m1 -> ext BalanceOf = Ok (0, m', w') ->
   AssetsErc20.balance_of to_account ExtraMaxLen id target s = Ok (y, s') ->
   env_write (encode y) m1 = Some m' /\ w' = assets s /\ assets s' = assets s).
Proof.
  intros ext. destruct (precompile_dispatch caller address target id x b s s') as (Ht & Hm & Hb).
  split.
  - intros Hin.
    assert (forall c k,
      match c, k with
      | Transfer, assets_transfer t y | Mint, assets_mint t y | Burn, assets_burn t y
      | ApproveTransfer, assets_approve_transfer t y => (id, to_account target, x) = (id, t, y)
      | _, _ => False
      end ->
      ext c = Ok (0, m', w') -> assets_dispatch (to_account caller) id k (assets s) = Some w') as He.
    { intros c k Hk. apply (extension_call_success c). rewrite Hin.
      destruct c, k; try done; by rewrite Hk. }
    split; [|split]; intros Hx Hp.
    + apply Ht in Hp. apply (He Transfer (assets_transfer (to_account target) x)) in Hx; [congruence|done].
    + apply Hm in Hp. apply (He Mint (assets_mint (to_account target) x)) in Hx; [congruence|done].
    + apply Hb in Hp. apply (He Burn (assets_burn (to_account target) x)) in Hx; [congruence|done].
  - intros Hin y m1 Hc Hx Hp. unfold ext, assets_extension_call, charge_weight, read_as in Hx.
    cbn in Hx. rewrite Hc in Hx. cbn in Hx. rewrite (charge_input _ _ _ Hc), Hin in Hx. cbn in Hx.
    apply answer_success in Hx as [Hx ->]. unfold AssetsErc20.balance_of, record in Hp.
    by result_inv.
Qed.
End agreement.

(** A token held by two accounts; an environment with an input and an
    output. *)
#[local] Existing Instances ToyGasMeter ToyPalletAssets.
#[local] Instance ToyDecode1 : Decode Z := {| decode b := b !! 0%nat |}.
#[local] Instance ToyDecode2 : Decode (Z * Z) :=
  {| decode b := match b with x :: y :: _ => Some (x, y) | _ => None end |}.
#[local] Instance ToyDecode3 : Decode (Z * Z * Z) :=
  {| decode b := match b with x :: y :: z :: _ => Some (x, y, z) | _ => None end |}.
#[local] Instance ToyDecode4 : Decode (Z * Z * Z * Z) :=
  {| decode b := match b with x :: y :: z :: u :: _ => Some (x, y, z, u) | _ => None end |}.
#[local] Instance ToyEncodeZ : Encode Z := {| encode x := [x] |}.
#[local] Instance ToyEncodeBytes : Encode bytes := {| encode x := x |}.
#[local] Instance ToyEnvironment : Environment ExtWeight (bytes * bytes) := {|
  env_charge _ m := Some m;
  env_input m := m.1;
  env_write b m := Some (m.1, m.2 ++ b);
|}.

Definition toy_assets_call (a id : Z) (k : AssetsCall Z) (w : ToyAssets)
    : ToyAssets * Result unit PalletError :=
  match assets_dispatch a id k w with
  | Some w => (w, Ok tt)
  | None => (w, Err (ModuleError (Some "BalanceLow")))
  end.

(** Account 1 moves 30 to account 2. *)
Lemma extension_agrees_with_precompile_witness :
  exists m' w' s',
    assets_extension_call toy_assets_call (command_id Transfer) 1 ([5; 2; 30], []) (assets toy_token) =
      Ok (0, m', w') /\
    AssetsErc20.transfer toy_account toy_selector [1] [] 5 [2] 30 toy_token = Ok (true, s') /\
    assets s' = w' /\ assets_balance w' 5 2 = 70.
Proof.
  destruct (assets_extension_call toy_assets_call (command_id Transfer) 1 ([5; 2; 30], [])
    (assets toy_token)) as [[[n m'] w']|e] eqn:He; [|by vm_compute in He].
  destruct (AssetsErc20.transfer toy_account toy_selector [1] [] 5 [2] 30 toy_token)
    as [[b s']|e] eqn:Hp; [|by vm_compute in Hp].
  assert (n = 0 /\ b = true /\ assets_balance w' 5 2 = 70) as (-> & -> & Hb).
  { vm_compute in He, Hp. injection He as <- <- <-. by injection Hp as <- <-. }
  exists m', w', s'. split; [done|]. split; [done|]. split; [|done].
  refine (proj1 (proj1 (extension_agrees_with_precompile toy_assets_call toy_account toy_selector 0 _ _
    [1] [] 5 [2] 30 ([5; 2; 30], []) m' w' toy_token s' true) eq_refl) He Hp).
  - by intros wt m m1 [= <-].
  - unfold toy_assets_call. intros a i k w w1. by destruct (assets_dispatch _ _ _ _); intros [= <-].
Defined.
