(* ===== verification/RuntimeFees.v ===== *)
(** * Fees and block rewards

    How the runtimes hand on what was withdrawn or issued: [DealWithFees],
    [CollatorRewardPot] and [InflationPayoutPerBlock] of
    [runtime/astar/src/lib.rs] (the same in Shibuya and Shiden; the local
    runtime has no collators), and [EVMFungibleAdapterWrapper] of
    [primitives/src/evm.rs]. *)

From stdpp Require Import gmap.
From S2P Require Import Prelude Frame Primitives PalletState Inflation.

(** ** Credits

    [Credit] of [fungible::Balanced], by its amount: an amount that is part of
    the issuance and of no balance.  A credit is issued, dropped (which burns
    it), or resolved into an account; [None] gives the credit back. *)
Class Credits (AccountId W : Type) := {
  credit_issue : W -> Z -> W * Z;
  credit_drop : W -> Z -> W;
  credit_resolve : W -> AccountId -> Z -> option W;
  credit_ration : Z -> Z -> Z -> Z * Z;
  credit_merge : Z -> Z -> Z;
}.

Class CreditsLaws (AccountId W : Type) `{!Currency AccountId W, !Credits AccountId W} : Prop := {
  issue_issuance w x w' c :
    credit_issue w x = (w', c) -> 0 <= x ->
    in_range x c /\ total_issuance w' = total_issuance w + c /\
    (forall a, total_balance w' a = total_balance w a);
  drop_issuance w c : total_issuance (credit_drop w c) = total_issuance w - c;
  drop_balance w c a : total_balance (credit_drop w c) a = total_balance w a;
  resolve_issuance w a c w' : credit_resolve w a c = Some w' -> total_issuance w' = total_issuance w;
  resolve_balance w a c w' :
    credit_resolve w a c = Some w' -> total_balance w' a = total_balance w a + c;
  resolve_other w a c w' b :
    credit_resolve w a c = Some w' -> b <> a -> total_balance w' b = total_balance w b;
  ration_sum c p q : (credit_ration c p q).1 + (credit_ration c p q).2 = c;
  ration_part c p q :
    0 <= c -> 0 <= p -> 0 < p + q -> c * p <= u128_max ->
    (credit_ration c p q).1 = c * p / (p + q);
  merge_sum c d : c + d <= u128_max -> credit_merge c d = c + d;
}.

Section handlers.
Context {AccountId W : Type} `{!Currency AccountId W, !Credits AccountId W}.
(** The accounts of [PotId] and of [TreasuryPalletId]. *)
Context (staking_pot treasury_account : AccountId).

(** [CollatorRewardPot]: a credit that cannot be resolved is dropped. *)
Definition on_nonzero_unbalanced (amount : Z) (w : W) : W :=
  match credit_resolve w staking_pot amount with
  | Some w => w
  | None => credit_drop w amount
  end.

(** [OnUnbalanced::on_unbalanced] leaves out a zero amount. *)
Definition reward_pot (amount : Z) (w : W) : W :=
  if amount =? 0 then credit_drop w amount else on_nonzero_unbalanced amount w.

(** [DealWithFees]; what is left of the iterator is dropped with it. *)
Definition deal_with_fees (fees_then_tips : list Z) (w : W) : W :=
  match fees_then_tips with
  | [] => w
  | fees :: fees_then_tips =>
      let '(to_burn, collator) := credit_ration fees 80 20 in
      let collator :=
        match fees_then_tips with tips :: _ => credit_merge collator tips | [] => collator end in
      let w := credit_drop w to_burn in
      foldl credit_drop (reward_pot collator w) (tail fees_then_tips)
  end.

(** [EVMFungibleAdapterWrapper::pay_priority_fee], with [CollatorRewardPot] as
    its handler of tips. *)
Definition pay_priority_fee (tip : option Z) (w : W) : W :=
  match tip with Some tip => reward_pot tip w | None => w end.

(** [InflationPayoutPerBlock]. *)
Definition payout_treasury (reward : Z) (w : W) : W :=
  match credit_resolve w treasury_account reward with
  | Some w => w
  | None => credit_drop w reward
  end.
Definition payout_collators (reward : Z) (w : W) : W := reward_pot reward w.

(** The local runtime's: the reward of the collators is dropped. *)
Definition payout_collators_local (reward : Z) (w : W) : W := credit_drop w reward.

(** What the inflation pallet is given. *)
Definition runtime_minting (deposit : W -> AccountId -> Z -> option W) : Minting AccountId W := {|
  issue := credit_issue;
  Inflation.deposit := deposit;
  pay_collators w x := payout_collators x w;
  pay_treasury w x := payout_treasury x w;
|}.

(** ** Credits are settled

    Credits of [c] are settled: a part was received by the accounts of [to] and
    the rest burned, and no other account changed. *)
Record settled (to : AccountId) (c received : Z) (w w' : W) : Prop := {
  settled_balance : total_balance w' to = total_balance w to + received;
  settled_other : forall a, a <> to -> total_balance w' a = total_balance w a;
  settled_issuance : total_issuance w' = total_issuance w - (c - received);
}.

Context `{!CreditsLaws AccountId W}.

Lemma settled_drop to c w : settled to c 0 w (credit_drop w c).
Proof. split; intros; rewrite ?drop_balance, ?drop_issuance; lia. Qed.

Lemma settled_trans to c1 c2 r1 r2 w1 w2 w3 :
  settled to c1 r1 w1 w2 -> settled to c2 r2 w2 w3 -> settled to (c1 + c2) (r1 + r2) w1 w3.
Proof.
  intros [Hb1 Ho1 Hi1] [Hb2 Ho2 Hi2]. split; [lia| |lia].
  intros a Ha. by rewrite Ho2, Ho1.
Qed.

(** What the pot takes of a credit: all of it, or nothing where the balances
    refuse it (an overflow, or less than an account may hold). *)
Definition taken (w : W) (c : Z) : Z :=
  match credit_resolve w staking_pot c with Some _ => c | None => 0 end.

(** The pot receives what it takes of a credit, and the rest is burned. *)
Lemma reward_pot_settled c w : settled staking_pot c (taken w c) w (reward_pot c w).
Proof.
  unfold reward_pot, on_nonzero_unbalanced, taken. destruct (Z.eqb_spec c 0) as [->|Hc].
  - replace (match credit_resolve w staking_pot 0 with Some _ => 0 | None => 0 end) with 0
      by (by destruct (credit_resolve w staking_pot 0)). apply settled_drop.
  - destruct (credit_resolve w staking_pot c) as [w'|] eqn:Hr; [|apply settled_drop].
    split; [by apply resolve_balance| |].
    + intros a Ha. by eapply resolve_other.
    + rewrite (resolve_issuance _ _ _ _ Hr). lia.
Qed.

(** The treasury receives all of a credit, or it is burned. *)
Lemma payout_treasury_settled c w :
  settled treasury_account c c w (payout_treasury c w) \/
  settled treasury_account c 0 w (payout_treasury c w).
Proof.
  unfold payout_treasury. destruct (credit_resolve w treasury_account c) as [w'|] eqn:Hr.
  - left. split; [by apply resolve_balance| |].
    + intros a Ha. by eapply resolve_other.
    + rewrite (resolve_issuance _ _ _ _ Hr). lia.
  - right. apply settled_drop.
Qed.

(** The parts of a fee: what is burned and what is for the pot. *)
Definition burned_part (fees : Z) : Z := fees * 80 / 100.
Definition pot_part (fees : Z) : Z := fees - fees * 80 / 100.

(** Fees with at most one tip: the pot gets what it takes of its part. *)
Lemma deal_with_fees_settled fees tips w :
  0 <= fees -> Forall (fun t => 0 <= t) tips -> (length tips <= 1)%nat ->
  fees * 80 <= u128_max -> fees + zsum tips <= u128_max ->
  settled staking_pot (fees + zsum tips)
    (taken (credit_drop w (burned_part fees)) (pot_part fees + zsum tips))
    w (deal_with_fees (fees :: tips) w).
Proof.
  intros Hf Ht Hl H80 Hsum. unfold deal_with_fees, burned_part, pot_part.
  pose proof (ration_sum fees 80 20) as Hr. pose proof (ration_part fees 80 20) as Hp.
  destruct (credit_ration fees 80 20) as [burn pot]. simpl in Hr, Hp.
  change (80 + 20) with 100 in Hp. rewrite Hp in Hr by lia. rewrite Hp by lia. cbv zeta.
  assert (Hb : 0 <= fees * 80 / 100) by (apply Z.div_pos; lia).
  set (received := fees - fees * 80 / 100 + zsum tips).
  assert ((match tips with tip :: _ => credit_merge pot tip | [] => pot end) = received /\
    foldl credit_drop (reward_pot received (credit_drop w (fees * 80 / 100))) (tail tips) =
      reward_pot received (credit_drop w (fees * 80 / 100))) as [Hm Hfold].
  { subst received. destruct tips as [|tip [|]]; unfold zsum in *; simpl in *; [..|lia].
    - split; [lia|done].
    - split; [|done]. rewrite merge_sum; lia. }
  rewrite Hm, Hfold. pose proof (settled_drop staking_pot (fees * 80 / 100) w) as Hd.
  pose proof (reward_pot_settled received (credit_drop w (fees * 80 / 100))) as Hs.
  pose proof (settled_trans _ _ _ _ _ _ _ _ Hd Hs) as Hall.
  by replace (fees * 80 / 100 + received) with (fees + zsum tips) in Hall by lia.
Qed.

(** C35: of a fee, 80% is burned and the rest is for the pot of the collators,
    with the whole tip; no other account changes.  A native transaction hands
    the pot its share of the fee and the tip in one credit, an Ethereum
    transaction in two; the pot receives exactly the credits that the balances
    accept, in the world each is handed over in, and a credit that they refuse
    is burned whole, so that the issuance falls by all that the pot does not
    receive.  When none is refused both kinds are split the same way.  For
    amounts of which 80 times the fee, and the sum, fit a balance. *)
Theorem fees_are_split (fees tip : Z) (w : W) :
  0 <= fees -> 0 <= tip -> fees * 80 <= u128_max -> fees + tip <= u128_max ->
  let native := deal_with_fees [fees; tip] w in
  let evm_fee := deal_with_fees [fees] w in
  let evm := pay_priority_fee (Some tip) evm_fee in
  let after_burn := credit_drop w (burned_part fees) in
  settled staking_pot (fees + tip) (taken after_burn (pot_part fees + tip)) w native /\
  settled staking_pot (fees + tip) (taken after_burn (pot_part fees) + taken evm_fee tip) w evm /\
  (credit_resolve after_burn staking_pot (pot_part fees + tip) <> None ->
   credit_resolve after_burn staking_pot (pot_part fees) <> None ->
   credit_resolve evm_fee staking_pot tip <> None ->
   settled staking_pot (fees + tip) (pot_part fees + tip) w native /\
   settled staking_pot (fees + tip) (pot_part fees + tip) w evm).
Proof.
  intros Hf Ht H80 Hsum native evm_fee evm after_burn.
  assert (Hz : zsum [tip] = tip) by (unfold zsum; simpl; lia).
  assert (Hz0 : zsum [] = 0) by done.
  assert (Hn : settled staking_pot (fees + tip) (taken after_burn (pot_part fees + tip)) w native).
  { pose proof (deal_with_fees_settled fees [tip] w) as Hfee. rewrite Hz in Hfee.
    apply Hfee; [done|by repeat constructor|simpl; lia|done|lia]. }
  assert (He : settled staking_pot (fees + tip) (taken after_burn (pot_part fees) + taken evm_fee tip) w evm).
  { apply (settled_trans _ _ _ _ _ _ evm_fee); [|apply reward_pot_settled].
    pose proof (deal_with_fees_settled fees [] w) as Hfee. rewrite Hz0, !Z.add_0_r in Hfee.
    apply Hfee; [done|constructor|simpl; lia|done|lia]. }
  split; [exact Hn|]. split; [exact He|]. unfold taken in *.
  destruct (credit_resolve after_burn staking_pot (pot_part fees + tip)); [|done].
  destruct (credit_resolve after_burn staking_pot (pot_part fees)); [|done].
  by destruct (credit_resolve evm_fee staking_pot tip).
Qed.

(** ** Block rewards *)

(** At every block, what the inflation pallet issues reaches the pot of the
    collators and the treasury, no more than the active configuration allows:
    the issuance grows by exactly what the two receive, and no other account
    changes. *)
Theorem block_rewards_reach_beneficiaries (deposit : W -> AccountId -> Z -> option W)
    (s : InflationStorage W) :
  staking_pot <> treasury_account ->
  0 <= collator_reward_per_block (ActiveInflationConfig s) ->
  0 <= treasury_reward_per_block (ActiveInflationConfig s) ->
  let w := outer s in
  let w' := outer (inflation_on_initialize (Minting0 := runtime_minting deposit) s) in
  exists collators treasury,
    in_range (collator_reward_per_block (ActiveInflationConfig s)) collators /\
    in_range (treasury_reward_per_block (ActiveInflationConfig s)) treasury /\
    total_balance w' staking_pot = total_balance w staking_pot + collators /\
    total_balance w' treasury_account = total_balance w treasury_account + treasury /\
    total_issuance w' = total_issuance w + collators + treasury /\
    (forall a, a <> staking_pot -> a <> treasury_account -> total_balance w' a = total_balance w a).
Proof.
  intros Hne Hc Ht w w'. unfold inflation_on_initialize, payout_block_rewards in w'. simpl in w'.
  destruct (credit_issue (outer s) _) as [w1 c] eqn:H1 in w'.
  destruct (credit_issue w1 _) as [w2 t] eqn:H2 in w'. simpl in w'. unfold payout_collators in w'.
  apply issue_issuance in H1 as (Rc & Ic & Bc); [|done].
  apply issue_issuance in H2 as (Rt & It & Bt); [|done].
  assert (exists r, (r = c \/ r = 0) /\ settled staking_pot c r w2 (reward_pot c w2)) as (r & Hr & [Pb Po Pi]).
  { exists (taken w2 c). split; [|apply reward_pot_settled]. unfold taken.
    destruct (credit_resolve w2 staking_pot c); [by left|by right]. }
  assert (exists q, (q = t \/ q = 0) /\ settled treasury_account t q (reward_pot c w2) w') as (q & Hq & [Qb Qo Qi]).
  { destruct (payout_treasury_settled t (reward_pot c w2)) as [Hs|Hs]; eauto. }
  exists r, q. unfold in_range in *. subst w. split_and!; try lia.
  - rewrite Qo, Pb, Bt, Bc by done. lia.
  - rewrite Qb, Po, Bt, Bc by done. lia.
  - intros a Hp Ha. by rewrite Qo, Po, Bt, Bc.
Qed.
End handlers.

(** ** The migration to faster blocks

    [AdjustBlockRewardMigration] of [pallets/inflation/src/migration.rs]. *)

Definition halve_block_rewards (c : InflationConfiguration) : InflationConfiguration :=
  mkInflationConfiguration (recalculation_era c) (issuance_safety_cap c)
    (collator_reward_per_block c / 2) (treasury_reward_per_block c / 2)
    (dapp_reward_pool_per_era c) (base_staker_reward_pool_per_era c)
    (adjustable_staker_reward_pool_per_era c) (bonus_reward_pool_per_period c)
    (config_ideal_staking_rate c).

(** The storage item, where there is one. *)
Definition adjust_block_reward (maybe : option InflationConfiguration) : option InflationConfiguration :=
  halve_block_rewards <$> maybe.

(** A cycle of as many eras, each with twice the blocks. *)
Definition twice_the_blocks (c : CycleConfiguration) : CycleConfiguration := {|
  periods_per_cycle := periods_per_cycle c;
  eras_per_voting_subperiod := eras_per_voting_subperiod c;
  eras_per_build_and_earn_subperiod := eras_per_build_and_earn_subperiod c;
  blocks_per_era := 2 * blocks_per_era c;
|}.

Lemma twice_blocks_per_cycle (cycle : CycleConfiguration) :
  0 <= blocks_per_era cycle -> 0 <= cycle_in_era_lengths cycle ->
  0 <= blocks_per_cycle cycle /\ blocks_per_cycle (twice_the_blocks cycle) <= 2 * blocks_per_cycle cycle.
Proof.
  intros Hb Hc. unfold blocks_per_cycle, sat_mul.
  change (cycle_in_era_lengths (twice_the_blocks cycle)) with (cycle_in_era_lengths cycle).
  simpl blocks_per_era. nia.
Qed.

(** Where blocks are produced twice as fast, the migrated configuration
    pays no more over a cycle than the one before did. *)
Theorem faster_blocks_keep_emission (cycle : CycleConfiguration) (c c' : InflationConfiguration) :
  0 <= blocks_per_era cycle -> 0 <= cycle_in_era_lengths cycle ->
  0 <= collator_reward_per_block c -> 0 <= treasury_reward_per_block c ->
  adjust_block_reward (Some c) = Some c' ->
  cycle_emission (twice_the_blocks cycle) c' <= cycle_emission cycle c.
Proof.
  intros Hb Hl Hc Ht [= <-]. destruct (twice_blocks_per_cycle cycle Hb Hl) as [H0 H2].
  unfold cycle_emission.
  change (build_and_earn_eras_per_cycle (twice_the_blocks cycle)) with (build_and_earn_eras_per_cycle cycle).
  simpl. assert (Hx : forall x, 0 <= x -> 0 <= x / 2 /\ 2 * (x / 2) <= x) 
    by (intros x Hx; split; [apply Z.div_pos|apply Z.mul_div_le]; lia).
  destruct (Hx _ Hc) as [??], (Hx _ Ht) as [??].
  set (n := blocks_per_cycle cycle) in *. set (n' := blocks_per_cycle (twice_the_blocks cycle)) in *.
  assert (Z.max n' 1 <= 2 * Z.max n 1) by lia. nia.
Qed.

(** ** A small world *)

(** Balances and the credits outside them; an account holds at least 5. *)
Definition ToyWorld : Type := gmap Z Z * Z.
Definition toy_credits : Credits Z ToyWorld := {|
  credit_issue w x := ((w.1, w.2 + x), x);
  credit_drop w c := (w.1, w.2 - c);
  credit_resolve w a c :=
    if default 0 (w.1 !! a) + c <? 5 then None
    else Some (<[a := default 0 (w.1 !! a) + c]> w.1, w.2);
  credit_ration c p q := (c * p / (p + q), c - c * p / (p + q));
  credit_merge c d := c + d;
|}.
Definition toy_world_currency : Currency Z ToyWorld := {|
  total_balance w a := default 0 (w.1 !! a);
  total_issuance w := w.2;
  set_freeze w a x := Some w;
  thaw w a := Some w;
|}.
#[local] Existing Instances toy_credits toy_world_currency.

#[local] Instance toy_credits_laws : CreditsLaws Z ToyWorld.
Proof.
  split; simpl; try done.
  - intros w x w' c [= <- <-] Hx. unfold in_range. simpl. split_and!; [lia..|done].
  - intros w a c w'. destruct (_ <? 5); [done|]. by intros [= <-].
  - intros w a c w'. destruct (_ <? 5); [done|]. intros [= <-]. simpl. by rewrite lookup_insert_eq.
  - intros w a c w' b. destruct (_ <? 5); [done|]. intros [= <-] Hb. simpl. by rewrite lookup_insert_ne.
  - intros. lia.
Qed.

(** A fee of 100 with a tip of 10, and one of 15 with a tip of 2: the pot could
    hold 5, natively, but neither 3 nor 2. *)
Lemma fees_are_split_witness :
  let w : ToyWorld := ({[ 2 := 890 ]}, 1000) in
  settled 1 110 30 w (deal_with_fees 1 [100; 10] w) /\
  settled 1 17 5 w (deal_with_fees 1 [15; 2] w) /\
  settled 1 17 0 w (pay_priority_fee 1 (Some 2) (deal_with_fees 1 [15] w)).
Proof.
  intros w. split.
  - destruct (fees_are_split 1 100 10 w) as (_ & _ & Ha); [vm_compute; done..|].
    destruct Ha as [Ha _]; [vm_compute; done..|exact Ha].
  - destruct (fees_are_split 1 15 2 w) as (Hn & He & _); [vm_compute; done..|].
    split; [exact Hn|exact He].
Defined.

Definition toy_rewards : InflationStorage ToyWorld :=
  put_inflation_config (mkInflationConfiguration 0 0 3 5 0 0 0 0 0) (inflation_empty ({[ 2 := 890 ]}, 1000)).

Lemma block_rewards_reach_beneficiaries_witness :
  exists collators treasury, collators <= 3 /\ treasury <= 5 /\
    total_issuance (outer (inflation_on_initialize
      (Minting0 := runtime_minting 1 7 (fun w a x => None)) toy_rewards)) = 1000 + collators + treasury.
Proof.
  destruct (block_rewards_reach_beneficiaries 1 7 (fun w a x => None) toy_rewards)
    as (c & t & Hc & Ht & _ & _ & Hi & _); [done..|].
  exists c, t. split; [apply Hc|]. split; [apply Ht|exact Hi].
Defined.

(** The inflation of one day at 12 seconds a block, moved to 6 seconds. *)
Lemma faster_blocks_keep_emission_witness :
  let cycle := {| periods_per_cycle := 3; eras_per_voting_subperiod := 11;
                  eras_per_build_and_earn_subperiod := 111; blocks_per_era := 7200 |} in
  let c := mkInflationConfiguration 0 0 301 501 0 0 0 0 0 in
  cycle_emission (twice_the_blocks cycle) (halve_block_rewards c) <= cycle_emission cycle c.
Proof. by apply (faster_blocks_keep_emission _ _ _). Defined.
