(* ===== verification/XcmPayments.v ===== *)
(** * What execution costs

    The price of execution time in the native asset ([WeightToFee] and
    [XcmWeightToFee] of [runtime/*/src/lib.rs]) and the runtime API
    [XcmPaymentApi], by which other chains ask what a message will cost in an
    asset, against what the traders of the executor then take.  The second part
    is the filter on the calls that a message may dispatch. *)

From stdpp Require Import strings.
From S2P Require Import Prelude Frame Weights XcAssetConfig XcmPrimitives.
Open Scope Z_scope.

(** ** Fees in the native asset

    [sp_weights] evaluates the polynomial that the runtime gives it. *)

Record WeightToFeeCoefficient := mkCoefficient {
  coeff_integer : Z;
  coeff_frac : Z;
  negative : bool;
  degree : Z;
}.

Class PolynomialEval := polynomial_fee : list WeightToFeeCoefficient -> Weight -> Z.

(** "The sum of [coeff_frac * x^degree + coeff_integer * x^degree]", saturating,
    for the polynomials of degree one. *)
Class PolynomialEvalLaws `{!SpArithmetic, !PolynomialEval} : Prop := {
  polynomial_fee_linear integer frac w :
    polynomial_fee [mkCoefficient integer frac false 1] w =
      sat_add u128_max (perbill_mul frac (ref_time w)) (sat_mul u128_max integer (ref_time w));
}.

(** Ratios are rounded down and products with a part to the nearest; a fixed
    point number truncates the integer it multiplies. *)
Class FeeArithmeticLaws `{!SpArithmetic} : Prop := {
  perbill_from_rational_floor p q :
    0 <= p < q -> perbill_from_rational p q = p * perbill_one / q;
  perbill_mul_nearest f x :
    in_range perbill_one f -> in_range u128_max x ->
    2 * Z.abs (perbill_one * perbill_mul f x - f * x) <= perbill_one;
  fixed_from_rational_floor n d :
    0 <= n -> 0 < d -> fixed_from_rational n d = Z.min u128_max (n * fixed_div / d);
  fixed_mul_int_floor m f x :
    in_range u128_max f -> in_range m x ->
    fixed_saturating_mul_int m f x = Z.min m (f * x / fixed_div);
}.

Section fees.
Context `{!SpArithmetic, !PolynomialEval} (WeightFeeFactor base_extrinsic : Z).

(** [WeightToFee::polynomial]: one base extrinsic costs the factor. *)
Definition polynomial : list WeightToFeeCoefficient :=
  let p := WeightFeeFactor in
  let q := base_extrinsic in
  [mkCoefficient (p / q) (perbill_from_rational (p mod q) q) false 1].

Definition native_weight_to_fee (w : Weight) : Z := polynomial_fee polynomial w.

(** [MinimumMultiplier], 0.1 in every runtime. *)
Definition MinimumMultiplier : Z := fixed_from_rational 1 10.

(** [XcmWeightToFee::weight_to_fee]. *)
Definition xcm_weight_to_fee (n : Weight) : Z :=
  fixed_saturating_mul_int u128_max MinimumMultiplier (native_weight_to_fee n).
End fees.

(** What the runtimes set; the weight of an empty extrinsic is a constant of
    [frame_support], to which Shibuya adds one read. *)
Record FeeFactors := mkFeeFactors { factor : Z; base_extrinsic_time : Z }.
Definition astar_fees (ExtrinsicBaseWeight : Z) : FeeFactors :=
  mkFeeFactors 30855000000000000 ExtrinsicBaseWeight.
Definition shibuya_fees `{!DbWeight} (ExtrinsicBaseWeight : Z) : FeeFactors :=
  mkFeeFactors 30855000000000000
    (ref_time (weight_saturating_add (mkWeight ExtrinsicBaseWeight 0) (db_reads 1))).
Definition shiden_fees (ExtrinsicBaseWeight : Z) : FeeFactors :=
  mkFeeFactors 308550000000000 ExtrinsicBaseWeight.
Definition local_fees (ExtrinsicBaseWeight : Z) : FeeFactors :=
  mkFeeFactors 30855000000000000 ExtrinsicBaseWeight.

(** ** [XcmPaymentApi] *)

Inductive XcmPaymentApiError := UnhandledXcmVersion | VersionedConversionFailed | AssetNotFound.

(** [VersionedAssetId] of the [xcm] crate, [PolkadotXcm]'s part in the list of
    assets, and the order in which a map is iterated. *)
Class XcmAssetIds (Location VersionedLocation VersionedAssetId : Type) := {
  asset_of_location : Location -> VersionedAssetId;
  asset_into_version : Z -> VersionedAssetId -> option VersionedAssetId;
  asset_try_into : VersionedAssetId -> option Location;
  pallet_query_acceptable : Z -> list Location -> Result (list VersionedAssetId) XcmPaymentApiError;
  keys_in_order : list VersionedLocation -> list VersionedLocation;
}.

(** The pallet answers with the assets that have a form in the version; a
    location keeps its identity through versions; an iteration visits every
    key. *)
Class XcmAssetIdsLaws (Location VersionedLocation VersionedAssetId : Type)
    `{!XcmAssetIds Location VersionedLocation VersionedAssetId} : Prop := {
  pallet_query_spec version ls :
    pallet_query_acceptable version ls =
      Ok (omap (fun l => asset_into_version version (asset_of_location l)) ls);
  asset_roundtrip version l a :
    asset_into_version version (asset_of_location l) = Some a ->
    asset_into_version 4 a ≫= asset_try_into = Some l;
  keys_in_order_perm vs : keys_in_order vs ≡ₚ vs;
}.

Section api.
Context {AssetId Location VersionedLocation VersionedAssetId : Type}.
Context `{Countable AssetId, Countable VersionedLocation, EqDecision Location}.
Context `{!XcmVersions Location VersionedLocation}.
Context `{!XcmAssetIds Location VersionedLocation VersionedAssetId}.
Context `{!SpArithmetic, !PolynomialEval} (native : Location) (fees : FeeFactors).

Abbreviation St := (XcStorage AssetId VersionedLocation).

Definition query_acceptable_payment_assets (xcm_version : Z) (s : St)
    : Result (list VersionedAssetId) XcmPaymentApiError :=
  ensure! (xcm_version =? 3) || (xcm_version =? 4) else UnhandledXcmVersion in
  let acceptable_assets :=
    native :: omap location_try_from (keys_in_order (map_to_list (AssetLocationUnitsPerSecond s)).*1) in
  pallet_query_acceptable xcm_version acceptable_assets.

Definition query_weight_to_asset_fee (weight : Weight) (asset : VersionedAssetId) (s : St)
    : Result Z XcmPaymentApiError :=
  let! asset := ok_or (asset_into_version 4 asset) VersionedConversionFailed in
  let! asset_id := ok_or (asset_try_into asset) VersionedConversionFailed in
  if bool_decide (asset_id = native) then
    Ok (native_weight_to_fee (factor fees) (base_extrinsic_time fees) weight)
  else
    let versioned_location := V4 asset_id in
    match AssetLocationUnitsPerSecond s !! versioned_location with
    | Some units_per_sec => Ok (weight_to_fee (ref_time weight) units_per_sec)
    | None => Err AssetNotFound
    end.

(** ** The registry prices locations of version 4 only *)

Section priced.
Context {Origin : Type} (ManagerOrigin : Origin -> bool).
Context `{!XcmVersionsLaws Location VersionedLocation}.

Lemma priced_v4 ok (s : St) v u :
  xc_reachable ManagerOrigin ok s -> AssetLocationUnitsPerSecond s !! v = Some u -> exists l, v = V4 l.
Proof.
  intros Hr. revert v u. induction Hr as [|x s s' _ IH _ Hx]; intros v u Hv; [done|].
  apply xc_act_inv in Hx.
  destruct x; destruct_and?; repeat match goal with H : ex _ |- _ => destruct H; destruct_and? end;
    repeat match goal with H : AssetLocationUnitsPerSecond s' = _ |- _ => rewrite H in Hv; clear H end;
    repeat case_match; simplify_map_eq; eauto;
    rewrite ?lookup_insert_Some, ?lookup_delete_Some in Hv; naive_solver.
Qed.
End priced.
End api.

(** ** The price of an empty extrinsic *)

Section native_fees.
Context `{!SpArithmetic, !PolynomialEval, !FeeArithmeticLaws, !PolynomialEvalLaws}.

(** The polynomial charges the factor for the weight of an empty extrinsic,
    but for one unit, as long as that weight is at most a millisecond. *)
Lemma base_extrinsic_costs_factor p q size :
  in_range u128_max p -> 0 < q <= perbill_one -> p + 1 <= u128_max ->
  Z.abs (native_weight_to_fee p q (mkWeight q size) - p) <= 1.
Proof.
  intros Hp Hq Hm. unfold native_weight_to_fee, polynomial. rewrite polynomial_fee_linear. cbn [ref_time].
  pose proof (Z.mod_pos_bound p q ltac:(lia)) as Hmod. rewrite perbill_from_rational_floor by lia.
  set (f := p mod q * perbill_one / q).
  assert (Hf : q * f <= p mod q * perbill_one < q * f + q).
  { pose proof (Z.div_mod (p mod q * perbill_one) q ltac:(lia)) as Hd.
    pose proof (Z.mod_pos_bound (p mod q * perbill_one) q ltac:(lia)). fold f in Hd. lia. }
  assert (Hr : in_range perbill_one f) by (unfold in_range; nia).
  pose proof (perbill_mul_nearest f q Hr ltac:(unfold in_range; lia)) as Hn.
  pose proof (Z.div_mod p q ltac:(lia)) as Hdm. pose proof (Z.div_pos p q ltac:(unfold in_range in *; lia) ltac:(lia)).
  unfold sat_add, sat_mul, in_range in *. rewrite (Z.min_r _ (p / q * q)) by lia. lia.
Qed.

(** What a message pays for its execution is a tenth of the fee of an
    extrinsic of the same weight. *)
Lemma xcm_fee_tenth p q w :
  in_range u128_max (native_weight_to_fee p q w) ->
  xcm_weight_to_fee p q w = native_weight_to_fee p q w / 10.
Proof.
  intros Hr. unfold xcm_weight_to_fee, MinimumMultiplier. rewrite fixed_from_rational_floor by lia.
  rewrite fixed_mul_int_floor; [|by unfold in_range|done].
  replace (Z.min u128_max (1 * fixed_div / 10)) with (fixed_div / 10) by reflexivity.
  set (n := native_weight_to_fee p q w) in *. unfold in_range in Hr.
  replace (fixed_div / 10 * n / fixed_div) with (n / 10); [|change (fixed_div / 10) with (10 ^ 17)].
  - apply Z.min_r. pose proof (Z.div_le_upper_bound n 10 n ltac:(lia) ltac:(lia)). lia.
  - change fixed_div with (10 * 10 ^ 17). rewrite (Z.mul_comm (10 ^ 17)).
    by rewrite Z.div_mul_cancel_r by lia.
Qed.
End native_fees.

(** ** Quotes and charges *)

Section quotes.
Context {AssetId Location VersionedLocation VersionedAssetId Origin Holding : Type}.
Context `{Countable AssetId, Countable VersionedLocation, EqDecision Location}.
Context `{!XcmVersions Location VersionedLocation, !XcmVersionsLaws Location VersionedLocation}.
Context `{!XcmAssetIds Location VersionedLocation VersionedAssetId}.
Context `{!XcmAssetIdsLaws Location VersionedLocation VersionedAssetId}.
Context `{!AssetsInHolding Location Holding, !SpArithmetic, !PolynomialEval}.
Context (ManagerOrigin : Origin -> bool) (native : Location) (fees : FeeFactors).

Abbreviation St := (XcStorage AssetId VersionedLocation).

(** The location an asset id names in the latest version. *)
Definition named_location (asset : VersionedAssetId) : option Location :=
  asset_into_version 4 asset ≫= asset_try_into.

Lemma query_fee_named asset l w (s : St) :
  named_location asset = Some l ->
  query_weight_to_asset_fee native fees w asset s =
    if bool_decide (l = native) then Ok (native_weight_to_fee (factor fees) (base_extrinsic_time fees) w)
    else match AssetLocationUnitsPerSecond s !! V4 l with
         | Some u => Ok (weight_to_fee (ref_time w) u)
         | None => Err AssetNotFound
         end.
Proof.
  unfold named_location, query_weight_to_asset_fee. intros Hl.
  destruct (asset_into_version 4 asset) as [a|]; [|done]. simpl in *. by rewrite Hl.
Qed.

(** What the trader does with its first payment. *)
Lemma first_purchase (s : St) w payment l x :
  fungible_assets_next payment = Some (mkAsset l (Fungible x)) ->
  buy_weight s trader_new w payment =
    match AssetLocationUnitsPerSecond s !! V4 l with
    | None => Err TooExpensive
    | Some u =>
        let fee := weight_to_fee (ref_time w) u in
        if fee =? 0 then Ok (trader_new, payment)
        else match holding_checked_sub payment (mkAsset l (Fungible fee)) with
             | Some unused =>
                 Ok (mkTrader (weight_saturating_add weight_zero w) (sat_add u128_max 0 fee) (Some (l, u)), unused)
             | None => Err TooExpensive
             end
    end.
Proof.
  intros Hn. unfold buy_weight. rewrite Hn. simpl. rewrite into_versioned_latest.
  destruct (AssetLocationUnitsPerSecond s !! V4 l) as [u|]; [|done].
  unfold weight_to_fee. destruct (_ =? 0); [done|]. by destruct (holding_checked_sub _ _).
Qed.

Lemma weight_to_fee_max t u : weight_to_fee t u <= u128_max.
Proof. unfold weight_to_fee, sat_mul, WEIGHT_REF_TIME_PER_SECOND. apply Z.div_le_upper_bound; lia. Qed.

(** The list before it is brought into the version asked for. *)
Lemma acceptable_locations ok (s : St) l :
  xc_reachable ManagerOrigin ok s ->
  l ∈ native :: omap location_try_from (keys_in_order (map_to_list (AssetLocationUnitsPerSecond s)).*1) <->
  l = native \/ is_Some (AssetLocationUnitsPerSecond s !! V4 l).
Proof.
  intros Hr. rewrite elem_of_cons, list_elem_of_omap. apply or_iff_compat_l. split.
  - intros (v & Hv & Hl). rewrite keys_in_order_perm in Hv.
    apply list_elem_of_fmap in Hv as ([v' u] & -> & Hvu%elem_of_map_to_list). simpl in *.
    destruct (priced_v4 ManagerOrigin ok s v' u Hr Hvu) as [l' ->].
    rewrite location_try_from_V4 in Hl. injection Hl as <-. eauto.
  - intros [u Hu]. exists (V4 l). rewrite location_try_from_V4. split; [|done].
    rewrite keys_in_order_perm. apply list_elem_of_fmap. exists (V4 l, u). by rewrite elem_of_map_to_list.
Qed.

Lemma quote_ok asset l w (s : St) :
  named_location asset = Some l ->
  is_ok (query_weight_to_asset_fee native fees w asset s) = true <->
  l = native \/ is_Some (AssetLocationUnitsPerSecond s !! V4 l).
Proof.
  intros Hl. rewrite (query_fee_named asset l) by done. case_bool_decide; [tauto|].
  destruct (AssetLocationUnitsPerSecond s !! V4 l); simpl; [|unfold is_Some]; naive_solver.
Qed.

(** C39: the API is true to the trader.  In every reachable state of the registry
    the fee quoted for a foreign asset is what the trader takes from a payment
    in it, all of it and nothing else, and an asset for which no fee is quoted
    buys nothing.  The assets listed as acceptable in version 3 or 4 are the
    native one and those priced, in their form in that version, and for each a
    fee is quoted. *)
Theorem fee_quotes_match_trader ok (s : St) version w :
  xc_reachable ManagerOrigin ok s ->
  (forall asset l payment x,
     named_location asset = Some l -> l <> native ->
     fungible_assets_next payment = Some (mkAsset l (Fungible x)) ->
     match query_weight_to_asset_fee native fees w asset s with
     | Ok fee =>
         (fee = 0 /\ buy_weight s trader_new w payment = Ok (trader_new, payment)) \/
         (fee <> 0 /\
          match holding_checked_sub payment (mkAsset l (Fungible fee)) with
          | Some unused => exists t u, buy_weight s trader_new w payment = Ok (t, unused) /\
              trader_consumed t = fee /\ asset_location_and_units_per_second t = Some (l, u)
          | None => buy_weight s trader_new w payment = Err TooExpensive
          end)
     | Err e => e = AssetNotFound /\ buy_weight s trader_new w payment = Err TooExpensive
     end) /\
  match query_acceptable_payment_assets native version s with
  | Ok assets =>
      (version = 3 \/ version = 4) /\
      forall a, a ∈ assets <->
        exists l, asset_into_version version (asset_of_location l) = Some a /\
          named_location a = Some l /\ is_ok (query_weight_to_asset_fee native fees w a s) = true
  | Err e => e = UnhandledXcmVersion /\ version <> 3 /\ version <> 4
  end.
Proof.
  intros Hr. split.
  - intros asset l payment x Hl Hne Hp. rewrite (query_fee_named asset l), bool_decide_false by done.
    rewrite (first_purchase s w payment l x Hp).
    destruct (AssetLocationUnitsPerSecond s !! V4 l) as [u|]; [|done]. simpl.
    pose proof (weight_to_fee_max (ref_time w) u) as Hmax. set (fee := weight_to_fee _ _) in *.
    destruct (Z.eqb_spec fee 0); [by left|right]. split; [done|].
    destruct (holding_checked_sub _ _); [|done]. eexists _, u. split_and!; [done| |done].
    unfold sat_add. simpl. lia.
  - unfold query_acceptable_payment_assets. destruct (_ || _) eqn:Hv; [|split; [done|lia]].
    rewrite pallet_query_spec. split; [lia|]. intros a. rewrite list_elem_of_omap. split.
    + intros (l & Hl & Ha). exists l. pose proof (asset_roundtrip version l a Ha) as Hn.
      split_and!; [done..|]. apply (quote_ok a l); [done|]. by apply (acceptable_locations ok).
    + intros (l & Ha & Hn & Hq). exists l. split; [|done]. apply (acceptable_locations ok s); [done|].
      by apply (quote_ok a l w).
Qed.

(** For the native asset it is not: the quote is the fee of an extrinsic, of
    which the trader, set up with [XcmWeightToFee], takes a tenth. *)
Theorem native_quote_tenfold `{!FeeArithmeticLaws} asset w (s : St) quote :
  named_location asset = Some native ->
  query_weight_to_asset_fee native fees w asset s = Ok quote -> in_range u128_max quote ->
  let charge := xcm_weight_to_fee (factor fees) (base_extrinsic_time fees) w in
  10 * charge <= quote < 10 * charge + 10.
Proof.
  intros Hl Hq Hr charge. rewrite (query_fee_named asset native), bool_decide_true in Hq by done.
  injection Hq as <-. unfold charge. rewrite xcm_fee_tenth by done.
  pose proof (Z.div_mod (native_weight_to_fee (factor fees) (base_extrinsic_time fees) w) 10 ltac:(lia)).
  pose proof (Z.mod_pos_bound (native_weight_to_fee (factor fees) (base_extrinsic_time fees) w) 10 ltac:(lia)). lia.
Qed.
End quotes.

(** ** Witnesses

    An asset id is a location with a version in front, as in the registry of
    [XcAssetConfig]; the native asset is at 0. *)

Section example.
Existing Instance ToyVersions.
Existing Instance ToyVersionsLaws.
Existing Instance ToyHolding.
Existing Instance ExactArithmetic.

Lemma ExactFeeArithmetic : FeeArithmeticLaws.
Proof.
  split; simpl.
  - intros p q Hp. unfold clamp_ratio. rewrite Z.max_r by lia. by rewrite (proj2 (Z.leb_gt q p)) by lia.
  - intros f x _ _. apply nearest_close. lia.
  - done.
  - done.
Qed.
Existing Instance ExactFeeArithmetic.

(** Terms of degree one added up. *)
Definition ToyPolynomial : PolynomialEval := fun cs w =>
  fold_right (fun c acc => sat_add u128_max acc
    (sat_add u128_max (perbill_mul (coeff_frac c) (ref_time w)) (sat_mul u128_max (coeff_integer c) (ref_time w))))
    0 cs.
Existing Instance ToyPolynomial.

Definition ToyAssetIds : XcmAssetIds Z (Z * Z) (Z * Z) := {|
  asset_of_location l := (4, l);
  asset_into_version version a := if (3 <=? a.1) && (3 <=? version) then Some (version, a.2) else None;
  asset_try_into a := if a.1 =? 4 then Some a.2 else None;
  pallet_query_acceptable version ls :=
    Ok (omap (fun l => if 3 <=? version then Some (version, l) else None) ls);
  keys_in_order vs := vs;
|}.
Existing Instance ToyAssetIds.
Definition toy_native_fees : FeeFactors := astar_fees 100000000.

(** The price of a second in the asset that the registry prices, in version 3
    and 4, and of one that it does not. *)
Example toy_quotes :
  query_weight_to_asset_fee 0 toy_native_fees (mkWeight (10 ^ 12) 0) (3, 11) toy_registry = Ok 77 /\
  query_weight_to_asset_fee 0 toy_native_fees (mkWeight (10 ^ 12) 0) (4, 20) toy_registry = Err AssetNotFound /\
  query_weight_to_asset_fee 0 toy_native_fees (mkWeight (10 ^ 12) 0) (1, 20) toy_registry =
    Err VersionedConversionFailed /\
  query_acceptable_payment_assets 0 3 toy_registry = Ok [(3, 0); (3, 11)] /\
  query_acceptable_payment_assets 0 2 toy_registry = Err UnhandledXcmVersion.
Proof. by vm_compute. Qed.

Lemma ToyAssetIdsLaws : XcmAssetIdsLaws Z (Z * Z) (Z * Z).
Proof.
  split; [done| |done]. intros version l a. simpl. destruct (Z.leb_spec 3 version); simpl; [|done].
  intros [= <-]. simpl. by rewrite (proj2 (Z.leb_le 3 version)).
Qed.
Existing Instance ToyAssetIdsLaws.

(** A payment of a hundred units buys a second for the quote of 77. *)
Lemma fee_quotes_match_trader_witness :
  exists t u, buy_weight toy_registry trader_new (mkWeight (10 ^ 12) 0) (11, 100) = Ok (t, (11, 23)) /\
    trader_consumed t = 77 /\ asset_location_and_units_per_second t = Some (11, u).
Proof.
  destruct (fee_quotes_match_trader toy_manager 0 toy_native_fees (fun _ _ => True) toy_registry 3
    (mkWeight (10 ^ 12) 0) toy_registry_reachable) as [Hq _].
  specialize (Hq (3, 11) 11 (11, 100) 100 eq_refl ltac:(lia) eq_refl).
  destruct Hq as [[Hz _]|[_ Hq]]; [by vm_compute in Hz|exact Hq].
Defined.

Lemma native_quote_tenfold_witness :
  10 * xcm_weight_to_fee 30855000000000000 100000000 (mkWeight (10 ^ 9) 0) <=
    native_weight_to_fee 30855000000000000 100000000 (mkWeight (10 ^ 9) 0).
Proof.
  refine (proj1 (native_quote_tenfold 0 toy_native_fees (4, 0) (mkWeight (10 ^ 9) 0) toy_registry
    (native_weight_to_fee 30855000000000000 100000000 (mkWeight (10 ^ 9) 0)) _ _ _));
    [reflexivity|reflexivity|by vm_compute].
Defined.
End example.

(** * What another chain may have dispatched

    [SafeCallFilter] of [runtime/astar/src/xcm_config.rs] and
    [runtime/shiden/src/xcm_config.rs]: the calls that the [Transact]
    instruction of a message may dispatch, and the origins that execute
    without paying.  The calls are those of [construct_runtime!] as far as the
    filter looks into them, with the calls they carry.  Shibuya has no such
    filter and the local runtime no messages. *)

(** ** Calls *)

Inductive XcmProxyCall (C : Type) :=
| proxy (call : C)
| proxy_announced (call : C)
| add_proxy
| remove_proxy
| remove_proxies
| create_pure
| kill_pure
| announce
| remove_announcement
| reject_announcement.
Arguments proxy {C}.
Arguments proxy_announced {C}.
Arguments add_proxy {C}.
Arguments remove_proxy {C}.
Arguments remove_proxies {C}.
Arguments create_pure {C}.
Arguments kill_pure {C}.
Arguments announce {C}.
Arguments remove_announcement {C}.
Arguments reject_announcement {C}.

Inductive XcmMultisigCall (C : Type) :=
| as_multi_threshold_1 (call : C)
| as_multi (call : C)
| approve_as_multi
| cancel_as_multi.
Arguments as_multi_threshold_1 {C}.
Arguments as_multi {C}.
Arguments approve_as_multi {C}.
Arguments cancel_as_multi {C}.

Inductive XcmUtilityCall (C : Type) :=
| batch (calls : list C)
| batch_all (calls : list C)
| force_batch (calls : list C)
| as_derivative (call : C)
| dispatch_as (call : C)
| with_weight (call : C).
Arguments batch {C}.
Arguments batch_all {C}.
Arguments force_batch {C}.
Arguments as_derivative {C}.
Arguments dispatch_as {C}.
Arguments with_weight {C}.

(** A call of another pallet is known by its names and the calls it carries. *)
#[warnings="-register-all"] Inductive TransactCall :=
| System (method : string)
| Utility (c : XcmUtilityCall TransactCall)
| Identity (method : string)
| Multisig (c : XcmMultisigCall TransactCall)
| Proxy (c : XcmProxyCall TransactCall)
| Balances (method : string)
| Vesting (method : string)
| DappStaking (method : string)
| Assets (method : string)
| Session (method : string)
| PolkadotXcm (method : string)
| EVM (method : string)
| Ethereum (method : string)
| Contracts (method : string)
| OtherPallet (pallet method : string) (calls : list TransactCall).

(** ** [SafeCallFilter] *)

Definition astar_allow_base_call (call : TransactCall) : bool :=
  match call with
  | System _ | Identity _ | Balances _ | Vesting _ | DappStaking _ | Assets _
  | PolkadotXcm _ | Session _
  | Proxy (add_proxy | remove_proxy | remove_proxies | create_pure | kill_pure
          | announce | remove_announcement | reject_announcement)
  | Multisig (approve_as_multi | cancel_as_multi) => true
  | _ => false
  end.

Definition shiden_allow_base_call (call : TransactCall) : bool :=
  match call with
  | System _ | Contracts _ | Identity _ | Balances _ | Vesting _ | DappStaking _ | Assets _
  | PolkadotXcm _ | Session _
  | Proxy (add_proxy | remove_proxy | remove_proxies | create_pure | kill_pure
          | announce | remove_announcement | reject_announcement)
  | Multisig (approve_as_multi | cancel_as_multi) => true
  | _ => false
  end.

Section filter.
Context (allow_base_call : TransactCall -> bool).

Definition allow_composite_call (call : TransactCall) : bool :=
  match call with
  | Proxy (proxy call) => allow_base_call call
  | Proxy (proxy_announced call) => allow_base_call call
  | Utility (batch calls) => forallb allow_base_call calls
  | Utility (batch_all calls) => forallb allow_base_call calls
  | Utility (as_derivative call) => allow_base_call call
  | Multisig (as_multi_threshold_1 call) => allow_base_call call
  | Multisig (as_multi call) => allow_base_call call
  | _ => false
  end.

Definition contains (call : TransactCall) : bool := allow_base_call call || allow_composite_call call.
End filter.

Definition astar_contains : TransactCall -> bool := contains astar_allow_base_call.
Definition shiden_contains : TransactCall -> bool := contains shiden_allow_base_call.

(** ** The calls a call leads to *)

(** The calls that a call carries in its arguments. *)
Definition carried (call : TransactCall) : list TransactCall :=
  match call with
  | Utility (batch calls | batch_all calls | force_batch calls) | OtherPallet _ _ calls => calls
  | Utility (as_derivative call | dispatch_as call | with_weight call)
  | Multisig (as_multi_threshold_1 call | as_multi call)
  | Proxy (proxy call | proxy_announced call) => [call]
  | _ => []
  end.

(** [executes c d]: the dispatch of [c] may come to that of [d], as a call in
    a call of a call and so on. *)
Definition executes : relation TransactCall := rtc (fun c d => d ∈ carried c).

(** The calls whose proof of validity cannot be measured. *)
Definition is_evm (call : TransactCall) : bool :=
  match call with EVM _ | Ethereum _ => true | _ => false end.

(** What the base filters of the two runtimes have in common. *)
Class BaseCallFilter (allow_base_call : TransactCall -> bool) : Prop := {
  base_carries_nothing c : allow_base_call c = true -> carried c = [];
  base_no_evm c : allow_base_call c = true -> is_evm c = false;
}.
#[export] Instance astar_base_filter : BaseCallFilter astar_allow_base_call.
Proof. split; by intros [| | |[]|[]| | | | | | | | | |]. Qed.
#[export] Instance shiden_base_filter : BaseCallFilter shiden_allow_base_call.
Proof. split; by intros [| | |[]|[]| | | | | | | | | |]. Qed.

Section safety.
Context (base : TransactCall -> bool) `{!BaseCallFilter base}.

Lemma base_executes_itself c d : base c = true -> executes c d -> d = c.
Proof.
  intros Hc Hd. apply rtc_inv in Hd as [->|(x & Hx & _)]; [done|].
  rewrite base_carries_nothing in Hx by done. by apply not_elem_of_nil in Hx.
Qed.

Lemma composite_carries_base c d :
  allow_composite_call base c = true -> d ∈ carried c -> base d = true.
Proof.
  intros Hc Hd.
  destruct c as [|[]| |[]|[]| | | | | | | | | |]; simpl in *; try done;
    try (by apply list_elem_of_singleton in Hd as ->);
    (rewrite forallb_forall in Hc; by apply Hc, list_elem_of_In).
Qed.

(** An admitted call leads to base calls only, at most one below itself. *)
Lemma contains_executes c d :
  contains base c = true -> executes c d ->
  base d = true \/ d = c /\ Forall (fun x => base x = true /\ carried x = []) (carried c).
Proof.
  intros [Hc|Hc]%orb_prop Hd; [left; by rewrite (base_executes_itself c d)|].
  apply rtc_inv in Hd as [<-|(x & Hx & Hxd)].
  - right. split; [done|]. apply Forall_forall. intros x Hx.
    pose proof (composite_carries_base c x Hc Hx). split; [done|]. by apply base_carries_nothing.
  - left. pose proof (composite_carries_base c x Hc Hx). by rewrite (base_executes_itself x d).
Qed.

Lemma contains_no_evm c d : contains base c = true -> executes c d -> is_evm d = false.
Proof.
  intros Hc Hd. destruct (contains_executes c d Hc Hd) as [Hb|[<- _]]; [by apply base_no_evm|].
  revert Hc. intros [Hc|Hc]%orb_prop; [by apply base_no_evm|]. by destruct d.
Qed.
End safety.

(** On Astar and Shiden whatever a message dispatches leads, at any depth, to
    no EVM or Ethereum call: it is a base call, or a composite call that
    carries base calls which carry nothing themselves.  On Astar contracts are
    out of reach too. *)
Theorem transact_calls_confined (call d : TransactCall) :
  (astar_contains call = true -> executes call d ->
     is_evm d = false /\ (forall m, d <> Contracts m) /\
     (astar_allow_base_call d = true \/
      d = call /\ Forall (fun x => astar_allow_base_call x = true /\ carried x = []) (carried call))) /\
  (shiden_contains call = true -> executes call d ->
     is_evm d = false /\
     (shiden_allow_base_call d = true \/
      d = call /\ Forall (fun x => shiden_allow_base_call x = true /\ carried x = []) (carried call))).
Proof.
  split; intros Hc Hd.
  - split; [by apply (contains_no_evm astar_allow_base_call call d)|].
    pose proof (contains_executes astar_allow_base_call call d Hc Hd) as Hx. split; [|done].
    intros m ->. destruct Hx as [Hx|[<- _]]; [by simpl in Hx|by vm_compute in Hc].
  - split; [by apply (contains_no_evm shiden_allow_base_call call d)|].
    by apply (contains_executes shiden_allow_base_call).
Qed.

(** The filter is that tight: a batch of batches is refused although nothing
    but a remark is in it, and so is the one kind of batch that goes on after
    an error. *)
Theorem transact_refusals :
  astar_contains (Utility (batch [Utility (batch [System "remark"])])) = false /\
  astar_contains (Utility (force_batch [System "remark"])) = false /\
  astar_contains (Proxy (proxy (Utility (batch [EVM "call"])))) = false /\
  astar_contains (Utility (batch [Contracts "call"])) = false /\
  shiden_contains (Utility (batch [Contracts "call"])) = true.
Proof. by split_and!. Qed.

(** ** [ParentOrParentsPlurality]

    The interior of a location, whose junctions other than a plurality are
    not told apart. *)

Inductive Junction := Plurality | other_junction (tag : string).

Definition parent_or_plurality (parents : Z) (interior : list Junction) : bool :=
  match interior with
  | [] | [Plurality] => parents =? 1
  | _ => false
  end.

Lemma transact_calls_confined_witness :
  let call := Utility (batch [Balances "transfer_all"; Proxy announce]) in
  astar_contains call = true /\ is_evm (Proxy announce) = false.
Proof.
  split; [by vm_compute|].
  refine (proj1 (proj1 (transact_calls_confined
    (Utility (batch [Balances "transfer_all"; Proxy announce])) (Proxy announce)) _ _));
    [by vm_compute|]. apply rtc_once. simpl. right. left.
Defined.
