(* ===== verification/XcmWeights.v ===== *)
(** * Weights of XCM instructions

    [runtime/astar/src/weights/xcm/mod.rs], the same file in Shibuya and
    Shiden: what an instruction weighs, from the benchmarked weights of the
    runtime. *)

From S2P Require Import Prelude Frame Weights XcAssetConfig XcmPrimitives.

(** The two benchmarked [WeightInfo]. *)
Class XcmBenchmarks := {
  xcm_fungible_transfer_asset : Weight;
  xcm_fungible_transfer_reserve_asset : Weight;
  xcm_fungible_receive_teleported_asset : Weight;
  xcm_fungible_initiate_teleport : Weight;
  xcm_fungible_withdraw_asset : Weight;
  xcm_fungible_reserve_asset_deposited : Weight;
  xcm_fungible_initiate_reserve_withdraw : Weight;
  xcm_fungible_deposit_asset : Weight;
  xcm_fungible_deposit_reserve_asset : Weight;
  xcm_generic_buy_execution : Weight;
  xcm_generic_exchange_asset : Weight;
  xcm_generic_export_message : Weight;
  xcm_generic_lock_asset : Weight;
  xcm_generic_unlock_asset : Weight;
  xcm_generic_note_unlockable : Weight;
  xcm_generic_request_unlock : Weight;
  xcm_generic_universal_origin : Weight;
  xcm_generic_alias_origin : Weight;
  xcm_generic_report_holding : Weight;
  xcm_generic_query_response : Weight;
  xcm_generic_transact : Weight;
  xcm_generic_refund_surplus : Weight;
  xcm_generic_set_error_handler : Weight;
  xcm_generic_set_appendix : Weight;
  xcm_generic_clear_error : Weight;
  xcm_generic_descend_origin : Weight;
  xcm_generic_clear_origin : Weight;
  xcm_generic_report_error : Weight;
  xcm_generic_claim_asset : Weight;
  xcm_generic_trap : Weight;
  xcm_generic_subscribe_version : Weight;
  xcm_generic_unsubscribe_version : Weight;
  xcm_generic_burn_asset : Weight;
  xcm_generic_expect_asset : Weight;
  xcm_generic_expect_origin : Weight;
  xcm_generic_expect_error : Weight;
  xcm_generic_expect_transact_status : Weight;
  xcm_generic_query_pallet : Weight;
  xcm_generic_expect_pallet : Weight;
  xcm_generic_report_transact_status : Weight;
  xcm_generic_clear_transact_status : Weight;
  xcm_generic_set_topic : Weight;
  xcm_generic_clear_topic : Weight;
  xcm_generic_set_fees_mode : Weight;
  xcm_generic_unpaid_execution : Weight;
}.

(** [MAX_ASSETS] of [primitives/src/xcm/mod.rs]. *)
Definition MAX_ASSETS : Z := 64.

(** ** Instructions

    [AssetFilter], and every instruction with what its weight may depend on:
    the assets or the filter that it names.  A filter takes the assets it lists,
    all assets or those of a kind, up to a count if it has one. *)

Inductive AssetFilter {A : Type} :=
| Definite (assets : list A)
| WildAll
| WildAllOf (like : A)
| WildAllCounted (count : Z)
| WildAllOfCounted (like : A) (count : Z).
Arguments AssetFilter : clear implicits.

Inductive XcmInstruction {A : Type} :=
| i_withdraw_asset (assets : list A)
| i_reserve_asset_deposited (assets : list A)
| i_receive_teleported_asset (assets : list A)
| i_query_response
| i_transfer_asset (assets : list A)
| i_transfer_reserve_asset (assets : list A)
| i_transact
| i_hrmp_new_channel_open_request
| i_hrmp_channel_accepted
| i_hrmp_channel_closing
| i_clear_origin
| i_descend_origin
| i_report_error
| i_deposit_asset (assets : AssetFilter A)
| i_deposit_reserve_asset (assets : AssetFilter A)
| i_exchange_asset
| i_initiate_reserve_withdraw (assets : AssetFilter A)
| i_initiate_teleport (assets : AssetFilter A)
| i_report_holding
| i_buy_execution
| i_refund_surplus
| i_set_error_handler
| i_set_appendix
| i_clear_error
| i_claim_asset (assets : list A)
| i_trap
| i_subscribe_version
| i_unsubscribe_version
| i_burn_asset (assets : list A)
| i_expect_asset (assets : list A)
| i_expect_origin
| i_expect_error
| i_expect_transact_status
| i_query_pallet
| i_expect_pallet
| i_report_transact_status
| i_clear_transact_status
| i_universal_origin
| i_export_message
| i_lock_asset
| i_unlock_asset
| i_note_unlockable
| i_request_unlock
| i_set_fees_mode
| i_set_topic
| i_clear_topic
| i_alias_origin
| i_unpaid_execution.
Arguments XcmInstruction : clear implicits.

Section weigh.
Context {A : Type} {benchmarks : XcmBenchmarks}.

Definition weigh_multi_assets (assets : list A) (weight : Weight) : Weight :=
  weight_saturating_mul weight (Z.of_nat (length assets)).

Definition weigh_multi_assets_filter (assets : AssetFilter A) (weight : Weight) : Weight :=
  match assets with
  | Definite assets => weight_saturating_mul weight (Z.of_nat (length assets))
  | WildAllCounted count | WildAllOfCounted _ count =>
      weight_saturating_mul weight (Z.min MAX_ASSETS count)
  | WildAll | WildAllOf _ => weight_saturating_mul weight MAX_ASSETS
  end.

(** [XcmWeight], a function of the instruction. *)
Definition xcm_weight (i : XcmInstruction A) : Weight :=
  match i with
  | i_withdraw_asset assets => weigh_multi_assets assets xcm_fungible_withdraw_asset
  | i_reserve_asset_deposited _ => xcm_fungible_reserve_asset_deposited
  | i_receive_teleported_asset assets =>
      weigh_multi_assets assets xcm_fungible_receive_teleported_asset
  | i_query_response => xcm_generic_query_response
  | i_transfer_asset assets => weigh_multi_assets assets xcm_fungible_transfer_asset
  | i_transfer_reserve_asset assets =>
      weigh_multi_assets assets xcm_fungible_transfer_reserve_asset
  | i_transact => xcm_generic_transact
  | i_hrmp_new_channel_open_request | i_hrmp_channel_accepted | i_hrmp_channel_closing =>
      weight_max
  | i_clear_origin => xcm_generic_clear_origin
  | i_descend_origin => xcm_generic_descend_origin
  | i_report_error => xcm_generic_report_error
  | i_deposit_asset assets => weigh_multi_assets_filter assets xcm_fungible_deposit_asset
  | i_deposit_reserve_asset assets =>
      weigh_multi_assets_filter assets xcm_fungible_deposit_reserve_asset
  | i_exchange_asset => weight_max
  | i_initiate_reserve_withdraw _ => xcm_fungible_initiate_reserve_withdraw
  | i_initiate_teleport _ => xcm_fungible_initiate_teleport
  | i_report_holding => xcm_generic_report_holding
  | i_buy_execution => xcm_generic_buy_execution
  | i_refund_surplus => xcm_generic_refund_surplus
  | i_set_error_handler => xcm_generic_set_error_handler
  | i_set_appendix => xcm_generic_set_appendix
  | i_clear_error => xcm_generic_clear_error
  | i_claim_asset _ => xcm_generic_claim_asset
  | i_trap => xcm_generic_trap
  | i_subscribe_version => xcm_generic_subscribe_version
  | i_unsubscribe_version => xcm_generic_unsubscribe_version
  | i_burn_asset assets => weigh_multi_assets assets xcm_generic_burn_asset
  | i_expect_asset assets => weigh_multi_assets assets xcm_generic_expect_asset
  | i_expect_origin => xcm_generic_expect_origin
  | i_expect_error => xcm_generic_expect_error
  | i_expect_transact_status => xcm_generic_expect_transact_status
  | i_query_pallet => xcm_generic_query_pallet
  | i_expect_pallet => xcm_generic_expect_pallet
  | i_report_transact_status => xcm_generic_report_transact_status
  | i_clear_transact_status => xcm_generic_clear_transact_status
  | i_universal_origin | i_export_message | i_lock_asset | i_unlock_asset | i_note_unlockable
  | i_request_unlock => weight_max
  | i_set_fees_mode => xcm_generic_set_fees_mode
  | i_set_topic => xcm_generic_set_topic
  | i_clear_topic => xcm_generic_clear_topic
  | i_alias_origin => weight_max
  | i_unpaid_execution => xcm_generic_unpaid_execution
  end.
End weigh.
