(* ===== verification/XcmWeightsAstar.v ===== *)
(** * Benchmarked weights of XCM instructions: Astar

    [runtime/astar/src/weights/xcm/fungible.rs] and [generic.rs]. *)

From S2P Require Import Prelude Frame Weights XcmWeights.

Section weights.
Context `{!DbWeight}.

(** ** [fungible.rs] *)

Definition fungible_transfer_asset : Weight :=
  from_parts 43722000 6232 +w db_reads 5 +w db_writes 4.
Definition fungible_transfer_reserve_asset : Weight :=
  from_parts 61082000 6232 +w db_reads 9 +w db_writes 5.
Definition fungible_receive_teleported_asset : Weight :=
  from_parts 18446744073709551000 0.
Definition fungible_initiate_teleport : Weight :=
  from_parts 18446744073709551000 0.
Definition fungible_withdraw_asset : Weight :=
  from_parts 54132000 5417 +w db_reads 4 +w db_writes 3.
Definition fungible_reserve_asset_deposited : Weight :=
  from_parts 1089000 0.
Definition fungible_initiate_reserve_withdraw : Weight :=
  from_parts 50707000 3573 +w db_reads 4 +w db_writes 1.
Definition fungible_deposit_asset : Weight :=
  from_parts 41233000 5157 +w db_reads 4 +w db_writes 3.
Definition fungible_deposit_reserve_asset : Weight :=
  from_parts 76026000 5265 +w db_reads 8 +w db_writes 4.

(** ** [generic.rs] *)

Definition generic_buy_execution : Weight :=
  from_parts 16433000 4182 +w db_reads 5 +w db_writes 3.
Definition generic_exchange_asset : Weight :=
  from_parts 18446744073709551000 0.
Definition generic_export_message : Weight :=
  from_parts 18446744073709551000 0.
Definition generic_lock_asset : Weight :=
  from_parts 18446744073709551000 0.
Definition generic_unlock_asset : Weight :=
  from_parts 18446744073709551000 0.
Definition generic_note_unlockable : Weight :=
  from_parts 18446744073709551000 0.
Definition generic_request_unlock : Weight :=
  from_parts 18446744073709551000 0.
Definition generic_universal_origin : Weight :=
  from_parts 18446744073709551000 0.
Definition generic_alias_origin : Weight :=
  from_parts 18446744073709551000 0.
Definition generic_report_holding : Weight :=
  from_parts 47506000 3596 +w db_reads 4 +w db_writes 1.
Definition generic_query_response : Weight :=
  from_parts 5048000 3465 +w db_reads 1.
Definition generic_transact : Weight :=
  from_parts 7745000 0.
Definition generic_refund_surplus : Weight :=
  from_parts 4077000 0.
Definition generic_set_error_handler : Weight :=
  from_parts 738000 0.
Definition generic_set_appendix : Weight :=
  from_parts 720000 0.
Definition generic_clear_error : Weight :=
  from_parts 661000 0.
Definition generic_descend_origin : Weight :=
  from_parts 719000 0.
Definition generic_clear_origin : Weight :=
  from_parts 689000 0.
Definition generic_report_error : Weight :=
  from_parts 15654000 3596 +w db_reads 4 +w db_writes 1.
Definition generic_claim_asset : Weight :=
  from_parts 8038000 3489 +w db_reads 1 +w db_writes 1.
Definition generic_trap : Weight :=
  from_parts 636000 0.
Definition generic_subscribe_version : Weight :=
  from_parts 16762000 3564 +w db_reads 4 +w db_writes 2.
Definition generic_unsubscribe_version : Weight :=
  from_parts 2480000 0 +w db_writes 1.
Definition generic_burn_asset : Weight :=
  from_parts 22349000 0.
Definition generic_expect_asset : Weight :=
  from_parts 7599000 0.
Definition generic_expect_origin : Weight :=
  from_parts 671000 0.
Definition generic_expect_error : Weight :=
  from_parts 641000 0.
Definition generic_expect_transact_status : Weight :=
  from_parts 847000 0.
Definition generic_query_pallet : Weight :=
  from_parts 20677000 3596 +w db_reads 4 +w db_writes 1.
Definition generic_expect_pallet : Weight :=
  from_parts 4591000 0.
Definition generic_report_transact_status : Weight :=
  from_parts 15626000 3596 +w db_reads 4 +w db_writes 1.
Definition generic_clear_transact_status : Weight :=
  from_parts 684000 0.
Definition generic_set_topic : Weight :=
  from_parts 649000 0.
Definition generic_clear_topic : Weight :=
  from_parts 648000 0.
Definition generic_set_fees_mode : Weight :=
  from_parts 647000 0.
Definition generic_unpaid_execution : Weight :=
  from_parts 695000 0.

(** ** Together *)

Definition astar_benchmarks : XcmBenchmarks := {|
  xcm_fungible_transfer_asset := fungible_transfer_asset;
  xcm_fungible_transfer_reserve_asset := fungible_transfer_reserve_asset;
  xcm_fungible_receive_teleported_asset := fungible_receive_teleported_asset;
  xcm_fungible_initiate_teleport := fungible_initiate_teleport;
  xcm_fungible_withdraw_asset := fungible_withdraw_asset;
  xcm_fungible_reserve_asset_deposited := fungible_reserve_asset_deposited;
  xcm_fungible_initiate_reserve_withdraw := fungible_initiate_reserve_withdraw;
  xcm_fungible_deposit_asset := fungible_deposit_asset;
  xcm_fungible_deposit_reserve_asset := fungible_deposit_reserve_asset;
  xcm_generic_buy_execution := generic_buy_execution;
  xcm_generic_exchange_asset := generic_exchange_asset;
  xcm_generic_export_message := generic_export_message;
  xcm_generic_lock_asset := generic_lock_asset;
  xcm_generic_unlock_asset := generic_unlock_asset;
  xcm_generic_note_unlockable := generic_note_unlockable;
  xcm_generic_request_unlock := generic_request_unlock;
  xcm_generic_universal_origin := generic_universal_origin;
  xcm_generic_alias_origin := generic_alias_origin;
  xcm_generic_report_holding := generic_report_holding;
  xcm_generic_query_response := generic_query_response;
  xcm_generic_transact := generic_transact;
  xcm_generic_refund_surplus := generic_refund_surplus;
  xcm_generic_set_error_handler := generic_set_error_handler;
  xcm_generic_set_appendix := generic_set_appendix;
  xcm_generic_clear_error := generic_clear_error;
  xcm_generic_descend_origin := generic_descend_origin;
  xcm_generic_clear_origin := generic_clear_origin;
  xcm_generic_report_error := generic_report_error;
  xcm_generic_claim_asset := generic_claim_asset;
  xcm_generic_trap := generic_trap;
  xcm_generic_subscribe_version := generic_subscribe_version;
  xcm_generic_unsubscribe_version := generic_unsubscribe_version;
  xcm_generic_burn_asset := generic_burn_asset;
  xcm_generic_expect_asset := generic_expect_asset;
  xcm_generic_expect_origin := generic_expect_origin;
  xcm_generic_expect_error := generic_expect_error;
  xcm_generic_expect_transact_status := generic_expect_transact_status;
  xcm_generic_query_pallet := generic_query_pallet;
  xcm_generic_expect_pallet := generic_expect_pallet;
  xcm_generic_report_transact_status := generic_report_transact_status;
  xcm_generic_clear_transact_status := generic_clear_transact_status;
  xcm_generic_set_topic := generic_set_topic;
  xcm_generic_clear_topic := generic_clear_topic;
  xcm_generic_set_fees_mode := generic_set_fees_mode;
  xcm_generic_unpaid_execution := generic_unpaid_execution;
|}.
End weights.
