(* ===== verification/XcmWeightsShibuya.v ===== *)
(** * Benchmarked weights of XCM instructions: Shibuya

    [runtime/shibuya/src/weights/xcm/fungible.rs] and [generic.rs]. *)

From S2P Require Import Prelude Frame Weights XcmWeights.

Section weights.
Context `{!DbWeight}.

(** ** [fungible.rs] *)

Definition fungible_transfer_asset : Weight :=
  from_parts 44918000 6232 +w db_reads 5 +w db_writes 4.
Definition fungible_transfer_reserve_asset : Weight :=
  from_parts 62585000 6232 +w db_reads 9 +w db_writes 5.
Definition fungible_receive_teleported_asset : Weight :=
  from_parts 18446744073709551000 0.
Definition fungible_initiate_teleport : Weight :=
  from_parts 18446744073709551000 0.
Definition fungible_withdraw_asset : Weight :=
  from_parts 55449000 5491 +w db_reads 5 +w db_writes 3.
Definition fungible_reserve_asset_deposited : Weight :=
  from_parts 933000 0.
Definition fungible_initiate_reserve_withdraw : Weight :=
  from_parts 49879000 3643 +w db_reads 4 +w db_writes 1.
Definition fungible_deposit_asset : Weight :=
  from_parts 40687000 5227 +w db_reads 4 +w db_writes 3.
Definition fungible_deposit_reserve_asset : Weight :=
  from_parts 75763000 5405 +w db_reads 8 +w db_writes 4.

(** ** [generic.rs] *)

Definition generic_buy_execution : Weight :=
  from_parts 15847000 4219 +w db_reads 5 +w db_writes 3.
Definition generic_exchange_asset : Weight :=
  from_parts 18446744073709551000 0.
Definition generic_export_message : Weight :=
  from_parts 18446744073709551000 0.
Definition generic_lock_asset : Weight :=
  from_parts 18446744073709551000 0.
Definition generic_unlock_asset : Weight :=
  from_parts 18446744073709551000 0.
Definition generic_note_unlockable : Weight :=
  from_parts 18446744073709551000 0.
Definition generic_request_unlock : Weight :=
  from_parts 18446744073709551000 0.
Definition generic_universal_origin : Weight :=
  from_parts 18446744073709551000 0.
Definition generic_alias_origin : Weight :=
  from_parts 18446744073709551000 0.
Definition generic_report_holding : Weight :=
  from_parts 50660000 3665 +w db_reads 4 +w db_writes 1.
Definition generic_query_response : Weight :=
  from_parts 5108000 3465 +w db_reads 1.
Definition generic_transact : Weight :=
  from_parts 7374000 0.
Definition generic_refund_surplus : Weight :=
  from_parts 3984000 0.
Definition generic_set_error_handler : Weight :=
  from_parts 713000 0.
Definition generic_set_appendix : Weight :=
  from_parts 707000 0.
Definition generic_clear_error : Weight :=
  from_parts 626000 0.
Definition generic_descend_origin : Weight :=
  from_parts 705000 0.
Definition generic_clear_origin : Weight :=
  from_parts 672000 0.
Definition generic_report_error : Weight :=
  from_parts 19149000 3665 +w db_reads 4 +w db_writes 1.
Definition generic_claim_asset : Weight :=
  from_parts 7979000 3488 +w db_reads 1 +w db_writes 1.
Definition generic_trap : Weight :=
  from_parts 633000 0.
Definition generic_subscribe_version : Weight :=
  from_parts 16966000 3596 +w db_reads 4 +w db_writes 2.
Definition generic_unsubscribe_version : Weight :=
  from_parts 2598000 0 +w db_writes 1.
Definition generic_burn_asset : Weight :=
  from_parts 22225000 0.
Definition generic_expect_asset : Weight :=
  from_parts 7610000 0.
Definition generic_expect_origin : Weight :=
  from_parts 678000 0.
Definition generic_expect_error : Weight :=
  from_parts 668000 0.
Definition generic_expect_transact_status : Weight :=
  from_parts 844000 0.
Definition generic_query_pallet : Weight :=
  from_parts 26201000 3665 +w db_reads 4 +w db_writes 1.
Definition generic_expect_pallet : Weight :=
  from_parts 6002000 0.
Definition generic_report_transact_status : Weight :=
  from_parts 19298000 3665 +w db_reads 4 +w db_writes 1.
Definition generic_clear_transact_status : Weight :=
  from_parts 674000 0.
Definition generic_set_topic : Weight :=
  from_parts 647000 0.
Definition generic_clear_topic : Weight :=
  from_parts 615000 0.
Definition generic_set_fees_mode : Weight :=
  from_parts 604000 0.
Definition generic_unpaid_execution : Weight :=
  from_parts 663000 0.

(** ** Together *)

Definition shibuya_benchmarks : XcmBenchmarks := {|
  xcm_fungible_transfer_asset := fungible_transfer_asset;
  xcm_fungible_transfer_reserve_asset := fungible_transfer_reserve_asset;
  xcm_fungible_receive_teleported_asset := fungible_receive_teleported_asset;
  xcm_fungible_initiate_teleport := fungible_initiate_teleport;
  xcm_fungible_withdraw_asset := fungible_withdraw_asset;
  xcm_fungible_reserve_asset_deposited := fungible_reserve_asset_deposited;
  xcm_fungible_initiate_reserve_withdraw := fungible_initiate_reserve_withdraw;
  xcm_fungible_deposit_asset := fungible_deposit_asset;
  xcm_fungible_deposit_reserve_asset := fungible_deposit_reserve_asset;
  xcm_generic_buy_execution := generic_buy_execution;
  xcm_generic_exchange_asset := generic_exchange_asset;
  xcm_generic_export_message := generic_export_message;
  xcm_generic_lock_asset := generic_lock_asset;
  xcm_generic_unlock_asset := generic_unlock_asset;
  xcm_generic_note_unlockable := generic_note_unlockable;
  xcm_generic_request_unlock := generic_request_unlock;
  xcm_generic_universal_origin := generic_universal_origin;
  xcm_generic_alias_origin := generic_alias_origin;
  xcm_generic_report_holding := generic_report_holding;
  xcm_generic_query_response := generic_query_response;
  xcm_generic_transact := generic_transact;
  xcm_generic_refund_surplus := generic_refund_surplus;
  xcm_generic_set_error_handler := generic_set_error_handler;
  xcm_generic_set_appendix := generic_set_appendix;
  xcm_generic_clear_error := generic_clear_error;
  xcm_generic_descend_origin := generic_descend_origin;
  xcm_generic_clear_origin := generic_clear_origin;
  xcm_generic_report_error := generic_report_error;
  xcm_generic_claim_asset := generic_claim_asset;
  xcm_generic_trap := generic_trap;
  xcm_generic_subscribe_version := generic_subscribe_version;
  xcm_generic_unsubscribe_version := generic_unsubscribe_version;
  xcm_generic_burn_asset := generic_burn_asset;
  xcm_generic_expect_asset := generic_expect_asset;
  xcm_generic_expect_origin := generic_expect_origin;
  xcm_generic_expect_error := generic_expect_error;
  xcm_generic_expect_transact_status := generic_expect_transact_status;
  xcm_generic_query_pallet := generic_query_pallet;
  xcm_generic_expect_pallet := generic_expect_pallet;
  xcm_generic_report_transact_status := generic_report_transact_status;
  xcm_generic_clear_transact_status := generic_clear_transact_status;
  xcm_generic_set_topic := generic_set_topic;
  xcm_generic_clear_topic := generic_clear_topic;
  xcm_generic_set_fees_mode := generic_set_fees_mode;
  xcm_generic_unpaid_execution := generic_unpaid_execution;
|}.
End weights.
