(* ===== verification/XcmWeightBounds.v ===== *)
(** * What the weights of XCM instructions guarantee

    For Astar, Shibuya and Shiden: an instruction that the executor does not
    support cannot be executed in any block, every other one fits into a block,
    and an instruction that handles assets is weighed for all of them. *)

From S2P Require Import Prelude Frame Weights XcmWeights XcmWeightsAstar XcmWeightsShibuya XcmWeightsShiden.

(** ** The runtimes *)

(** [MAXIMUM_BLOCK_WEIGHT] of each runtime: [pov] is [MAX_POV_SIZE]. *)
Definition WEIGHT_REF_TIME_PER_SECOND : Z := 1000000000000.
Definition astar_maximum_block_weight (pov : Z) : Weight :=
  from_parts (sat_div WEIGHT_REF_TIME_PER_SECOND 2) pov.
Definition shibuya_maximum_block_weight (pov : Z) : Weight :=
  from_parts (sat_mul u64_max WEIGHT_REF_TIME_PER_SECOND 2) pov.
Definition shiden_maximum_block_weight (pov : Z) : Weight :=
  from_parts (sat_div WEIGHT_REF_TIME_PER_SECOND 2) pov.

Definition xcm_runtimes `{!DbWeight} (pov : Z) : list (XcmBenchmarks * Weight) :=
  [(astar_benchmarks, astar_maximum_block_weight pov);
   (shibuya_benchmarks, shibuya_maximum_block_weight pov);
   (shiden_benchmarks, shiden_maximum_block_weight pov)].

(** ** Instructions *)

(** The instructions that the executor supports; a teleport brings an asset. *)
Definition supported {A} (i : XcmInstruction A) : bool :=
  match i with
  | i_receive_teleported_asset [] => true
  | i_receive_teleported_asset _ | i_initiate_teleport _
  | i_hrmp_new_channel_open_request | i_hrmp_channel_accepted | i_hrmp_channel_closing
  | i_exchange_asset | i_universal_origin | i_export_message | i_lock_asset | i_unlock_asset
  | i_note_unlockable | i_request_unlock | i_alias_origin => false
  | _ => true
  end.

(** The assets that an instruction lists. *)
Definition listed {A} (i : XcmInstruction A) : list A :=
  match i with
  | i_withdraw_asset l | i_reserve_asset_deposited l | i_receive_teleported_asset l
  | i_transfer_asset l | i_transfer_reserve_asset l | i_claim_asset l | i_burn_asset l
  | i_expect_asset l | i_deposit_asset (Definite l) | i_deposit_reserve_asset (Definite l)
  | i_initiate_reserve_withdraw (Definite l) | i_initiate_teleport (Definite l) => l
  | _ => []
  end.

(** A filter's count is a [u32]. *)
Definition filter_ok {A} (f : AssetFilter A) : Prop :=
  match f with
  | WildAllCounted n | WildAllOfCounted _ n => 0 <= n
  | _ => True
  end.
Definition count_ok {A} (i : XcmInstruction A) : Prop :=
  match i with
  | i_deposit_asset f | i_deposit_reserve_asset f => filter_ok f
  | _ => True
  end.

(** What a single asset costs at most, by the prices of the database. *)
Definition one_asset : Weight := from_parts 1000000000 10000.

Lemma mul_le w v n m :
  weight_le w v -> 0 <= n <= m -> weight_le weight_zero w ->
  weight_le (weight_saturating_mul w n) (weight_saturating_mul v m).
Proof.
  unfold weight_le, weight_saturating_mul, weight_zero, sat_mul. simpl. intros [? ?] ? [? ?].
  assert (ref_time w * n <= ref_time v * m) by nia.
  assert (proof_size w * n <= proof_size v * m) by nia. lia.
Qed.

Lemma filter_le {A} (f : AssetFilter A) w v :
  weight_le w v -> weight_le weight_zero w ->
  filter_ok f -> (forall l, f = Definite l -> Z.of_nat (length l) <= MAX_ASSETS) ->
  weight_le (weigh_multi_assets_filter f w) (weight_saturating_mul v MAX_ASSETS).
Proof.
  intros Hw H0 Hf Hl. destruct f as [l| | | |]; simpl in *; apply mul_le; try done;
    try specialize (Hl l eq_refl); unfold MAX_ASSETS in *; lia.
Qed.

(** What the benchmarks of the three runtimes have in common. *)
Definition modest (w : Weight) : Prop := weight_le weight_zero w /\ weight_le w one_asset.

Definition modest_benchmarks (B : XcmBenchmarks) : Prop :=
  Forall modest
    [xcm_fungible_transfer_asset; xcm_fungible_transfer_reserve_asset; xcm_fungible_withdraw_asset;
     xcm_fungible_reserve_asset_deposited; xcm_fungible_initiate_reserve_withdraw;
     xcm_fungible_deposit_asset; xcm_fungible_deposit_reserve_asset; xcm_generic_buy_execution;
     xcm_generic_expect_pallet; xcm_generic_report_holding; xcm_generic_query_response;
     xcm_generic_transact; xcm_generic_refund_surplus; xcm_generic_set_error_handler;
     xcm_generic_set_appendix; xcm_generic_clear_error; xcm_generic_descend_origin;
     xcm_generic_clear_origin; xcm_generic_report_error; xcm_generic_claim_asset;
     xcm_generic_trap; xcm_generic_subscribe_version; xcm_generic_unsubscribe_version;
     xcm_generic_burn_asset; xcm_generic_expect_asset; xcm_generic_expect_origin;
     xcm_generic_expect_error; xcm_generic_expect_transact_status; xcm_generic_query_pallet;
     xcm_generic_report_transact_status; xcm_generic_clear_transact_status;
     xcm_generic_set_topic; xcm_generic_clear_topic; xcm_generic_set_fees_mode;
     xcm_generic_unpaid_execution] /\
  ref_time xcm_fungible_receive_teleported_asset = 18446744073709551000 /\
  ref_time xcm_fungible_initiate_teleport = 18446744073709551000.

Lemma mul_one_asset w : modest w -> weight_le w (weight_saturating_mul one_asset MAX_ASSETS).
Proof. intros [_ Hw]. transitivity one_asset; [done|]. by vm_compute. Qed.

Section bounds.
Context {A : Type} {B : XcmBenchmarks}.
Hypothesis Hb : modest_benchmarks B.

Ltac modest_field :=
  match goal with |- modest ?w =>
    destruct Hb as [Hm _]; rewrite Forall_forall in Hm; apply Hm; clear Hm; by repeat constructor
  end.

Lemma supported_bounded (i : XcmInstruction A) :
  supported i = true -> Z.of_nat (length (listed i)) <= MAX_ASSETS -> count_ok i ->
  weight_le (xcm_weight i) (weight_saturating_mul one_asset MAX_ASSETS).
Proof.
  intros Hs Hl Hc.
  assert (Hfield : forall w l, modest w -> Z.of_nat (length l) <= MAX_ASSETS ->
    weight_le (weigh_multi_assets (A := A) l w) (weight_saturating_mul one_asset MAX_ASSETS)).
  { intros w l [H0 Hw] Hn. apply mul_le; try done. lia. }
  assert (Hfilter : forall w (f : AssetFilter A), modest w -> filter_ok f ->
    (forall l, f = Definite l -> Z.of_nat (length l) <= MAX_ASSETS) -> weight_le (weigh_multi_assets_filter f w) (weight_saturating_mul one_asset MAX_ASSETS)).
  { intros w f [H0 Hw] Hf Hd. by apply filter_le. }
  destruct i; try discriminate Hs; cbn [xcm_weight];
    first [apply Hfield; [modest_field|exact Hl]
          |apply Hfilter; [modest_field|exact Hc|by intros l ->]
          |apply mul_one_asset; modest_field
          |idtac].
  destruct assets; [|discriminate Hs]. destruct Hb as (_ & Ht & _). simpl.
  unfold weight_le, weigh_multi_assets, weight_saturating_mul, sat_mul. simpl. rewrite !Z.mul_0_r. lia.
Qed.

Lemma unsupported_heavy (i : XcmInstruction A) :
  supported i = false -> 18446744073709551000 <= ref_time (xcm_weight i).
Proof.
  destruct Hb as (_ & Hr & Hi). intros Hs.
  destruct i; try discriminate Hs; cbn [xcm_weight]; try (simpl; lia).
  destruct assets; [discriminate Hs|]. unfold weigh_multi_assets, weight_saturating_mul, sat_mul. simpl.
  rewrite Hr. lia.
Qed.
End bounds.

(** [RocksDbWeight] reads in 25 microseconds and writes in 100. *)
Lemma runtimes_modest `{!DbWeight} pov b w :
  in_range 25000000 db_read -> in_range 100000000 db_write -> In (b, w) (xcm_runtimes pov) ->
  modest_benchmarks b.
Proof.
  unfold in_range. intros Hr Hw Hin.
  destruct Hin as [[= <- <-]|[[= <- <-]|[[= <- <-]|[]]]]; (split; [|by vm_compute]);
    repeat (apply Forall_cons; split); try apply Forall_nil;
    unfold modest, weight_le, one_asset, weight_zero; cbn -[sat_add sat_mul];
    unfold sat_add, sat_mul; cbn; lia.
Qed.

(** On every runtime, an instruction either cannot be executed in any block
    or fits into one: those that the executor does not support weigh more than
    any block has, and each other one, over as many assets as a message can
    hold, weighs no more than a block. *)
Theorem instructions_fit_or_never_run {A} `{!DbWeight} (pov : Z) (b : XcmBenchmarks) (block : Weight)
    (i : XcmInstruction A) :
  in_range 25000000 db_read -> in_range 100000000 db_write -> 5 * 1024 * 1024 <= pov ->
  In (b, block) (xcm_runtimes pov) ->
  (supported i = false -> ref_time block < ref_time (xcm_weight i)) /\
  (supported i = true -> Z.of_nat (length (listed i)) <= MAX_ASSETS -> count_ok i ->
   weight_le (xcm_weight i) block).
Proof.
  intros Hr Hw Hp Hin. pose proof (runtimes_modest _ _ _ Hr Hw Hin) as Hm.
  assert (Hblock : ref_time block <= 2000000000000 /\
    weight_le (weight_saturating_mul one_asset MAX_ASSETS) block).
  { destruct Hin as [[= _ <-]|[[= _ <-]|[[= _ <-]|[]]]];
      (split; [by vm_compute|]); (split; [by vm_compute|]); simpl; unfold sat_mul, MAX_ASSETS; lia. }
  destruct Hblock as [Ht Hfit]. split.
  - intros Hs. pose proof (unsupported_heavy Hm i Hs). lia.
  - intros Hs Hl Hc. etransitivity; [by apply supported_bounded|done].
Qed.

(** ** Filters *)

Section filters.
Context {A : Type}.
(** What a filter takes of a holding. *)
Context (takes : AssetFilter A -> list A -> list A).
Context (takes_sub : forall f holding, (length (takes f holding) <= length holding)%nat).
Context (takes_definite : forall l holding, (length (takes (Definite l) holding) <= length l)%nat).
Context (takes_counted : forall n holding,
  0 <= n -> Z.of_nat (length (takes (WildAllCounted n) holding)) <= n).
Context (takes_of_counted : forall a n holding,
  0 <= n -> Z.of_nat (length (takes (WildAllOfCounted a n) holding)) <= n).

(** A deposit is weighed for every asset it moves: whatever a filter takes
    from a holding of at most [MAX_ASSETS] assets, its weight is at least that
    of the assets taken. *)
Theorem deposits_weighed_in_full (f : AssetFilter A) (holding : list A) (w : Weight) :
  filter_ok f -> Z.of_nat (length holding) <= MAX_ASSETS -> weight_le weight_zero w ->
  weight_le (weigh_multi_assets (takes f holding) w) (weigh_multi_assets_filter f w).
Proof.
  intros Hf Hh Hw. pose proof (takes_sub f holding) as Hsub. unfold weigh_multi_assets.
  destruct f as [l| |a|n|a n]; simpl in *; apply mul_le; try done.
  - pose proof (takes_definite l holding). lia.
  - unfold MAX_ASSETS in *; lia.
  - unfold MAX_ASSETS in *; lia.
  - pose proof (takes_counted n holding Hf). unfold MAX_ASSETS in *; lia.
  - pose proof (takes_of_counted a n holding Hf). unfold MAX_ASSETS in *; lia.
Qed.
End filters.

(** Astar, with the prices of [RocksDbWeight]. *)
#[local] Instance rocks_db : DbWeight := {| db_read := 25000000; db_write := 100000000 |}.

Lemma instructions_fit_or_never_run_witness :
  weight_le (xcm_weight (benchmarks := astar_benchmarks)
               (i_deposit_asset (WildAllCounted (A := Z) 100))) (astar_maximum_block_weight 5242880) /\
  ref_time (astar_maximum_block_weight 5242880) <
    ref_time (xcm_weight (benchmarks := astar_benchmarks) (i_receive_teleported_asset [7])).
Proof.
  split; apply (instructions_fit_or_never_run 5242880); try done; by left.
Defined.

Definition toy_takes (f : AssetFilter Z) (holding : list Z) : list Z :=
  match f with
  | Definite l => take (length l) holding
  | WildAllCounted n | WildAllOfCounted _ n => take (Z.to_nat n) holding
  | _ => holding
  end.

Lemma deposits_weighed_in_full_witness :
  weight_le (weigh_multi_assets (toy_takes (Definite [3; 4]) [1; 2; 3]) (from_parts 5 1))
    (weigh_multi_assets_filter (Definite [3; 4]) (from_parts 5 1)).
Proof.
  apply (deposits_weighed_in_full toy_takes); try done.
  - intros f h. destruct f; simpl; rewrite ?length_take; lia.
  - intros l h. simpl. rewrite length_take. lia.
  - intros n h Hn. simpl. rewrite length_take. lia.
  - intros a n h Hn. simpl. rewrite length_take. lia.
Defined.
