(* ===== verification/DAppStakingBenchmarks.v ===== *)
(** * Benchmarked weights of dApp staking

    [pallets/dapp-staking/src/weights.rs], which the local runtime uses (with
    the prices of [RocksDbWeight] as its database's), and the
    benchmarks of Astar, Shibuya and Shiden,
    [runtime/*/src/weights/pallet_dapp_staking.rs]. *)

From S2P Require Import Prelude Frame Weights.

(** The trait [WeightInfo]. *)
Class DAppStakingWeightInfo := {
  weight_maintenance_mode : Weight;
  weight_register : Weight;
  weight_set_dapp_reward_beneficiary : Weight;
  weight_set_dapp_owner : Weight;
  weight_unregister : Weight;
  weight_lock_new_account : Weight;
  weight_lock_existing_account : Weight;
  weight_unlock : Weight;
  weight_claim_unlocked : Z -> Weight;
  weight_relock_unlocking : Weight;
  weight_stake : Weight;
  weight_unstake : Weight;
  weight_claim_staker_rewards_past_period : Z -> Weight;
  weight_claim_staker_rewards_ongoing_period : Z -> Weight;
  weight_claim_bonus_reward : Weight;
  weight_claim_dapp_reward : Weight;
  weight_unstake_from_unregistered : Weight;
  weight_cleanup_expired_entries : Z -> Weight;
  weight_force : Weight;
  weight_on_initialize_voting_to_build_and_earn : Weight;
  weight_on_initialize_build_and_earn_to_voting : Weight;
  weight_on_initialize_build_and_earn_to_build_and_earn : Weight;
  weight_dapp_tier_assignment : Z -> Weight;
  weight_on_idle_cleanup : Weight;
  weight_step : Weight;
}.

Section benchmarks.
Context `{!DbWeight}.

(** ** The pallet *)

Definition pallet_maintenance_mode : Weight :=
  from_parts 9242000 0.
Definition pallet_register : Weight :=
  from_parts 17328000 3086 +w db_reads 3 +w db_writes 3.
Definition pallet_set_dapp_reward_beneficiary : Weight :=
  from_parts 13617000 3086 +w db_reads 1 +w db_writes 1.
Definition pallet_set_dapp_owner : Weight :=
  from_parts 13692000 3086 +w db_reads 1 +w db_writes 1.
Definition pallet_unregister : Weight :=
  from_parts 18864000 3086 +w db_reads 2 +w db_writes 3.
Definition pallet_lock_new_account : Weight :=
  from_parts 64992000 4764 +w db_reads 5 +w db_writes 3.
Definition pallet_lock_existing_account : Weight :=
  from_parts 38835000 4764 +w db_reads 4 +w db_writes 3.
Definition pallet_unlock : Weight :=
  from_parts 35126000 4764 +w db_reads 4 +w db_writes 3.
Definition pallet_claim_unlocked (x : Z) : Weight :=
  from_parts 39064684 4764 +w from_parts 120539 0 *w x +w db_reads 4 +w db_writes 3.
Definition pallet_relock_unlocking : Weight :=
  from_parts 33903000 4764 +w db_reads 4 +w db_writes 3.
Definition pallet_stake : Weight :=
  from_parts 45261000 4764 +w db_reads 7 +w db_writes 5.
Definition pallet_unstake : Weight :=
  from_parts 49441000 4764 +w db_reads 7 +w db_writes 5.
Definition pallet_claim_staker_rewards_past_period (x : Z) : Weight :=
  from_parts 50073700 4764 +w from_parts 3301788 0 *w x +w db_reads 5 +w db_writes 2.
Definition pallet_claim_staker_rewards_ongoing_period (x : Z) : Weight :=
  from_parts 47809537 4764 +w from_parts 3304857 0 *w x +w db_reads 4 +w db_writes 2.
Definition pallet_claim_bonus_reward : Weight :=
  from_parts 42718000 3775 +w db_reads 3 +w db_writes 2.
Definition pallet_claim_dapp_reward : Weight :=
  from_parts 58197000 5048 +w db_reads 2 +w db_writes 1.
Definition pallet_unstake_from_unregistered : Weight :=
  from_parts 42476000 4764 +w db_reads 6 +w db_writes 4.
Definition pallet_cleanup_expired_entries (x : Z) : Weight :=
  from_parts 39876215 4764 +w from_parts 5014232 0 *w x +w db_reads 4
    +w db_reads (sat_mul u64_max 1 x) +w db_writes 2 +w db_writes (sat_mul u64_max 1 x)
    +w from_parts 0 2613 *w x.
Definition pallet_force : Weight :=
  from_parts 11735000 0.
Definition pallet_on_initialize_voting_to_build_and_earn : Weight :=
  from_parts 18283000 4254 +w db_reads 2 +w db_writes 2.
Definition pallet_on_initialize_build_and_earn_to_voting : Weight :=
  from_parts 49554000 4254 +w db_reads 6 +w db_writes 7.
Definition pallet_on_initialize_build_and_earn_to_build_and_earn : Weight :=
  from_parts 24313000 4254 +w db_reads 2 +w db_writes 3.
Definition pallet_dapp_tier_assignment (x : Z) : Weight :=
  from_parts 12476634 3061 +w from_parts 2387577 0 *w x +w db_reads 2
    +w db_reads (sat_mul u64_max 1 x) +w from_parts 0 2071 *w x.
Definition pallet_on_idle_cleanup : Weight :=
  from_parts 8772000 4254 +w db_reads 2 +w db_writes 3.
Definition pallet_step : Weight :=
  from_parts 10314000 6560 +w db_reads 2 +w db_writes 1.

Definition pallet_dapp_benchmarks : DAppStakingWeightInfo := {|
  weight_maintenance_mode := pallet_maintenance_mode;
  weight_register := pallet_register;
  weight_set_dapp_reward_beneficiary := pallet_set_dapp_reward_beneficiary;
  weight_set_dapp_owner := pallet_set_dapp_owner;
  weight_unregister := pallet_unregister;
  weight_lock_new_account := pallet_lock_new_account;
  weight_lock_existing_account := pallet_lock_existing_account;
  weight_unlock := pallet_unlock;
  weight_claim_unlocked := pallet_claim_unlocked;
  weight_relock_unlocking := pallet_relock_unlocking;
  weight_stake := pallet_stake;
  weight_unstake := pallet_unstake;
  weight_claim_staker_rewards_past_period := pallet_claim_staker_rewards_past_period;
  weight_claim_staker_rewards_ongoing_period := pallet_claim_staker_rewards_ongoing_period;
  weight_claim_bonus_reward := pallet_claim_bonus_reward;
  weight_claim_dapp_reward := pallet_claim_dapp_reward;
  weight_unstake_from_unregistered := pallet_unstake_from_unregistered;
  weight_cleanup_expired_entries := pallet_cleanup_expired_entries;
  weight_force := pallet_force;
  weight_on_initialize_voting_to_build_and_earn := pallet_on_initialize_voting_to_build_and_earn;
  weight_on_initialize_build_and_earn_to_voting := pallet_on_initialize_build_and_earn_to_voting;
  weight_on_initialize_build_and_earn_to_build_and_earn := pallet_on_initialize_build_and_earn_to_build_and_earn;
  weight_dapp_tier_assignment := pallet_dapp_tier_assignment;
  weight_on_idle_cleanup := pallet_on_idle_cleanup;
  weight_step := pallet_step;
|}.

(** ** Astar *)

Definition astar_maintenance_mode : Weight :=
  from_parts 6258000 0.
Definition astar_register : Weight :=
  from_parts 12827000 3086 +w db_reads 3 +w db_writes 3.
Definition astar_set_dapp_reward_beneficiary : Weight :=
  from_parts 11125000 3086 +w db_reads 1 +w db_writes 1.
Definition astar_set_dapp_owner : Weight :=
  from_parts 11327000 3086 +w db_reads 1 +w db_writes 1.
Definition astar_unregister : Weight :=
  from_parts 15439000 3086 +w db_reads 2 +w db_writes 3.
Definition astar_lock_new_account : Weight :=
  from_parts 28589000 4764 +w db_reads 5 +w db_writes 3.
Definition astar_lock_existing_account : Weight :=
  from_parts 32385000 4764 +w db_reads 4 +w db_writes 3.
Definition astar_unlock : Weight :=
  from_parts 29442000 4764 +w db_reads 4 +w db_writes 3.
Definition astar_claim_unlocked (x : Z) : Weight :=
  from_parts 29890431 4764 +w from_parts 119567 0 *w x +w db_reads 4 +w db_writes 3.
Definition astar_relock_unlocking : Weight :=
  from_parts 27357000 4764 +w db_reads 4 +w db_writes 3.
Definition astar_stake : Weight :=
  from_parts 41054000 4764 +w db_reads 7 +w db_writes 5.
Definition astar_unstake : Weight :=
  from_parts 45089000 4764 +w db_reads 7 +w db_writes 5.
Definition astar_claim_staker_rewards_past_period (x : Z) : Weight :=
  from_parts 47832086 4764 +w from_parts 1886107 0 *w x +w db_reads 5 +w db_writes 2.
Definition astar_claim_staker_rewards_ongoing_period (x : Z) : Weight :=
  from_parts 45177385 4764 +w from_parts 1902280 0 *w x +w db_reads 4 +w db_writes 2.
Definition astar_claim_bonus_reward : Weight :=
  from_parts 36345000 3775 +w db_reads 3 +w db_writes 2.
Definition astar_claim_dapp_reward : Weight :=
  from_parts 55179000 5113 +w db_reads 2 +w db_writes 1.
Definition astar_unstake_from_unregistered : Weight :=
  from_parts 36779000 4764 +w db_reads 6 +w db_writes 4.
Definition astar_cleanup_expired_entries (x : Z) : Weight :=
  from_parts 32624459 4764 +w from_parts 4932135 0 *w x +w db_reads 4
    +w db_reads (sat_mul u64_max 1 x) +w db_writes 2 +w db_writes (sat_mul u64_max 1 x)
    +w from_parts 0 2653 *w x.
Definition astar_force : Weight :=
  from_parts 8948000 1486 +w db_reads 1.
Definition astar_on_initialize_voting_to_build_and_earn : Weight :=
  from_parts 25631000 4254 +w db_reads 5 +w db_writes 3.
Definition astar_on_initialize_build_and_earn_to_voting : Weight :=
  from_parts 42059000 4254 +w db_reads 7 +w db_writes 7.
Definition astar_on_initialize_build_and_earn_to_build_and_earn : Weight :=
  from_parts 28696000 4254 +w db_reads 5 +w db_writes 4.
Definition astar_dapp_tier_assignment (x : Z) : Weight :=
  from_parts 10996104 3061 +w from_parts 2367291 0 *w x +w db_reads 2
    +w db_reads (sat_mul u64_max 1 x) +w from_parts 0 2071 *w x.
Definition astar_on_idle_cleanup : Weight :=
  from_parts 8340000 4254 +w db_reads 2 +w db_writes 3.
Definition astar_step : Weight :=
  from_parts 10314000 6560 +w db_reads 2 +w db_writes 1.

Definition astar_dapp_benchmarks : DAppStakingWeightInfo := {|
  weight_maintenance_mode := astar_maintenance_mode;
  weight_register := astar_register;
  weight_set_dapp_reward_beneficiary := astar_set_dapp_reward_beneficiary;
  weight_set_dapp_owner := astar_set_dapp_owner;
  weight_unregister := astar_unregister;
  weight_lock_new_account := astar_lock_new_account;
  weight_lock_existing_account := astar_lock_existing_account;
  weight_unlock := astar_unlock;
  weight_claim_unlocked := astar_claim_unlocked;
  weight_relock_unlocking := astar_relock_unlocking;
  weight_stake := astar_stake;
  weight_unstake := astar_unstake;
  weight_claim_staker_rewards_past_period := astar_claim_staker_rewards_past_period;
  weight_claim_staker_rewards_ongoing_period := astar_claim_staker_rewards_ongoing_period;
  weight_claim_bonus_reward := astar_claim_bonus_reward;
  weight_claim_dapp_reward := astar_claim_dapp_reward;
  weight_unstake_from_unregistered := astar_unstake_from_unregistered;
  weight_cleanup_expired_entries := astar_cleanup_expired_entries;
  weight_force := astar_force;
  weight_on_initialize_voting_to_build_and_earn := astar_on_initialize_voting_to_build_and_earn;
  weight_on_initialize_build_and_earn_to_voting := astar_on_initialize_build_and_earn_to_voting;
  weight_on_initialize_build_and_earn_to_build_and_earn := astar_on_initialize_build_and_earn_to_build_and_earn;
  weight_dapp_tier_assignment := astar_dapp_tier_assignment;
  weight_on_idle_cleanup := astar_on_idle_cleanup;
  weight_step := astar_step;
|}.

(** ** Shibuya *)

Definition shibuya_maintenance_mode : Weight :=
  from_parts 5873000 0.
Definition shibuya_register : Weight :=
  from_parts 12247000 3086 +w db_reads 3 +w db_writes 3.
Definition shibuya_set_dapp_reward_beneficiary : Weight :=
  from_parts 10663000 3086 +w db_reads 1 +w db_writes 1.
Definition shibuya_set_dapp_owner : Weight :=
  from_parts 10571000 3086 +w db_reads 1 +w db_writes 1.
Definition shibuya_unregister : Weight :=
  from_parts 14711000 3086 +w db_reads 2 +w db_writes 3.
Definition shibuya_lock_new_account : Weight :=
  from_parts 30498000 4764 +w db_reads 5 +w db_writes 3.
Definition shibuya_lock_existing_account : Weight :=
  from_parts 31167000 4764 +w db_reads 4 +w db_writes 3.
Definition shibuya_unlock : Weight :=
  from_parts 28502000 4764 +w db_reads 4 +w db_writes 3.
Definition shibuya_claim_unlocked (x : Z) : Weight :=
  from_parts 28780892 4764 +w from_parts 190464 0 *w x +w db_reads 4 +w db_writes 3.
Definition shibuya_relock_unlocking : Weight :=
  from_parts 25376000 4764 +w db_reads 4 +w db_writes 3.
Definition shibuya_stake : Weight :=
  from_parts 38804000 4764 +w db_reads 7 +w db_writes 5.
Definition shibuya_unstake : Weight :=
  from_parts 42850000 4764 +w db_reads 7 +w db_writes 5.
Definition shibuya_claim_staker_rewards_past_period (x : Z) : Weight :=
  from_parts 45930258 4764 +w from_parts 1720079 0 *w x +w db_reads 5 +w db_writes 2.
Definition shibuya_claim_staker_rewards_ongoing_period (x : Z) : Weight :=
  from_parts 43679252 4764 +w from_parts 1728663 0 *w x +w db_reads 4 +w db_writes 2.
Definition shibuya_claim_bonus_reward : Weight :=
  from_parts 34959000 3775 +w db_reads 3 +w db_writes 2.
Definition shibuya_claim_dapp_reward : Weight :=
  from_parts 50884000 5113 +w db_reads 2 +w db_writes 1.
Definition shibuya_unstake_from_unregistered : Weight :=
  from_parts 36468000 4764 +w db_reads 6 +w db_writes 4.
Definition shibuya_cleanup_expired_entries (x : Z) : Weight :=
  from_parts 31550798 4764 +w from_parts 4950275 0 *w x +w db_reads 4
    +w db_reads (sat_mul u64_max 1 x) +w db_writes 2 +w db_writes (sat_mul u64_max 1 x)
    +w from_parts 0 2653 *w x.
Definition shibuya_force : Weight :=
  from_parts 8696000 1486 +w db_reads 1.
Definition shibuya_on_initialize_voting_to_build_and_earn : Weight :=
  from_parts 24700000 4254 +w db_reads 5 +w db_writes 3.
Definition shibuya_on_initialize_build_and_earn_to_voting : Weight :=
  from_parts 38780000 4254 +w db_reads 7 +w db_writes 7.
Definition shibuya_on_initialize_build_and_earn_to_build_and_earn : Weight :=
  from_parts 28483000 4254 +w db_reads 5 +w db_writes 4.
Definition shibuya_dapp_tier_assignment (x : Z) : Weight :=
  from_parts 11220207 3061 +w from_parts 2393849 0 *w x +w db_reads 2
    +w db_reads (sat_mul u64_max 1 x) +w from_parts 0 2071 *w x.
Definition shibuya_on_idle_cleanup : Weight :=
  from_parts 8354000 4254 +w db_reads 2 +w db_writes 3.
Definition shibuya_step : Weight :=
  from_parts 10314000 6560 +w db_reads 2 +w db_writes 1.

Definition shibuya_dapp_benchmarks : DAppStakingWeightInfo := {|
  weight_maintenance_mode := shibuya_maintenance_mode;
  weight_register := shibuya_register;
  weight_set_dapp_reward_beneficiary := shibuya_set_dapp_reward_beneficiary;
  weight_set_dapp_owner := shibuya_set_dapp_owner;
  weight_unregister := shibuya_unregister;
  weight_lock_new_account := shibuya_lock_new_account;
  weight_lock_existing_account := shibuya_lock_existing_account;
  weight_unlock := shibuya_unlock;
  weight_claim_unlocked := shibuya_claim_unlocked;
  weight_relock_unlocking := shibuya_relock_unlocking;
  weight_stake := shibuya_stake;
  weight_unstake := shibuya_unstake;
  weight_claim_staker_rewards_past_period := shibuya_claim_staker_rewards_past_period;
  weight_claim_staker_rewards_ongoing_period := shibuya_claim_staker_rewards_ongoing_period;
  weight_claim_bonus_reward := shibuya_claim_bonus_reward;
  weight_claim_dapp_reward := shibuya_claim_dapp_reward;
  weight_unstake_from_unregistered := shibuya_unstake_from_unregistered;
  weight_cleanup_expired_entries := shibuya_cleanup_expired_entries;
  weight_force := shibuya_force;
  weight_on_initialize_voting_to_build_and_earn := shibuya_on_initialize_voting_to_build_and_earn;
  weight_on_initialize_build_and_earn_to_voting := shibuya_on_initialize_build_and_earn_to_voting;
  weight_on_initialize_build_and_earn_to_build_and_earn := shibuya_on_initialize_build_and_earn_to_build_and_earn;
  weight_dapp_tier_assignment := shibuya_dapp_tier_assignment;
  weight_on_idle_cleanup := shibuya_on_idle_cleanup;
  weight_step := shibuya_step;
|}.

(** ** Shiden *)

Definition shiden_maintenance_mode : Weight :=
  from_parts 6128000 0.
Definition shiden_register : Weight :=
  from_parts 12383000 3086 +w db_reads 3 +w db_writes 3.
Definition shiden_set_dapp_reward_beneficiary : Weight :=
  from_parts 10815000 3086 +w db_reads 1 +w db_writes 1.
Definition shiden_set_dapp_owner : Weight :=
  from_parts 10652000 3086 +w db_reads 1 +w db_writes 1.
Definition shiden_unregister : Weight :=
  from_parts 14973000 3086 +w db_reads 2 +w db_writes 3.
Definition shiden_lock_new_account : Weight :=
  from_parts 28088000 4764 +w db_reads 5 +w db_writes 3.
Definition shiden_lock_existing_account : Weight :=
  from_parts 31749000 4764 +w db_reads 4 +w db_writes 3.
Definition shiden_unlock : Weight :=
  from_parts 28994000 4764 +w db_reads 4 +w db_writes 3.
Definition shiden_claim_unlocked (x : Z) : Weight :=
  from_parts 29649616 4764 +w from_parts 117983 0 *w x +w db_reads 4 +w db_writes 3.
Definition shiden_relock_unlocking : Weight :=
  from_parts 26585000 4764 +w db_reads 4 +w db_writes 3.
Definition shiden_stake : Weight :=
  from_parts 39246000 4764 +w db_reads 7 +w db_writes 5.
Definition shiden_unstake : Weight :=
  from_parts 43678000 4764 +w db_reads 7 +w db_writes 5.
Definition shiden_claim_staker_rewards_past_period (x : Z) : Weight :=
  from_parts 47380121 4764 +w from_parts 1938013 0 *w x +w db_reads 5 +w db_writes 2.
Definition shiden_claim_staker_rewards_ongoing_period (x : Z) : Weight :=
  from_parts 45193051 4764 +w from_parts 1945694 0 *w x +w db_reads 4 +w db_writes 2.
Definition shiden_claim_bonus_reward : Weight :=
  from_parts 35776000 3775 +w db_reads 3 +w db_writes 2.
Definition shiden_claim_dapp_reward : Weight :=
  from_parts 49645000 5113 +w db_reads 2 +w db_writes 1.
Definition shiden_unstake_from_unregistered : Weight :=
  from_parts 36190000 4764 +w db_reads 6 +w db_writes 4.
Definition shiden_cleanup_expired_entries (x : Z) : Weight :=
  from_parts 32229929 4764 +w from_parts 4898852 0 *w x +w db_reads 4
    +w db_reads (sat_mul u64_max 1 x) +w db_writes 2 +w db_writes (sat_mul u64_max 1 x)
    +w from_parts 0 2653 *w x.
Definition shiden_force : Weight :=
  from_parts 8785000 1486 +w db_reads 1.
Definition shiden_on_initialize_voting_to_build_and_earn : Weight :=
  from_parts 25190000 4254 +w db_reads 5 +w db_writes 3.
Definition shiden_on_initialize_build_and_earn_to_voting : Weight :=
  from_parts 41027000 4254 +w db_reads 7 +w db_writes 7.
Definition shiden_on_initialize_build_and_earn_to_build_and_earn : Weight :=
  from_parts 27938000 4254 +w db_reads 5 +w db_writes 4.
Definition shiden_dapp_tier_assignment (x : Z) : Weight :=
  from_parts 10637970 3061 +w from_parts 2395087 0 *w x +w db_reads 2
    +w db_reads (sat_mul u64_max 1 x) +w from_parts 0 2071 *w x.
Definition shiden_on_idle_cleanup : Weight :=
  from_parts 8379000 4254 +w db_reads 2 +w db_writes 3.
Definition shiden_step : Weight :=
  from_parts 10314000 6560 +w db_reads 2 +w db_writes 1.

Definition shiden_dapp_benchmarks : DAppStakingWeightInfo := {|
  weight_maintenance_mode := shiden_maintenance_mode;
  weight_register := shiden_register;
  weight_set_dapp_reward_beneficiary := shiden_set_dapp_reward_beneficiary;
  weight_set_dapp_owner := shiden_set_dapp_owner;
  weight_unregister := shiden_unregister;
  weight_lock_new_account := shiden_lock_new_account;
  weight_lock_existing_account := shiden_lock_existing_account;
  weight_unlock := shiden_unlock;
  weight_claim_unlocked := shiden_claim_unlocked;
  weight_relock_unlocking := shiden_relock_unlocking;
  weight_stake := shiden_stake;
  weight_unstake := shiden_unstake;
  weight_claim_staker_rewards_past_period := shiden_claim_staker_rewards_past_period;
  weight_claim_staker_rewards_ongoing_period := shiden_claim_staker_rewards_ongoing_period;
  weight_claim_bonus_reward := shiden_claim_bonus_reward;
  weight_claim_dapp_reward := shiden_claim_dapp_reward;
  weight_unstake_from_unregistered := shiden_unstake_from_unregistered;
  weight_cleanup_expired_entries := shiden_cleanup_expired_entries;
  weight_force := shiden_force;
  weight_on_initialize_voting_to_build_and_earn := shiden_on_initialize_voting_to_build_and_earn;
  weight_on_initialize_build_and_earn_to_voting := shiden_on_initialize_build_and_earn_to_voting;
  weight_on_initialize_build_and_earn_to_build_and_earn := shiden_on_initialize_build_and_earn_to_build_and_earn;
  weight_dapp_tier_assignment := shiden_dapp_tier_assignment;
  weight_on_idle_cleanup := shiden_on_idle_cleanup;
  weight_step := shiden_step;
|}.

End benchmarks.
