(* ===== verification/PalletBenchmarks.v ===== *)
(** * Benchmarked weights of the other pallets

    [pallets/*/src/weights.rs] and the benchmarks of the inflation pallet in
    Astar and Shiden; Shibuya and the local runtime use those of the pallet.  Then
    the benchmarks of third-party pallets, [runtime/*/src/weights]. *)

From S2P Require Import Prelude Frame Weights.

Section benchmarks.
Context `{!DbWeight}.

(** ** Collator selection *)

Definition collator_set_invulnerables (b : Z) : Weight :=
  from_parts 11917783 1194 +w from_parts 2433455 0 *w b +w db_reads (sat_mul u64_max 1 b)
    +w db_writes 1 +w from_parts 0 2554 *w b.
Definition collator_set_desired_candidates : Weight :=
  from_parts 5400000 0 +w db_writes 1.
Definition collator_set_candidacy_bond : Weight :=
  from_parts 5521000 0 +w db_writes 1.
Definition collator_register_as_candidate (c : Z) : Weight :=
  from_parts 40514505 4307 +w from_parts 48079 0 *w c +w db_reads 7 +w db_writes 3
    +w from_parts 0 51 *w c.
Definition collator_leave_intent (c : Z) : Weight :=
  from_parts 17595269 2178 +w from_parts 38279 0 *w c +w db_reads 2 +w db_writes 2
    +w from_parts 0 49 *w c.
Definition collator_withdraw_bond : Weight :=
  from_parts 29066000 4190 +w db_reads 2 +w db_writes 2.
Definition collator_note_author : Weight :=
  from_parts 35803000 6196 +w db_reads 2 +w db_writes 3.
Definition collator_new_session (r c : Z) : Weight :=
  from_parts 20755000 6296 +w from_parts 16868215 0 *w c +w db_reads 4
    +w db_reads (sat_mul u64_max 1 c) +w db_writes (sat_mul u64_max 1 c) +w from_parts 0 2637 *w c
    +w from_parts 0 2599 *w r.

(** ** Inflation *)

Definition inflation_force_set_inflation_params : Weight :=
  from_parts 9652000 0 +w db_writes 1.
Definition inflation_force_inflation_recalculation : Weight :=
  from_parts 13762000 1549 +w db_reads 1.
Definition inflation_recalculation : Weight :=
  from_parts 13995000 1549 +w db_reads 1.
Definition inflation_hooks_without_recalculation : Weight :=
  from_parts 21749000 6196 +w db_reads 2 +w db_writes 1.

(** ** Inflation on Astar *)

Definition astar_inflation_force_set_inflation_params : Weight :=
  from_parts 6506000 0 +w db_writes 1.
Definition astar_inflation_force_inflation_recalculation : Weight :=
  from_parts 9858000 1549 +w db_reads 1.
Definition astar_inflation_recalculation : Weight :=
  from_parts 9083000 1549 +w db_reads 1.
Definition astar_inflation_hooks_without_recalculation : Weight :=
  from_parts 36480000 6196 +w db_reads 2 +w db_writes 2.

(** ** Inflation on Shiden *)

Definition shiden_inflation_force_set_inflation_params : Weight :=
  from_parts 6333000 0 +w db_writes 1.
Definition shiden_inflation_force_inflation_recalculation : Weight :=
  from_parts 9536000 1549 +w db_reads 1.
Definition shiden_inflation_recalculation : Weight :=
  from_parts 9131000 1549 +w db_reads 1.
Definition shiden_inflation_hooks_without_recalculation : Weight :=
  from_parts 35701000 6196 +w db_reads 2 +w db_writes 2.

(** ** XC asset config *)

Definition xc_asset_register_asset_location : Weight :=
  from_parts 16114000 0 +w from_parts 0 2493 +w db_reads 1 +w db_writes 3.
Definition xc_asset_set_asset_units_per_second : Weight :=
  from_parts 15551000 0 +w from_parts 0 2661 +w db_reads 1 +w db_writes 1.
Definition xc_asset_change_existing_asset_location : Weight :=
  from_parts 22572000 0 +w from_parts 0 5373 +w db_reads 2 +w db_writes 5.
Definition xc_asset_remove_payment_asset : Weight :=
  from_parts 10005000 0 +w from_parts 0 0 +w db_writes 1.
Definition xc_asset_remove_asset : Weight :=
  from_parts 18878000 0 +w from_parts 0 2987 +w db_reads 1 +w db_writes 4.

(** ** Unified accounts *)

Definition unified_claim_evm_address : Weight :=
  from_parts 91688000 3593 +w db_reads 5 +w db_writes 2.
Definition unified_claim_default_evm_address : Weight :=
  from_parts 41411000 3533 +w db_reads 2 +w db_writes 2.
Definition unified_to_account_id : Weight :=
  from_parts 5661000 3533 +w db_reads 1.
Definition unified_to_account_id_or_default : Weight :=
  from_parts 5700000 3533 +w db_reads 1.
Definition unified_to_h160 : Weight :=
  from_parts 5827000 3533 +w db_reads 1.
Definition unified_to_h160_or_default : Weight :=
  from_parts 5719000 3533 +w db_reads 1.

(** ** Dynamic EVM base fee *)

Definition base_fee_base_fee_per_gas_adjustment : Weight :=
  from_parts 8778000 1517 +w db_reads 2 +w db_writes 1.
Definition base_fee_set_base_fee_per_gas : Weight :=
  from_parts 8060000 0 +w db_writes 1.
Definition base_fee_min_gas_price : Weight :=
  from_parts 4399000 1517 +w db_reads 1.

(** ** Collective proxy *)

Definition proxy_execute_call : Weight :=
  from_parts 7950000 0.

(** ** Price aggregator *)

Definition prices_process_block_aggregated_values : Weight :=
  from_parts 3520000 0.
Definition prices_process_intermediate_aggregated_values : Weight :=
  from_parts 9297000 1602 +w db_reads 1 +w db_writes 1.

(** ** Ethereum checked *)

Definition checked_transact_without_apply : Weight :=
  from_parts 9229000 3010 +w db_reads 2 +w db_writes 1.

(** ** Vesting migration *)

Definition vesting_step (x : Z) : Weight :=
  from_parts 13513131 8054 +w from_parts 102389 0 *w x +w db_reads 2 +w db_writes 1.

(** ** Treasury *)

Definition treasury_spend_local : Weight :=
  from_parts 12681000 1887 +w db_reads 2 +w db_writes 3.
Definition treasury_propose_spend : Weight :=
  from_parts 25484000 1489 +w db_reads 1 +w db_writes 2.
Definition treasury_reject_proposal : Weight :=
  from_parts 27325000 3593 +w db_reads 2 +w db_writes 2.
Definition treasury_approve_proposal (p : Z) : Weight :=
  from_parts 11268438 3573 +w from_parts 70903 0 *w p +w db_reads 2 +w db_writes 1.
Definition treasury_remove_approval : Weight :=
  from_parts 6567000 1887 +w db_reads 1 +w db_writes 1.
Definition treasury_on_initialize_proposals (p : Z) : Weight :=
  from_parts 41451020 1887 +w from_parts 34410759 0 *w p +w db_reads 3
    +w db_reads (sat_mul u64_max 3 p) +w db_writes 3 +w db_writes (sat_mul u64_max 3 p)
    +w from_parts 0 5206 *w p.
Definition treasury_spend : Weight :=
  from_parts 14842000 3501 +w db_reads 2 +w db_writes 2.
Definition treasury_payout : Weight :=
  from_parts 61291000 6208 +w db_reads 5 +w db_writes 5.
Definition treasury_check_status : Weight :=
  from_parts 12480000 3538 +w db_reads 1 +w db_writes 1.
Definition treasury_void_spend : Weight :=
  from_parts 11427000 3538 +w db_reads 1 +w db_writes 1.

End benchmarks.

(** * Benchmarked weights of pallets of the runtimes

    [pallet_xcm.rs], [pallet_balances.rs] and [orml_oracle.rs] of
    [runtime/*/src/weights], and lists of them. *)

Section benchmarks.
Context `{!DbWeight}.

(** ** pallet_xcm on Astar *)

Definition astar_xcm_send : Weight :=
  from_parts 18086000 3541 +w db_reads 3 +w db_writes 1.
Definition astar_xcm_teleport_assets : Weight :=
  from_parts 18446744073709551000 0.
Definition astar_xcm_reserve_transfer_assets : Weight :=
  from_parts 81915000 3743 +w db_reads 5 +w db_writes 3.
Definition astar_xcm_transfer_assets : Weight :=
  from_parts 18446744073709551000 0.
Definition astar_xcm_execute : Weight :=
  from_parts 18446744073709551000 0.
Definition astar_xcm_force_xcm_version : Weight :=
  from_parts 7605000 0 +w db_writes 1.
Definition astar_xcm_force_default_xcm_version : Weight :=
  from_parts 2242000 0.
Definition astar_xcm_force_subscribe_version_notify : Weight :=
  from_parts 22715000 3541 +w db_reads 5 +w db_writes 4.
Definition astar_xcm_force_unsubscribe_version_notify : Weight :=
  from_parts 22558000 3600 +w db_reads 4 +w db_writes 3.
Definition astar_xcm_force_suspension : Weight :=
  from_parts 2209000 0 +w db_writes 1.
Definition astar_xcm_migrate_supported_version : Weight :=
  from_parts 14125000 13388 +w db_reads 5 +w db_writes 2.
Definition astar_xcm_migrate_version_notifiers : Weight :=
  from_parts 14127000 13392 +w db_reads 5 +w db_writes 2.
Definition astar_xcm_already_notified_target : Weight :=
  from_parts 15975000 15878 +w db_reads 6.
Definition astar_xcm_notify_current_targets : Weight :=
  from_parts 21813000 6050 +w db_reads 5 +w db_writes 2.
Definition astar_xcm_notify_target_migration_fail : Weight :=
  from_parts 10063000 10960 +w db_reads 4.
Definition astar_xcm_migrate_version_notify_targets : Weight :=
  from_parts 14689000 13399 +w db_reads 5 +w db_writes 2.
Definition astar_xcm_migrate_and_notify_old_targets : Weight :=
  from_parts 28846000 13475 +w db_reads 8 +w db_writes 3.
Definition astar_xcm_new_query : Weight :=
  from_parts 2286000 1485 +w db_reads 1 +w db_writes 2.
Definition astar_xcm_take_response : Weight :=
  from_parts 21873000 11041 +w db_reads 1 +w db_writes 1.
Definition astar_xcm_claim_assets : Weight :=
  from_parts 36995000 3489 +w db_reads 1 +w db_writes 1.

Definition astar_xcm_weights : list Weight :=
  [astar_xcm_send; astar_xcm_teleport_assets; astar_xcm_reserve_transfer_assets;
   astar_xcm_transfer_assets; astar_xcm_execute; astar_xcm_force_xcm_version;
   astar_xcm_force_default_xcm_version; astar_xcm_force_subscribe_version_notify;
   astar_xcm_force_unsubscribe_version_notify; astar_xcm_force_suspension;
   astar_xcm_migrate_supported_version; astar_xcm_migrate_version_notifiers;
   astar_xcm_already_notified_target; astar_xcm_notify_current_targets;
   astar_xcm_notify_target_migration_fail; astar_xcm_migrate_version_notify_targets;
   astar_xcm_migrate_and_notify_old_targets; astar_xcm_new_query; astar_xcm_take_response;
   astar_xcm_claim_assets].

(** ** pallet_xcm on Shibuya *)

Definition shibuya_xcm_send : Weight :=
  from_parts 17207000 3574 +w db_reads 3 +w db_writes 1.
Definition shibuya_xcm_teleport_assets : Weight :=
  from_parts 18446744073709551000 0.
Definition shibuya_xcm_reserve_transfer_assets : Weight :=
  from_parts 79116000 3813 +w db_reads 5 +w db_writes 3.
Definition shibuya_xcm_transfer_assets : Weight :=
  from_parts 18446744073709551000 0.
Definition shibuya_xcm_execute : Weight :=
  from_parts 18446744073709551000 0.
Definition shibuya_xcm_force_xcm_version : Weight :=
  from_parts 7174000 0 +w db_writes 1.
Definition shibuya_xcm_force_default_xcm_version : Weight :=
  from_parts 2279000 0.
Definition shibuya_xcm_force_subscribe_version_notify : Weight :=
  from_parts 22188000 3574 +w db_reads 5 +w db_writes 4.
Definition shibuya_xcm_force_unsubscribe_version_notify : Weight :=
  from_parts 21965000 3633 +w db_reads 4 +w db_writes 3.
Definition shibuya_xcm_force_suspension : Weight :=
  from_parts 2353000 0 +w db_writes 1.
Definition shibuya_xcm_migrate_supported_version : Weight :=
  from_parts 15096000 13387 +w db_reads 5 +w db_writes 2.
Definition shibuya_xcm_migrate_version_notifiers : Weight :=
  from_parts 15271000 13391 +w db_reads 5 +w db_writes 2.
Definition shibuya_xcm_already_notified_target : Weight :=
  from_parts 17231000 15915 +w db_reads 6.
Definition shibuya_xcm_notify_current_targets : Weight :=
  from_parts 21162000 6082 +w db_reads 5 +w db_writes 2.
Definition shibuya_xcm_notify_target_migration_fail : Weight :=
  from_parts 10999000 10959 +w db_reads 4.
Definition shibuya_xcm_migrate_version_notify_targets : Weight :=
  from_parts 15500000 13398 +w db_reads 5 +w db_writes 2.
Definition shibuya_xcm_migrate_and_notify_old_targets : Weight :=
  from_parts 28712000 13507 +w db_reads 8 +w db_writes 3.
Definition shibuya_xcm_new_query : Weight :=
  from_parts 2264000 1485 +w db_reads 1 +w db_writes 2.
Definition shibuya_xcm_take_response : Weight :=
  from_parts 21524000 11041 +w db_reads 1 +w db_writes 1.
Definition shibuya_xcm_claim_assets : Weight :=
  from_parts 35575000 3488 +w db_reads 1 +w db_writes 1.

Definition shibuya_xcm_weights : list Weight :=
  [shibuya_xcm_send; shibuya_xcm_teleport_assets; shibuya_xcm_reserve_transfer_assets;
   shibuya_xcm_transfer_assets; shibuya_xcm_execute; shibuya_xcm_force_xcm_version;
   shibuya_xcm_force_default_xcm_version; shibuya_xcm_force_subscribe_version_notify;
   shibuya_xcm_force_unsubscribe_version_notify; shibuya_xcm_force_suspension;
   shibuya_xcm_migrate_supported_version; shibuya_xcm_migrate_version_notifiers;
   shibuya_xcm_already_notified_target; shibuya_xcm_notify_current_targets;
   shibuya_xcm_notify_target_migration_fail; shibuya_xcm_migrate_version_notify_targets;
   shibuya_xcm_migrate_and_notify_old_targets; shibuya_xcm_new_query; shibuya_xcm_take_response;
   shibuya_xcm_claim_assets].

(** ** pallet_xcm on Shiden *)

Definition shiden_xcm_send : Weight :=
  from_parts 17559000 3541 +w db_reads 3 +w db_writes 1.
Definition shiden_xcm_teleport_assets : Weight :=
  from_parts 18446744073709551000 0.
Definition shiden_xcm_reserve_transfer_assets : Weight :=
  from_parts 80526000 3743 +w db_reads 5 +w db_writes 3.
Definition shiden_xcm_transfer_assets : Weight :=
  from_parts 18446744073709551000 0.
Definition shiden_xcm_execute : Weight :=
  from_parts 18446744073709551000 0.
Definition shiden_xcm_force_xcm_version : Weight :=
  from_parts 7595000 0 +w db_writes 1.
Definition shiden_xcm_force_default_xcm_version : Weight :=
  from_parts 2316000 0.
Definition shiden_xcm_force_subscribe_version_notify : Weight :=
  from_parts 22204000 3541 +w db_reads 5 +w db_writes 4.
Definition shiden_xcm_force_unsubscribe_version_notify : Weight :=
  from_parts 22168000 3600 +w db_reads 4 +w db_writes 3.
Definition shiden_xcm_force_suspension : Weight :=
  from_parts 2310000 0 +w db_writes 1.
Definition shiden_xcm_migrate_supported_version : Weight :=
  from_parts 14164000 13388 +w db_reads 5 +w db_writes 2.
Definition shiden_xcm_migrate_version_notifiers : Weight :=
  from_parts 14503000 13392 +w db_reads 5 +w db_writes 2.
Definition shiden_xcm_already_notified_target : Weight :=
  from_parts 16153000 15878 +w db_reads 6.
Definition shiden_xcm_notify_current_targets : Weight :=
  from_parts 21632000 6050 +w db_reads 5 +w db_writes 2.
Definition shiden_xcm_notify_target_migration_fail : Weight :=
  from_parts 10016000 10960 +w db_reads 4.
Definition shiden_xcm_migrate_version_notify_targets : Weight :=
  from_parts 14759000 13399 +w db_reads 5 +w db_writes 2.
Definition shiden_xcm_migrate_and_notify_old_targets : Weight :=
  from_parts 28693000 13475 +w db_reads 8 +w db_writes 3.
Definition shiden_xcm_new_query : Weight :=
  from_parts 2182000 1485 +w db_reads 1 +w db_writes 2.
Definition shiden_xcm_take_response : Weight :=
  from_parts 22429000 11041 +w db_reads 1 +w db_writes 1.
Definition shiden_xcm_claim_assets : Weight :=
  from_parts 36883000 3489 +w db_reads 1 +w db_writes 1.

Definition shiden_xcm_weights : list Weight :=
  [shiden_xcm_send; shiden_xcm_teleport_assets; shiden_xcm_reserve_transfer_assets;
   shiden_xcm_transfer_assets; shiden_xcm_execute; shiden_xcm_force_xcm_version;
   shiden_xcm_force_default_xcm_version; shiden_xcm_force_subscribe_version_notify;
   shiden_xcm_force_unsubscribe_version_notify; shiden_xcm_force_suspension;
   shiden_xcm_migrate_supported_version; shiden_xcm_migrate_version_notifiers;
   shiden_xcm_already_notified_target; shiden_xcm_notify_current_targets;
   shiden_xcm_notify_target_migration_fail; shiden_xcm_migrate_version_notify_targets;
   shiden_xcm_migrate_and_notify_old_targets; shiden_xcm_new_query; shiden_xcm_take_response;
   shiden_xcm_claim_assets].

(** ** pallet_balances on Shibuya *)

Definition shibuya_balances_transfer_allow_death : Weight :=
  from_parts 46305000 3593 +w db_reads 2 +w db_writes 1.
Definition shibuya_balances_transfer_keep_alive : Weight :=
  from_parts 32025000 3593 +w db_reads 1 +w db_writes 1.
Definition shibuya_balances_force_set_balance_creating : Weight :=
  from_parts 12660000 3593 +w db_reads 1 +w db_writes 1.
Definition shibuya_balances_force_set_balance_killing : Weight :=
  from_parts 23776000 3593 +w db_reads 2 +w db_writes 1.
Definition shibuya_balances_force_transfer : Weight :=
  from_parts 48812000 6196 +w db_reads 3 +w db_writes 2.
Definition shibuya_balances_transfer_all : Weight :=
  from_parts 46527000 3593 +w db_reads 2 +w db_writes 1.
Definition shibuya_balances_force_unreserve : Weight :=
  from_parts 15204000 3593 +w db_reads 1 +w db_writes 1.
Definition shibuya_balances_upgrade_accounts (u : Z) : Weight :=
  from_parts 14615000 990 +w from_parts 10977662 0 *w u +w db_reads (sat_mul u64_max 1 u)
    +w db_writes (sat_mul u64_max 1 u) +w from_parts 0 2603 *w u.
Definition shibuya_balances_force_adjust_total_issuance : Weight :=
  from_parts 5975000 0.
Definition shibuya_balances_burn_allow_death : Weight :=
  from_parts 37000000 3533 +w db_reads 1.
Definition shibuya_balances_burn_keep_alive : Weight :=
  from_parts 22000000 0.

Definition shibuya_balances_weights (u : Z) : list Weight :=
  [shibuya_balances_transfer_allow_death; shibuya_balances_transfer_keep_alive;
   shibuya_balances_force_set_balance_creating; shibuya_balances_force_set_balance_killing;
   shibuya_balances_force_transfer; shibuya_balances_transfer_all;
   shibuya_balances_force_unreserve; shibuya_balances_upgrade_accounts u;
   shibuya_balances_force_adjust_total_issuance; shibuya_balances_burn_allow_death;
   shibuya_balances_burn_keep_alive].

(** ** pallet_balances on Local *)

Definition local_balances_transfer_allow_death : Weight :=
  from_parts 46228000 3593 +w db_reads 2 +w db_writes 1.
Definition local_balances_transfer_keep_alive : Weight :=
  from_parts 32124000 3593 +w db_reads 1 +w db_writes 1.
Definition local_balances_force_set_balance_creating : Weight :=
  from_parts 13286000 3593 +w db_reads 1 +w db_writes 1.
Definition local_balances_force_set_balance_killing : Weight :=
  from_parts 23442000 3593 +w db_reads 2 +w db_writes 1.
Definition local_balances_force_transfer : Weight :=
  from_parts 47709000 6196 +w db_reads 3 +w db_writes 2.
Definition local_balances_transfer_all : Weight :=
  from_parts 45117000 3593 +w db_reads 2 +w db_writes 1.
Definition local_balances_force_unreserve : Weight :=
  from_parts 15038000 3593 +w db_reads 1 +w db_writes 1.
Definition local_balances_upgrade_accounts (u : Z) : Weight :=
  from_parts 14807000 990 +w from_parts 10808686 0 *w u +w db_reads (sat_mul u64_max 1 u)
    +w db_writes (sat_mul u64_max 1 u) +w from_parts 0 2603 *w u.
Definition local_balances_force_adjust_total_issuance : Weight :=
  from_parts 6179000 0.
Definition local_balances_burn_allow_death : Weight :=
  from_parts 36000000 3533 +w db_reads 1.
Definition local_balances_burn_keep_alive : Weight :=
  from_parts 22000000 0.

Definition local_balances_weights (u : Z) : list Weight :=
  [local_balances_transfer_allow_death; local_balances_transfer_keep_alive;
   local_balances_force_set_balance_creating; local_balances_force_set_balance_killing;
   local_balances_force_transfer; local_balances_transfer_all; local_balances_force_unreserve;
   local_balances_upgrade_accounts u; local_balances_force_adjust_total_issuance;
   local_balances_burn_allow_death; local_balances_burn_keep_alive].

(** ** orml_oracle on Astar *)

Definition astar_oracle_feed_values (x : Z) : Weight :=
  from_parts 14697887 8634 +w from_parts 10246544 0 *w x +w db_reads 3
    +w db_reads (sat_mul u64_max 4 x) +w db_writes 1 +w db_writes (sat_mul u64_max 1 x).
Definition astar_oracle_on_finalize : Weight :=
  from_parts 966000 0 +w db_writes 1.

Definition astar_oracle_weights (x : Z) : list Weight :=
  [astar_oracle_feed_values x; astar_oracle_on_finalize].

(** ** orml_oracle on Shibuya *)

Definition shibuya_oracle_feed_values (x : Z) : Weight :=
  from_parts 14824586 8634 +w from_parts 10148634 0 *w x +w db_reads 3
    +w db_reads (sat_mul u64_max 4 x) +w db_writes 1 +w db_writes (sat_mul u64_max 1 x).
Definition shibuya_oracle_on_finalize : Weight :=
  from_parts 914000 0 +w db_writes 1.

Definition shibuya_oracle_weights (x : Z) : list Weight :=
  [shibuya_oracle_feed_values x; shibuya_oracle_on_finalize].

(** ** orml_oracle on Shiden *)

Definition shiden_oracle_feed_values (x : Z) : Weight :=
  from_parts 15206594 8634 +w from_parts 9173537 0 *w x +w db_reads 3
    +w db_reads (sat_mul u64_max 4 x) +w db_writes 1 +w db_writes (sat_mul u64_max 1 x).
Definition shiden_oracle_on_finalize : Weight :=
  from_parts 950000 0 +w db_writes 1.

Definition shiden_oracle_weights (x : Z) : list Weight :=
  [shiden_oracle_feed_values x; shiden_oracle_on_finalize].

End benchmarks.

(** * Benchmarked weights of the assets

    [runtime/*/src/weights/pallet_assets.rs] of the four runtimes, and the list of
    them by the lengths of their arguments. *)

Section benchmarks.
Context `{!DbWeight}.

(** ** pallet_assets on Astar *)

Definition astar_assets_create : Weight :=
  from_parts 32046000 4194 +w db_reads 3 +w db_writes 3.
Definition astar_assets_force_create : Weight :=
  from_parts 19195000 4054 +w db_reads 2 +w db_writes 2.
Definition astar_assets_start_destroy : Weight :=
  from_parts 13497000 3687 +w db_reads 1 +w db_writes 1.
Definition astar_assets_destroy_accounts (c : Z) : Weight :=
  from_parts 14733000 3687 +w from_parts 11161705 0 *w c +w db_reads 2
    +w db_reads (sat_mul u64_max 2 c) +w db_writes 1 +w db_writes (sat_mul u64_max 2 c)
    +w from_parts 0 2621 *w c.
Definition astar_assets_destroy_approvals (a : Z) : Weight :=
  from_parts 17528000 3687 +w from_parts 11635204 0 *w a +w db_reads 2
    +w db_reads (sat_mul u64_max 1 a) +w db_writes 1 +w db_writes (sat_mul u64_max 1 a)
    +w from_parts 0 2635 *w a.
Definition astar_assets_finish_destroy : Weight :=
  from_parts 13097000 3687 +w db_reads 2 +w db_writes 2.
Definition astar_assets_mint : Weight :=
  from_parts 19855000 3687 +w db_reads 2 +w db_writes 2.
Definition astar_assets_burn : Weight :=
  from_parts 28339000 3687 +w db_reads 2 +w db_writes 2.
Definition astar_assets_transfer : Weight :=
  from_parts 38736000 6232 +w db_reads 4 +w db_writes 4.
Definition astar_assets_transfer_keep_alive : Weight :=
  from_parts 35495000 6232 +w db_reads 4 +w db_writes 4.
Definition astar_assets_force_transfer : Weight :=
  from_parts 38914000 6232 +w db_reads 4 +w db_writes 4.
Definition astar_assets_freeze : Weight :=
  from_parts 16877000 3687 +w db_reads 2 +w db_writes 1.
Definition astar_assets_thaw : Weight :=
  from_parts 16733000 3687 +w db_reads 2 +w db_writes 1.
Definition astar_assets_freeze_asset : Weight :=
  from_parts 13176000 3687 +w db_reads 1 +w db_writes 1.
Definition astar_assets_thaw_asset : Weight :=
  from_parts 12949000 3687 +w db_reads 1 +w db_writes 1.
Definition astar_assets_transfer_ownership : Weight :=
  from_parts 11965000 3687 +w db_reads 2 +w db_writes 1.
Definition astar_assets_set_team : Weight :=
  from_parts 10957000 3687 +w db_reads 1 +w db_writes 1.
Definition astar_assets_set_metadata (n s : Z) : Weight :=
  from_parts 25756770 3687 +w from_parts 3256 0 *w n +w db_reads 2 +w db_writes 1.
Definition astar_assets_clear_metadata : Weight :=
  from_parts 26118000 3687 +w db_reads 2 +w db_writes 1.
Definition astar_assets_force_set_metadata (n s : Z) : Weight :=
  from_parts 11298133 3687 +w from_parts 1844 0 *w n +w from_parts 1980 0 *w s +w db_reads 2
    +w db_writes 1.
Definition astar_assets_force_clear_metadata : Weight :=
  from_parts 25453000 3687 +w db_reads 2 +w db_writes 1.
Definition astar_assets_force_asset_status : Weight :=
  from_parts 10283000 3687 +w db_reads 1 +w db_writes 1.
Definition astar_assets_approve_transfer : Weight :=
  from_parts 27995000 3687 +w db_reads 2 +w db_writes 2.
Definition astar_assets_transfer_approved : Weight :=
  from_parts 55753000 6232 +w db_reads 5 +w db_writes 5.
Definition astar_assets_cancel_approval : Weight :=
  from_parts 30645000 3687 +w db_reads 2 +w db_writes 2.
Definition astar_assets_force_cancel_approval : Weight :=
  from_parts 31201000 3687 +w db_reads 2 +w db_writes 2.
Definition astar_assets_set_min_balance : Weight :=
  from_parts 11410000 3687 +w db_reads 1 +w db_writes 1.
Definition astar_assets_touch : Weight :=
  from_parts 29666000 3687 +w db_reads 3 +w db_writes 3.
Definition astar_assets_touch_other : Weight :=
  from_parts 27744000 3687 +w db_reads 2 +w db_writes 2.
Definition astar_assets_refund : Weight :=
  from_parts 28738000 3687 +w db_reads 3 +w db_writes 3.
Definition astar_assets_refund_other : Weight :=
  from_parts 26760000 3687 +w db_reads 2 +w db_writes 2.
Definition astar_assets_block : Weight :=
  from_parts 16575000 3687 +w db_reads 2 +w db_writes 1.

Definition astar_assets_weights (c a n s : Z) : list Weight :=
  [astar_assets_create; astar_assets_force_create; astar_assets_start_destroy;
   astar_assets_destroy_accounts c; astar_assets_destroy_approvals a;
   astar_assets_finish_destroy; astar_assets_mint; astar_assets_burn; astar_assets_transfer;
   astar_assets_transfer_keep_alive; astar_assets_force_transfer; astar_assets_freeze;
   astar_assets_thaw; astar_assets_freeze_asset; astar_assets_thaw_asset;
   astar_assets_transfer_ownership; astar_assets_set_team; astar_assets_set_metadata n s;
   astar_assets_clear_metadata; astar_assets_force_set_metadata n s;
   astar_assets_force_clear_metadata; astar_assets_force_asset_status;
   astar_assets_approve_transfer; astar_assets_transfer_approved; astar_assets_cancel_approval;
   astar_assets_force_cancel_approval; astar_assets_set_min_balance; astar_assets_touch;
   astar_assets_touch_other; astar_assets_refund; astar_assets_refund_other; astar_assets_block].

(** ** pallet_assets on Shibuya *)

Definition shibuya_assets_create : Weight :=
  from_parts 31333000 4260 +w db_reads 3 +w db_writes 3.
Definition shibuya_assets_force_create : Weight :=
  from_parts 19017000 4120 +w db_reads 2 +w db_writes 2.
Definition shibuya_assets_start_destroy : Weight :=
  from_parts 13557000 3687 +w db_reads 1 +w db_writes 1.
Definition shibuya_assets_destroy_accounts (c : Z) : Weight :=
  from_parts 14255000 3687 +w from_parts 12034182 0 *w c +w db_reads 2
    +w db_reads (sat_mul u64_max 3 c) +w db_writes 1 +w db_writes (sat_mul u64_max 2 c)
    +w from_parts 0 2621 *w c.
Definition shibuya_assets_destroy_approvals (a : Z) : Weight :=
  from_parts 17767000 3687 +w from_parts 11416197 0 *w a +w db_reads 2
    +w db_reads (sat_mul u64_max 1 a) +w db_writes 1 +w db_writes (sat_mul u64_max 1 a)
    +w from_parts 0 2635 *w a.
Definition shibuya_assets_finish_destroy : Weight :=
  from_parts 13230000 3687 +w db_reads 2 +w db_writes 2.
Definition shibuya_assets_mint : Weight :=
  from_parts 19891000 3687 +w db_reads 2 +w db_writes 2.
Definition shibuya_assets_burn : Weight :=
  from_parts 31336000 3687 +w db_reads 3 +w db_writes 2.
Definition shibuya_assets_transfer : Weight :=
  from_parts 41777000 6232 +w db_reads 5 +w db_writes 4.
Definition shibuya_assets_transfer_keep_alive : Weight :=
  from_parts 34729000 6232 +w db_reads 4 +w db_writes 4.
Definition shibuya_assets_force_transfer : Weight :=
  from_parts 41530000 6232 +w db_reads 5 +w db_writes 4.
Definition shibuya_assets_freeze : Weight :=
  from_parts 17197000 3687 +w db_reads 2 +w db_writes 1.
Definition shibuya_assets_thaw : Weight :=
  from_parts 17242000 3687 +w db_reads 2 +w db_writes 1.
Definition shibuya_assets_freeze_asset : Weight :=
  from_parts 13490000 3687 +w db_reads 1 +w db_writes 1.
Definition shibuya_assets_thaw_asset : Weight :=
  from_parts 13161000 3687 +w db_reads 1 +w db_writes 1.
Definition shibuya_assets_transfer_ownership : Weight :=
  from_parts 12081000 3687 +w db_reads 2 +w db_writes 1.
Definition shibuya_assets_set_team : Weight :=
  from_parts 10862000 3687 +w db_reads 1 +w db_writes 1.
Definition shibuya_assets_set_metadata (n s : Z) : Weight :=
  from_parts 25578616 3687 +w from_parts 1031 0 *w s +w db_reads 2 +w db_writes 1.
Definition shibuya_assets_clear_metadata : Weight :=
  from_parts 26200000 3687 +w db_reads 2 +w db_writes 1.
Definition shibuya_assets_force_set_metadata (n s : Z) : Weight :=
  from_parts 11276674 3687 +w from_parts 963 0 *w s +w db_reads 2 +w db_writes 1.
Definition shibuya_assets_force_clear_metadata : Weight :=
  from_parts 25239000 3687 +w db_reads 2 +w db_writes 1.
Definition shibuya_assets_force_asset_status : Weight :=
  from_parts 10445000 3687 +w db_reads 1 +w db_writes 1.
Definition shibuya_assets_approve_transfer : Weight :=
  from_parts 27943000 3687 +w db_reads 2 +w db_writes 2.
Definition shibuya_assets_transfer_approved : Weight :=
  from_parts 54041000 6232 +w db_reads 5 +w db_writes 5.
Definition shibuya_assets_cancel_approval : Weight :=
  from_parts 30163000 3687 +w db_reads 2 +w db_writes 2.
Definition shibuya_assets_force_cancel_approval : Weight :=
  from_parts 30377000 3687 +w db_reads 2 +w db_writes 2.
Definition shibuya_assets_set_min_balance : Weight :=
  from_parts 11180000 3687 +w db_reads 1 +w db_writes 1.
Definition shibuya_assets_touch : Weight :=
  from_parts 29566000 3687 +w db_reads 3 +w db_writes 3.
Definition shibuya_assets_touch_other : Weight :=
  from_parts 27474000 3687 +w db_reads 2 +w db_writes 2.
Definition shibuya_assets_refund : Weight :=
  from_parts 28897000 3687 +w db_reads 3 +w db_writes 3.
Definition shibuya_assets_refund_other : Weight :=
  from_parts 26636000 3687 +w db_reads 2 +w db_writes 2.
Definition shibuya_assets_block : Weight :=
  from_parts 16817000 3687 +w db_reads 2 +w db_writes 1.

Definition shibuya_assets_weights (c a n s : Z) : list Weight :=
  [shibuya_assets_create; shibuya_assets_force_create; shibuya_assets_start_destroy;
   shibuya_assets_destroy_accounts c; shibuya_assets_destroy_approvals a;
   shibuya_assets_finish_destroy; shibuya_assets_mint; shibuya_assets_burn;
   shibuya_assets_transfer; shibuya_assets_transfer_keep_alive; shibuya_assets_force_transfer;
   shibuya_assets_freeze; shibuya_assets_thaw; shibuya_assets_freeze_asset;
   shibuya_assets_thaw_asset; shibuya_assets_transfer_ownership; shibuya_assets_set_team;
   shibuya_assets_set_metadata n s; shibuya_assets_clear_metadata;
   shibuya_assets_force_set_metadata n s; shibuya_assets_force_clear_metadata;
   shibuya_assets_force_asset_status; shibuya_assets_approve_transfer;
   shibuya_assets_transfer_approved; shibuya_assets_cancel_approval;
   shibuya_assets_force_cancel_approval; shibuya_assets_set_min_balance; shibuya_assets_touch;
   shibuya_assets_touch_other; shibuya_assets_refund; shibuya_assets_refund_other;
   shibuya_assets_block].

(** ** pallet_assets on Shiden *)

Definition shiden_assets_create : Weight :=
  from_parts 32646000 4194 +w db_reads 3 +w db_writes 3.
Definition shiden_assets_force_create : Weight :=
  from_parts 19458000 4054 +w db_reads 2 +w db_writes 2.
Definition shiden_assets_start_destroy : Weight :=
  from_parts 13748000 3687 +w db_reads 1 +w db_writes 1.
Definition shiden_assets_destroy_accounts (c : Z) : Weight :=
  from_parts 14467000 3687 +w from_parts 11042747 0 *w c +w db_reads 2
    +w db_reads (sat_mul u64_max 2 c) +w db_writes 1 +w db_writes (sat_mul u64_max 2 c)
    +w from_parts 0 2621 *w c.
Definition shiden_assets_destroy_approvals (a : Z) : Weight :=
  from_parts 18219000 3687 +w from_parts 11907866 0 *w a +w db_reads 2
    +w db_reads (sat_mul u64_max 1 a) +w db_writes 1 +w db_writes (sat_mul u64_max 1 a)
    +w from_parts 0 2635 *w a.
Definition shiden_assets_finish_destroy : Weight :=
  from_parts 13377000 3687 +w db_reads 2 +w db_writes 2.
Definition shiden_assets_mint : Weight :=
  from_parts 20300000 3687 +w db_reads 2 +w db_writes 2.
Definition shiden_assets_burn : Weight :=
  from_parts 29465000 3687 +w db_reads 2 +w db_writes 2.
Definition shiden_assets_transfer : Weight :=
  from_parts 39811000 6232 +w db_reads 4 +w db_writes 4.
Definition shiden_assets_transfer_keep_alive : Weight :=
  from_parts 35882000 6232 +w db_reads 4 +w db_writes 4.
Definition shiden_assets_force_transfer : Weight :=
  from_parts 39545000 6232 +w db_reads 4 +w db_writes 4.
Definition shiden_assets_freeze : Weight :=
  from_parts 17280000 3687 +w db_reads 2 +w db_writes 1.
Definition shiden_assets_thaw : Weight :=
  from_parts 17040000 3687 +w db_reads 2 +w db_writes 1.
Definition shiden_assets_freeze_asset : Weight :=
  from_parts 13389000 3687 +w db_reads 1 +w db_writes 1.
Definition shiden_assets_thaw_asset : Weight :=
  from_parts 13046000 3687 +w db_reads 1 +w db_writes 1.
Definition shiden_assets_transfer_ownership : Weight :=
  from_parts 12353000 3687 +w db_reads 2 +w db_writes 1.
Definition shiden_assets_set_team : Weight :=
  from_parts 11390000 3687 +w db_reads 1 +w db_writes 1.
Definition shiden_assets_set_metadata (n s : Z) : Weight :=
  from_parts 26389577 3687 +w db_reads 2 +w db_writes 1.
Definition shiden_assets_clear_metadata : Weight :=
  from_parts 26777000 3687 +w db_reads 2 +w db_writes 1.
Definition shiden_assets_force_set_metadata (n s : Z) : Weight :=
  from_parts 11564920 3687 +w from_parts 456 0 *w n +w from_parts 3015 0 *w s +w db_reads 2
    +w db_writes 1.
Definition shiden_assets_force_clear_metadata : Weight :=
  from_parts 26257000 3687 +w db_reads 2 +w db_writes 1.
Definition shiden_assets_force_asset_status : Weight :=
  from_parts 10551000 3687 +w db_reads 1 +w db_writes 1.
Definition shiden_assets_approve_transfer : Weight :=
  from_parts 29003000 3687 +w db_reads 2 +w db_writes 2.
Definition shiden_assets_transfer_approved : Weight :=
  from_parts 55628000 6232 +w db_reads 5 +w db_writes 5.
Definition shiden_assets_cancel_approval : Weight :=
  from_parts 31119000 3687 +w db_reads 2 +w db_writes 2.
Definition shiden_assets_force_cancel_approval : Weight :=
  from_parts 31389000 3687 +w db_reads 2 +w db_writes 2.
Definition shiden_assets_set_min_balance : Weight :=
  from_parts 11593000 3687 +w db_reads 1 +w db_writes 1.
Definition shiden_assets_touch : Weight :=
  from_parts 30792000 3687 +w db_reads 3 +w db_writes 3.
Definition shiden_assets_touch_other : Weight :=
  from_parts 28339000 3687 +w db_reads 2 +w db_writes 2.
Definition shiden_assets_refund : Weight :=
  from_parts 29617000 3687 +w db_reads 3 +w db_writes 3.
Definition shiden_assets_refund_other : Weight :=
  from_parts 27917000 3687 +w db_reads 2 +w db_writes 2.
Definition shiden_assets_block : Weight :=
  from_parts 17521000 3687 +w db_reads 2 +w db_writes 1.

Definition shiden_assets_weights (c a n s : Z) : list Weight :=
  [shiden_assets_create; shiden_assets_force_create; shiden_assets_start_destroy;
   shiden_assets_destroy_accounts c; shiden_assets_destroy_approvals a;
   shiden_assets_finish_destroy; shiden_assets_mint; shiden_assets_burn; shiden_assets_transfer;
   shiden_assets_transfer_keep_alive; shiden_assets_force_transfer; shiden_assets_freeze;
   shiden_assets_thaw; shiden_assets_freeze_asset; shiden_assets_thaw_asset;
   shiden_assets_transfer_ownership; shiden_assets_set_team; shiden_assets_set_metadata n s;
   shiden_assets_clear_metadata; shiden_assets_force_set_metadata n s;
   shiden_assets_force_clear_metadata; shiden_assets_force_asset_status;
   shiden_assets_approve_transfer; shiden_assets_transfer_approved;
   shiden_assets_cancel_approval; shiden_assets_force_cancel_approval;
   shiden_assets_set_min_balance; shiden_assets_touch; shiden_assets_touch_other;
   shiden_assets_refund; shiden_assets_refund_other; shiden_assets_block].

(** ** pallet_assets on Local *)

Definition local_assets_create : Weight :=
  from_parts 35760000 4124 +w db_reads 3 +w db_writes 3.
Definition local_assets_force_create : Weight :=
  from_parts 20348000 3984 +w db_reads 2 +w db_writes 2.
Definition local_assets_start_destroy : Weight :=
  from_parts 14059000 3687 +w db_reads 1 +w db_writes 1.
Definition local_assets_destroy_accounts (c : Z) : Weight :=
  from_parts 18110000 3687 +w from_parts 11623553 0 *w c +w db_reads 2
    +w db_reads (sat_mul u64_max 2 c) +w db_writes 1 +w db_writes (sat_mul u64_max 2 c)
    +w from_parts 0 2621 *w c.
Definition local_assets_destroy_approvals (a : Z) : Weight :=
  from_parts 18372000 3687 +w from_parts 13662720 0 *w a +w db_reads 2
    +w db_reads (sat_mul u64_max 1 a) +w db_writes 1 +w db_writes (sat_mul u64_max 1 a)
    +w from_parts 0 2635 *w a.
Definition local_assets_finish_destroy : Weight :=
  from_parts 17418000 3687 +w db_reads 2 +w db_writes 2.
Definition local_assets_mint : Weight :=
  from_parts 27014000 3687 +w db_reads 2 +w db_writes 2.
Definition local_assets_burn : Weight :=
  from_parts 31113000 3687 +w db_reads 2 +w db_writes 2.
Definition local_assets_transfer : Weight :=
  from_parts 43309000 6232 +w db_reads 4 +w db_writes 4.
Definition local_assets_transfer_keep_alive : Weight :=
  from_parts 38330000 6232 +w db_reads 4 +w db_writes 4.
Definition local_assets_force_transfer : Weight :=
  from_parts 43561000 6232 +w db_reads 4 +w db_writes 4.
Definition local_assets_freeze : Weight :=
  from_parts 17516000 3687 +w db_reads 2 +w db_writes 1.
Definition local_assets_thaw : Weight :=
  from_parts 17547000 3687 +w db_reads 2 +w db_writes 1.
Definition local_assets_freeze_asset : Weight :=
  from_parts 14069000 3687 +w db_reads 1 +w db_writes 1.
Definition local_assets_thaw_asset : Weight :=
  from_parts 13770000 3687 +w db_reads 1 +w db_writes 1.
Definition local_assets_transfer_ownership : Weight :=
  from_parts 16343000 3687 +w db_reads 2 +w db_writes 1.
Definition local_assets_set_team : Weight :=
  from_parts 14818000 3687 +w db_reads 1 +w db_writes 1.
Definition local_assets_set_metadata (n s : Z) : Weight :=
  from_parts 29181263 3687 +w db_reads 2 +w db_writes 1.
Definition local_assets_clear_metadata : Weight :=
  from_parts 28826000 3687 +w db_reads 2 +w db_writes 1.
Definition local_assets_force_set_metadata (n s : Z) : Weight :=
  from_parts 15107642 3687 +w from_parts 6608 0 *w n +w from_parts 2783 0 *w s +w db_reads 2
    +w db_writes 1.
Definition local_assets_force_clear_metadata : Weight :=
  from_parts 28323000 3687 +w db_reads 2 +w db_writes 1.
Definition local_assets_force_asset_status : Weight :=
  from_parts 14431000 3687 +w db_reads 1 +w db_writes 1.
Definition local_assets_approve_transfer : Weight :=
  from_parts 31715000 3687 +w db_reads 2 +w db_writes 2.
Definition local_assets_transfer_approved : Weight :=
  from_parts 63718000 6232 +w db_reads 5 +w db_writes 5.
Definition local_assets_cancel_approval : Weight :=
  from_parts 34640000 3687 +w db_reads 2 +w db_writes 2.
Definition local_assets_force_cancel_approval : Weight :=
  from_parts 34693000 3687 +w db_reads 2 +w db_writes 2.
Definition local_assets_set_min_balance : Weight :=
  from_parts 15271000 3687 +w db_reads 1 +w db_writes 1.
Definition local_assets_touch : Weight :=
  from_parts 34856000 3687 +w db_reads 3 +w db_writes 3.
Definition local_assets_touch_other : Weight :=
  from_parts 31331000 3687 +w db_reads 2 +w db_writes 2.
Definition local_assets_refund : Weight :=
  from_parts 31941000 3687 +w db_reads 3 +w db_writes 3.
Definition local_assets_refund_other : Weight :=
  from_parts 28966000 3687 +w db_reads 2 +w db_writes 2.
Definition local_assets_block : Weight :=
  from_parts 17959000 3687 +w db_reads 2 +w db_writes 1.

Definition local_assets_weights (c a n s : Z) : list Weight :=
  [local_assets_create; local_assets_force_create; local_assets_start_destroy;
   local_assets_destroy_accounts c; local_assets_destroy_approvals a;
   local_assets_finish_destroy; local_assets_mint; local_assets_burn; local_assets_transfer;
   local_assets_transfer_keep_alive; local_assets_force_transfer; local_assets_freeze;
   local_assets_thaw; local_assets_freeze_asset; local_assets_thaw_asset;
   local_assets_transfer_ownership; local_assets_set_team; local_assets_set_metadata n s;
   local_assets_clear_metadata; local_assets_force_set_metadata n s;
   local_assets_force_clear_metadata; local_assets_force_asset_status;
   local_assets_approve_transfer; local_assets_transfer_approved; local_assets_cancel_approval;
   local_assets_force_cancel_approval; local_assets_set_min_balance; local_assets_touch;
   local_assets_touch_other; local_assets_refund; local_assets_refund_other; local_assets_block].

End benchmarks.
