(* ===== verification/DispatchWeights.v ===== *)
(** * What dApp staking weighs

    The weights that the calls of dApp staking declare and report
    ([#[pallet::weight]] and [PostDispatchInfo] in
    [pallets/dapp-staking/src/lib.rs]) and the weights its hooks return.  The second
    part proves what they guarantee. *)

From S2P Require Import Prelude Frame Weights Primitives StakeAmount EraInfo AccountLedger.
From S2P Require Import SingularStakingInfo ContractStakeAmount EraRewardSpan Tiers Protocol.
From S2P Require Import PalletState DAppStaking TierAssignment EraHandler Invariant Preservation.
From S2P Require Import Reachability History Registry DAppStakingBenchmarks.

Section weights.
Context {AccountId Origin W : Type} `{Countable AccountId}.
Context `{!SpArithmetic, !Currency AccountId W, !FrameSystem AccountId Origin W}.
Context `{!Observer W, !StakingRewardHandler AccountId W, !AccountCheck AccountId W}.
Context `{!PrivilegedOrigins Origin, !PrefixOrder AccountId}.
Context `{!PriceProvider W, !TierSlots, !UnspecifiedOrder}.
Context `{!DbWeight, !DAppStakingWeightInfo}.
Context (cfg : Config).

Abbreviation St := (Storage AccountId W).

(** ** Calls *)

Definition claim_staker_rewards_declared : Weight :=
  let max_span_length := EraRewardSpanLength cfg in
  weight_max_of (weight_claim_staker_rewards_ongoing_period max_span_length)
    (weight_claim_staker_rewards_past_period max_span_length).

Definition declared_weight (call : Call AccountId) : Weight :=
  match call with
  | call_maintenance_mode _ => weight_maintenance_mode
  | call_register _ _ => weight_register
  | call_set_dapp_reward_beneficiary _ _ => weight_set_dapp_reward_beneficiary
  | call_set_dapp_owner _ _ => weight_set_dapp_owner
  | call_unbond_and_unstake _ _ => weight_unlock
  | call_withdraw_unbonded => weight_claim_unlocked (MaxNumberOfStakedContracts cfg)
  | call_unregister _ => weight_unregister
  | call_lock _ => weight_max_of weight_lock_new_account weight_lock_existing_account
  | call_unlock _ => weight_unlock
  | call_claim_unlocked => weight_claim_unlocked (MaxNumberOfStakedContracts cfg)
  | call_relock_unlocking => weight_relock_unlocking
  | call_stake _ _ => weight_stake
  | call_unstake _ _ => weight_unstake
  | call_claim_staker_rewards => claim_staker_rewards_declared
  | call_claim_bonus_reward _ => weight_claim_bonus_reward
  | call_claim_dapp_reward _ _ => weight_claim_dapp_reward
  | call_unstake_from_unregistered _ => weight_unstake_from_unregistered
  | call_cleanup_expired_entries => weight_cleanup_expired_entries (MaxNumberOfStakedContracts cfg)
  | call_force _ => weight_force
  | call_claim_staker_rewards_for _ => claim_staker_rewards_declared
  | call_claim_bonus_reward_for _ _ => weight_claim_bonus_reward
  end.

(** The weights that calls report when they succeed. *)
Definition lock_weight (account : AccountId) (s : St) : Weight :=
  if AccountLedger.is_empty (ledger_of s account)
  then weight_lock_new_account else weight_lock_existing_account.

Definition claim_unlocked_weight (account : AccountId) (s : St) : Weight :=
  let ledger := (AccountLedger.claim_unlocked (saturated_into u32_max (block_number (world s)))
                   (ledger_of s account)).2 in
  let removed_entries := if AccountLedger.is_empty ledger then contract_stake_count ledger else 0 in
  weight_claim_unlocked removed_entries.

(** The entries that [cleanup_expired_entries] deletes. *)
Definition expired_entries (account : AccountId) (s : St) : Z :=
  let current_period := Protocol.period_number (ActiveProtocolState s) in
  let threshold_period := oldest_claimable_period cfg current_period in
  Z.of_nat (length (filter (fun kv => is_expired current_period threshold_period (snd kv))
    (map_to_list (stakers_of s account)))).
Definition cleanup_expired_entries_weight (account : AccountId) (s : St) : Weight :=
  weight_cleanup_expired_entries (saturated_into u32_max (expired_entries account s)).

(** The rewards of [internal_claim_staker_rewards_for], and the end of their
    period when it is known. *)
Definition claimed_rewards (account : AccountId) (s : St)
    : Result (list (Z * Z) * option Z) DispatchError :=
  let ledger := ledger_of s account in
  let! staked_period := ok_or (staked_period ledger) (Module NoClaimableRewards) in
  let! earliest_staked_era := ok_or (earliest_staked_era ledger) (Module InternalClaimStakerError) in
  let! era_rewards := ok_or (EraRewards s !! era_reward_span_index cfg earliest_staked_era)
                        (Module NoClaimableRewards) in
  let! (last_period_era, period_end) := claim_span s staked_period in
  let last_claim_era := Z.min (last_era era_rewards) last_period_era in
  let! (rewards_iter, ledger) :=
    map_err claim_error (claim_up_to_era last_claim_era period_end ledger) in
  let! pairs := ok_or (iter_collect (iter_fuel rewards_iter) rewards_iter) NonTermination in
  let! (rewards, _) := foldl (staker_reward_step era_rewards) (Ok ([], 0)) pairs in
  Ok (rewards, period_end).

Definition claim_staker_rewards_weight (account : AccountId) (s : St) : Weight :=
  match claimed_rewards account s with
  | Ok (rewards, period_end) =>
      let rewards_len := saturated_into u32_max (Z.of_nat (length rewards)) in
      match period_end with
      | Some _ => weight_claim_staker_rewards_past_period rewards_len
      | None => weight_claim_staker_rewards_ongoing_period rewards_len
      end
  | Err _ => claim_staker_rewards_declared
  end.

(** [None]: the declared weight stands. *)
Definition actual_weight (o : Origin) (call : Call AccountId) (s : St) : option Weight :=
  match ensure_signed (W := W) o, call with
  | Some account, call_lock _ => Some (lock_weight account s)
  | Some account, (call_withdraw_unbonded | call_claim_unlocked) =>
      Some (claim_unlocked_weight account s)
  | Some account, call_claim_staker_rewards => Some (claim_staker_rewards_weight account s)
  | Some _, call_claim_staker_rewards_for account => Some (claim_staker_rewards_weight account s)
  | Some account, call_cleanup_expired_entries => Some (cleanup_expired_entries_weight account s)
  | _, _ => None
  end.

(** ** Hooks *)

Section hooks.
(** What the observer returns, by the era. *)
Context (observer_weight : Z -> Weight).

Definition era_and_period_weight (now : Z) (s : St) : Weight :=
  let state := ActiveProtocolState s in
  let consumed_weight := db_reads 1 in
  if maintenance state then consumed_weight
  else
    let consumed_weight :=
      if next_era_start state =? sat_add u32_max now 1
      then consumed_weight +w observer_weight (sat_add u32_max (era state) 1)
      else consumed_weight in
    if negb (is_new_era state now) then consumed_weight
    else
      match current_subperiod state with
      | Voting => consumed_weight +w weight_on_initialize_voting_to_build_and_earn
      | BuildAndEarn =>
          (* the counter does not depend on the reward pool *)
          let counter := snd (get_dapp_tier_assignment_and_rewards cfg (era state)
                                (Protocol.period_number state) 0 s) in
          let consumed_weight := consumed_weight +w weight_dapp_tier_assignment counter in
          if is_next_period (period_info state) (sat_add u32_max (era state) 1)
          then consumed_weight +w weight_on_initialize_build_and_earn_to_voting
          else consumed_weight +w weight_on_initialize_build_and_earn_to_build_and_earn
      end.

Definition on_initialize_weight (now : Z) (s : St) : Weight :=
  era_and_period_weight (saturated_into u32_max now) s.
End hooks.

(** [on_idle] with the weight that remains, and what it returns. *)
Definition on_idle_weighted (remaining_weight : Weight) (s : St) : Weight * St :=
  let enough := negb (weight_any_lt remaining_weight weight_on_idle_cleanup) in
  (if negb enough then weight_zero
   else if negb (has_pending_cleanups (HistoryCleanupMarker s)) then db_reads 1
   else weight_on_idle_cleanup,
   on_idle cfg enough s).
End weights.

(** * What the weights of dApp staking guarantee

    A call never reports more weight than it declares, as long as an account
    has no more staking entries than it may have, and the idle clean-up stays
    within the weight it is given. *)

(** The benchmarks grow with their component, and a clean-up weighs at least
    the read of its marker. *)
Record weight_info_grows `{!DbWeight, !DAppStakingWeightInfo} : Prop := {
  grows_claim_unlocked x y : 0 <= x <= y -> weight_le (weight_claim_unlocked x) (weight_claim_unlocked y);
  grows_past x y : 0 <= x <= y ->
    weight_le (weight_claim_staker_rewards_past_period x) (weight_claim_staker_rewards_past_period y);
  grows_ongoing x y : 0 <= x <= y ->
    weight_le (weight_claim_staker_rewards_ongoing_period x) (weight_claim_staker_rewards_ongoing_period y);
  grows_cleanup x y : 0 <= x <= y ->
    weight_le (weight_cleanup_expired_entries x) (weight_cleanup_expired_entries y);
  grows_tiers x y : 0 <= x <= y ->
    weight_le (weight_dapp_tier_assignment x) (weight_dapp_tier_assignment y);
  nonneg_voting : weight_nonneg weight_on_initialize_voting_to_build_and_earn;
  grows_idle : weight_le (db_reads 1) weight_on_idle_cleanup;
}.
Arguments weight_info_grows {_} _.

Section bounds.
Context {AccountId Origin W : Type} `{Countable AccountId}.
Context `{!SpArithmetic, !Currency AccountId W, !FrameSystem AccountId Origin W}.
Context `{!Observer W, !StakingRewardHandler AccountId W, !AccountCheck AccountId W}.
Context `{!PrivilegedOrigins Origin, !PrefixOrder AccountId}.
Context `{!PriceProvider W, !TierSlots, !UnspecifiedOrder}.
Context `{!CurrencyLaws AccountId W, !RewardHandlerLaws AccountId W, !ObserverLaws AccountId W}.
Context `{!UnspecifiedOrderLaws}.
Context `{!DbWeight, !DAppStakingWeightInfo}.
Context (cfg : Config) (Hcfg : config_ok cfg) (Hgrow : weight_info_grows _).

Abbreviation St := (Storage AccountId W).

(** The reward loop makes at most one reward of a pair. *)
Lemma rewards_counted sp pairs rs sum rs' sum' :
  foldl (staker_reward_step sp) (Ok (rs, sum)) pairs = Ok (rs', sum') ->
  (length rs' <= length rs + length pairs)%nat.
Proof.
  revert rs sum. induction pairs as [|[e x] pairs IH]; intros rs sum Hf; simpl in Hf.
  - injection Hf as <- <-. lia.
  - destruct (EraRewardSpan.get sp e) as [r|]; simpl in Hf.
    + destruct (_ || _); apply IH in Hf; rewrite ?length_app in *; simpl in *; lia.
    + assert (Herr : forall l, foldl (staker_reward_step sp) (Err (Module InternalClaimStakerError)) l =
        Err (Module InternalClaimStakerError)) by (by induction l).
      by rewrite Herr in Hf.
Qed.

(** A claim pays at most one span of rewards. *)
Lemma claimed_rewards_bounded (s : St) a rewards pe :
  reachable cfg s -> current_era s < u32_max -> claimed_rewards cfg a s = Ok (rewards, pe) ->
  Z.of_nat (length rewards) <= EraRewardSpanLength cfg.
Proof.
  intros Hr Hmax Hc. pose proof (reachable_hinv cfg Hcfg s Hr Hmax) as Hh.
  pose proof (reachable_inv cfg Hcfg s Hr Hmax) as Hinv. unfold claimed_rewards in Hc.
  destruct (staked_period _) as [q|] eqn:Hq; [|done]. cbn [ok_or] in Hc.
  destruct (earliest_staked_era _) as [first|] eqn:Hfirst; [|done]. cbn [ok_or] in Hc.
  destruct (EraRewards s !! _) as [sp|] eqn:Hsp; [|done]. cbn [ok_or] in Hc.
  destruct (claim_span s q) as [[last pe']|] eqn:Hspan; [|done].
  destruct (claim_up_to_era _ _ _) as [[it l']|] eqn:Hclaim; [|done]. cbn [map_err] in Hc.
  destruct (iter_collect _ _) as [pairs|] eqn:Hpairs; [|done]. cbn [ok_or] in Hc.
  destruct (foldl _ _ _) as [[rs sum]|] eqn:Hfold; [|done]. injection Hc as -> ->.
  destruct (ledger_history cfg s a Hh q first Hq Hfirst) as (Hx1 & Hqp & _ & _).
  destruct (hi_spans cfg s Hh _ sp Hsp) as [_ Hwf Hne Hf Hl].
  destruct (span_index_facts cfg Hcfg first ltac:(lia)) as (Hk0 & Hk1 & _).
  assert (Hlast : 0 <= last).
  { unfold claim_span in Hspan. destruct (_ =? _); [injection Hspan as <- _; ulia|].
    destruct (PeriodEnd s !! q) as [i|] eqn:Hi; [|done]. simpl in Hspan. injection Hspan as <- _.
    pose proof (hi_final cfg s Hh q i Hi). pose proof (hi_oldest cfg s Hh). lia. }
  pose proof (li_wf _ _ _ _ (ledger_of_inv cfg Hcfg s a Hinv)) as Hlwf.
  set (e := Z.min (last_era sp) last) in *.
  assert (He : 0 <= e < u32_max).
  { subst e. pose proof (wf_first _ _ Hwf). rewrite (wf_last _ _ Hwf Hne) in Hl |- *.
    destruct (span sp); [done|]. simpl in *. lia. }
  pose proof (claim_up_to_era_spec _ e first pe _ Hlwf Hfirst ltac:(lia) He) as Hspec.
  rewrite Hclaim in Hspec. destruct Hspec as (Hle & _ & Hit & _).
  rewrite Hpairs in Hit. injection Hit as ->. apply rewards_counted in Hfold.
  unfold owed in Hfold. rewrite length_fmap, length_seqZ in Hfold. simpl in Hfold. subst e. lia.
Qed.

(** What a claim pays is what its weight is computed from. *)
Lemma claim_reports (s s' : St) a :
  internal_claim_staker_rewards_for cfg a s = Ok s' ->
  exists rewards pe s1, claimed_rewards cfg a s = Ok (rewards, pe) /\
    s' = foldl (fun s '(era, reward) => deposit_event (Reward a era reward) s) s1 rewards.
Proof.
  intros Hs. unfold internal_claim_staker_rewards_for, claimed_rewards in *.
  destruct (staked_period _) as [q|]; [|done]. cbn [ok_or] in *.
  destruct (_ <=? q); [|done].
  destruct (earliest_staked_era _) as [first|]; [|done]. cbn [ok_or] in *.
  destruct (EraRewards s !! _) as [sp|]; [|done]. cbn [ok_or] in *.
  destruct (claim_span s q) as [[last pe]|]; [|done].
  destruct (claim_up_to_era _ _ _) as [[it l']|]; [|done]. cbn [map_err] in *.
  destruct (iter_collect _ _) as [pairs|]; [|done]. cbn [ok_or] in *.
  destruct (foldl _ _ _) as [[rs sum]|]; [|done].
  destruct (payout_reward _ _ _) as [w|]; [|done]. cbn [ok_or] in *.
  destruct (update_ledger _ _ _) as [s1|]; [|done]. injection Hs as <-. by exists rs, pe, s1.
Qed.

Lemma claim_weight_le (s s' : St) a :
  reachable cfg s -> current_era s < u32_max -> internal_claim_staker_rewards_for cfg a s = Ok s' ->
  weight_le (claim_staker_rewards_weight cfg a s) (claim_staker_rewards_declared cfg).
Proof.
  intros Hr Hmax Hs. apply claim_reports in Hs as (rewards & pe & _ & Hc & _).
  unfold claim_staker_rewards_weight, claim_staker_rewards_declared. rewrite Hc.
  pose proof (claimed_rewards_bounded s a rewards pe Hr Hmax Hc) as Hlen.
  assert (Hx : 0 <= saturated_into u32_max (Z.of_nat (length rewards)) <= EraRewardSpanLength cfg) by ulia.
  destruct pe.
  - etransitivity; [by apply grows_past|apply weight_max_le_r].
  - etransitivity; [by apply grows_ongoing|apply weight_max_le_l].
Qed.

Lemma ledger_count (s : St) a :
  reachable cfg s -> current_era s < u32_max ->
  0 <= contract_stake_count (ledger_of s a) <= MaxNumberOfStakedContracts cfg.
Proof.
  intros Hr Hmax. pose proof (reachable_inv cfg Hcfg s Hr Hmax) as Hinv.
  destruct (ledger_of_inv cfg Hcfg s a Hinv) as [Hwf _ Hc _ _ _]. split; [|done].
  apply (AccountLedger.wf_count _ _ Hwf).
Qed.

(** A call that succeeds reports at most the weight it declares; the clean-up
    does so where the account has no more expired entries than it may have
    entries. *)
Theorem reported_weight_declared (s s' : St) (o : Origin) (call : Call AccountId) (w : Weight) :
  reachable cfg s -> current_era s < u32_max -> dispatch cfg o call s = Ok s' ->
  actual_weight cfg o call s = Some w ->
  (forall a, call = call_cleanup_expired_entries -> ensure_signed (W := W) o = Some a ->
     expired_entries cfg a s <= MaxNumberOfStakedContracts cfg) ->
  weight_le w (declared_weight cfg call).
Proof.
  intros Hr Hmax Hs Hw Hclean. unfold actual_weight in Hw.
  destruct (ensure_signed o) as [a|] eqn:Ho; [|done].
  assert (Hun : weight_le (claim_unlocked_weight a s)
    (weight_claim_unlocked (MaxNumberOfStakedContracts cfg))).
  { apply grows_claim_unlocked; [done|]. pose proof (ledger_count s a Hr Hmax) as Hc.
    destruct (AccountLedger.is_empty _); simpl; lia. }
  destruct call; try done; injection Hw as <-; simpl in *.
  - exact Hun.
  - unfold lock_weight. case_match; [apply weight_max_le_l|apply weight_max_le_r].
  - exact Hun.
  - unfold claim_staker_rewards, signed in Hs. rewrite Ho in Hs. destruct (ensure_pallet_enabled s); [|done].
    by eapply claim_weight_le.
  - apply grows_cleanup; [done|]. specialize (Hclean a eq_refl eq_refl).
    unfold expired_entries in *. ulia.
  - unfold claim_staker_rewards_for, signed in Hs. rewrite Ho in Hs. destruct (ensure_pallet_enabled s); [|done].
    by eapply claim_weight_le.
Qed.

(** ** Hooks *)

(** The idle clean-up uses no more than what remains, and does nothing when
    that is too little. *)
Theorem idle_within_remaining (remaining : Weight) (s : St) :
  weight_nonneg remaining ->
  let '(w, s') := on_idle_weighted cfg remaining s in
  weight_le w remaining /\ (weight_any_lt remaining weight_on_idle_cleanup = true -> s' = s).
Proof.
  intros Hrem. unfold on_idle_weighted. destruct (weight_any_lt _ _) eqn:Hlt; simpl; [done|].
  apply weight_any_lt_false in Hlt. split; [|done]. case_match; [|done].
  etransitivity; [apply grows_idle|]; done.
Qed.

Lemma counter_bound (l : list (Z * ContractStakeAmount)) n :
  0 <= n -> 0 <= foldl (fun n _ => sat_add u16_max n 1) n l <= n + Z.of_nat (length l).
Proof.
  revert n. induction l as [|x l IH]; intros n Hn; simpl; [lia|].
  specialize (IH (sat_add u16_max n 1) ltac:(ulia)). ulia.
Qed.

Lemma tier_counter_bound (s : St) e p x :
  reachable cfg s ->
  0 <= snd (get_dapp_tier_assignment_and_rewards cfg e p x s) <= MaxNumberOfContracts cfg.
Proof.
  intros Hr. assert (Hm : 0 <= MaxNumberOfContracts cfg).
  { destruct Hcfg as [Hi _ _ _ _]. unfold integrity_test in Hi. rewrite !andb_true_iff in Hi. lia. }
  pose proof (reachable_rinv cfg s Hm Hr) as Hri. destruct (registry_counts cfg s Hri) as (_ & Hc & _).
  pose proof (ri_size cfg s Hri) as Hsz.
  assert (Heq : snd (get_dapp_tier_assignment_and_rewards cfg e p x s) =
    foldl (fun n _ => sat_add u16_max n 1) 0 (contract_stake_iter (ContractStake s))).
  { unfold get_dapp_tier_assignment_and_rewards. by destruct (assign_tiers _ _ _ _ _ _ _). }
  rewrite Heq. pose proof (counter_bound (contract_stake_iter (ContractStake s)) 0 ltac:(lia)) as Hb.
  rewrite (Permutation_length (contract_stake_iter_perm _)), length_map_to_list in Hb. lia.
Qed.

(** The most that the change of an era weighs, by what happens in it. *)
Definition era_change_max (observer_max : Weight) : Weight :=
  let consumed_weight := db_reads 1 +w observer_max in
  let tiers := consumed_weight +w weight_dapp_tier_assignment (MaxNumberOfContracts cfg) in
  weight_max_of (consumed_weight +w weight_on_initialize_voting_to_build_and_earn)
    (weight_max_of (tiers +w weight_on_initialize_build_and_earn_to_voting)
      (tiers +w weight_on_initialize_build_and_earn_to_build_and_earn)).

Lemma weight_add_more a b : weight_le a weight_max -> weight_nonneg b -> weight_le a (a +w b).
Proof. unfold weight_nonneg, weight_le, weight_saturating_add, weight_max, sat_add. simpl. lia. Qed.

Lemma weight_add_max a b : weight_le (a +w b) weight_max.
Proof. unfold weight_le, weight_saturating_add, weight_max, sat_add. simpl. lia. Qed.

Lemma on_initialize_bounded observer_weight observer_max now (s : St) :
  reachable cfg s -> (forall e, weight_le (observer_weight e) observer_max) -> weight_nonneg observer_max ->
  weight_le (on_initialize_weight cfg observer_weight now s) (era_change_max observer_max).
Proof.
  intros Hr Hobs Hpos. unfold on_initialize_weight, era_and_period_weight, era_change_max. cbv zeta.
  set (c1 := db_reads 1 +w observer_max).
  assert (Hread : weight_le (db_reads 1) c1).
  { apply weight_add_more; [|done]. unfold weight_le, db_reads, weight_max, sat_mul. simpl. lia. }
  assert (Hvote : weight_le c1 (c1 +w weight_on_initialize_voting_to_build_and_earn)).
  { apply weight_add_more; [apply weight_add_max|apply (nonneg_voting Hgrow)]. }
  assert (Hdone : forall w, weight_le w c1 -> weight_le w (weight_max_of
    (c1 +w weight_on_initialize_voting_to_build_and_earn)
    (weight_max_of (c1 +w weight_dapp_tier_assignment (MaxNumberOfContracts cfg) +w
        weight_on_initialize_build_and_earn_to_voting)
      (c1 +w weight_dapp_tier_assignment (MaxNumberOfContracts cfg) +w
        weight_on_initialize_build_and_earn_to_build_and_earn)))).
  { intros w Hw. etransitivity; [exact Hw|]. etransitivity; [exact Hvote|]. apply weight_max_le_l. }
  destruct (maintenance _); [by apply Hdone|]. set (c2 := if _ =? _ then _ else _).
  assert (Hc2 : weight_le c2 c1).
  { unfold c2. destruct (_ =? _); [|done]. by apply weight_add_le. }
  destruct (negb _); [by apply Hdone|]. destruct (current_subperiod _).
  { etransitivity; [|apply weight_max_le_l]. by apply weight_add_le. }
  etransitivity; [|apply weight_max_le_r].
  set (counter := snd _). assert (Htier : weight_le (weight_dapp_tier_assignment counter)
    (weight_dapp_tier_assignment (MaxNumberOfContracts cfg)))
    by (by apply (grows_tiers Hgrow), tier_counter_bound).
  destruct (is_next_period _ _).
  - etransitivity; [|apply weight_max_le_l]. apply weight_add_le; [by apply weight_add_le|done].
  - etransitivity; [|apply weight_max_le_r]. apply weight_add_le; [by apply weight_add_le|done].
Qed.
End bounds.
