(* ===== verification/RuntimeWeights.v ===== *)
(** * Weights in the runtimes

    The benchmarks, configurations and block weights of the four runtimes put
    together: every call of dApp staking and the change of an era fit into a
    block.  The second part is the calls of the other pallets. *)

From S2P Require Import Prelude Frame Weights Primitives StakeAmount EraInfo AccountLedger.
From S2P Require Import SingularStakingInfo ContractStakeAmount EraRewardSpan Tiers Protocol.
From S2P Require Import PalletState DAppStaking TierAssignment EraHandler Invariant Preservation.
From S2P Require Import Reachability History Registry ExampleWorld Findings Inflation.
From S2P Require Import CollatorSelection CollatorSafety XcmWeightBounds.
From S2P Require Import DAppStakingBenchmarks PalletBenchmarks DispatchWeights.
From S2P Require RuntimeAstar RuntimeShibuya RuntimeShiden RuntimeLocal Runtimes.

(** ** The benchmarks grow *)

Lemma pallet_grows `{!DbWeight} : db_ok -> weight_info_grows pallet_dapp_benchmarks.
Proof.
  intros Hdb. split; try (intros x y Hxy); cbv beta iota delta [pallet_dapp_benchmarks]; simpl;
    unfold pallet_claim_unlocked, pallet_claim_staker_rewards_past_period,
      pallet_claim_staker_rewards_ongoing_period, pallet_cleanup_expired_entries,
      pallet_dapp_tier_assignment, pallet_on_initialize_voting_to_build_and_earn,
      pallet_on_idle_cleanup;
    first [weight_mono | weight_solve].
Qed.
Lemma astar_grows `{!DbWeight} : db_ok -> weight_info_grows astar_dapp_benchmarks.
Proof.
  intros Hdb. split; try (intros x y Hxy); cbv beta iota delta [astar_dapp_benchmarks]; simpl;
    unfold astar_claim_unlocked, astar_claim_staker_rewards_past_period,
      astar_claim_staker_rewards_ongoing_period, astar_cleanup_expired_entries,
      astar_dapp_tier_assignment, astar_on_initialize_voting_to_build_and_earn,
      astar_on_idle_cleanup;
    first [weight_mono | weight_solve].
Qed.
Lemma shibuya_grows `{!DbWeight} : db_ok -> weight_info_grows shibuya_dapp_benchmarks.
Proof.
  intros Hdb. split; try (intros x y Hxy); cbv beta iota delta [shibuya_dapp_benchmarks]; simpl;
    unfold shibuya_claim_unlocked, shibuya_claim_staker_rewards_past_period,
      shibuya_claim_staker_rewards_ongoing_period, shibuya_cleanup_expired_entries,
      shibuya_dapp_tier_assignment, shibuya_on_initialize_voting_to_build_and_earn,
      shibuya_on_idle_cleanup;
    first [weight_mono | weight_solve].
Qed.
Lemma shiden_grows `{!DbWeight} : db_ok -> weight_info_grows shiden_dapp_benchmarks.
Proof.
  intros Hdb. split; try (intros x y Hxy); cbv beta iota delta [shiden_dapp_benchmarks]; simpl;
    unfold shiden_claim_unlocked, shiden_claim_staker_rewards_past_period,
      shiden_claim_staker_rewards_ongoing_period, shiden_cleanup_expired_entries,
      shiden_dapp_tier_assignment, shiden_on_initialize_voting_to_build_and_earn,
      shiden_on_idle_cleanup;
    first [weight_mono | weight_solve].
Qed.

(** ** The runtimes *)

(** [block_before_new_era] of the inflation pallet, the observer of dApp
    staking in every runtime: the weight it returns. *)
Definition inflation_observer_weight {V} `{!DbWeight} (recalculation : Weight) (s : InflationStorage V)
    (new_era : Z) : Weight :=
  if recalculation_era (ActiveInflationConfig s) <=? new_era
  then recalculation +w db_writes 1 else weight_zero.

(** What the weights of a runtime are made of. *)
Record RuntimeWeights := mkRuntimeWeights {
  rw_config : Config;
  rw_benchmarks : DAppStakingWeightInfo;
  rw_recalculation : Weight;
  rw_block : Weight;
}.

(** The development runtime has a block of one second of any size. *)
Definition local_maximum_block_weight : Weight := from_parts WEIGHT_REF_TIME_PER_SECOND u64_max.

Definition runtime_weights `{!DbWeight} (pov : Z) : list RuntimeWeights :=
  [mkRuntimeWeights RuntimeAstar.dapp_staking_config astar_dapp_benchmarks
     astar_inflation_recalculation (astar_maximum_block_weight pov);
   mkRuntimeWeights RuntimeShibuya.dapp_staking_config shibuya_dapp_benchmarks
     inflation_recalculation (shibuya_maximum_block_weight pov);
   mkRuntimeWeights RuntimeShiden.dapp_staking_config shiden_dapp_benchmarks
     shiden_inflation_recalculation (shiden_maximum_block_weight pov);
   mkRuntimeWeights RuntimeLocal.dapp_staking_config pallet_dapp_benchmarks
     inflation_recalculation local_maximum_block_weight].

(** The prices that bound those of the database. *)
Definition top_prices : DbWeight := {| db_read := 25000000; db_write := 100000000 |}.

(** A part of a block, in percent. *)
Definition percent_of (n : Z) (w : Weight) : Weight :=
  mkWeight (n * ref_time w / 100) (n * proof_size w / 100).

(** ** They fit *)

(** Every price is at most the top one. *)
Lemma db_reads_top `{!DbWeight} n : db_ok -> 0 <= n ->
  weight_le (db_reads n) (@db_reads top_prices n).
Proof. intros [[? ?] _] ?. unfold weight_le, db_reads, sat_mul. simpl. nia. Qed.
Lemma db_writes_top `{!DbWeight} n : db_ok -> 0 <= n ->
  weight_le (db_writes n) (@db_writes top_prices n).
Proof. intros [_ [? ?]] ?. unfold weight_le, db_writes, sat_mul. simpl. nia. Qed.

Lemma percent_mono n a b : 0 <= n -> weight_le a b -> weight_le (percent_of n a) (percent_of n b).
Proof. intros Hn [? ?]. split; simpl; apply Z.div_le_mono; nia. Qed.

Lemma weight_max_of_le a b c d :
  weight_le a c -> weight_le b d -> weight_le (weight_max_of a b) (weight_max_of c d).
Proof. unfold weight_le, weight_max_of. simpl. lia. Qed.

(** The weight of a call or hook, in the benchmarks. *)
Ltac weight_fields :=
  cbv beta iota zeta delta [declared_weight claim_staker_rewards_declared era_change_max
      astar_dapp_benchmarks shibuya_dapp_benchmarks shiden_dapp_benchmarks pallet_dapp_benchmarks
      weight_maintenance_mode weight_register weight_set_dapp_reward_beneficiary
      weight_set_dapp_owner weight_unregister weight_lock_new_account
      weight_lock_existing_account weight_unlock weight_claim_unlocked weight_relock_unlocking
      weight_stake weight_unstake weight_claim_staker_rewards_past_period
      weight_claim_staker_rewards_ongoing_period weight_claim_bonus_reward
      weight_claim_dapp_reward weight_unstake_from_unregistered weight_cleanup_expired_entries
      weight_force weight_on_initialize_voting_to_build_and_earn
      weight_on_initialize_build_and_earn_to_voting
      weight_on_initialize_build_and_earn_to_build_and_earn weight_dapp_tier_assignment
      weight_on_idle_cleanup weight_step].

(** A benchmark, with the prices of the database and with the top ones. *)
Ltac benchmark_top :=
  lazymatch goal with
  | |- weight_le (weight_max_of _ _) _ => apply weight_max_of_le; benchmark_top
  | |- weight_le (_ +w _) _ => apply weight_add_le; benchmark_top
  | |- weight_le (db_reads _) _ => apply db_reads_top; [done|unfold sat_mul; lia]
  | |- weight_le (db_writes _) _ => apply db_writes_top; [done|unfold sat_mul; lia]
  | H : weight_le ?a ?b |- weight_le ?a ?b => exact H
  | |- weight_le (from_parts _ _) _ => reflexivity
  | |- weight_le (_ *w _) _ => reflexivity
  | |- weight_le ?w _ =>
      let rec name t := lazymatch t with ?g _ => name g | _ => t end in
      let b := name w in unfold b; benchmark_top
  end.

Section top.
Context {A : Type} `{!DbWeight} (Hdb : db_ok) (cfg : Config) (recalculation recalculation' : Weight).
Context (Hstaked : 0 <= MaxNumberOfStakedContracts cfg) (Hspan : 0 <= EraRewardSpanLength cfg).
Context (Hdapps : 0 <= MaxNumberOfContracts cfg) (Hrec : weight_le recalculation recalculation').

Definition weights_top (low top : DAppStakingWeightInfo) : Prop :=
  (forall call : Call A, weight_le (@declared_weight A low cfg call) (@declared_weight A top cfg call)) /\
  weight_le (@era_change_max _ low cfg recalculation) (@era_change_max top_prices top cfg recalculation').

Lemma astar_top : weights_top astar_dapp_benchmarks (@astar_dapp_benchmarks top_prices).
Proof. split; [intros []|]; weight_fields; benchmark_top. Qed.
Lemma shibuya_top : weights_top shibuya_dapp_benchmarks (@shibuya_dapp_benchmarks top_prices).
Proof. split; [intros []|]; weight_fields; benchmark_top. Qed.
Lemma shiden_top : weights_top shiden_dapp_benchmarks (@shiden_dapp_benchmarks top_prices).
Proof. split; [intros []|]; weight_fields; benchmark_top. Qed.
Lemma pallet_top : weights_top pallet_dapp_benchmarks (@pallet_dapp_benchmarks top_prices).
Proof. split; [intros []|]; weight_fields; benchmark_top. Qed.
End top.

(** A block is at least one of 5 MiB. *)
Definition smallest_pov : Z := 5 * 1024 * 1024.

(** A call takes at most one percent of a block, and a change of the era and
    its observer at most twenty. *)
Definition weights_fit `{!DbWeight} (r : RuntimeWeights) (A : Type) (block : Weight) : Prop :=
  (forall call : Call A,
     weight_le (@declared_weight A (rw_benchmarks r) (rw_config r) call) (percent_of 1 block)) /\
  weight_le (@era_change_max _ (rw_benchmarks r) (rw_config r) (rw_recalculation r +w db_writes 1))
    (percent_of 20 block).

(** The closed weights, evaluated. *)
Lemma top_weights_fit A :
  Forall (fun r => @weights_fit top_prices r A (rw_block r)) (@runtime_weights top_prices smallest_pov).
Proof. repeat constructor; try destruct call; vm_compute; discriminate. Qed.

Lemma recalculation_top `{!DbWeight} : db_ok ->
  weight_le (astar_inflation_recalculation +w db_writes 1)
    (@astar_inflation_recalculation top_prices +w @db_writes top_prices 1) /\
  weight_le (inflation_recalculation +w db_writes 1)
    (@inflation_recalculation top_prices +w @db_writes top_prices 1) /\
  weight_le (shiden_inflation_recalculation +w db_writes 1)
    (@shiden_inflation_recalculation top_prices +w @db_writes top_prices 1).
Proof. intros Hdb. split_and!; benchmark_top. Qed.

Lemma recalculation_nonneg `{!DbWeight} : db_ok ->
  weight_nonneg (astar_inflation_recalculation +w db_writes 1) /\
  weight_nonneg (inflation_recalculation +w db_writes 1) /\
  weight_nonneg (shiden_inflation_recalculation +w db_writes 1).
Proof.
  intros Hdb. unfold astar_inflation_recalculation, inflation_recalculation, shiden_inflation_recalculation.
  split_and!; auto 8 with rust lia.
Qed.

Lemma fit_from_top `{!DbWeight} A cfg low (top : DAppStakingWeightInfo) rec rec' (small block : Weight) :
  weights_top (A := A) cfg (rec +w db_writes 1) (rec' +w @db_writes top_prices 1) low top ->
  @weights_fit top_prices (mkRuntimeWeights cfg top rec' small) A small -> weight_le small block ->
  weights_fit (mkRuntimeWeights cfg low rec block) A block.
Proof.
  intros [Hc He] [Hc' He'] Hb. split.
  - intros call. etransitivity; [apply Hc|]. etransitivity; [apply Hc'|]. by apply percent_mono.
  - etransitivity; [apply He|]. etransitivity; [apply He'|]. by apply percent_mono.
Qed.

Lemma runtimes_fit `{!DbWeight} A pov : db_ok -> smallest_pov <= pov <= u64_max ->
  Forall (fun r => weights_fit r A (rw_block r)) (runtime_weights pov).
Proof.
  intros Hdb Hpov. pose proof (top_weights_fit A) as Ht. pose proof (recalculation_top Hdb) as (Ha & Hi & Hs).
  unfold runtime_weights in *. rewrite !Forall_cons in *. destruct Ht as (H1 & H2 & H3 & H4 & _).
  split_and!; [| | | |done]; cbn [rw_block] in *.
  - eapply fit_from_top; [by apply astar_top|exact H1|]. split; simpl; [done|lia].
  - eapply fit_from_top; [by apply shibuya_top|exact H2|]. split; simpl; [done|lia].
  - eapply fit_from_top; [by apply shiden_top|exact H3|]. split; simpl; [done|lia].
  - eapply fit_from_top; [by apply pallet_top|exact H4|]. done.
Qed.

Section blocks.
Context {AccountId Origin W V : Type} `{Countable AccountId}.
Context `{!SpArithmetic, !Currency AccountId W, !FrameSystem AccountId Origin W}.
Context `{!Observer W, !StakingRewardHandler AccountId W, !AccountCheck AccountId W}.
Context `{!PrivilegedOrigins Origin, !PrefixOrder AccountId}.
Context `{!PriceProvider W, !TierSlots, !UnspecifiedOrder, !UnspecifiedOrderLaws}.
Context `{!DbWeight}.

(** What the observer returns is at most a recalculation. *)
Lemma observer_weight_le recalculation (s : InflationStorage V) e :
  weight_nonneg (recalculation +w db_writes 1) ->
  weight_le (inflation_observer_weight recalculation s e) (recalculation +w db_writes 1).
Proof. intros Hn. unfold inflation_observer_weight. by case_match. Qed.

(** The hook of a runtime whose weights fit, in a reachable state. *)
Lemma era_change_fits (r : RuntimeWeights) now (i : InflationStorage V) (s : Storage AccountId W) :
  config_ok (rw_config r) -> @weight_info_grows _ (rw_benchmarks r) ->
  weights_fit r AccountId (rw_block r) -> weight_nonneg (rw_recalculation r +w db_writes 1) ->
  reachable (rw_config r) s ->
  let _ := rw_benchmarks r in
  weight_le (on_initialize_weight (rw_config r)
      (inflation_observer_weight (rw_recalculation r) i) now s) (percent_of 20 (rw_block r)).
Proof.
  intros Hc Hg [_ Hfit] Hn Hr b. etransitivity; [|exact Hfit]. subst b.
  apply (@on_initialize_bounded _ _ _ _ _ _ _ _ _ _ _ _ _ _ _ _ _ _ (rw_benchmarks r)); try done.
  intros e. by apply observer_weight_le.
Qed.

Lemma runtimes_well_weighed pov : db_ok -> smallest_pov <= pov <= u64_max ->
  Forall (fun r => config_ok (rw_config r) /\ @weight_info_grows _ (rw_benchmarks r) /\
    weights_fit r AccountId (rw_block r) /\ weight_nonneg (rw_recalculation r +w db_writes 1))
    (runtime_weights pov).
Proof.
  intros Hdb Hpov. pose proof (recalculation_nonneg Hdb) as (Ha & Hi & Hs).
  pose proof (runtimes_fit AccountId pov Hdb Hpov) as Hf. unfold runtime_weights in *.
  rewrite !Forall_cons in *. destruct Hf as (Hfa & Hfy & Hfn & Hfl & _).
  split_and!; [..|done]; first [exact Hfa|exact Hfy|exact Hfn|exact Hfl|exact Ha|exact Hi|exact Hs
    |by apply astar_grows|by apply shibuya_grows|by apply shiden_grows|by apply pallet_grows
    |by repeat constructor].
Qed.

(** C37: every call of dApp staking declares at most a hundredth of a block of
    the runtime it is called in, and the start of a block that changes the era
    and the period, assigns the tiers and has the inflation recalculated
    returns at most a fifth of one, in every reachable state. *)
Theorem runtime_weights_fit pov :
  db_ok -> smallest_pov <= pov <= u64_max ->
  Forall (fun r =>
    let _ := rw_benchmarks r in
    (forall call : Call AccountId,
       weight_le (declared_weight (rw_config r) call) (percent_of 1 (rw_block r))) /\
    forall (s : Storage AccountId W) (i : InflationStorage V) now,
      reachable (rw_config r) s ->
      weight_le (on_initialize_weight (rw_config r)
          (inflation_observer_weight (rw_recalculation r) i) now s) (percent_of 20 (rw_block r)))
    (runtime_weights pov).
Proof.
  intros Hdb Hpov. eapply Forall_impl; [exact (runtimes_well_weighed pov Hdb Hpov)|].
  intros r (Hc & Hg & Hf & Hn). cbv zeta. split; [apply Hf|]. intros s i now Hr.
  by apply (era_change_fits r).
Qed.
End blocks.

(** * What the calls of the other pallets take of a block

    The benchmarks of the assets, balances, XCM and oracle pallets in the
    runtimes, and of the repository's own pallets, against the block. *)

(** ** Lists of weights *)

Lemma db_reads_up `{!DbWeight} n m : db_ok -> 0 <= n <= m ->
  weight_le (db_reads n) (@db_reads top_prices m).
Proof. intros [[? ?] _] ?. unfold weight_le, db_reads, sat_mul. simpl. nia. Qed.
Lemma db_writes_up `{!DbWeight} n m : db_ok -> 0 <= n <= m ->
  weight_le (db_writes n) (@db_writes top_prices m).
Proof. intros [_ [? ?]] ?. unfold weight_le, db_writes, sat_mul. simpl. nia. Qed.

(** A benchmark, with the prices of the database and with the top ones, and
    with components up to their limits. *)
Ltac benchmark_up :=
  lazymatch goal with
  | |- weight_le (_ +w _) _ => apply weight_add_le; benchmark_up
  | |- weight_le (db_reads _) _ => apply db_reads_up; [done|unfold sat_mul; lia]
  | |- weight_le (db_writes _) _ => apply db_writes_up; [done|unfold sat_mul; lia]
  | |- weight_le (from_parts _ _) _ => reflexivity
  | |- weight_le (_ *w _) _ => apply weight_mul_le; [apply from_parts_nonneg; lia|lia]
  | |- weight_le ?w _ =>
      let rec name t := lazymatch t with ?g _ => name g | _ => t end in
      let b := name w in unfold b; benchmark_up
  end.
Ltac benchmarks_up := repeat (apply Forall2_cons_2; [benchmark_up|]); apply Forall2_nil_2.

(** Each of the weights takes at most [n] percent of the block. *)
Definition all_within (n : Z) (block : Weight) (ws : list Weight) : Prop :=
  Forall (fun w => weight_le w (percent_of n block)) ws.

Lemma all_within_up n (small block : Weight) (low top : list Weight) :
  Forall2 weight_le low top -> all_within n small top -> 0 <= n -> weight_le small block ->
  all_within n block low.
Proof.
  intros Hup Hfit Hn Hb. unfold all_within in *. induction Hup as [|x y low top Hxy Hup IH]; [constructor|].
  apply Forall_cons in Hfit as [Hy Hfit]. constructor; [|by apply IH].
  etransitivity; [exact Hxy|]. etransitivity; [exact Hy|]. by apply percent_mono.
Qed.

(** The blocks of the runtimes, the smallest one of which the top weights are
    compared with. *)
Lemma blocks_smallest pov : smallest_pov <= pov <= u64_max ->
  weight_le (astar_maximum_block_weight smallest_pov) (astar_maximum_block_weight pov) /\
  weight_le (shibuya_maximum_block_weight smallest_pov) (shibuya_maximum_block_weight pov) /\
  weight_le (shiden_maximum_block_weight smallest_pov) (shiden_maximum_block_weight pov).
Proof. intros [? ?]. by split_and!; split; simpl. Qed.

(** ** Assets *)

(** [RemoveItemsLimit] and [AssetsStringLimit] in the four runtimes. *)
Definition RemoveItemsLimit : Z := 1000.
Definition AssetsStringLimit : Z := 50.

(** What the calls of the assets pallet weigh in the runtimes. *)
Definition assets_weights `{!DbWeight} (pov c a n s : Z) : list (list Weight * Weight) :=
  [(astar_assets_weights c a n s, astar_maximum_block_weight pov);
   (shibuya_assets_weights c a n s, shibuya_maximum_block_weight pov);
   (shiden_assets_weights c a n s, shiden_maximum_block_weight pov);
   (local_assets_weights c a n s, local_maximum_block_weight)].

Lemma top_assets_fit :
  Forall (fun '(ws, block) => all_within 53 block ws)
    (@assets_weights top_prices smallest_pov RemoveItemsLimit RemoveItemsLimit
       AssetsStringLimit AssetsStringLimit).
Proof. repeat constructor; vm_compute; discriminate. Qed.

Section assets.
Context `{!DbWeight} (Hdb : db_ok) (c a n s : Z).
Context (Hc : 0 <= c <= RemoveItemsLimit) (Ha : 0 <= a <= RemoveItemsLimit).
Context (Hn : 0 <= n <= AssetsStringLimit) (Hs : 0 <= s <= AssetsStringLimit).

Lemma assets_up :
  Forall2 weight_le (astar_assets_weights c a n s) (@astar_assets_weights top_prices 1000 1000 50 50) /\
  Forall2 weight_le (shibuya_assets_weights c a n s) (@shibuya_assets_weights top_prices 1000 1000 50 50) /\
  Forall2 weight_le (shiden_assets_weights c a n s) (@shiden_assets_weights top_prices 1000 1000 50 50) /\
  Forall2 weight_le (local_assets_weights c a n s) (@local_assets_weights top_prices 1000 1000 50 50).
Proof. unfold RemoveItemsLimit, AssetsStringLimit in *. split_and!; benchmarks_up. Qed.

(** Every call of the assets pallet takes at most 53 percent of a block, with
    names of up to fifty characters and up to a thousand accounts or approvals
    destroyed. *)
Theorem assets_calls_fit pov : smallest_pov <= pov <= u64_max ->
  Forall (fun '(ws, block) => all_within 53 block ws) (assets_weights pov c a n s).
Proof.
  intros Hpov. pose proof top_assets_fit as Ht. pose proof (blocks_smallest pov Hpov) as (Hba & Hby & Hbn).
  pose proof assets_up as (Hua & Huy & Hun & Hul). unfold assets_weights in *. rewrite !Forall_cons in *.
  destruct Ht as (Hta & Hty & Htn & Htl & _).
  split_and!; [..|done]; eapply all_within_up; done.
Qed.
End assets.

(** ** XCM, balances and the oracle *)

(** [teleport_assets], [transfer_assets] and [execute] have a benchmark of
    nearly all the time that there is; the other calls follow without them. *)
Definition xcm_unbenchmarked (ws : list Weight) : list Weight :=
  omap (fun i => ws !! i) [1; 3; 4]%nat.
Definition xcm_benchmarked (ws : list Weight) : list Weight := delete 1%nat (delete 3%nat (delete 4%nat ws)).

Definition xcm_weights `{!DbWeight} (pov : Z) : list (list Weight * Weight) :=
  [(astar_xcm_weights, astar_maximum_block_weight pov);
   (shibuya_xcm_weights, shibuya_maximum_block_weight pov);
   (shiden_xcm_weights, shiden_maximum_block_weight pov)].

Lemma top_xcm_fit :
  Forall (fun '(ws, block) => all_within 1 block (xcm_benchmarked ws)) (@xcm_weights top_prices smallest_pov).
Proof. repeat constructor; vm_compute; discriminate. Qed.

Lemma xcm_up `{!DbWeight} : db_ok ->
  Forall2 weight_le (xcm_benchmarked astar_xcm_weights) (xcm_benchmarked (@astar_xcm_weights top_prices)) /\
  Forall2 weight_le (xcm_benchmarked shibuya_xcm_weights) (xcm_benchmarked (@shibuya_xcm_weights top_prices)) /\
  Forall2 weight_le (xcm_benchmarked shiden_xcm_weights) (xcm_benchmarked (@shiden_xcm_weights top_prices)).
Proof.
  intros Hdb. unfold astar_xcm_weights, shibuya_xcm_weights, shiden_xcm_weights.
  cbn [xcm_benchmarked delete list_delete]. split_and!; benchmarks_up.
Qed.

(** The three calls without a benchmark fit into no block, so that an account
    cannot make them; each of the others takes a hundredth of a block. *)
Theorem xcm_calls_fit `{!DbWeight} pov : db_ok -> smallest_pov <= pov <= u64_max ->
  Forall (fun '(ws, block) =>
    Forall (fun w => weight_any_lt block w = true) (xcm_unbenchmarked ws) /\
    all_within 1 block (xcm_benchmarked ws)) (xcm_weights pov).
Proof.
  intros Hdb Hpov. pose proof top_xcm_fit as Ht. pose proof (blocks_smallest pov Hpov) as (Hba & Hby & Hbn).
  pose proof (xcm_up Hdb) as (Hua & Huy & Hun). unfold xcm_weights in *. rewrite !Forall_cons in *.
  destruct Ht as (Hta & Hty & Htn & _).
  split_and!; try (by repeat constructor); eapply all_within_up; done.
Qed.

(** [upgrade_accounts] of up to a thousand accounts, and the one value that the
    oracle is fed at once. *)
Definition other_weights `{!DbWeight} (pov u x : Z) : list (list Weight * Weight) :=
  [(shibuya_balances_weights u, shibuya_maximum_block_weight pov);
   (local_balances_weights u, local_maximum_block_weight);
   (astar_oracle_weights x, astar_maximum_block_weight pov);
   (shibuya_oracle_weights x, shibuya_maximum_block_weight pov);
   (shiden_oracle_weights x, shiden_maximum_block_weight pov)].

Lemma top_others_fit :
  Forall (fun '(ws, block) => all_within 50 block ws) (@other_weights top_prices smallest_pov 1000 1).
Proof. repeat constructor; vm_compute; discriminate. Qed.

Lemma others_up `{!DbWeight} u x : db_ok -> 0 <= u <= 1000 -> 0 <= x <= 1 ->
  Forall2 weight_le (shibuya_balances_weights u) (@shibuya_balances_weights top_prices 1000) /\
  Forall2 weight_le (local_balances_weights u) (@local_balances_weights top_prices 1000) /\
  Forall2 weight_le (astar_oracle_weights x) (@astar_oracle_weights top_prices 1) /\
  Forall2 weight_le (shibuya_oracle_weights x) (@shibuya_oracle_weights top_prices 1) /\
  Forall2 weight_le (shiden_oracle_weights x) (@shiden_oracle_weights top_prices 1).
Proof. intros Hdb Hu Hx. split_and!; benchmarks_up. Qed.

Theorem other_calls_fit `{!DbWeight} pov u x :
  db_ok -> smallest_pov <= pov <= u64_max -> 0 <= u <= 1000 -> 0 <= x <= 1 ->
  Forall (fun '(ws, block) => all_within 50 block ws) (other_weights pov u x).
Proof.
  intros Hdb Hpov Hu Hx. pose proof top_others_fit as Ht.
  pose proof (blocks_smallest pov Hpov) as (Hba & Hby & Hbn).
  pose proof (others_up u x Hdb Hu Hx) as (Huy & Hul & Hoa & Hoy & Hon).
  unfold other_weights in *. rewrite !Forall_cons in *. destruct Ht as (Ht1 & Ht2 & Ht3 & Ht4 & Ht5 & _).
  split_and!; [..|done]; eapply all_within_up; done.
Qed.

(** ** The pallets of the repository *)

(** [MaxInvulnerables], [MaxCandidates] and [MaxApprovals] of the runtimes. *)
Definition MaxInvulnerables : Z := 48.
Definition MaxCandidates : Z := 148.
Definition MaxApprovals : Z := 64.

(** Their calls and hooks, with [b] invulnerables, [c] candidates of which [r]
    are removed, and [p] approvals. *)
Definition pallet_weights `{!DbWeight} (b r c p : Z) : list Weight :=
  [collator_set_invulnerables b; collator_set_desired_candidates; collator_set_candidacy_bond;
   collator_register_as_candidate c; collator_leave_intent c; collator_withdraw_bond;
   collator_note_author; collator_new_session r c;
   inflation_force_set_inflation_params; inflation_force_inflation_recalculation;
   inflation_recalculation; inflation_hooks_without_recalculation;
   astar_inflation_force_set_inflation_params; astar_inflation_force_inflation_recalculation;
   astar_inflation_recalculation; astar_inflation_hooks_without_recalculation;
   shiden_inflation_force_set_inflation_params; shiden_inflation_force_inflation_recalculation;
   shiden_inflation_recalculation; shiden_inflation_hooks_without_recalculation;
   xc_asset_register_asset_location; xc_asset_set_asset_units_per_second;
   xc_asset_change_existing_asset_location; xc_asset_remove_payment_asset; xc_asset_remove_asset;
   unified_claim_evm_address; unified_claim_default_evm_address; unified_to_account_id;
   unified_to_account_id_or_default; unified_to_h160; unified_to_h160_or_default;
   base_fee_base_fee_per_gas_adjustment; base_fee_set_base_fee_per_gas; base_fee_min_gas_price;
   proxy_execute_call; prices_process_block_aggregated_values;
   prices_process_intermediate_aggregated_values; checked_transact_without_apply;
   treasury_spend_local; treasury_propose_spend; treasury_reject_proposal; treasury_approve_proposal p;
   treasury_remove_approval; treasury_on_initialize_proposals p; treasury_spend; treasury_payout;
   treasury_check_status; treasury_void_spend].

Lemma top_pallets_fit :
  all_within 16 (astar_maximum_block_weight smallest_pov)
    (@pallet_weights top_prices MaxInvulnerables MaxCandidates MaxCandidates MaxApprovals).
Proof. repeat constructor; vm_compute; discriminate. Qed.

(** Each of them takes at most a sixth of the block of Astar, which is the
    smallest. *)
Theorem pallet_calls_fit `{!DbWeight} pov b r c p :
  db_ok -> smallest_pov <= pov <= u64_max ->
  0 <= b <= MaxInvulnerables -> 0 <= r <= c -> c <= MaxCandidates -> 0 <= p <= MaxApprovals ->
  all_within 16 (astar_maximum_block_weight pov) (pallet_weights b r c p).
Proof.
  unfold MaxInvulnerables, MaxCandidates, MaxApprovals. intros Hdb Hpov Hb Hr Hc Hp.
  apply (all_within_up 16 (astar_maximum_block_weight smallest_pov) _ _
    (@pallet_weights top_prices 48 148 148 64));
    [|exact top_pallets_fit|done|apply (blocks_smallest pov Hpov)].
  unfold pallet_weights. benchmarks_up.
Qed.

(** * Weights in the example world

    Runs of [ExampleWorld], weighed with the benchmarks of the pallet. *)

Section examples.
Existing Instance ExactArithmetic.
Existing Instance StableOrder.
Existing Instance StableOrder_laws.
Existing Instance top_prices.
Existing Instance pallet_dapp_benchmarks.

Lemma top_prices_ok : db_ok.
Proof. by repeat split. Qed.

(** ** A clean-up that reports more than it declares *)

(** The account unlocks all it has before it claims its rewards, locks again
    and stakes on other dApps: its ledger has been removed with the count of
    its entries, the entries have not. *)
Definition five_dapps : list (SmartContract Z) := [Evm 1; Evm 2; Evm 3; Evm 4; Evm 5].

Definition reentry_run : list Action :=
  ((fun c => as_root (call_register 8 c)) <$> five_dapps) ++ [Findings.signed_by 1 (call_lock 1000)]
  ++ ((fun c => Findings.signed_by 1 (call_stake c 100)) <$> take 3 five_dapps) ++ blocks 50
  ++ [Findings.signed_by 1 (call_unlock 1000)] ++ blocks 50
  ++ [Findings.signed_by 1 call_claim_unlocked; Findings.signed_by 1 call_claim_staker_rewards;
      Findings.signed_by 1 call_claim_staker_rewards].
Definition expired_run : list Action :=
  reentry_run ++ [Findings.signed_by 1 (call_lock 1000)]
  ++ ((fun c => Findings.signed_by 1 (call_stake c 100)) <$> drop 3 five_dapps) ++ blocks 150.

(** An account that leaves and comes back can have more entries than
    [MaxNumberOfStakedContracts], here five with a limit of three, and
    [cleanup_expired_entries] then removes them all and reports more weight
    than it declares. *)
Theorem cleanup_outweighs_limit :
  let s := state_after expired_run in
  reachable ex_cfg s /\ MaxNumberOfStakedContracts ex_cfg = 3 /\
  is_staker (state_after reentry_run) 1 = false /\ size (stakers_of (state_after reentry_run) 1) = 3%nat /\
  expired_entries ex_cfg 1 s = 5 /\ contract_stake_count (ledger_of s 1) = 2 /\
  (exists s', dispatch ex_cfg (Signed 1) call_cleanup_expired_entries s = Ok s' /\
     stakers_of s' 1 = ∅) /\
  exists w, actual_weight ex_cfg (Signed 1) call_cleanup_expired_entries s = Some w /\
    weight_any_lt (declared_weight ex_cfg (@call_cleanup_expired_entries Z)) w = true.
Proof.
  cbv zeta. split; [unfold expired_run, reentry_run; by_run|].
  split_and!; try by vm_compute.
  - eexists. split; [vm_compute; reflexivity|by vm_compute].
  - eexists. by split; [vm_compute; reflexivity|vm_compute].
Qed.

(** ** Calls that report less *)

Definition staked_run : list Action :=
  [as_root (call_register 8 dapp1); Findings.signed_by 1 (call_lock 1000); Findings.signed_by 1 (call_stake dapp1 300)]
  ++ blocks 40.

Lemma staked_run_reachable :
  reachable ex_cfg (state_after staked_run) /\ current_era (state_after staked_run) < u32_max.
Proof. split; [unfold staked_run; by_run|by vm_compute]. Qed.

Lemma reported_weight_declared_witness :
  exists s' w, dispatch ex_cfg (Signed 1) call_claim_staker_rewards (state_after staked_run) = Ok s' /\
    actual_weight ex_cfg (Signed 1) call_claim_staker_rewards (state_after staked_run) = Some w /\
    weight_le w (declared_weight ex_cfg (@call_claim_staker_rewards Z)).
Proof.
  destruct (dispatch ex_cfg (Signed 1) call_claim_staker_rewards (state_after staked_run))
    as [s'|e] eqn:Hs; [|by vm_compute in Hs].
  assert (Hn : is_Some (actual_weight ex_cfg (Signed 1) call_claim_staker_rewards
    (state_after staked_run))) by (vm_compute; eauto).
  destruct Hn as [w Hw].
  exists s', w. split; [reflexivity|]. split; [exact Hw|]. destruct staked_run_reachable as [Hr Hera].
  apply (reported_weight_declared ex_cfg ex_cfg_ok (pallet_grows top_prices_ok) _ s' (Signed 1)
    call_claim_staker_rewards w Hr Hera Hs Hw).
  intros a Ha. discriminate Ha.
Defined.

Lemma runtime_weights_fit_witness :
  Forall (fun r => weight_le (@declared_weight Z (rw_benchmarks r) (rw_config r) (call_lock 10))
    (percent_of 1 (rw_block r))) (runtime_weights smallest_pov).
Proof.
  eapply Forall_impl; [apply (runtime_weights_fit (Origin := ExOrigin) (W := ExWorld) (V := unit));
    [exact top_prices_ok|by vm_compute]|].
  intros r [Hr _]. exact (Hr (call_lock 10)).
Defined.
End examples.
