(* ===== verification/CollatorWeights.v ===== *)
(** * What collator selection weighs

    The weights that the calls of [pallets/collator-selection/src/lib.rs]
    declare and report, and the weight charged for a new session. *)

From S2P Require Import Prelude Frame Weights CollatorSelection CollatorSafety PalletBenchmarks.

Section weights.
Context {AccountId ValidatorId Origin W : Type} `{Countable AccountId}.
Context `{!SpArithmetic, !FrameSystem AccountId Origin W, !ReservableCurrency AccountId W}.
Context `{!ValidatorSet AccountId ValidatorId W, !AuthoredOrder AccountId, !UpdateOrigin Origin}.
Context `{!DbWeight}.
Context (cfg : CollatorConfig AccountId).

Abbreviation St := (CollatorStorage AccountId W).

Definition register_declared : Weight := collator_register_as_candidate (MaxCandidates cfg).
Definition leave_declared : Weight := collator_leave_intent (MaxCandidates cfg).

(** With the candidates that there are after the call. *)
Definition register_reported (s' : St) : Weight := collator_register_as_candidate (len_u32 (Candidates s')).
Definition leave_reported (s' : St) : Weight := collator_leave_intent (len_u32 (Candidates s')).

(** [register_extra_weight_unchecked] in [new_session]. *)
Definition new_session_weight (s : St) : Weight :=
  let '(candidates_len_before, removed) := snd (kick_stale_candidates cfg s) in
  collator_new_session candidates_len_before removed.

Lemma delete_shrinks {A} i (l : list A) : (length (delete i l) <= length l)%nat.
Proof. revert i. induction l as [|x l IH]; intros [|i]; simpl; try lia. specialize (IH i). lia. Qed.

Lemma register_grows x y : db_ok -> 0 <= x <= y ->
  weight_le (collator_register_as_candidate x) (collator_register_as_candidate y).
Proof. intros Hdb Hxy. unfold collator_register_as_candidate. weight_mono. Qed.
Lemma leave_grows x y : db_ok -> 0 <= x <= y ->
  weight_le (collator_leave_intent x) (collator_leave_intent y).
Proof. intros Hdb Hxy. unfold collator_leave_intent. weight_mono. Qed.

(** Registering and leaving report at most what they declare, while no more
    candidates are wanted than the benchmarks cover and there are no more. *)
Theorem collator_reported_declared allowed (o : Origin) (s s' : St) :
  db_ok -> 0 <= DesiredCandidates s <= MaxCandidates cfg -> MaxCandidates cfg <= u32_max ->
  Z.of_nat (length (Candidates s)) <= MaxCandidates cfg ->
  (register_as_candidate cfg allowed o s = Ok s' -> weight_le (register_reported s') register_declared) /\
  (leave_intent cfg o s = Ok s' -> weight_le (leave_reported s') leave_declared).
Proof.
  intros Hdb Hdes Hmax Hlen. split; intros Hs.
  - apply register_grows; [done|]. unfold register_as_candidate in Hs. bind_inv Hs as a Ha.
    guard_inv Hs as Hroom. guard_inv Hs as Hinv. guard_inv Hs as Hallowed. bind_inv Hs as u Hkey.
    bind_inv Hs as s1 Htake. guard_inv Hs as Hnew. bind_inv Hs as w Hres. injection Hs as <-. simpl.
    assert (Hsame : Candidates s1 = Candidates s) by (unfold take_unlocked_bond in Htake; by result_inv).
    rewrite Hsame. unfold len_u32 in *. rewrite length_app. simpl.
    rewrite Z.mod_small in Hroom by lia. rewrite Z.mod_small; lia.
  - apply leave_grows; [done|]. unfold leave_intent, try_remove_candidate in Hs. result_inv. simpl.
    unfold len_u32. pose proof (delete_shrinks n (Candidates s)). rewrite Z.mod_small; lia.
Qed.
End weights.

(** The time of a new session depends on the second component alone. *)
Lemma new_session_time `{!DbWeight} r c :
  db_ok -> 0 <= c <= 148 ->
  ref_time (collator_new_session r c) = 20755000 + 16868215 * c + 4 * db_read + db_read * c + db_write * c.
Proof.
  intros [Hr Hw] Hc. assert (0 <= db_read * c <= 25000000 * 148) by nia.
  assert (0 <= db_write * c <= 100000000 * 148) by nia.
  unfold collator_new_session, weight_saturating_add, weight_saturating_mul, db_reads, db_writes,
    from_parts, sat_add, sat_mul. cbn [ref_time]. rewrite !Z.mul_1_l.
  assert (Hm : Z.min u64_max c = c) by lia. rewrite ?Hm, ?(Z.min_comm c), ?Hm.
  generalize dependent (db_read * c). generalize dependent (db_write * c). intros x Hx y Hy. lia.
Qed.

(** The second component of the benchmark is the number of candidates, the
    first that of those removed ([benchmarking.rs]); [new_session] passes them
    in the other order.  A session of [n] candidates of which none is removed
    is charged the time of a session without candidates, whatever [n]. *)
Theorem new_session_ignores_candidates `{!DbWeight} n :
  db_ok -> 0 <= n <= 148 ->
  ref_time (collator_new_session n 0) = ref_time (collator_new_session 0 0) /\
  ref_time (collator_new_session n 0) + 16868215 * n <= ref_time (collator_new_session 0 n).
Proof. intros Hdb Hn. pose proof Hdb as [Hr Hw]. rewrite !new_session_time by (done || lia). split; nia. Qed.
