(* ===== verification/EvmEvents.v ===== *)
(** * EVM events

    The events that the EVM emits while it is traced,
    [vendor/primitives/evm-tracing-events/src], and the types of the traces,
    [vendor/evm-tracing/src/types].  Addresses and words are integers, byte
    strings are strings.  Fields of events that no listener reads (the value
    transferred, the gas a call asks for, the scheme of a creation) are left
    out. *)

From Stdlib Require Import Ascii.
From stdpp Require Import strings pretty.
From S2P Require Import Prelude.
#[local] Open Scope Z_scope.

Abbreviation Bytes := string (only parsing).

(** ** Types of traces *)

Inductive CallType := Call_ | CallCode | DelegateCall | StaticCall.
Inductive CreateType := Create_.
Inductive ContextType := ContextType_Call (call_type : CallType) | ContextType_Create.
Inductive CallResult := CallResult_Output (output : Bytes) | CallResult_Error (error : Bytes).
Inductive CreateResult :=
| CreateResult_Error (error : Bytes)
| CreateResult_Success (created_contract_address_hash : Z) (created_contract_code : Bytes).

(** [str::from_utf8] and [str::to_uppercase] are those of ASCII, and a parameter
    beyond. *)
Class Unicode := { unicode_uppercase : Bytes -> option string }.

Definition ascii_upper (c : ascii) : ascii :=
  let n := Ascii.N_of_ascii c in
  if (97 <=? n)%N && (n <=? 122)%N then Ascii.ascii_of_N (n - 32) else c.
Definition is_ascii (c : ascii) : bool := (Ascii.N_of_ascii c <? 128)%N.

Fixpoint string_forall (p : ascii -> bool) (s : string) : bool :=
  match s with EmptyString => true | String c s => p c && string_forall p s end.
Fixpoint string_map (f : ascii -> ascii) (s : string) : string :=
  match s with EmptyString => EmptyString | String c s => String (f c) (string_map f s) end.

Definition to_uppercase `{!Unicode} (s : Bytes) : option string :=
  if string_forall is_ascii s then Some (string_map ascii_upper s) else unicode_uppercase s.

(** [ContextType::from]. *)
Definition context_type_from `{!Unicode} (opcode : Bytes) : option ContextType :=
  match to_uppercase opcode with
  | Some opcode =>
      if (String.eqb opcode "CREATE" || String.eqb opcode "CREATE2")%string then Some ContextType_Create
      else if String.eqb opcode "CALL" then Some (ContextType_Call Call_)
      else if String.eqb opcode "CALLCODE" then Some (ContextType_Call CallCode)
      else if String.eqb opcode "DELEGATECALL" then Some (ContextType_Call DelegateCall)
      else if String.eqb opcode "STATICCALL" then Some (ContextType_Call StaticCall)
      else None
  | None => None
  end.

(** The name of an opcode. *)
Definition opcodes_string (opcode : Z) : Bytes :=
  match opcode with
  | 0 => "Stop" | 1 => "Add" | 2 => "Mul" | 3 => "Sub" | 4 => "Div" | 5 => "SDiv" | 6 => "Mod"
  | 7 => "SMod" | 8 => "AddMod" | 9 => "MulMod" | 10 => "Exp" | 11 => "SignExtend" | 16 => "Lt"
  | 17 => "Gt" | 18 => "Slt" | 19 => "Sgt" | 20 => "Eq" | 21 => "IsZero" | 22 => "And"
  | 23 => "Or" | 24 => "Xor" | 25 => "Not" | 26 => "Byte" | 27 => "Shl" | 28 => "Shr"
  | 29 => "Sar" | 32 => "Keccak256" | 48 => "Address" | 49 => "Balance" | 50 => "Origin"
  | 51 => "Caller" | 52 => "CallValue" | 53 => "CallDataLoad" | 54 => "CallDataSize"
  | 55 => "CallDataCopy" | 56 => "CodeSize" | 57 => "CodeCopy" | 58 => "GasPrice"
  | 59 => "ExtCodeSize" | 60 => "ExtCodeCopy" | 61 => "ReturnDataSize" | 62 => "ReturnDataCopy"
  | 63 => "ExtCodeHash" | 64 => "BlockHash" | 65 => "Coinbase" | 66 => "Timestamp"
  | 67 => "Number" | 68 => "Difficulty" | 69 => "GasLimit" | 70 => "ChainId" | 80 => "Pop"
  | 81 => "MLoad" | 82 => "MStore" | 83 => "MStore8" | 84 => "SLoad" | 85 => "SStore"
  | 86 => "Jump" | 87 => "JumpI" | 88 => "GetPc" | 89 => "MSize" | 90 => "Gas" | 91 => "JumpDest"
  | 96 => "Push1" | 97 => "Push2" | 98 => "Push3" | 99 => "Push4" | 100 => "Push5"
  | 101 => "Push6" | 102 => "Push7" | 103 => "Push8" | 104 => "Push9" | 105 => "Push10"
  | 106 => "Push11" | 107 => "Push12" | 108 => "Push13" | 109 => "Push14" | 110 => "Push15"
  | 111 => "Push16" | 112 => "Push17" | 113 => "Push18" | 114 => "Push19" | 115 => "Push20"
  | 116 => "Push21" | 117 => "Push22" | 118 => "Push23" | 119 => "Push24" | 120 => "Push25"
  | 121 => "Push26" | 122 => "Push27" | 123 => "Push28" | 124 => "Push29" | 125 => "Push30"
  | 126 => "Push31" | 127 => "Push32" | 128 => "Dup1" | 129 => "Dup2" | 130 => "Dup3"
  | 131 => "Dup4" | 132 => "Dup5" | 133 => "Dup6" | 134 => "Dup7" | 135 => "Dup8" | 136 => "Dup9"
  | 137 => "Dup10" | 138 => "Dup11" | 139 => "Dup12" | 140 => "Dup13" | 141 => "Dup14"
  | 142 => "Dup15" | 143 => "Dup16" | 144 => "Swap1" | 145 => "Swap2" | 146 => "Swap3"
  | 147 => "Swap4" | 148 => "Swap5" | 149 => "Swap6" | 150 => "Swap7" | 151 => "Swap8"
  | 152 => "Swap9" | 153 => "Swap10" | 154 => "Swap11" | 155 => "Swap12" | 156 => "Swap13"
  | 157 => "Swap14" | 158 => "Swap15" | 159 => "Swap16" | 160 => "Log0" | 161 => "Log1"
  | 162 => "Log2" | 163 => "Log3" | 164 => "Log4" | 176 => "JumpTo" | 177 => "JumpIf"
  | 178 => "JumpSub" | 180 => "JumpSubv" | 181 => "BeginSub" | 182 => "BeginData"
  | 184 => "ReturnSub" | 185 => "PutLocal" | 186 => "GetLocal" | 225 => "SLoadBytes"
  | 226 => "SStoreBytes" | 227 => "SSize" | 240 => "Create" | 241 => "Call" | 242 => "CallCode"
  | 243 => "Return" | 244 => "DelegateCall" | 245 => "Create2" | 250 => "StaticCall"
  | 252 => "TxExecGas" | 253 => "Revert" | 254 => "Invalid" | 255 => "SelfDestruct"
  | n => String.append "Unknown(" (String.append (pretty n) ")")
  end.

(** ** Events *)

(** The variants that the listeners tell apart. *)
Inductive ExitSucceed := Returned | OtherSucceed.
Inductive ExitError :=
| StackUnderflow | StackOverflow | InvalidJump | InvalidRange | DesignatedInvalid | CallTooDeep
| CreateCollision | CreateContractLimit | OutOfOffset | OutOfGas | OutOfFund
| OtherError (err : Bytes) | UnknownError.
Inductive ExitReason :=
| Exit_Succeed (e : ExitSucceed) | Exit_Error (e : ExitError) | Exit_Revert | Exit_Fatal.

Inductive Capture := Capture_Exit (reason : ExitReason) | Capture_Trap (opcode : Bytes).

(** [Context] of the EVM. *)
Record EvmContext := mkEvmContext { address : Z; caller : Z; apparent_value : Z }.

Record Snapshot := mkSnapshot { gas_limit : Z; memory_gas : Z; used_gas : Z; refunded_gas : Z }.
Definition u64_wrap (n : Z) : Z := n mod (u64_max + 1).
Definition u32_wrap (n : Z) : Z := n mod (u32_max + 1).

(** [Snapshot::gas], with the wrap of a release build. *)
Definition snapshot_gas (s : Snapshot) : Z :=
  u64_wrap (u64_wrap (gas_limit s - used_gas s) - memory_gas s).

Inductive GasometerEvent :=
| RecordCost (cost : Z) (snapshot : Snapshot)
| RecordRefund (refund : Z) (snapshot : Snapshot)
| RecordStipend (stipend : Z) (snapshot : Snapshot)
| RecordDynamicCost (gas_cost memory_gas gas_refund : Z) (snapshot : Snapshot)
| RecordTransaction (cost : Z) (snapshot : Snapshot).

Record Stack := mkStack { stack_data : list Z; stack_limit : Z }.
Record Memory := mkMemory { memory_data : Bytes; effective_len : Z; memory_limit : Z }.

Inductive RuntimeEvent :=
| Step (context : EvmContext) (opcode : Bytes) (position : Result Z ExitReason)
    (stack : option Stack) (memory : option Memory)
| StepResult (result : option Capture) (return_value : Bytes)
| SLoad (address index value : Z)
| SStore (address index value : Z).

Inductive EvmEvent :=
| Evm_Call (code_address : Z) (input : Bytes) (is_static : bool) (context : EvmContext)
| Evm_Create (caller address value : Z) (init_code : Bytes)
| Evm_Suicide (address target balance : Z)
| Evm_Exit (reason : ExitReason) (return_value : Bytes)
| Evm_TransactCall (caller address value : Z) (data : Bytes)
| Evm_TransactCreate (caller value : Z) (init_code : Bytes) (address : Z)
| Evm_TransactCreate2 (caller value : Z) (init_code : Bytes) (salt address : Z)
| Evm_PrecompileSubcall.

Inductive Event :=
| Event_Evm (e : EvmEvent)
| Event_Gasometer (e : GasometerEvent)
| Event_Runtime (e : RuntimeEvent)
| Event_CallListNew.

Record StepEventFilter := mkStepEventFilter { enable_stack : bool; enable_memory : bool }.

(** What a trap on each opcode is taken for: the opcodes that start a context
    are exactly those of the EVM. *)
Theorem opcode_contexts `{!Unicode} :
  Forall (fun n =>
    context_type_from (opcodes_string n) =
      if (n =? 240) || (n =? 245) then Some ContextType_Create
      else if n =? 241 then Some (ContextType_Call Call_)
      else if n =? 242 then Some (ContextType_Call CallCode)
      else if n =? 244 then Some (ContextType_Call DelegateCall)
      else if n =? 250 then Some (ContextType_Call StaticCall)
      else None) (seqZ 0 256).
Proof. repeat (apply Forall_cons; split; [vm_compute; reflexivity|]). apply Forall_nil_2. Qed.
