(* ===== verification/CallListTracing.v ===== *)
(** * The call list of a trace

    The listener [vendor/evm-tracing/src/listeners/call_list.rs] that turns the
    events of the EVM into one list of calls per transaction, and the formats in
    which the RPC returns it, [vendor/evm-tracing/src/formatters].  Vectors of
    contexts are kept with their end first; a [BTreeMap] is the list of its
    entries in the order of keys.  Arithmetic wraps as in a release build. *)

From Stdlib Require Import Ascii.
From stdpp Require Import strings.
From S2P Require Import Prelude EvmEvents.
#[local] Open Scope Z_scope.

(** ** Calls *)

Inductive CallInner :=
| Inner_Call (call_type : CallType) (to : Z) (input : Bytes) (res : CallResult)
| Inner_Create (init : Bytes) (res : CreateResult)
| Inner_SelfDestruct (balance to : Z).

(** [BlockscoutCall]. *)
Record BlockscoutCall := mkBlockscoutCall {
  from : Z;
  trace_address : list Z;
  subtraces : Z;
  value : Z;
  gas : Z;
  gas_used : Z;
  inner : CallInner;
}.

(** [BTreeMap<u32, Call>] and its [insert]. *)
Definition CallMap := list (Z * BlockscoutCall).
Fixpoint btree_insert (key : Z) (entry : BlockscoutCall) (m : CallMap) : CallMap :=
  match m with
  | [] => [(key, entry)]
  | (k, e) :: m' =>
      if key <? k then (key, entry) :: m
      else if key =? k then (key, entry) :: m'
      else (k, e) :: btree_insert key entry m'
  end.

(** ** The listener *)

Inductive TracingVersion := EarlyTransact | Legacy.

Record TraceContext := mkTraceContext {
  entries_index : Z;
  context_type : ContextType;
  ctx_from : Z;
  ctx_trace_address : list Z;
  ctx_subtraces : Z;
  ctx_value : Z;
  ctx_gas : Z;
  start_gas : option Z;
  ctx_data : Bytes;
  ctx_to : Z;
}.

Record Listener := mkListener {
  version : TracingVersion;
  transaction_cost : Z;
  entries : list CallMap;
  entries_next_index : Z;
  context_stack : list TraceContext;
  call_type : option CallType;
  skip_next_context : bool;
  step_result_entry : option (Z * BlockscoutCall);
  call_list_first_transaction : bool;
  record_transaction_event_only : bool;
}.

Definition listener_default : Listener := {|
  version := Legacy; transaction_cost := 0; entries := []; entries_next_index := 0;
  context_stack := []; call_type := None; skip_next_context := false; step_result_entry := None;
  call_list_first_transaction := true; record_transaction_event_only := false;
|}.

(** Assignments to the fields. *)
Definition put_version v (l : Listener) : Listener :=
  mkListener v (transaction_cost l) (entries l) (entries_next_index l) (context_stack l) (call_type l)
    (skip_next_context l) (step_result_entry l) (call_list_first_transaction l) (record_transaction_event_only l).
Definition put_cost c (l : Listener) : Listener :=
  mkListener (version l) c (entries l) (entries_next_index l) (context_stack l) (call_type l)
    (skip_next_context l) (step_result_entry l) (call_list_first_transaction l) (record_transaction_event_only l).
Definition put_entries es (l : Listener) : Listener :=
  mkListener (version l) (transaction_cost l) es (entries_next_index l) (context_stack l) (call_type l)
    (skip_next_context l) (step_result_entry l) (call_list_first_transaction l) (record_transaction_event_only l).
Definition put_next_index n (l : Listener) : Listener :=
  mkListener (version l) (transaction_cost l) (entries l) n (context_stack l) (call_type l)
    (skip_next_context l) (step_result_entry l) (call_list_first_transaction l) (record_transaction_event_only l).
Definition put_stack s (l : Listener) : Listener :=
  mkListener (version l) (transaction_cost l) (entries l) (entries_next_index l) s (call_type l)
    (skip_next_context l) (step_result_entry l) (call_list_first_transaction l) (record_transaction_event_only l).
Definition put_call_type t (l : Listener) : Listener :=
  mkListener (version l) (transaction_cost l) (entries l) (entries_next_index l) (context_stack l) t
    (skip_next_context l) (step_result_entry l) (call_list_first_transaction l) (record_transaction_event_only l).
Definition put_skip b (l : Listener) : Listener :=
  mkListener (version l) (transaction_cost l) (entries l) (entries_next_index l) (context_stack l) (call_type l)
    b (step_result_entry l) (call_list_first_transaction l) (record_transaction_event_only l).
Definition put_step_result e (l : Listener) : Listener :=
  mkListener (version l) (transaction_cost l) (entries l) (entries_next_index l) (context_stack l) (call_type l)
    (skip_next_context l) e (call_list_first_transaction l) (record_transaction_event_only l).
Definition put_first b (l : Listener) : Listener :=
  mkListener (version l) (transaction_cost l) (entries l) (entries_next_index l) (context_stack l) (call_type l)
    (skip_next_context l) (step_result_entry l) b (record_transaction_event_only l).
Definition put_record_only b (l : Listener) : Listener :=
  mkListener (version l) (transaction_cost l) (entries l) (entries_next_index l) (context_stack l) (call_type l)
    (skip_next_context l) (step_result_entry l) (call_list_first_transaction l) b.

Definition add_gas (g : Z) (c : TraceContext) : TraceContext :=
  mkTraceContext (entries_index c) (context_type c) (ctx_from c) (ctx_trace_address c) (ctx_subtraces c)
    (ctx_value c) g (Some (default g (start_gas c))) (ctx_data c) (ctx_to c).
Definition add_subtrace (c : TraceContext) : TraceContext :=
  mkTraceContext (entries_index c) (context_type c) (ctx_from c) (ctx_trace_address c)
    (u32_wrap (ctx_subtraces c + 1)) (ctx_value c) (ctx_gas c) (start_gas c) (ctx_data c) (ctx_to c).

(** [insert_entry], into the map of the last transaction. *)
Definition insert_into (key : Z) (entry : BlockscoutCall) (es : list CallMap) : list CallMap :=
  match last es with
  | Some m => removelast es ++ [btree_insert key entry m]
  | None => [btree_insert key entry []]
  end.
Definition insert_entry (key : Z) (entry : BlockscoutCall) (l : Listener) : Listener :=
  put_entries (insert_into key entry (entries l)) l.
Definition bump_index (l : Listener) : Listener :=
  put_next_index (u32_wrap (entries_next_index l + 1)) l.

(** The gas between the first and the last snapshot of a context; the first
    context carries the cost of the transaction. *)
Definition context_gas_used (l : Listener) (c : TraceContext) : Z :=
  let gas_used := u64_wrap (default 0 (start_gas c) - ctx_gas c) in
  if entries_index c =? 0 then u64_wrap (gas_used + transaction_cost l) else gas_used.

Definition context_call (l : Listener) (c : TraceContext)
    (call_res : CallResult) (create_res : CreateResult) : BlockscoutCall :=
  {| from := ctx_from c; trace_address := ctx_trace_address c; subtraces := ctx_subtraces c;
     value := ctx_value c; gas := ctx_gas c; gas_used := context_gas_used l c;
     inner := match context_type c with
              | ContextType_Call t => Inner_Call t (ctx_to c) (ctx_data c) call_res
              | ContextType_Create => Inner_Create (ctx_data c) create_res
              end |}.

Definition error_message (e : ExitError) : Bytes :=
  match e with
  | StackUnderflow => "stack underflow" | StackOverflow => "stack overflow"
  | InvalidJump => "invalid jump" | InvalidRange => "invalid range"
  | DesignatedInvalid => "designated invalid" | CallTooDeep => "call too deep"
  | CreateCollision => "create collision" | CreateContractLimit => "create contract limit"
  | OutOfOffset => "out of offset" | OutOfGas => "out of gas" | OutOfFund => "out of funds"
  | OtherError err => err
  | UnknownError => "unexpected error"
  end.

Definition call_result (reason : ExitReason) (return_value : Bytes) : CallResult :=
  match reason with
  | Exit_Succeed Returned => CallResult_Output return_value
  | Exit_Succeed _ => CallResult_Output ""
  | Exit_Error e => CallResult_Error (error_message e)
  | Exit_Revert => CallResult_Error "execution reverted"
  | Exit_Fatal => CallResult_Error ""
  end.
Definition create_result (reason : ExitReason) (to : Z) (return_value : Bytes) : CreateResult :=
  match reason with
  | Exit_Succeed _ => CreateResult_Success to return_value
  | Exit_Error e => CreateResult_Error (error_message e)
  | Exit_Revert => CreateResult_Error "execution reverted"
  | Exit_Fatal => CreateResult_Error ""
  end.

Definition pop_context_to_entry (reason : ExitReason) (return_value : Bytes) (l : Listener)
    : option (Z * BlockscoutCall) * Listener :=
  match context_stack l with
  | c :: stack =>
      (Some (entries_index c, context_call l c (call_result reason return_value)
               (create_result reason (ctx_to c) return_value)),
       put_stack stack l)
  | [] => (None, l)
  end.

Definition early_exit : Bytes :=
  "early exit (out of gas, stack overflow, direct call to precompile, ...)".
Definition no_data_cost : Bytes :=
  "transaction could not pay its own data cost (impossible to gather more info)".

Definition finish_transaction (l : Listener) : Listener :=
  let l' := put_stack [] l in
  match last (context_stack l) with
  | Some c =>
      put_next_index (u32_wrap (entries_index c + 1))
        (insert_entry (entries_index c)
           (context_call l c (CallResult_Error early_exit) (CreateResult_Error early_exit)) l')
  | None =>
      if record_transaction_event_only l then
        bump_index (insert_entry (entries_next_index l)
          (mkBlockscoutCall 0 [] 0 0 0 0 (Inner_Call Call_ 0 "" (CallResult_Error no_data_cost))) l')
      else l'
  end.

Definition update_top (f : TraceContext -> TraceContext) (l : Listener) : Listener :=
  match context_stack l with
  | c :: stack => put_stack (f c :: stack) l
  | [] => l
  end.

Definition gasometer_event (e : GasometerEvent) (l : Listener) : Listener :=
  match e with
  | RecordCost _ snapshot | RecordDynamicCost _ _ _ snapshot | RecordStipend _ snapshot =>
      update_top (add_gas (snapshot_gas snapshot)) l
  | RecordTransaction cost _ => put_record_only true (put_cost cost l)
  | RecordRefund _ _ => l
  end.

Section listener.
Context `{!Unicode}.

Definition runtime_event (e : RuntimeEvent) (l : Listener) : Listener :=
  match e with
  | StepResult (Some (Capture_Trap opcode)) _ =>
      match context_type_from opcode with
      | Some (ContextType_Call t) => put_call_type (Some t) l
      | _ => l
      end
  | StepResult (Some (Capture_Exit reason)) return_value =>
      match pop_context_to_entry reason return_value l with
      | (Some (key, entry), l) =>
          match version l with
          | Legacy => insert_entry key entry l
          | EarlyTransact => put_step_result (Some (key, entry)) l
          end
      | (None, l) => l
      end
  | _ => l
  end.

(** A new context at the next index, for the transaction itself. *)
Definition push_transact (t : ContextType) (from value : Z) (data : Bytes) (to : Z) (l : Listener)
    : Listener :=
  let l := put_version EarlyTransact (put_record_only false l) in
  put_skip true (bump_index (put_stack
    (mkTraceContext (entries_next_index l) t from [] 0 value 0 None data to :: context_stack l) l)).

(** The address of the next context in the one on top of the stack, which
    counts it. *)
Definition next_trace_address (l : Listener) : list Z * Listener :=
  match context_stack l with
  | c :: _ => (ctx_trace_address c ++ [ctx_subtraces c], update_top add_subtrace l)
  | [] => ([], l)
  end.

Definition push_context (t : ContextType) (from value : Z) (data : Bytes) (to : Z)
    (trace_address : list Z) (l : Listener) : Listener :=
  bump_index (put_stack
    (mkTraceContext (entries_next_index l) t from trace_address 0 value 0 None data to
       :: context_stack l) l).

Definition evm_event (e : EvmEvent) (l : Listener) : Listener :=
  match e with
  | Evm_TransactCall caller address value data =>
      push_transact (ContextType_Call Call_) caller value data address l
  | Evm_TransactCreate caller value init_code address =>
      push_transact ContextType_Create caller value init_code address l
  | Evm_TransactCreate2 caller value init_code _ address =>
      push_transact ContextType_Create caller value init_code address l
  | Evm_Call code_address input is_static context =>
      let l := put_record_only false l in
      let t := match call_type l, is_static with
               | None, true => StaticCall
               | None, false => Call_
               | Some t, _ => t
               end in
      if skip_next_context l then put_skip false l
      else
        let (trace_address, l) := next_trace_address l in
        let from := match context_stack l with
                    | parent :: _ => ctx_to parent
                    | [] => caller context
                    end in
        push_context (ContextType_Call t) from (apparent_value context) input code_address trace_address l
  | Evm_Create caller address value init_code =>
      let l := put_record_only false l in
      if skip_next_context l then put_skip false l
      else
        let (trace_address, l) := next_trace_address l in
        push_context ContextType_Create caller value init_code address trace_address l
  | Evm_Suicide address target balance =>
      let (trace_address, l) := next_trace_address l in
      bump_index (insert_entry (entries_next_index l)
        (mkBlockscoutCall address trace_address 0 0 0 0 (Inner_SelfDestruct balance target)) l)
  | Evm_Exit reason return_value =>
      let l := put_record_only false l in
      let (entry, l) := match step_result_entry l with
                        | Some e => (Some e, put_step_result None l)
                        | None => pop_context_to_entry reason return_value l
                        end in
      match entry with Some (key, entry) => insert_entry key entry l | None => l end
  | Evm_PrecompileSubcall => put_call_type (Some Call_) l
  end.

Definition event (e : Event) (l : Listener) : Listener :=
  match e with
  | Event_Gasometer e => gasometer_event e l
  | Event_Runtime e => runtime_event e l
  | Event_Evm e => evm_event e l
  | Event_CallListNew =>
      if negb (call_list_first_transaction l) then
        let l := put_skip false (finish_transaction l) in
        put_entries (entries l ++ [[]]) l
      else put_first false l
  end.

(** A trace is listened to from the default state. *)
Definition listen (es : list Event) (l : Listener) : Listener := foldl (fun l e => event e l) l es.
End listener.

Definition step_event_filter : StepEventFilter :=
  {| enable_memory := false; enable_stack := false |}.
