(* ===== verification/TraceFormatters.v ===== *)
(** * The formats of a trace

    [vendor/evm-tracing/src/formatters]: the call list as it is
    ([blockscout.rs]), the nested calls of Geth's [callTracer]
    ([call_tracer.rs]) and the flat list of OpenEthereum's [trace_filter]
    ([trace_filter.rs]).  The second part proves that [callTracer]
    inverts the flattening of a tree. *)

From stdpp Require Import sorting relations.
From stdpp Require Import strings.
From S2P Require Import Prelude EvmEvents CallListTracing.
#[local] Open Scope Z_scope.

(** ** Blockscout *)

Definition blockscout_format (es : list CallMap) : option (list BlockscoutCall) :=
  match last es with
  | Some entry => Some (snd <$> entry)
  | None => None
  end.

(** ** Call tracer *)

Inductive CallTracerInner :=
| Tracer_Call (call_type : Bytes) (to : Z) (input : Bytes) (res : CallResult) (value : option Z)
| Tracer_Create (call_type : Bytes) (input : Bytes) (to : option Z) (output error : option Bytes) (value : Z)
| Tracer_SelfDestruct (call_type : Bytes) (to value : Z).

Inductive CallTracerCall := mkCallTracerCall {
  tracer_from : Z;
  tracer_trace_address : option (list Z);
  tracer_gas : Z;
  tracer_gas_used : Z;
  tracer_inner : CallTracerInner;
  tracer_calls : list CallTracerCall;
}.

Definition call_type_name (t : CallType) : Bytes :=
  match t with
  | Call_ => "CALL" | CallCode => "CALLCODE" | DelegateCall => "DELEGATECALL" | StaticCall => "STATICCALL"
  end.

Definition call_tracer_inner (v : Z) (i : CallInner) : CallTracerInner :=
  match i with
  | Inner_Call t to input res => Tracer_Call (call_type_name t) to input res (Some v)
  | Inner_Create init res =>
      Tracer_Create "CREATE" init
        (match res with CreateResult_Success a _ => Some a | CreateResult_Error _ => None end)
        (match res with CreateResult_Success _ code => Some code | CreateResult_Error _ => None end)
        (match res with CreateResult_Success _ _ => None | CreateResult_Error e => Some e end) v
  | Inner_SelfDestruct balance to => Tracer_SelfDestruct "SELFDESTRUCT" to balance
  end.

Definition to_call_tracer (c : BlockscoutCall) : CallTracerCall :=
  mkCallTracerCall (from c) (Some (trace_address c)) (gas c) (gas_used c)
    (call_tracer_inner (value c) (inner c)) [].

Definition put_address a (c : CallTracerCall) : CallTracerCall :=
  mkCallTracerCall (tracer_from c) a (tracer_gas c) (tracer_gas_used c) (tracer_inner c) (tracer_calls c).
Definition put_calls cs (c : CallTracerCall) : CallTracerCall :=
  mkCallTracerCall (tracer_from c) (tracer_trace_address c) (tracer_gas c) (tracer_gas_used c)
    (tracer_inner c) cs.

(** [sibling_greater_than], on addresses of the same length. *)
Fixpoint sibling_greater_than (a b : list Z) : bool :=
  match a, b with
  | x :: a, y :: b => if y <? x then true else if x <? y then false else sibling_greater_than a b
  | _, _ => false
  end.

(** [Ordering::Less]: closer to the root, or greater than a sibling. *)
Definition address_less (a b : list Z) : bool :=
  (length a <? length b)%nat || ((length a =? length b)%nat && sibling_greater_than a b).

Definition call_less (x y : CallTracerCall) : bool :=
  match tracer_trace_address x, tracer_trace_address y with
  | Some a, Some b => address_less a b
  | _, _ => false
  end.

(** [sort_by], which is stable, with an order that is never [Equal]. *)
Fixpoint sort_insert (x : CallTracerCall) (l : list CallTracerCall) : list CallTracerCall :=
  match l with
  | [] => [x]
  | y :: l' => if call_less x y then x :: l else y :: sort_insert x l'
  end.
Definition sort_calls (l : list CallTracerCall) : list CallTracerCall :=
  foldl (fun l x => sort_insert x l) [] l.

(** One turn of the loop; [None] is a panic. *)
Definition pop_and_push (result : list CallTracerCall) : option (list CallTracerCall) :=
  match last result with
  | Some x =>
      let result := removelast result in
      match tracer_trace_address x with
      | Some [] | None => None
      | Some a =>
          match list_find (fun c => tracer_trace_address c = Some (removelast a)) result with
          | Some (index, parent) =>
              Some (<[index := put_calls (tracer_calls parent ++ [put_address None x]) parent]> result)
          | None => Some result
          end
      end
  | None => None
  end.

(** [while result.len() > 1], which takes one call off the result each turn. *)
Fixpoint nest_loop (fuel : nat) (result : list CallTracerCall) : option (list CallTracerCall) :=
  match result, fuel with
  | ([] | [_]), _ => Some result
  | _, O => None
  | _, S fuel => match pop_and_push result with
                 | Some result => nest_loop fuel result
                 | None => None
                 end
  end.

Definition nest_calls (result : list CallTracerCall) : option (list CallTracerCall) :=
  match result with
  | [] | [_] => Some result
  | _ => nest_loop (length result) (sort_calls result)
  end.

(** The trace of a transaction, when a single call is left. *)
Definition call_tracer_entry (entry : CallMap) : option (list CallTracerCall) :=
  match nest_calls (to_call_tracer ∘ snd <$> entry) with
  | Some [c] => Some [put_address None c]
  | Some _ => Some []
  | None => None
  end.

Definition non_empty (entry : CallMap) : Prop := entry <> [].
#[export] Instance non_empty_decision entry : Decision (non_empty entry).
Proof. destruct entry; [right|left]; unfold non_empty; [tauto|done]. Defined.

(** [None] is a panic, [Some None] an empty answer. *)
Definition call_tracer_format (es : list CallMap) : option (option (list CallTracerCall)) :=
  match mapM call_tracer_entry (filter non_empty es) with
  | Some traces => Some (match mjoin traces with [] => None | traces => Some traces end)
  | None => None
  end.

(** ** Trace filter *)

Inductive TransactionTraceAction :=
| Action_Call (call_type : CallType) (from gas : Z) (input : Bytes) (to value : Z)
| Action_Create (creation_method : CreateType) (from gas : Z) (init : Bytes) (value : Z)
| Action_Suicide (address balance refund_address : Z).
Inductive TransactionTraceResult :=
| Result_Call (gas_used : Z) (output : Bytes)
| Result_Create (gas_used : Z) (code : Bytes) (address : Z)
| Result_Suicide.
Inductive TransactionTraceOutput :=
| Output_Result (r : TransactionTraceResult) | Output_Error (error : Bytes).

Record TransactionTrace := mkTransactionTrace {
  tt_action : TransactionTraceAction;
  tt_block_hash : Z;
  tt_block_number : Z;
  tt_output : TransactionTraceOutput;
  tt_subtraces : Z;
  tt_trace_address : list Z;
  tt_transaction_hash : Z;
  tt_transaction_position : Z;
}.

(** The hashes and the number of the block are inserted upstream. *)
Definition filter_trace (eth_tx_index : Z) (t : BlockscoutCall) : TransactionTrace :=
  let '(action, output) :=
    match inner t with
    | Inner_Call ct to input res =>
        (Action_Call ct (from t) (gas t) input to (value t),
         match res with
         | CallResult_Output output => Output_Result (Result_Call (gas_used t) output)
         | CallResult_Error error => Output_Error error
         end)
    | Inner_Create init res =>
        (Action_Create Create_ (from t) (gas t) init (value t),
         match res with
         | CreateResult_Success address code => Output_Result (Result_Create (gas_used t) code address)
         | CreateResult_Error error => Output_Error error
         end)
    | Inner_SelfDestruct balance to =>
        (Action_Suicide (from t) balance to, Output_Result Result_Suicide)
    end in
  mkTransactionTrace action 0 0 output (subtraces t) (trace_address t) 0 (u32_wrap eth_tx_index).

Definition trace_filter_format (es : list CallMap) : option (list TransactionTrace) :=
  Some (mjoin (imap (fun i entry => filter_trace (Z.of_nat i) ∘ snd <$> entry) (filter non_empty es))).

(** * The nested calls are the tree of the calls

    The loop of [call_tracer.rs] turns a flat list of calls with trace
    addresses into a tree.  Here it is shown to undo the flattening of any
    tree: the calls sorted by their address are the levels of the tree, and a
    pass over a level hands each call to its parent in the level above. *)

#[local] Open Scope Z_scope.

(** ** Trees and their flattening *)

Lemma call_tree_ind (P : CallTracerCall -> Prop) :
  (forall f a g u i cs, Forall P cs -> P (mkCallTracerCall f a g u i cs)) -> forall t, P t.
Proof.
  intros Hstep. fix IH 1. intros [f a g u i cs]. apply Hstep. induction cs as [|c cs IHcs]; constructor.
  - apply IH.
  - exact IHcs.
Qed.

(** A call at an address, without and with the calls made in it. *)
Definition Located : Type := list Z * CallTracerCall.
Definition flat (x : Located) : CallTracerCall := put_address (Some (fst x)) (put_calls [] (snd x)).
Definition full (x : Located) : CallTracerCall := put_address (Some (fst x)) (snd x).

Fixpoint located (k : Z) (a : list Z) (cs : list CallTracerCall) : list Located :=
  match cs with
  | [] => []
  | c :: cs => (a ++ [k], c) :: located (k + 1) a cs
  end.
Definition children (x : Located) : list Located := located 0 (fst x) (tracer_calls (snd x)).

(** The calls of a tree in the order in which they start. *)
Fixpoint flatten (a : list Z) (t : CallTracerCall) : list CallTracerCall :=
  put_address (Some a) (put_calls [] t) ::
  (fix go (k : Z) (cs : list CallTracerCall) : list CallTracerCall :=
     match cs with
     | [] => []
     | c :: cs => flatten (a ++ [k]) c ++ go (k + 1) cs
     end) 0 (tracer_calls t).
Definition flatten_located (x : Located) : list CallTracerCall := flatten (fst x) (snd x).

(** No call of the tree has an address. *)
Fixpoint detached (t : CallTracerCall) : Prop :=
  tracer_trace_address t = None /\
  (fix all (cs : list CallTracerCall) : Prop :=
     match cs with [] => True | c :: cs => detached c /\ all cs end) (tracer_calls t).

Lemma flatten_children a t : flatten a t = flat (a, t) :: (children (a, t) ≫= flatten_located).
Proof.
  destruct t as [f ad g u i cs]. unfold children, flat. simpl. f_equal. generalize 0.
  induction cs as [|c cs IH]; intros k; [done|]. simpl. by rewrite IH.
Qed.

Lemma detached_calls t : detached t -> tracer_trace_address t = None /\ Forall detached (tracer_calls t).
Proof.
  destruct t as [f ad g u i cs]. simpl. intros [Ha Hcs]. split; [done|].
  induction cs as [|c cs IH]; constructor; [apply Hcs|apply IH, Hcs].
Qed.

(** ** Levels *)

Definition below (l : list Located) : list Located := l ≫= children.
Fixpoint level (n : nat) (l : list Located) : list Located :=
  match n with O => l | S n => level n (below l) end.

Lemma level_app n l1 l2 : level n (l1 ++ l2) = level n l1 ++ level n l2.
Proof. revert l1 l2. induction n as [|n IH]; intros l1 l2; [done|]. simpl. unfold below. by rewrite bind_app, IH. Qed.
Lemma level_nil n : level n [] = [].
Proof. induction n as [|n IH]; [done|]. exact IH. Qed.
Lemma level_add n m l : level (n + m) l = level m (level n l).
Proof. revert l. induction n as [|n IH]; intros l; [done|]. simpl. apply IH. Qed.

(** Below some level there is none. *)
Lemma located_empty cs : Forall (fun t => exists n, forall a, level n [(a, t)] = []) cs ->
  exists n, forall k a, level n (located k a cs) = [].
Proof.
  induction 1 as [|c cs [n Hn] _ [m Hm]]; [by exists O|]. exists (n + m)%nat. intros k a. simpl.
  change ((a ++ [k], c) :: located (k + 1) a cs) with ([(a ++ [k], c)] ++ located (k + 1) a cs).
  rewrite level_app, level_add, Hn, level_nil. simpl. by rewrite Nat.add_comm, level_add, Hm, level_nil.
Qed.

Lemma levels_end t : exists n, forall a, level n [(a, t)] = [].
Proof.
  induction t as [f ad g u i cs IH] using call_tree_ind. destruct (located_empty cs IH) as [n Hn].
  exists (S n). intros a. simpl. unfold below, children. simpl. rewrite app_nil_r. apply Hn.
Qed.

(** The levels, each from its end. *)
Fixpoint levels (n : nat) (l : list Located) : list Located :=
  match n with O => [] | S n => reverse l ++ levels n (below l) end.

Lemma flatten_levels n l : level n l = [] -> l ≫= flatten_located ≡ₚ flat <$> levels n l.
Proof.
  revert l. induction n as [|n IH]; intros l Hn; simpl in *; [by subst|].
  rewrite fmap_app, <- IH by done. rewrite reverse_Permutation. clear.
  induction l as [|[a t] l IH]; [done|]. unfold below in *. cbn [mbind list_bind fmap list_fmap app].
  unfold flatten_located at 1. cbn [fst snd]. rewrite flatten_children, IH, bind_app. simpl.
  apply perm_skip. rewrite !(assoc (++)). apply Permutation_app_tail. apply Permutation_app_comm.
Qed.

(** ** The order of the levels *)

Definition sorts_before (x y : CallTracerCall) : Prop := call_less x y = true.

Lemma sibling_greater_asym a b : sibling_greater_than a b = true -> sibling_greater_than b a = false.
Proof.
  revert b. induction a as [|x a IH]; intros [|y b] Hg; simpl in *; try done.
  destruct (Z.ltb_spec y x); [destruct (Z.ltb_spec x y); [lia|done]|].
  destruct (Z.ltb_spec x y); [done|]. by apply IH.
Qed.

Lemma address_less_asym a b : address_less a b = true -> address_less b a = false.
Proof.
  unfold address_less. intros Hl. apply orb_true_iff in Hl as [Hl|Hl].
  - apply Nat.ltb_lt in Hl. apply orb_false_iff. split; [apply Nat.ltb_ge; lia|].
    apply andb_false_iff. left. apply Nat.eqb_neq. lia.
  - apply andb_true_iff in Hl as [He Hg]. apply Nat.eqb_eq in He. apply orb_false_iff.
    split; [apply Nat.ltb_ge; lia|]. apply andb_false_iff. right. by apply sibling_greater_asym.
Qed.

Lemma sorts_before_asym x y : sorts_before x y -> call_less y x = false.
Proof.
  unfold sorts_before, call_less. destruct (tracer_trace_address x), (tracer_trace_address y); try done.
  apply address_less_asym.
Qed.

(** Putting the element that is missing into a sorted list. *)
Lemma sort_insert_middle x s1 s2 :
  StronglySorted sorts_before (s1 ++ x :: s2) -> sort_insert x (s1 ++ s2) = s1 ++ x :: s2.
Proof.
  induction s1 as [|y s1 IH]; simpl.
  - intros [Hx _]%StronglySorted_cons. destruct s2 as [|z s2]; [done|]. simpl.
    apply Forall_cons in Hx as [Hx _]. unfold sorts_before in Hx. by rewrite Hx.
  - intros [Hy Hs]%StronglySorted_cons. apply Forall_app in Hy as [_ Hy]. apply Forall_cons in Hy as [Hy _].
    rewrite (sorts_before_asym _ _ Hy). by rewrite IH.
Qed.

Lemma sorted_without x s1 s2 :
  StronglySorted sorts_before (s1 ++ x :: s2) -> StronglySorted sorts_before (s1 ++ s2).
Proof.
  rewrite !StronglySorted_app, StronglySorted_cons. intros (Hb & H1 & _ & H2). split_and!; [|done|done].
  intros y z Hy Hz. apply Hb; [done|]. by right.
Qed.

(** Sorting a list gives its one sorted permutation. *)
Lemma sort_calls_unique l s : l ≡ₚ s -> StronglySorted sorts_before s -> sort_calls l = s.
Proof.
  revert s. induction l as [|x l IH] using rev_ind; intros s Hp Hs.
  - apply Permutation_nil_l in Hp. by subst.
  - unfold sort_calls. rewrite foldl_app. simpl. fold (sort_calls l).
    assert (Hx : x ∈ s) by (rewrite <- Hp; apply elem_of_app; right; by apply list_elem_of_singleton).
    apply list_elem_of_split in Hx as (s1 & s2 & ->).
    assert (Hl : l ≡ₚ s1 ++ s2).
    { apply (Permutation_cons_inv (a := x)). rewrite Permutation_middle, <- Hp. apply Permutation_cons_append. }
    rewrite (IH (s1 ++ s2)); [by apply sort_insert_middle|done|by eapply sorted_without].
Qed.

(** Addresses of one length in increasing order. *)
Definition increasing (n : nat) (l : list Located) : Prop :=
  Forall (fun x => length (fst x) = n) l /\
  StronglySorted (fun x y => sibling_greater_than (fst y) (fst x) = true) l.

Lemma sibling_greater_app a b x y : length a = length b ->
  sibling_greater_than (a ++ x) (b ++ y) = sibling_greater_than a b || (bool_decide (a = b) && sibling_greater_than x y).
Proof.
  revert b. induction a as [|u a IH]; intros [|v b] Hl; simpl in *; try done.
  destruct (Z.ltb_spec v u); [done|]. destruct (Z.ltb_spec u v).
  - rewrite bool_decide_eq_false_2 by naive_solver lia. done.
  - replace v with u by lia. rewrite IH by lia. f_equal. f_equal. apply bool_decide_ext. naive_solver.
Qed.

Lemma increasing_app n l1 l2 :
  increasing n (l1 ++ l2) <->
  increasing n l1 /\ increasing n l2 /\
  forall x y, x ∈ l1 -> y ∈ l2 -> sibling_greater_than (fst y) (fst x) = true.
Proof. unfold increasing. rewrite Forall_app, StronglySorted_app. naive_solver. Qed.

Lemma located_in k a cs x : x ∈ located k a cs -> exists i, k <= i /\ fst x = a ++ [i].
Proof.
  revert k. induction cs as [|c cs IH]; intros k Hx; simpl in Hx; [by apply not_elem_of_nil in Hx|].
  apply elem_of_cons in Hx as [->|Hx]; [by exists k|]. destruct (IH _ Hx) as (i & Hi & Heq). exists i. split; [lia|done].
Qed.

Lemma located_increasing k a cs : increasing (S (length a)) (located k a cs).
Proof.
  revert k. induction cs as [|c cs IH]; intros k; simpl; [by repeat constructor|].
  destruct (IH (k + 1)) as [Hf Hs]. split.
  - constructor; [simpl; rewrite length_app; simpl; lia|done].
  - apply StronglySorted_cons. split; [|done]. apply Forall_forall. intros x Hx.
    destruct (located_in _ _ _ _ Hx) as (i & Hi & ->). simpl.
    rewrite sibling_greater_app, bool_decide_eq_true_2 by done. simpl.
    rewrite (proj2 (Z.ltb_lt k i)) by lia. apply orb_true_r.
Qed.

Lemma below_in l x : x ∈ below l -> exists y i, y ∈ l /\ fst x = fst y ++ [i].
Proof.
  unfold below. intros Hx. apply list_elem_of_bind in Hx as (y & Hx & Hy).
  destruct (located_in _ _ _ _ Hx) as (i & _ & Hi). by exists y, i.
Qed.

Lemma below_increasing n l : increasing n l -> increasing (S n) (below l).
Proof.
  induction l as [|x l IH]; [by repeat constructor|]. intros Hi.
  change (x :: l) with ([x] ++ l) in *. apply increasing_app in Hi as (H1 & H2 & Hb).
  unfold below. rewrite bind_app. apply increasing_app. simpl. rewrite app_nil_r. split_and!.
  - destruct H1 as [[<- _]%Forall_cons _]. apply located_increasing.
  - by apply IH.
  - intros y z Hy Hz. destruct (located_in _ _ _ _ Hy) as (i & _ & ->).
    destruct (below_in l z Hz) as (w & j & Hw & ->).
    destruct H1 as [[Hx _]%Forall_cons _]. destruct H2 as [Hl _]. rewrite Forall_forall in Hl.
    rewrite sibling_greater_app by (rewrite (Hl w Hw); done).
    by rewrite (Hb x w) by (done || by left).
Qed.

Lemma levels_deep n m l : increasing n l -> Forall (fun y => (n <= length (fst y))%nat) (levels m l).
Proof.
  revert n l. induction m as [|m IH]; intros n l Hl; simpl; [constructor|]. apply Forall_app. split.
  - apply Forall_reverse. destruct Hl as [Hl _]. eapply Forall_impl; [exact Hl|]. intros y <-. lia.
  - eapply Forall_impl; [apply (IH (S n)), below_increasing, Hl|]. intros y. simpl. lia.
Qed.

Lemma reverse_sorted l n : increasing n l -> StronglySorted sorts_before (flat <$> reverse l).
Proof.
  intros [Hl Hs]. induction Hs as [|x l Hs IH Hx]; [constructor|].
  apply Forall_cons in Hl as [Hxn Hl]. rewrite reverse_cons, fmap_app. apply StronglySorted_app. split_and!.
  - intros y z Hy Hz. apply list_elem_of_fmap in Hy as (y' & -> & Hy). rewrite elem_of_reverse in Hy.
    apply list_elem_of_singleton in Hz as ->. rewrite Forall_forall in Hx, Hl.
    unfold sorts_before, call_less, flat. simpl. unfold address_less.
    rewrite (Hl _ Hy), Hxn, Nat.eqb_refl, (Hx _ Hy). apply orb_true_r.
  - by apply IH.
  - repeat constructor.
Qed.

Lemma levels_sorted n m l : increasing n l -> StronglySorted sorts_before (flat <$> levels m l).
Proof.
  revert n l. induction m as [|m IH]; intros n l Hl; simpl; [constructor|]. rewrite fmap_app.
  pose proof (below_increasing n l Hl) as Hb. apply StronglySorted_app. split_and!.
  - intros y z Hy Hz. apply list_elem_of_fmap in Hy as (y' & -> & Hy). rewrite elem_of_reverse in Hy.
    apply list_elem_of_fmap in Hz as (z' & -> & Hz). destruct Hl as [Hl _]. rewrite Forall_forall in Hl.
    pose proof (levels_deep (S n) m _ Hb) as Hd. rewrite Forall_forall in Hd. specialize (Hd z' Hz). simpl in Hd.
    unfold sorts_before, call_less, flat. simpl. unfold address_less. rewrite (Hl _ Hy).
    by rewrite (proj2 (Nat.ltb_lt _ _)) by lia.
  - by eapply reverse_sorted.
  - by apply (IH (S n)).
Qed.

(** ** The loop *)

Definition nest_step (s s' : list CallTracerCall) : Prop :=
  (1 < length s)%nat /\ pop_and_push s = Some s'.

Lemma pop_and_push_length s s' : pop_and_push s = Some s' -> length s = S (length s').
Proof.
  unfold pop_and_push. destruct s as [|c s _] using rev_ind; [done|]. rewrite last_snoc, removelast_last.
  rewrite length_app. simpl.
  destruct (tracer_trace_address c) as [[|x a]|]; try done.
  destruct (list_find _ s) as [[i p]|]; intros [= <-]; rewrite ?length_insert; lia.
Qed.

Lemma nest_loop_steps s c fuel :
  rtc nest_step s [c] -> (length s <= fuel)%nat -> nest_loop fuel s = Some [c].
Proof.
  intros Hs. remember [c] as t eqn:Ht. revert fuel. induction Hs as [s|s s1 t [Hl Hp] _ IH]; intros fuel Hf.
  - subst. by destruct fuel.
  - pose proof (pop_and_push_length _ _ Hp) as Hlen. destruct s as [|x [|y s]]; simpl in Hl; try lia.
    destruct fuel as [|fuel]; [simpl in Hf; lia|]. cbn [nest_loop]. rewrite Hp. apply IH; [done|].
    simpl in *. lia.
Qed.

(** A call is handed to the one parent with its address. *)
Lemma find_parent a A q D : Forall (fun c => tracer_trace_address c <> Some a) A ->
  tracer_trace_address q = Some a ->
  list_find (fun c => tracer_trace_address c = Some a) (A ++ q :: D) = Some (length A, q).
Proof.
  intros HA Hq. apply list_find_Some. split_and!.
  - by rewrite list_lookup_middle.
  - done.
  - intros j z Hj Hlt. rewrite lookup_app_l in Hj by done. rewrite Forall_forall in HA.
    by apply HA, (list_elem_of_lookup_2 _ j).
Qed.

Lemma removelast_snoc_z (a : list Z) i : removelast (a ++ [i]) = a.
Proof. apply removelast_last. Qed.

Lemma hand_over_one A q D a i c :
  Forall (fun c => tracer_trace_address c <> Some a) A -> tracer_trace_address q = Some a ->
  nest_step (A ++ q :: D ++ [full (a ++ [i], c)])
    (A ++ put_calls (tracer_calls q ++ [put_address None c]) q :: D).
Proof.
  intros HA Hq. split; [rewrite length_app; simpl; rewrite length_app; simpl; lia|].
  set (z := full (a ++ [i], c)).
  assert (Hs : A ++ q :: D ++ [z] = (A ++ q :: D) ++ [z]) by (by rewrite <- (assoc (++))).
  unfold pop_and_push. rewrite Hs, last_snoc, removelast_last. subst z. cbn [full put_address tracer_trace_address fst snd].
  rewrite removelast_snoc_z, find_parent by done. destruct (a ++ [i]) eqn:Hai; [by destruct a|]. f_equal.
  rewrite insert_app_r_alt by lia. by rewrite Nat.sub_diag.
Qed.

Lemma put_address_detached c : detached c -> put_address None c = c.
Proof. intros [Ha _]%detached_calls. destruct c. simpl in *. by subst. Qed.

(** All calls of a parent, in order. *)
Lemma hand_over A q D a k cs :
  Forall (fun c => tracer_trace_address c <> Some a) A -> tracer_trace_address q = Some a ->
  Forall detached cs ->
  rtc nest_step (A ++ q :: D ++ reverse (full <$> located k a cs))
    (A ++ put_calls (tracer_calls q ++ cs) q :: D).
Proof.
  intros HA. revert k q. induction cs as [|c cs IH]; intros k q Hq Hcs.
  - simpl. rewrite app_nil_r. destruct q. by rewrite app_nil_r.
  - apply Forall_cons in Hcs as [Hc Hcs]. cbn [located fmap list_fmap]. rewrite reverse_cons, (assoc (++)).
    eapply rtc_l; [apply hand_over_one; done|].
    assert (Heq : put_calls (tracer_calls q ++ c :: cs) q =
      put_calls (tracer_calls (put_calls (tracer_calls q ++ [put_address None c]) q) ++ cs)
        (put_calls (tracer_calls q ++ [put_address None c]) q)).
    { unfold put_calls. simpl. by rewrite <- (assoc (++)), put_address_detached. }
    rewrite Heq. by apply IH.
Qed.

(** The addresses of a level differ. *)
Lemma increasing_distinct n x l : increasing n (x :: l) ->
  Forall (fun c => tracer_trace_address c <> Some (fst x)) (reverse (flat <$> l)).
Proof.
  intros [_ [Hx _]%StronglySorted_cons]. apply Forall_reverse. apply Forall_fmap. eapply Forall_impl; [exact Hx|].
  intros y Hy [= Heq]. cbv beta in Hy. rewrite Heq in Hy. pose proof (sibling_greater_asym _ _ Hy). congruence.
Qed.

(** A level takes in the level below. *)
Lemma level_step n pre l B :
  increasing n l -> Forall (fun x => detached (snd x)) l ->
  (forall x, x ∈ l -> Forall (fun c => tracer_trace_address c <> Some (fst x)) pre) ->
  rtc nest_step (pre ++ reverse (flat <$> l) ++ B ++ reverse (full <$> below l))
    (pre ++ reverse (full <$> l) ++ B).
Proof.
  intros Hl. revert B. induction l as [|x l IH]; intros B Hd Hpre.
  - simpl. by rewrite app_nil_r.
  - pose proof (increasing_distinct n x l Hl) as Hx. change (x :: l) with ([x] ++ l) in Hl.
    apply increasing_app in Hl as (_ & Hl & _). apply Forall_cons in Hd as [[_ Hdx]%detached_calls Hd].
    cbn [fmap list_fmap]. rewrite !reverse_cons. unfold below. cbn [mbind list_bind].
    rewrite fmap_app, reverse_app, <- !(assoc (++)). cbn [app].
    etrans; [|apply (IH Hl (full x :: B)); [done|intros y Hy; apply Hpre; by right]].
    rewrite !(assoc (++) pre), (assoc (++) B). change (x :: ?b) with ([x] ++ b).
    replace (full x) with (put_calls (tracer_calls (flat x) ++ tracer_calls (snd x)) (flat x)) by (by destruct x as [? []]).
    apply hand_over; [|done|done]. apply Forall_app. split; [|done]. apply Hpre. by left.
Qed.

Lemma levels_nest n m pre l :
  level m l = [] -> increasing n l -> Forall (fun x => detached (snd x)) l ->
  Forall (fun c => exists a, tracer_trace_address c = Some a /\ (length a < n)%nat) pre ->
  rtc nest_step (pre ++ (flat <$> levels m l)) (pre ++ reverse (full <$> l)).
Proof.
  revert n pre l. induction m as [|m IH]; intros n pre l Hm Hl Hd Hpre; simpl in *; [by subst|].
  rewrite fmap_app, fmap_reverse, (assoc (++)). etrans.
  - apply (IH (S n)); [done|by apply below_increasing| |].
    + unfold below. apply Forall_forall. intros y Hy. apply list_elem_of_bind in Hy as (x & Hy & Hx).
      rewrite Forall_forall in Hd. destruct (detached_calls _ (Hd x Hx)) as [_ Hcs]. unfold children in Hy.
      clear -Hy Hcs. revert Hy. generalize 0. induction Hcs as [|c cs Hc Hcs IH]; intros k Hy; simpl in Hy.
      * by apply not_elem_of_nil in Hy.
      * apply elem_of_cons in Hy as [->|Hy]; [done|]. by apply (IH (k + 1)).
    + apply Forall_app. split.
      * eapply Forall_impl; [exact Hpre|]. intros c (a & Ha & Hlen). exists a. split; [done|lia].
      * apply Forall_reverse, Forall_fmap. destruct Hl as [Hl _]. eapply Forall_impl; [exact Hl|].
        intros x Hx. exists (fst x). split; [done|]. simpl in *. lia.
  - rewrite <- (assoc (++)). pose proof (level_step n pre l []) as Hs. simpl in Hs.
    rewrite !app_nil_r in Hs. apply Hs; [done|done|]. intros x Hx.
    destruct Hl as [Hl _]. rewrite Forall_forall in Hl. specialize (Hl x Hx).
    eapply Forall_impl; [exact Hpre|]. intros c (a & -> & Hlen) [= ->]. simpl in *. lia.
Qed.

(** The flat list of the calls of any tree, with their addresses, is nested to
    that tree. *)
Lemma nest_calls_flatten (t : CallTracerCall) :
  detached t -> nest_calls (flatten [] t) = Some [put_address (Some []) t].
Proof.
  intros Hd. destruct (levels_end t) as [n Hn]. specialize (Hn []).
  assert (Hi : increasing 0 [([], t)]) by (split; repeat constructor).
  assert (Hsort : sort_calls (flatten [] t) = flat <$> levels n [([], t)]).
  { apply sort_calls_unique; [|by eapply levels_sorted]. rewrite <- flatten_levels by done. simpl.
    by rewrite app_nil_r. }
  assert (Hsteps : rtc nest_step (flat <$> levels n [([], t)]) [put_address (Some []) t]).
  { apply (levels_nest 0 n [] [([], t)]); [done|done|by repeat constructor|constructor]. }
  unfold nest_calls. destruct (flatten [] t) as [|c [|c' l]] eqn:Hf.
  - rewrite flatten_children in Hf. done.
  - rewrite flatten_children in Hf. injection Hf as Hc Hl. destruct t as [f a g u i cs]. simpl in Hl.
    destruct cs as [|d cs]; [by subst|]. unfold children, flatten_located in Hl. simpl in Hl. by destruct d.
  - rewrite Hsort. apply nest_loop_steps; [exact Hsteps|]. rewrite <- Hsort. 
    assert (Hp : Permutation (c :: c' :: l) (flat <$> levels n [([], t)])).
    { rewrite <- Hf, <- flatten_levels by done. simpl. by rewrite app_nil_r. }
    rewrite Hsort. by rewrite Hp.
Qed.
