(* ===== verification/CallListSpec.v ===== *)
(** * What the call list of a trace is

    A transaction as a tree of calls, the events that tracing it emits, and the
    list of calls that is to come out.  The listener of
    [listeners/call_list.rs] makes that list of the events, transaction after
    transaction, and [call_tracer.rs] the tree again.  The second part
    proves that the listener makes that list. *)

From stdpp Require Import strings.
From S2P Require Import Prelude EvmEvents CallListTracing TraceFormatters.
#[local] Open Scope Z_scope.

(** ** Transactions as trees *)

(** How a call inside a context is announced. *)
Inductive Via := via_trap (opcode : Bytes) | via_precompile.

Inductive Opening :=
| open_call (via : Via) (code_address : Z) (input : Bytes) (is_static : bool) (context : EvmContext)
| open_create (caller address value : Z) (init_code : Bytes).

(** The result of the last step, when there was one, and the exit. *)
Record Ending := mkEnding {
  end_step : option (ExitReason * Bytes);
  end_reason : ExitReason;
  end_value : Bytes;
}.

Inductive Node :=
| node_event (e : Event)
| node_suicide (address target balance : Z)
| node_frame (o : Opening) (body : list Node) (fin : Ending).

Lemma node_ind' (P : Node -> Prop) :
  (forall e, P (node_event e)) -> (forall a t b, P (node_suicide a t b)) ->
  (forall o body fin, Forall P body -> P (node_frame o body fin)) -> forall nd, P nd.
Proof.
  intros He Hs Hf. fix IH 1. intros [e|a t b|o body fin]; [apply He|apply Hs|]. apply Hf.
  induction body as [|nd body IHb]; constructor; [apply IH|exact IHb].
Qed.

Section spec.
Context `{!Unicode}.

(** Events that change no more than the gas of the context. *)
Definition event_gas (e : Event) : option Z :=
  match e with
  | Event_Gasometer (RecordCost _ s | RecordDynamicCost _ _ _ s | RecordStipend _ s) => Some (snapshot_gas s)
  | _ => None
  end.
Definition plain_event (e : Event) : bool :=
  match e with
  | Event_Gasometer (RecordTransaction _ _) => false
  | Event_Gasometer _ => true
  | Event_Runtime (StepResult (Some (Capture_Exit _)) _) => false
  | Event_Runtime (StepResult (Some (Capture_Trap opcode)) _) =>
      match context_type_from opcode with Some (ContextType_Call _) => false | _ => true end
  | Event_Runtime _ => true
  | _ => false
  end.

Definition via_type (v : Via) : option CallType :=
  match v with
  | via_trap opcode =>
      match context_type_from opcode with Some (ContextType_Call t) => Some t | _ => None end
  | via_precompile => Some Call_
  end.
Definition via_event (v : Via) : Event :=
  match v with
  | via_trap opcode => Event_Runtime (StepResult (Some (Capture_Trap opcode)) "")
  | via_precompile => Event_Evm Evm_PrecompileSubcall
  end.

Definition opening_ok (o : Opening) : Prop :=
  match o with open_call v _ _ _ _ => is_Some (via_type v) | open_create _ _ _ _ => True end.
Fixpoint node_ok (nd : Node) : Prop :=
  match nd with
  | node_event e => plain_event e = true
  | node_suicide _ _ _ => True
  | node_frame o body _ =>
      opening_ok o /\
      (fix all (body : list Node) : Prop :=
         match body with [] => True | nd :: body => node_ok nd /\ all body end) body
  end.

(** *** The events *)

Definition opening_events (o : Opening) : list Event :=
  match o with
  | open_call v code_address input is_static context =>
      [via_event v; Event_Evm (Evm_Call code_address input is_static context)]
  | open_create caller address value init_code => [Event_Evm (Evm_Create caller address value init_code)]
  end.
Definition ending_events (fin : Ending) : list Event :=
  match end_step fin with
  | Some (reason, v) => [Event_Runtime (StepResult (Some (Capture_Exit reason)) v)]
  | None => []
  end ++ [Event_Evm (Evm_Exit (end_reason fin) (end_value fin))].

Fixpoint node_events (nd : Node) : list Event :=
  match nd with
  | node_event e => [e]
  | node_suicide a t b => [Event_Evm (Evm_Suicide a t b)]
  | node_frame o body fin =>
      opening_events o ++
      (fix all (body : list Node) : list Event :=
         match body with [] => [] | nd :: body => node_events nd ++ all body end) body
      ++ ending_events fin
  end.
Definition body_events (body : list Node) : list Event := body ≫= node_events.

(** *** The calls *)

Fixpoint node_size (nd : Node) : Z :=
  match nd with
  | node_event _ => 0
  | node_suicide _ _ _ => 1
  | node_frame _ body _ =>
      1 + (fix all (body : list Node) : Z :=
             match body with [] => 0 | nd :: body => node_size nd + all body end) body
  end.
Definition body_size (body : list Node) : Z := foldr (fun nd n => node_size nd + n) 0 body.

(** Calls and self-destructions are counted by the context they are in. *)
Definition node_counts (nd : Node) : Z := match nd with node_event _ => 0 | _ => 1 end.
Definition body_counts (body : list Node) : Z := foldr (fun nd n => node_counts nd + n) 0 body.
Definition body_gas (body : list Node) : list Z :=
  omap (fun nd => match nd with node_event e => event_gas e | _ => None end) body.

(** What is known of a context when it is entered. *)
Record Head := mkHead { h_type : ContextType; h_from : Z; h_value : Z; h_data : Bytes; h_to : Z }.
Definition opening_head (parent_to : Z) (o : Opening) : Head :=
  match o with
  | open_call v code_address input _ context =>
      mkHead (ContextType_Call (default Call_ (via_type v))) parent_to (apparent_value context) input code_address
  | open_create caller address value init_code => mkHead ContextType_Create caller value init_code address
  end.

(** The result of the last step counts before that of the exit. *)
Definition ending_result (fin : Ending) : ExitReason * Bytes :=
  default (end_reason fin, end_value fin) (end_step fin).

(** The call of index [n] at address [a]. *)
Definition frame_call (cost n : Z) (a : list Z) (h : Head) (body : list Node) (fin : Ending) : BlockscoutCall :=
  let '(reason, v) := ending_result fin in
  let used := u64_wrap (default 0 (head (body_gas body)) - default 0 (last (body_gas body))) in
  {| from := h_from h; trace_address := a; subtraces := body_counts body; value := h_value h;
     gas := default 0 (last (body_gas body));
     gas_used := if n =? 0 then u64_wrap (used + cost) else used;
     inner := match h_type h with
              | ContextType_Call t => Inner_Call t (h_to h) (h_data h) (call_result reason v)
              | ContextType_Create => Inner_Create (h_data h) (create_result reason (h_to h) v)
              end |}.

Fixpoint node_entries (cost n : Z) (a : list Z) (parent_to : Z) (nd : Node) : CallMap :=
  match nd with
  | node_event _ => []
  | node_suicide address target balance =>
      [(n, mkBlockscoutCall address a 0 0 0 0 (Inner_SelfDestruct balance target))]
  | node_frame o body fin =>
      let h := opening_head parent_to o in
      (n, frame_call cost n a h body fin) ::
      (fix all (n k : Z) (body : list Node) : CallMap :=
         match body with
         | [] => []
         | nd :: body =>
             node_entries cost n (a ++ [k]) (h_to h) nd ++ all (n + node_size nd) (k + node_counts nd) body
         end) (n + 1) 0 body
  end.

(** The calls in the body of a context, from index [n] and subtrace [k]. *)
Fixpoint body_entries (cost n : Z) (a : list Z) (k parent_to : Z) (body : list Node) : CallMap :=
  match body with
  | [] => []
  | nd :: body =>
      node_entries cost n (a ++ [k]) parent_to nd
      ++ body_entries cost (n + node_size nd) a (k + node_counts nd) parent_to body
  end.

Lemma node_ok_frame o body fin : node_ok (node_frame o body fin) <-> opening_ok o /\ Forall node_ok body.
Proof.
  simpl. apply and_iff_compat_l. induction body as [|nd body IH]; [by split|]. rewrite Forall_cons. by rewrite IH.
Qed.
Lemma node_events_frame o body fin :
  node_events (node_frame o body fin) = opening_events o ++ body_events body ++ ending_events fin.
Proof. done. Qed.
Lemma node_size_frame o body fin : node_size (node_frame o body fin) = 1 + body_size body.
Proof. done. Qed.
Lemma node_entries_frame cost n a pto o body fin :
  node_entries cost n a pto (node_frame o body fin) =
    (n, frame_call cost n a (opening_head pto o) body fin)
      :: body_entries cost (n + 1) a 0 (h_to (opening_head pto o)) body.
Proof.
  simpl. f_equal. generalize (n + 1) as i. generalize 0 as k.
  induction body as [|nd body IH]; intros k i; [done|]. simpl. by rewrite IH.
Qed.

Lemma node_size_nonneg nd : 0 <= node_size nd.
Proof.
  induction nd as [| |o body fin IH] using node_ind'; try (simpl; lia). rewrite node_size_frame.
  assert (0 <= body_size body); [|lia]. induction IH; simpl; lia.
Qed.
Lemma body_size_nonneg body : 0 <= body_size body.
Proof. induction body as [|nd body IH]; simpl; [lia|]. pose proof (node_size_nonneg nd). lia. Qed.
Lemma node_counts_size nd : 0 <= node_counts nd <= node_size nd.
Proof.
  destruct nd as [| |o body fin]; [simpl; lia..|]. rewrite node_size_frame.
  pose proof (body_size_nonneg body). simpl. lia.
Qed.
Lemma body_counts_size body : 0 <= body_counts body <= body_size body.
Proof. induction body as [|nd body IH]; simpl; [lia|]. pose proof (node_counts_size nd). lia. Qed.

(** ** The listener on a tree *)

(** The state inside a transaction of the newer runtimes, [done] the maps of the
    transactions before and [m] that of this one. *)
Record tracing (l : Listener) (m : CallMap) (done : list CallMap) (n : Z) (stack : list TraceContext)
    (cost : Z) : Prop := {
  tr_version : version l = EarlyTransact;
  tr_cost : transaction_cost l = cost;
  tr_done : removelast (entries l) = done;
  tr_map : default [] (last (entries l)) = m;
  tr_index : entries_next_index l = n;
  tr_stack : context_stack l = stack;
  tr_skip : skip_next_context l = false;
  tr_step : step_result_entry l = None;
  tr_only : record_transaction_event_only l = false;
  tr_first : call_list_first_transaction l = false;
}.

Lemma insert_into_maps k e es :
  removelast (insert_into k e es) = removelast es /\
  default [] (last (insert_into k e es)) = btree_insert k e (default [] (last es)).
Proof.
  unfold insert_into. destruct (last es) as [m|] eqn:Hl; simpl.
  - by rewrite removelast_last, last_snoc.
  - apply last_None in Hl. by subst.
Qed.

Lemma btree_insert_middle k e (m1 m2 : CallMap) :
  Forall (fun x => fst x < k) m1 -> Forall (fun x => k < fst x) m2 ->
  btree_insert k e (m1 ++ m2) = m1 ++ (k, e) :: m2.
Proof.
  intros H1 H2. induction H1 as [|[i x] m1 Hi H1 IH]; simpl in *.
  - destruct m2 as [|[j y] m2]; [done|]. apply Forall_cons in H2 as [Hj _]. simpl in *.
    by rewrite (proj2 (Z.ltb_lt k j)) by lia.
  - rewrite (proj2 (Z.ltb_ge k i)), (proj2 (Z.eqb_neq k i)) by lia. by rewrite IH.
Qed.

(** Keys of the calls of a tree. *)
Definition keys_in (lo hi : Z) (m : CallMap) : Prop := Forall (fun x => lo <= fst x < hi) m.

Lemma keys_in_app lo mid hi m1 m2 :
  lo <= mid <= hi -> keys_in lo mid m1 -> keys_in mid hi m2 -> keys_in lo hi (m1 ++ m2).
Proof.
  intros Hm H1 H2. apply Forall_app.
  split; [eapply Forall_impl; [exact H1|]|eapply Forall_impl; [exact H2|]]; intros x Hx; simpl in *; lia.
Qed.

Lemma body_entries_keys cost body :
  Forall (fun nd => forall n a pto, keys_in n (n + node_size nd) (node_entries cost n a pto nd)) body ->
  forall n a k pto, keys_in n (n + body_size body) (body_entries cost n a k pto body).
Proof.
  induction 1 as [|nd body Hnd _ IH]; intros n a k pto; simpl; [constructor|].
  pose proof (node_size_nonneg nd). pose proof (body_size_nonneg body).
  apply (keys_in_app _ (n + node_size nd)); [lia|apply Hnd|]. rewrite Z.add_assoc. apply IH.
Qed.

Lemma node_entries_keys cost nd n a pto : keys_in n (n + node_size nd) (node_entries cost n a pto nd).
Proof.
  revert n a pto. induction nd as [e|ad t b|o body fin IH] using node_ind'; intros n a pto.
  - constructor.
  - repeat constructor; simpl; lia.
  - rewrite node_entries_frame, node_size_frame. pose proof (body_size_nonneg body). constructor; [simpl; lia|].
    eapply Forall_impl; [apply (body_entries_keys cost body IH)|]. intros x Hx. simpl in *. lia.
Qed.
End spec.

(** * The listener makes the call list of the transaction

    By induction on the tree of a transaction: the listener of
    [listeners/call_list.rs] is led by the events of the tree through the
    states that [tracing] describes, and ends with the calls of the tree. *)

#[local] Open Scope Z_scope.

Section proof.
Context `{!Unicode}.

(** What a context notes of what happens in it. *)
Definition absorb (c : TraceContext) (nd : Node) : TraceContext :=
  match nd with
  | node_event e => match event_gas e with Some g => add_gas g c | None => c end
  | _ => add_subtrace c
  end.

Lemma absorb_kept c nd :
  ctx_trace_address (absorb c nd) = ctx_trace_address c /\ ctx_to (absorb c nd) = ctx_to c /\
  entries_index (absorb c nd) = entries_index c /\ context_type (absorb c nd) = context_type c /\
  ctx_from (absorb c nd) = ctx_from c /\ ctx_value (absorb c nd) = ctx_value c /\
  ctx_data (absorb c nd) = ctx_data c.
Proof. destruct nd as [e| |]; simpl; [destruct (event_gas e)|..]; done. Qed.

Lemma absorb_counts c nd : 0 <= ctx_subtraces c -> ctx_subtraces c + node_counts nd <= u32_max ->
  ctx_subtraces (absorb c nd) = ctx_subtraces c + node_counts nd.
Proof.
  intros H0 Hm. destruct nd as [e| |]; simpl in *; [destruct (event_gas e); simpl; lia|..];
    unfold u32_wrap; apply Z.mod_small; lia.
Qed.

(** ** Single events *)

Ltac tracing_fields H := destruct H as [?Hv ?Hc ?Hd ?Hm ?Hi ?Hs ?Hk ?Hr ?Ho ?Hf].

Lemma run_plain l m done n c rest cost e : plain_event e = true ->
  tracing l m done n (c :: rest) cost ->
  tracing (event e l) m done n (absorb c (node_event e) :: rest) cost.
Proof.
  intros He Ht. assert (Hs : context_stack l = c :: rest) by apply Ht.
  destruct e as [e|e|e|]; try done; simpl.
  - destruct e; try done; simpl; unfold update_top; rewrite ?Hs; tracing_fields Ht; by split.
  - destruct e as [ | [[reason|opcode]|] | | ]; simpl in *; try done; try exact Ht.
    destruct (context_type_from opcode) as [[]|]; [done|exact Ht..].
Qed.

Lemma run_insert l m done n stack cost k e :
  tracing l m done n stack cost ->
  tracing (insert_entry k e l) (btree_insert k e m) done n stack cost.
Proof.
  intros Ht. tracing_fields Ht. destruct (insert_into_maps k e (entries l)) as [Hd' Hm']. split; simpl; congruence.
Qed.

(** [m] before and after the calls of a subtree. *)
Lemma keys_below_insert (m m' : CallMap) k e hi :
  Forall (fun x => fst x < k) m -> keys_in (k + 1) hi m' ->
  btree_insert k e (m ++ m') = m ++ (k, e) :: m'.
Proof.
  intros H1 H2. apply btree_insert_middle; [done|]. eapply Forall_impl; [exact H2|]. intros x Hx. simpl in *. lia.
Qed.

(** ** Opening and closing a context *)

Definition head_context (n : Z) (a : list Z) (h : Head) : TraceContext :=
  mkTraceContext n (h_type h) (h_from h) a 0 (h_value h) 0 None (h_data h) (h_to h).

Lemma run_opening l m done n c rest cost o :
  opening_ok o -> 0 <= n -> n + 1 <= u32_max -> tracing l m done n (c :: rest) cost ->
  tracing (listen (opening_events o) l) m done (n + 1)
    (head_context n (ctx_trace_address c ++ [ctx_subtraces c]) (opening_head (ctx_to c) o)
       :: add_subtrace c :: rest) cost.
Proof.
  intros Hok Hn0 Hn Ht. tracing_fields Ht.
  assert (Hw : u32_wrap (n + 1) = n + 1) by (apply Z.mod_small; lia).
  destruct o as [v code_address input is_static context|caller address value init_code].
  - destruct Hok as [t Hvt]. destruct l. simpl in *. subst.
    assert (Hty : event (via_event v)
        (mkListener EarlyTransact cost entries n (c :: rest) call_type false None false false) =
      mkListener EarlyTransact cost entries n (c :: rest) (Some t) false None false false).
    { destruct v as [opcode|]; simpl in *; [destruct (context_type_from opcode) as [[]|]|]; naive_solver. }
    unfold listen. cbn [opening_events foldl]. rewrite Hty.
    unfold opening_head. rewrite Hvt. by split.
  - destruct l. simpl in *. subst. by split.
Qed.

(** The context that a body leaves behind. *)
Lemma absorb_body body c :
  0 <= ctx_subtraces c -> ctx_subtraces c + body_counts body <= u32_max ->
  foldl absorb c body =
  mkTraceContext (entries_index c) (context_type c) (ctx_from c) (ctx_trace_address c)
    (ctx_subtraces c + body_counts body) (ctx_value c)
    (default (ctx_gas c) (last (body_gas body)))
    (match start_gas c with Some g => Some g | None => head (body_gas body) end) (ctx_data c) (ctx_to c).
Proof.
  revert c. induction body as [|nd body IH]; intros c H0 Hm; simpl in *.
  - rewrite Z.add_0_r. destruct c as [? ? ? ? ? ? ? [] ? ?]; done.
  - pose proof (node_counts_size nd) as [Hn _]. pose proof (body_counts_size body) as [Hb _].
    assert (Hc : ctx_subtraces (absorb c nd) = ctx_subtraces c + node_counts nd) by (apply absorb_counts; lia).
    rewrite IH, Hc by lia. destruct (absorb_kept c nd) as (-> & -> & -> & -> & -> & -> & ->).
    rewrite Z.add_assoc. destruct nd as [e| |]; [|done..]. unfold body_gas. simpl.
    destruct (event_gas e) as [g|]; [|done]. simpl. f_equal; [|by destruct (start_gas c)].
    destruct (omap _ body) as [|g' gs]; [done|]. simpl. by destruct (last_is_Some (g' :: gs)) as [_ [x ->]].
Qed.

(** Leaving a context stores its call. *)
Lemma run_ending l m m' done n hi c rest cost fin body h a :
  Forall (fun x => fst x < n) m -> keys_in (n + 1) hi m' ->
  c = foldl absorb (head_context n a h) body -> body_counts body <= u32_max ->
  tracing l (m ++ m') done hi (c :: rest) cost ->
  tracing (listen (ending_events fin) l) (m ++ (n, frame_call cost n a h body fin) :: m') done hi rest cost.
Proof.
  intros Hm Hm' Hc Hcount Ht. pose proof (body_counts_size body) as [Hb _].
  assert (Hcall : forall l', transaction_cost l' = cost ->
    context_call l' c (call_result (fst (ending_result fin)) (snd (ending_result fin)))
      (create_result (fst (ending_result fin)) (ctx_to c) (snd (ending_result fin))) =
    frame_call cost n a h body fin /\ entries_index c = n).
  { intros l' Hl'. rewrite absorb_body in Hc by (simpl; lia). subst c cost.
    unfold context_call, context_gas_used, frame_call. simpl.
    by destruct (ending_result fin) as [r v], (h_type h). }
  rewrite <- (keys_below_insert m m' n (frame_call cost n a h body fin) hi Hm Hm').
  unfold listen, ending_events. destruct fin as [[[reason v]|] reason' v']; simpl in *.
  - unfold pop_context_to_entry. rewrite (tr_stack _ _ _ _ _ _ Ht). simpl.
    destruct (Hcall l) as [-> ->]; [apply Ht|]. rewrite (tr_version _ _ _ _ _ _ Ht). simpl.
    apply run_insert. tracing_fields Ht. by split.
  - rewrite (tr_step _ _ _ _ _ _ Ht). unfold pop_context_to_entry. simpl.
    rewrite (tr_stack _ _ _ _ _ _ Ht). simpl.
    destruct (Hcall (put_record_only false l)) as [-> ->]; [apply Ht|].
    apply run_insert. tracing_fields Ht. by split.
Qed.

(** ** Trees *)

Lemma listen_app es1 es2 l : listen (es1 ++ es2) l = listen es2 (listen es1 l).
Proof. apply foldl_app. Qed.

(** What running a node does. *)
Definition node_runs (nd : Node) : Prop :=
  forall l m done n c rest cost,
    node_ok nd -> 0 <= n -> n + node_size nd <= u32_max -> Forall (fun x => fst x < n) m ->
    0 <= ctx_subtraces c -> ctx_subtraces c + node_counts nd <= u32_max ->
    tracing l m done n (c :: rest) cost ->
    tracing (listen (node_events nd) l)
      (m ++ node_entries cost n (ctx_trace_address c ++ [ctx_subtraces c]) (ctx_to c) nd) done
      (n + node_size nd) (absorb c nd :: rest) cost.

Lemma body_runs body : Forall node_runs body -> Forall node_ok body ->
  forall l m done n c rest cost,
    0 <= n -> n + body_size body <= u32_max -> Forall (fun x => fst x < n) m ->
    0 <= ctx_subtraces c -> ctx_subtraces c + body_counts body <= u32_max ->
    tracing l m done n (c :: rest) cost ->
    tracing (listen (body_events body) l)
      (m ++ body_entries cost n (ctx_trace_address c) (ctx_subtraces c) (ctx_to c) body) done
      (n + body_size body) (foldl absorb c body :: rest) cost.
Proof.
  intros Hruns. induction Hruns as [|nd body Hnd Hruns IH]; intros Hok l m done n c rest cost Hn Hmax Hm H0 Hs Ht.
  - simpl. by rewrite app_nil_r, Z.add_0_r.
  - apply Forall_cons in Hok as [Hok1 Hok]. simpl in Hmax, Hs.
    pose proof (node_counts_size nd) as Hc. pose proof (body_size_nonneg body).
    pose proof (body_counts_size body) as [Hb _].
    unfold body_events in *. cbn [mbind list_bind]. rewrite listen_app.
    pose proof (Hnd l m done n c rest cost Hok1 Hn ltac:(lia) Hm H0 ltac:(lia) Ht) as Ht1.
    simpl body_size. rewrite Z.add_assoc. cbn [body_entries foldl]. rewrite (assoc (++)).
    destruct (absorb_kept c nd) as (Ha & Hto & _). rewrite <- Ha at 2. rewrite <- Hto at 2.
    rewrite <- (absorb_counts c nd) by lia. apply IH; try done; try lia.
    + apply Forall_app. split; [eapply Forall_impl; [exact Hm|]; intros x Hx; simpl in *; lia|].
      eapply Forall_impl; [apply node_entries_keys|]. intros x Hx. simpl in *. lia.
    + rewrite absorb_counts; lia.
    + rewrite absorb_counts; lia.
Qed.

Lemma all_nodes_run nd : node_runs nd.
Proof.
  induction nd as [e|ad t b|o body fin IH] using node_ind'; intros l m done n c rest cost Hok Hn Hmax Hm H0 Hs Ht.
  - simpl. rewrite app_nil_r, Z.add_0_r. by apply run_plain.
  - simpl in *. assert (Hstack : context_stack l = c :: rest) by apply Ht.
    unfold listen. simpl. unfold next_trace_address. rewrite Hstack. simpl.
    unfold update_top. rewrite Hstack.
    assert (Hi : entries_next_index l = n) by apply Ht. simpl. rewrite Hi.
    rewrite <- (app_nil_r m) in Ht.
    pose proof (keys_below_insert m [] n (mkBlockscoutCall ad (ctx_trace_address c ++ [ctx_subtraces c]) 0 0 0 0
      (Inner_SelfDestruct b t)) (n + 1) Hm ltac:(constructor)) as <-.
    tracing_fields Ht. destruct (insert_into_maps n (mkBlockscoutCall ad
      (ctx_trace_address c ++ [ctx_subtraces c]) 0 0 0 0 (Inner_SelfDestruct b t)) (entries l)) as [Hd' Hm'].
    split; simpl; try congruence. rewrite Hi0. apply Z.mod_small. lia.
  - apply node_ok_frame in Hok as [Hopen Hbody]. rewrite node_size_frame in *.
    pose proof (body_size_nonneg body). pose proof (body_counts_size body).
    rewrite node_events_frame, !listen_app, node_entries_frame, Z.add_assoc.
    eapply (run_ending _ m _ done n (n + 1 + body_size body) _ _ _ fin body); [done| |done|lia|].
    + apply body_entries_keys, Forall_forall. intros nd _ n' a pto. apply node_entries_keys.
    + apply (body_runs body IH Hbody _ m done (n + 1)
        (head_context n (ctx_trace_address c ++ [ctx_subtraces c]) (opening_head (ctx_to c) o))); simpl; try lia.
      * eapply Forall_impl; [exact Hm|]. intros x Hx. simpl in *. lia.
      * by apply run_opening; try lia.
Qed.
End proof.
