(* ===== verification/CallListBlock.v ===== *)
(** * Tracing a block

    The transactions of a block one after another: the listener has one list of
    calls for each of them, and the nested format returns the trees of their
    calls. *)

From stdpp Require Import strings.
From S2P Require Import Prelude EvmEvents CallListTracing TraceFormatters CallListSpec.
#[local] Open Scope Z_scope.

(** ** Transactions *)

Inductive TxOpening :=
| tx_call (caller address value : Z) (data : Bytes)
| tx_create (caller value : Z) (init_code : Bytes) (address : Z)
| tx_create2 (caller value : Z) (init_code : Bytes) (salt address : Z).

(** The runner calls or creates for the transaction ([tx_start]), or the
    transaction ends before, with nothing in its body. *)
Record Transaction := mkTransaction {
  tx_opening : TxOpening;
  tx_cost : Z;
  tx_snapshot : Snapshot;
  tx_start : option EvmEvent;
  tx_body : list Node;
  tx_ending : Ending;
}.

Section block.
Context `{!Unicode}.

Definition tx_event (o : TxOpening) : EvmEvent :=
  match o with
  | tx_call caller address value data => Evm_TransactCall caller address value data
  | tx_create caller value init_code address => Evm_TransactCreate caller value init_code address
  | tx_create2 caller value init_code salt address => Evm_TransactCreate2 caller value init_code salt address
  end.
Definition tx_head (o : TxOpening) : Head :=
  match o with
  | tx_call caller address value data => mkHead (ContextType_Call Call_) caller value data address
  | tx_create caller value init_code address | tx_create2 caller value init_code _ address =>
      mkHead ContextType_Create caller value init_code address
  end.

Definition tx_ok (tx : Transaction) : Prop :=
  Forall node_ok (tx_body tx) /\
  match tx_start tx with
  | Some (Evm_Call _ _ _ _ | Evm_Create _ _ _ _) => True
  | Some _ => False
  | None => tx_body tx = []
  end.

Definition tx_events (tx : Transaction) : list Event :=
  [Event_CallListNew; Event_Evm (tx_event (tx_opening tx));
   Event_Gasometer (RecordTransaction (tx_cost tx) (tx_snapshot tx))]
  ++ match tx_start tx with Some e => [Event_Evm e] | None => [] end
  ++ body_events (tx_body tx) ++ ending_events (tx_ending tx).
Definition block_events (txs : list Transaction) : list Event := txs ≫= tx_events.

Definition tx_size (tx : Transaction) : Z := 1 + body_size (tx_body tx).
Definition block_size (txs : list Transaction) : Z := foldr (fun tx n => tx_size tx + n) 0 txs.

(** The calls of a transaction from index [n]; a block counts on. *)
Definition tx_entries (n : Z) (tx : Transaction) : CallMap :=
  (n, frame_call (tx_cost tx) n [] (tx_head (tx_opening tx)) (tx_body tx) (tx_ending tx))
    :: body_entries (tx_cost tx) (n + 1) [] 0 (h_to (tx_head (tx_opening tx))) (tx_body tx).
Fixpoint block_entries (n : Z) (txs : list Transaction) : list CallMap :=
  match txs with
  | [] => []
  | tx :: txs => tx_entries n tx :: block_entries (n + tx_size tx) txs
  end.

(** ** Between transactions *)

(** No transaction is open; [es] are the lists of those before. *)
Record ready (l : Listener) (es : list CallMap) (n : Z) : Prop := {
  rd_entries : filter non_empty (entries l) = es;
  rd_index : entries_next_index l = n;
  rd_stack : context_stack l = [];
  rd_step : step_result_entry l = None;
  rd_only : record_transaction_event_only l = false;
}.

Lemma entries_parts (es : list CallMap) (done : list CallMap) (m : CallMap) :
  removelast es = done -> default [] (last es) = m -> m <> [] ->
  filter non_empty es = filter non_empty done ++ [m].
Proof.
  intros <- <- Hne. destruct es as [|m es _] using rev_ind; [done|].
  rewrite removelast_last, last_snoc in *. by rewrite filter_app, filter_cons_True.
Qed.

(** The start of a transaction. *)
Lemma run_new l es n :
  ready l es n ->
  let l' := event Event_CallListNew l in
  call_list_first_transaction l = true -> entries l = [] -> skip_next_context l = false ->
  filter non_empty (removelast (entries l')) = es /\ default [] (last (entries l')) = [] /\
  entries_next_index l' = n /\ context_stack l' = [] /\ step_result_entry l' = None /\
  skip_next_context l' = false /\ call_list_first_transaction l' = false.
Proof. intros [He Hn Hs Hr Ho] l' Hf Hl Hk. unfold l'. simpl. rewrite Hf. simpl. rewrite Hl in *. by subst. Qed.

Lemma run_next l es n :
  ready l es n ->
  let l' := event Event_CallListNew l in
  call_list_first_transaction l = false ->
  filter non_empty (removelast (entries l')) = es /\ default [] (last (entries l')) = [] /\
  entries_next_index l' = n /\ context_stack l' = [] /\ step_result_entry l' = None /\
  skip_next_context l' = false /\ call_list_first_transaction l' = false.
Proof.
  intros [He Hn Hs Hr Ho] l' Hf. unfold l', event. rewrite Hf. simpl. unfold finish_transaction.
  rewrite Hs, Ho. simpl. by rewrite removelast_last, last_snoc.
Qed.

(** The transaction up to its body. *)
Lemma run_start l n tx e :
  0 <= n -> n + 1 <= u32_max -> tx_start tx = Some e -> tx_ok tx ->
  default [] (last (entries l)) = [] -> entries_next_index l = n -> context_stack l = [] ->
  step_result_entry l = None -> skip_next_context l = false -> call_list_first_transaction l = false ->
  tracing (listen [Event_Evm (tx_event (tx_opening tx));
                   Event_Gasometer (RecordTransaction (tx_cost tx) (tx_snapshot tx)); Event_Evm e] l)
    [] (removelast (entries l)) (n + 1) [head_context n [] (tx_head (tx_opening tx))] (tx_cost tx).
Proof.
  intros Hn Hm He [_ Hstart] Hlast Hi Hs Hr Hk Hf. rewrite He in Hstart.
  assert (Hw : u32_wrap (n + 1) = n + 1) by (apply Z.mod_small; lia).
  destruct l. simpl in *. subst. destruct tx as [[] cost snap start body fin]; destruct e; done.
Qed.

(** A transaction that ends before it starts. *)
Lemma run_early l n tx :
  0 <= n -> n + 1 <= u32_max -> tx_start tx = None -> tx_ok tx ->
  default [] (last (entries l)) = [] -> entries_next_index l = n -> context_stack l = [] ->
  step_result_entry l = None -> call_list_first_transaction l = false ->
  let l' := listen ([Event_Evm (tx_event (tx_opening tx));
    Event_Gasometer (RecordTransaction (tx_cost tx) (tx_snapshot tx))] ++ ending_events (tx_ending tx)) l in
  removelast (entries l') = removelast (entries l) /\ default [] (last (entries l')) = tx_entries n tx /\
  entries_next_index l' = n + 1 /\ context_stack l' = [] /\ step_result_entry l' = None /\
  record_transaction_event_only l' = false /\ call_list_first_transaction l' = false.
Proof.
  intros Hn Hm He [_ Hstart] Hlast Hi Hs Hr Hf. rewrite He in Hstart. cbv zeta.
  assert (Hw : u32_wrap (n + 1) = n + 1) by (apply Z.mod_small; lia).
  destruct l. simpl in *. subst.
  destruct tx as [o cost snap start body [step reason v]]. simpl in *. subst start body.
  destruct (insert_into_maps n (frame_call cost n [] (tx_head o) [] (mkEnding step reason v)) entries) as [Hd' Hm'].
  rewrite Hlast in Hm'. destruct o, step as [[reason' v']|]; by split_and!.
Qed.

(** A transaction as a whole. *)
Lemma run_transaction l es n tx :
  0 <= n -> n + tx_size tx <= u32_max -> tx_ok tx -> ready l es n ->
  (call_list_first_transaction l = true -> entries l = [] /\ skip_next_context l = false) ->
  let l' := listen (tx_events tx) l in
  ready l' (es ++ [tx_entries n tx]) (n + tx_size tx) /\ call_list_first_transaction l' = false.
Proof.
  intros Hn Hm Hok Hr Hfirst l'. unfold l', tx_events. unfold tx_size in *.
  pose proof (body_size_nonneg (tx_body tx)) as Hb. pose proof (body_counts_size (tx_body tx)) as [Hb0 Hb1].
  cbn [app]. change (listen (?e :: ?t) l) with (listen t (event e l)).
  set (l1 := event Event_CallListNew l).
  assert (H1 : filter non_empty (removelast (entries l1)) = es /\ default [] (last (entries l1)) = [] /\
    entries_next_index l1 = n /\ context_stack l1 = [] /\ step_result_entry l1 = None /\
    skip_next_context l1 = false /\ call_list_first_transaction l1 = false).
  { destruct (call_list_first_transaction l) eqn:Hf; [destruct (Hfirst eq_refl); by apply run_new|by apply run_next]. }
  destruct H1 as (Hes & Hlast & Hi & Hs & Hstep & Hskip & Hf). clearbody l1.
  assert (Hnil : non_empty (tx_entries n tx)) by done.
  destruct (tx_start tx) as [e|] eqn:Hst; cbn [app].
  - pose proof (run_start l1 n tx e Hn ltac:(lia) Hst Hok Hlast Hi Hs Hstep Hskip Hf) as Ht.
    pose proof (body_runs (tx_body tx) ltac:(apply Forall_forall; intros nd _; apply all_nodes_run) (proj1 Hok)
      _ [] _ (n + 1) (head_context n [] (tx_head (tx_opening tx))) [] (tx_cost tx)
      ltac:(lia) ltac:(lia) ltac:(constructor) ltac:(done) ltac:(simpl; lia) Ht) as Hbody.
    pose proof (run_ending _ [] _ _ n _ _ _ _ (tx_ending tx) (tx_body tx) _ [] ltac:(constructor)
      ltac:(apply body_entries_keys, Forall_forall; intros nd _ n' a pto; apply node_entries_keys)
      eq_refl ltac:(lia) Hbody) as Hend.
    cbn [app] in *. rewrite <- !listen_app in Hend. cbn [app] in Hend.
    destruct Hend as [Hv Hc Hd Hm' Hi' Hs' Hk' Hr' Ho' Hf']. split; [|done]. split; try done.
    + by rewrite (entries_parts _ _ _ Hd Hm' Hnil), Hes.
    + rewrite Hi'. lia.
  - destruct Hok as [Hall Hbody]. rewrite Hst in Hbody.
    destruct (run_early l1 n tx Hn ltac:(lia) Hst ltac:(by split; [|rewrite Hst]) Hlast Hi Hs Hstep Hf)
      as (Hd & Hm' & Hi' & Hs' & Hr' & Ho' & Hf').
    rewrite Hbody in *. cbn [body_size foldr app body_events mbind list_bind] in *. split; [|exact Hf'].
    split; try done.
    by rewrite (entries_parts _ _ _ Hd Hm' Hnil), Hes.
Qed.

(** ** Blocks *)

Lemma block_size_nonneg txs : 0 <= block_size txs.
Proof.
  induction txs as [|tx txs IH]; simpl; [lia|]. unfold tx_size. pose proof (body_size_nonneg (tx_body tx)). lia.
Qed.

Lemma run_block txs l es n :
  0 <= n -> n + block_size txs <= u32_max -> Forall tx_ok txs -> ready l es n ->
  (call_list_first_transaction l = true -> entries l = [] /\ skip_next_context l = false) ->
  ready (listen (block_events txs) l) (es ++ block_entries n txs) (n + block_size txs).
Proof.
  revert l es n. induction txs as [|tx txs IH]; intros l es n Hn Hm Hok Hr Hf.
  - simpl. by rewrite app_nil_r, Z.add_0_r.
  - apply Forall_cons in Hok as [Hok1 Hok]. pose proof (block_size_nonneg txs).
    assert (0 <= tx_size tx) by (unfold tx_size; pose proof (body_size_nonneg (tx_body tx)); lia).
    replace (n + block_size (tx :: txs)) with (n + tx_size tx + block_size txs) in * by (simpl; lia).
    destruct (run_transaction l es n tx Hn ltac:(lia) Hok1 Hr Hf) as [Hr1 Hf1].
    change (block_events (tx :: txs)) with (tx_events tx ++ block_events txs). rewrite listen_app.
    cbn [block_entries]. rewrite cons_middle, (assoc (++)). apply IH; try done; try lia; by rewrite Hf1.
Qed.

Lemma default_ready : ready listener_default [] 0.
Proof. by split. Qed.

(** Tracing a block makes one list of calls per transaction: the calls in
    the order in which they start, each with the address of its place in the
    tree, the address of its caller, its arguments, the number of calls in it,
    the gas between its first and last snapshot and its result; no context
    stays open. *)
Theorem block_traced txs :
  Forall tx_ok txs -> block_size txs <= u32_max ->
  let l := listen (block_events txs) listener_default in
  filter non_empty (entries l) = block_entries 0 txs /\ finish_transaction l = l.
Proof.
  intros Hok Hm l. pose proof (run_block txs listener_default [] 0 ltac:(lia) ltac:(lia) Hok default_ready
    ltac:(by intros)) as [He _ Hs _ Ho]. split; [exact He|].
  unfold l in *. unfold finish_transaction. rewrite Hs, Ho. simpl.
  destruct (listen _ _). simpl in *. by subst.
Qed.

(** ** The nested format *)

(** A call with the calls made in it. *)
Definition tracer_of (c : BlockscoutCall) (cs : list CallTracerCall) : CallTracerCall :=
  mkCallTracerCall (from c) None (gas c) (gas_used c) (call_tracer_inner (value c) (inner c)) cs.

Fixpoint node_trees (cost n parent_to : Z) (nd : Node) : list CallTracerCall :=
  match nd with
  | node_event _ => []
  | node_suicide address target balance =>
      [tracer_of (mkBlockscoutCall address [] 0 0 0 0 (Inner_SelfDestruct balance target)) []]
  | node_frame o body fin =>
      let h := opening_head parent_to o in
      [tracer_of (frame_call cost n [] h body fin)
         ((fix all (n : Z) (body : list Node) : list CallTracerCall :=
             match body with
             | [] => []
             | nd :: body => node_trees cost n (h_to h) nd ++ all (n + node_size nd) body
             end) (n + 1) body)]
  end.
Fixpoint body_trees (cost n parent_to : Z) (body : list Node) : list CallTracerCall :=
  match body with
  | [] => []
  | nd :: body => node_trees cost n parent_to nd ++ body_trees cost (n + node_size nd) parent_to body
  end.

(** The tree of the calls of a transaction. *)
Definition tx_tree (n : Z) (tx : Transaction) : CallTracerCall :=
  let h := tx_head (tx_opening tx) in
  tracer_of (frame_call (tx_cost tx) n [] h (tx_body tx) (tx_ending tx))
    (body_trees (tx_cost tx) (n + 1) (h_to h) (tx_body tx)).
Fixpoint block_trees (n : Z) (txs : list Transaction) : list CallTracerCall :=
  match txs with
  | [] => []
  | tx :: txs => tx_tree n tx :: block_trees (n + tx_size tx) txs
  end.

Lemma node_trees_frame cost n pto o body fin :
  node_trees cost n pto (node_frame o body fin) =
    [tracer_of (frame_call cost n [] (opening_head pto o) body fin)
       (body_trees cost (n + 1) (h_to (opening_head pto o)) body)].
Proof.
  simpl. do 2 f_equal. generalize (n + 1) as i. induction body as [|nd body IH]; intros i; [done|].
  simpl. by rewrite IH.
Qed.

Lemma node_trees_count cost n pto nd : Z.of_nat (length (node_trees cost n pto nd)) = node_counts nd.
Proof. by destruct nd. Qed.

Lemma located_app k a cs1 cs2 :
  located k a (cs1 ++ cs2) = located k a cs1 ++ located (k + Z.of_nat (length cs1)) a cs2.
Proof.
  revert k. induction cs1 as [|c cs1 IH]; intros k; simpl; [by rewrite Z.add_0_r|].
  rewrite IH. do 3 f_equal. lia.
Qed.

(** The trees flattened are the calls. *)
Definition node_flat (cost : Z) (nd : Node) : Prop :=
  forall n k a pto,
    to_call_tracer ∘ snd <$> node_entries cost n (a ++ [k]) pto nd =
      located k a (node_trees cost n pto nd) ≫= flatten_located.

Lemma body_flat cost body : Forall (node_flat cost) body ->
  forall n k a pto,
    to_call_tracer ∘ snd <$> body_entries cost n a k pto body =
      located k a (body_trees cost n pto body) ≫= flatten_located.
Proof.
  induction 1 as [|nd body Hnd _ IH]; intros n k a pto; [done|]. cbn [body_entries body_trees].
  by rewrite fmap_app, Hnd, IH, located_app, bind_app, node_trees_count.
Qed.

Lemma nodes_flat cost nd : node_flat cost nd.
Proof.
  induction nd as [e|ad t b|o body fin IH] using node_ind'; intros n k a pto; [done|done|].
  rewrite node_entries_frame, node_trees_frame. cbn [located mbind list_bind fmap list_fmap].
  rewrite app_nil_r. unfold flatten_located at 1. cbn [fst snd]. rewrite flatten_children.
  unfold children. cbn [fst snd tracer_calls tracer_of]. rewrite <- (body_flat cost body IH).
  f_equal. unfold frame_call. by destruct (ending_result fin).
Qed.

Lemma tx_flat n tx : to_call_tracer ∘ snd <$> tx_entries n tx = flatten [] (tx_tree n tx).
Proof.
  unfold tx_entries, tx_tree. rewrite flatten_children. cbn [fmap list_fmap].
  unfold children. cbn [fst snd tracer_calls tracer_of]. rewrite <- (body_flat (tx_cost tx)).
  - f_equal. unfold frame_call. by destruct (ending_result _).
  - apply Forall_forall. intros nd _. apply nodes_flat.
Qed.

Lemma detached_node f g u i cs : Forall detached cs -> detached (mkCallTracerCall f None g u i cs).
Proof. intros Hcs. split; [done|]. simpl. induction Hcs; done. Qed.

Lemma body_trees_detached cost body :
  Forall (fun nd => forall n pto, Forall detached (node_trees cost n pto nd)) body ->
  forall n pto, Forall detached (body_trees cost n pto body).
Proof.
  induction 1 as [|nd body Hnd _ IH]; intros n pto; simpl; [constructor|]. apply Forall_app.
  split; [apply Hnd|apply IH].
Qed.
Lemma node_trees_detached cost nd n pto : Forall detached (node_trees cost n pto nd).
Proof.
  revert n pto. induction nd as [e|ad t b|o body fin IH] using node_ind'; intros n pto; [constructor|by repeat constructor|].
  rewrite node_trees_frame. constructor; [|constructor]. by apply detached_node, body_trees_detached.
Qed.
Lemma tx_tree_detached n tx : detached (tx_tree n tx).
Proof.
  apply detached_node, body_trees_detached, Forall_forall. intros nd _. intros. apply node_trees_detached.
Qed.

Lemma call_tracer_entry_tree n tx : call_tracer_entry (tx_entries n tx) = Some [tx_tree n tx].
Proof.
  unfold call_tracer_entry. by rewrite tx_flat, nest_calls_flatten by apply tx_tree_detached.
Qed.

Lemma format_trees n txs :
  mapM call_tracer_entry (block_entries n txs) = Some ((fun t => [t]) <$> block_trees n txs).
Proof.
  revert n. induction txs as [|tx txs IH]; intros n; [done|]. cbn [block_entries mapM].
  rewrite call_tracer_entry_tree. simpl. by rewrite IH.
Qed.

Lemma block_entries_non_empty n txs : filter non_empty (block_entries n txs) = block_entries n txs.
Proof.
  revert n. induction txs as [|tx txs IH]; intros n; [done|]. simpl. by rewrite filter_cons_True, IH.
Qed.

(** The nested format of a traced block is, for each transaction, the tree
    of the calls that were made in it. *)
Theorem traced_block_trees txs :
  Forall tx_ok txs -> block_size txs <= u32_max -> txs <> [] ->
  call_tracer_format (entries (listen (block_events txs) listener_default)) =
    Some (Some (block_trees 0 txs)).
Proof.
  intros Hok Hm Hne. pose proof (run_block txs listener_default [] 0 ltac:(lia) ltac:(lia) Hok default_ready
    ltac:(by intros)) as [He _ _ _ _]. unfold call_tracer_format. rewrite He. cbn [app]. rewrite format_trees.
  assert (Hj : forall ts : list CallTracerCall, mjoin ((fun t => [t]) <$> ts) = ts).
  { induction ts as [|t ts IH]; [done|]. simpl. by f_equal. }
  rewrite Hj. by destruct txs.
Qed.
End block.
