(* ===== verification/TraceApi.v ===== *)
(** * The tracing API of the runtimes

    [trace_block] and [trace_transaction] of [DebugRuntimeApi] in
    [runtime/*/src/lib.rs] with [EvmTracer] of
    [vendor/runtime/evm-tracer/src/lib.rs]: the node has the runtime execute
    the extrinsics of a block again and receives the events of the EVM for
    those that are traced.  The execution of an extrinsic, and what the EVM
    emits meanwhile, belong to other crates. *)

From stdpp Require Import strings.
From S2P Require Import Prelude EvmEvents CallListTracing TraceFormatters CallListSpec.
From S2P Require Import CallListBlock.

(** [evm_events x w]: the events while [x] is executed in [w], in order, as
    the host decodes them. *)
Class Execution (Xt Tx Hash W : Type) := {
  ethereum_transact : Xt -> option Tx;
  tx_hash : Tx -> Hash;
  initialize_block : W -> W;
  apply_extrinsic : Xt -> W -> W;
  evm_events : Xt -> W -> list Event;
}.

Section api.
Context {Xt Tx Hash W : Type} `{EqDecision Tx, EqDecision Hash, !Execution Xt Tx Hash W}.

(** The state of the replay and the events that the node has received. *)
Definition Replay : Type := W * list Event.

(** ** [EvmTracer] *)

Definition trace (x : Xt) (r : Replay) : Replay := (apply_extrinsic x r.1, r.2 ++ evm_events x r.1).
Definition emit_new (r : Replay) : Replay := (r.1, r.2 ++ [Event_CallListNew]).
Definition replay (x : Xt) (r : Replay) : Replay := (apply_extrinsic x r.1, r.2).

(** ** The API *)

Definition trace_block_step (known_transactions : list Hash) (r : Replay) (ext : Xt) : Replay :=
  match ethereum_transact ext with
  | Some transaction =>
      if bool_decide (tx_hash transaction ∈ known_transactions)
      then trace ext (emit_new r)
      else replay ext r
  | None => replay ext r
  end.

Definition trace_block (extrinsics : list Xt) (known_transactions : list Hash) (w : W) : Replay :=
  foldl (trace_block_step known_transactions) (initialize_block w, []) extrinsics.

Inductive DispatchError := Other (message : string).

Fixpoint trace_until (traced_transaction : Tx) (extrinsics : list Xt) (r : Replay)
    : Replay * Result unit DispatchError :=
  match extrinsics with
  | [] => (r, Err (Other "Failed to find Ethereum transaction among the extrinsics."))
  | ext :: extrinsics =>
      match ethereum_transact ext with
      | Some transaction =>
          if bool_decide (transaction = traced_transaction) then (trace ext r, Ok tt)
          else trace_until traced_transaction extrinsics (replay ext r)
      | None => trace_until traced_transaction extrinsics (replay ext r)
      end
  end.

Definition trace_transaction (extrinsics : list Xt) (traced_transaction : Tx) (w : W)
    : Replay * Result unit DispatchError :=
  trace_until traced_transaction extrinsics (initialize_block w, []).

(** ** What they stand for *)

(** The execution without tracing. *)
Definition execute (extrinsics : list Xt) (w : W) : W :=
  foldl (fun w x => apply_extrinsic x w) w extrinsics.

Definition is_known (known : list Hash) (x : Xt) : bool :=
  match ethereum_transact x with Some t => bool_decide (tx_hash t ∈ known) | None => false end.

(** The known transactions of a block with the state before each. *)
Fixpoint known_runs (known : list Hash) (extrinsics : list Xt) (w : W) : list (Xt * W) :=
  match extrinsics with
  | [] => []
  | x :: extrinsics =>
      (if is_known known x then [(x, w)] else []) ++ known_runs known extrinsics (apply_extrinsic x w)
  end.

Lemma trace_block_steps known xs r :
  foldl (trace_block_step known) r xs =
    (execute xs r.1, r.2 ++ (known_runs known xs r.1 ≫= fun p => Event_CallListNew :: evm_events p.1 p.2)).
Proof.
  revert r. induction xs as [|x xs IH]; intros [w es]; simpl; [by rewrite app_nil_r|].
  rewrite IH. unfold trace_block_step, is_known.
  destruct (ethereum_transact x); [case_bool_decide|]; simpl; f_equal; by rewrite <- ?(assoc (++)).
Qed.

Lemma trace_until_spec t xs r :
  trace_until t xs r =
    match list_find (fun x => ethereum_transact x = Some t) xs with
    | Some (i, x) => (trace x (execute (take i xs) r.1, r.2), Ok tt)
    | None => ((execute xs r.1, r.2), Err (Other "Failed to find Ethereum transaction among the extrinsics."))
    end.
Proof.
  revert r. induction xs as [|x xs IH]; intros [w es]; [done|]. simpl.
  destruct (ethereum_transact x) as [t'|] eqn:Hx.
  - case_bool_decide as Ht; case_decide as Hd; [done|congruence|congruence|].
    rewrite IH. by destruct (list_find _ xs) as [[i y]|].
  - case_decide; [congruence|]. rewrite IH. by destruct (list_find _ xs) as [[i y]|].
Qed.

(** ** The calls the node sees *)

Context `{!Unicode}.

(** The EVM emits the events of the transaction [tx]; the first event of a
    transaction in a block, a new list, is the tracer's. *)
Definition runs_as (p : Xt * W) (tx : Transaction) : Prop :=
  tx_ok tx /\ Event_CallListNew :: evm_events p.1 p.2 = tx_events tx.

Lemma runs_events ps txs :
  Forall2 runs_as ps txs ->
  (ps ≫= fun p => Event_CallListNew :: evm_events p.1 p.2) = block_events txs /\ Forall tx_ok txs.
Proof.
  induction 1 as [|p tx ps txs [Hok He] _ [IH IHok]]; [done|]. split; [|by constructor].
  unfold block_events in *. rewrite !bind_cons, IH. by rewrite He.
Qed.

(** Whether a list of calls was started makes no difference to any other
    event. *)
Lemma event_put_first b e l :
  e <> Event_CallListNew -> event e (put_first b l) = put_first b (event e l).
Proof.
  intros Hne. destruct l as [v c es n st ct sk sr f o]. destruct e as [e|e|e|]; [| | |done].
  - by destruct e, st, sk, sr as [[]|], ct.
  - by destruct e, st.
  - destruct e as [|[[reason|opcode]|]| |]; try done; [by destruct st, v|].
    simpl. by destruct (context_type_from opcode) as [[]|].
Qed.

Lemma listen_put_first b es l :
  Event_CallListNew ∉ es -> listen es (put_first b l) = put_first b (listen es l).
Proof.
  revert l. induction es as [|e es IH]; intros l Hes; [done|]. apply not_elem_of_cons in Hes as [He Hes].
  change (listen (?x :: es) ?k) with (listen es (event x k)). by rewrite event_put_first, IH.
Qed.

Lemma finish_put_first b l : finish_transaction (put_first b l) = put_first b (finish_transaction l).
Proof. destruct l as [v c es n st ct sk sr f o]. unfold finish_transaction. simpl. by destruct (last st), o. Qed.

(** A transaction without the event of a new list. *)
Lemma transaction_listened es tx :
  tx_ok tx -> Event_CallListNew :: es = tx_events tx -> Event_CallListNew ∉ es -> tx_size tx <= u32_max ->
  filter non_empty (entries (finish_transaction (listen es listener_default))) = [tx_entries 0 tx].
Proof.
  intros Hok He Hnew Hsize. destruct (block_traced [tx]) as [Hes Hf]; [by constructor|simpl; lia|].
  unfold block_events in Hes, Hf. rewrite bind_cons, app_nil_r, <- He in Hes, Hf. simpl in Hes.
  change (listen (Event_CallListNew :: ?es) ?l) with (listen es (put_first false listener_default)) in Hes, Hf.
  rewrite listen_put_first in Hes, Hf by done. rewrite <- Hf, finish_put_first in Hes. exact Hes.
Qed.

(** C15: the replay of a block ends in the state of its execution, and the node,
    which closes the last list, has one list of calls per known transaction, in
    the order of the block; in the nested format it returns, for each of them,
    the tree of the calls that were made in it. *)
Theorem trace_block_faithful xs known w txs :
  Forall2 runs_as (known_runs known xs (initialize_block w)) txs -> block_size txs <= u32_max ->
  let r := trace_block xs known w in
  let es := entries (finish_transaction (listen r.2 listener_default)) in
  r.1 = execute xs (initialize_block w) /\
  filter non_empty es = block_entries 0 txs /\
  (txs <> [] -> call_tracer_format es = Some (Some (block_trees 0 txs))).
Proof.
  intros Hruns Hsize r es. unfold es, r, trace_block. rewrite trace_block_steps. cbn [fst snd app].
  apply runs_events in Hruns as [-> Hok]. destruct (block_traced txs Hok Hsize) as [He Hf]. rewrite Hf.
  split_and!; [done..|]. by apply traced_block_trees.
Qed.

(** A transaction is traced in the state it was executed in, after the
    extrinsics before it and nothing else, and the node has its calls in one
    list; without such a transaction everything is executed and nothing is
    traced. *)
Theorem trace_transaction_faithful xs t w :
  match list_find (fun x => ethereum_transact x = Some t) xs with
  | Some (i, x) =>
      let before := execute (take i xs) (initialize_block w) in
      trace_transaction xs t w = ((execute (take (S i) xs) (initialize_block w), evm_events x before), Ok tt) /\
      forall tx, runs_as (x, before) tx -> tx_size tx <= u32_max ->
        Event_CallListNew ∉ evm_events x before ->
        filter non_empty (entries (finish_transaction (listen (evm_events x before) listener_default))) =
          [tx_entries 0 tx]
  | None =>
      trace_transaction xs t w =
        ((execute xs (initialize_block w), []),
         Err (Other "Failed to find Ethereum transaction among the extrinsics."))
  end.
Proof.
  unfold trace_transaction. rewrite trace_until_spec.
  destruct (list_find _ xs) as [[i x]|] eqn:Hfind; [|done].
  apply list_find_Some in Hfind as (Hi & _ & _). split.
  - unfold trace, execute. simpl. by rewrite (take_S_r _ _ _ Hi), foldl_app.
  - intros tx [Hok He] Hsize Hnew. by apply transaction_listened.
Qed.
End api.
