(* ===== verification/RawTracing.v ===== *)
(** * The raw trace

    The listener [vendor/evm-tracing/src/listeners/raw.rs] that logs each step
    of the EVM with its memory, stack and storage, within a limit on the data
    of the log, and its format [formatters/raw.rs].  [None] is a panic.  The second
    part proves the limit. *)

From Stdlib Require Import Ascii.
From stdpp Require Import strings.
From S2P Require Import Prelude EvmEvents.
#[local] Open Scope Z_scope.

(** [convert_memory]: words of 32 bytes, big endian, the last one padded on
    the left. *)
Definition byte_values (s : Bytes) : list Z := (fun c => Z.of_N (Ascii.N_of_ascii c)) <$> String.list_ascii_of_string s.
Definition word_of (bytes : list Z) : Z := foldl (fun w b => 256 * w + b) 0 bytes.
Fixpoint chunks (fuel : nat) (bytes : list Z) : list (list Z) :=
  match bytes, fuel with
  | [], _ | _, O => []
  | _, S fuel => take 32 bytes :: chunks fuel (drop 32 bytes)
  end.
Definition convert_memory (memory : Bytes) : list Z :=
  word_of <$> chunks (length (byte_values memory)) (byte_values memory).

Record StepData := mkStepData {
  st_opcode : Bytes;
  st_depth : Z;
  st_gas : Z;
  st_gas_cost : Z;
  st_position : Z;
  st_memory : option Bytes;
  st_stack : option (list Z);
}.

Record RawStepLog := mkRawStepLog {
  log_depth : Z;
  log_gas : Z;
  log_gas_cost : Z;
  log_memory : option (list Z);
  log_op : Bytes;
  log_pc : Z;
  log_stack : option (list Z);
  log_storage : option (gmap Z Z);
}.

Record RawContext := mkRawContext {
  storage_cache : gmap Z Z;
  raw_address : Z;
  current_step : option StepData;
  global_storage_changes : gmap Z (gmap Z Z);
}.

Record RawListener := mkRawListener {
  disable_storage : bool;
  disable_memory : bool;
  disable_stack : bool;
  new_context : bool;
  raw_stack : list RawContext;
  struct_logs : list RawStepLog;
  raw_return_value : Bytes;
  final_gas : Z;
  remaining_memory_usage : option Z;
}.

Definition raw_new (disable_storage disable_memory disable_stack : bool) (raw_max_memory_usage : Z) : RawListener := {|
  disable_storage := disable_storage; disable_memory := disable_memory; disable_stack := disable_stack;
  remaining_memory_usage := Some raw_max_memory_usage; struct_logs := []; raw_return_value := "";
  final_gas := 0; new_context := false; raw_stack := [];
|}.

(** Assignments to the fields. *)
Definition put_new_context b (l : RawListener) : RawListener :=
  mkRawListener (disable_storage l) (disable_memory l) (disable_stack l) b (raw_stack l) (struct_logs l)
    (raw_return_value l) (final_gas l) (remaining_memory_usage l).
Definition put_raw_stack s (l : RawListener) : RawListener :=
  mkRawListener (disable_storage l) (disable_memory l) (disable_stack l) (new_context l) s (struct_logs l)
    (raw_return_value l) (final_gas l) (remaining_memory_usage l).
Definition put_logs s (l : RawListener) : RawListener :=
  mkRawListener (disable_storage l) (disable_memory l) (disable_stack l) (new_context l) (raw_stack l) s
    (raw_return_value l) (final_gas l) (remaining_memory_usage l).
Definition put_return v (l : RawListener) : RawListener :=
  mkRawListener (disable_storage l) (disable_memory l) (disable_stack l) (new_context l) (raw_stack l)
    (struct_logs l) v (final_gas l) (remaining_memory_usage l).
Definition put_final_gas g (l : RawListener) : RawListener :=
  mkRawListener (disable_storage l) (disable_memory l) (disable_stack l) (new_context l) (raw_stack l)
    (struct_logs l) (raw_return_value l) g (remaining_memory_usage l).
Definition put_remaining r (l : RawListener) : RawListener :=
  mkRawListener (disable_storage l) (disable_memory l) (disable_stack l) (new_context l) (raw_stack l)
    (struct_logs l) (raw_return_value l) (final_gas l) r.
Definition put_step s (c : RawContext) : RawContext :=
  mkRawContext (storage_cache c) (raw_address c) s (global_storage_changes c).
Definition put_cache m (c : RawContext) : RawContext :=
  mkRawContext m (raw_address c) (current_step c) (global_storage_changes c).
Definition put_changes m (c : RawContext) : RawContext :=
  mkRawContext (storage_cache c) (raw_address c) (current_step c) m.

(** [checked_sub] of the memory that remains. *)
Definition spend_memory (n : Z) (l : RawListener) : RawListener :=
  put_remaining (match remaining_memory_usage l with
                 | Some r => if n <=? r then Some (r - n) else None
                 | None => None
                 end) l.

Definition put_gas (g cost : Z) (s : StepData) : StepData :=
  mkStepData (st_opcode s) (st_depth s) g cost (st_position s) (st_memory s) (st_stack s).

Definition record_cost (cost : Z) (s : Snapshot) (l : RawListener) : RawListener :=
  match raw_stack l with
  | c :: stack =>
      put_final_gas (used_gas s)
        (put_raw_stack (put_step (put_gas (snapshot_gas s) cost <$> current_step c) c :: stack) l)
  | [] => l
  end.

Definition raw_gasometer_event (e : GasometerEvent) (l : RawListener) : RawListener :=
  match e with
  | RecordTransaction cost _ => put_final_gas cost (put_new_context true l)
  | RecordCost cost snapshot => record_cost cost snapshot l
  | RecordDynamicCost gas_cost _ _ snapshot => record_cost gas_cost snapshot l
  | _ => l
  end.

(** The storage changes of a context that returned, one address after another,
    applied to its parent: its cache where it is the same account (the keys it
    has), its own changes otherwise. *)
Definition update_cache (cache storage : gmap Z Z) : gmap Z Z :=
  map_imap (fun k v => Some (default v (storage !! k))) cache.
Definition apply_changes (parent : RawContext) (change : Z * gmap Z Z) : RawContext :=
  let '(address, storage) := change in
  if raw_address parent =? address then put_cache (update_cache (storage_cache parent) storage) parent
  else put_changes (<[address := storage ∪ default ∅ (global_storage_changes parent !! address)]>
         (global_storage_changes parent)) parent.
Definition return_changes (c parent : RawContext) : RawContext :=
  foldl apply_changes parent
    (map_to_list (<[raw_address c := storage_cache c]> (global_storage_changes c))).

Definition is_succeed (r : ExitReason) : bool := match r with Exit_Succeed _ => true | _ => false end.

Definition exit_context (reason : ExitReason) (return_value : Bytes) (l : RawListener) : RawListener :=
  match raw_stack l with
  | c :: stack =>
      let l := put_raw_stack stack l in
      let l := match stack with [] => put_return return_value l | _ => l end in
      if negb (disable_storage l) && is_succeed reason then
        match stack with
        | parent :: stack => put_raw_stack (return_changes c parent :: stack) l
        | [] => l
        end
      else l
  | [] => l
  end.

Definition store_value (index value : Z) (l : RawListener) : RawListener :=
  match raw_stack l with
  | c :: stack =>
      if negb (disable_storage l)
      then put_raw_stack (put_cache (<[index := value]> (storage_cache c)) c :: stack) l else l
  | [] => l
  end.

(** Part of the data of a step; [inr] when there is no memory left for it. *)
Definition keep_data {A} (disabled : bool) (data : option A) (size : A -> Z) (l : RawListener)
    : option (option A * RawListener + RawListener) :=
  if disabled then Some (inl (None, l))
  else match data with
       | None => None
       | Some d =>
           let l := spend_memory (size d) l in
           match remaining_memory_usage l with
           | Some _ => Some (inl (Some d, l))
           | None => Some (inr l)
           end
       end.

Definition string_len (s : Bytes) : Z := Z.of_nat (String.length s).

Section listener.
Context `{!Unicode}.

Definition step_event (context : EvmContext) (opcode : Bytes) (position : Result Z ExitReason)
    (stack : option Stack) (memory : option Memory) (l : RawListener) : option RawListener :=
  let l := if new_context l
           then put_raw_stack (mkRawContext ∅ (address context) None ∅ :: raw_stack l) (put_new_context false l)
           else l in
  let depth := Z.of_nat (length (raw_stack l)) in
  match raw_stack l with
  | [] => Some l
  | c :: rest =>
      match keep_data (disable_memory l) (memory_data <$> memory) string_len l with
      | None => None
      | Some (inr l) => Some l
      | Some (inl (memory, l)) =>
          match keep_data (disable_stack l) (stack_data <$> stack) (fun d => Z.of_nat (length d)) l with
          | None => None
          | Some (inr l) => Some l
          | Some (inl (stack, l)) =>
              Some (put_raw_stack
                (put_step (Some (mkStepData opcode depth 0 0
                   (match position with Ok p => p | Err _ => 0 end) memory stack)) c :: rest) l)
          end
      end
  end.

(** The log of the current step, taken from its context; [inr] when there is
    no memory left for the storage. *)
Definition log_step (l : RawListener) : RawListener + RawListener :=
  match raw_stack l with
  | [] => inl l
  | c :: rest =>
      match current_step c with
      | None => inl l
      | Some s =>
          let l := put_raw_stack (put_step None c :: rest) l in
          let log storage := mkRawStepLog (st_depth s) (st_gas s) (st_gas_cost s)
                               (convert_memory <$> st_memory s) (st_opcode s) (st_position s) (st_stack s) storage in
          if disable_storage l then inl (put_logs (struct_logs l ++ [log None]) l)
          else
            let l := spend_memory (Z.of_nat (size (storage_cache c)) * 64) l in
            match remaining_memory_usage l with
            | None => inr l
            | Some _ => inl (put_logs (struct_logs l ++ [log (Some (storage_cache c))]) l)
            end
      end
  end.

Definition raw_runtime_event (e : RuntimeEvent) (l : RawListener) : option RawListener :=
  match e with
  | Step context opcode position stack memory => step_event context opcode position stack memory l
  | StepResult result return_value =>
      match log_step l with
      | inr l => Some l
      | inl l =>
          Some match result with
               | Some (Capture_Exit reason) => exit_context reason return_value l
               | Some (Capture_Trap opcode) =>
                   match context_type_from opcode with Some _ => put_new_context true l | None => l end
               | None => l
               end
      end
  | SLoad _ index value | SStore _ index value => Some (store_value index value l)
  end.

Definition raw_event (e : Event) (l : RawListener) : option RawListener :=
  match remaining_memory_usage l with
  | None => Some l
  | Some _ =>
      match e with
      | Event_Gasometer e => Some (raw_gasometer_event e l)
      | Event_Runtime e => raw_runtime_event e l
      | _ => Some l
      end
  end.

Definition raw_listen (es : list Event) (l : RawListener) : option RawListener :=
  foldl (fun l e => l ≫= raw_event e) (Some l) es.
End listener.

Definition raw_step_event_filter (l : RawListener) : StepEventFilter :=
  {| enable_memory := negb (disable_memory l); enable_stack := negb (disable_stack l) |}.

(** [TransactionTrace::Raw]. *)
Definition raw_format (l : RawListener) : option (Z * Bytes * list RawStepLog) :=
  match remaining_memory_usage l with
  | None => None
  | Some _ => Some (final_gas l, raw_return_value l, struct_logs l)
  end.

(** * The raw trace keeps within its limit

    The data in the log, as the listener counts it, never exceeds the limit it
    was made with, and it does not panic on events filtered as it asks.  It
    counts a word of the stack as one byte, and after nested calls of a contract
    by itself the storage that it shows can be old. *)

#[local] Open Scope Z_scope.

(** ** Usage *)

(** The bytes of memory that fill [n] words, the last with at least one. *)
Definition words_usage (ws : list Z) : Z := Z.max 0 (32 * Z.of_nat (length ws) - 31).
Definition log_usage (log : RawStepLog) : Z :=
  match log_memory log with Some ws => words_usage ws | None => 0 end
  + match log_stack log with Some d => Z.of_nat (length d) | None => 0 end
  + match log_storage log with Some m => 64 * Z.of_nat (size m) | None => 0 end.
Definition logs_usage (logs : list RawStepLog) : Z := foldr (fun log n => log_usage log + n) 0 logs.

Definition step_usage (s : StepData) : Z :=
  match st_memory s with Some m => string_len m | None => 0 end
  + match st_stack s with Some d => Z.of_nat (length d) | None => 0 end.
Definition context_usage (c : RawContext) : Z :=
  match current_step c with Some s => step_usage s | None => 0 end.
Definition stack_usage (cs : list RawContext) : Z := foldr (fun c n => context_usage c + n) 0 cs.

Lemma logs_usage_app l1 l2 : logs_usage (l1 ++ l2) = logs_usage l1 + logs_usage l2.
Proof. induction l1 as [|x l1 IH]; simpl; [lia|]. rewrite IH. lia. Qed.
Lemma log_usage_nonneg log : 0 <= log_usage log.
Proof. unfold log_usage, words_usage. destruct (log_memory log), (log_stack log), (log_storage log); lia. Qed.
Lemma logs_usage_nonneg logs : 0 <= logs_usage logs.
Proof. induction logs as [|x logs IH]; simpl; [lia|]. pose proof (log_usage_nonneg x). lia. Qed.
Lemma context_usage_nonneg c : 0 <= context_usage c.
Proof. unfold context_usage, step_usage, string_len. destruct (current_step c) as [s|]; [|done].
  destruct (st_memory s), (st_stack s); lia. Qed.
Lemma stack_usage_nonneg cs : 0 <= stack_usage cs.
Proof. induction cs as [|c cs IH]; simpl; [lia|]. pose proof (context_usage_nonneg c). lia. Qed.

Lemma chunks_length fuel bytes :
  32 * Z.of_nat (length (chunks fuel bytes)) <= Z.of_nat (length bytes) + 31.
Proof.
  revert bytes. induction fuel as [|fuel IH]; intros bytes; destruct bytes as [|b bytes]; simpl; try lia.
  specialize (IH (drop 31 bytes)). rewrite length_drop in IH. lia.
Qed.
Lemma byte_values_length m : length (byte_values m) = String.length m.
Proof. unfold byte_values. rewrite length_fmap. induction m as [|c m IH]; simpl; [done|]. by rewrite IH. Qed.
Lemma convert_memory_usage m : words_usage (convert_memory m) <= string_len m.
Proof.
  unfold words_usage, convert_memory, string_len. rewrite length_fmap.
  pose proof (chunks_length (length (byte_values m)) (byte_values m)) as Hc.
  rewrite byte_values_length in *. lia.
Qed.

(** ** The invariant *)

Record raw_inv (max : Z) (l : RawListener) : Prop := {
  ri_left : 0 <= default 0 (remaining_memory_usage l);
  ri_sum : logs_usage (struct_logs l) + stack_usage (raw_stack l) + default 0 (remaining_memory_usage l) <= max;
}.

(** Spending what there is. *)
Lemma spend_memory_inv max n l :
  0 <= n -> raw_inv max l ->
  let l' := spend_memory n l in
  struct_logs l' = struct_logs l /\ raw_stack l' = raw_stack l /\
  0 <= default 0 (remaining_memory_usage l') /\
  match remaining_memory_usage l' with
  | Some r => logs_usage (struct_logs l) + stack_usage (raw_stack l) + n + r <= max
  | None => True
  end /\ logs_usage (struct_logs l) + stack_usage (raw_stack l) + default 0 (remaining_memory_usage l') <= max.
Proof.
  intros Hn [H0 Hs]. unfold spend_memory. simpl. destruct (remaining_memory_usage l) as [r|]; simpl in *; [|by split_and!; try done; lia].
  destruct (Z.leb_spec n r); simpl; split_and!; try done; lia.
Qed.

(** Contexts that are changed without their steps. *)
Lemma raw_inv_stack max l s l' :
  raw_inv max l -> stack_usage s <= stack_usage (raw_stack l) -> raw_stack l' = s ->
  struct_logs l' = struct_logs l -> remaining_memory_usage l' = remaining_memory_usage l -> raw_inv max l'.
Proof. intros [H0 Hs] Hu <- Hl Hr. split; rewrite ?Hl, Hr; lia. Qed.

Lemma return_changes_usage c parent : context_usage (return_changes c parent) = context_usage parent.
Proof.
  unfold return_changes. generalize (map_to_list (<[raw_address c := storage_cache c]> (global_storage_changes c))).
  intros chs. revert parent. induction chs as [|[a m] chs IH]; intros parent; [done|]. simpl. rewrite IH.
  unfold apply_changes. by destruct (_ =? _).
Qed.

Section safety.
Context `{!Unicode}.

Lemma gasometer_inv max e l : raw_inv max l -> raw_inv max (raw_gasometer_event e l).
Proof.
  intros Hi. assert (Hc : forall cost s, raw_inv max (record_cost cost s l)).
  { intros cost s. unfold record_cost. destruct (raw_stack l) as [|c cs] eqn:Hs; [done|].
    eapply raw_inv_stack; [exact Hi| |reflexivity|done|done]. simpl. rewrite Hs. simpl.
    unfold context_usage. simpl. destruct (current_step c); simpl; [unfold step_usage; simpl|]; lia. }
  destruct e; simpl; try done; try apply Hc. by destruct Hi.
Qed.

(** Events filtered as the listener asks. *)
Definition filtered (f : StepEventFilter) (e : Event) : Prop :=
  match e with
  | Event_Runtime (Step _ _ _ stack memory) =>
      (enable_stack f = true -> is_Some stack) /\ (enable_memory f = true -> is_Some memory)
  | _ => True
  end.

Lemma keep_data_inv {A} max disabled (data : option A) (size : A -> Z) l used :
  (forall d, 0 <= size d) -> (disabled = false -> is_Some data) -> 0 <= used ->
  0 <= default 0 (remaining_memory_usage l) -> is_Some (remaining_memory_usage l) ->
  logs_usage (struct_logs l) + stack_usage (raw_stack l) + used + default 0 (remaining_memory_usage l) <= max ->
  match keep_data disabled data size l with
  | None => False
  | Some (inr l') => raw_inv max l' /\ raw_step_event_filter l' = raw_step_event_filter l
  | Some (inl (d, l')) =>
      struct_logs l' = struct_logs l /\ raw_stack l' = raw_stack l /\
      raw_step_event_filter l' = raw_step_event_filter l /\ disable_stack l' = disable_stack l /\
      0 <= default 0 (remaining_memory_usage l') /\ is_Some (remaining_memory_usage l') /\
      logs_usage (struct_logs l) + stack_usage (raw_stack l) + used
        + match d with Some d => size d | None => 0 end + default 0 (remaining_memory_usage l') <= max
  end.
Proof.
  intros Hsz Hd Hu H0 [r Hr] Hs. unfold keep_data. destruct disabled.
  - rewrite Hr in *. simpl in *. split_and!; try done; lia.
  - destruct (Hd eq_refl) as [d ->]. unfold spend_memory. simpl. rewrite Hr in *. simpl in *.
    specialize (Hsz d). destruct (Z.leb_spec (size d) r); simpl; split_and!; try done; try lia.
    split; simpl; lia.
Qed.

Lemma step_inv max context opcode position stack memory l :
  raw_inv max l -> is_Some (remaining_memory_usage l) ->
  filtered (raw_step_event_filter l) (Event_Runtime (Step context opcode position stack memory)) ->
  exists l', step_event context opcode position stack memory l = Some l' /\ raw_inv max l' /\
    raw_step_event_filter l' = raw_step_event_filter l.
Proof.
  intros [H0 Hs] Hr [Hfs Hfm]. unfold step_event. simpl in Hfs, Hfm.
  set (l1 := if new_context l then _ else l).
  assert (H1 : struct_logs l1 = struct_logs l /\ stack_usage (raw_stack l1) = stack_usage (raw_stack l) /\
    remaining_memory_usage l1 = remaining_memory_usage l /\ disable_memory l1 = disable_memory l /\
    disable_stack l1 = disable_stack l /\ raw_step_event_filter l1 = raw_step_event_filter l)
    by (unfold l1; by destruct (new_context l)).
  destruct H1 as (Hl1 & Hu1 & Hr1 & Hm1 & Hk1 & Hf1). clearbody l1.
  rewrite <- Hl1, <- Hu1, <- Hr1 in *. rewrite <- Hf1.
  destruct (raw_stack l1) as [|c rest] eqn:Hst; [by exists l1; repeat split; rewrite ?Hst|].
  pose proof (context_usage_nonneg c) as Hc0. rewrite <- Hst in Hs.
  pose proof (keep_data_inv max (disable_memory l1) (memory_data <$> memory) string_len l1 0
    ltac:(intros d; unfold string_len; lia)) as Hkm.
  rewrite Hm1 in *. specialize (Hkm ltac:(intros Hd; rewrite Hd in *; destruct Hfm as [m ->]; [done|by eexists])
    ltac:(lia) H0 Hr ltac:(lia)).
  destruct (keep_data _ (memory_data <$> memory) _ l1) as [[[dm l2]|l2]|]; [|by exists l2; split_and!; [done|apply Hkm..]|done].
  destruct Hkm as (Hl2 & Hs2 & Hf2 & Hk2 & H02 & Hr2 & Hsum2).
  pose proof (keep_data_inv max (disable_stack l2) (stack_data <$> stack) (fun d => Z.of_nat (length d)) l2
    (match dm with Some d => string_len d | None => 0 end) ltac:(intros d; simpl; lia)) as Hks.
  rewrite Hk2, Hk1 in *. rewrite Hl2, Hs2 in Hks.
  specialize (Hks ltac:(intros Hd; rewrite Hd in *; destruct Hfs as [m ->]; [done|by eexists])
    ltac:(destruct dm; unfold string_len; lia) H02 Hr2 ltac:(lia)).
  destruct (keep_data _ (stack_data <$> stack) _ l2) as [[[ds l3]|l3]|]; [| |done].
  - destruct Hks as (Hl3 & Hs3 & Hf3 & Hk3 & H03 & Hr3 & Hsum3). eexists. split; [reflexivity|].
    split; [|by rewrite <- Hf2, <- Hf3]. split; simpl; [done|]. rewrite Hl3.
    rewrite Hst in Hsum3. simpl in Hsum3. unfold context_usage at 1, step_usage. simpl. lia.
  - destruct Hks as [Hi Hf3]. exists l3. split_and!; [done|done|by rewrite Hf3, Hf2].
Qed.

Lemma log_step_inv max l : raw_inv max l ->
  match log_step l with inl l' | inr l' => raw_inv max l' /\ raw_step_event_filter l' = raw_step_event_filter l end.
Proof.
  intros Hi. unfold log_step. destruct (raw_stack l) as [|c rest] eqn:Hst; [done|].
  destruct (current_step c) as [s|] eqn:Hc; [|done].
  assert (Hu : stack_usage (raw_stack l) = step_usage s + stack_usage rest)
    by (rewrite Hst; simpl; unfold context_usage; by rewrite Hc).
  assert (Hlog : forall st, log_usage (mkRawStepLog (st_depth s) (st_gas s) (st_gas_cost s)
    (convert_memory <$> st_memory s) (st_opcode s) (st_position s) (st_stack s) st) <=
    step_usage s + match st with Some m => 64 * Z.of_nat (size m) | None => 0 end).
  { intros st. unfold log_usage, step_usage. simpl.
    destruct (st_memory s) as [m|]; simpl; [pose proof (convert_memory_usage m)|]; lia. }
  set (l1 := put_raw_stack (put_step None c :: rest) l).
  assert (Hu1 : stack_usage (raw_stack l1) = stack_usage rest) by (simpl; unfold context_usage; simpl; lia).
  assert (Hs0 : 0 <= step_usage s) by (pose proof (context_usage_nonneg c); unfold context_usage in *; by rewrite Hc in *).
  assert (Hi1 : raw_inv (max - step_usage s) l1) by (destruct Hi as [H0 Hs]; split; [done|]; rewrite Hu1; simpl; lia).
  change (disable_storage l1) with (disable_storage l). destruct (disable_storage l) eqn:Hd.
  - split; [|done]. destruct Hi as [H0 Hs]. split; [done|]. simpl. rewrite logs_usage_app. simpl.
    specialize (Hlog None). simpl in Hlog. unfold context_usage. simpl. lia.
  - pose proof (spend_memory_inv _ (Z.of_nat (size (storage_cache c)) * 64) l1 ltac:(lia) Hi1)
      as (Hl & Hs & H0 & Hsome & Hnone).
    set (l2 := spend_memory _ l1) in *. assert (Hf : raw_step_event_filter l2 = raw_step_event_filter l) by done.
    rewrite <- Hl, <- Hs in Hsome, Hnone.
    destruct (remaining_memory_usage l2) as [r|] eqn:Hr; (split; [|exact Hf]).
    + split; cbn [put_logs struct_logs raw_stack remaining_memory_usage]; rewrite Hr; simpl default in *; [done|].
      rewrite logs_usage_app. simpl. specialize (Hlog (Some (storage_cache c))). simpl in Hlog.
      change (struct_logs l2) with (struct_logs l) in Hsome.
      change (raw_stack l2) with (put_step None c :: rest) in Hsome. simpl in Hsome. lia.
    + split; rewrite Hr; simpl default in *; lia.
Qed.

Lemma exit_inv max reason v l : raw_inv max l ->
  raw_inv max (exit_context reason v l) /\
  raw_step_event_filter (exit_context reason v l) = raw_step_event_filter l.
Proof.
  intros Hi. unfold exit_context. destruct (raw_stack l) as [|c stack] eqn:Hst; [done|].
  pose proof (context_usage_nonneg c) as Hc.
  destruct stack as [|parent stack]; destruct (_ && _); (split; [|done]);
    (eapply raw_inv_stack; [exact Hi| |reflexivity|done|done]); simpl; rewrite Hst; simpl;
    rewrite ?return_changes_usage; lia.
Qed.

Lemma raw_event_inv max e l :
  raw_inv max l -> filtered (raw_step_event_filter l) e ->
  exists l', raw_event e l = Some l' /\ raw_inv max l' /\ raw_step_event_filter l' = raw_step_event_filter l.
Proof.
  intros Hi Hf. unfold raw_event. destruct (remaining_memory_usage l) as [r|] eqn:Hr; [|by exists l].
  destruct e as [e|e|e|]; [by exists l| | |by exists l].
  - eexists. split; [reflexivity|]. split; [by apply gasometer_inv|]. destruct e; try done; simpl;
      unfold record_cost; by destruct (raw_stack l).
  - destruct e as [ctx op pos stack memory|result v|a i v|a i v]; simpl.
    + apply step_inv; [done|by rewrite Hr|done].
    + pose proof (log_step_inv max l Hi) as Hl. destruct (log_step l) as [l'|l']; destruct Hl as [Hi' Hf'].
      * eexists. split; [reflexivity|]. rewrite <- Hf'. destruct result as [[reason|opcode]|]; [by apply exit_inv| |done].
        destruct (context_type_from opcode); (split; [|done]); [by destruct Hi'|done].
      * by exists l'.
    + eexists. split; [reflexivity|]. unfold store_value. destruct (raw_stack l) as [|c cs] eqn:Hs; [done|].
      destruct (negb _); [|done]. split; [|done].
      eapply raw_inv_stack; [exact Hi| |reflexivity|done|done]. by rewrite Hs.
    + eexists. split; [reflexivity|]. unfold store_value. destruct (raw_stack l) as [|c cs] eqn:Hs; [done|].
      destruct (negb _); [|done]. split; [|done].
      eapply raw_inv_stack; [exact Hi| |reflexivity|done|done]. by rewrite Hs.
Qed.

(** On events filtered as it asks the raw listener does not panic, and the data
    in its log stays within the limit, a word of the stack counting as one. *)
Theorem raw_trace_bounded es ds dm dk max :
  0 <= max -> Forall (filtered (raw_step_event_filter (raw_new ds dm dk max))) es ->
  exists l, raw_listen es (raw_new ds dm dk max) = Some l /\ logs_usage (struct_logs l) <= max.
Proof.
  intros Hmax. set (l0 := raw_new ds dm dk max). unfold raw_listen.
  assert (H0 : raw_inv max l0) by (split; simpl; lia).
  assert (Hgen : forall es l, raw_inv max l -> raw_step_event_filter l = raw_step_event_filter l0 ->
    Forall (filtered (raw_step_event_filter l0)) es ->
    exists l', foldl (fun l e => l ≫= raw_event e) (Some l) es = Some l' /\ raw_inv max l').
  { clear es. induction es as [|e es IH]; intros l Hi Hf Hall; [by exists l|].
    apply Forall_cons in Hall as [He Hall]. simpl. rewrite <- Hf in He.
    destruct (raw_event_inv max e l Hi He) as (l' & -> & Hi' & Hf'). apply IH; [done|congruence|done]. }
  intros Hall. destruct (Hgen es l0 H0 eq_refl Hall) as (l' & Hl & [Hr Hs]). exists l'. split; [done|].
  pose proof (stack_usage_nonneg (raw_stack l')). lia.
Qed.
End safety.

(** ** Examples *)

Section examples.
#[local] Instance ascii_only : Unicode := {| unicode_uppercase _ := None |}.

Definition raw_context (a : Z) : EvmContext := mkEvmContext a 0 0.
Definition raw_step (a : Z) (stack : list Z) : Event :=
  Event_Runtime (Step (raw_context a) "JumpDest" (Ok 0) (Some (mkStack stack 1024)) (Some (mkMemory "" 0 0))).
Definition step_done : Event := Event_Runtime (StepResult None "").
Definition step_call : Event := Event_Runtime (StepResult (Some (Capture_Trap (opcodes_string 241))) "").
Definition step_return : Event := Event_Runtime (StepResult (Some (Capture_Exit (Exit_Succeed Returned))) "").
Definition raw_transaction : Event := Event_Gasometer (RecordTransaction 21000 (mkSnapshot 0 0 0 0)).

(** A limit of 1024 bytes admits a log of 1024 words of stack, 32 KiB. *)
Theorem raw_stack_undercounted :
  exists l log, raw_listen [raw_transaction; raw_step 7 (seqZ 0 1024); step_done] (raw_new false false false 1024) = Some l /\
    struct_logs l = [log] /\ log_stack log = Some (seqZ 0 1024) /\ is_Some (raw_format l).
Proof. eexists _, _. split; [vm_compute; reflexivity|]. split; [reflexivity|]. split; [by vm_compute|by eexists]. Qed.

(** A contract stores 1, calls itself, which calls itself, which stores 2: back
    in the first call the log still shows 1. *)
Definition reentrant_run : list Event :=
  [raw_transaction;
   raw_step 7 []; Event_Runtime (SStore 7 5 1); step_call;
   raw_step 7 []; step_call;
   raw_step 7 []; Event_Runtime (SStore 7 5 2); step_return;
   raw_step 7 []; step_return;
   raw_step 7 []; step_done].

Theorem reentrant_storage_stale :
  exists l, raw_listen reentrant_run (raw_new false false false 1000) = Some l /\
    (log_depth <$> struct_logs l) = [1; 2; 3; 2; 1] /\
    ((fun m => m !! 5) <$> (last (struct_logs l) ≫= log_storage)) = Some (Some 1).
Proof. eexists. split; [vm_compute; reflexivity|]. by split; vm_compute. Qed.
End examples.
