(* ===== verification/TracingExamples.v ===== *)
(** * Traces of concrete blocks

    Blocks that the theorems on tracing apply to, and blocks whose traces are
    not what they should be. *)

From stdpp Require Import strings.
From S2P Require Import Prelude EvmEvents CallListTracing TraceFormatters CallListSpec.
From S2P Require Import CallListBlock TraceApi RawTracing.
#[local] Open Scope Z_scope.

Section examples.
#[local] Instance example_unicode : Unicode := {| unicode_uppercase _ := None |}.

Definition at_gas (g : Z) : Snapshot := mkSnapshot 100000 0 (100000 - g) 0.
Definition gas_event (g : Z) : Node := node_event (Event_Gasometer (RecordCost 3 (at_gas g))).
Definition returns (v : Bytes) : Ending := mkEnding (Some (Exit_Succeed Returned, v)) (Exit_Succeed Returned) v.
Definition fails : Ending := mkEnding None Exit_Revert "".

(** A call that delegates to a contract, which creates another one and destroys
    itself, and then reads a third. *)
Definition example_body : list Node :=
  [gas_event 90000;
   node_frame (open_call (via_trap (opcodes_string 244)) 20 "data" false (mkEvmContext 10 1 5))
     [gas_event 80000; node_frame (open_create 20 30 0 "init") [] (returns "code"); node_suicide 20 1 7;
      gas_event 70000] (returns "out");
   node_frame (open_call (via_trap (opcodes_string 250)) 40 "view" true (mkEvmContext 40 10 0)) [] fails;
   gas_event 60000].
Definition example_start : EvmEvent := Evm_Call 10 "call" false (mkEvmContext 10 1 5).
Definition example_tx : Transaction :=
  mkTransaction (tx_call 1 10 5 "call") 21000 (at_gas 90000) (Some example_start) example_body (returns "done").
Definition early_tx : Transaction :=
  mkTransaction (tx_call 1 10 5 "call") 21000 (at_gas 0) None [] (mkEnding None (Exit_Error OutOfGas) "").
Definition example_block : list Transaction := [example_tx; early_tx; example_tx].

Lemma example_block_ok : Forall tx_ok example_block /\ block_size example_block <= u32_max.
Proof. split; [|vm_compute; discriminate]. repeat constructor; by eexists. Qed.

Lemma block_traced_witness :
  let l := listen (block_events example_block) listener_default in
  filter non_empty (entries l) = block_entries 0 example_block /\
  (length <$> block_entries 0 example_block) = [5; 1; 5]%nat /\
  (trace_address ∘ snd <$> tx_entries 0 example_tx) = [[]; [0]; [0; 0]; [0; 1]; [1]].
Proof.
  destruct example_block_ok as [Hok Hsize]. cbv zeta. split; [apply (block_traced example_block Hok Hsize)|].
  by split.
Defined.

Lemma traced_block_trees_witness :
  call_tracer_format (entries (listen (block_events example_block) listener_default)) =
    Some (Some (block_trees 0 example_block)) /\
  (length ∘ tracer_calls <$> block_trees 0 example_block) = [2; 0; 2]%nat.
Proof.
  destruct example_block_ok as [Hok Hsize]. split; [|done].
  apply (traced_block_trees example_block Hok Hsize). discriminate.
Defined.

(** A chain whose state is the list of the extrinsics executed; the ones at 1
    and above are Ethereum transactions, of which those at 5 and above end
    early. *)
#[local] Instance example_execution : Execution Z Z Z (list Z) := {|
  ethereum_transact x := if 1 <=? x then Some x else None;
  tx_hash t := 100 + t;
  initialize_block w := w;
  apply_extrinsic x w := x :: w;
  evm_events x _ := if x <? 1 then [] else List.tl (tx_events (if x <? 5 then example_tx else early_tx));
|}.
Definition example_extrinsics : list Z := [0; 2; 3; 5; 0; 4].

(** Of four transactions the node asks for three. *)
Lemma trace_block_faithful_witness :
  let r := trace_block (W := list Z) example_extrinsics [102; 104; 105] [] in
  let es := entries (finish_transaction (listen r.2 listener_default)) in
  r.1 = [4; 0; 5; 3; 2; 0] /\
  call_tracer_format es = Some (Some (block_trees 0 [example_tx; early_tx; example_tx])).
Proof.
  destruct (trace_block_faithful (W := list Z) example_extrinsics [102; 104; 105] []
    [example_tx; early_tx; example_tx]) as (Hw & _ & Ht);
    [|vm_compute; discriminate|split; [exact Hw|apply Ht; discriminate]].
  destruct example_block_ok as [Hok _]. unfold example_block in Hok.
  apply Forall_cons in Hok as [H1 [H2 _]%Forall_cons].
  constructor; [exact (conj H1 eq_refl)|].
  constructor; [exact (conj H2 eq_refl)|].
  constructor; [exact (conj H1 eq_refl)|constructor].
Defined.

Lemma raw_trace_bounded_witness :
  exists l, raw_listen reentrant_run (raw_new false false false 1000) = Some l /\
    logs_usage (struct_logs l) <= 1000.
Proof. apply (raw_trace_bounded reentrant_run false false false 1000); [lia|]. by repeat constructor; eexists. Defined.

(** ** The cost of a transaction *)

(** The cost of a transaction is added to the gas used by the first call of
    the first transaction that is traced and to no other: of two equal
    transactions in a block the second is shown to have used less gas. *)
Theorem second_transaction_cost_missing :
  let l := listen (block_events [example_tx; example_tx]) listener_default in
  (fun m => gas_used ∘ snd <$> take 1 m) <$> entries l = [[51000]; [30000]].
Proof. by vm_compute. Qed.

(** ** The type of a call *)

(** The events of the older runtimes have no start of a transaction. *)
Definition legacy_events : list Event :=
  [Event_CallListNew;
   Event_Evm (Evm_Call 10 "" false (mkEvmContext 10 1 0));
   Event_Runtime (StepResult (Some (Capture_Trap (opcodes_string 244))) "");
   Event_Evm (Evm_Call 20 "" false (mkEvmContext 10 1 0));
   Event_Runtime (StepResult (Some (Capture_Exit (Exit_Succeed Returned))) "");
   Event_Runtime (StepResult (Some (Capture_Exit (Exit_Succeed Returned))) "");
   Event_CallListNew;
   Event_Evm (Evm_Call 10 "" false (mkEvmContext 10 1 0));
   Event_Runtime (StepResult (Some (Capture_Exit (Exit_Succeed Returned))) "")].

(** The type of the last inner call is left for the next transaction, whose
    root call is then listed as a delegate call. *)
Theorem legacy_root_call_type :
  let l := listen legacy_events listener_default in
  version l = Legacy /\
  (fun m => inner ∘ snd <$> take 1 m) <$> entries l =
    [[Inner_Call Call_ 10 "" (CallResult_Output "")]; [Inner_Call DelegateCall 10 "" (CallResult_Output "")]].
Proof. by vm_compute. Qed.

(** ** Contexts left open *)

(** Two calls deep the transaction stops without an end: the entry of the first
    context is kept, the contexts inside are dropped, but the calls that had
    ended in them stay in the list, with addresses below a call that is not in
    it. *)
Definition left_open : list Event :=
  [Event_CallListNew; Event_Evm (Evm_TransactCall 1 10 0 ""); Event_Evm example_start]
  ++ opening_events (open_call (via_trap (opcodes_string 241)) 20 "" false (mkEvmContext 20 10 0))
  ++ node_events (node_frame (open_call (via_trap (opcodes_string 241)) 30 "" false (mkEvmContext 30 20 0)) [] (returns "")).

Theorem open_context_leaves_calls :
  let l := finish_transaction (listen left_open listener_default) in
  (fun m : CallMap => trace_address ∘ snd <$> (m : list _)) <$> entries l = [[[]; [0; 0]]].
Proof. by vm_compute. Qed.
End examples.
