(* ===== verification/TraceCache.v ===== *)
(** * The trace cache

    [vendor/rpc/trace/src/lib.rs]: the task that has blocks traced for
    [trace_filter] and keeps the results, its clients, and the tasks that trace.
    A client starts a batch of blocks, asks for their traces one after the other
    and stops the batch; some time later the batch expires.  A handler of
    [CacheTask] is a function to the new state and the effects it has outside;
    the event loop, the clients, the timers and the tracing tasks are the steps
    of [Node].  The permits, which [debug] shares, are those that it leaves.  The traces of a block, as the runtime computes them, are a
    parameter. *)

From stdpp Require Import strings.
From S2P Require Import Prelude EvmEvents CallListTracing TraceFormatters.
Open Scope Z_scope.

Abbreviation TxsTraceRes := (Result (list TransactionTrace) string).

(** ** The state of the task *)

(** One-shot channels are numbered as they are made. *)
Abbreviation Sender := nat.

Inductive CacheBlockState :=
| Pooled (started : bool) (waiting_requests : list Sender) (unqueue_sender : nat)
| Cached (traces : TxsTraceRes).

Record CacheBlock := mkCacheBlock {
  active_batch_count : Z;
  state : CacheBlockState;
}.

Section cache.
Context {Hash : Type} `{Countable Hash} (display : Hash -> string).

Inductive BlockingTaskMessage :=
| Started (block_hash : Hash)
| Finished (block_hash : Hash) (result : TxsTraceRes).

Record CacheTask := mkCacheTask {
  cached_blocks : gmap Hash CacheBlock;
  batches : gmap Z (list Hash);
  next_batch_id : Z;
  next_channel : nat;
}.

Definition put_blocks m (c : CacheTask) : CacheTask :=
  mkCacheTask m (batches c) (next_batch_id c) (next_channel c).
Definition put_batches m (c : CacheTask) : CacheTask :=
  mkCacheTask (cached_blocks c) m (next_batch_id c) (next_channel c).
Definition put_next_batch id (c : CacheTask) : CacheTask :=
  mkCacheTask (cached_blocks c) (batches c) id (next_channel c).

(** What a handler does to others: it answers a request or drops its channel,
    spawns a task that traces a block, closes the channel by which a task
    learns that it is cancelled, and hands out the id of a batch. *)
Inductive Effect :=
| Answered (sender : Sender) (result : TxsTraceRes)
| Dropped (sender : Sender)
| Spawned (unqueue : nat) (block : Hash)
| Unqueued (unqueue : nat)
| BatchStarted (batch_id : Z).

(** Dropping the state of a block closes the channels in it. *)
Definition drop_state (st : CacheBlockState) : list Effect :=
  match st with
  | Pooled _ waiting_requests unqueue_sender => (Dropped <$> waiting_requests) ++ [Unqueued unqueue_sender]
  | Cached _ => []
  end.

(** A loop over blocks. *)
Definition for_each (body : Hash -> CacheTask -> CacheTask * list Effect) (blocks : list Hash) (c : CacheTask)
    : CacheTask * list Effect :=
  foldl (fun p block => let r := body block p.1 in (r.1, p.2 ++ r.2)) (c, []) blocks.

(** ** The handlers *)

Definition start_block (block : Hash) (c : CacheTask) : CacheTask * list Effect :=
  match cached_blocks c !! block with
  | Some block_cache =>
      (put_blocks (<[block := mkCacheBlock (active_batch_count block_cache + 1) (state block_cache)]>
         (cached_blocks c)) c, [])
  | None =>
      let channel := next_channel c in
      (mkCacheTask (<[block := mkCacheBlock 1 (Pooled false [] channel)]> (cached_blocks c))
         (batches c) (next_batch_id c) (S channel),
       [Spawned channel block])
  end.

Definition request_start_batch (blocks : list Hash) (c : CacheTask) : CacheTask * list Effect :=
  let id := next_batch_id c in
  let '(c, effects) := for_each start_block blocks (put_batches (<[id := blocks]> (batches c)) c) in
  (put_next_batch (u64_wrap (id + 1)) c, effects ++ [BatchStarted id]).

Definition not_batched (block : Hash) : string :=
  "RPC request asked a block (" +:+ display block +:+ ") that was not batched".

Definition request_get_traces (sender : Sender) (block : Hash) (c : CacheTask) : CacheTask * list Effect :=
  match cached_blocks c !! block with
  | Some block_cache =>
      match state block_cache with
      | Pooled started waiting_requests unqueue_sender =>
          (put_blocks (<[block := mkCacheBlock (active_batch_count block_cache)
             (Pooled started (waiting_requests ++ [sender]) unqueue_sender)]> (cached_blocks c)) c, [])
      | Cached traces => (c, [Answered sender traces])
      end
  | None => (c, [Answered sender (Err (not_batched block))])
  end.

Definition not_started (st : CacheBlockState) : bool :=
  match st with Pooled false _ _ => true | _ => false end.

Definition stop_block (block : Hash) (c : CacheTask) : CacheTask * list Effect :=
  match cached_blocks c !! block with
  | Some block_cache =>
      if (active_batch_count block_cache =? 1) && not_started (state block_cache)
      then (put_blocks (delete block (cached_blocks c)) c, drop_state (state block_cache))
      else (c, [])
  | None => (c, [])
  end.

Definition request_stop_batch (batch_id : Z) (c : CacheTask) : CacheTask * list Effect :=
  match batches c !! batch_id with
  | Some blocks => for_each stop_block blocks c
  | None => (c, [])
  end.

Definition blocking_started (block_hash : Hash) (c : CacheTask) : CacheTask * list Effect :=
  match cached_blocks c !! block_hash with
  | Some block_cache =>
      match state block_cache with
      | Pooled _ waiting_requests unqueue_sender =>
          (put_blocks (<[block_hash := mkCacheBlock (active_batch_count block_cache)
             (Pooled true waiting_requests unqueue_sender)]> (cached_blocks c)) c, [])
      | Cached _ => (c, [])
      end
  | None => (c, [])
  end.

Definition blocking_finished (block_hash : Hash) (result : TxsTraceRes) (c : CacheTask)
    : CacheTask * list Effect :=
  match cached_blocks c !! block_hash with
  | Some block_cache =>
      match state block_cache with
      | Pooled _ waiting_requests unqueue_sender =>
          (put_blocks (<[block_hash := mkCacheBlock (active_batch_count block_cache) (Cached result)]>
             (cached_blocks c)) c,
           ((fun channel => Answered channel result) <$> reverse waiting_requests) ++ [Unqueued unqueue_sender])
      | Cached _ => (c, [])
      end
  | None => (c, [])
  end.

(** [active_batch_count] is at least one here, in every reachable state. *)
Definition expire_block (block : Hash) (c : CacheTask) : CacheTask * list Effect :=
  match cached_blocks c !! block with
  | Some block_cache =>
      let active_batch_count := active_batch_count block_cache - 1 in
      if active_batch_count =? 0
      then (put_blocks (delete block (cached_blocks c)) c, drop_state (state block_cache))
      else (put_blocks (<[block := mkCacheBlock active_batch_count (state block_cache)]> (cached_blocks c)) c, [])
  | None => (c, [])
  end.

Definition expired_batch (batch_id : Z) (c : CacheTask) : CacheTask * list Effect :=
  match batches c !! batch_id with
  | Some batch => for_each expire_block batch (put_batches (delete batch_id (batches c)) c)
  | None => (c, [])
  end.

Definition handle_message (m : BlockingTaskMessage) : CacheTask -> CacheTask * list Effect :=
  match m with
  | Started block_hash => blocking_started block_hash
  | Finished block_hash result => blocking_finished block_hash result
  end.

(** ** The node around the task *)

(** A tracing task waits for a permit, and may have been cancelled meanwhile;
    it runs; it has ended. *)
Inductive TracingTask := Queued (cancelled : bool) | Running | Ended.

(** [tasks] by their channel; [messages] on the way from them; [expirations],
    the batches whose timer runs; [open_batches], those not stopped; [asked],
    the block of each request for traces; [answers], what became of requests,
    [None] if the channel was dropped. *)
Record Node := mkNode {
  cache : CacheTask;
  tasks : gmap nat (Hash * TracingTask);
  messages : list BlockingTaskMessage;
  expirations : list Z;
  open_batches : gset Z;
  asked : list Hash;
  answers : list (Sender * option TxsTraceRes);
}.

Definition node_init : Node := mkNode (mkCacheTask ∅ ∅ 0 0) ∅ [] [] ∅ [] [].

Definition put_cache c (n : Node) : Node :=
  mkNode c (tasks n) (messages n) (expirations n) (open_batches n) (asked n) (answers n).
Definition put_tasks ts (n : Node) : Node :=
  mkNode (cache n) ts (messages n) (expirations n) (open_batches n) (asked n) (answers n).
Definition put_messages ms (n : Node) : Node :=
  mkNode (cache n) (tasks n) ms (expirations n) (open_batches n) (asked n) (answers n).
Definition put_expirations es (n : Node) : Node :=
  mkNode (cache n) (tasks n) (messages n) es (open_batches n) (asked n) (answers n).
Definition put_open os (n : Node) : Node :=
  mkNode (cache n) (tasks n) (messages n) (expirations n) os (asked n) (answers n).
Definition put_asked bs (n : Node) : Node :=
  mkNode (cache n) (tasks n) (messages n) (expirations n) (open_batches n) bs (answers n).
Definition put_answers rs (n : Node) : Node :=
  mkNode (cache n) (tasks n) (messages n) (expirations n) (open_batches n) (asked n) rs.

Definition cancel (t : Hash * TracingTask) : Hash * TracingTask :=
  match t.2 with Queued _ => (t.1, Queued true) | _ => t end.

Definition run_effect (n : Node) (e : Effect) : Node :=
  match e with
  | Answered sender result => put_answers (answers n ++ [(sender, Some result)]) n
  | Dropped sender => put_answers (answers n ++ [(sender, None)]) n
  | Spawned unqueue block => put_tasks (<[unqueue := (block, Queued false)]> (tasks n)) n
  | Unqueued unqueue => put_tasks (alter cancel unqueue (tasks n)) n
  | BatchStarted batch_id => put_open ({[batch_id]} ∪ open_batches n) n
  end.

(** A handler run by the event loop. *)
Definition run (p : CacheTask * list Effect) (n : Node) : Node := foldl run_effect (put_cache p.1 n) p.2.

Context (cache_block : Hash -> TxsTraceRes) (permits : nat).

Definition is_running (t : Hash * TracingTask) : Prop := t.2 = Running.
#[export] Instance is_running_dec t : Decision (is_running t).
Proof. unfold is_running. destruct (t.2); first [by left|by right]. Defined.
Definition running (n : Node) : nat := size (filter (fun p => is_running p.2) (tasks n)).

(** The channel of messages holds two for each permit. *)
Definition has_room (n : Node) : Prop := (length (messages n) < permits * 2)%nat.

(** Steps of the tracing tasks and of the loop with their messages. *)
Inductive internal (n : Node) : Node -> Prop :=
| task_acquires t b cancelled :
    tasks n !! t = Some (b, Queued cancelled) -> (running n < permits)%nat -> has_room n ->
    internal n (put_messages (messages n ++ [Started b]) (put_tasks (<[t := (b, Running)]> (tasks n)) n))
| task_cancelled t b :
    tasks n !! t = Some (b, Queued true) ->
    internal n (put_tasks (<[t := (b, Ended)]> (tasks n)) n)
| task_finishes t b :
    tasks n !! t = Some (b, Running) -> has_room n ->
    internal n (put_messages (messages n ++ [Finished b (cache_block b)])
                  (put_tasks (<[t := (b, Ended)]> (tasks n)) n))
| loop_message m ms :
    messages n = m :: ms ->
    internal n (run (handle_message m (cache n)) (put_messages ms n)).

(** Steps of the clients and the timers, of which [may_start] is a restriction
    on the batches that are started.  Ids wrap around after [2^64] batches; the
    id of a new batch is not in use. *)
Context (may_start : Node -> list Hash -> Prop).

Inductive external (n : Node) : Node -> Prop :=
| client_starts blocks :
    may_start n blocks -> batches (cache n) !! next_batch_id (cache n) = None -> next_batch_id (cache n) ∉ open_batches n ->
    next_batch_id (cache n) ∉ expirations n ->
    external n (run (request_start_batch blocks (cache n)) n)
| client_asks b :
    external n (run (request_get_traces (length (asked n)) b (cache n)) (put_asked (asked n ++ [b]) n))
| client_stops id :
    id ∈ open_batches n ->
    external n (run (request_stop_batch id (cache n))
                  (put_expirations (expirations n ++ [id]) (put_open (open_batches n ∖ {[id]}) n)))
| timer_expires id before after :
    expirations n = before ++ id :: after ->
    external n (run (expired_batch id (cache n)) (put_expirations (before ++ after) n)).

Definition node_step (n n' : Node) : Prop := internal n n' \/ external n n'.
Definition node_reachable : Node -> Prop := rtc node_step node_init.
End cache.
