(* ===== verification/TraceCacheSafety.v ===== *)
(** * What the trace cache guarantees

    An invariant of the node: which requests have been answered and how, which
    wait and for what, and how often a block is counted.  From it: no request
    is answered twice or wrongly, none is forgotten, and no block stays in the
    cache without a batch. *)

From stdpp Require Import strings.
From S2P Require Import Prelude EvmEvents CallListTracing TraceFormatters TraceCache.
Open Scope Z_scope.

(** ** Occurrences of blocks in batches *)

Section occurrences.
Context {Hash : Type} `{Countable Hash}.

Definition occ (b : Hash) (l : list Hash) : Z := Z.of_nat (length (filter (fun x => x = b) l)).
Definition refs (b : Hash) (bs : gmap Z (list Hash)) : Z := occ b (mjoin (map_to_list bs).*2).

Lemma occ_nonneg b l : 0 <= occ b l.
Proof. unfold occ. lia. Qed.
Lemma occ_cons b x l : occ b (x :: l) = (if decide (x = b) then 1 else 0) + occ b l.
Proof. unfold occ. rewrite filter_cons. case_decide; simpl; lia. Qed.
Lemma occ_app b l k : occ b (l ++ k) = occ b l + occ b k.
Proof. unfold occ. rewrite filter_app, length_app. lia. Qed.
Lemma occ_elem_of b l : b ∈ l <-> 0 < occ b l.
Proof.
  induction l as [|x l IH]; [split; [by intros ?%not_elem_of_nil|done]|].
  rewrite elem_of_cons, occ_cons, IH. pose proof (occ_nonneg b l). case_decide; naive_solver lia.
Qed.
Lemma occ_perm b l k : l ≡ₚ k -> occ b l = occ b k.
Proof. intros Hp. unfold occ. by rewrite Hp. Qed.

Lemma refs_insert b id l bs : bs !! id = None -> refs b (<[id := l]> bs) = occ b l + refs b bs.
Proof.
  intros Hid. unfold refs. rewrite <- occ_app. apply occ_perm.
  by rewrite (map_to_list_insert _ _ _ Hid).
Qed.
Lemma refs_delete b id l bs : bs !! id = Some l -> refs b bs = occ b l + refs b (delete id bs).
Proof.
  intros Hid. unfold refs. rewrite <- occ_app. apply occ_perm. by rewrite <- (map_to_list_delete _ _ _ Hid).
Qed.
Lemma refs_elem_of b bs : 0 < refs b bs -> exists id l, bs !! id = Some l /\ b ∈ l.
Proof.
  unfold refs. rewrite <- occ_elem_of. intros (l & Hb & Hl)%list_elem_of_join.
  apply list_elem_of_fmap in Hl as ([id l'] & -> & Hl%elem_of_map_to_list). eauto.
Qed.
Lemma refs_empty b : refs b ∅ = 0.
Proof. done. Qed.
Lemma refs_nonneg b bs : 0 <= refs b bs.
Proof. apply occ_nonneg. Qed.
End occurrences.

(** ** Running handlers *)

Section runs.
Context {Hash : Type} `{Countable Hash}.
Abbreviation CacheNode := (Node (Hash := Hash)).
Abbreviation Task := (CacheTask (Hash := Hash)).

Lemma run_effects_cache es (n : CacheNode) : cache (foldl run_effect n es) = cache n.
Proof. revert n. induction es as [|e es IH]; intros n; [done|]. simpl. rewrite IH. by destruct e. Qed.

Lemma run_cache p (n : CacheNode) : cache (run p n) = p.1.
Proof. unfold run. by rewrite run_effects_cache. Qed.

Lemma put_cache_effects es c (n : CacheNode) :
  put_cache c (foldl run_effect n es) = foldl run_effect (put_cache c n) es.
Proof. revert n. induction es as [|e es IH]; intros n; [done|]. simpl. rewrite IH. by destruct e. Qed.

Lemma run_app c es1 es2 (n : CacheNode) : run (c, es1 ++ es2) n = foldl run_effect (run (c, es1) n) es2.
Proof. unfold run. simpl. by rewrite foldl_app. Qed.

(** A loop over blocks is run block by block. *)
Lemma run_for_each body bl (c : Task) (n : CacheNode) :
  run (for_each body bl c) n = foldl (fun n b => run (body b (cache n)) n) (put_cache c n) bl.
Proof.
  unfold for_each. change (put_cache c n) with (run (c, []) n). generalize (@nil (Effect (Hash := Hash))) as es.
  revert c n. induction bl as [|b bl IH]; intros c n es; [done|]. simpl. rewrite IH. f_equal.
  rewrite run_app, run_cache. unfold run. simpl. by rewrite put_cache_effects.
Qed.

Lemma run_dropped ws (n : CacheNode) :
  foldl run_effect n (Dropped <$> ws) = put_answers (answers n ++ ((fun s => (s, None)) <$> ws)) n.
Proof.
  revert n. induction ws as [|w ws IH]; intros n; simpl; [by rewrite app_nil_r; destruct n|].
  rewrite IH. unfold put_answers. simpl. by rewrite <- (assoc (++)).
Qed.
Lemma run_answered r ws (n : CacheNode) :
  foldl run_effect n ((fun s => Answered s r) <$> ws) =
    put_answers (answers n ++ ((fun s => (s, Some r)) <$> ws)) n.
Proof.
  revert n. induction ws as [|w ws IH]; intros n; simpl; [by rewrite app_nil_r; destruct n|].
  rewrite IH. unfold put_answers. simpl. by rewrite <- (assoc (++)).
Qed.
End runs.

(** ** The requests that wait *)

Definition waiting_of (bc : CacheBlock) : list Sender :=
  match state bc with Pooled _ ws _ => ws | Cached _ => [] end.

Section waiting.
Context {Hash : Type} `{Countable Hash}.

Definition waiting (m : gmap Hash CacheBlock) : list Sender := map_to_list m ≫= fun p => waiting_of p.2.

Lemma waiting_delete (m : gmap Hash CacheBlock) b bc :
  m !! b = Some bc -> waiting m ≡ₚ waiting_of bc ++ waiting (delete b m).
Proof. intros Hb. unfold waiting. rewrite <- (map_to_list_delete m b bc Hb). by rewrite bind_cons. Qed.
Lemma waiting_insert (m : gmap Hash CacheBlock) b bc :
  waiting (<[b := bc]> m) ≡ₚ waiting_of bc ++ waiting (delete b m).
Proof.
  rewrite <- insert_delete_eq. unfold waiting. rewrite map_to_list_insert by apply lookup_delete_eq.
  by rewrite bind_cons.
Qed.
Lemma waiting_same (m : gmap Hash CacheBlock) b bc bc' :
  m !! b = Some bc -> waiting_of bc' = waiting_of bc -> waiting (<[b := bc']> m) ≡ₚ waiting m.
Proof. intros Hb Hw. by rewrite waiting_insert, (waiting_delete m b bc Hb), Hw. Qed.
Lemma waiting_new (m : gmap Hash CacheBlock) b bc :
  m !! b = None -> waiting_of bc = [] -> waiting (<[b := bc]> m) ≡ₚ waiting m.
Proof. intros Hb Hw. by rewrite waiting_insert, Hw, delete_id. Qed.
Lemma elem_of_waiting (m : gmap Hash CacheBlock) s :
  s ∈ waiting m <-> exists b bc, m !! b = Some bc /\ s ∈ waiting_of bc.
Proof.
  unfold waiting. rewrite list_elem_of_bind. split.
  - intros ([b bc] & Hs & Hb%elem_of_map_to_list). eauto.
  - intros (b & bc & Hb & Hs). exists (b, bc). by rewrite elem_of_map_to_list.
Qed.
End waiting.

(** ** The invariant *)

Section invariant.
Context {Hash : Type} `{Countable Hash} (display : Hash -> string).
Context (cache_block : Hash -> TxsTraceRes) (permits : nat).
Abbreviation CacheNode := (Node (Hash := Hash)).
Abbreviation Task := (CacheTask (Hash := Hash)).

(** The task of a pooled block is queued or runs, or its traces are on their way. *)
Definition task_alive (n : CacheNode) (b : Hash) (t : nat) : Prop :=
  tasks n !! t = Some (b, Queued false) \/ tasks n !! t = Some (b, Running) \/
  tasks n !! t = Some (b, Ended) /\ exists r, Finished b r ∈ messages n.

Record node_ok (n : CacheNode) : Prop := {
  ok_pooled b k st ws t :
    cached_blocks (cache n) !! b = Some (mkCacheBlock k (Pooled st ws t)) -> task_alive n b t;
  ok_cached b k r : cached_blocks (cache n) !! b = Some (mkCacheBlock k (Cached r)) -> r = cache_block b;
  ok_fresh t p : tasks n !! t = Some p -> (t < next_channel (cache n))%nat;
  ok_messages b r : Finished b r ∈ messages n -> r = cache_block b;
  ok_waiting b bc s :
    cached_blocks (cache n) !! b = Some bc -> s ∈ waiting_of bc -> asked n !! s = Some b;
  ok_answers s r :
    (s, Some r) ∈ answers n ->
    exists b, asked n !! s = Some b /\ (r = cache_block b \/ r = Err (not_batched display b));
  ok_once : (answers n).*1 ++ waiting (cached_blocks (cache n)) ≡ₚ seq 0 (length (asked n));
}.

(** Each entry counts at least one batch and no more than there are, but for
    the [d] that a loop over blocks has still to account for. *)
Definition counts_ok (d : Hash -> Z) (c : Task) : Prop :=
  forall b bc, cached_blocks c !! b = Some bc -> 1 <= active_batch_count bc <= refs b (batches c) + d b.

Lemma init_ok : node_ok node_init.
Proof. split; simpl; try done; intros *; try (by rewrite lookup_empty); by intros ?%not_elem_of_nil. Qed.

(** An entry is counted anew. *)
Lemma ok_recount n b bc k :
  node_ok n -> cached_blocks (cache n) !! b = Some bc ->
  node_ok (put_cache (put_blocks (<[b := mkCacheBlock k (state bc)]> (cached_blocks (cache n))) (cache n)) n).
Proof.
  intros [Hp Hc Hf Hm Hw Ha Ho] Hb. destruct bc as [k0 st]. split; simpl; try done.
  - intros b' k' s ws t [[-> [= -> ->]]|[Hne Hb']]%lookup_insert_Some; [by apply (Hp b' k0 s ws)|by apply (Hp b' k' s ws)].
  - intros b' k' r [[-> [= -> ->]]|[Hne Hb']]%lookup_insert_Some; [by apply (Hc b' k0)|by apply (Hc b' k')].
  - intros b' bc s [[-> <-]|[Hne Hb']]%lookup_insert_Some; [by apply (Hw b' (mkCacheBlock k0 st))|by apply (Hw b' bc)].
  - by rewrite (waiting_same _ b (mkCacheBlock k0 st)).
Qed.

(** A block is pooled. *)
Lemma ok_spawn n b :
  node_ok n -> cached_blocks (cache n) !! b = None ->
  node_ok (run (start_block b (cache n)) n).
Proof.
  intros [Hp Hc Hf Hm Hw Ha Ho] Hb. unfold start_block. rewrite Hb. unfold run. simpl.
  assert (Hnew : tasks n !! next_channel (cache n) = None).
  { destruct (tasks n !! next_channel (cache n)) as [p|] eqn:Ht; [|done]. apply Hf in Ht. lia. }
  split; simpl; try done.
  - intros b' k' s ws t [[-> [= <- <- <- <-]]|[Hne Hb']]%lookup_insert_Some.
    + left. apply lookup_insert_eq.
    + pose proof (Hp b' k' s ws t Hb') as Ht. unfold task_alive in *. simpl.
      rewrite lookup_insert_ne; [done|]. intros <-. rewrite Hnew in Ht. naive_solver.
  - intros b' k' r [[-> [=]]|[Hne Hb']]%lookup_insert_Some. by apply (Hc b' k').
  - intros t p [[<- _]|[_ Ht]]%lookup_insert_Some; [lia|]. apply Hf in Ht. lia.
  - intros b' bc s [[-> <-]|[Hne Hb']]%lookup_insert_Some; [by intros ?%not_elem_of_nil|by apply (Hw b' bc)].
  - by rewrite waiting_new.
Qed.

Lemma alive_task (n : CacheNode) b t : task_alive n b t -> exists k, tasks n !! t = Some (b, k).
Proof. unfold task_alive. naive_solver. Qed.

(** Cancelling a task affects no other. *)
Lemma cancel_other (n : CacheNode) b b' t t' :
  task_alive n b t -> (exists k, tasks n !! t' = Some (b', k)) -> b <> b' ->
  task_alive (put_tasks (alter cancel t' (tasks n)) n) b t.
Proof.
  intros Ht Ht' Hne. unfold task_alive in *. simpl.
  rewrite lookup_alter_ne; [done|]. intros ->. naive_solver.
Qed.
Lemma alter_fresh (n : CacheNode) t c :
  (forall t p, tasks n !! t = Some p -> (t < c)%nat) ->
  forall t' p, alter cancel t (tasks n) !! t' = Some p -> (t' < c)%nat.
Proof.
  intros Hf t' p Ht'. destruct (decide (t = t')) as [<-|Hne].
  - rewrite lookup_alter_eq in Ht'. apply fmap_Some in Ht' as (p' & Ht' & _). by eapply Hf.
  - rewrite lookup_alter_ne in Ht' by done. by eapply Hf.
Qed.

Lemma answers_app (n : CacheNode) rs b bc ws :
  (forall s, s ∈ rs.*1 -> asked n !! s = Some b) ->
  (forall s r, (s, Some r) ∈ rs -> r = cache_block b) ->
  cached_blocks (cache n) !! b = Some bc -> rs.*1 ≡ₚ ws -> waiting_of bc = ws ->
  node_ok n ->
  (forall s r, (s, Some r) ∈ answers n ++ rs ->
     exists b, asked n !! s = Some b /\ (r = cache_block b \/ r = Err (not_batched display b))) /\
  (answers n ++ rs).*1 ++ waiting (delete b (cached_blocks (cache n))) ≡ₚ seq 0 (length (asked n)).
Proof.
  intros Hs Hr Hb Hws Hw [_ _ _ _ _ Ha Ho]. split.
  - intros s r [Hsr|Hsr]%elem_of_app; [by apply Ha|]. exists b. split; [|left; by eapply Hr].
    apply Hs, list_elem_of_fmap. by exists (s, Some r).
  - rewrite <- Ho, (waiting_delete _ b bc Hb), fmap_app, Hw, Hws. by rewrite (assoc (++)).
Qed.

(** An entry is removed, and what it holds is dropped. *)
Lemma ok_remove n b bc :
  node_ok n -> cached_blocks (cache n) !! b = Some bc ->
  node_ok (run (put_blocks (delete b (cached_blocks (cache n))) (cache n), drop_state (state bc)) n).
Proof.
  intros Hok Hb. pose proof Hok as [Hp Hc Hf Hm Hw Ha Ho]. unfold run. destruct bc as [k [st ws t|r]].
  - unfold drop_state. simpl. rewrite foldl_app, run_dropped. simpl.
    destruct (answers_app n ((fun s => (s, None)) <$> ws) b (mkCacheBlock k (Pooled st ws t)) ws) as [Ha' Ho'];
      [| |done| |done|done|].
    { intros s. rewrite <- list_fmap_compose. unfold compose. simpl. rewrite list_fmap_id.
      intros Hs. by apply (Hw b (mkCacheBlock k (Pooled st ws t))). }
    { intros s r. by intros (x & [= ] & _)%list_elem_of_fmap. }
    { rewrite <- list_fmap_compose. unfold compose. simpl. by rewrite list_fmap_id. }
    split; simpl; try done.
    + intros b' k' st' ws' t' [Hne Hb']%lookup_delete_Some.
      apply (cancel_other (put_cache _ (put_answers _ n)) b' b t' t); [|by eapply alive_task, (Hp b k st ws)|done].
      by apply (Hp b' k' st' ws').
    + intros b' k' r [Hne Hb']%lookup_delete_Some. by apply (Hc b' k').
    + by apply alter_fresh.
    + intros b' bc s [Hne Hb']%lookup_delete_Some. by apply (Hw b').
  - simpl. split; simpl; try done.
    + intros b' k' st' ws' t' [Hne Hb']%lookup_delete_Some. by apply (Hp b' k' st' ws').
    + intros b' k' r' [Hne Hb']%lookup_delete_Some. by apply (Hc b' k').
    + intros b' bc s [Hne Hb']%lookup_delete_Some. by apply (Hw b').
    + rewrite <- Ho. by rewrite (waiting_delete _ b _ Hb).
Qed.

(** ** The loops *)

Lemma ok_put_cache n c :
  node_ok n -> cached_blocks c = cached_blocks (cache n) -> next_channel c = next_channel (cache n) ->
  node_ok (put_cache c n).
Proof. intros [Hp Hc Hf Hm Hw Ha Ho] Hb Hn. split; simpl; rewrite ?Hb, ?Hn; done. Qed.

Lemma put_cache_same (n : CacheNode) : put_cache (cache n) n = n.
Proof. by destruct n. Qed.

Lemma ok_for_each (body : Hash -> Task -> Task * list (Effect (Hash := Hash))) bl (n : CacheNode) :
  (forall b n, node_ok n -> node_ok (run (body b (cache n)) n)) ->
  node_ok n -> node_ok (foldl (fun n b => run (body b (cache n)) n) n bl).
Proof. intros Hbody. revert n. induction bl as [|b bl IH]; intros n Hn; [done|]. apply IH, Hbody, Hn. Qed.

Lemma ok_start_block b n : node_ok n -> node_ok (run (start_block b (cache n)) n).
Proof.
  intros Hn. destruct (cached_blocks (cache n) !! b) as [bc|] eqn:Hb; [|by apply ok_spawn].
  unfold start_block. rewrite Hb. unfold run. simpl. by apply ok_recount.
Qed.
Lemma ok_stop_block b n : node_ok n -> node_ok (run (stop_block b (cache n)) n).
Proof.
  intros Hn. unfold stop_block. destruct (cached_blocks (cache n) !! b) as [bc|] eqn:Hb;
    [case_match; [by apply ok_remove|]|]; unfold run; simpl; by rewrite put_cache_same.
Qed.
Lemma ok_expire_block b n : node_ok n -> node_ok (run (expire_block b (cache n)) n).
Proof.
  intros Hn. unfold expire_block. destruct (cached_blocks (cache n) !! b) as [bc|] eqn:Hb.
  - simpl. case_match; [by apply ok_remove|]. unfold run. simpl. by apply ok_recount.
  - unfold run. simpl. by rewrite put_cache_same.
Qed.

(** ** The handlers of requests *)

Lemma run_batch_start bl (n : CacheNode) :
  let id := next_batch_id (cache n) in
  run (request_start_batch bl (cache n)) n =
    run_effect (put_cache (put_next_batch (u64_wrap (id + 1)) (cache (foldl (fun n b => run (start_block b (cache n)) n)
      (put_cache (put_batches (<[id := bl]> (batches (cache n))) (cache n)) n) bl)))
      (foldl (fun n b => run (start_block b (cache n)) n)
        (put_cache (put_batches (<[id := bl]> (batches (cache n))) (cache n)) n) bl)) (BatchStarted id).
Proof.
  intros id. rewrite <- run_for_each, run_cache. unfold request_start_batch. fold id.
  destruct (for_each start_block bl _) as [c es] eqn:Hfe. rewrite run_app. unfold run at 1.
  cbn [fst snd foldl]. unfold run. cbn [fst snd]. by rewrite put_cache_effects.
Qed.

Lemma ok_starts bl (n : CacheNode) : node_ok n -> node_ok (run (request_start_batch bl (cache n)) n).
Proof.
  intros Hn. rewrite run_batch_start.
  assert (Hm : node_ok (foldl (fun n b => run (start_block b (cache n)) n)
    (put_cache (put_batches (<[next_batch_id (cache n) := bl]> (batches (cache n))) (cache n)) n) bl)).
  { apply ok_for_each; [apply ok_start_block|]. by apply ok_put_cache. }
  set (m := foldl _ _ _) in *. clearbody m. apply (ok_put_cache m (put_next_batch
    (u64_wrap (next_batch_id (cache n) + 1)) (cache m))) in Hm; [|done..].
  destruct Hm as [Hp Hc Hf Hms Hw Ha Ho]. by split.
Qed.

Lemma ok_stops id (n : CacheNode) : node_ok n -> node_ok (run (request_stop_batch id (cache n)) n).
Proof.
  intros Hn. unfold request_stop_batch. destruct (batches (cache n) !! id) as [bl|].
  - rewrite run_for_each, put_cache_same. by apply ok_for_each; [apply ok_stop_block|].
  - unfold run. simpl. by rewrite put_cache_same.
Qed.

Lemma ok_expires id (n : CacheNode) : node_ok n -> node_ok (run (expired_batch id (cache n)) n).
Proof.
  intros Hn. unfold expired_batch. destruct (batches (cache n) !! id) as [bl|].
  - rewrite run_for_each. apply ok_for_each; [apply ok_expire_block|]. by apply ok_put_cache.
  - unfold run. simpl. by rewrite put_cache_same.
Qed.

Lemma seq_snoc k : seq 0 (S k) = seq 0 k ++ [k].
Proof. by rewrite seq_S. Qed.

Lemma ok_asks b (n : CacheNode) :
  node_ok n ->
  node_ok (run (request_get_traces display (length (asked n)) b (cache n)) (put_asked (asked n ++ [b]) n)).
Proof.
  intros [Hp Hc Hf Hm Hw Ha Ho]. unfold request_get_traces.
  assert (Hlast : (asked n ++ [b]) !! length (asked n) = Some b) by (apply list_lookup_middle; done).
  assert (Hold : forall s b', asked n !! s = Some b' -> (asked n ++ [b]) !! s = Some b')
    by (intros s b' Hs; by apply lookup_app_l_Some).
  assert (Hold' : forall s r, (s, Some r) ∈ answers n -> exists b', (asked n ++ [b]) !! s = Some b' /\
    (r = cache_block b' \/ r = Err (not_batched display b'))).
  { intros s r Hs. destruct (Ha s r Hs) as (b' & ? & ?). eauto. }
  assert (Hanswer : forall r, r = cache_block b \/ r = Err (not_batched display b) ->
    node_ok (put_answers (answers n ++ [(length (asked n), Some r)]) (put_asked (asked n ++ [b]) n))).
  { intros r Hr. split; simpl; try done; [by eauto| |].
    - intros s r' [Hs|Hs]%elem_of_app; [by apply Hold'|]. apply list_elem_of_singleton in Hs as [= -> ->]. eauto.
    - rewrite length_app, Nat.add_1_r, seq_snoc, <- Ho, fmap_app. simpl.
      rewrite <- !(assoc_L (++)). f_equiv. apply Permutation_app_comm. }
  destruct (cached_blocks (cache n) !! b) as [[k st]|] eqn:Hb; [destruct st as [st ws t|r]|].
  - unfold run. simpl. split; simpl; try done.
    + intros b' k' st' ws' t' [[-> [= <- <- <- <-]]|[Hne Hb']]%lookup_insert_Some;
        [by apply (Hp b' k st ws t)|by apply (Hp b' k' st' ws' t')].
    + intros b' k' r [[-> [=]]|[Hne Hb']]%lookup_insert_Some. by apply (Hc b' k').
    + intros b' bc s [[-> <-]|[Hne Hb']]%lookup_insert_Some Hs; [|by eapply Hold, Hw].
      apply elem_of_app in Hs as [Hs|Hs]; [by eapply Hold, (Hw b' _ s Hb)|].
      by apply list_elem_of_singleton in Hs as ->.
    + rewrite length_app, Nat.add_1_r, seq_snoc, <- Ho, waiting_insert, (waiting_delete _ b _ Hb). simpl.
      unfold waiting_of at 1 2. cbn [state]. rewrite <- !(assoc_L (++)). do 2 f_equiv. apply Permutation_app_comm.
  - unfold run. simpl. rewrite <- put_cache_same at 1. apply Hanswer. left. by apply (Hc b k).
  - unfold run. simpl. rewrite <- put_cache_same at 1. apply Hanswer. by right.
Qed.

(** ** The tracing tasks and their messages *)

Lemma alive_more (n n' : CacheNode) b t :
  task_alive n b t -> tasks n' !! t = tasks n !! t ->
  (forall m, m ∈ messages n -> m ∈ messages n') -> task_alive n' b t.
Proof. unfold task_alive. intros Ht -> Hm. naive_solver. Qed.

Lemma ok_task (n : CacheNode) t b k k' ms :
  node_ok n -> tasks n !! t = Some (b, k) ->
  (forall b' r, Finished b' r ∈ ms -> r = cache_block b') ->
  (k = Queued true \/ k' = Running \/ k' = Ended /\ exists r, Finished b r ∈ ms) ->
  node_ok (put_messages (messages n ++ ms) (put_tasks (<[t := (b, k')]> (tasks n)) n)).
Proof.
  intros [Hp Hc Hf Hm Hw Ha Ho] Ht Hms Hk. split; simpl; try done.
  - intros b' j st ws t' Hb'. pose proof (Hp b' j st ws t' Hb') as Hal.
    destruct (decide (t' = t)) as [->|Hne].
    + assert (b' = b) as -> by (unfold task_alive in Hal; naive_solver).
      destruct Hk as [->|[->|[-> (r & Hr)]]].
      * unfold task_alive in Hal. naive_solver.
      * right. left. simpl. apply lookup_insert_eq.
      * right. right. simpl. rewrite lookup_insert_eq. split; [done|]. exists r. apply elem_of_app. by right.
    + eapply alive_more; [done| |].
      * simpl. by rewrite lookup_insert_ne.
      * intros m Hmm. simpl. apply elem_of_app. by left.
  - intros t' p [[<- _]|[_ Ht']]%lookup_insert_Some; by eapply Hf.
  - intros b' r [Hr|Hr]%elem_of_app; [by apply Hm|by apply Hms].
Qed.

Lemma ok_message_started b ms (n : CacheNode) :
  node_ok n -> messages n = Started b :: ms ->
  node_ok (run (blocking_started b (cache n)) (put_messages ms n)).
Proof.
  intros [Hp Hc Hf Hm Hw Ha Ho] Hms.
  assert (Hfin : forall b' r, Finished b' r ∈ messages n <-> Finished b' r ∈ ms).
  { intros b' r. rewrite Hms, elem_of_cons. naive_solver. }
  assert (Hal : forall b' t, task_alive n b' t -> task_alive (put_messages ms n) b' t).
  { intros b' t. unfold task_alive. simpl. setoid_rewrite Hfin. done. }
  assert (Hn : node_ok (put_messages ms n)).
  { split; simpl; try done; [|by setoid_rewrite <- Hfin]. intros. by eapply Hal, Hp. }
  unfold blocking_started. destruct (cached_blocks (cache n) !! b) as [[k st]|] eqn:Hb;
    [destruct st as [st ws t|r]|]; unfold run; simpl.
  - destruct Hn as [Hp' Hc' _ Hm' _ _ _]. simpl in *. split; simpl; try done.
    + intros b' k' st' ws' t' [[-> [= <- <- <- <-]]|[Hne Hb']]%lookup_insert_Some;
        [by apply (Hp' b' k st ws t)|by apply (Hp' b' k' st' ws' t')].
    + intros b' k' r [[-> [=]]|[Hne Hb']]%lookup_insert_Some. by apply (Hc b' k').
    + intros b' bc s [[-> <-]|[Hne Hb']]%lookup_insert_Some Hs; [by apply (Hw b' _ s Hb)|by apply (Hw b' bc)].
    + by rewrite (waiting_same _ b _ _ Hb).
  - exact Hn.
  - exact Hn.
Qed.

Lemma ok_message_finished b r ms (n : CacheNode) :
  node_ok n -> messages n = Finished b r :: ms ->
  node_ok (run (blocking_finished b r (cache n)) (put_messages ms n)).
Proof.
  intros Hok Hms. pose proof Hok as [Hp Hc Hf Hm Hw Ha Ho].
  assert (Hr : r = cache_block b) by (apply Hm; rewrite Hms; by left).
  assert (Hin : forall b' r', Finished b' r' ∈ ms -> Finished b' r' ∈ messages n) by (rewrite Hms; by right).
  assert (Hal : forall b' t, b' <> b -> task_alive n b' t -> task_alive (put_messages ms n) b' t).
  { intros b' t Hne. unfold task_alive. simpl. setoid_rewrite Hms. setoid_rewrite elem_of_cons. naive_solver. }
  unfold blocking_finished. destruct (cached_blocks (cache n) !! b) as [[k st]|] eqn:Hb;
    [destruct st as [st ws t|r']|]; unfold run; simpl.
  - rewrite foldl_app, run_answered. simpl.
    destruct (answers_app n ((fun s => (s, Some r)) <$> reverse ws) b (mkCacheBlock k (Pooled st ws t)) ws) as [Ha' Ho'];
      [| |done| |done|done|].
    { intros s. rewrite <- list_fmap_compose. unfold compose. simpl. rewrite list_fmap_id, elem_of_reverse.
      intros Hs. by apply (Hw b _ s Hb). }
    { intros s r'. by intros (x & [= -> <-] & _)%list_elem_of_fmap. }
    { rewrite <- list_fmap_compose. unfold compose. simpl. by rewrite list_fmap_id, reverse_Permutation. }
    split; simpl; try done.
    + intros b' k' st' ws' t' [[-> [=]]|[Hne Hb']]%lookup_insert_Some.
      refine (cancel_other (put_messages ms n) b' b t' t _ _ (not_eq_sym Hne)).
      * exact (Hal b' t' (not_eq_sym Hne) (Hp b' k' st' ws' t' Hb')).
      * exact (alive_task n b t (Hp b k st ws t Hb)).
    + intros b' k' r' [[-> [= _ <-]]|[Hne Hb']]%lookup_insert_Some; [done|by apply (Hc b' k')].
    + by apply alter_fresh.
    + intros b' r' Hbr. by apply Hm, Hin.
    + intros b' bc s [[-> <-]|[Hne Hb']]%lookup_insert_Some; [by intros ?%not_elem_of_nil|by apply (Hw b' bc)].
    + by rewrite waiting_insert.
  - split; simpl; try done.
    + intros b' k' st' ws' t' Hb'. apply Hal; [intros ->; congruence|]. by apply (Hp b' k' st' ws').
    + intros b' r'' Hbr. by apply Hm, Hin.
  - split; simpl; try done.
    + intros b' k' st' ws' t' Hb'. apply Hal; [intros ->; congruence|]. by apply (Hp b' k' st' ws').
    + intros b' r'' Hbr. by apply Hm, Hin.
Qed.

Lemma ok_internal (n n' : CacheNode) : node_ok n -> internal cache_block permits n n' -> node_ok n'.
Proof.
  intros Hok Hstep. destruct Hstep as [t b c Ht _ _|t b Ht|t b Ht _|m ms Hms].
  - apply (ok_task n t b (Queued c) Running [Started b]); try done; [|naive_solver].
    by intros b' r [= ]%list_elem_of_singleton.
  - pose proof (ok_task n t b (Queued true) Ended [] Hok Ht) as Hn. rewrite app_nil_r in Hn.
    apply Hn; [by intros b' r ?%not_elem_of_nil|by left].
  - apply (ok_task n t b Running Ended [Finished b (cache_block b)]); try done.
    + by intros b' r [= -> ->]%list_elem_of_singleton.
    + right. right. split; [done|]. eexists. by apply list_elem_of_singleton.
  - destruct m; [by apply ok_message_started|by apply ok_message_finished].
Qed.

Lemma ok_external may_start (n n' : CacheNode) : node_ok n -> external display may_start n n' -> node_ok n'.
Proof.
  intros Hok Hstep. destruct Hstep as [bl _ _ _ _|b|id _|id es1 es2 _].
  - by apply ok_starts.
  - by apply ok_asks.
  - apply (ok_stops id (put_expirations _ (put_open _ n))). destruct Hok as [Hp Hc Hf Hm Hw Ha Ho]. by split.
  - apply (ok_expires id (put_expirations _ n)). destruct Hok as [Hp Hc Hf Hm Hw Ha Ho]. by split.
Qed.

Lemma reachable_ok may_start (n : CacheNode) :
  node_reachable display cache_block permits may_start n -> node_ok n.
Proof.
  revert n. apply (rtc_ind_r (fun n => node_ok n)); [apply init_ok|].
  intros n n' _ [Hs|Hs] Hn; [by eapply ok_internal|by eapply ok_external].
Qed.
End invariant.

(** ** How often a block is counted *)

Section counting.
Context {Hash : Type} `{Countable Hash}.
Abbreviation CacheNode := (Node (Hash := Hash)).
Abbreviation Task := (CacheTask (Hash := Hash)).

Lemma cache_foldl (body : Hash -> Task -> Task * list (Effect (Hash := Hash))) bl (n : CacheNode) :
  cache (foldl (fun n b => run (body b (cache n)) n) n bl) = foldl (fun c b => (body b c).1) (cache n) bl.
Proof. revert n. induction bl as [|b bl IH]; intros n; [done|]. simpl. by rewrite IH, run_cache. Qed.

Lemma for_each_cache (body : Hash -> Task -> Task * list (Effect (Hash := Hash))) bl c :
  (for_each body bl c).1 = foldl (fun c b => (body b c).1) c bl.
Proof.
  unfold for_each. change c with ((c, @nil (Effect (Hash := Hash))).1) at 2.
  generalize (c, @nil (Effect (Hash := Hash))) as p. induction bl as [|b bl IH]; intros p; [done|].
  simpl. by rewrite IH.
Qed.

Lemma start_cache bl (c : Task) :
  (request_start_batch bl c).1 =
    put_next_batch (u64_wrap (next_batch_id c + 1))
      (foldl (fun c b => (start_block b c).1) (put_batches (<[next_batch_id c := bl]> (batches c)) c) bl).
Proof.
  unfold request_start_batch. rewrite <- for_each_cache. by destruct (for_each _ _ _).
Qed.

(** The loops by induction, for a property of the state and the blocks left. *)
Lemma loop_ind (P : list Hash -> Task -> Prop) (body : Hash -> Task -> Task * list (Effect (Hash := Hash))) bl c :
  (forall b bl c, P (b :: bl) c -> P bl (body b c).1) -> P bl c ->
  P [] (foldl (fun c b => (body b c).1) c bl).
Proof. intros Hbody. revert c. induction bl as [|b bl IH]; intros c Hc; [done|]. simpl. by apply IH, Hbody. Qed.

Lemma start_count bl (c : Task) :
  counts_ok (fun x => - occ x bl) c /\ (forall x, occ x bl <= refs x (batches c)) ->
  counts_ok (fun x => - occ x []) (foldl (fun c b => (start_block b c).1) c bl) /\
  (forall x : Hash, occ x [] <= refs x (batches (foldl (fun c b => (start_block b c).1) c bl))).
Proof.
  apply (loop_ind (fun bl c => counts_ok (fun x => - occ x bl) c /\ forall x, occ x bl <= refs x (batches c))).
  clear bl c. intros b bl c [Hc Hr]. unfold counts_ok, start_block in *.
  destruct (cached_blocks c !! b) as [bc|] eqn:Hb; simpl; (split; [|intros x; specialize (Hr x);
    rewrite occ_cons in Hr; case_decide; lia]).
  - intros x bx [[<- <-]|[Hne Hx]]%lookup_insert_Some; simpl.
    + specialize (Hc b bc Hb). rewrite occ_cons, decide_True in Hc by done. lia.
    + specialize (Hc x bx Hx). by rewrite occ_cons, decide_False in Hc by done.
  - intros x bx [[<- <-]|[Hne Hx]]%lookup_insert_Some; simpl.
    + specialize (Hr b). rewrite occ_cons, decide_True in Hr by done. lia.
    + specialize (Hc x bx Hx). by rewrite occ_cons, decide_False in Hc by done.
Qed.

Lemma stop_count bl (c : Task) :
  counts_ok (fun _ => 0) c -> counts_ok (fun _ => 0) (foldl (fun c b => (stop_block b c).1) c bl).
Proof.
  apply (loop_ind (fun _ c => counts_ok (fun _ => 0) c)). clear bl c. intros b _ c Hc. unfold counts_ok, stop_block in *.
  destruct (cached_blocks c !! b) as [bc|]; [|done]. case_match; [|done]. simpl.
  intros x bx [_ Hx]%lookup_delete_Some. by apply Hc.
Qed.

Lemma expire_count bl (c : Task) :
  counts_ok (fun x => occ x bl) c ->
  counts_ok (fun x => occ x []) (foldl (fun c b => (expire_block b c).1) c bl).
Proof.
  apply (loop_ind (fun bl c => counts_ok (fun x => occ x bl) c)). clear bl c. intros b bl c Hc. unfold counts_ok, expire_block in *.
  assert (Hother : forall x bx, x <> b -> cached_blocks c !! x = Some bx ->
    1 <= active_batch_count bx <= refs x (batches c) + occ x bl).
  { intros x bx Hne Hx. specialize (Hc x bx Hx). by rewrite occ_cons, decide_False in Hc by done. }
  destruct (cached_blocks c !! b) as [bc|] eqn:Hb; simpl.
  - case_match; simpl.
    + intros x bx [Hne Hx]%lookup_delete_Some. by apply Hother.
    + intros x bx [[<- <-]|[Hne Hx]]%lookup_insert_Some; simpl; [|by apply Hother].
      specialize (Hc b bc Hb). rewrite occ_cons, decide_True in Hc by done. lia.
  - intros x bx Hx. apply Hother; [intros ->; congruence|done].
Qed.

(** An entry changes its state, not its count. *)
Lemma count_same d b bc st (c : Task) :
  counts_ok d c -> cached_blocks c !! b = Some bc ->
  counts_ok d (put_blocks (<[b := mkCacheBlock (active_batch_count bc) st]> (cached_blocks c)) c).
Proof.
  unfold counts_ok. simpl. intros Hc Hb x bx [[<- <-]|[Hne Hx]]%lookup_insert_Some; [by apply (Hc b bc)|by apply Hc].
Qed.

Lemma message_count m (c : Task) :
  counts_ok (fun _ => 0) c -> counts_ok (fun _ => 0) (handle_message m c).1.
Proof.
  intros Hc. destruct m as [b|b r]; simpl; [unfold blocking_started|unfold blocking_finished];
    destruct (cached_blocks c !! b) as [bc|] eqn:Hb; try done; destruct (state bc); try done; by apply count_same.
Qed.

Lemma ask_count display s b (c : Task) :
  counts_ok (fun _ => 0) c -> counts_ok (fun _ => 0) (request_get_traces display s b c).1.
Proof.
  intros Hc. unfold request_get_traces. destruct (cached_blocks c !! b) as [bc|] eqn:Hb; [|done].
  destruct (state bc); [by apply count_same|done].
Qed.

Lemma starts_count bl (c : Task) :
  counts_ok (fun _ => 0) c -> batches c !! next_batch_id c = None ->
  counts_ok (fun _ => 0) (request_start_batch bl c).1.
Proof.
  intros Hc Hid. rewrite start_cache.
  destruct (start_count bl (put_batches (<[next_batch_id c := bl]> (batches c)) c)) as [Hn _]; [|exact Hn].
  split; simpl.
  - intros x bx Hx. specialize (Hc x bx Hx). simpl. rewrite refs_insert by done. lia.
  - intros x. rewrite refs_insert by done. pose proof (refs_nonneg x (batches c)). lia.
Qed.

Lemma expires_count id (c : Task) :
  counts_ok (fun _ => 0) c -> counts_ok (fun _ => 0) (expired_batch id c).1.
Proof.
  intros Hc. unfold expired_batch. destruct (batches c !! id) as [bl|] eqn:Hid; [|done].
  rewrite for_each_cache. apply (expire_count bl). intros x bx Hx. specialize (Hc x bx Hx). simpl.
  rewrite (refs_delete x id bl) in Hc by done. lia.
Qed.

Lemma stops_count id (c : Task) :
  counts_ok (fun _ => 0) c -> counts_ok (fun _ => 0) (request_stop_batch id c).1.
Proof.
  intros Hc. unfold request_stop_batch. destruct (batches c !! id) as [bl|]; [|done].
  rewrite for_each_cache. by apply stop_count.
Qed.

Lemma reachable_counts display cache_block permits may_start (n : CacheNode) :
  node_reachable display cache_block permits may_start n -> counts_ok (fun _ => 0) (cache n).
Proof.
  revert n. apply (rtc_ind_r (fun n => counts_ok (fun _ => 0) (cache n))); [by intros b bc|].
  intros n n' _ [[]|[]] Hn; rewrite ?run_cache; try done.
  - by apply message_count.
  - by apply starts_count.
  - by apply ask_count.
  - by apply stops_count.
  - by apply expires_count.
Qed.
End counting.

(** ** The blocks of open batches *)

Section coverage.
Context {Hash : Type} `{Countable Hash}.
Abbreviation CacheNode := (Node (Hash := Hash)).
Abbreviation Task := (CacheTask (Hash := Hash)).

(** An entry counts every batch that has its block. *)
Definition exact (d : Hash -> Z) (c : Task) : Prop :=
  forall b bc, cached_blocks c !! b = Some bc -> active_batch_count bc = refs b (batches c) + d b.

(** Every block of the batches [os] is in the cache. *)
Definition covered (os : gset Z) (c : Task) : Prop :=
  forall id bl b, id ∈ os -> batches c !! id = Some bl -> b ∈ bl -> is_Some (cached_blocks c !! b).

(** No block that is missing from the cache, because its tracing was
    cancelled, is still in a batch when it is asked for again. *)
Definition none_cancelled (n : CacheNode) (blocks : list Hash) : Prop :=
  forall b, b ∈ blocks -> cached_blocks (cache n) !! b = None -> refs b (batches (cache n)) = 0.

Lemma present_refs b id bl (bs : gmap Z (list Hash)) :
  bs !! id = Some bl -> b ∈ bl -> 1 <= refs b bs.
Proof.
  intros Hid Hb. rewrite (refs_delete b id bl) by done. apply occ_elem_of in Hb.
  pose proof (refs_nonneg b (delete id bs)). lia.
Qed.

Lemma start_exact bl (c : Task) :
  exact (fun x => - occ x bl) c ->
  (forall x, x ∈ bl -> cached_blocks c !! x = None -> refs x (batches c) = occ x bl) ->
  exact (fun x => - occ x []) (foldl (fun c b => (start_block b c).1) c bl).
Proof.
  intros He Hn. apply (loop_ind (fun bl c => exact (fun x => - occ x bl) c /\
    forall x, x ∈ bl -> cached_blocks c !! x = None -> refs x (batches c) = occ x bl)); [|done].
  clear bl c He Hn. intros b bl c [He Hn]. unfold exact, start_block in *.
  assert (Hmiss : forall x k st, x ∈ bl -> <[b := mkCacheBlock k st]> (cached_blocks c) !! x = None ->
    refs x (batches c) = occ x bl).
  { intros x k st Hx [Hxn Hne]%lookup_insert_None. rewrite (Hn x) by (done || by right).
    by rewrite occ_cons, decide_False. }
  destruct (cached_blocks c !! b) as [bc|] eqn:Hb; simpl; (split; [|by eauto]);
    intros x bx [[<- <-]|[Hne Hx]]%lookup_insert_Some; simpl.
  - specialize (He b bc Hb). rewrite occ_cons, decide_True in He by done. lia.
  - specialize (He x bx Hx). by rewrite occ_cons, decide_False in He by done.
  - specialize (Hn b ltac:(by left) Hb). rewrite occ_cons, decide_True in Hn by done. lia.
  - specialize (He x bx Hx). by rewrite occ_cons, decide_False in He by done.
Qed.

Lemma start_present bl (c : Task) x :
  x ∈ bl \/ is_Some (cached_blocks c !! x) ->
  is_Some (cached_blocks (foldl (fun c b => (start_block b c).1) c bl) !! x).
Proof.
  intros Hx. cut (x ∈ [] \/ is_Some (cached_blocks (foldl (fun c b => (start_block b c).1) c bl) !! x)).
  { by intros [?%not_elem_of_nil|?]. }
  revert Hx. apply (loop_ind (fun bl c => x ∈ bl \/ is_Some (cached_blocks c !! x))). clear bl c.
  intros b bl c Hx. rewrite elem_of_cons in Hx. unfold start_block.
  assert (Hi : forall bc, x = b \/ is_Some (cached_blocks c !! x) -> is_Some (<[b := bc]> (cached_blocks c) !! x)).
  { intros bc [->|Hs]; [by rewrite lookup_insert_eq|by apply lookup_insert_is_Some; destruct (decide (b = x)); auto]. }
  destruct (cached_blocks c !! b); simpl; naive_solver.
Qed.

Lemma loop_batches (body : Hash -> Task -> Task * list (Effect (Hash := Hash))) bl c :
  (forall b c, batches (body b c).1 = batches c) ->
  batches (foldl (fun c b => (body b c).1) c bl) = batches c.
Proof. intros Hbody. revert c. induction bl as [|b bl IH]; intros c; [done|]. simpl. by rewrite IH, Hbody. Qed.

Lemma start_batches b (c : Task) : batches (start_block b c).1 = batches c.
Proof. unfold start_block. by destruct (_ !! b). Qed.
Lemma stop_batches b (c : Task) : batches (stop_block b c).1 = batches c.
Proof. unfold stop_block. destruct (_ !! b); [by case_match|done]. Qed.
Lemma expire_batches b (c : Task) : batches (expire_block b c).1 = batches c.
Proof. unfold expire_block. destruct (_ !! b); [simpl; by case_match|done]. Qed.

Lemma starts_covered bl os (c : Task) :
  exact (fun _ => 0) c -> covered os c -> batches c !! next_batch_id c = None ->
  (forall b, b ∈ bl -> cached_blocks c !! b = None -> refs b (batches c) = 0) ->
  exact (fun _ => 0) (request_start_batch bl c).1 /\
  covered ({[next_batch_id c]} ∪ os) (request_start_batch bl c).1.
Proof.
  intros He Hcov Hid Hn. rewrite start_cache.
  set (c1 := put_batches (<[next_batch_id c := bl]> (batches c)) c). split.
  - intros b bc Hb. apply (start_exact bl c1); [| |done].
    + intros x bx Hx. specialize (He x bx Hx). simpl in *. rewrite refs_insert by done. lia.
    + intros x Hx Hm. simpl. rewrite refs_insert, Hn by done. lia.
  - intros id bl' b Hin Hbl Hb. simpl in *. rewrite loop_batches in Hbl by (intros; apply start_batches).
    apply start_present. unfold c1 in Hbl. simpl in Hbl. apply lookup_insert_Some in Hbl as [[<- <-]|[Hne Hbl]]; [by left|].
    right. apply (Hcov id bl'); [set_solver|done..].
Qed.

(** A stop removes a block only if no other batch has it. *)
Lemma stops_covered id os (c : Task) :
  exact (fun _ => 0) c -> covered os c -> id ∈ os ->
  exact (fun _ => 0) (request_stop_batch id c).1 /\ covered (os ∖ {[id]}) (request_stop_batch id c).1.
Proof.
  intros He Hcov Hid. unfold request_stop_batch.
  assert (Hcov' : covered (os ∖ {[id]}) c) by (intros id' bl b Hin; apply Hcov; set_solver).
  destruct (batches c !! id) as [bl|] eqn:Hbl; [|done]. rewrite for_each_cache.
  cut (exact (fun _ => 0) (foldl (fun c b => (stop_block b c).1) c bl) /\
       covered (os ∖ {[id]}) (foldl (fun c b => (stop_block b c).1) c bl) /\
       batches (foldl (fun c b => (stop_block b c).1) c bl) !! id = Some bl /\ [] ⊆ bl); [tauto|].
  apply (loop_ind (fun l c => exact (fun _ => 0) c /\ covered (os ∖ {[id]}) c /\ batches c !! id = Some bl /\ l ⊆ bl));
    [|done]. clear c He Hcov Hid Hcov' Hbl.
  intros b l c (He & Hcov & Hbl & Hsub). rewrite stop_batches.
  assert (Hb : b ∈ bl) by (apply Hsub; by left).
  assert (Hl : l ⊆ bl) by (intros x Hx; apply Hsub; by right).
  unfold stop_block. destruct (cached_blocks c !! b) as [bc|] eqn:Hbc; [|done].
  destruct (_ && _) eqn:Hone; [|done]. simpl. split_and!; try done.
  - unfold exact. simpl. intros x bx [_ Hx]%lookup_delete_Some. by apply He.
  - intros id' bl' x Hin Hbl' Hx. simpl in *. rewrite lookup_delete_ne; [by apply (Hcov id' bl')|]. intros <-.
    specialize (He b bc Hbc). rewrite (refs_delete b id bl) in He by done.
    apply occ_elem_of in Hb. pose proof (present_refs b id' bl' (delete id (batches c))) as Hr.
    rewrite lookup_delete_ne in Hr by set_solver. specialize (Hr Hbl' Hx). lia.
Qed.

(** An expiry removes a block when no batch has it. *)
Lemma expires_covered id os (c : Task) :
  counts_ok (fun _ => 0) c -> exact (fun _ => 0) c -> covered os c ->  id ∉ os ->
  exact (fun _ => 0) (expired_batch id c).1 /\ covered os (expired_batch id c).1.
Proof.
  intros Hcnt He Hcov Hid. unfold expired_batch. destruct (batches c !! id) as [bl|] eqn:Hbl; [|done].
  rewrite for_each_cache.
  cut (exact (fun x => occ x []) (foldl (fun c b => (expire_block b c).1) (put_batches (delete id (batches c)) c) bl) /\
       covered os (foldl (fun c b => (expire_block b c).1) (put_batches (delete id (batches c)) c) bl)); [done|].
  apply (loop_ind (fun l c => exact (fun x => occ x l) c /\ covered os c)).
  - clear c bl Hcnt He Hcov Hid Hbl. intros b l c [He Hcov]. unfold expire_block, exact in *.
    assert (Hother : forall x bx, x <> b -> cached_blocks c !! x = Some bx ->
      active_batch_count bx = refs x (batches c) + occ x l).
    { intros x bx Hne Hx. specialize (He x bx Hx). by rewrite occ_cons, decide_False in He by done. }
    destruct (cached_blocks c !! b) as [bc|] eqn:Hb; simpl.
    + specialize (He b bc Hb). rewrite occ_cons, decide_True in He by done. case_match eqn:Hz; simpl; split.
      * intros x bx [Hne Hx]%lookup_delete_Some. by apply Hother.
      * intros id' bl' x Hin Hbl' Hx. simpl in *. rewrite lookup_delete_ne; [by apply (Hcov id' bl')|]. intros <-.
        pose proof (present_refs b id' bl' _ Hbl' Hx). pose proof (occ_nonneg b l). lia.
      * intros x bx [[<- <-]|[Hne Hx]]%lookup_insert_Some; simpl; [lia|by apply Hother].
      * intros id' bl' x Hin Hbl' Hx. simpl in *. apply lookup_insert_is_Some.
        destruct (decide (b = x)); [by left|right; split; [done|by apply (Hcov id' bl')]].
    + split; [|done]. intros x bx Hx. apply Hother; [intros ->; congruence|done].
  - split.
    + intros x bx Hx. specialize (He x bx Hx). simpl. rewrite (refs_delete x id bl) in He by done. lia.
    + intros id' bl' b Hin Hbl' Hb. simpl in *. apply lookup_delete_Some in Hbl' as [_ Hbl']. by apply (Hcov id' bl').
Qed.

Lemma exact_same d b bc st (c : Task) :
  exact d c -> cached_blocks c !! b = Some bc ->
  exact d (put_blocks (<[b := mkCacheBlock (active_batch_count bc) st]> (cached_blocks c)) c).
Proof.
  unfold exact. simpl. intros Hc Hb x bx [[<- <-]|[Hne Hx]]%lookup_insert_Some; [by apply (Hc b bc)|by apply Hc].
Qed.
Lemma covered_same os b bc (c : Task) :
  covered os c -> covered os (put_blocks (<[b := bc]> (cached_blocks c)) c).
Proof.
  intros Hc id bl x Hid Hbl Hx. simpl. apply lookup_insert_is_Some.
  destruct (decide (b = x)); [by left|right; split; [done|by apply (Hc id bl)]].
Qed.

(** ** Effects and the rest of the node *)

Definition quiet (e : Effect (Hash := Hash)) : Prop := match e with BatchStarted _ => False | _ => True end.

Lemma run_quiet p (n : CacheNode) : Forall quiet p.2 -> open_batches (run p n) = open_batches n.
Proof.
  unfold run. change (open_batches n) with (open_batches (put_cache p.1 n)). generalize (put_cache p.1 n).
  induction p.2 as [|e es IH]; intros m Hes; [done|]. apply Forall_cons in Hes as [He Hes].
  simpl. rewrite IH by done. by destruct e.
Qed.
Lemma run_expirations p (n : CacheNode) : expirations (run p n) = expirations n.
Proof.
  unfold run. change (expirations n) with (expirations (put_cache p.1 n)). generalize (put_cache p.1 n).
  induction p.2 as [|e es IH]; intros m; [done|]. simpl. rewrite IH. by destruct e.
Qed.

Lemma drop_quiet st : Forall quiet (drop_state st).
Proof.
  destruct st as [st ws t|r]; [|constructor]. simpl. apply Forall_app. split; [|by repeat constructor].
  apply Forall_fmap, Forall_true. by intros.
Qed.
Lemma for_each_quiet (body : Hash -> Task -> Task * list (Effect (Hash := Hash))) bl c :
  (forall b c, Forall quiet (body b c).2) -> Forall quiet (for_each body bl c).2.
Proof.
  intros Hb. unfold for_each. assert (Hn : Forall quiet (c, @nil (Effect (Hash := Hash))).2) by constructor.
  revert Hn. generalize (c, @nil (Effect (Hash := Hash))) as p.
  induction bl as [|b bl IH]; intros p Hp; [done|]. simpl. apply IH. simpl. by apply Forall_app.
Qed.

Lemma start_quiet b (c : Task) : Forall quiet (start_block b c).2.
Proof. unfold start_block. destruct (_ !! b); by repeat constructor. Qed.
Lemma stop_quiet b (c : Task) : Forall quiet (stop_block b c).2.
Proof. unfold stop_block. destruct (_ !! b); [case_match; [apply drop_quiet|]|]; constructor. Qed.
Lemma expire_quiet b (c : Task) : Forall quiet (expire_block b c).2.
Proof. unfold expire_block. destruct (_ !! b); [simpl; case_match; [apply drop_quiet|]|]; constructor. Qed.
Lemma stops_quiet id (c : Task) : Forall quiet (request_stop_batch id c).2.
Proof. unfold request_stop_batch. destruct (_ !! id); [apply for_each_quiet, stop_quiet|constructor]. Qed.
Lemma expires_quiet id (c : Task) : Forall quiet (expired_batch id c).2.
Proof. unfold expired_batch. destruct (_ !! id); [apply for_each_quiet, expire_quiet|constructor]. Qed.
Lemma ask_quiet display s b (c : Task) : Forall quiet (request_get_traces display s b c).2.
Proof. unfold request_get_traces. destruct (_ !! b); [case_match|]; by repeat constructor. Qed.
Lemma message_quiet m (c : Task) : Forall quiet (handle_message m c).2.
Proof.
  destruct m; simpl; [unfold blocking_started|unfold blocking_finished]; destruct (_ !! _); try constructor;
    case_match; try constructor. simpl. apply Forall_app. split; [|by repeat constructor].
  apply Forall_fmap, Forall_true. by intros.
Qed.

Lemma starts_open bl (n : CacheNode) :
  open_batches (run (request_start_batch bl (cache n)) n) = {[next_batch_id (cache n)]} ∪ open_batches n.
Proof.
  rewrite run_batch_start. simpl. f_equal.
  set (m := put_cache _ n). change (open_batches n) with (open_batches m). generalize m.
  induction bl as [|b bl IH]; intros m'; [done|]. simpl. rewrite IH. apply run_quiet, start_quiet.
Qed.

(** ** The blocks of open batches stay in the cache *)

Record open_ok (n : CacheNode) : Prop := {
  oo_exact : exact (fun _ => 0) (cache n);
  oo_covered : covered (open_batches n) (cache n);
  oo_closed id : id ∈ expirations n -> id ∉ open_batches n;
}.

Lemma message_covered m os (c : Task) :
  exact (fun _ => 0) c -> covered os c ->
  exact (fun _ => 0) (handle_message m c).1 /\ covered os (handle_message m c).1.
Proof.
  intros He Hc. destruct m as [b|b r]; simpl; [unfold blocking_started|unfold blocking_finished];
    destruct (cached_blocks c !! b) as [bc|] eqn:Hb; try done; destruct (state bc); try done;
    (split; [by apply exact_same|by apply covered_same]).
Qed.
Lemma ask_covered display s b os (c : Task) :
  exact (fun _ => 0) c -> covered os c ->
  exact (fun _ => 0) (request_get_traces display s b c).1 /\ covered os (request_get_traces display s b c).1.
Proof.
  intros He Hc. unfold request_get_traces. destruct (cached_blocks c !! b) as [bc|] eqn:Hb; [|done].
  destruct (state bc); [split; [by apply exact_same|by apply covered_same]|done].
Qed.

Lemma careful_open_ok display cache_block permits (n : CacheNode) :
  node_reachable display cache_block permits none_cancelled n -> open_ok n.
Proof.
  revert n. apply (rtc_ind_r open_ok).
  { split; simpl; [by intros b bc|by intros id bl b|by intros id ?%not_elem_of_nil]. }
  intros n n' Hr Hs [He Hc Hx]. pose proof (reachable_counts _ _ _ _ _ Hr) as Hcnt.
  destruct Hs as [[t b c _ _ _|t b _|t b _ _|m ms _]|[bl Hg Hid Hop Hex|b|id Hid|id es1 es2 Hes]]; try by split.
  - destruct (message_covered m (open_batches n) (cache n) He Hc).
    split; rewrite ?run_cache, ?run_quiet, ?run_expirations by apply message_quiet; done.
  - destruct (starts_covered bl (open_batches n) (cache n) He Hc Hid Hg).
    split; rewrite ?run_cache, ?starts_open, ?run_expirations; [done..|].
    intros id Hi. apply not_elem_of_union. split; [|by apply Hx]. intros ->%elem_of_singleton. done.
  - destruct (ask_covered display (length (asked n)) b (open_batches n) (cache n) He Hc).
    split; rewrite ?run_cache, ?run_quiet, ?run_expirations by apply ask_quiet; done.
  - destruct (stops_covered id (open_batches n) (cache n) He Hc Hid).
    split; rewrite ?run_cache, ?run_quiet, ?run_expirations by apply stops_quiet; [done..|].
    simpl. intros id' [Hi|Hi]%elem_of_app; [specialize (Hx id' Hi); set_solver|].
    apply list_elem_of_singleton in Hi as ->. set_solver.
  - assert (Hid : id ∉ open_batches n) by (apply Hx; rewrite Hes; set_solver).
    destruct (expires_covered id (open_batches n) (cache n) Hcnt He Hc Hid).
    split; rewrite ?run_cache, ?run_quiet, ?run_expirations by apply expires_quiet; [done..|].
    simpl. intros id' Hi. apply Hx. rewrite Hes. set_solver.
Qed.
End coverage.
