(* ===== verification/TraceCacheProgress.v ===== *)
(** * What clients of the trace cache can rely on

    The theorems on the node of [TraceCache]: no request is answered twice or
    wrongly, the tracing tasks and the loop come to rest and have then answered
    every request, and the blocks of an open batch are in the cache as long as
    no cancelled block is asked for again; and an execution in which one is. *)

From stdpp Require Import strings pretty list_numbers.
From S2P Require Import Prelude EvmEvents CallListTracing TraceFormatters TraceCache TraceCacheSafety.
Open Scope Z_scope.

Section progress.
Context {Hash : Type} `{Countable Hash} (display : Hash -> string).
Context (cache_block : Hash -> TxsTraceRes) (permits : nat).
Abbreviation CacheNode := (Node (Hash := Hash)).
Abbreviation Task := (CacheTask (Hash := Hash)).
Abbreviation Internal := (internal cache_block permits).

(** ** Work left *)

Definition task_weight (p : Hash * TracingTask) : nat :=
  match p.2 with Queued _ => 4 | Running => 2 | Ended => 0 end.
Definition load (ts : gmap nat (Hash * TracingTask)) : nat :=
  sum_list_with (fun p => task_weight p.2) (map_to_list ts).
Definition work (n : CacheNode) : nat := (load (tasks n) + length (messages n))%nat.

Lemma load_delete ts t p : ts !! t = Some p -> load ts = (task_weight p + load (delete t ts))%nat.
Proof. intros Ht. unfold load. by rewrite <- (map_to_list_delete ts t p Ht). Qed.
Lemma load_insert ts t p p' :
  ts !! t = Some p -> (load (<[t := p']> ts) + task_weight p = load ts + task_weight p')%nat.
Proof.
  intros Ht. rewrite (load_delete ts t p Ht), (load_delete (<[t := p']> ts) t p') by apply lookup_insert_eq.
  rewrite delete_insert_eq. lia.
Qed.
Lemma load_cancel ts t : load (alter cancel t ts) = load ts.
Proof.
  destruct (ts !! t) as [p|] eqn:Ht.
  - pose proof (load_insert ts t p (cancel p) Ht) as Hl.
    replace (alter cancel t ts) with (<[t := cancel p]> ts).
    + assert (task_weight (cancel p) = task_weight p) by (destruct p as [b []]; done). lia.
    + apply map_eq. intros t'. destruct (decide (t = t')) as [<-|Hne];
        [by rewrite lookup_insert_eq, lookup_alter_eq, Ht|by rewrite lookup_insert_ne, lookup_alter_ne].
  - f_equal. apply map_eq. intros t'. destruct (decide (t = t')) as [<-|Hne];
      [by rewrite lookup_alter_eq, Ht|by rewrite lookup_alter_ne].
Qed.

(** Effects of the loop with messages start no task. *)
Definition no_spawn (e : Effect (Hash := Hash)) : Prop := match e with Spawned _ _ => False | _ => True end.

Lemma message_no_spawn m (c : Task) : Forall no_spawn (handle_message m c).2.
Proof.
  destruct m; simpl; [unfold blocking_started|unfold blocking_finished]; destruct (_ !! _); try constructor;
    case_match; try constructor. simpl. apply Forall_app. split; [|by repeat constructor].
  apply Forall_fmap, Forall_true. by intros.
Qed.
Lemma run_work p (n : CacheNode) :
  Forall no_spawn p.2 ->
  load (tasks (run p n)) = load (tasks n) /\ messages (run p n) = messages n /\ asked (run p n) = asked n.
Proof.
  unfold run. change (tasks n) with (tasks (put_cache p.1 n)). change (messages n) with (messages (put_cache p.1 n)).
  change (asked n) with (asked (put_cache p.1 n)). generalize (put_cache p.1 n).
  induction p.2 as [|e es IH]; intros m Hes; [done|]. apply Forall_cons in Hes as [He Hes].
  simpl. destruct (IH (run_effect m e) Hes) as (-> & -> & ->). destruct e; try done.
  simpl. split_and!; [apply load_cancel|done..].
Qed.

Lemma internal_work n n' : Internal n n' -> (work n' < work n)%nat.
Proof.
  unfold work. intros [t b c Ht _ _|t b Ht|t b Ht _|m ms Hms]; simpl.
  - pose proof (load_insert (tasks n) t _ (b, Running) Ht). rewrite length_app. simpl in *. unfold task_weight in *. simpl in *. lia.
  - pose proof (load_insert (tasks n) t _ (b, Ended) Ht). unfold task_weight in *. simpl in *. lia.
  - pose proof (load_insert (tasks n) t _ (b, Ended) Ht). rewrite length_app. unfold task_weight in *. simpl in *. lia.
  - destruct (run_work (handle_message m (cache n)) (put_messages ms n) (message_no_spawn _ _)) as (-> & -> & _).
    rewrite Hms. simpl. lia.
Qed.

Lemma internal_asked n n' : Internal n n' -> asked n' = asked n.
Proof.
  intros [| | |m ms Hms]; try done.
  by destruct (run_work (handle_message m (cache n)) (put_messages ms n) (message_no_spawn _ _)) as (_ & _ & ->).
Qed.

Lemma internal_terminates : well_founded (flip Internal).
Proof.
  apply (wf_projected lt work); [|apply lt_wf]. intros n' n Hs. by apply internal_work.
Qed.

(** ** Rest *)

#[local] Instance tracing_task_eq : EqDecision TracingTask.
Proof. solve_decision. Defined.

Lemma rest_or_step (n : CacheNode) :
  (0 < permits)%nat ->
  (exists n', Internal n n') \/ (messages n = [] /\ map_Forall (fun _ p => p.2 = Ended) (tasks n)).
Proof.
  intros Hp. destruct (messages n) as [|m ms] eqn:Hms; [|left; eexists; by eapply loop_message].
  assert (Hroom : has_room permits n) by (unfold has_room; rewrite Hms; simpl; lia).
  destruct (decide (map_Forall (fun _ p => ~ is_running p) (tasks n))) as [Hrun|Hrun].
  - destruct (decide (map_Forall (fun _ p => p.2 = Ended) (tasks n))) as [He|He]; [by right|left].
    apply map_not_Forall in He as (t & [b k] & Ht & Hk); [|solve_decision].
    destruct k as [c| |]; [|by destruct (Hrun t _ Ht)|done].
    eexists. eapply (task_acquires cache_block permits n t b c); [done| |done].
    replace (running n) with 0%nat; [done|]. symmetry. apply map_size_empty_iff, map_empty. intros i.
    destruct (_ !! i) as [p|] eqn:Hi; [|done]. apply map_lookup_filter_Some in Hi as [Hi Hr].
    by destruct (Hrun i p Hi).
  - apply map_not_Forall in Hrun as (t & [b k] & Ht & Hk); [|solve_decision].
    apply dec_stable in Hk. unfold is_running in Hk. simpl in Hk. subst k.
    left. eexists. by eapply (task_finishes cache_block permits n t b).
Qed.

(** A node at rest has no request waiting. *)
Lemma rest_answered n s :
  node_ok display cache_block n -> messages n = [] -> map_Forall (fun _ p => p.2 = Ended) (tasks n) ->
  (s < length (asked n))%nat -> s ∈ (answers n).*1.
Proof.
  intros [Hp _ _ _ _ _ Ho] Hms He Hs.
  assert (Hin : s ∈ seq 0 (length (asked n))) by (apply elem_of_seq; lia).
  rewrite <- Ho in Hin. apply elem_of_app in Hin as [Hin|Hin]; [done|].
  apply elem_of_waiting in Hin as (b & [k [st ws t|r]] & Hb & Hw); [|by apply not_elem_of_nil in Hw].
  destruct (Hp b k st ws t Hb) as [Ht|[Ht|[_ [r Hr]]]];
    [by apply He in Ht|by apply He in Ht|]. rewrite Hms in Hr. by apply not_elem_of_nil in Hr.
Qed.

(** ** The theorems *)

(** C16: whatever the clients, the timers and the scheduling do, each request is
    answered at most once; an answer is the traces of the block that was asked
    for, or an error that it is in no batch, and what has not been answered
    waits for a block whose tracing is queued, runs or is done.  A block is
    in the cache only as long as a batch that has not expired has it. *)
Theorem trace_cache_sound may_start n :
  node_reachable display cache_block permits may_start n ->
  NoDup (answers n).*1 /\
  (forall s r, (s, Some r) ∈ answers n ->
     exists b, asked n !! s = Some b /\ (r = cache_block b \/ r = Err (not_batched display b))) /\
  (forall s b, asked n !! s = Some b -> s ∉ (answers n).*1 ->
     exists k started ws t, cached_blocks (cache n) !! b = Some (mkCacheBlock k (Pooled started ws t)) /\
       s ∈ ws /\ task_alive n b t) /\
  (forall b bc, cached_blocks (cache n) !! b = Some bc ->
     1 <= active_batch_count bc <= refs b (batches (cache n)) /\
     exists id bl, batches (cache n) !! id = Some bl /\ b ∈ bl).
Proof.
  intros Hr. pose proof (reachable_ok _ _ _ _ _ Hr) as [Hp _ _ _ Hw Ha Ho].
  pose proof (reachable_counts _ _ _ _ _ Hr) as Hc.
  assert (Hnd : NoDup ((answers n).*1 ++ waiting (cached_blocks (cache n)))) by (rewrite Ho; apply NoDup_seq).
  split_and!; [by apply NoDup_app in Hnd as [? _]|done| |].
  - intros s b Hs Hna. assert (Hin : s ∈ seq 0 (length (asked n))).
    { apply elem_of_seq. apply lookup_lt_Some in Hs. lia. }
    rewrite <- Ho in Hin. apply elem_of_app in Hin as [Hin|Hin]; [done|].
    apply elem_of_waiting in Hin as (b' & [k [st ws t|r]] & Hb & Hin); [|by apply not_elem_of_nil in Hin].
    pose proof (Hw b' _ s Hb Hin) as Hs'. rewrite Hs in Hs'. injection Hs' as <-.
    exists k, st, ws, t. split_and!; [done..|]. by apply (Hp b k st ws).
  - intros b bc Hb. specialize (Hc b bc Hb). simpl in Hc. split; [lia|]. apply refs_elem_of. lia.
Qed.

(** C17: with at least one permit the tracing tasks and the loop come to rest
    however they are scheduled, unless clients or timers step in, and at rest
    every request has its answer, or its channel was dropped together with the
    block. *)
Theorem requests_served may_start n :
  node_reachable display cache_block permits may_start n -> (0 < permits)%nat ->
  Acc (flip Internal) n /\
  (forall n', rtc Internal n n' -> (forall n'', ~ Internal n' n'') ->
     forall s b, asked n !! s = Some b -> s ∈ (answers n').*1).
Proof.
  intros Hr Hp. split; [apply internal_terminates|]. intros n' Hn' Hrest s b Hs.
  assert (Hok : node_ok display cache_block n' /\ asked n' = asked n).
  { clear Hrest. revert n' Hn'. apply rtc_ind_r; [split; [by eapply reachable_ok|done]|].
    intros n1 n2 _ Hm [Hok Ha]. split; [by eapply ok_internal|]. by rewrite <- Ha, (internal_asked _ _ Hm). }
  destruct Hok as [Hok Ha]. destruct (rest_or_step n' Hp) as [[n'' Hs']|[Hms He]]; [by destruct (Hrest n'')|].
  apply rest_answered; try done. rewrite Ha. by eapply lookup_lt_Some.
Qed.

(** As long as no batch starts with a block whose tracing was cancelled for a
    batch that has not expired, the blocks of every open batch are in the
    cache, so that no request for one of them is refused. *)
Theorem open_blocks_cached n id bl b :
  node_reachable display cache_block permits none_cancelled n ->
  id ∈ open_batches n -> batches (cache n) !! id = Some bl -> b ∈ bl ->
  is_Some (cached_blocks (cache n) !! b) /\
  forall s, (request_get_traces display s b (cache n)).2 = [] \/
            (request_get_traces display s b (cache n)).2 = [Answered s (cache_block b)].
Proof.
  intros Hr Hid Hbl Hb. pose proof (careful_open_ok _ _ _ _ Hr) as [_ Hcov _].
  destruct (Hcov id bl b Hid Hbl Hb) as [[k st] Hc]. split; [by eexists|]. intros s.
  unfold request_get_traces. rewrite Hc. simpl. destruct st as [st ws t|r]; [by left|right].
  by rewrite (ok_cached _ _ _ (reachable_ok _ _ _ _ _ Hr) b k r Hc).
Qed.
End progress.

(** ** A page and the next one

    A client asks for the first traces of blocks 1 and 2 and has enough after
    block 1, so that the tracing of block 2 is cancelled when it stops its
    batch.  Another client starts a batch with the same blocks for the next
    page; then the first batch expires. *)

Section example.
#[local] Instance display_number : Pretty Z := pretty_Z.
#[local] Ltac decided := by apply (bool_decide_unpack _); vm_compute.

Definition example_trace (b : Z) : TransactionTrace :=
  mkTransactionTrace (Action_Suicide b 5 6) 0 b (Output_Result Result_Suicide) 0 [] 0 0.
Definition example_traces (b : Z) : TxsTraceRes := Ok [example_trace b; example_trace b].
Abbreviation ExampleNode := (Node (Hash := Z)).
Abbreviation example_reachable :=
  (node_reachable (Hash := Z) pretty example_traces 1 (fun _ _ => True)).

Definition start_blocks bl (n : ExampleNode) : ExampleNode := run (request_start_batch bl (cache n)) n.
Definition ask_block b (n : ExampleNode) : ExampleNode :=
  run (request_get_traces pretty (length (asked n)) b (cache n)) (put_asked (asked n ++ [b]) n).
Definition stop_open id (n : ExampleNode) : ExampleNode :=
  run (request_stop_batch id (cache n))
    (put_expirations (expirations n ++ [id]) (put_open (open_batches n ∖ {[id]}) n)).
Definition expire_first (n : ExampleNode) : ExampleNode :=
  match expirations n with
  | id :: es => run (expired_batch id (cache n)) (put_expirations es n)
  | [] => n
  end.
Definition next_message (n : ExampleNode) : ExampleNode :=
  match messages n with m :: ms => run (handle_message m (cache n)) (put_messages ms n) | [] => n end.
Definition acquire t b (n : ExampleNode) : ExampleNode :=
  put_messages (messages n ++ [Started b]) (put_tasks (<[t := (b, Running)]> (tasks n)) n).
Definition finish t b (n : ExampleNode) : ExampleNode :=
  put_messages (messages n ++ [Finished b (example_traces b)]) (put_tasks (<[t := (b, Ended)]> (tasks n)) n).

Definition started_node : ExampleNode := start_blocks [1; 2] node_init.
Definition traced_node : ExampleNode := next_message (finish 0 1 (next_message (acquire 0 1 started_node))).
Definition asked_node : ExampleNode := ask_block 1 traced_node.
Definition paged_node : ExampleNode := start_blocks [1; 2] (stop_open 0 asked_node).
Definition evicted_node : ExampleNode := ask_block 2 (expire_first paged_node).

Lemma started_reachable : example_reachable started_node.
Proof. apply rtc_once. right. apply client_starts; [done|decided..]. Qed.

Lemma asked_reachable : example_reachable asked_node.
Proof.
  eapply rtc_r; [|right; apply client_asks].
  eapply rtc_r; [|left; by apply loop_message].
  eapply rtc_r; [|left; apply (task_finishes _ _ _ 0 1); [by vm_compute|unfold has_room; vm_compute; lia]].
  eapply rtc_r; [|left; by apply loop_message].
  eapply rtc_r; [|left; apply (task_acquires _ _ _ 0 1 false); [by vm_compute|vm_compute; lia|unfold has_room; vm_compute; lia]].
  apply started_reachable.
Qed.

Lemma paged_reachable : example_reachable paged_node.
Proof.
  eapply rtc_r; [|right; apply client_starts; [done|decided..]].
  eapply rtc_r; [|right; apply (client_stops _ _ _ 0); decided].
  apply asked_reachable.
Qed.

Lemma evicted_reachable : example_reachable evicted_node.
Proof.
  eapply rtc_r; [|right; apply client_asks].
  eapply rtc_r; [|right; by apply (timer_expires _ _ _ 0 [] [])].
  apply paged_reachable.
Qed.

(** The expiry of the first batch takes block 2, which it counts although the
    block was pooled again for the second batch alone, from the second client:
    its request is refused as not batched while its batch is open. *)
Theorem cancelled_block_evicted :
  example_reachable evicted_node /\ 1 ∈ open_batches evicted_node /\
  batches (cache evicted_node) = {[1 := [1; 2]]} /\
  answers evicted_node =
    [(0%nat, Some (example_traces 1)); (1%nat, Some (Err "RPC request asked a block (2) that was not batched"))].
Proof. split_and!; [apply evicted_reachable|decided|by vm_compute..]. Qed.

Lemma trace_cache_sound_witness :
  exists b, asked evicted_node !! 0%nat = Some b /\
    (example_traces 1 = example_traces b \/ example_traces 1 = Err (not_batched pretty b)).
Proof.
  destruct (trace_cache_sound pretty example_traces 1 (fun _ _ => True) evicted_node evicted_reachable)
    as (_ & Ha & _).
  apply (Ha 0%nat (example_traces 1)). left.
Defined.

(** A request is waiting here. *)
Lemma requests_served_witness :
  messages (ask_block 2 started_node) = [] /\
  forall n', rtc (internal example_traces 1) (ask_block 2 started_node) n' ->
    (forall n'', ~ internal example_traces 1 n' n'') -> 0%nat ∈ (answers n').*1.
Proof.
  split; [by vm_compute|].
  destruct (requests_served pretty example_traces 1 (fun _ _ => True) (ask_block 2 started_node)) as [_ Hs].
  - eapply rtc_r; [apply started_reachable|]. right. apply client_asks.
  - lia.
  - intros n' Hn Hrest. by apply (Hs n' Hn Hrest 0%nat 2).
Defined.

Lemma open_blocks_cached_witness :
  is_Some (cached_blocks (cache started_node) !! 2).
Proof.
  refine (proj1 (open_blocks_cached pretty example_traces 1 started_node 0 [1; 2] 2 _ _ _ _)).
  - apply rtc_once. right. apply client_starts; [by intros b _ _|decided..].
  - decided.
  - by vm_compute.
  - right. left.
Defined.
End example.
