(* ===== verification/TraceRpc.v ===== *)
(** * [trace_filter]

    [vendor/rpc/trace/src/lib.rs]: the requests of [trace_filter], which page
    through the traces that the cache has of the blocks asked for, and the
    tracing of one of these blocks.  The database of the node, its runtime and
    the display of their errors are an interface; the runtime of [TraceApi]
    implements the part of it that traces, and the node of [TraceCache] the
    cache. *)

From Stdlib Require Import Ascii.
From stdpp Require Import strings pretty.
From S2P Require Import Prelude EvmEvents CallListTracing TraceFormatters CallListSpec.
From S2P Require Import CallListBlock TraceApi TracingExamples TraceCache TraceCacheSafety TraceCacheProgress.
Open Scope Z_scope.

(** ** Requests ([rpc-core]) *)

Inductive RequestBlockTag := Earliest | Latest | Pending.
Inductive RequestBlockId := Id_Number (n : Z) | Id_Hash (hash : Z) | Id_Tag (tag : RequestBlockTag).

Record FilterRequest := mkFilterRequest {
  from_block : option RequestBlockId;
  to_block : option RequestBlockId;
  from_address : option (list Z);
  to_address : option (list Z);
  after : option Z;
  count : option Z;
}.

Definition hex_digit (n : N) : ascii := ascii_of_N (if (n <? 10)%N then n + 48 else n + 87).

(** ** Numbers in a request *)

Inductive IntErrorKind := Empty | InvalidDigit | PosOverflow.

Definition digit_value (radix : Z) (c : ascii) : option Z :=
  let n := Z.of_N (N_of_ascii c) in
  let v := if (48 <=? n) && (n <=? 57) then n - 48
           else if (97 <=? n) && (n <=? 122) then n - 87
           else if (65 <=? n) && (n <=? 90) then n - 55
           else radix in
  if v <? radix then Some v else None.

(** [u32::from_str_radix]. *)
Fixpoint parse_digits (radix result : Z) (s : string) : Result Z IntErrorKind :=
  match s with
  | EmptyString => Ok result
  | String c s =>
      match digit_value radix c with
      | None => Err InvalidDigit
      | Some x =>
          let result := result * radix + x in
          if u32_max <? result then Err PosOverflow else parse_digits radix result s
      end
  end.
Definition from_str_radix (radix : Z) (s : string) : Result Z IntErrorKind :=
  match s with
  | EmptyString => Err Empty
  | String "+" EmptyString | String "-" EmptyString => Err InvalidDigit
  | String "+" s => parse_digits radix 0 s
  | _ => parse_digits radix 0 s
  end.

Definition show_kind (e : IntErrorKind) : string :=
  "ParseIntError { kind: " +:+
  match e with Empty => "Empty" | InvalidDigit => "InvalidDigit" | PosOverflow => "PosOverflow" end +:+ " }".

Definition deserialize_u32_0x (buf : string) : Result Z string :=
  let parsed :=
    match buf with
    | String "0" (String "x" buf) => from_str_radix 16 buf
    | _ => from_str_radix 10 buf
    end in
  map_err (fun e => "parsing error: " +:+ show_kind e +:+ " from '" +:+ buf +:+ "'") parsed.

(** *** Its inverse: the digits of a number *)

Fixpoint digits (fuel : nat) (radix n : Z) (acc : string) : string :=
  match fuel with
  | O => acc
  | S fuel =>
      let acc := String (hex_digit (Z.to_N (n mod radix))) acc in
      if n / radix =? 0 then acc else digits fuel radix (n / radix) acc
  end.

Lemma digit_value_hex radix d : 2 <= radix <= 16 -> 0 <= d < radix -> digit_value radix (hex_digit (Z.to_N d)) = Some d.
Proof.
  intros Hr Hd. assert (Hlt : (Z.to_N d < 16)%N) by lia. unfold digit_value, hex_digit.
  destruct (N.ltb_spec (Z.to_N d) 10); rewrite N_ascii_embedding by lia.
  - replace (Z.of_N (Z.to_N d + 48)) with (d + 48) by lia.
    rewrite (proj2 (Z.leb_le 48 _)), (proj2 (Z.leb_le _ 57)) by lia. simpl. replace (d + 48 - 48) with d by lia.
    by rewrite (proj2 (Z.ltb_lt _ _)) by lia.
  - replace (Z.of_N (Z.to_N d + 87)) with (d + 87) by lia. rewrite (proj2 (Z.leb_gt _ 57)) by lia. rewrite andb_false_r.
    rewrite (proj2 (Z.leb_le 97 _)), (proj2 (Z.leb_le _ 122)) by lia. simpl. replace (d + 87 - 87) with d by lia.
    by rewrite (proj2 (Z.ltb_lt _ _)) by lia.
Qed.

Lemma parse_digits_run fuel radix n acc :
  2 <= radix <= 16 -> 0 <= n <= u32_max -> n < radix ^ Z.of_nat fuel ->
  parse_digits radix 0 (digits fuel radix n acc) = parse_digits radix n acc.
Proof.
  intros Hr. revert n acc. induction fuel as [|fuel IH]; intros n acc Hn Hf; [simpl in *; replace n with 0 by lia; done|].
  cbn [digits]. pose proof (Z.mod_pos_bound n radix ltac:(lia)) as Hmod. pose proof (Z.div_mod n radix ltac:(lia)) as Hdiv.
  assert (Hstep : forall acc, parse_digits radix (n / radix) (String (hex_digit (Z.to_N (n mod radix))) acc) = parse_digits radix n acc).
  { intros acc'. cbn [parse_digits]. rewrite digit_value_hex by lia. cbv zeta.
    replace (n / radix * radix + n mod radix) with n by lia. by rewrite (proj2 (Z.ltb_ge u32_max n)) by lia. }
  destruct (Z.eqb_spec (n / radix) 0) as [H0|H0].
  - rewrite <- (Hstep acc). by rewrite H0.
  - rewrite IH; [apply Hstep| |].
    + split; [by apply Z.div_pos; lia|]. transitivity n; [|lia]. apply Z.div_le_upper_bound; nia.
    + apply Z.div_lt_upper_bound; [lia|]. rewrite Nat2Z.inj_succ, Z.pow_succ_r in Hf by lia. lia.
Qed.

Lemma digits_head fuel radix n acc :
  2 <= radix <= 16 -> 0 <= n -> 
  exists d s, digits (S fuel) radix n acc = String (hex_digit (Z.to_N d)) s /\ 0 <= d < radix.
Proof.
  intros Hr. revert n acc. induction fuel as [|fuel IH]; intros n acc Hn; cbn [digits] in *;
    pose proof (Z.mod_pos_bound n radix ltac:(lia)).
  - exists (n mod radix), acc. split; [by case_match|lia].
  - case_match; [by exists (n mod radix), acc|]. apply IH. apply Z.div_pos; lia.
Qed.

Lemma hex_digit_cases d : 0 <= d < 16 ->
  hex_digit (Z.to_N d) <> "+"%char /\ hex_digit (Z.to_N d) <> "-"%char /\ hex_digit (Z.to_N d) <> "x"%char.
Proof.
  intros Hd. unfold hex_digit. assert (Hn : (Z.to_N d < 16)%N) by lia. revert Hn. generalize (Z.to_N d). intros n Hn.
  destruct n as [|p]; [done|]. do 4 (destruct p as [p|p|]; try done; try lia).
Qed.

Lemma from_str_radix_digits radix n fuel :
  2 <= radix <= 16 -> 0 <= n <= u32_max -> n < radix ^ Z.of_nat (S fuel) ->
  from_str_radix radix (digits (S fuel) radix n "") = Ok n.
Proof.
  intros Hr Hn Hf. pose proof (parse_digits_run (S fuel) radix n "" Hr Hn Hf) as Hp.
  destruct (digits_head fuel radix n "" Hr ltac:(lia)) as (d & s & Hs & Hd). rewrite Hs in *.
  destruct (hex_digit_cases d ltac:(lia)) as (Hplus & Hminus & _).
  set (c := hex_digit (Z.to_N d)) in *. clearbody c.
  unfold from_str_radix. destruct c as [[] [] [] [] [] [] [] []]; try done; destruct s; exact Hp || done.
Qed.

Lemma parse_digits_range radix r s n :
  0 <= radix -> 0 <= r <= u32_max -> parse_digits radix r s = Ok n -> 0 <= n <= u32_max.
Proof.
  intros Hr. revert r. induction s as [|c s IH]; intros r Hr0; cbn [parse_digits]; [by intros [= <-]|].
  destruct (digit_value radix c) as [x|] eqn:Hx; [|done].
  assert (0 <= x).
  { unfold digit_value in Hx.
    repeat case_match; simplify_eq; repeat match goal with H : (_ && _) = true |- _ => apply andb_true_iff in H as [?%Z.leb_le ?%Z.leb_le] end; lia. }
  destruct (Z.ltb_spec u32_max (r * radix + x)); [done|]. apply IH. nia.
Qed.
Lemma from_str_radix_range radix s n : 0 <= radix -> from_str_radix radix s = Ok n -> 0 <= n <= u32_max.
Proof.
  intros Hr. unfold from_str_radix. destruct s as [|[[] [] [] [] [] [] [] []] [|c s]]; try done;
    by apply (parse_digits_range radix 0).
Qed.
Lemma deserialize_range buf n : deserialize_u32_0x buf = Ok n -> 0 <= n <= u32_max.
Proof.
  assert (Hp : forall radix s (f : IntErrorKind -> string), 0 <= radix -> map_err f (from_str_radix radix s) = Ok n -> 0 <= n <= u32_max).
  { intros radix s f Hr. destruct (from_str_radix radix s) as [m|] eqn:Hm; [|done]. intros [= <-].
    by eapply (from_str_radix_range radix). }
  unfold deserialize_u32_0x. destruct buf as [|c [|c' buf]]; [by apply Hp|by destruct c as [[] [] [] [] [] [] [] []]; apply Hp|].
  destruct c as [[] [] [] [] [] [] [] []]; try by apply Hp. destruct c' as [[] [] [] [] [] [] [] []]; by apply Hp.
Qed.

(** A number that a client writes in either notation is the one that is read,
    and no other numbers are than those of 32 bits. *)
Theorem request_number_roundtrip n fuel :
  0 <= n <= u32_max -> (10 <= fuel)%nat ->
  deserialize_u32_0x ("0x" +:+ digits fuel 16 n "") = Ok n /\
  deserialize_u32_0x (digits fuel 10 n "") = Ok n /\
  forall buf m, deserialize_u32_0x buf = Ok m -> 0 <= m <= u32_max.
Proof.
  intros Hn Hf. destruct fuel as [|fuel]; [lia|].
  assert (Hpow : forall radix, 10 <= radix -> n < radix ^ Z.of_nat (S fuel)).
  { intros radix Hr. apply Z.lt_le_trans with (10 ^ 10); [lia|]. transitivity (10 ^ Z.of_nat (S fuel)).
    - apply Z.pow_le_mono_r; lia.
    - apply Z.pow_le_mono_l; lia. }
  pose proof (from_str_radix_digits 10 n fuel ltac:(lia) Hn (Hpow 10 ltac:(lia))) as H10.
  pose proof (from_str_radix_digits 16 n fuel ltac:(lia) Hn (Hpow 16 ltac:(lia))) as H16. split_and!; [| |apply deserialize_range].
  - set (buf := digits (S fuel) 16 n "") in *. clearbody buf. unfold deserialize_u32_0x.
    change ("0x" +:+ buf) with (String "0" (String "x" buf)). cbn -[from_str_radix map_err]. by rewrite H16.
  - set (buf := digits (S fuel) 10 n "") in *. clearbody buf. unfold deserialize_u32_0x.
    destruct buf as [|c [|c' buf]]; [done|by destruct c as [[] [] [] [] [] [] [] []]; rewrite H10|].
    destruct (ascii_dec c "0") as [->|Hc]; [destruct (ascii_dec c' "x") as [->|Hx]|]; [done| |].
    + destruct c' as [[] [] [] [] [] [] [] []]; try done; by rewrite H10.
    + destruct c as [[] [] [] [] [] [] [] []]; try done; by rewrite H10.
Qed.

(** ** Values in an answer ([evm-tracing/src/types/serialization.rs]) *)

Fixpoint hex_encode (bytes : Bytes) : string :=
  match bytes with
  | EmptyString => EmptyString
  | String c bytes => String (hex_digit (N_of_ascii c / 16)) (String (hex_digit (N_of_ascii c mod 16)) (hex_encode bytes))
  end.
Definition bytes_0x_serialize (bytes : Bytes) : string := "0x" +:+ hex_encode bytes.
Definition option_bytes_0x_serialize (bytes : option Bytes) : Result string string :=
  match bytes with
  | Some bytes => Ok (bytes_0x_serialize bytes)
  | None => Err "String serialize error."
  end.
Definition opcode_serialize `{!Unicode} (opcode : Bytes) : Result string string :=
  ok_or (to_uppercase opcode) "Opcode serialize error.".
Definition u256_serialize (data : Z) : Z := saturated_into u64_max data.

(** A reader of the hexadecimal digits. *)
Fixpoint hex_decode (s : string) : option Bytes :=
  match s with
  | EmptyString => Some ""
  | String h (String l s) =>
      match digit_value 16 h, digit_value 16 l, hex_decode s with
      | Some h, Some l, Some bytes => Some (String (ascii_of_N (Z.to_N (16 * h + l))) bytes)
      | _, _, _ => None
      end
  | _ => None
  end.

(** Bytes can be read back from an answer. *)
Theorem bytes_roundtrip bytes :
  exists s, bytes_0x_serialize bytes = String "0" (String "x" s) /\ hex_decode s = Some bytes.
Proof.
  exists (hex_encode bytes). split; [done|]. induction bytes as [|c bytes IH]; [done|]. cbn [hex_encode hex_decode].
  assert (Hc : (N_of_ascii c < 256)%N) by apply N_ascii_bounded.
  assert (Hd : forall d : N, (d < 16)%N -> digit_value 16 (hex_digit d) = Some (Z.of_N d)).
  { intros d Hd. rewrite <- (N2Z.id d) at 1. apply digit_value_hex; lia. }
  pose proof (N.div_mod (N_of_ascii c) 16 ltac:(lia)). pose proof (N.mod_lt (N_of_ascii c) 16 ltac:(lia)).
  assert (N_of_ascii c / 16 < 16)%N by (apply N.Div0.div_lt_upper_bound; lia).
  rewrite !Hd, IH by done. do 2 f_equal.
  replace (Z.to_N (16 * Z.of_N (N_of_ascii c / 16) + Z.of_N (N_of_ascii c mod 16))) with (N_of_ascii c) by lia.
  apply ascii_N_embedding.
Qed.

(** ** The display of errors *)

Definition escape_char (c : ascii) : string :=
  let n := N_of_ascii c in
  if (n =? 0)%N then "\0" else if (n =? 9)%N then "\t" else if (n =? 10)%N then "\n"
  else if (n =? 13)%N then "\r" else if (n =? 34)%N then String "\" (String c "")
  else if (n =? 92)%N then "\\"
  else if ((n <? 32) || (n =? 127))%N
  then "\u{" +:+ (if (n <? 16)%N then "" else String (hex_digit (n / 16)) "") +:+ String (hex_digit (n mod 16)) "}"
  else String c "".
(** [{:?}] of a string of ASCII; longer encodings are taken to be printable. *)
Fixpoint escape (s : string) : string :=
  match s with EmptyString => EmptyString | String c s => escape_char c +:+ escape s end.
Definition quote : string := String (ascii_of_N 34) "".
Definition debug_string (s : string) : string := quote +:+ escape s +:+ quote.

(** ** [trace_filter] *)

(** The chain that the handler sees; an error is its [{:?}]. *)
Class Chain := {
  best_number : Z;
  block_hash_of : Z -> Result (option Z) string;
}.

(** The cache as one request sees it: the id of its batch, and what it receives
    for a block, [None] if the channel was closed.  [closed] is the [{:?}] of
    that error. *)
Class CacheService := {
  batch_of : list Z -> option Z;
  received : Z -> option TxsTraceRes;
  closed : string;
}.

Inductive CacheRequest :=
| StartBatch (blocks : list Z)
| GetTraces (block : Z)
| StopBatch (batch_id : Z).

Section filter.
Context `{!Chain, !CacheService} (max_count : Z).

(** The requests to the cache with a result.  The channel to the cache accepts
    them as long as the node runs. *)
Definition start_batch (blocks : list Z) : list CacheRequest * Result Z string :=
  ([StartBatch blocks],
   match batch_of blocks with
   | Some id => Ok id
   | None => Err ("Trace cache task closed the response channel. Error : " +:+ closed)
   end).
Definition get_traces (block : Z) : list CacheRequest * TxsTraceRes :=
  ([GetTraces block],
   match received block with
   | Some (Ok traces) => Ok traces
   | Some (Err e) => Err ("Failed to replay block. Error : " +:+ debug_string e)
   | None => Err ("Trace cache task closed the response channel. Error : " +:+ closed)
   end).

Definition block_id (id : option RequestBlockId) : Result Z string :=
  match id with
  | Some (Id_Number n) => Ok n
  | None | Some (Id_Tag Latest) => Ok best_number
  | Some (Id_Tag Earliest) => Ok 0
  | Some (Id_Tag Pending) => Err "'pending' is not supported"
  | Some (Id_Hash _) => Err "Block hash not supported"
  end.

(** The address filter of a request. *)
Definition addressed (addresses : list Z) (a : Z) : bool :=
  bool_decide (addresses = []) || bool_decide (a ∈ addresses).
Definition selected (req : FilterRequest) (t : TransactionTrace) : bool :=
  let from_address := default [] (from_address req) in
  let to_address := default [] (to_address req) in
  match tt_action t with
  | Action_Call _ from _ _ to _ => addressed from_address from && addressed to_address to
  | Action_Create _ from _ _ _ => addressed from_address from && bool_decide (to_address = [])
  | Action_Suicide address _ _ => addressed from_address address && bool_decide (to_address = [])
  end.

Definition over_maximum : string :=
  "the amount of traces goes over the maximum (" +:+ pretty max_count
  +:+ "), please use 'after' and 'count' in your request".

(** The loop over the blocks.  [traces_amount] is an [i64]: fewer traces than
    [2^63] fit in memory. *)
Fixpoint fetch_loop (req : FilterRequest) (block_hashes : list Z) (count_ traces_amount : Z)
    (traces : list TransactionTrace) : list CacheRequest * TxsTraceRes :=
  match block_hashes with
  | [] => ([], Ok traces)
  | block_hash :: block_hashes =>
      let (requests, block_traces) := get_traces block_hash in
      match block_traces with
      | Err e => (requests, Err e)
      | Ok block_traces =>
          let block_traces := filter (fun t => selected req t) block_traces in
          let block_len := Z.of_nat (length block_traces) in
          let traces_amount := traces_amount + block_len in
          let more traces :=
            let (requests', res) := fetch_loop req block_hashes count_ traces_amount traces in
            (requests ++ requests', res) in
          if 0 <? traces_amount then
            let block_traces :=
              if traces_amount <? block_len then drop (Z.to_nat (block_len - traces_amount)) block_traces
              else block_traces in
            let traces := traces ++ block_traces in
            if count_ <=? traces_amount then
              match count req with
              | None => (requests, Err over_maximum)
              | Some _ => (requests, Ok (take (Z.to_nat count_) traces))
              end
            else more traces
          else more traces
      end
  end.

Definition fetch_traces (req : FilterRequest) (block_hashes : list Z) (count_ : Z)
    : list CacheRequest * TxsTraceRes :=
  fetch_loop req block_hashes count_ (- default 0 (after req)) [].

(** [from_block..=to_block]. *)
Definition heights (from_block to_block : Z) : list Z :=
  (fun i => from_block + Z.of_nat i) <$> seq 0 (Z.to_nat (to_block - from_block + 1)).

Fixpoint block_hashes_of (block_heights : list Z) : Result (list Z) string :=
  match block_heights with
  | [] => Ok []
  | block_height :: block_heights =>
      if block_height =? 0 then block_hashes_of block_heights
      else
        let! block_hash :=
          map_err (fun e => "Error when fetching block " +:+ pretty block_height +:+ " header : " +:+ e)
            (block_hash_of block_height) in
        let! block_hash := ok_or block_hash ("Block with height " +:+ pretty block_height +:+ " don't exist") in
        let! block_hashes := block_hashes_of block_heights in
        Ok (block_hash :: block_hashes)
  end.

(** Up to the first request to the cache. *)
Definition prepare (req : FilterRequest) : Result (list Z * Z) string :=
  let! from_block := block_id (from_block req) in
  let! to_block := block_id (to_block req) in
  let count_ := default max_count (count req) in
  ensure! negb (max_count <? count_)
    else "count (" +:+ pretty count_ +:+ ") can't be greater than maximum (" +:+ pretty max_count +:+ ")" in
  let! block_hashes := block_hashes_of (heights from_block to_block) in
  Ok (block_hashes, count_).

Definition trace_filter (req : FilterRequest) : list CacheRequest * TxsTraceRes :=
  match prepare req with
  | Err e => ([], Err e)
  | Ok (block_hashes, count_) =>
      let (started, batch_id) := start_batch block_hashes in
      match batch_id with
      | Err e => (started, Err e)
      | Ok batch_id =>
          let (fetched, res) := fetch_traces req block_hashes count_ in
          (started ++ fetched ++ [StopBatch batch_id], res)
      end
  end.

(** ** The page that a request is answered with *)

(** The traces of the blocks up to the first one that fails, and its error. *)
Fixpoint stream (req : FilterRequest) (block_hashes : list Z) : list TransactionTrace * option string :=
  match block_hashes with
  | [] => ([], None)
  | block_hash :: block_hashes =>
      match (get_traces block_hash).2 with
      | Err e => ([], Some e)
      | Ok traces =>
          let (traces', e) := stream req block_hashes in
          (filter (fun t => selected req t) traces ++ traces', e)
      end
  end.

Definition page_of (req : FilterRequest) (count_ : Z) (all : list TransactionTrace * option string)
    : TxsTraceRes :=
  let rest := drop (Z.to_nat (default 0 (after req))) all.1 in
  let len := Z.of_nat (length rest) in
  if (0 <? len) && (count_ <=? len) then
    match count req with
    | None => Err over_maximum
    | Some _ => Ok (take (Z.to_nat count_) rest)
    end
  else match all.2 with Some e => Err e | None => Ok rest end.

Definition request_ok (req : FilterRequest) : Prop := 0 <= default 0 (after req) /\ 0 <= default 0 (count req).

Lemma drop_across {A} (a : Z) (prev new : list A) :
  let amount := Z.of_nat (length prev) - a + Z.of_nat (length new) in
  0 < amount ->
  drop (Z.to_nat a) prev ++
    (if amount <? Z.of_nat (length new) then drop (Z.to_nat (Z.of_nat (length new) - amount)) new else new) =
  drop (Z.to_nat a) (prev ++ new).
Proof.
  intros amount Ha. rewrite drop_app. unfold amount in *. destruct (Z.ltb_spec (Z.of_nat (length prev) - a + Z.of_nat (length new)) (Z.of_nat (length new))).
  - do 2 f_equal. lia.
  - by replace (Z.to_nat a - length prev)%nat with 0%nat by lia.
Qed.

Lemma page_reached req c prev rest e :
  let amount := Z.of_nat (length prev) - default 0 (after req) in
  request_ok req -> 0 < amount -> c <= amount ->
  page_of req c (prev ++ rest, e) =
    match count req with
    | None => Err over_maximum
    | Some _ => Ok (take (Z.to_nat c) (drop (Z.to_nat (default 0 (after req))) prev))
    end.
Proof.
  intros amount [Ha _] Hpos Hc. unfold page_of, amount in *. cbn [fst snd]. rewrite drop_app, length_app, !length_drop.
  rewrite (proj2 (Z.ltb_lt _ _)), (proj2 (Z.leb_le _ _)) by lia. simpl.
  by rewrite take_app_le by (rewrite length_drop; lia).
Qed.

Lemma snd_let {A B} (f : A -> A) (p : A * B) : (let (a, b) := p in (f a, b)).2 = p.2.
Proof. by destruct p. Qed.

Lemma fetch_loop_page req c bs prev :
  request_ok req -> let a := default 0 (after req) in
  ~ (0 < Z.of_nat (length prev) - a /\ c <= Z.of_nat (length prev) - a) ->
  (fetch_loop req bs c (Z.of_nat (length prev) - a) (drop (Z.to_nat a) prev)).2 =
    page_of req c (prev ++ (stream req bs).1, (stream req bs).2).
Proof.
  intros Hreq a. pose proof Hreq as [Ha _]. fold a in Ha. revert prev. induction bs as [|b bs IH]; intros prev Hopen.
  - simpl. rewrite app_nil_r. unfold page_of. cbn [fst snd]. fold a. rewrite length_drop.
    destruct (Z.ltb_spec 0 (Z.of_nat (length prev - Z.to_nat a))), (Z.leb_spec c (Z.of_nat (length prev - Z.to_nat a))); try done.
    exfalso. apply Hopen. lia.
  - cbn [fetch_loop stream]. destruct (get_traces b) as [ms [ts|e]]; cbn [snd].
    2:{ unfold page_of. cbn [fst snd]. fold a. rewrite app_nil_r, length_drop.
        destruct (Z.ltb_spec 0 (Z.of_nat (length prev - Z.to_nat a))), (Z.leb_spec c (Z.of_nat (length prev - Z.to_nat a))); try done.
        exfalso. apply Hopen. lia. }
    set (new := filter (fun t => selected req t) ts). specialize (IH (prev ++ new)).
    destruct (stream req bs) as [ts' e']. cbn [fst snd] in *. rewrite (assoc (++)).
    replace (Z.of_nat (length (prev ++ new)) - a) with (Z.of_nat (length prev) - a + Z.of_nat (length new)) in IH
      by (rewrite length_app; lia).
    destruct (Z.ltb_spec 0 (Z.of_nat (length prev) - a + Z.of_nat (length new))) as [Hpos|Hpos].
    + rewrite drop_across by done.
      destruct (Z.leb_spec c (Z.of_nat (length prev) - a + Z.of_nat (length new))) as [Hc|Hc].
      * rewrite page_reached by (done || rewrite length_app; fold a; lia). by destruct (count req).
      * rewrite <- IH by lia. apply snd_let.
    + rewrite <- IH by lia. rewrite (drop_ge prev), (drop_ge (prev ++ new)) by (rewrite ?length_app; lia).
      apply snd_let.
Qed.

Lemma fetch_loop_requests req c bs amount traces :
  exists k, (fetch_loop req bs c amount traces).1 = GetTraces <$> take k bs.
Proof.
  revert amount traces. induction bs as [|b bs IH]; intros amount traces; [by exists 0%nat|].
  cbn [fetch_loop]. unfold get_traces. destruct (match received b with Some _ => _ | None => _ end) as [ts|e];
    [|by exists 1%nat]. cbv zeta.
  repeat case_match; try (by exists 1%nat); simplify_eq;
    match goal with Hr : fetch_loop _ _ _ ?x ?y = _ |- _ =>
      destruct (IH x y) as [k Hk]; rewrite Hr in Hk; exists (S k); simpl in *; by rewrite Hk end.
Qed.

Lemma stream_failure req bs e : (stream req bs).2 = Some e -> exists b, b ∈ bs /\ (get_traces b).2 = Err e.
Proof.
  induction bs as [|b bs IH]; [done|]. cbn [stream]. destruct ((get_traces b).2) as [ts|e'] eqn:Hb.
  - destruct (stream req bs). intros He. destruct (IH He) as (b' & ? & ?). exists b'. split; [by right|done].
  - intros [= ->]. exists b. split; [left|done].
Qed.

Lemma prepare_count req bs c :
  prepare req = Ok (bs, c) -> c = default max_count (count req) /\ c <= max_count.
Proof.
  unfold prepare. destruct (block_id (from_block req)), (block_id (to_block req)); try done.
  destruct (Z.ltb_spec max_count (default max_count (count req))); [done|]. simpl.
  destruct (block_hashes_of _); [|done]. intros [= _ <-]. by split.
Qed.

Lemma page_bounded req bs c all ts :
  0 <= max_count -> request_ok req -> prepare req = Ok (bs, c) ->
  page_of req c all = Ok ts -> Z.of_nat (length ts) <= max_count.
Proof.
  intros Hmax [_ Hc0] Hprep Hp. apply prepare_count in Hprep as [Hc Hle]. unfold page_of in Hp.
  destruct (Z.ltb_spec 0 (Z.of_nat (length (drop (Z.to_nat (default 0 (after req))) all.1)))),
    (Z.leb_spec c (Z.of_nat (length (drop (Z.to_nat (default 0 (after req))) all.1)))); simpl in Hp.
  { destruct (count req); [|done]. simpl in *. injection Hp as <-. rewrite length_take. lia. }
  all: destruct (all.2); [done|]; injection Hp as <-; lia.
Qed.

Lemma trace_filter_run req bs c id :
  request_ok req -> 0 <= max_count -> prepare req = Ok (bs, c) -> batch_of bs = Some id ->
  exists k, trace_filter req = (StartBatch bs :: (GetTraces <$> take k bs) ++ [StopBatch id],
                                page_of req c (stream req bs)).
Proof.
  intros Hreq Hmax Hprep Hid. unfold trace_filter, start_batch. rewrite Hprep, Hid.
  pose proof (fetch_loop_page req c bs [] Hreq) as Hpage.
  destruct (fetch_loop_requests req c bs (- default 0 (after req)) []) as [k Hk]. exists k.
  unfold fetch_traces. destruct (fetch_loop req bs c _ []) as [ms r] eqn:Hloop. cbn [fst snd] in *. subst ms.
  rewrite drop_nil in Hpage. simpl in Hpage. rewrite Z.sub_0_l, Hloop in Hpage. cbn [fst snd] in Hpage.
  rewrite Hpage by (destruct Hreq; lia). by destruct (stream req bs).
Qed.
Lemma trace_filter_result req bs c id :
  request_ok req -> 0 <= max_count -> prepare req = Ok (bs, c) -> batch_of bs = Some id ->
  (trace_filter req).2 = page_of req c (stream req bs).
Proof. intros Hreq Hmax Hprep Hid. by destruct (trace_filter_run req bs c id Hreq Hmax Hprep Hid) as [k ->]. Qed.

(** A request that can be prepared and whose batch is started has it stopped
    again, whatever comes of it.  It is answered with the page that starts
    [after] the first of the traces of its blocks and has [count] of them, or
    with the error of the first block that fails before the page is full; a
    request without a count is refused when there are as many as the maximum.
    A page is never longer than the maximum. *)
Theorem trace_filter_page req bs c id :
  request_ok req -> 0 <= max_count -> prepare req = Ok (bs, c) -> batch_of bs = Some id ->
  (trace_filter req).2 = page_of req c (stream req bs) /\
  (exists k, (trace_filter req).1 = StartBatch bs :: (GetTraces <$> take k bs) ++ [StopBatch id]) /\
  (forall ts, (trace_filter req).2 = Ok ts -> Z.of_nat (length ts) <= max_count).
Proof.
  intros Hreq Hmax Hprep Hid. destruct (trace_filter_run req bs c id Hreq Hmax Hprep Hid) as [k ->]. cbn [fst snd].
  split_and!; [done|by exists k|]. intros ts. by eapply page_bounded.
Qed.
End filter.

(** ** Tracing a block for the cache *)

Record Header := mkHeader { number : Z; parent_hash : Z }.
Record TransactionStatus := mkTransactionStatus { transaction_hash : Z; transaction_index : Z }.
Record EthBlock (Tx : Type) := mkEthBlock { eth_hash : Z; gas_limit_of : Z; transactions : list Tx }.
Arguments mkEthBlock {Tx}. Arguments eth_hash {Tx}. Arguments gas_limit_of {Tx}. Arguments transactions {Tx}.

(** What the node knows of a block, by its Substrate hash: the database and the
    storage of Frontier.  An error is its [{:?}]. *)
Class NodeClient (Xt Tx : Type) := {
  header : Z -> Result (option Header) string;
  body : Z -> Result (option (list Xt)) string;
  current_block : Z -> option (EthBlock Tx);
  current_transaction_statuses : Z -> option (list TransactionStatus);
  display_hash : Z -> string;
}.

(** A call into the runtime: the error of the call, that of the runtime, and the
    events of the EVM on the way. *)
Definition ApiCall : Type := Result (Result unit string) string * list Event.

(** [DebugRuntimeApi] at the state after a block, by its hash; [api_version] is
    [None] where the node cannot tell.  The functions of older versions belong
    to runtimes that are no longer in the sources. *)
Class DebugRuntimeApi (Xt Tx : Type) := {
  api_version : Z -> option Z;
  api_trace_block : Z -> list Xt -> list Z -> Header -> ApiCall;
  api_trace_transaction : Z -> list Xt -> Tx -> Header -> ApiCall;
  initialize_block_before_version_5 : Z -> Header -> Result unit string;
  trace_block_before_version_5 : Z -> list Xt -> list Z -> Header -> ApiCall;
  trace_transaction_before_version_5 : Z -> list Xt -> Tx -> Header -> ApiCall;
  trace_transaction_before_version_4 : Z -> list Xt -> Tx -> Header -> ApiCall;
}.

Section cache_block.
Context {Xt Tx : Type} `{!Unicode, !NodeClient Xt Tx, !DebugRuntimeApi Xt Tx}.

(** The replay of a block: [Err] is the error of the initialization. *)
Definition replay_block (trace_api_version parent : Z) (extrinsics : list Xt) (eth_tx_hashes : list Z) (h : Header)
    : Result (Result (Result unit string) string) string * list Event :=
  if 5 <=? trace_api_version then
    let (result, events) := api_trace_block parent extrinsics eth_tx_hashes h in (Ok result, events)
  else
    match initialize_block_before_version_5 parent h with
    | Err e => (Err e, [])
    | Ok _ => let (result, events) := trace_block_before_version_5 parent extrinsics eth_tx_hashes h in
              (Ok result, events)
    end.

Definition replay_errors (height : Z) (result : Result (Result (Result unit string) string) string)
    : Result unit string :=
  let! result := map_err (fun e => "Runtime api access error: " +:+ e) result in
  let! result :=
    map_err (fun e => "Blockchain error when replaying block " +:+ pretty height +:+ " : " +:+ e) result in
  map_err (fun e => "Internal runtime error when replaying block " +:+ pretty height +:+ " : " +:+ e) result.

(** [collect] into a map: a later entry replaces an earlier one. *)
Definition eth_transactions_by_index (eth_transactions : list TransactionStatus) : gmap Z Z :=
  foldl (fun m t => <[transaction_index t := transaction_hash t]> m) ∅ eth_transactions.

Definition reformat_error (output : TransactionTraceOutput) : TransactionTraceOutput :=
  match output with
  | Output_Error error => if String.eqb error "execution reverted" then Output_Error "Reverted" else output
  | _ => output
  end.

(** The fields that are inserted into a trace. *)
Definition insert_labels (eth_block_hash height transaction_hash : Z) (t : TransactionTrace) : TransactionTrace :=
  mkTransactionTrace (tt_action t) eth_block_hash height (reformat_error (tt_output t)) (tt_subtraces t)
    (tt_trace_address t) transaction_hash (tt_transaction_position t).

Definition label (eth_block_hash height : Z) (by_index : gmap Z Z) (t : TransactionTrace) : option TransactionTrace :=
  match by_index !! tt_transaction_position t with
  | Some transaction_hash => Some (insert_labels eth_block_hash height transaction_hash t)
  | None => None
  end.

Definition cache_block (substrate_hash : Z) : TxsTraceRes :=
  let! block_header :=
    map_err (fun e => "Error when fetching substrate block " +:+ display_hash substrate_hash +:+ " header : " +:+ e)
      (header substrate_hash) in
  let! block_header := ok_or block_header ("Subtrate block " +:+ display_hash substrate_hash +:+ " don't exist") in
  let height := number block_header in
  let substrate_parent_hash := parent_hash block_header in
  match current_block substrate_hash, current_transaction_statuses substrate_hash with
  | Some eth_block, Some eth_transactions =>
      let eth_tx_hashes := transaction_hash <$> eth_transactions in
      let! extrinsics :=
        map_err (fun e => "Blockchain error when fetching extrinsics of block " +:+ pretty height +:+ " : " +:+ e)
          (body substrate_hash) in
      let! extrinsics :=
        ok_or extrinsics ("Could not find block " +:+ pretty height +:+ " when fetching extrinsics.") in
      match api_version substrate_parent_hash with
      | Some trace_api_version =>
          let (result, events) :=
            replay_block trace_api_version substrate_parent_hash extrinsics eth_tx_hashes block_header in
          let! _ := replay_errors height result in
          let! traces := ok_or (trace_filter_format (entries (listen events listener_default))) "Fail to format proxy" in
          Ok (omap (label (eth_hash eth_block) height (eth_transactions_by_index eth_transactions)) traces)
      | None => Err "Runtime api version call failed (trace)"
      end
  | _, _ => Err ("Failed to get Ethereum block data for Substrate block " +:+ display_hash substrate_hash)
  end.
End cache_block.

(** ** The cache as the service of a request *)

Section served.
Context (display : Z -> string) (cache_block : Z -> TxsTraceRes) (permits : nat).
Context (may_start : Node (Hash := Z) -> list Z -> Prop).
Context `{!Chain} (max_count : Z).

(** What the node of [TraceCache] has answered to the requests of one client,
    which knows them by their block. *)
Definition node_service (n : Node (Hash := Z)) (batch : list Z -> option Z) (request : Z -> option Sender)
    (closed : string) : CacheService := {|
  batch_of := batch;
  received b := s ← request b; p ← list_find (fun p => p.1 = s) (answers n); p.2.2;
  closed := closed;
|}.

Lemma service_traces n batch request cl b ts :
  node_reachable display cache_block permits may_start n ->
  (forall b s, request b = Some s -> asked n !! s = Some b) ->
  @received (node_service n batch request cl) b = Some (Ok ts) -> cache_block b = Ok ts.
Proof.
  intros Hn Hreq Hr. simpl in Hr. apply bind_Some in Hr as (s & Hs & Hr).
  apply bind_Some in Hr as ([i [s' r]] & Hfind & Hr). simpl in Hr. subst r.
  apply list_find_Some in Hfind as (Hi & Heq & _). simpl in Heq. subst s'.
  destruct (ok_answers _ _ _ (reachable_ok _ _ _ _ _ Hn) s (Ok ts)) as (b' & Hb' & [Hts|Hts]);
    [by eapply list_elem_of_lookup_2| |done].
  rewrite (Hreq b s Hs) in Hb'. by injection Hb' as <-.
Qed.

(** The traces of the first blocks, as they were made for the cache. *)
Definition filtered_traces (req : FilterRequest) (b : Z) : list TransactionTrace :=
  match cache_block b with Ok ts => filter (fun t => selected req t) ts | Err _ => [] end.

Lemma stream_made `{!CacheService} req bs :
  (forall b ts, received b = Some (Ok ts) -> cache_block b = Ok ts) ->
  exists k, (stream req bs).1 = take k bs ≫= filtered_traces req /\
    Forall (fun b => is_ok (cache_block b) = true) (take k bs) /\
    ((stream req bs).2 = None -> take k bs = bs).
Proof.
  intros Hlaw. induction bs as [|b bs (k & Hk & Hok & Hall)]; [by exists 0%nat|]. cbn [stream].
  unfold get_traces. cbn [snd]. destruct (received b) as [[ts|e]|] eqn:Hb; [|by exists 0%nat..].
  apply Hlaw in Hb. exists (S k). destruct (stream req bs) as [ts' e']. cbn [fst snd] in *.
  split_and!.
  - cbn [firstn mbind list_bind]. rewrite Hk. unfold filtered_traces at 2. by rewrite Hb.
  - constructor; [by rewrite Hb|done].
  - intros He. simpl. by rewrite Hall.
Qed.

Lemma page_made `{cached : !CacheService} req bs c id ts :
  (forall b ts, received b = Some (Ok ts) -> cache_block b = Ok ts) ->
  request_ok req -> 0 <= max_count -> prepare max_count req = Ok (bs, c) -> batch_of bs = Some id ->
  (trace_filter max_count req).2 = Ok ts ->
  exists k,
    ts = take (Z.to_nat c) (drop (Z.to_nat (default 0 (after req))) (take k bs ≫= filtered_traces req)) /\
    Forall (fun b => is_ok (cache_block b) = true) (take k bs) /\
    (take k bs = bs \/ Z.of_nat (length ts) = c).
Proof.
  intros Hlaw Hreq Hmax Hprep Hid Hts. destruct (stream_made req bs Hlaw) as (k & Hk & Hok & Hall).
  exists k. rewrite (trace_filter_result max_count req bs c id Hreq Hmax Hprep Hid) in Hts.
  apply prepare_count in Hprep as [Hc _]. destruct Hreq as [Ha Hcount].
  assert (Hc0 : 0 <= c) by (subst c; destruct (count req); simpl in *; lia).
  unfold page_of in Hts. rewrite Hk in Hts. set (rest := drop _ _) in *.
  destruct (Z.ltb_spec 0 (Z.of_nat (length rest))), (Z.leb_spec c (Z.of_nat (length rest))); simpl in Hts.
  1:{ destruct (count req); [|done]. injection Hts as <-. split_and!; [done..|]. right. rewrite length_take. lia. }
  all: destruct ((stream req bs).2); [done|]; injection Hts as <-; split_and!; [|done|left; by apply Hall].
  - by rewrite take_ge by lia.
  - assert (rest = []) as ->; [destruct rest; [done|simpl in *; lia]|]. by rewrite take_nil.
  - by rewrite take_ge by lia.
Qed.

(** C18: whatever else the node is doing, traces that [trace_filter] returns are the
    page of what tracing the first blocks gives, and it is full unless these
    are all the blocks. *)
Theorem trace_filter_served n batch request cl req bs c id ts :
  node_reachable display cache_block permits may_start n ->
  (forall b s, request b = Some s -> asked n !! s = Some b) ->
  let service := node_service n batch request cl in
  request_ok req -> 0 <= max_count -> prepare max_count req = Ok (bs, c) -> batch bs = Some id ->
  (trace_filter max_count req).2 = Ok ts ->
  exists k,
    ts = take (Z.to_nat c) (drop (Z.to_nat (default 0 (after req))) (take k bs ≫= filtered_traces req)) /\
    Forall (fun b => is_ok (cache_block b) = true) (take k bs) /\
    (take k bs = bs \/ Z.of_nat (length ts) = c).
Proof.
  intros Hn Hasked service Hreq Hmax Hprep Hid Hts. apply (page_made (cached := service) req bs c id ts); try done.
  intros b ts'. by apply service_traces.
Qed.
End served.

(** ** The runtime as the tracer of a block *)

(** The API at the state after the parent of a block runs the code of
    [TraceApi] in that state; an error of the runtime is shown. *)
Class RuntimeTraces (Xt Tx W : Type) `{!EqDecision Tx, !Execution Xt Tx Z W, !DebugRuntimeApi Xt Tx} := {
  state_before : Header -> W;
  show_dispatch_error : DispatchError -> string;
  block_traces_api xs known h :
    api_trace_block (parent_hash h) xs known h = (Ok (Ok tt), (trace_block xs known (state_before h)).2);
  transaction_traces_api xs t h :
    api_trace_transaction (parent_hash h) xs t h =
      let (replay, result) := trace_transaction xs t (state_before h) in
      (Ok (map_err show_dispatch_error result), replay.2);
}.

Section traced.
Context {Xt Tx W : Type} `{!EqDecision Tx, !Execution Xt Tx Z W, !Unicode, !NodeClient Xt Tx}.
Context `{!DebugRuntimeApi Xt Tx, !RuntimeTraces Xt Tx W}.

(** The hash of the transaction that an extrinsic is. *)
Definition own_hash (p : Xt * W) : Z :=
  match ethereum_transact p.1 with Some t => tx_hash t | None => 0 end.

(** The block as the node finds it, with the Ethereum transactions it has
    executed; its runtime is one that traces blocks by itself. *)
Record block_found (b : Z) (h : Header) (eb : EthBlock Tx) (xs : list Xt) (statuses : list TransactionStatus)
    (version : Z) : Prop := {
  bf_header : header b = Ok (Some h);
  bf_block : current_block b = Some eb;
  bf_statuses : current_transaction_statuses b = Some statuses;
  bf_body : body b = Ok (Some xs);
  bf_version : api_version (parent_hash h) = Some version;
  bf_new : 5 <= version;
}.

(** The calls of the transactions of a block, each with the hash of the
    transaction that made it. *)
Fixpoint block_labels (eth_block_hash height i n : Z) (hashes : list Z) (txs : list Transaction)
    : list TransactionTrace :=
  match hashes, txs with
  | hash :: hashes, tx :: txs =>
      (insert_labels eth_block_hash height hash ∘ filter_trace i ∘ snd <$> tx_entries n tx)
      ++ block_labels eth_block_hash height (i + 1) (n + tx_size tx) hashes txs
  | _, _ => []
  end.

Lemma by_index_lookup hashes k (m : gmap Z Z) (j : Z) :
  (forall i, m !! i = if (0 <=? i) && (i <? k) then m !! i else None) -> 0 <= k ->
  foldl (fun m t => <[transaction_index t := transaction_hash t]> m) m
    (imap (fun i t => mkTransactionStatus t (k + Z.of_nat i)) hashes) !! j =
  if k <=? j then hashes !! Z.to_nat (j - k) else m !! j.
Proof.
  revert k m. induction hashes as [|hash hashes IH]; intros k m Hm Hk; simpl.
  - destruct (Z.leb_spec k j); [|done]. rewrite Hm. destruct (Z.ltb_spec j k); [lia|]. by rewrite andb_false_r.
  - rewrite Z.add_0_r. erewrite (imap_ext _ (fun i t => mkTransactionStatus t (k + 1 + Z.of_nat i)));
      [|intros i t _; simpl; f_equal; lia]. rewrite IH; [|intros i|lia].
    + destruct (Z.leb_spec (k + 1) j), (Z.leb_spec k j); try lia.
      * replace (Z.to_nat (j - k)) with (S (Z.to_nat (j - (k + 1)))) by lia. done.
      * replace j with k by lia. rewrite lookup_insert_eq, Z.sub_diag. done.
      * by rewrite lookup_insert_ne by lia.
    + destruct (decide (i = k)) as [->|Hne].
      * by rewrite (proj2 (Z.leb_le 0 k)), (proj2 (Z.ltb_lt k (k + 1))) by lia.
      * rewrite lookup_insert_ne, Hm by done. 
        destruct (Z.leb_spec 0 i), (Z.ltb_spec i k), (Z.ltb_spec i (k + 1)); simpl; try done; lia.
Qed.

Lemma label_entries eh height by_index (i : Z) hash (m : CallMap) :
  0 <= i <= u32_max -> by_index !! i = Some hash ->
  omap (label eh height by_index) (filter_trace i ∘ snd <$> m) =
    insert_labels eh height hash ∘ filter_trace i ∘ snd <$> m.
Proof.
  intros Hi Hhash. induction m as [|[key c] m IH]; [done|]. simpl. unfold label at 1.
  assert (tt_transaction_position (filter_trace i c) = i) as ->.
  { unfold filter_trace. destruct (inner c); simpl; apply Z.mod_small; lia. }
  rewrite Hhash. simpl. f_equal. exact IH.
Qed.

Lemma labels_run eh height by_index hashes txs (k n : Z) :
  0 <= k -> k + Z.of_nat (length txs) <= u32_max -> length hashes = length txs ->
  (forall i, (i < length hashes)%nat -> by_index !! (k + Z.of_nat i) = hashes !! i) ->
  omap (label eh height by_index)
    (mjoin (imap (fun i entry => filter_trace (k + Z.of_nat i) ∘ snd <$> entry) (block_entries n txs))) =
  block_labels eh height k n hashes txs.
Proof.
  revert k n txs. induction hashes as [|hash hashes IH]; intros k n [|tx txs] Hk Hm Hl Hi; try done.
  cbn [block_entries imap mjoin list_join block_labels length] in *. rewrite omap_app. f_equal.
  - rewrite Z.add_0_r. apply label_entries; [lia|]. specialize (Hi 0%nat ltac:(lia)). by rewrite Z.add_0_r in Hi.
  - rewrite <- IH by (try lia; intros i Hlt; specialize (Hi (S i) ltac:(lia));
      replace (k + 1 + Z.of_nat i) with (k + Z.of_nat (S i)) by lia; done).
    do 2 f_equal. apply imap_ext. intros i x _. cbn [compose]. by replace (k + Z.of_nat (S i)) with (k + 1 + Z.of_nat i) by lia.
Qed.

Lemma length_block_size txs : Z.of_nat (length txs) <= block_size txs.
Proof.
  induction txs as [|tx txs IH]; simpl; [lia|]. unfold tx_size. pose proof (body_size_nonneg (tx_body tx)). lia.
Qed.

(** C19: if the transactions of a block are its Ethereum extrinsics, what is kept
    for it are the calls of each, in the order of the block and of the calls,
    with the hash of the transaction that made them, that of the block and its
    number. *)
Theorem block_traces_labelled b h eb xs version txs hashes :
  let runs := known_runs hashes xs (initialize_block (state_before h)) in
  block_found b h eb xs (imap (fun i t => mkTransactionStatus t (Z.of_nat i)) hashes) version ->
  hashes = own_hash <$> runs -> Forall2 runs_as runs txs -> block_size txs <= u32_max ->
  cache_block b = Ok (block_labels (eth_hash eb) (number h) 0 0 (own_hash <$> runs) txs).
Proof.
  intros runs [Hh Hb Hs Hx Hv Hnew] Hhashes Hruns Hsize. unfold cache_block. rewrite Hh, Hb, Hs, Hx. cbn [map_err ok_or].
  rewrite Hv. unfold replay_block. rewrite (proj2 (Z.leb_le 5 version)) by done. rewrite block_traces_api.
  cbn [replay_errors map_err].
  assert (transaction_hash <$> imap (fun i t => mkTransactionStatus t (Z.of_nat i)) hashes = hashes) as ->.
  { rewrite fmap_imap. clear. generalize 0%nat. induction hashes as [|x l IH]; [done|]. simpl. intros _. f_equal.
    rewrite <- (IH 0%nat) at 2. by apply imap_ext. }
  unfold trace_block. rewrite trace_block_steps. cbn [fst snd app]. fold runs.
  destruct (runs_events runs txs Hruns) as [-> Hok]. destruct (block_traced txs Hok Hsize) as [He _].
  unfold trace_filter_format. rewrite He. cbn [ok_or]. f_equal.
  pose proof (length_block_size txs). rewrite <- Hhashes.
  rewrite <- (labels_run (eth_hash eb) (number h)
    (eth_transactions_by_index (imap (fun i t => mkTransactionStatus t (Z.of_nat i)) hashes)) hashes txs 0 0); [|lia..| |].
  - done.
  - rewrite Hhashes, length_fmap. by eapply Forall2_length.
  - intros i _. unfold eth_transactions_by_index.
    erewrite (imap_ext _ (fun i t => mkTransactionStatus t (0 + Z.of_nat i))) by done.
    rewrite by_index_lookup; [|intros j; by rewrite lookup_empty; case_match|lia].
    rewrite (proj2 (Z.leb_le _ _)) by lia. f_equal. lia.
Qed.
End traced.

(** ** Concrete requests

    A chain of one block, numbered 7 and with the hash 1, on the chain of
    [TracingExamples]: an extrinsic at 1 or above is an Ethereum transaction,
    whose hash is 100 more. *)

Section examples.
#[local] Existing Instances example_unicode example_execution.

Definition example_header : Header := mkHeader 7 0.
Definition eth_block (txs : list Z) : EthBlock Z := mkEthBlock 77 30000000 txs.

#[local] Instance example_chain : Chain := {|
  best_number := 7;
  block_hash_of n := Ok (if n =? 7 then Some 1 else None);
|}.
Definition example_client (xs txs : list Z) (statuses : list TransactionStatus) : NodeClient Z Z := {|
  header b := Ok (if b =? 1 then Some example_header else None);
  body b := Ok (Some xs);
  current_block b := Some (eth_block txs);
  current_transaction_statuses b := Some statuses;
  display_hash b := pretty b;
|}.
#[local] Instance example_api : DebugRuntimeApi Z Z := {|
  api_version _ := Some 6;
  api_trace_block _ xs known _ := (Ok (Ok tt), (trace_block (W := list Z) xs known []).2);
  api_trace_transaction _ xs t _ :=
    let (replay, result) := trace_transaction (W := list Z) xs t [] in
    (Ok (map_err (fun e => match e with Other m => m end) result), replay.2);
  initialize_block_before_version_5 _ _ := Ok tt;
  trace_block_before_version_5 _ _ _ _ := (Err "", []);
  trace_transaction_before_version_5 _ _ _ _ := (Err "", []);
  trace_transaction_before_version_4 _ _ _ _ := (Err "", []);
|}.
#[local] Instance example_runtime : RuntimeTraces Z Z (list Z) := {|
  state_before _ := [];
  show_dispatch_error e := match e with Other m => m end;
  block_traces_api xs known h := eq_refl;
  transaction_traces_api xs t h := eq_refl;
|}.

Definition numbered (hashes : list Z) : list TransactionStatus :=
  imap (fun i t => mkTransactionStatus t (Z.of_nat i)) hashes.

Lemma example_found xs txs hashes :
  block_found (NodeClient0 := example_client xs txs (numbered hashes)) 1 example_header (eth_block txs) xs (numbered hashes) 6.
Proof. split; try done; lia. Qed.

Lemma example_runs :
  Forall2 runs_as (known_runs [102; 103] [0; 2; 3] ([] : list Z)) [example_tx; example_tx].
Proof.
  destruct example_block_ok as [Hok _]. unfold example_block in Hok. apply Forall_cons in Hok as [H1 _].
  constructor; [exact (conj H1 eq_refl)|]. constructor; [exact (conj H1 eq_refl)|constructor].
Qed.

Lemma block_traces_labelled_witness :
  cache_block (NodeClient0 := example_client [0; 2; 3] [2; 3] (numbered [102; 103])) 1 =
    Ok (block_labels 77 7 0 0 [102; 103] [example_tx; example_tx]) /\
  tt_transaction_hash <$> block_labels 77 7 0 0 [102; 103] [example_tx; example_tx] =
    [102; 102; 102; 102; 102; 103; 103; 103; 103; 103].
Proof.
  split; [|done].
  refine (block_traces_labelled (NodeClient0 := example_client [0; 2; 3] [2; 3] (numbered [102; 103])) (W := list Z)
    1 example_header (eth_block [2; 3]) [0; 2; 3] 6 [example_tx; example_tx] [102; 103] _ eq_refl example_runs _).
  - apply example_found.
  - vm_compute. discriminate.
Defined.

(** *** A transaction that is not an extrinsic

    Extrinsic 0 delivers a message that executes an Ethereum transaction of the
    pallet [ethereum-checked], with the hash 200; extrinsic 2 is an Ethereum
    transaction.  The traces of the latter are returned with the hash of the
    former. *)
Theorem checked_transaction_takes_traces :
  let known := [200; 102] in
  own_hash <$> known_runs known [0; 2] ([] : list Z) = [102] /\
  cache_block (NodeClient0 := example_client [0; 2] [1; 2] (numbered known)) 1 =
    Ok (block_labels 77 7 0 0 [200] [example_tx]).
Proof. split; vm_compute; reflexivity. Qed.

(** *** A page of the maximum *)

Definition five_traces : list TransactionTrace := block_labels 77 7 0 0 [102] [example_tx].
#[local] Instance example_cache : CacheService := {|
  batch_of _ := Some 0;
  received b := if b =? 1 then Some (Ok five_traces) else None;
  closed := "closed";
|}.
Definition example_request (count_ : option Z) : FilterRequest :=
  mkFilterRequest (Some (Id_Number 7)) None None None None count_.

(** A request without a count is refused when there are exactly as many traces
    as the maximum, which a request with that count returns all of. *)
Theorem exact_maximum_refused :
  (trace_filter 5 (example_request None)).2 =
    Err "the amount of traces goes over the maximum (5), please use 'after' and 'count' in your request" /\
  (trace_filter 5 (example_request (Some 5))).2 = Ok five_traces /\ length five_traces = 5%nat.
Proof. split_and!; by vm_compute. Qed.

Lemma trace_filter_page_witness :
  (trace_filter 5 (mkFilterRequest (Some (Id_Number 7)) None None None (Some 1) (Some 2))).1 =
    [StartBatch [1]; GetTraces 1; StopBatch 0] /\
  Z.of_nat (length (take 2 (drop 1 five_traces))) <= 5.
Proof.
  destruct (trace_filter_page 5 (mkFilterRequest (Some (Id_Number 7)) None None None (Some 1) (Some 2)) [1] 2 0)
    as (_ & _ & Hlen); [split; simpl; lia|lia|done..|].
  split; [by vm_compute|]. apply Hlen. by vm_compute.
Defined.

(** The client of [asked_node] has asked for block 1 and been answered. *)
#[local] Instance two_blocks : Chain := {| best_number := 2; block_hash_of n := Ok (Some n) |}.
Lemma trace_filter_served_witness :
  exists k,
    [example_trace 1] = take 1 (drop 1 (take k [1; 2] ≫=
      filtered_traces example_traces (mkFilterRequest (Some (Id_Number 1)) None None None (Some 1) (Some 1)))) /\
    (take k [1; 2] = [1; 2] \/ Z.of_nat (length [example_trace 1]) = 1).
Proof.
  destruct (trace_filter_served (H := two_blocks) pretty example_traces 1 (fun _ _ => True) 100 asked_node (fun _ => Some 0)
    (fun b => if b =? 1 then Some 0%nat else None) "closed"
    (mkFilterRequest (Some (Id_Number 1)) None None None (Some 1) (Some 1)) [1; 2] 1 0 [example_trace 1])
    as (k & Hk & _ & Hfull); [apply asked_reachable| |split; simpl; lia|lia|done|done|by vm_compute|by exists k].
  intros b s Hs. destruct (Z.eqb_spec b 1) as [->|]; [|done]. injection Hs as <-. by vm_compute.
Defined.
End examples.
