(* ===== verification/DebugRpc.v ===== *)
(** * [debug] and [txpool]

    [vendor/rpc/debug/src/lib.rs]: the traces of a block, of a transaction and
    of a call, and [trace_call] of the runtimes, which runs the latter;
    [vendor/rpc/txpool/src/lib.rs]: the transactions of the pool. *)

From Stdlib Require Import Ascii.
From stdpp Require Import strings pretty.
From S2P Require Import Prelude Frame EthereumChecked EvmEvents CallListTracing TraceFormatters CallListSpec.
From S2P Require Import CallListBlock TraceApi RawTracing TracingExamples TraceCache TraceRpc.
Open Scope Z_scope.

(** ** [debug] *)

Inductive TracerInput := Input_None | Input_Blockscout | Input_CallTracer.
Inductive TraceType :=
| TraceType_Raw (disable_storage disable_memory disable_stack : bool)
| TraceType_CallList
| TraceType_Block.

Record TraceParams := mkTraceParams {
  disable_storage : option bool;
  disable_memory : option bool;
  disable_stack : option bool;
  tracer : option string;
  timeout : option string;
}.

(** [single::TransactionTrace]. *)
Inductive SingleTrace :=
| Trace_Raw (gas : Z) (return_value : Bytes) (struct_logs : list RawStepLog)
| Trace_CallList (calls : list BlockscoutCall)
| Trace_CallListNested (call : CallTracerCall).
Inductive Response := Response_Single (t : SingleTrace) | Response_Block (ts : list SingleTrace).

Record TraceCallParams := mkTraceCallParams {
  call_from : option Z;
  call_to : Z;
  gas_price : option Z;
  max_fee_per_gas : option Z;
  max_priority_fee_per_gas : option Z;
  call_gas : option Z;
  call_value : option Z;
  call_data : option Bytes;
  call_nonce : option Z;
  access_list : option (list (Z * list Z));
}.

(** The arguments of [trace_call] of the runtime. *)
Record TraceCall := mkTraceCall {
  tc_from : Z;
  tc_to : Z;
  tc_data : Bytes;
  tc_value : Z;
  tc_gas_limit : Z;
  tc_max_fee_per_gas : option Z;
  tc_max_priority_fee_per_gas : option Z;
  tc_nonce : option Z;
  tc_access_list : option (list (Z * list Z));
}.

Inductive BlockId := BlockId_Number (n : Z) | BlockId_Hash (h : Z).

(** The rest of what [debug] asks the node for: Frontier's map of Ethereum
    hashes, the chain, the hash of the host, and the calls into the runtime
    that only [debug] makes. *)
Class DebugClient (Xt Tx : Type) := {
  load_hash : Z -> Result (option Z) string;
  load_transactions : Z -> Result (option (Z * Z)) string;
  expect_block_hash_from_id : BlockId -> Result Z string;
  display_block_id : BlockId -> string;
  twox_128 : string -> list Z;
  is_legacy : Tx -> bool;
  api_current_block : Z -> Result (option (EthBlock Tx)) string;
  api_trace_call : Z -> Header -> TraceCall -> ApiCall;
}.

Fixpoint debug_numbers (l : list Z) : string :=
  match l with [] => "" | [n] => pretty n | n :: l => pretty n +:+ ", " +:+ debug_numbers l end.

Definition BLOCKSCOUT_JS_CODE_HASH : list Z :=
  [148; 217; 240; 135; 150; 249; 30; 177; 58; 46; 130; 166; 6; 104; 130; 247].
Definition BLOCKSCOUT_JS_CODE_HASH_V2 : list Z :=
  [137; 219; 19; 105; 70; 117; 105; 41; 81; 103; 58; 30; 110; 24; 255; 2].

Section debug.
Context {Xt Tx : Type} `{!Unicode, !Chain, !NodeClient Xt Tx, !DebugRuntimeApi Xt Tx, !DebugClient Xt Tx}.
Context (raw_max_memory_usage : Z).

Definition handle_params (params : option TraceParams) : Result (TracerInput * TraceType) string :=
  match params with
  | Some params =>
      match tracer params with
      | Some tracer =>
          let hash := twox_128 tracer in
          let tracer :=
            if bool_decide (hash = BLOCKSCOUT_JS_CODE_HASH) || bool_decide (hash = BLOCKSCOUT_JS_CODE_HASH_V2)
            then Some Input_Blockscout
            else if String.eqb tracer "callTracer" then Some Input_CallTracer
            else None in
          match tracer with
          | Some tracer => Ok (tracer, TraceType_CallList)
          | None => Err ("javascript based tracing is not available (hash :[" +:+ debug_numbers hash +:+ "])")
          end
      | None =>
          Ok (Input_None, TraceType_Raw (default false (disable_storage params))
                            (default false (disable_memory params)) (default false (disable_stack params)))
      end
  | None => Ok (Input_None, TraceType_Raw false false false)
  end.

Definition reference_id (request_block_id : RequestBlockId) : Result BlockId string :=
  match request_block_id with
  | Id_Number n => Ok (BlockId_Number n)
  | Id_Tag Latest => Ok (BlockId_Number best_number)
  | Id_Tag Earliest => Ok (BlockId_Number 0)
  | Id_Tag Pending => Err "'pending' blocks are not supported"
  | Id_Hash eth_hash =>
      match load_hash eth_hash with
      | Ok (Some hash) => Ok (BlockId_Hash hash)
      | Ok None => Err "Block hash not found"
      | Err e => Err e
      end
  end.

Definition reference_header (id : BlockId) : Result (Z * Header) string :=
  match expect_block_hash_from_id id with
  | Ok hash => match header hash with Ok (Some h) => Ok (hash, h) | _ => Err "Block header not found" end
  | Err _ => Err "Block header not found"
  end.

Definition block_body (hash : Z) : Result (list Xt) string :=
  let! exts := map_err (fun e => "Fail to read blockchain db: " +:+ e) (body hash) in Ok (default [] exts).
Definition trace_api_version (parent : Z) : Result Z string :=
  ok_or (api_version parent) "Runtime api version call failed (trace)".

Definition empty_trace : string := debug_string "Trace result is empty.".
Definition no_format : string := "Bug: failed to resolve the tracer format.".

(** Formats panic on impossible lists of calls: a handler returns [None]. *)
Definition nested_traces (l : Listener) : option (Result (list SingleTrace) string) :=
  traces ← call_tracer_format (entries l);
  Some (map_err (fun _ => empty_trace) (ok_or (option_map (map Trace_CallListNested) traces) tt)).

Definition call_list_mode_only : string :=
  "debug_traceBlock functions currently only support callList mode (enabled"
  +:+ String (ascii_of_N 10) (String (ascii_of_N 9) (String (ascii_of_N 9) (String (ascii_of_N 9) (String (ascii_of_N 9)
        "by providing `{{'tracer': 'callTracer'}}` in the request).")))).

Definition debug_replay_errors (id : BlockId) (result : Result (Result (Result unit string) string) string)
    : Result unit string :=
  let! result := map_err (fun e => "Runtime api access error: " +:+ e) result in
  let! result :=
    map_err (fun e => "Blockchain error when replaying block " +:+ display_block_id id +:+ " : " +:+ e) result in
  map_err (fun e => "Internal runtime error when replaying block " +:+ display_block_id id +:+ " : " +:+ e) result.

(** What a handler does before it traces. *)
Definition block_request_data (request_block_id : RequestBlockId)
    : Result (BlockId * Header * list Z * option (list Xt * Z)) string :=
  let! id := reference_id request_block_id in
  let! (hash, h) := reference_header id in
  let eth_tx_hashes := transaction_hash <$> default [] (current_transaction_statuses hash) in
  if bool_decide (eth_tx_hashes = []) then Ok (id, h, [], None)
  else
    let! exts := block_body hash in
    let! version := trace_api_version (parent_hash h) in
    Ok (id, h, eth_tx_hashes, Some (exts, version)).

Definition handle_block_request (request_block_id : RequestBlockId) (params : option TraceParams)
    : option (Result Response string) :=
  match handle_params params with
  | Err e => Some (Err e)
  | Ok (tracer_input, trace_type) =>
      match block_request_data request_block_id with
      | Err e => Some (Err e)
      | Ok (_, _, _, None) => Some (Ok (Response_Block []))
      | Ok (id, h, eth_tx_hashes, Some (exts, version)) =>
          match trace_type with
          | TraceType_CallList =>
              let (result, events) := replay_block version (parent_hash h) exts eth_tx_hashes h in
              match debug_replay_errors id result with
              | Err e => Some (Err e)
              | Ok _ =>
                  match tracer_input with
                  | Input_CallTracer =>
                      traces ← nested_traces (finish_transaction (listen events listener_default));
                      Some (let! response := traces in Ok (Response_Block response))
                  | _ => Some (Err no_format)
                  end
              end
          | _ => Some (Err call_list_mode_only)
          end
      end
  end.

(** The trace of a transaction or a call, which the handler [name] makes. *)
Definition single_response (name : string) (tracer_input : TracerInput) (trace_type : TraceType)
    (result : Result unit string) (events : list Event) : option (Result Response string) :=
  match trace_type with
  | TraceType_Raw disable_storage disable_memory disable_stack =>
      l ← raw_listen events (raw_new disable_storage disable_memory disable_stack raw_max_memory_usage);
      Some (let! _ := result in
            let! trace := ok_or (raw_format l)
              "replayed transaction generated too much data. try disabling memory or storage?" in
            let '(gas, return_value, logs) := trace in
            Ok (Response_Single (Trace_Raw gas return_value logs)))
  | TraceType_CallList =>
      match result with
      | Err e => Some (Err e)
      | Ok _ =>
          let l := finish_transaction (listen events listener_default) in
          match tracer_input with
          | Input_Blockscout =>
              Some (let! calls := ok_or (blockscout_format (entries l)) empty_trace in
                    Ok (Response_Single (Trace_CallList calls)))
          | Input_CallTracer =>
              traces ← nested_traces l;
              match traces with
              | Err e => Some (Err e)
              | Ok res => trace ← last res; Some (Ok (Response_Single trace))
              end
          | Input_None => Some (Err no_format)
          end
      end
  | TraceType_Block => Some (Err ("Bug: `" +:+ name +:+ "` does not support Block."))
  end.

(** The replay of a transaction by the runtime of the parent block. *)
Definition replay_transaction (version parent : Z) (exts : list Xt) (transaction : Tx) (h : Header)
    : Result unit string * list Event :=
  let errors (result : Result (Result unit string) string) :=
    let! result := map_err (fun e => "Runtime api access error (version " +:+ pretty version +:+ "): " +:+ e) result in
    map_err (fun e => "DispatchError: " +:+ e) result in
  if 5 <=? version then
    let (result, events) := api_trace_transaction parent exts transaction h in (errors result, events)
  else
    match initialize_block_before_version_5 parent h with
    | Err e => (Err ("Runtime api access error: " +:+ e), [])
    | Ok _ =>
        if version =? 4 then
          let (result, events) := trace_transaction_before_version_5 parent exts transaction h in
          (errors result, events)
        else if is_legacy transaction then
          let (result, events) := trace_transaction_before_version_4 parent exts transaction h in
          (errors result, events)
        else (Err "Bug: pre-london runtime expects legacy transactions", [])
    end.

Definition transaction_request_data (hash : Z) : Result (Header * list Xt * Z * Tx) string :=
  let! (hash, index) :=
    match load_transactions hash with
    | Ok (Some p) => Ok p
    | Ok None => Err "Transaction hash not found"
    | Err e => Err e
    end in
  let! id := match load_hash hash with
             | Ok (Some hash) => Ok (BlockId_Hash hash)
             | Ok None => Err "Block hash not found"
             | Err e => Err e
             end in
  let! (reference_hash, h) := reference_header id in
  let! exts := block_body reference_hash in
  let! version := trace_api_version (parent_hash h) in
  let transaction := block ← current_block reference_hash; transactions block !! Z.to_nat index in
  let! transaction := ok_or transaction "Runtime block call failed" in
  Ok (h, exts, version, transaction).

Definition handle_transaction_request (hash : Z) (params : option TraceParams) : option (Result Response string) :=
  match handle_params params with
  | Err e => Some (Err e)
  | Ok (tracer_input, trace_type) =>
      match transaction_request_data hash with
      | Err e => Some (Err e)
      | Ok (h, exts, version, transaction) =>
          let (result, events) := replay_transaction version (parent_hash h) exts transaction h in
          single_response "handle_transaction_request" tracer_input trace_type result events
      end
  end.

(** A zero is no price. *)
Definition non_zero (price : option Z) : option Z := if default 0 price =? 0 then None else price.

Definition call_fees (p : TraceCallParams) : Result (option Z * option Z) string :=
  match gas_price p, max_fee_per_gas p, max_priority_fee_per_gas p with
  | gas_price, None, None => Ok (non_zero gas_price, non_zero gas_price)
  | _, max_fee, max_priority =>
      let max_fee := non_zero max_fee in
      match max_priority with
      | Some max_priority_ =>
          ensure! negb (default 0 max_fee <? max_priority_)
            else "Invalid input: `max_priority_fee_per_gas` greater than `max_fee_per_gas`" in
          Ok (max_fee, max_priority)
      | None => Ok (max_fee, max_priority)
      end
  end.

Definition call_gas_limit (p : TraceCallParams) (parent : Z) : Result Z string :=
  match call_gas p with
  | Some amount => Ok amount
  | None =>
      let! block := map_err (fun e => "runtime error: " +:+ e) (api_current_block parent) in
      let! block := ok_or block "block unavailable, cannot query gas limit" in
      Ok (gas_limit_of block)
  end.

Definition call_request_data (request_block_id : RequestBlockId) (p : TraceCallParams)
    : Result (Header * TraceCall) string :=
  let! id := reference_id request_block_id in
  let! (_, h) := reference_header id in
  let! version := trace_api_version (parent_hash h) in
  ensure! negb (version <=? 5) else "debug_traceCall not supported with old runtimes" in
  let! (max_fee, max_priority) := call_fees p in
  let! gas_limit := call_gas_limit p (parent_hash h) in
  Ok (h, mkTraceCall (default 0 (call_from p)) (call_to p) (default "" (call_data p)) (default 0 (call_value p))
           gas_limit max_fee max_priority (call_nonce p) (Some (default [] (access_list p)))).

Definition handle_call_request (request_block_id : RequestBlockId) (p : TraceCallParams)
    (params : option TraceParams) : option (Result Response string) :=
  match handle_params params with
  | Err e => Some (Err e)
  | Ok (tracer_input, trace_type) =>
      match call_request_data request_block_id p with
      | Err e => Some (Err e)
      | Ok (h, call) =>
          let (result, events) := api_trace_call (parent_hash h) h call in
          let result :=
            let! result := map_err (fun e => "Runtime api access error: " +:+ e) result in
            map_err (fun e => "DispatchError: " +:+ e) result in
          single_response "handle_call_request" tracer_input trace_type result events
      end
  end.

(** *** The task and its clients *)

Inductive RequesterInput :=
| Input_Call (id : RequestBlockId) (p : TraceCallParams)
| Input_Transaction (hash : Z)
| Input_Block (id : RequestBlockId).

(** A panic in the task that traces is an error of the request; [panicked] is
    its [{:?}]. *)
Definition task (panicked : string) (input : RequesterInput) (params : option TraceParams) : Result Response string :=
  let result :=
    match input with
    | Input_Transaction hash => handle_transaction_request hash params
    | Input_Call id p => handle_call_request id p params
    | Input_Block id => handle_block_request id params
    end in
  match result with
  | Some result => result
  | None => Err ("Internal error on spawned task : " +:+ panicked)
  end.

(** [None] is [unreachable!]. *)
Definition unwrap_single (r : Result Response string) : option (Result SingleTrace string) :=
  match r with
  | Ok (Response_Single t) => Some (Ok t)
  | Ok (Response_Block _) => None
  | Err e => Some (Err e)
  end.
Definition unwrap_block (r : Result Response string) : option (Result (list SingleTrace) string) :=
  match r with
  | Ok (Response_Block ts) => Some (Ok ts)
  | Ok (Response_Single _) => None
  | Err e => Some (Err e)
  end.

Definition debug_trace_transaction (panicked : string) (hash : Z) (params : option TraceParams) :=
  unwrap_single (task panicked (Input_Transaction hash) params).
Definition debug_trace_block (panicked : string) (id : RequestBlockId) (params : option TraceParams) :=
  unwrap_block (task panicked (Input_Block id) params).
Definition debug_trace_call (panicked : string) (p : TraceCallParams) (id : RequestBlockId)
    (params : option TraceParams) :=
  unwrap_single (task panicked (Input_Call id p) params).
End debug.

(** ** Blocks and transactions that were executed *)

Section traced.
Context {Xt Tx W : Type} `{!EqDecision Tx, !Execution Xt Tx Z W, !Unicode, !NodeClient Xt Tx}.
Context `{!DebugRuntimeApi Xt Tx, !RuntimeTraces Xt Tx W}.
Context `{!Chain, !DebugClient Xt Tx} (raw_max_memory_usage : Z).

(** [debug_traceBlock] by the hash of a block, with the [callTracer], returns
    the tree of the calls of each transaction that was traced; a block without
    Ethereum transactions has no traces, and one of whose transactions none is
    an Ethereum extrinsic is an error. *)
Theorem debug_block_trees eth b h eb xs statuses version params txs :
  load_hash eth = Ok (Some b) -> expect_block_hash_from_id (BlockId_Hash b) = Ok b ->
  handle_params params = Ok (Input_CallTracer, TraceType_CallList) ->
  block_found b h eb xs statuses version ->
  let hashes := transaction_hash <$> statuses in
  Forall2 runs_as (known_runs hashes xs (initialize_block (state_before h))) txs -> block_size txs <= u32_max ->
  handle_block_request (Id_Hash eth) params =
    Some (if bool_decide (statuses = []) then Ok (Response_Block [])
          else if bool_decide (txs = []) then Err empty_trace
          else Ok (Response_Block (map Trace_CallListNested (block_trees 0 txs)))).
Proof.
  intros Hl He Hp [Hh Hb Hs Hx Hv Hnew] hashes Hruns Hsize. subst hashes. unfold handle_block_request. rewrite Hp.
  unfold block_request_data, reference_id, reference_header. rewrite Hl, He, Hh, Hs. cbn [default id].
  destruct statuses as [|st statuses]; [done|]. rewrite !bool_decide_false by done.
  unfold block_body, trace_api_version. rewrite Hx, Hv. cbn [map_err ok_or default id].
  unfold replay_block. rewrite (proj2 (Z.leb_le 5 version)) by done. rewrite block_traces_api.
  cbn [debug_replay_errors map_err]. unfold trace_block. rewrite trace_block_steps. cbn [fst snd app].
  destruct (runs_events _ txs Hruns) as [-> Hok]. destruct (block_traced txs Hok Hsize) as [_ ->].
  unfold nested_traces. destruct txs as [|tx txs].
  - by rewrite bool_decide_true.
  - rewrite traced_block_trees by done. by rewrite bool_decide_false.
Qed.

(** [debug_traceTransaction] with the [callTracer] replays the block up to the
    transaction and returns the tree of its calls; one that is no Ethereum
    extrinsic of its block is an error of the runtime. *)
Theorem debug_transaction_tree hash eth b i h eb xs statuses version params t :
  load_transactions hash = Ok (Some (eth, i)) -> load_hash eth = Ok (Some b) ->
  expect_block_hash_from_id (BlockId_Hash b) = Ok b -> block_found b h eb xs statuses version ->
  transactions eb !! Z.to_nat i = Some t ->
  handle_params params = Ok (Input_CallTracer, TraceType_CallList) ->
  match list_find (fun x => ethereum_transact x = Some t) xs with
  | Some (j, x) =>
      forall tx, runs_as (x, execute (take j xs) (initialize_block (state_before h))) tx -> tx_size tx <= u32_max ->
        Event_CallListNew ∉ evm_events x (execute (take j xs) (initialize_block (state_before h))) ->
        handle_transaction_request raw_max_memory_usage hash params =
          Some (Ok (Response_Single (Trace_CallListNested (tx_tree 0 tx))))
  | None =>
      handle_transaction_request raw_max_memory_usage hash params =
        Some (Err ("DispatchError: " +:+
          show_dispatch_error (Other "Failed to find Ethereum transaction among the extrinsics.")))
  end.
Proof.
  intros Hlt Hl He [Hh Hb Hs Hx Hv Hnew] Ht Hp.
  assert (Hrun : handle_transaction_request raw_max_memory_usage hash params =
    let (replay, result) := trace_transaction xs t (state_before h) in
    single_response raw_max_memory_usage "handle_transaction_request" Input_CallTracer TraceType_CallList
      (map_err (fun e => "DispatchError: " +:+ e) (map_err show_dispatch_error result)) replay.2).
  { unfold handle_transaction_request. rewrite Hp. unfold transaction_request_data, reference_header, block_body, trace_api_version.
    rewrite Hlt, Hl, He, Hh, Hx, Hv. cbn [map_err ok_or default id]. rewrite Hb. cbn [mbind option_bind]. rewrite Ht.
    cbn [ok_or]. unfold replay_transaction. rewrite (proj2 (Z.leb_le 5 version)) by done.
    rewrite transaction_traces_api. by destruct (trace_transaction _ _ _). }
  rewrite Hrun. pose proof (trace_transaction_faithful xs t (state_before h)) as Htr.
  destruct (list_find _ xs) as [[j x]|]; [|by rewrite Htr]. destruct Htr as [-> Htr]. intros tx Htx Hsize Hev.
  specialize (Htr tx Htx Hsize Hev). cbn [fst snd single_response map_err]. unfold nested_traces, call_tracer_format.
  rewrite Htr. cbn [mapM]. by rewrite call_tracer_entry_tree.
Qed.
End traced.

(** ** Requests of [debug] *)

Section requests.
Context {Xt Tx : Type} `{!Unicode, !Chain, !NodeClient Xt Tx, !DebugRuntimeApi Xt Tx, !DebugClient Xt Tx}.
Context (raw_max_memory_usage : Z) (panicked : string).

Lemma single_response_kind name ti tt r es ts :
  single_response raw_max_memory_usage name ti tt r es <> Some (Ok (Response_Block ts)).
Proof.
  destruct tt; [| |done]; unfold single_response.
  - destruct (raw_listen _ _) as [l|]; [|done]. simpl. destruct r; [|done].
    by destruct (raw_format l) as [[[? ?] ?]|].
  - destruct r; [|done]. destruct ti; [done| |].
    + by destruct (blockscout_format _).
    + destruct (nested_traces _) as [[res|e]|]; [|done..]. simpl. by destruct (last res).
Qed.

(** Each handler of [debug] receives the kind of response it asked for: none
    reaches its [unreachable!], not even when the tracing panics. *)
Theorem debug_requests_answered hash p id params :
  is_Some (debug_trace_transaction raw_max_memory_usage panicked hash params) /\
  is_Some (debug_trace_call raw_max_memory_usage panicked p id params) /\
  is_Some (debug_trace_block raw_max_memory_usage panicked id params).
Proof.
  unfold debug_trace_transaction, debug_trace_call, debug_trace_block, task, unwrap_single, unwrap_block. split_and!.
  - destruct (handle_transaction_request _ _ _) as [[[t|ts]|e]|] eqn:Hr; try by eexists.
    unfold handle_transaction_request in Hr. destruct (handle_params params) as [[ti tt]|]; [|done].
    destruct (transaction_request_data hash) as [[[[h xs] v] t]|]; [|done].
    destruct (replay_transaction _ _ _ _ _). by apply single_response_kind in Hr.
  - destruct (handle_call_request _ _ _ _) as [[[t|ts]|e]|] eqn:Hr; try by eexists.
    unfold handle_call_request in Hr. destruct (handle_params params) as [[ti tt]|]; [|done].
    destruct (call_request_data id p) as [[h c]|]; [|done].
    destruct (api_trace_call _ _ _). by apply single_response_kind in Hr.
  - destruct (handle_block_request _ _) as [[[t|ts]|e]|] eqn:Hr; try by eexists.
    unfold handle_block_request in Hr. repeat case_match; simplify_eq; try done.
    destruct (nested_traces _) as [[res|e']|]; by simpl in Hr.
Qed.

(** The fees of a call that is traced: a price of zero is none, a legacy price
    is both fees, and otherwise the priority fee is at most the fee. *)
Theorem call_fees_outcome p :
  (max_fee_per_gas p = None -> max_priority_fee_per_gas p = None ->
     call_fees p = Ok (non_zero (gas_price p), non_zero (gas_price p))) /\
  (forall max_fee max_priority, call_fees p = Ok (max_fee, max_priority) ->
     max_fee <> Some 0 /\ (0 <= default 0 max_fee -> default 0 max_priority <= default 0 max_fee)).
Proof.
  split; [by unfold call_fees; intros -> ->; destruct (gas_price p)|]. intros mf mp. unfold call_fees.
  assert (Hnz : forall o, non_zero o <> Some 0) by
    (intros [x|]; unfold non_zero; simpl; [destruct (Z.eqb_spec x 0); congruence|done]).
  destruct (max_fee_per_gas p) as [mf'|], (max_priority_fee_per_gas p) as [mp'|].
  - destruct (Z.ltb_spec (default 0 (non_zero (Some mf'))) mp'); [done|]. intros [= <- <-]. by split.
  - intros [= <- <-]. split; [apply Hnz|]. simpl. lia.
  - destruct (Z.ltb_spec (default 0 (non_zero None)) mp'); [done|]. intros [= <- <-]. by split.
  - intros [= <- <-]. split; [apply Hnz|lia].
Qed.
End requests.

(** ** Calls on the runtime

    [trace_call] of the runtimes, which has the EVM run a call after the
    initialization of a block, and [call] and [create] of
    [EthereumRuntimeRPCApi], which the node answers [eth_call] and
    [eth_estimateGas] with. *)

(** The arguments of [Runner::call], and of [Runner::create], which has no
    target. *)
Record RunnerCall := mkRunnerCall {
  rc_source : Z;
  rc_target : option Z;
  rc_input : Bytes;
  rc_value : Z;
  rc_gas_limit : Z;
  rc_max_fee_per_gas : option Z;
  rc_max_priority_fee_per_gas : option Z;
  rc_nonce : option Z;
  rc_access_list : list (Z * list Z);
  rc_is_transactional : bool;
  rc_validate : bool;
  rc_weight_limit : option Weight;
  rc_proof_size_base_cost : option Z;
  rc_estimate : bool;
}.

(** The runner: the state it leaves and the events of the EVM, what it reports,
    and the size of an access list in the codec. *)
Class Runner (W Info Error : Type) := {
  runner_call : RunnerCall -> W -> W * list Event;
  runner_result : RunnerCall -> W -> Result Info Error;
  encoded_size : option (list (Z * list Z)) -> Z;
}.

Section trace_call.
Context {Xt Tx Hash W Info Error : Type} `{!Execution Xt Tx Hash W, !Runner W Info Error, !GasWeightMapping}.

Definition estimated_transaction_len (c : TraceCall) : Z :=
  let estimated_transaction_len := Z.of_nat (String.length (tc_data c)) + 258 in
  match tc_access_list c with
  | Some _ => estimated_transaction_len + encoded_size (tc_access_list c)
  | None => estimated_transaction_len
  end.

Definition runner_arguments (c : TraceCall) : RunnerCall :=
  let gas_limit := Z.min (tc_gas_limit c) u64_max in
  let weight_limit := gas_to_weight gas_limit true in
  let limited := 0 <? proof_size weight_limit in
  {| rc_source := tc_from c; rc_target := Some (tc_to c); rc_input := tc_data c; rc_value := tc_value c;
     rc_gas_limit := gas_limit; rc_max_fee_per_gas := tc_max_fee_per_gas c;
     rc_max_priority_fee_per_gas := tc_max_priority_fee_per_gas c; rc_nonce := tc_nonce c;
     rc_access_list := default [] (tc_access_list c); rc_is_transactional := false; rc_validate := true;
     rc_weight_limit := if limited then Some weight_limit else None;
     rc_proof_size_base_cost := if limited then Some (estimated_transaction_len c) else None;
     rc_estimate := false |}.

Definition trace_call (c : TraceCall) (w : W) : (W * list Event) * Result unit DispatchError :=
  (runner_call (runner_arguments c) (initialize_block w), Ok tt).

(** *** [eth_call] and [eth_estimateGas] *)

Definition eth_transaction_len (c : TraceCall) : Z :=
  let estimated_transaction_len := Z.of_nat (String.length (tc_data c)) + 210 in
  let estimated_transaction_len :=
    match tc_max_fee_per_gas c with Some _ => estimated_transaction_len + 32 | None => estimated_transaction_len end in
  let estimated_transaction_len :=
    match tc_max_priority_fee_per_gas c with
    | Some _ => estimated_transaction_len + 32
    | None => estimated_transaction_len
    end in
  match tc_access_list c with
  | Some _ => estimated_transaction_len + encoded_size (tc_access_list c)
  | None => estimated_transaction_len
  end.

(** [tc_to] is the target of a call and of no use to a creation. *)
Definition eth_arguments (target : option Z) (estimate : bool) (c : TraceCall) : RunnerCall :=
  let gas_limit := Z.min (tc_gas_limit c) u64_max in
  let weight_limit := gas_to_weight gas_limit true in
  let limited := 0 <? proof_size weight_limit in
  {| rc_source := tc_from c; rc_target := target; rc_input := tc_data c; rc_value := tc_value c;
     rc_gas_limit := gas_limit; rc_max_fee_per_gas := tc_max_fee_per_gas c;
     rc_max_priority_fee_per_gas := tc_max_priority_fee_per_gas c; rc_nonce := tc_nonce c;
     rc_access_list := []; rc_is_transactional := false; rc_validate := true;
     rc_weight_limit := if limited then Some weight_limit else None;
     rc_proof_size_base_cost := if limited then Some (eth_transaction_len c) else None;
     rc_estimate := estimate |}.
Definition eth_call (estimate : bool) (c : TraceCall) (w : W) : Result Info Error :=
  runner_result (eth_arguments (Some (tc_to c)) estimate c) w.
Definition eth_create (estimate : bool) (c : TraceCall) (w : W) : Result Info Error :=
  runner_result (eth_arguments None estimate c) w.

Definition put_access_list l (c : TraceCall) : TraceCall :=
  mkTraceCall (tc_from c) (tc_to c) (tc_data c) (tc_value c) (tc_gas_limit c) (tc_max_fee_per_gas c)
    (tc_max_priority_fee_per_gas c) (tc_nonce c) l.

(** The EVM is never given the access list of an [eth_call] or
    [eth_estimateGas], of which only the size counts, where weight limits have
    a proof size; [trace_call] gives it. *)
Theorem access_list_ignored estimate c w l l' :
  (proof_size (gas_to_weight (Z.min (tc_gas_limit c) u64_max) true) = 0 \/
   (is_Some l /\ is_Some l' /\ encoded_size l = encoded_size l')) ->
  eth_call estimate (put_access_list l c) w = eth_call estimate (put_access_list l' c) w /\
  eth_create estimate (put_access_list l c) w = eth_create estimate (put_access_list l' c) w /\
  rc_access_list (runner_arguments (put_access_list l c)) = default [] l.
Proof.
  intros Hsize. assert (Hargs : forall target,
    eth_arguments target estimate (put_access_list l c) = eth_arguments target estimate (put_access_list l' c)).
  { intros target. unfold eth_arguments. simpl. destruct Hsize as [->|([x ->] & [x' ->] & Hl)]; [done|].
    unfold eth_transaction_len. simpl. by rewrite Hl. }
  unfold eth_call, eth_create. rewrite !Hargs. by split_and!.
Qed.

(** [extrinsic_filter]: the Ethereum transactions of the pool, in its order. *)
Definition extrinsic_filter (xts_ready xts_future : list Xt) : list Tx * list Tx :=
  (omap ethereum_transact xts_ready, omap ethereum_transact xts_future).
End trace_call.

Section called.
Context {Xt Tx W : Type} `{!Unicode, !Chain, !NodeClient Xt Tx, !DebugRuntimeApi Xt Tx, !DebugClient Xt Tx}.
Context {Info Error : Type} `{!Execution Xt Tx Z W, !Runner W Info Error, !GasWeightMapping} (state_at : Header -> W) (raw_max_memory_usage : Z).

(** [debug_traceCall] with the [callTracer] returns the tree of the calls that
    the EVM makes for the call on top of the parent of the block.  The EVM is
    given the target, the nonce and the access list of the request, and no more
    gas than fits in 64 bits. *)
Theorem debug_call_tree id p params h call tx :
  (forall h call, api_trace_call (parent_hash h) h call =
     (Ok (map_err (fun e => match e with Other m => m end) (trace_call call (state_at h)).2),
      (trace_call call (state_at h)).1.2)) ->
  call_request_data id p = Ok (h, call) ->
  handle_params params = Ok (Input_CallTracer, TraceType_CallList) ->
  let es := (runner_call (runner_arguments call) (initialize_block (state_at h))).2 in
  tx_ok tx -> Event_CallListNew :: es = tx_events tx -> Event_CallListNew ∉ es -> tx_size tx <= u32_max ->
  handle_call_request raw_max_memory_usage id p params =
    Some (Ok (Response_Single (Trace_CallListNested (tx_tree 0 tx)))) /\
  rc_gas_limit (runner_arguments call) <= u64_max /\
  rc_target (runner_arguments call) = Some (call_to p) /\ rc_nonce (runner_arguments call) = call_nonce p /\
  rc_access_list (runner_arguments call) = default [] (access_list p).
Proof.
  intros Hapi Hdata Hp es Hok Hes Hnew Hsize. split.
  - unfold handle_call_request. rewrite Hp, Hdata, Hapi. cbn [trace_call fst snd map_err single_response]. fold es.
    unfold nested_traces, call_tracer_format. rewrite (transaction_listened es tx) by done.
    cbn [mapM]. by rewrite call_tracer_entry_tree.
  - unfold call_request_data in Hdata. destruct (reference_id id) as [i|]; [|done].
    destruct (reference_header i) as [[b h']|]; [|done]. destruct (trace_api_version _) as [v|]; [|done].
    destruct (v <=? 5); [done|]. simpl in Hdata. destruct (call_fees p) as [[mf mp]|]; [|done].
    destruct (call_gas_limit p _) as [g|]; [|done]. injection Hdata as <- <-.
    split_and!; [apply Z.le_min_r|done..].
Qed.
End called.

(** ** [txpool]

    [vendor/rpc/txpool/src/lib.rs] and [rpc-core/txpool]: the Ethereum
    transactions of the pool by their sender and nonce. *)

(** What the sources use of the transactions of the [ethereum] crate;
    [action] is the recipient of a call, [None] for a creation. *)
Record LegacyFields := mkLegacyFields {
  lf_nonce : Z; lf_action : option Z; lf_value : Z; lf_gas_price : Z; lf_gas_limit : Z; lf_input : Bytes }.
Record DynamicFields := mkDynamicFields {
  df_nonce : Z; df_action : option Z; df_value : Z; df_max_fee_per_gas : Z; df_gas_limit : Z; df_input : Bytes }.
Inductive EthereumTransaction := Tx_Legacy (t : LegacyFields) | Tx_EIP2930 (t : LegacyFields) | Tx_EIP1559 (t : DynamicFields).

Record PoolTransaction := mkPoolTransaction {
  pt_hash : Z;
  pt_nonce : Z;
  pt_block_hash : option Z;
  pt_block_number : option Z;
  pt_from : Z;
  pt_to : option Z;
  pt_value : Z;
  pt_gas_price : Z;
  pt_gas : Z;
  pt_input : Bytes;
  pt_transaction_index : option Z;
}.
Record Summary := mkSummary { sm_to : option Z; sm_value : Z; sm_gas : Z; sm_gas_price : Z }.

Definition nonce (txn : EthereumTransaction) : Z :=
  match txn with Tx_Legacy t | Tx_EIP2930 t => lf_nonce t | Tx_EIP1559 t => df_nonce t end.

(** [GetT::get] of both formats. *)
Definition get_transaction (hash from_address : Z) (txn : EthereumTransaction) : PoolTransaction :=
  let '(nonce, action, value, gas_price, gas_limit, input) :=
    match txn with
    | Tx_Legacy t | Tx_EIP2930 t => (lf_nonce t, lf_action t, lf_value t, lf_gas_price t, lf_gas_limit t, lf_input t)
    | Tx_EIP1559 t => (df_nonce t, df_action t, df_value t, df_max_fee_per_gas t, df_gas_limit t, df_input t)
    end in
  mkPoolTransaction hash nonce None None from_address action value gas_price gas_limit input None.
Definition get_summary (hash from_address : Z) (txn : EthereumTransaction) : Summary :=
  let '(action, value, gas_price, gas_limit) :=
    match txn with
    | Tx_Legacy t | Tx_EIP2930 t => (lf_action t, lf_value t, lf_gas_price t, lf_gas_limit t)
    | Tx_EIP1559 t => (df_action t, df_value t, df_max_fee_per_gas t, df_gas_limit t)
    end in
  mkSummary action value gas_limit gas_price.

(** The hash and the sender of a transaction, of which the latter is the hash of
    the public key that its signature recovers to. *)
Class Signatures := {
  eth_tx_hash : EthereumTransaction -> Z;
  public_key : EthereumTransaction -> option Bytes;
  keccak_address : Bytes -> Z;
}.

Section txpool.
Context `{!Signatures} {T : Type} (get : Z -> Z -> EthereumTransaction -> T).

Definition from_address_of (txn : EthereumTransaction) : Z :=
  match public_key txn with Some pk => keccak_address pk | None => 0 end.

(** [entry(from_address).or_insert_with(HashMap::new).insert(nonce, ...)]. *)
Definition insert_txn (m : gmap Z (gmap Z T)) (txn : EthereumTransaction) : gmap Z (gmap Z T) :=
  let from_address := from_address_of txn in
  <[from_address := <[nonce txn := get (eth_tx_hash txn) from_address txn]> (default ∅ (m !! from_address))]> m.
Definition transaction_map (txns : list EthereumTransaction) : gmap Z (gmap Z T) := foldl insert_txn ∅ txns.

Inductive ExtrinsicFilter :=
| Filter_Version1 (ready future : list LegacyFields)
| Filter_Current (ready future : list EthereumTransaction).

(** [api_version] and the answer of the runtime to the extrinsics of the pool,
    or the [{:?}] of its error. *)
Definition map_build (api_version : option Z) (answer : Result ExtrinsicFilter string)
    : Result (gmap Z (gmap Z T) * gmap Z (gmap Z T)) string :=
  match api_version with
  | None => Err "failed to retrieve Runtime Api version"
  | Some _ =>
      let! answer := map_err (fun err => "fetch runtime extrinsic filter failed: " +:+ err) answer in
      let '(ready, future) :=
        match answer with
        | Filter_Version1 ready future => (Tx_Legacy <$> ready, Tx_Legacy <$> future)
        | Filter_Current ready future => (ready, future)
        end in
      Ok (transaction_map ready, transaction_map future)
  end.

Definition sent_with (a n : Z) (txn : EthereumTransaction) : Prop := from_address_of txn = a /\ nonce txn = n.
#[local] Instance sent_with_dec a n txn : Decision (sent_with a n txn) := and_dec _ _.

(** A queue shows under each sender and nonce the last transaction that has
    them; one whose sender cannot be recovered is under the zero address. *)
Theorem pool_lookup txns a n :
  transaction_map txns !! a ≫= (.!! n) =
    (fun txn => get (eth_tx_hash txn) a txn) <$> last (filter (sent_with a n) txns).
Proof.
  unfold transaction_map. induction txns as [|txn txns IH] using rev_ind; [by simpl; rewrite lookup_empty|].
  rewrite foldl_app. simpl. rewrite filter_app. unfold insert_txn at 1.
  destruct (decide (from_address_of txn = a)) as [Ha|Ha].
  - rewrite Ha, lookup_insert_eq. simpl. destruct (decide (nonce txn = n)) as [Hn|Hn].
    + rewrite filter_cons_True, filter_nil, last_snoc by done. by rewrite Hn, lookup_insert_eq.
    + rewrite filter_cons_False, filter_nil, app_nil_r by (intros [? ?]; done). rewrite lookup_insert_ne, <- IH by done.
      by destruct (foldl insert_txn ∅ txns !! a).
  - rewrite lookup_insert_ne by done. rewrite filter_cons_False, filter_nil, app_nil_r by (intros [? ?]; done). exact IH.
Qed.
End txpool.

(** ** Concrete requests

    On the chain of [TraceRpc]'s examples. *)

Section examples.
#[local] Existing Instances example_unicode example_execution example_chain example_api example_runtime.

#[local] Instance example_debug : DebugClient Z Z := {|
  load_hash h := Ok (if h =? 77 then Some 1 else None);
  load_transactions h := Ok (if h =? 103 then Some (77, 1) else None);
  expect_block_hash_from_id id := match id with BlockId_Hash h => Ok h | BlockId_Number _ => Ok 1 end;
  display_block_id id := match id with BlockId_Hash h => pretty h | BlockId_Number n => pretty n end;
  twox_128 _ := [];
  is_legacy _ := true;
  api_current_block _ := Ok None;
  api_trace_call _ _ _ := (Ok (Ok tt), []);
|}.

Definition call_tracer : option TraceParams := Some (mkTraceParams None None None (Some "callTracer") None).

Lemma debug_block_trees_witness :
  handle_block_request (NodeClient0 := example_client [0; 2; 3] [2; 3] (numbered [102; 103])) (Id_Hash 77) call_tracer =
    Some (Ok (Response_Block (map Trace_CallListNested (block_trees 0 [example_tx; example_tx])))).
Proof.
  refine (debug_block_trees (NodeClient0 := example_client [0; 2; 3] [2; 3] (numbered [102; 103])) (W := list Z)
    77 1 example_header (eth_block [2; 3]) [0; 2; 3] (numbered [102; 103]) 6 call_tracer [example_tx; example_tx]
    eq_refl eq_refl eq_refl _ example_runs _).
  - apply example_found.
  - vm_compute. discriminate.
Defined.

Lemma debug_transaction_tree_witness :
  handle_transaction_request (NodeClient0 := example_client [0; 2; 3] [2; 3] (numbered [102; 103])) 1000 103 call_tracer =
    Some (Ok (Response_Single (Trace_CallListNested (tx_tree 0 example_tx)))).
Proof.
  refine (debug_transaction_tree (NodeClient0 := example_client [0; 2; 3] [2; 3] (numbered [102; 103])) (W := list Z)
    1000 103 77 1 1 example_header (eth_block [2; 3]) [0; 2; 3] (numbered [102; 103]) 6 call_tracer 3
    eq_refl eq_refl eq_refl _ eq_refl eq_refl example_tx _ _ _).
  - apply example_found.
  - split; [|done]. by destruct example_block_ok as [[Hok _]%Forall_cons _].
  - vm_compute. discriminate.
  - intros Hin%list_elem_of_In. vm_compute in Hin. by repeat (destruct Hin as [Hin|Hin]; [discriminate|]).
Defined.
End examples.

(** *** A context that stays open

    The last transaction of a block ends without an exit event. *)
Section open.
#[local] Existing Instances example_unicode example_chain example_debug.
#[local] Instance open_execution : Execution Z Z Z (list Z) := {|
  ethereum_transact x := Some x;
  tx_hash t := 100 + t;
  initialize_block w := w;
  apply_extrinsic x w := x :: w;
  evm_events x _ := [Event_Evm (Evm_TransactCall 1 10 5 "call")];
|}.
#[local] Instance open_api : DebugRuntimeApi Z Z := {|
  api_version _ := Some 6;
  api_trace_block _ xs known _ := (Ok (Ok tt), (trace_block (W := list Z) xs known []).2);
  api_trace_transaction _ xs t _ := (Err "", []);
  initialize_block_before_version_5 _ _ := Ok tt;
  trace_block_before_version_5 _ _ _ _ := (Err "", []);
  trace_transaction_before_version_5 _ _ _ _ := (Err "", []);
  trace_transaction_before_version_4 _ _ _ _ := (Err "", []);
|}.
#[local] Instance open_client : NodeClient Z Z := example_client [2] [2] (numbered [102]).

(** [debug] closes it and shows an early exit, [trace_filter] has no trace of
    the transaction. *)
Theorem last_open_context_dropped :
  cache_block 1 = Ok [] /\
  handle_block_request (Id_Hash 77) call_tracer =
    Some (Ok (Response_Block [Trace_CallListNested (mkCallTracerCall 1 None 0 0
      (Tracer_Call "CALL" 10 "call" (CallResult_Error early_exit) (Some 5)) [])])).
Proof. split; by vm_compute. Qed.
End open.
